(* ===== verification/_CoqProject ===== *)
-Q . S2P
Prelude.v
PbStream.v
PbWire.v
PbSafe.v
PbCodec.v
PbMem.v
PbIter.v
PbEncode.v
PbDecode.v
PbLayout.v
PbEncodeSize.v
PbHeader.v
FirestoreProtos.v
PbRequired.v
Sep.v
Slice.v
PbTriple.v
PbOwned.v
PbFields.v
PbDefaults.v
PbRelease.v
PbScalars.v
PbFieldSafe.v
PbPointerSafe.v
PbMsgSafe.v
PbMemSafe.v
PbFirestore.v
PbFindings.v
Crypto.v
Cbs.v
CbsAsn1.v
Cbb.v
CbbSpec.v
CbbProps.v
Digits.v
Oid.v
OidSpec.v
SetOf.v
SetOfSpec.v
Ber.v
BerProps.v
BerSpec.v
Unicode.v
Base64.v
UvErrno.v
Idna.v
IdnaPuny.v
IdnaSpec.v
Inet.v
InetProps.v
Inet6.v
Inet6Parse.v
InetSpec.v
Heap.v
HeapSpec.v
HeapProps.v
HeapRefine.v
Queue.v
Loop.v
LoopInv.v
LoopOps.v
LoopRun.v
LoopPhases.v
LoopSpec.v
