(* ===== verification/Prelude.v ===== *)
(** * The C core of the SMSActivate example app

    The repository is a Swift client of the SMSActivate web service
    ([src/SMSActivate/Classes]) with an example app whose dependencies are committed
    under [src/Example/Pods].  The Swift code wraps HTTP requests; the logic the app
    rests on is in the C libraries below it: the protocol-buffers runtime of Firebase
    and Firestore (nanopb), the byte-string, ASN.1 and base64 layers of the TLS stack of
    gRPC (BoringSSL), and the event loop of gRPC (libuv).  This development models those
    layers and proves them correct.

    ** The parts, and where they are modelled

    - [Prelude.v] (this file): C operators on [Z], machine words ([wrap], [swrap]),
      bytes, big- and little-endian values, and [prog], the state-and-error monad of
      every operation: [Done], [Failed] (the C function returned its error value),
      [Stuck] (the C code would read or write where it may not, or fail an assertion)
      and [NoFuel] (a loop ran longer than the fuel given).
    - nanopb ([Pods/nanopb]).  [PbStream.v]: [pb_istream_t] and [pb_ostream_t] with
      memory, callback and sizing sources and sinks ([pb_read], [pb_write]).
      [PbWire.v]: varints, fixed-width values, tags, length-delimited fields,
      substreams, [pb_skip_field] and the scalar, bytes and string codecs of
      [pb_encode.c] and [pb_decode.c].  [PbSafe.v]: the decoders stay in their buffer and
      terminate on any input.  [PbCodec.v]: round trips, skipping of unknown fields,
      exactness of the sizing pass, and two defects of [pb_decode_varint32].
    - nanopb's messages: structs in memory, walked by their field descriptors.
      [PbMem.v]: loads and stores of a map from addresses to bytes.  [PbIter.v]: the
      descriptors of [pb.h] and the iterator of [pb_common.c].  [PbEncode.v]: the encoder
      ([pb_encode.c]).  [PbDecode.v]: the decoder, its allocations and [pb_release]
      ([pb_decode.c]).  [PbLayout.v]: where the fields are, and the search by tag.
      [PbEncodeSize.v]: the sizing pass and the writing pass agree.  [PbRequired.v]: the
      check of required fields.
    - The proof that the decoder is safe.  [Sep.v]: assertions on memory and blocks, for
      the Iris proof mode, with credits; [Slice.v]: parts of a byte string; [PbTriple.v]:
      the triples, which also count the input left and give a credit for each byte read,
      up to a [budget]; [PbOwned.v]: [table_ok], what the generator of
      descriptors guarantees, and [msg_owned], what a struct owns; [PbFields.v]: the
      fields of a struct; [PbDefaults.v], [PbRelease.v], [PbScalars.v], [PbFieldSafe.v],
      [PbPointerSafe.v], [PbMsgSafe.v]: a function or group of functions each;
      [PbMemSafe.v]: the theorems, stated without the logic.  [PbFindings.v]: runs that go
      wrong, of descriptors outside [table_ok] or of streams that fail, and the offsets of
      arrays of 4 GiB.
    - The messages of Firestore ([Pods/FirebaseFirestore/Firestore/Protos/nanopb]).
      [PbHeader.v]: the layout of C structs and the descriptor macros of [pb.h];
      [FirestoreProtos.v]: the structs and descriptor arrays of the generated files;
      [PbFirestore.v]: they satisfy [table_ok], so that all theorems hold of them.
    - BoringSSL ([Pods/BoringSSL-GRPC/src/crypto]).  [Crypto.v]: [internal.h] and [mem.c].
      [Cbs.v], [CbsAsn1.v]: the parser [bytestring/cbs.c]; the predicate [Inverts] states
      that a reader accepts exactly the encodings of a reference encoder.  [Cbb.v]: the
      builder [bytestring/cbb.c] on its growable buffer; [CbbSpec.v]: its abstract stack
      of open contents and the refinement of each operation; [CbbProps.v]: programs of
      builder calls, sticky errors, and the round trip through the parser.
      [Ber.v]: the conversion of BER to DER and the implicitly-tagged strings of
      [bytestring/ber.c], which read with the one and write with the other;
      [BerProps.v]: BER values as trees, what the search and the conversion do with
      their encodings; [BerSpec.v]: the public functions, and what the search misses.
      [Oid.v], [OidSpec.v]: object identifiers from and to text (of [cbb.c] and [cbs.c]).
      [SetOf.v], [SetOfSpec.v]: the sort of a SET OF ([cbb.c]).  [Digits.v]: numbers in
      text.
      [Unicode.v]: [bytestring/unicode.c].  [Base64.v]: [base64/base64.c], whole blocks
      and the incremental encoder and decoder.
    - libuv ([Pods/Libuv-gRPC/src]).  [Heap.v]: the pointer-based heap of [heap-inl.h]
      over a memory of nodes; [HeapSpec.v], [HeapProps.v]: its shape as a level-order
      list; [HeapRefine.v]: it refines a set with a least element.  [Queue.v]: the
      circular lists of [queue.h], refined to a map from heads to lists.  [Loop.v]: the
      event loop: handles and reference counting ([uv-common.h]), timers ([timer.c], on
      the heap), prepare, check and idle watchers ([unix/loop-watcher.c], on the queues),
      closing, pending callbacks and [uv_run] ([unix/core.c]).  [LoopInv.v]: the
      invariant that ties flags to structures; [LoopOps.v]: each operation keeps it;
      [LoopRun.v]: so do client code, the phases and the whole run, whatever the
      callbacks do; [LoopPhases.v]: what each phase calls, in which order;
      [LoopSpec.v]: the theorems.  [UvErrno.v]: the error codes.
      [Idna.v]: host names to ASCII ([idna.c]); [IdnaPuny.v]: the decoder of RFC 3492 and
      what the Punycode loops write; [IdnaSpec.v]: whole names, and the over-read of the
      UTF-8 decoder.  [Inet.v]: addresses to text and back
      ([inet.c], [strscpy.c]); [InetProps.v]: buffers, strings and IPv4; [Inet6.v]: the
      words, the run of zeros and the text of IPv6; [Inet6Parse.v]: the parser on that
      text; [InetSpec.v]: the theorems.

    ** How state and operations correspond to the code

    A C function is a definition of the same name.  Its state is explicit: the bytes
    left of a [CBS], the buffer and the chain of a [CBB], the memory of heap and queue
    nodes, the loop.  Objects that share storage (the CBBs of a chain, the nodes of a
    heap, the handles of a loop) live in one memory and are named by position or
    address.  Early returns are the branches of the definition, in the order of the code.
    Loops that are not structural take fuel; each has a theorem that some bound computed
    from the input is enough ([PbSafe], [EVP_DecodeUpdate_safe], [ber_reading_terminates],
    [heap_dequeue_sorts], [timers_fire_in_order], [closes_finish_once]), or a theorem without a bound where
    the code itself may go on forever ([loop_safe] for [uv_run], of which the watcher
    and closing phases always end).  [max_handles] is what the 32-bit counters of the
    loop and of the heap can hold; [MAX_LABEL] (3000 code points) is a length of a label up
    to which the 32-bit counters of the Punycode encoder cannot overflow, and far above
    the 63 bytes that DNS allows.

    The recursion of the decoder into submessages takes [decode_fuel], the bytes of the
    input and one more times the greatest static nesting of the table and one more:
    a message that is decoded into a new block has used a byte of the input, and static
    submessages nest no deeper than the table allows ([table_ok] ranks them).  The encoder
    follows a struct that may be cyclic; what is proved of it holds for whatever fuel
    suffices for its first pass.

    ** Parameters

    Which allocations succeed ([malloc_ok]) and what fresh memory holds; for messages the
    [Allocator] class (fresh blocks lie apart, of any size); [qsort] of the C
    library, with its contract ([SetOfSpec.qsort_spec]); stream callbacks, the decoding and
    encoding functions of callback fields and of extensions, the callbacks
    of the event loop, the clock, the poll for I/O and the close functions of the other
    handle types; the bytes an uninitialised buffer holds ([junk]).  Callbacks of the
    loop are any client code over its interface ([LoopSpec.client]); what exactly the
    watcher and closing phases do is stated for callbacks that change the state of the
    client only, and that of the timers for both; the poll is assumed to keep the
    invariant, as client code is proved to do.  The encoding functions of the user are
    assumed to write the same in both passes of the encoder.

    ** What the theorems show

    - safety: decoders and builders never leave their buffers, assertions of the event
      loop never fail;
    - memory and ownership: decoding a message, on any input and with any failing
      allocations, touches only the struct and blocks of its own, and the release gives
      every block back exactly once;
    - conversion: BER structures become the DER encodings of the same values;
    - functional exactness: each reader of nanopb, CBS, Unicode and base64 accepts
      exactly the encodings it documents and returns their value;
    - round trips between encoders and decoders, also through streams and chunks, of
      addresses and object identifiers through their text, and of host names through
      Punycode;
    - refinement: CBB programs, heap programs and queue programs implement their
      abstract specifications;
    - invariants and order: every reachable state of the loop is consistent; timers,
      watchers and closes run exactly once, in the documented order.

    ** Not modelled

    The theorems on memory leave out what [table_ok] excludes: callback fields and
    extensions (modelled, with the functions of the user as parameters, but their data is
    the user's), messages without fields, arrays of a fixed count of submessages, and
    static arrays of submessages that own memory, for which [PbFindings] shows that the
    decoder is not safe.  They also bound the input: the entries of a pointer array of
    strings, bytes or submessages take a byte of it each, so that inputs of less than 4 GiB
    divided by the size of an entry ([entries_fit]; 28 MiB for the largest entries of
    Firestore) keep the array below 4 GiB, up to where the 32-bit offsets of the code
    are right ([PbFindings.item_at_wraps] shows what they do then).  Arrays of numbers
    may wrap around, which loses entries but not memory.  That the encoder reads only within a decoded struct is not
    proved.  Of the generated messages, the annotations of [google/api], the empty message
    and the C++ functions that print a message are left out.
    Also not modelled: BoringSSL's big numbers, ciphers, X.509 and TLS; libuv's file
    descriptors, threads, processes and name resolution; the Swift code and the C++ of
    gRPC and Firestore. *)

From Stdlib Require Import ZArith Lia Bool.
From Stdlib Require Export Strings.Byte.
From stdpp Require Export base tactics list numbers option strings.

#[global] Open Scope Z_scope.

(** ** Notations of the C operators, in a scope of their own *)

Declare Scope c_scope.
Delimit Scope c_scope with c.
Infix ".&" := Z.land (at level 40, left associativity) : c_scope.
Infix ".|" := Z.lor (at level 50, left associativity) : c_scope.
Infix ".^" := Z.lxor (at level 50, left associativity) : c_scope.
Infix ".<<" := Z.shiftl (at level 38, left associativity) : c_scope.
Infix ".>>" := Z.shiftr (at level 38, left associativity) : c_scope.
#[global] Open Scope c_scope.

(** ** Machine words

    An unsigned [w]-bit value is a [Z] in [0, 2^w); an arithmetic result is
    brought back into that range by [wrap w].  Signed values are [Z] in the
    two's complement range, brought back by [swrap w]. *)

Definition wrap (w z : Z) : Z := z mod 2 ^ w.
Definition swrap (w z : Z) : Z := (z + 2 ^ (w - 1)) mod 2 ^ w - 2 ^ (w - 1).

Abbreviation u8 := (wrap 8).
Abbreviation u16 := (wrap 16).
Abbreviation u32 := (wrap 32).
Abbreviation u64 := (wrap 64).
Abbreviation i8 := (swrap 8).
Abbreviation i16 := (swrap 16).
Abbreviation i32 := (swrap 32).
Abbreviation i64 := (swrap 64).

Definition UINT32_MAX : Z := 2 ^ 32 - 1.
Definition UINT64_MAX : Z := 2 ^ 64 - 1.
Definition SIZE_MAX : Z := 2 ^ 64 - 1.
Definition INT_MAX : Z := 2 ^ 31 - 1.

(** ** Bytes *)

Definition b2z (b : byte) : Z := Z.of_N (Byte.to_N b).
Definition z2b (z : Z) : byte :=
  match Byte.of_N (Z.to_N (z mod 256)) with Some b => b | None => x00 end.

#[export] Instance byte_eq_dec : EqDecision byte.
Proof. intros x y. destruct (Byte.byte_eq_dec x y); [left | right]; done. Defined.

(** Every byte, so that a property of one byte can be decided by evaluation. *)
Definition all_bytes : list byte := z2b <$> seqZ 0 256.

Lemma b2z_range b : 0 <= b2z b < 256.
Proof.
  unfold b2z. split; [lia |].
  pose proof (Byte.to_N_bounded b). lia.
Qed.

Lemma z2b_wf z : Byte.of_N (Z.to_N (z mod 256)) = None -> False.
Proof.
  intros H%Byte.of_N_None_iff. pose proof (Z.mod_pos_bound z 256). lia.
Qed.

Lemma b2z_z2b z : b2z (z2b z) = z mod 256.
Proof.
  unfold b2z, z2b. destruct (Byte.of_N _) as [b |] eqn:E.
  - apply Byte.to_of_N in E. rewrite E.
    pose proof (Z.mod_pos_bound z 256). lia.
  - by destruct (z2b_wf z).
Qed.

Lemma b2z_inj b c : b2z b = b2z c -> b = c.
Proof.
  unfold b2z. intros H%N2Z.inj.
  pose proof (Byte.of_to_N b). pose proof (Byte.of_to_N c). congruence.
Qed.

Lemma z2b_b2z b : z2b (b2z b) = b.
Proof. apply b2z_inj. rewrite b2z_z2b. apply Z.mod_small, b2z_range. Qed.

Lemma b2z_z2b_small z : 0 <= z < 256 -> b2z (z2b z) = z.
Proof. intros. rewrite b2z_z2b. by apply Z.mod_small. Qed.

Lemma z2b_mod z : z2b (z mod 256) = z2b z.
Proof. unfold z2b. by rewrite Z.mod_mod. Qed.

Lemma z2b_wrap8 z : z2b (u8 z) = z2b z.
Proof. apply z2b_mod. Qed.

#[export] Instance b2z_inj' : Inj (=) (=) b2z.
Proof. intros b c. apply b2z_inj. Qed.

Lemma all_bytes_complete b : b ∈ all_bytes.
Proof.
  unfold all_bytes. apply list_elem_of_fmap. exists (b2z b).
  split; [by rewrite z2b_b2z |].
  apply elem_of_seqZ. pose proof (b2z_range b). lia.
Qed.

(** A boolean property of a byte that holds of the 256 values holds of all. *)
Lemma byte_forallb (f : byte -> bool) : forallb f all_bytes = true -> forall b, f b = true.
Proof.
  intros H b. rewrite forallb_forall in H. apply H.
  apply list_elem_of_In, all_bytes_complete.
Qed.

#[global] Arguments wrap : simpl never.
#[global] Arguments swrap : simpl never.
#[global] Arguments b2z : simpl never.
#[global] Arguments z2b : simpl never.
#[global] Arguments Z.pow : simpl never.
#[global] Arguments Z.land : simpl never.
#[global] Arguments Z.lor : simpl never.
#[global] Arguments Z.lxor : simpl never.
#[global] Arguments Z.shiftl : simpl never.
#[global] Arguments Z.shiftr : simpl never.
#[global] Arguments Z.modulo : simpl never.
#[global] Arguments Z.div : simpl never.
#[global] Arguments Z.mul : simpl never.

(** ** Words: range and arithmetic *)

Lemma wrap_range w z : 0 <= w -> 0 <= wrap w z < 2 ^ w.
Proof. intros. apply Z.mod_pos_bound. lia. Qed.

Lemma wrap_small w z : 0 <= z < 2 ^ w -> wrap w z = z.
Proof. apply Z.mod_small. Qed.

Lemma wrap_wrap w z : wrap w (wrap w z) = wrap w z.
Proof. unfold wrap. apply Zmod_mod. Qed.

(** A sum of two words wraps at most once. *)
Lemma wrap_add_cases w a b :
  0 <= w -> 0 <= a < 2 ^ w -> 0 <= b < 2 ^ w ->
  (wrap w (a + b) = a + b /\ a + b < 2 ^ w) \/
  (wrap w (a + b) = a + b - 2 ^ w /\ 2 ^ w <= a + b).
Proof.
  intros Hw Ha Hb. unfold wrap. destruct (Z_lt_ge_dec (a + b) (2 ^ w)).
  - left. split; [apply Z.mod_small | done]. lia.
  - right. split; [| lia]. symmetry. apply Z.mod_unique with 1; lia.
Qed.

Lemma swrap_small w z :
  1 <= w -> - 2 ^ (w - 1) <= z < 2 ^ (w - 1) -> swrap w z = z.
Proof.
  intros Hw Hz. unfold swrap.
  assert (2 ^ w = 2 * 2 ^ (w - 1)) by (rewrite <- Z.pow_succ_r by lia; f_equal; lia).
  rewrite Z.mod_small; lia.
Qed.

(** ** Bit operations as arithmetic *)

Lemma land_mod z n m : 0 <= n -> m = 2 ^ n - 1 -> z .& m = z mod 2 ^ n.
Proof. intros ? ->. rewrite <- Z.land_ones by done. by rewrite Z.ones_equiv, <- Z.sub_1_r. Qed.

Lemma land_7f z : z .& 127 = z mod 128.
Proof. by apply (land_mod z 7). Qed.
Lemma land_3f z : z .& 63 = z mod 64.
Proof. by apply (land_mod z 6). Qed.
Lemma land_1f z : z .& 31 = z mod 32.
Proof. by apply (land_mod z 5). Qed.
Lemma land_ff z : z .& 255 = z mod 256.
Proof. by apply (land_mod z 8). Qed.
Lemma land_07 z : z .& 7 = z mod 8.
Proof. by apply (land_mod z 3). Qed.
Lemma land_01 z : z .& 1 = z mod 2.
Proof. by apply (land_mod z 1). Qed.

Lemma testbit_small z n i : 0 <= z < 2 ^ n -> n <= i -> Z.testbit z i = false.
Proof.
  intros Hz Hi. destruct (decide (z = 0)) as [-> | Hne]; [apply Z.bits_0 |].
  apply Z.bits_above_log2; [lia |].
  apply Z.lt_le_trans with n; [| done]. apply Z.log2_lt_pow2; lia.
Qed.

(** Bits [n..] of [a] over bits [0..n-1] of [b]. *)
Lemma lor_shl a b n : 0 <= n -> 0 <= b < 2 ^ n -> (a .<< n) .| b = a * 2 ^ n + b.
Proof.
  intros Hn Hb. rewrite Z.shiftl_mul_pow2 by done. symmetry.
  assert (Z.land (a * 2 ^ n) b = 0) as Hd.
  { apply Z.bits_inj'. intros i Hi. rewrite Z.land_spec, Z.bits_0.
    destruct (Z_lt_ge_dec i n).
    - by rewrite Z.mul_pow2_bits_low.
    - rewrite (testbit_small b n); [apply andb_false_r | lia..]. }
  rewrite <- Z.lxor_lor by done. by apply Z.add_nocarry_lxor.
Qed.

Lemma lor_shl_r a b n : 0 <= n -> 0 <= b < 2 ^ n -> b .| (a .<< n) = a * 2 ^ n + b.
Proof. rewrite Z.lor_comm. apply lor_shl. Qed.

Lemma lor_lt_pow2 a b n :
  0 <= n -> 0 <= a < 2 ^ n -> 0 <= b < 2 ^ n -> 0 <= a .| b < 2 ^ n.
Proof.
  intros Hn Ha Hb.
  enough (a .| b = (a .| b) mod 2 ^ n) as -> by (apply Z.mod_pos_bound; lia).
  apply Z.bits_inj'. intros i Hi. destruct (Z_lt_ge_dec i n).
  - by rewrite Z.mod_pow2_bits_low.
  - rewrite Z.mod_pow2_bits_high, Z.lor_spec by lia.
    by rewrite !(testbit_small _ n) by lia.
Qed.

(** Bit 7 of a byte-sized value. *)
Lemma land_80 z : 0 <= z < 256 -> z .& 128 = if z <? 128 then 0 else 128.
Proof.
  intros Hz. rewrite <- (b2z_z2b_small z Hz). generalize (z2b z). intros b.
  apply Z.eqb_eq. revert b. by apply byte_forallb.
Qed.

Create HintDb cbits.
Create Rewrite HintDb cbits.
#[export] Hint Rewrite land_7f land_3f land_1f land_ff land_07 land_01 : cbits.
#[export] Hint Resolve b2z_range : cbits.

(** ** Tactics *)

(** Puts the range of every byte value in sight, then decides. *)
Ltac pose_bytes :=
  repeat match goal with
  | |- context [b2z ?b] =>
      lazymatch goal with H : 0 <= b2z b < 256 |- _ => fail | _ => pose proof (b2z_range b) end
  | _ : context [b2z ?b] |- _ =>
      lazymatch goal with H : 0 <= b2z b < 256 |- _ => fail | _ => pose proof (b2z_range b) end
  end.

Ltac blia := pose_bytes; lia.

(** The next conditional of the program text, with its boolean reflected. *)
Ltac case_bool :=
  match goal with
  | |- context [Z.eqb ?a ?b] => destruct (Z.eqb_spec a b)
  | |- context [Z.ltb ?a ?b] => destruct (Z.ltb_spec a b)
  | |- context [Z.leb ?a ?b] => destruct (Z.leb_spec a b)
  | H : context [Z.eqb ?a ?b] |- _ => destruct (Z.eqb_spec a b)
  | H : context [Z.ltb ?a ?b] |- _ => destruct (Z.ltb_spec a b)
  | H : context [Z.leb ?a ?b] |- _ => destruct (Z.leb_spec a b)
  end.

(** ** Programs over a state, with the failures of the C code as values

    A run ends in [Done] with a value, in [Failed] where the C function returns
    false (the state reached so far is kept, as the C code keeps it), in
    [Stuck] where the C code would access memory outside the object it was
    given, and in [NoFuel] where the model's bound on a loop was too small. *)

Inductive outcome (A : Type) : Type :=
  | Done (a : A)
  | Failed
  | Stuck
  | NoFuel.
Arguments Done {A} a.
Arguments Failed {A}.
Arguments Stuck {A}.
Arguments NoFuel {A}.

Definition prog (S A : Type) : Type := S -> outcome A * S.

#[export] Instance prog_ret S : MRet (prog S) := fun A a s => (Done a, s).
#[export] Instance prog_bind S : MBind (prog S) := fun A B f m s =>
  match m s with
  | (Done a, s') => f a s'
  | (Failed, s') => (Failed, s')
  | (Stuck, s') => (Stuck, s')
  | (NoFuel, s') => (NoFuel, s')
  end.

Definition getS {S} : prog S S := fun s => (Done s, s).
Definition modifyS {S} (f : S -> S) : prog S unit := fun s => (Done tt, f s).
Definition fail {S A} : prog S A := fun s => (Failed, s).
Definition stuck {S A} : prog S A := fun s => (Stuck, s).
Definition nofuel {S A} : prog S A := fun s => (NoFuel, s).

(** The caller of a C function that looks at the returned flag. *)
Definition try_ {S A} (m : prog S A) : prog S (option A) := fun s =>
  match m s with
  | (Done a, s') => (Done (Some a), s')
  | (Failed, s') => (Done None, s')
  | (Stuck, s') => (Stuck, s')
  | (NoFuel, s') => (NoFuel, s')
  end.

Lemma prog_bind_done {S A B} (m : prog S A) (f : A -> prog S B) s a s' :
  m s = (Done a, s') -> (m ≫= f) s = f a s'.
Proof. intros H. unfold mbind, prog_bind. by rewrite H. Qed.

Lemma prog_bind_failed {S A B} (m : prog S A) (f : A -> prog S B) s s' :
  m s = (Failed, s') -> (m ≫= f) s = (Failed, s').
Proof. intros H. unfold mbind, prog_bind. by rewrite H. Qed.

Lemma prog_bind_assoc {S A B C} (m : prog S A) (f : A -> prog S B) (g : B -> prog S C) s :
  ((m ≫= f) ≫= g) s = (m ≫= (fun x => f x ≫= g)) s.
Proof. unfold mbind, prog_bind. by destruct (m s) as [[] ?]. Qed.

Lemma prog_bind_ext {S B C} (m : prog S B) (g h : B -> prog S C) s :
  (forall b s', g b s' = h b s') -> (m ≫= g) s = (m ≫= h) s.
Proof. intros H. unfold mbind, prog_bind. by destruct (m s) as [[] ?]. Qed.

(** [Safe I m]: from a state satisfying [I], [m] neither leaves its objects nor
    runs out of fuel, and it ends in a state satisfying [I]. *)
Class Safe {S A} (I : S -> Prop) (m : prog S A) : Prop :=
  safe_run : forall s, I s -> (m s).1 <> Stuck /\ (m s).1 <> NoFuel /\ I (m s).2.

(** [runs P m Q E]: from a state satisfying [P], [m] neither leaves its objects
    nor runs out of fuel; it returns a value and a state satisfying [Q], or fails
    in a state satisfying [E]. *)
Definition runs {S A} (P : S -> Prop) (m : prog S A) (Q : A -> S -> Prop) (E : S -> Prop) : Prop :=
  forall s, P s ->
    match m s with
    | (Done a, s') => Q a s'
    | (Failed, s') => E s'
    | _ => False
    end.

Section Runs.
Context {S A B : Type}.
Implicit Types (P E : S -> Prop) (m : prog S A).

Lemma runs_bind P m (Q : A -> S -> Prop) (f : A -> prog S B) R E :
  runs P m Q E -> (forall a, runs (Q a) (f a) R E) -> runs P (m ≫= f) R E.
Proof.
  intros Hm Hf s Hs. specialize (Hm s Hs). unfold mbind, prog_bind.
  destruct (m s) as [[a | | |] s']; try done. by apply Hf.
Qed.

Lemma runs_ret P (Q : A -> S -> Prop) E a :
  (forall s, P s -> Q a s) -> runs P (mret a) Q E.
Proof. intros HPQ s Hs. by apply HPQ. Qed.

Lemma runs_weaken P P' m (Q Q' : A -> S -> Prop) E :
  runs P' m Q' E -> (forall s, P s -> P' s) -> (forall a s, Q' a s -> Q a s) -> runs P m Q E.
Proof.
  intros Hm HP HQ s Hs. specialize (Hm s (HP s Hs)).
  destruct (m s) as [[a | | |] s']; try done. by apply HQ.
Qed.

Lemma runs_if P (b : bool) m1 m2 (Q : A -> S -> Prop) E :
  runs P m1 Q E -> runs P m2 Q E -> runs P (if b then m1 else m2) Q E.
Proof. by destruct b. Qed.

Lemma runs_pure P (phi : Prop) m (Q : A -> S -> Prop) E :
  (phi -> runs P m Q E) -> runs (fun s => P s /\ phi) m Q E.
Proof. intros Hm s [Hs Hphi]. by apply (Hm Hphi). Qed.

Lemma runs_safe I m : runs I m (fun _ => I) I <-> Safe I m.
Proof.
  split; intros Hm s Hs; specialize (Hm s Hs); destruct (m s) as [[a | | |] s']; simpl in *; try done;
    by destruct Hm as (? & ? & ?).
Qed.
End Runs.

Section Safe.
Context {S A B : Type} (I : S -> Prop).

#[export] Instance safe_ret (a : A) : Safe I (mret a : prog S A).
Proof. by intros s Hs. Qed.

#[export] Instance safe_fail : Safe I (fail : prog S A).
Proof. by intros s Hs. Qed.

#[export] Instance safe_get : Safe I (getS : prog S S).
Proof. by intros s Hs. Qed.

#[export] Instance safe_bind (m : prog S A) (f : A -> prog S B) :
  Safe I m -> (forall a, Safe I (f a)) -> Safe I (m ≫= f).
Proof.
  intros Hm Hf s Hs. destruct (Hm s Hs) as (H1 & H2 & H3).
  unfold mbind, prog_bind. destruct (m s) as [[a | | |] s']; simpl in *; try done.
  by apply Hf.
Qed.

(** The continuation may rely on what [m] returns. *)
Lemma safe_bind_runs (Q : A -> Prop) (m : prog S A) (f : A -> prog S B) :
  runs I m (fun a s => I s /\ Q a) I -> (forall a, Q a -> Safe I (f a)) -> Safe I (m ≫= f).
Proof.
  intros Hm Hf. apply runs_safe. eapply runs_bind; [done |]. intros a s [Hs Hq].
  by apply runs_safe; [apply Hf |].
Qed.

#[export] Instance safe_try (m : prog S A) : Safe I m -> Safe I (try_ m).
Proof.
  intros Hm s Hs. destruct (Hm s Hs) as (H1 & H2 & H3). unfold try_.
  by destruct (m s) as [[a | | |] s']; simpl in *.
Qed.

#[export] Instance safe_if (b : bool) (m1 m2 : prog S A) :
  Safe I m1 -> Safe I m2 -> Safe I (if b then m1 else m2).
Proof. by destruct b. Qed.
End Safe.

(** [lia] with the Euclidean equations of the divisions in sight. *)
Ltac dlia := pose_bytes; Z.to_euclidean_division_equations; lia.

Lemma lor_80 z : 0 <= z < 128 -> z .| 128 = z + 128.
Proof. intros. change 128 with (1 .<< 7) at 1. rewrite lor_shl_r; lia. Qed.

Lemma z2b_inj z z' : 0 <= z < 256 -> 0 <= z' < 256 -> z2b z = z2b z' -> z = z'.
Proof. intros ?? H%(f_equal b2z). by rewrite !b2z_z2b_small in H. Qed.

(** The bits of [x << p] that survive in a [w]-bit word, over [r < 2^p]. *)
Lemma lor_wrap_shl w r x p :
  0 <= p <= w -> 0 <= r < 2 ^ p -> r .| wrap w (x .<< p) = wrap w (r + x * 2 ^ p).
Proof.
  intros Hp Hr. unfold wrap.
  assert (2 ^ w = 2 ^ (w - p) * 2 ^ p) as -> by (rewrite <- Z.pow_add_r by lia; f_equal; lia).
  rewrite Z.shiftl_mul_pow2, Z.mul_mod_distr_r by lia.
  rewrite <- Z.shiftl_mul_pow2, lor_shl_r by lia.
  rewrite (Z.add_comm r), <- (Z.mod_small r (2 ^ p)) at 1 by lia.
  set (P := 2 ^ p) in *. set (Q := 2 ^ (w - p)).
  assert (0 < Q) by (apply Z.pow_pos_nonneg; lia). assert (0 < P) by lia.
  rewrite (Z.mod_small r P) by lia.
  apply Z.mod_unique_pos with (x / Q); [| pose proof (Z.div_mod x Q); lia].
  pose proof (Z.mod_pos_bound x Q). nia.
Qed.

(** ** Big-endian words *)

Definition be_value (l : list byte) : Z := fold_left (fun acc b => acc * 256 + b2z b) l 0.

(** [k] bytes of [v], most significant first. *)
Fixpoint be_bytes (k : nat) (v : Z) : list byte :=
  match k with
  | O => []
  | S k => z2b (v / 256 ^ Z.of_nat k) :: be_bytes k v
  end.

Lemma be_value_snoc l b : be_value (l ++ [b]) = be_value l * 256 + b2z b.
Proof. unfold be_value. by rewrite fold_left_app. Qed.

Lemma be_value_range l : 0 <= be_value l < 256 ^ Z.of_nat (length l).
Proof.
  induction l as [| b l IH] using rev_ind; [done |].
  rewrite be_value_snoc, length_app, Nat2Z.inj_add, Z.pow_add_r by lia. simpl length. blia.
Qed.

Lemma be_value_cons b l :
  be_value (b :: l) = b2z b * 256 ^ Z.of_nat (length l) + be_value l.
Proof.
  induction l as [| c l IH] using rev_ind; [unfold be_value; simpl; lia |].
  change (b :: l ++ [c]) with ((b :: l) ++ [c]). rewrite !be_value_snoc, IH.
  rewrite length_app, Nat2Z.inj_add, Z.pow_add_r by lia. simpl length. lia.
Qed.

Lemma be_value_app l1 l2 :
  be_value (l1 ++ l2) = be_value l1 * 256 ^ Z.of_nat (length l2) + be_value l2.
Proof.
  induction l2 as [| c l IH] using rev_ind; [rewrite app_nil_r; unfold be_value at 3; simpl; lia |].
  rewrite app_assoc, !be_value_snoc, IH.
  rewrite length_app, Nat2Z.inj_add, Z.pow_add_r by lia. simpl length. lia.
Qed.

Lemma length_be_bytes k v : length (be_bytes k v) = k.
Proof. induction k as [| k IH]; simpl; [done | by rewrite IH]. Qed.

Lemma be_value_be_bytes k v : be_value (be_bytes k v) = v mod 256 ^ Z.of_nat k.
Proof.
  induction k as [| k IH]; [by rewrite Z.mod_1_r |].
  cbn [be_bytes]. rewrite be_value_cons, IH, length_be_bytes, b2z_z2b.
  rewrite Nat2Z.inj_succ, Z.pow_succ_r, (Z.mul_comm 256) by lia.
  rewrite Z.rem_mul_r by lia. lia.
Qed.

Lemma be_bytes_mod_ext k v v' :
  v mod 256 ^ Z.of_nat k = v' mod 256 ^ Z.of_nat k -> be_bytes k v = be_bytes k v'.
Proof.
  induction k as [| k IH]; [done |]. rewrite Nat2Z.inj_succ, Z.pow_succ_r, (Z.mul_comm 256) by lia.
  intros E. rewrite !Z.rem_mul_r in E by lia. cbn [be_bytes].
  pose proof (Z.mod_pos_bound v (256 ^ Z.of_nat k)).
  pose proof (Z.mod_pos_bound v' (256 ^ Z.of_nat k)).
  assert (0 < 256 ^ Z.of_nat k) by lia.
  destruct (Z.div_mod_unique (256 ^ Z.of_nat k) ((v / 256 ^ Z.of_nat k) mod 256)
    ((v' / 256 ^ Z.of_nat k) mod 256) (v mod 256 ^ Z.of_nat k) (v' mod 256 ^ Z.of_nat k))
    as [Eq Er]; [lia.. |].
  rewrite (IH Er). f_equal. by rewrite <- (z2b_mod (v / _)), <- (z2b_mod (v' / _)), Eq.
Qed.

Lemma be_bytes_be_value l : be_bytes (length l) (be_value l) = l.
Proof.
  induction l as [| b l IH]; [done |]. cbn [length be_bytes].
  pose proof (be_value_range l). rewrite be_value_cons. f_equal.
  - rewrite Z.div_add_l, Z.div_small by lia. by rewrite Z.add_0_r, z2b_b2z.
  - etransitivity; [| exact IH]. apply be_bytes_mod_ext.
    rewrite Z.add_comm, Z.mod_add by lia. done.
Qed.

Lemma be_value_inj l l' : length l = length l' -> be_value l = be_value l' -> l = l'.
Proof.
  intros Hlen Hv. by rewrite <- (be_bytes_be_value l), <- (be_bytes_be_value l'), Hlen, Hv.
Qed.

Lemma pow256_S k : 256 ^ Z.of_nat (S k) = 256 * 256 ^ Z.of_nat k.
Proof. by rewrite Nat2Z.inj_succ, Z.pow_succ_r by lia. Qed.

(** The least significant byte is the last one. *)
Lemma be_bytes_snoc k v : be_bytes (S k) v = be_bytes k (v / 256) ++ [z2b v].
Proof.
  revert v. induction k as [| k IH]; intros v; [simpl; by rewrite Z.div_1_r |].
  change (be_bytes (S (S k)) v) with (z2b (v / 256 ^ Z.of_nat (S k)) :: be_bytes (S k) v).
  rewrite IH. cbn [be_bytes app]. f_equal. rewrite pow256_S, Z.div_div by lia. done.
Qed.
