(* ===== verification/PbStream.v ===== *)
(** * nanopb streams

    The input and output streams of nanopb ([Pods/nanopb/pb_decode.c],
    [pb_encode.c]), over which the protocol-buffers wire format of the
    Firestore client is read and written.  A stream works on a memory buffer
    ([buf_read], [buf_write]) or through a callback the user supplies; the
    callback is a parameter, with the rules of [pb_decode.h] and [pb_encode.h]
    as the laws of a class.  [size_t] is 64 bits wide. *)

From S2P Require Import Prelude.

(** ** The callback of a custom input stream *)

(** Rules 1 and 2 of [pb_decode.h]: the callback keeps its own state, returns
    false on I/O errors, and otherwise fills the [count] bytes asked for. *)
Class ReadCallback (St : Type) := {
  user_read : St -> nat -> option (list byte) * St;
  user_read_length st n l st' : user_read st n = (Some l, st') -> length l = n;
}.

(** The output side: the callback consumes the bytes, or fails. *)
Class WriteCallback (St : Type) := {
  user_write : St -> list byte -> bool * St;
}.

(** ** [pb_istream_t] *)

(** [callback == buf_read], with the memory from the [state] pointer to the end
    of the object it points into, or a user callback with its [state]. *)
Inductive isource (St : Type) : Type :=
  | BufSrc (mem : list byte)
  | CbSrc (st : St).
Arguments BufSrc {St} mem.
Arguments CbSrc {St} st.

Record pb_istream_t (St : Type) := mk_istream {
  i_src : isource St;
  bytes_left : Z;
  i_errmsg : option string;
}.
Arguments mk_istream {St} i_src bytes_left i_errmsg.
Arguments i_src {St} p.
Arguments bytes_left {St} p.
Arguments i_errmsg {St} p.

Definition set_bytes_left {St} (n : Z) (s : pb_istream_t St) : pb_istream_t St :=
  mk_istream (i_src s) n (i_errmsg s).

Section IStream.
Context {St : Type} `{ReadCallback St}.

Abbreviation M := (prog (pb_istream_t St)).

(** [PB_RETURN_ERROR]: the first message set is the one kept. *)
Definition PB_RETURN_ERROR {A} (msg : string) : M A := fun s =>
  (Failed, mk_istream (i_src s) (bytes_left s)
             (Some (match i_errmsg s with Some m => m | None => msg end))).

(** [stream->callback(stream, buf, count)].  [buf_read] moves [state] by
    [count] without looking at [bytes_left]. *)
Definition run_callback (count : nat) : M (option (list byte)) := fun s =>
  match i_src s with
  | BufSrc mem =>
      if Nat.leb count (length mem)
      then (Done (Some (take count mem)),
            mk_istream (BufSrc (drop count mem)) (bytes_left s) (i_errmsg s))
      else (Stuck, s)
  | CbSrc st =>
      let '(r, st') := user_read st count in
      (Done r, mk_istream (CbSrc st') (bytes_left s) (i_errmsg s))
  end.

(** [pb_read] with [buf != NULL], and with [buf == NULL] on a buffer. *)
Definition pb_read_direct (count : Z) : M (list byte) :=
  if count =? 0 then mret [] else
  s ← getS;
  if bytes_left s <? count then PB_RETURN_ERROR "end-of-stream" else
  r ← run_callback (Z.to_nat count);
  match r with
  | None => PB_RETURN_ERROR "io error"
  | Some bytes =>
      _ ← modifyS (fun s => set_bytes_left (u64 (bytes_left s - count)) s);
      mret bytes
  end.

(** The loop that skips input of a custom stream through [tmp[16]]. *)
Fixpoint pb_read_skip (fuel : nat) (count : Z) : M (list byte) :=
  if 16 <? count then
    match fuel with
    | O => nofuel
    | S fuel => _ ← pb_read_direct 16; pb_read_skip fuel (count - 16)
    end
  else _ ← pb_read_direct count; mret [].

(** [pb_read(stream, buf, count)]; [null] says that [buf] is [NULL], in which
    case the bytes are skipped. *)
Definition pb_read (null : bool) (count : Z) : M (list byte) :=
  if count =? 0 then mret [] else
  s ← getS;
  match i_src s with
  | CbSrc _ => if null then pb_read_skip (Z.to_nat (count / 16)) count
               else pb_read_direct count
  | BufSrc _ => pb_read_direct count
  end.

Definition pb_readbyte : M byte :=
  s ← getS;
  if bytes_left s =? 0 then PB_RETURN_ERROR "end-of-stream" else
  r ← run_callback 1;
  match r with
  | Some (b :: _) =>
      _ ← modifyS (fun s => set_bytes_left (bytes_left s - 1) s);
      mret b
  | _ => PB_RETURN_ERROR "io error"
  end.

Definition pb_istream_from_buffer (mem : list byte) (bufsize : Z) : pb_istream_t St :=
  mk_istream (BufSrc mem) bufsize None.

(** ** The invariant of an input stream: [bytes_left] bytes are there *)

Definition istream_ok (s : pb_istream_t St) : Prop :=
  0 <= bytes_left s < 2 ^ 64 /\
  match i_src s with
  | BufSrc mem => bytes_left s <= Z.of_nat (length mem)
  | CbSrc _ => True
  end.

#[export] Instance safe_error {A} msg : Safe istream_ok (@PB_RETURN_ERROR A msg).
Proof. by intros s Hs. Qed.

Lemma pb_read_direct_ok count :
  0 <= count -> Safe istream_ok (pb_read_direct count).
Proof.
  intros Hc [src n e] [Hn Hm]. unfold pb_read_direct, mbind, prog_bind, getS, run_callback.
  simpl in *. case_bool; [done |]. case_bool; [done |].
  destruct src as [mem | st]; simpl in *.
  - destruct (Nat.leb_spec (Z.to_nat count) (length mem)); [| lia]. simpl.
    unfold istream_ok; simpl. rewrite (wrap_small 64) by lia.
    rewrite length_drop. split_and!; (done || lia).
  - destruct (user_read st _) as [[l |] st'] eqn:E; simpl; [| done].
    unfold istream_ok; simpl. rewrite (wrap_small 64) by lia.
    split_and!; (done || lia).
Qed.

#[export] Instance pb_readbyte_ok : Safe istream_ok pb_readbyte.
Proof.
  intros [src n e] [Hn Hm]. unfold pb_readbyte, mbind, prog_bind, getS, run_callback.
  simpl in *. case_bool; [done |]. simpl.
  destruct src as [[| b mem] | st]; simpl in *.
  - lia.
  - unfold istream_ok; simpl. rewrite drop_0. split_and!; (done || lia).
  - destruct (user_read st 1) as [[[| b l] |] st'] eqn:E; simpl; try done.
    unfold istream_ok; simpl. split_and!; (done || lia).
Qed.

Lemma pb_read_skip_ok fuel count :
  0 <= count -> count / 16 <= Z.of_nat fuel -> Safe istream_ok (pb_read_skip fuel count).
Proof.
  revert count. induction fuel as [| fuel IH]; intros count Hc Hf; simpl;
    destruct (Z.ltb_spec 16 count).
  - exfalso. dlia.
  - apply safe_bind; [by apply pb_read_direct_ok | intros; apply _].
  - apply safe_bind; [by apply pb_read_direct_ok |]. intros _. apply IH; dlia.
  - apply safe_bind; [by apply pb_read_direct_ok | intros; apply _].
Qed.

Lemma pb_read_ok null count : 0 <= count -> Safe istream_ok (pb_read null count).
Proof.
  intros Hc. unfold pb_read. case_bool; [apply _ |].
  apply safe_bind; [apply _ |]. intros s. destruct (i_src s).
  - by apply pb_read_direct_ok.
  - destruct null; [| by apply pb_read_direct_ok].
    apply pb_read_skip_ok; dlia.
Qed.
End IStream.

(** ** Invariants the reads preserve

    [istream_ok] is one; that the stream is some bytes further in the same buffer
    is another.  What the decoders keep is proved once, against this interface. *)

Class StreamInv {St} `{ReadCallback St} (I : pb_istream_t St -> Prop) : Prop := {
  si_ok s : I s -> istream_ok s;
  si_error A msg : Safe I (@PB_RETURN_ERROR St A msg);
  si_readbyte : Safe I pb_readbyte;
  si_read null count : 0 <= count -> Safe I (pb_read null count);
}.
#[export] Existing Instances si_error si_readbyte.
#[export] Hint Extern 1 (Safe _ (pb_read _ _)) => apply si_read; lia : typeclass_instances.

Section StreamInv.
Context {St : Type} `{ReadCallback St}.

#[export] Instance istream_ok_inv : StreamInv (St:=St) istream_ok.
Proof. split; [done | apply _ | apply _ | by apply pb_read_ok]. Qed.

(** [s] is [s0] after some of the bytes left in its buffer were consumed. *)
Definition advanced_from (s0 s : pb_istream_t St) : Prop :=
  exists mem k, istream_ok s0 /\ i_src s0 = BufSrc mem /\ 0 <= k <= bytes_left s0 /\
    i_src s = BufSrc (drop (Z.to_nat k) mem) /\ bytes_left s = bytes_left s0 - k.

Lemma advanced_from_ok s0 s : advanced_from s0 s -> istream_ok s.
Proof.
  intros (mem & k & [Hn Hm] & H1 & Hk & H2 & H3). rewrite H1 in Hm.
  unfold istream_ok. rewrite H2, H3, length_drop. lia.
Qed.

Lemma advanced_from_refl s mem :
  istream_ok s -> i_src s = BufSrc mem -> advanced_from s s.
Proof.
  intros Hs Hm. exists mem, 0. rewrite drop_0, Z.sub_0_r. destruct Hs as [? ?].
  split_and!; (done || lia).
Qed.

Lemma advanced_from_read s0 s count e mem' :
  advanced_from s0 s -> i_src s = BufSrc mem' -> 0 <= count <= bytes_left s ->
  advanced_from s0
    (mk_istream (BufSrc (drop (Z.to_nat count) mem')) (bytes_left s - count) e).
Proof.
  intros (mem & k & Hok & H1 & Hk & H2 & H3) Hm Hc. rewrite H2 in Hm. injection Hm as <-.
  exists mem, (k + count). rewrite drop_drop, <- Z2Nat.inj_add by lia. simpl.
  split_and!; (done || lia || f_equal; lia).
Qed.

#[export] Instance advanced_from_inv s0 : StreamInv (advanced_from s0).
Proof.
  assert (forall s, advanced_from s0 s -> exists mem, i_src s = BufSrc mem) as Hbuf.
  { intros s (mem & k & _ & _ & _ & ? & _). by eexists. }
  assert (forall s e, advanced_from s0 s ->
            advanced_from s0 (mk_istream (i_src s) (bytes_left s) e)) as Herr.
  { intros s e (mem & k & ?). by exists mem, k. }
  split; [by apply advanced_from_ok | intros A msg s Hs; split_and!; [done.. | by apply Herr] | |].
  - intros s Hs. destruct (Hbuf s Hs) as [mem Hmem].
    destruct (pb_readbyte_ok s (advanced_from_ok s0 s Hs)) as (H1 & H2 & _).
    split_and!; [done.. |]. clear H1 H2. pose proof (advanced_from_ok s0 s Hs) as [Hn Hl].
    rewrite Hmem in Hl. destruct s as [src n e]. simpl in *. subst src.
    unfold pb_readbyte, mbind, prog_bind, getS, run_callback. simpl.
    destruct (Z.eqb_spec n 0); simpl; [by apply (Herr (mk_istream (BufSrc mem) n e)) |].
    destruct mem as [| b mem]; simpl in *; [lia |]. rewrite drop_0.
    unfold set_bytes_left; simpl.
    apply (advanced_from_read s0 _ 1 e _ Hs eq_refl). simpl. lia.
  - intros null count Hc s Hs. destruct (Hbuf s Hs) as [mem Hmem].
    pose proof (advanced_from_ok s0 s Hs) as Hok.
    destruct (pb_read_ok null count Hc s Hok) as (H1 & H2 & _).
    split_and!; [done.. |]. clear H1 H2. destruct Hok as [Hn Hl].
    rewrite Hmem in Hl. destruct s as [src n e]. simpl in *. subst src.
    unfold pb_read, pb_read_direct, mbind, prog_bind, getS. simpl.
    destruct (Z.eqb_spec count 0); simpl; [done |].
    destruct (Z.ltb_spec n count); simpl; [by apply (Herr (mk_istream (BufSrc mem) n e)) |].
    unfold run_callback. simpl.
    destruct (Nat.leb_spec (Z.to_nat count) (length mem)); [| done]. simpl.
    unfold set_bytes_left; simpl. rewrite wrap_small by lia.
    apply (advanced_from_read s0 _ count e _ Hs eq_refl). simpl. lia.
Qed.

(** Reading a byte uses one up. *)
Lemma pb_readbyte_left (s : pb_istream_t St) b s' :
  istream_ok s -> pb_readbyte s = (Done b, s') ->
  bytes_left s' = bytes_left s - 1 /\ 1 <= bytes_left s.
Proof.
  intros [Hn Hm]. unfold pb_readbyte, mbind, prog_bind, getS, run_callback. simpl.
  destruct (Z.eqb_spec (bytes_left s) 0); simpl; [done |].
  destruct (i_src s) as [[| c mem] | st]; simpl in *; [done | |].
  - intros [= <- <-]. simpl. lia.
  - destruct (user_read st 1) as [[[| c l] |] st']; simpl; try done.
    intros [= <- <-]. simpl. lia.
Qed.

Lemma pb_read1_left (s : pb_istream_t St) l s' :
  istream_ok s -> pb_read false 1 s = (Done l, s') ->
  bytes_left s' = bytes_left s - 1 /\ 1 <= bytes_left s /\ length l = 1%nat.
Proof.
  intros [Hn Hm]. unfold pb_read, pb_read_direct, mbind, prog_bind, getS. simpl.
  destruct (i_src s) as [mem | st] eqn:E; simpl;
    (destruct (Z.ltb_spec (bytes_left s) 1); simpl; [done |]);
    unfold run_callback; rewrite E; change (Z.to_nat 1) with 1%nat.
  - destruct mem as [| c mem]; simpl in *; [lia |]. intros [= <- <-]. simpl.
    rewrite wrap_small by lia. done.
  - destruct (user_read st 1) as [[l' |] st'] eqn:Eu; simpl; [| done].
    intros [= <- <-]. simpl. rewrite wrap_small by lia.
    by rewrite (user_read_length _ _ _ _ Eu).
Qed.

(** A read into a buffer delivers as many bytes as were asked for. *)
Lemma pb_read_length (s : pb_istream_t St) count l s' :
  0 <= count -> pb_read false count s = (Done l, s') -> length l = Z.to_nat count.
Proof.
  intros Hc. unfold pb_read, pb_read_direct, mbind, prog_bind, getS, run_callback.
  destruct (Z.eqb_spec count 0) as [-> |]; [by intros [= <- <-] |].
  destruct (i_src s) as [mem | st] eqn:E; rewrite ?E;
    (destruct (bytes_left s <? count); [done |]); rewrite E.
  - destruct (Nat.leb_spec (Z.to_nat count) (length mem)); [| done].
    intros [= <- <-]. rewrite length_take. lia.
  - destruct (user_read st _) as [[l' |] st'] eqn:Eu; [| done].
    intros [= <- <-]. by apply user_read_length in Eu.
Qed.

Lemma pb_read_runs (I : pb_istream_t St -> Prop) `{!StreamInv I} count :
  0 <= count ->
  runs I (pb_read false count) (fun l s => I s /\ length l = Z.to_nat count) I.
Proof.
  intros Hc s Hs. destruct (si_read false count Hc s Hs) as (H1 & H2 & H3).
  destruct (pb_read false count s) as [[l | | |] s'] eqn:E; simpl in *; try done.
  split; [done |]. by eapply pb_read_length.
Qed.
End StreamInv.

(** ** [pb_ostream_t] *)

(** Where the output goes: [callback == buf_write] with the bytes written so far
    through [state] and the room left in the object it points into; [callback
    == NULL], a stream that only counts ([PB_OSTREAM_SIZING]); or a user
    callback. *)
Inductive osink (St : Type) : Type :=
  | BufSink (written : list byte) (room : Z)
  | NullSink
  | CbSink (st : St).
Arguments BufSink {St} written room.
Arguments NullSink {St}.
Arguments CbSink {St} st.

Record pb_ostream_t (St : Type) := mk_ostream {
  o_sink : osink St;
  max_size : Z;
  bytes_written : Z;
  o_errmsg : option string;
}.
Arguments mk_ostream {St} o_sink max_size bytes_written o_errmsg.
Arguments o_sink {St} p.
Arguments max_size {St} p.
Arguments bytes_written {St} p.
Arguments o_errmsg {St} p.

Section OStream.
Context {St : Type} `{WriteCallback St}.

Abbreviation M := (prog (pb_ostream_t St)).

Definition PB_RETURN_OERROR {A} (msg : string) : M A := fun s =>
  (Failed, mk_ostream (o_sink s) (max_size s) (bytes_written s)
             (Some (match o_errmsg s with Some m => m | None => msg end))).

(** [stream->callback(stream, buf, count)], of a callback that is not [NULL].
    [buf_write] copies [count] bytes of [buf] to the memory at [state]. *)
Definition run_ocallback (buf : list byte) (count : nat) : M bool := fun s =>
  let s' k := mk_ostream k (max_size s) (bytes_written s) (o_errmsg s) in
  match o_sink s with
  | BufSink w room =>
      if Nat.leb count (length buf) && (Z.of_nat count <=? room)
      then (Done true, s' (BufSink (w ++ take count buf) (room - Z.of_nat count)))
      else (Stuck, s)
  | CbSink st =>
      if Nat.leb count (length buf)
      then let '(r, st') := user_write st (take count buf) in (Done r, s' (CbSink st'))
      else (Stuck, s)
  | NullSink => (Stuck, s)
  end.

Definition is_null_sink (s : pb_ostream_t St) : bool :=
  match o_sink s with NullSink => true | _ => false end.

Definition add_written (count : Z) (s : pb_ostream_t St) : pb_ostream_t St :=
  mk_ostream (o_sink s) (max_size s) (u64 (bytes_written s + count)) (o_errmsg s).

(** [pb_write(stream, buf, count)]; a [NULL] [buf] is the empty list. *)
Definition pb_write (buf : list byte) (count : Z) : M unit :=
  s ← getS;
  _ ← (if (0 <? count) && negb (is_null_sink s) then
         if (u64 (bytes_written s + count) <? bytes_written s)
            || (max_size s <? u64 (bytes_written s + count))
         then PB_RETURN_OERROR "stream full"
         else
           ok ← run_ocallback buf (Z.to_nat count);
           if ok : bool then mret tt else PB_RETURN_OERROR "io error"
       else mret tt);
  modifyS (add_written count).

Definition pb_ostream_from_buffer (bufsize : Z) : pb_ostream_t St :=
  mk_ostream (BufSink [] bufsize) bufsize 0 None.

Definition PB_OSTREAM_SIZING : pb_ostream_t St := mk_ostream NullSink 0 0 None.

(** ** The invariant of an output stream

    The room left in a buffer covers what [max_size] still allows. *)
Definition ostream_ok (s : pb_ostream_t St) : Prop :=
  0 <= bytes_written s < 2 ^ 64 /\ 0 <= max_size s < 2 ^ 64 /\
  match o_sink s with
  | BufSink w room => bytes_written s <= max_size s /\ max_size s - bytes_written s <= room
  | _ => True
  end.

#[export] Instance safe_oerror {A} msg : Safe ostream_ok (@PB_RETURN_OERROR A msg).
Proof. by intros s Hs. Qed.

(** A write of bytes that are there never leaves the buffer. *)
Lemma pb_write_ok buf count :
  0 <= count <= Z.of_nat (length buf) -> count < 2 ^ 64 -> Safe ostream_ok (pb_write buf count).
Proof.
  intros Hc Hc' [k m w e] (Hw & Hm & Hk). simpl in *.
  unfold pb_write, mbind, prog_bind, getS, is_null_sink, run_ocallback. simpl.
  assert (forall x, 0 <= u64 x < 2 ^ 64) as Hu by (intros; by apply wrap_range).
  destruct k as [wr room | | st]; simpl in *.
  - destruct (Z.ltb_spec 0 count); simpl.
    + destruct (wrap_add_cases 64 w count) as [[Hcase ?] | [Hcase ?]]; [lia.. | |];
        rewrite Hcase.
      all: swap 1 2.
      { by rewrite (proj2 (Z.ltb_lt _ w)) by lia. }
      destruct (Z.ltb_spec (w + count) w), (Z.ltb_spec m (w + count)); simpl; try done.
      destruct (Nat.leb_spec (Z.to_nat count) (length buf)); [| lia].
      destruct (Z.leb_spec (Z.of_nat (Z.to_nat count)) room); [| lia]. simpl.
      unfold ostream_ok; simpl. rewrite Hcase. split_and!; (done || lia).
    + assert (count = 0) as -> by lia. unfold ostream_ok; simpl.
      rewrite wrap_small by lia. split_and!; (done || lia).
  - rewrite andb_false_r. unfold ostream_ok; simpl. split_and!; (done || lia || apply Hu).
  - rewrite andb_true_r. destruct (0 <? count); simpl.
    + destruct (_ || _); simpl; [done |].
      destruct (Nat.leb_spec (Z.to_nat count) (length buf)); [| lia]. simpl.
      destruct (user_write st _) as [[] st']; simpl; [| done].
      unfold ostream_ok; simpl. split_and!; (done || lia || apply Hu).
    + unfold ostream_ok; simpl. split_and!; (done || lia || apply Hu).
Qed.
End OStream.

(** ** Consuming and producing a byte string

    [Reads m l a]: on a memory buffer that starts with [l], within
    [bytes_left], [m] returns [a] and leaves the stream just after [l].
    [Emits m l]: on a memory buffer or a sizing stream, [m] appends exactly [l]
    when it fits, and fails when it does not.  These are the two contracts the
    encoders and the decoders of the wire format are proved against. *)

Section Contracts.
Context {St : Type} `{ReadCallback St} `{WriteCallback St}.

Abbreviation IM := (prog (pb_istream_t St)).
Abbreviation OM := (prog (pb_ostream_t St)).

Definition Reads {A} (m : IM A) (l : list byte) (a : A) : Prop :=
  forall rest n e, Z.of_nat (length l) <= n < 2 ^ 64 ->
    m (mk_istream (BufSrc (l ++ rest)) n e)
    = (Done a, mk_istream (BufSrc rest) (n - Z.of_nat (length l)) e).

(** The stream after [l] has been appended to it. *)
Definition o_append (l : list byte) (s : pb_ostream_t St) : pb_ostream_t St :=
  mk_ostream
    (match o_sink s with
     | BufSink w room => BufSink (w ++ l) (room - Z.of_nat (length l))
     | k => k
     end)
    (max_size s) (u64 (bytes_written s + Z.of_nat (length l))) (o_errmsg s).

Definition fits (l : list byte) (s : pb_ostream_t St) : Prop :=
  match o_sink s with
  | BufSink _ _ => bytes_written s + Z.of_nat (length l) <= max_size s
  | _ => True
  end.

Definition is_cb_sink (s : pb_ostream_t St) : bool :=
  match o_sink s with CbSink _ => true | _ => false end.

Definition Emits (m : OM unit) (l : list byte) : Prop :=
  forall s, ostream_ok s -> is_cb_sink s = false -> Z.of_nat (length l) < 2 ^ 64 ->
    (fits l s -> m s = (Done tt, o_append l s)) /\
    (~ fits l s -> (m s).1 = Failed).

Lemma reads_ret {A} (a : A) : Reads (mret a) [] a.
Proof. intros rest n e Hn. simpl. by rewrite Z.sub_0_r. Qed.

Lemma reads_bind {A B} (m : IM A) (f : A -> IM B) l1 l2 a b :
  Reads m l1 a -> Reads (f a) l2 b -> Reads (m ≫= f) (l1 ++ l2) b.
Proof.
  intros Hm Hf rest n e Hn. rewrite length_app in Hn.
  rewrite <- app_assoc. erewrite prog_bind_done by (apply Hm; lia).
  rewrite Hf by lia. do 2 f_equal. rewrite length_app. lia.
Qed.

Lemma reads_bind_ret {A B} (m : IM A) (g : A -> B) l a :
  Reads m l a -> Reads (x ← m; mret (g x)) l (g a).
Proof. intros Hm. rewrite <- (app_nil_r l). eapply reads_bind; [done | apply reads_ret]. Qed.

Lemma pb_readbyte_reads b : Reads pb_readbyte [b] b.
Proof.
  intros rest n e Hn. simpl in Hn. unfold pb_readbyte, mbind, prog_bind, getS. simpl.
  destruct (Z.eqb_spec n 0); [lia |]. simpl. by rewrite drop_0.
Qed.

Lemma pb_read_reads null l :
  Reads (pb_read null (Z.of_nat (length l))) l l.
Proof.
  intros rest n e Hn. unfold pb_read, pb_read_direct, mbind, prog_bind, getS. simpl.
  destruct (Z.eqb_spec (Z.of_nat (length l)) 0) as [E | E].
  { destruct l; [| simpl in E; lia]. simpl. by rewrite Z.sub_0_r. }
  simpl. destruct (Z.ltb_spec n (Z.of_nat (length l))); [lia |].
  unfold run_callback. simpl. rewrite Nat2Z.id.
  destruct (Nat.leb_spec (length l) (length (l ++ rest))) as [_ | Hl];
    [| rewrite length_app in Hl; lia].
  simpl. rewrite take_app_length, drop_app_length. unfold set_bytes_left. simpl.
  by rewrite wrap_small by lia.
Qed.

Lemma pb_read_reads' null k l : k = Z.of_nat (length l) -> Reads (pb_read null k) l l.
Proof. intros ->. apply pb_read_reads. Qed.

Lemma fits_app l1 l2 s :
  ostream_ok s -> Z.of_nat (length (l1 ++ l2)) < 2 ^ 64 ->
  fits (l1 ++ l2) s <-> fits l1 s /\ fits l2 (o_append l1 s).
Proof.
  intros (Hw & Hm & Hk) Hl. rewrite length_app in Hl. unfold fits, o_append.
  destruct (o_sink s); simpl; try done. rewrite length_app, Nat2Z.inj_add.
  split.
  - intros Hf. rewrite wrap_small by lia. lia.
  - intros [H1 H2]. rewrite wrap_small in H2 by lia. lia.
Qed.

Lemma o_append_ok l s :
  ostream_ok s -> fits l s -> ostream_ok (o_append l s).
Proof.
  intros (Hw & Hm & Hk) Hf. unfold ostream_ok, o_append, fits in *. simpl.
  pose proof (wrap_range 64 (bytes_written s + Z.of_nat (length l))).
  destruct (o_sink s); simpl; split_and!; try (done || lia);
    rewrite wrap_small by lia; lia.
Qed.

Lemma o_append_app l1 l2 s :
  o_append l2 (o_append l1 s) = o_append (l1 ++ l2) s.
Proof.
  unfold o_append; simpl. f_equal.
  - destruct (o_sink s); try done. f_equal; [by rewrite app_assoc |].
    rewrite length_app; lia.
  - unfold wrap. rewrite Zplus_mod_idemp_l, length_app. f_equal. lia.
Qed.

Lemma emits_ret : Emits (mret tt) [].
Proof.
  intros [k m w e] (Hw & Hm & Hk) _ _. simpl in *. split; intros Hf.
  - unfold o_append, mret, prog_ret; simpl. rewrite Z.add_0_r, wrap_small by lia.
    do 2 f_equal. destruct k; try done. rewrite app_nil_r. f_equal; lia.
  - exfalso. apply Hf. unfold fits. simpl. destruct k; try done. lia.
Qed.

Lemma emits_bind (m1 : OM unit) (m2 : unit -> OM unit) l1 l2 :
  Emits m1 l1 -> Emits (m2 tt) l2 -> Emits (m1 ≫= m2) (l1 ++ l2).
Proof.
  intros H1 H2 s Hs Hc Hl. assert (Hl' := Hl). rewrite length_app in Hl'.
  destruct (H1 s Hs Hc) as [Hd1 Hf1]; [lia |].
  assert (fits l1 s \/ ~ fits l1 s) as [Hfit | Hfit].
  { unfold fits. destruct (o_sink s); try (by left). lia. }
  - assert (is_cb_sink (o_append l1 s) = false).
    { unfold is_cb_sink, o_append in *. simpl. by destruct (o_sink s). }
    destruct (H2 (o_append l1 s)) as [Hd2 Hf2]; [by apply o_append_ok | done | lia |].
    erewrite prog_bind_done by by apply Hd1. rewrite fits_app by done.
    rewrite <- o_append_app. split; [intros [_ ?]; auto |]. intros Hn. apply Hf2. tauto.
  - specialize (Hf1 Hfit). destruct (m1 s) as [r s'] eqn:E. simpl in Hf1; subst r.
    erewrite prog_bind_failed by done. rewrite fits_app by done. split; [tauto | done].
Qed.

Lemma pb_write_emits l : Emits (pb_write l (Z.of_nat (length l))) l.
Proof.
  intros [k m w e] (Hw & Hm & Hk) Hcb Hl. simpl in *.
  unfold pb_write, mbind, prog_bind, getS, is_null_sink, run_ocallback, fits, o_append,
    add_written. simpl.
  destruct k as [wr room | | st]; [| split; [| done] | done].
  2: { intros _. by rewrite andb_false_r. }
  rewrite andb_true_r. destruct (Z.ltb_spec 0 (Z.of_nat (length l))) as [Hpos | Hz].
  - destruct (wrap_add_cases 64 w (Z.of_nat (length l))) as [[Hcase ?] | [Hcase ?]]; [lia.. | |];
      rewrite !Hcase.
    all: swap 1 2.
    { rewrite (proj2 (Z.ltb_lt _ w)) by lia. split; [lia | done]. }
    destruct (Z.ltb_spec (w + Z.of_nat (length l)) w),
      (Z.ltb_spec m (w + Z.of_nat (length l))); simpl; split; intros Hf; try done; try lia.
    rewrite Nat2Z.id, Nat.leb_refl, (proj2 (Z.leb_le _ room)) by lia. simpl.
    unfold modifyS; simpl. by rewrite take_ge, Hcase by lia.
  - destruct l; [| simpl in Hz; lia]. simpl. split; [| lia]. intros _.
    by rewrite app_nil_r, Z.sub_0_r.
Qed.

Lemma pb_write_emits' k l :
  k = Z.of_nat (length l) -> Emits (pb_write l k) l.
Proof. intros ->. apply pb_write_emits. Qed.
End Contracts.

(** Streams over memory only, without user callbacks. *)
#[export] Instance no_read_callback : ReadCallback unit.
Proof. refine {| user_read st n := (None, st) |}. by intros. Defined.
#[export] Instance no_write_callback : WriteCallback unit := {| user_write st l := (false, st) |}.
