(* ===== verification/PbWire.v ===== *)
(** * nanopb wire format: varints, fixed-width values, tags, length-delimited data

    The helper functions and the scalar field codecs of [Pods/nanopb/pb_encode.c]
    and [pb_decode.c].  The build defines [PB_FIELD_32BIT], [PB_ENABLE_MALLOC] and
    [PB_NO_PACKED_STRUCTS] (the xcconfig of the pod): [pb_size_t] is [uint32_t],
    and [uint_fast8_t] is 8 bits wide on the targets of the app. *)

From S2P Require Import Prelude PbStream.

(** ** Wire types, field types *)

Inductive pb_wire_type_t : Type := PB_WT_VARINT | PB_WT_64BIT | PB_WT_STRING | PB_WT_32BIT.

#[export] Instance pb_wire_type_eq_dec : EqDecision pb_wire_type_t.
Proof. solve_decision. Defined.

(** The values of the C enumeration. *)
Definition wire_type_z (w : pb_wire_type_t) : Z :=
  match w with PB_WT_VARINT => 0 | PB_WT_64BIT => 1 | PB_WT_STRING => 2 | PB_WT_32BIT => 5 end.

Definition PB_LTYPE (type : Z) : Z := type .& 15.
Definition PB_HTYPE (type : Z) : Z := type .& 48.
Definition PB_ATYPE (type : Z) : Z := type .& 192.

Definition PB_LTYPE_BOOL := 0.
Definition PB_LTYPE_VARINT := 1.
Definition PB_LTYPE_UVARINT := 2.
Definition PB_LTYPE_SVARINT := 3.
Definition PB_LTYPE_FIXED32 := 4.
Definition PB_LTYPE_FIXED64 := 5.
Definition PB_LTYPE_BYTES := 6.
Definition PB_LTYPE_STRING := 7.
Definition PB_LTYPE_SUBMESSAGE := 8.
Definition PB_LTYPE_EXTENSION := 9.
Definition PB_LTYPE_FIXED_LENGTH_BYTES := 10.

Definition PB_ATYPE_POINTER := 128.
Definition PB_SIZE_MAX : Z := 2 ^ 32 - 1.

(** [const void *ptr]: [NULL]; the field descriptors of a submessage, by their number in
    the table of descriptors of the program; or the bytes of a default value. *)
Inductive field_ptr : Type :=
  | PtrNull
  | PtrFields (id : nat)
  | PtrDefault (value : list byte).

(** A field descriptor. *)
Record pb_field_t := mk_field {
  f_tag : Z;
  f_type : Z;
  f_data_offset : Z;
  f_size_offset : Z;
  f_data_size : Z;
  f_array_size : Z;
  f_ptr : field_ptr;
}.

(** ** Encoding *)

Section Encode.
Context {St : Type} `{WriteCallback St}.
Abbreviation M := (prog (pb_ostream_t St)).

(** The loop of [pb_encode_varint] over [buffer[10]]; [None] would be a write
    beyond the array. *)
Fixpoint varint_fill (room : nat) (value : Z) : option (list byte) :=
  if value =? 0 then Some [] else
  match room with
  | O => None
  | S room => cons (z2b ((value .& 127) .| 128)) <$> varint_fill room (value .>> 7)
  end.

(** [buffer[i-1] &= 0x7F]. *)
Definition clear_last (buffer : list byte) : list byte :=
  alter (fun b => z2b (b2z b .& 127)) (length buffer - 1)%nat buffer.

Definition pb_encode_varint (value : Z) : M unit :=
  if value <=? 127 then pb_write [z2b value] 1 else
  match varint_fill 10 value with
  | None => stuck
  | Some buffer => pb_write (clear_last buffer) (Z.of_nat (length buffer))
  end.

Definition zigzag (value : Z) : Z :=
  if value <? 0 then u64 (Z.lnot (u64 (u64 value .<< 1))) else u64 (u64 value .<< 1).

Definition pb_encode_svarint (value : Z) : M unit := pb_encode_varint (zigzag value).

Definition fixed32_bytes (val : Z) : list byte :=
  [z2b (val .& 255); z2b ((val .>> 8) .& 255); z2b ((val .>> 16) .& 255);
   z2b ((val .>> 24) .& 255)].

Definition pb_encode_fixed32 (val : Z) : M unit := pb_write (fixed32_bytes val) 4.

Definition fixed64_bytes (val : Z) : list byte :=
  [z2b (val .& 255); z2b ((val .>> 8) .& 255); z2b ((val .>> 16) .& 255);
   z2b ((val .>> 24) .& 255); z2b ((val .>> 32) .& 255); z2b ((val .>> 40) .& 255);
   z2b ((val .>> 48) .& 255); z2b ((val .>> 56) .& 255)].

Definition pb_encode_fixed64 (val : Z) : M unit := pb_write (fixed64_bytes val) 8.

Definition pb_encode_tag (wiretype : pb_wire_type_t) (field_number : Z) : M unit :=
  pb_encode_varint ((u64 (field_number .<< 3)) .| wire_type_z wiretype).

(** The switch of [pb_encode_tag_for_field]. *)
Definition wiretype_of_ltype (ltype : Z) : option pb_wire_type_t :=
  if bool_decide (ltype ∈ [PB_LTYPE_BOOL; PB_LTYPE_VARINT; PB_LTYPE_UVARINT; PB_LTYPE_SVARINT])
  then Some PB_WT_VARINT
  else if ltype =? PB_LTYPE_FIXED32 then Some PB_WT_32BIT
  else if ltype =? PB_LTYPE_FIXED64 then Some PB_WT_64BIT
  else if bool_decide (ltype ∈ [PB_LTYPE_BYTES; PB_LTYPE_STRING; PB_LTYPE_SUBMESSAGE;
                                PB_LTYPE_FIXED_LENGTH_BYTES])
  then Some PB_WT_STRING
  else None.

Definition pb_encode_tag_for_field (field : pb_field_t) : M unit :=
  match wiretype_of_ltype (PB_LTYPE (f_type field)) with
  | None => PB_RETURN_OERROR "invalid field type"
  | Some wiretype => pb_encode_tag wiretype (f_tag field)
  end.

Definition pb_encode_string (buffer : list byte) (size : Z) : M unit :=
  _ ← pb_encode_varint size;
  pb_write buffer size.

(** *** Field encoders; [src] is the value read at the width of the field *)

Definition pb_enc_bool (src : bool) : M unit := pb_encode_varint (if src then 1 else 0).

(** Little-endian value of the bytes of an object, as the targets store it. *)
Definition le_value (l : list byte) : Z := foldr (fun b acc => b2z b + 256 * acc) 0 l.

(** A read of [n] bytes at [src]. *)
Definition load_raw (n : nat) (src : list byte) : M Z :=
  if Nat.leb n (length src) then mret (le_value (take n src)) else stuck.

(** [value = *(const intN_t* )src], by [field->data_size]. *)
Definition load_signed (data_size : Z) (src : list byte) : M Z :=
  if data_size =? 1 then v ← load_raw 1 src; mret (i8 v)
  else if data_size =? 2 then v ← load_raw 2 src; mret (i16 v)
  else if data_size =? 4 then v ← load_raw 4 src; mret (i32 v)
  else if data_size =? 8 then v ← load_raw 8 src; mret (i64 v)
  else PB_RETURN_OERROR "invalid data_size".

(** [value = *(const uintN_t* )src]. *)
Definition load_unsigned (data_size : Z) (src : list byte) : M Z :=
  if data_size =? 1 then load_raw 1 src
  else if data_size =? 2 then load_raw 2 src
  else if data_size =? 4 then load_raw 4 src
  else if data_size =? 8 then load_raw 8 src
  else PB_RETURN_OERROR "invalid data_size".

Definition pb_enc_varint (field : pb_field_t) (src : list byte) : M unit :=
  value ← load_signed (f_data_size field) src;
  pb_encode_varint (u64 value).

Definition pb_enc_uvarint (field : pb_field_t) (src : list byte) : M unit :=
  value ← load_unsigned (f_data_size field) src;
  pb_encode_varint value.

Definition pb_enc_svarint (field : pb_field_t) (src : list byte) : M unit :=
  value ← load_signed (f_data_size field) src;
  pb_encode_svarint value.

Definition pb_enc_fixed32 (src : list byte) : M unit :=
  v ← load_raw 4 src; pb_encode_fixed32 v.

Definition pb_enc_fixed64 (src : list byte) : M unit :=
  v ← load_raw 8 src; pb_encode_fixed64 v.

(** [offsetof(pb_bytes_array_t, bytes)]. *)
Definition bytes_offset : Z := 4.

(** [src] is [NULL] or a [pb_bytes_array_t], its [size] and its [bytes]. *)
Definition pb_enc_bytes (field : pb_field_t) (src : option (Z * list byte)) : M unit :=
  match src with
  | None => pb_encode_string [] 0
  | Some (size, bytes) =>
      if (PB_ATYPE (f_type field) =? 0) && (u64 (f_data_size field - bytes_offset) <? size)
      then PB_RETURN_OERROR "bytes size exceeded"
      else pb_encode_string bytes size
  end.

(** The loop of [pb_enc_string]; [None] is a read beyond the memory of [src]. *)
Fixpoint bounded_strlen (mem : list byte) (max_size : Z) : option Z :=
  if max_size =? 0 then Some 0 else
  match mem with
  | [] => None
  | b :: mem => if b2z b =? 0 then Some 0 else Z.succ <$> bounded_strlen mem (max_size - 1)
  end.

Definition pb_enc_string (field : pb_field_t) (src : option (list byte)) : M unit :=
  let max_size := if PB_ATYPE (f_type field) =? PB_ATYPE_POINTER then SIZE_MAX
                  else f_data_size field in
  match src with
  | None => pb_encode_string [] 0
  | Some mem =>
      match bounded_strlen mem max_size with
      | None => stuck
      | Some size => pb_encode_string mem size
      end
  end.

Definition pb_enc_fixed_length_bytes (field : pb_field_t) (src : list byte) : M unit :=
  pb_encode_string src (f_data_size field).
End Encode.

(** ** Decoding *)

Section Decode.
Context {St : Type} `{ReadCallback St}.
Abbreviation M := (prog (pb_istream_t St)).

(** The multi-byte case of [pb_decode_varint32_eof], entered with [bitpos = 7];
    [bitpos] is a [uint_fast8_t]. *)
Fixpoint varint32_loop (fuel : nat) (bitpos result : Z) : M Z :=
  match fuel with
  | O => nofuel
  | S fuel =>
      byte ← pb_readbyte;
      let b := b2z byte in
      result ←
        (if 32 <=? bitpos then
           let sign_extension := if bitpos <? 63 then 255 else 1 in
           if negb (b .& 127 =? 0) && ((result .>> 31 =? 0) || negb (b =? sign_extension))
           then PB_RETURN_ERROR "varint overflow"
           else mret result
         else mret (result .| u32 ((b .& 127) .<< bitpos)));
      let bitpos := u8 (bitpos + 7) in
      if negb (b .& 128 =? 0) then varint32_loop fuel bitpos result
      else if (bitpos =? 35) && negb (b .& 112 =? 0)
      then PB_RETURN_ERROR "varint overflow"
      else mret result
  end.

(** [None]: the function returns false with [*eof] set; a failure leaves
    [*eof] alone. *)
Definition pb_decode_varint32_eof : M (option Z) :=
  r ← try_ pb_readbyte;
  match r with
  | None => s ← getS; if bytes_left s =? 0 then mret None else fail
  | Some byte =>
      let b := b2z byte in
      if b .& 128 =? 0 then mret (Some b)
      else
        s ← getS;
        result ← varint32_loop (S (Z.to_nat (bytes_left s))) 7 (b .& 127);
        mret (Some result)
  end.

Definition pb_decode_varint32 : M Z :=
  r ← pb_decode_varint32_eof;
  match r with Some v => mret v | None => fail end.

(** The loop of [pb_decode_varint]; [bitpos] is 0, 7, ..., 70, so 11 rounds of
    fuel are never used up. *)
Fixpoint varint_loop (fuel : nat) (bitpos result : Z) : M Z :=
  match fuel with
  | O => nofuel
  | S fuel =>
      if 64 <=? bitpos then PB_RETURN_ERROR "varint overflow" else
      byte ← pb_readbyte;
      let b := b2z byte in
      let result := result .| u64 ((b .& 127) .<< bitpos) in
      let bitpos := u8 (bitpos + 7) in
      if negb (b .& 128 =? 0) then varint_loop fuel bitpos result else mret result
  end.

Definition pb_decode_varint : M Z := varint_loop 11 0 0.

Fixpoint skip_varint_loop (fuel : nat) : M unit :=
  match fuel with
  | O => nofuel
  | S fuel =>
      l ← pb_read false 1;
      match l with
      | [byte] => if negb (b2z byte .& 128 =? 0) then skip_varint_loop fuel else mret tt
      | _ => stuck
      end
  end.

Definition pb_skip_varint : M unit :=
  s ← getS; skip_varint_loop (S (Z.to_nat (bytes_left s))).

Definition pb_skip_string : M unit :=
  length ← pb_decode_varint32;
  _ ← pb_read true length;
  mret tt.

(** A tag as read from the stream; [wire_type] is the raw 3-bit value. *)
Inductive tag_result : Type :=
  | Tag (tag wire_type : Z)
  | TagEof.

Definition pb_decode_tag : M tag_result :=
  r ← pb_decode_varint32_eof;
  match r with
  | None => mret TagEof
  | Some temp => if temp =? 0 then mret TagEof else mret (Tag (temp .>> 3) (temp .& 7))
  end.

Definition pb_skip_field (wire_type : Z) : M unit :=
  if wire_type =? 0 then pb_skip_varint
  else if wire_type =? 1 then _ ← pb_read true 8; mret tt
  else if wire_type =? 2 then pb_skip_string
  else if wire_type =? 5 then _ ← pb_read true 4; mret tt
  else PB_RETURN_ERROR "invalid wire_type".

(** The loop of [read_raw_value] on a varint; [max_size] bounds [*size], and
    the fuel is the number of rounds it allows. *)
Fixpoint read_raw_varint (room : nat) : M (list byte) :=
  match room with
  | O => fail
  | S room =>
      l ← pb_read false 1;
      match l with
      | [byte] => if negb (b2z byte .& 128 =? 0)
                  then rest ← read_raw_varint room; mret (byte :: rest)
                  else mret [byte]
      | _ => stuck
      end
  end.

Definition read_raw_value (wire_type max_size : Z) : M (list byte) :=
  if wire_type =? 0 then read_raw_varint (Z.to_nat max_size)
  else if wire_type =? 1 then pb_read false 8
  else if wire_type =? 5 then pb_read false 4
  else PB_RETURN_ERROR "invalid wire_type".

(** Returns the substream; the stream itself is shortened by its length. *)
Definition pb_make_string_substream : M (pb_istream_t St) :=
  size ← pb_decode_varint32;
  stream ← getS;
  if bytes_left stream <? size then PB_RETURN_ERROR "parent stream too short" else
  _ ← modifyS (set_bytes_left (u64 (bytes_left stream - size)));
  mret (set_bytes_left size stream).

Definition pb_close_string_substream (substream : pb_istream_t St) : M unit :=
  fun stream =>
    let '(r, substream) :=
      (if negb (bytes_left substream =? 0)
       then pb_read true (bytes_left substream) substream
       else (Done [], substream)) in
    match r with
    | Done _ => (Done tt, mk_istream (i_src substream) (bytes_left stream) (i_errmsg substream))
    | Failed => (Failed, stream)
    | Stuck => (Stuck, stream)
    | NoFuel => (NoFuel, stream)
    end.

(** *** Field decoders; the result is what is stored at [dest] *)

Definition pb_dec_bool : M bool :=
  value ← pb_decode_varint32; mret (negb (value =? 0)).

Definition pb_decode_bool : M bool := pb_dec_bool.

Definition unzigzag (value : Z) : Z :=
  if negb (value .& 1 =? 0) then i64 (Z.lnot (value .>> 1)) else i64 (value .>> 1).

Definition pb_decode_svarint : M Z :=
  value ← pb_decode_varint; mret (unzigzag value).

Definition pb_decode_fixed32 : M Z :=
  bytes ← pb_read false 4;
  match b2z <$> bytes with
  | [b0; b1; b2; b3] =>
      mret ((b0 .<< 0) .| (b1 .<< 8) .| (b2 .<< 16) .| (b3 .<< 24))
  | _ => stuck
  end.

Definition pb_decode_fixed64 : M Z :=
  bytes ← pb_read false 8;
  match b2z <$> bytes with
  | [b0; b1; b2; b3; b4; b5; b6; b7] =>
      mret ((b0 .<< 0) .| (b1 .<< 8) .| (b2 .<< 16) .| (b3 .<< 24) .|
            (b4 .<< 32) .| (b5 .<< 40) .| (b6 .<< 48) .| (b7 .<< 56))
  | _ => stuck
  end.

(** [clamped = *(intN_t* )dest = (intN_t)svalue], by [field->data_size]. *)
Definition clamp_signed (data_size svalue : Z) : option Z :=
  if data_size =? 8 then Some svalue
  else if data_size =? 4 then Some (i32 svalue)
  else if data_size =? 2 then Some (i16 svalue)
  else if data_size =? 1 then Some (i8 svalue)
  else None.

Definition clamp_unsigned (data_size value : Z) : option Z :=
  if data_size =? 8 then Some value
  else if data_size =? 4 then Some (u32 value)
  else if data_size =? 2 then Some (u16 value)
  else if data_size =? 1 then Some (u8 value)
  else None.

Definition store_clamped (clamped : option Z) (value : Z) : M Z :=
  match clamped with
  | None => PB_RETURN_ERROR "invalid data_size"
  | Some c => if negb (c =? value) then PB_RETURN_ERROR "integer too large" else mret c
  end.

Definition pb_dec_varint (field : pb_field_t) : M Z :=
  value ← pb_decode_varint;
  let svalue := if f_data_size field =? 8 then i64 value else i32 value in
  store_clamped (clamp_signed (f_data_size field) svalue) svalue.

Definition pb_dec_uvarint (field : pb_field_t) : M Z :=
  value ← pb_decode_varint;
  store_clamped (clamp_unsigned (f_data_size field) value) value.

Definition pb_dec_svarint (field : pb_field_t) : M Z :=
  value ← pb_decode_svarint;
  store_clamped (clamp_signed (f_data_size field) value) value.

Definition pb_dec_fixed32 : M Z := pb_decode_fixed32.
Definition pb_dec_fixed64 : M Z := pb_decode_fixed64.

(** [realloc] is outside the sources: whether it can give [n] bytes. *)
Variable realloc_ok : Z -> bool.

(** Returns the number of bytes allocated. *)
Definition allocate_field (data_size array_size : Z) : M Z :=
  if (data_size =? 0) || (array_size =? 0) then PB_RETURN_ERROR "invalid size" else
  let check_limit := 1 .<< 32 in
  if ((check_limit <=? data_size) || (check_limit <=? array_size))
     && (SIZE_MAX / array_size <? data_size)
  then PB_RETURN_ERROR "size too large"
  else if realloc_ok (u64 (array_size * data_size)) then mret (u64 (array_size * data_size))
  else PB_RETURN_ERROR "realloc failed".

(** [bdest->size] and [bdest->bytes]. *)
Definition pb_dec_bytes (field : pb_field_t) : M (Z * list byte) :=
  size ← pb_decode_varint32;
  if PB_SIZE_MAX <? size then PB_RETURN_ERROR "bytes overflow" else
  let alloc_size := u64 (size + bytes_offset) in
  if alloc_size <? size then PB_RETURN_ERROR "size too large" else
  _ ← (if PB_ATYPE (f_type field) =? PB_ATYPE_POINTER then
         stream ← getS;
         if bytes_left stream <? size then PB_RETURN_ERROR "end-of-stream" else
         _ ← allocate_field alloc_size 1; mret tt
       else if f_data_size field <? alloc_size then PB_RETURN_ERROR "bytes overflow"
       else mret tt);
  bytes ← pb_read false size;
  mret (size, bytes).

(** The [size + 1] bytes stored at [dest], the terminator included.
    [size + 1] is computed on 32 bits before it is widened. *)
Definition pb_dec_string (field : pb_field_t) : M (list byte) :=
  size ← pb_decode_varint32;
  let alloc_size := u32 (size + 1) in
  if alloc_size <? size then PB_RETURN_ERROR "size too large" else
  _ ← (if PB_ATYPE (f_type field) =? PB_ATYPE_POINTER then
         stream ← getS;
         if bytes_left stream <? size then PB_RETURN_ERROR "end-of-stream" else
         _ ← allocate_field alloc_size 1; mret tt
       else if f_data_size field <? alloc_size then PB_RETURN_ERROR "string overflow"
       else mret tt);
  bytes ← pb_read false size;
  mret (bytes ++ [x00]).

Definition pb_dec_fixed_length_bytes (field : pb_field_t) : M (list byte) :=
  size ← pb_decode_varint32;
  if PB_SIZE_MAX <? size then PB_RETURN_ERROR "bytes overflow" else
  if size =? 0 then mret (repeat x00 (Z.to_nat (f_data_size field))) else
  if negb (size =? f_data_size field)
  then PB_RETURN_ERROR "incorrect fixed length bytes size"
  else pb_read false (f_data_size field).
End Decode.

(** ** Varints *)

(** The wire form of an unsigned value: groups of 7 bits, least significant
    first, bit 7 set on all but the last byte.  [n] groups at most. *)
Fixpoint varint_groups (n : nat) (v : Z) : list byte :=
  match n with
  | O => []
  | S n => if v <? 128 then [z2b v] else z2b (v mod 128 + 128) :: varint_groups n (v / 128)
  end.

Definition varint (v : Z) : list byte := varint_groups 10 v.

Definition varint_value (l : list byte) : Z := foldr (fun b acc => b2z b mod 128 + 128 * acc) 0 l.

(** Bytes with bit 7 set, up to a last one without. *)
Inductive is_varint : list byte -> Prop :=
  | is_varint_last b : b2z b < 128 -> is_varint [b]
  | is_varint_more b l : 128 <= b2z b -> is_varint l -> is_varint (b :: l).

Lemma is_varint_length l : is_varint l -> (1 <= length l)%nat.
Proof. intros []; simpl; lia. Qed.

Lemma pow_7S n : 2 ^ (7 * Z.of_nat (S n)) = 128 * 2 ^ (7 * Z.of_nat n).
Proof. rewrite Nat2Z.inj_succ, Z.mul_succ_r, Z.add_comm, Z.pow_add_r by lia. done. Qed.

Lemma varint_groups_spec n v :
  0 <= v < 2 ^ (7 * Z.of_nat n) -> n <> O ->
  is_varint (varint_groups n v) /\ varint_value (varint_groups n v) = v /\
  (length (varint_groups n v) <= n)%nat.
Proof.
  revert v. induction n as [| n IH]; intros v Hv Hn; [done |]. rewrite pow_7S in Hv. simpl.
  destruct (Z.ltb_spec v 128).
  - simpl. rewrite b2z_z2b_small by lia. split_and!; [| rewrite Z.mod_small; lia | lia].
    constructor. rewrite b2z_z2b_small; lia.
  - assert (0 <= v mod 128 + 128 < 256) by dlia.
    destruct (IH (v / 128)) as (H1 & H2 & H3); [dlia | |].
    { intros ->. simpl in Hv. lia. }
    simpl. rewrite H2, b2z_z2b_small by done. split_and!; [| | lia].
    + constructor; [rewrite b2z_z2b_small; dlia | done].
    + rewrite Z.add_mod, Z_mod_same_full, Z.add_0_r, !Z.mod_mod by lia.
      pose proof (Z.div_mod v 128). lia.
Qed.

Lemma varint_spec v :
  0 <= v < 2 ^ 64 ->
  is_varint (varint v) /\ varint_value (varint v) = v /\ (length (varint v) <= 10)%nat.
Proof. intros Hv. apply varint_groups_spec; [| done]. simpl. lia. Qed.

Lemma varint_length v : (length (varint v) <= 10)%nat.
Proof.
  unfold varint. generalize 10%nat as n. intros n. revert v.
  induction n as [| n IH]; intros v; simpl; [lia |].
  destruct (v <? 128); simpl; [lia |]. specialize (IH (v / 128)). lia.
Qed.

Lemma varint_value_range l :
  0 <= varint_value l < 2 ^ (7 * Z.of_nat (length l)).
Proof.
  induction l as [| b l IH]; simpl; [lia |]. rewrite pow_7S in *. dlia.
Qed.

(** *** The encoder writes it *)

Lemma clear_last_cons b l : l <> [] -> clear_last (b :: l) = b :: clear_last l.
Proof.
  intros Hl. destruct l as [| c l]; [done |]. unfold clear_last. simpl.
  by rewrite Nat.sub_0_r.
Qed.

Lemma varint_fill_spec n v :
  0 < v < 2 ^ (7 * Z.of_nat n) ->
  exists buf, varint_fill n v = Some buf /\ buf <> [] /\ clear_last buf = varint_groups n v.
Proof.
  revert v. induction n as [| n IH]; intros v Hv; [simpl in Hv; lia |]. rewrite pow_7S in Hv.
  simpl. destruct (Z.eqb_spec v 0); [lia |].
  rewrite land_7f, lor_80, Z.shiftr_div_pow2 by dlia. change (2 ^ 7) with 128.
  destruct (Z.ltb_spec v 128).
  - rewrite (Z.div_small v), (Z.mod_small v) by lia. exists [z2b (v + 128)].
    destruct n; simpl; (split_and!; [done | done |]); unfold clear_last; simpl;
      rewrite b2z_z2b_small, land_7f, Z.add_mod, Z_mod_same_full, Z.add_0_r, Z.mod_mod by lia;
      by rewrite Z.mod_small by lia.
  - destruct (IH (v / 128)) as (buf & -> & Hne & Hbuf); [dlia |].
    eexists. split_and!; [done | done |]. by rewrite clear_last_cons, Hbuf.
Qed.

Lemma length_clear_last l : length (clear_last l) = length l.
Proof. apply length_alter. Qed.

Section VarintCodec.
Context {St : Type} `{ReadCallback St} `{WriteCallback St}.

Lemma pb_encode_varint_eq v :
  0 <= v < 2 ^ 64 ->
  pb_encode_varint (St:=St) v = pb_write (varint v) (Z.of_nat (length (varint v))).
Proof.
  intros Hv. unfold pb_encode_varint, varint. destruct (Z.leb_spec v 127).
  - simpl. by rewrite (proj2 (Z.ltb_lt v 128)) by lia.
  - destruct (varint_fill_spec 10 v) as (buf & Hf & _ & Hb); [simpl; lia |].
    by rewrite Hf, <- Hb, length_clear_last.
Qed.

Lemma pb_encode_varint_emits v :
  0 <= v < 2 ^ 64 -> Emits (pb_encode_varint (St:=St) v) (varint v).
Proof. intros Hv. rewrite pb_encode_varint_eq by done. apply pb_write_emits. Qed.

(** *** The decoder reads every varint of at most 10 bytes, modulo 2^64 *)

Lemma varint_loop_reads l fuel bitpos result :
  is_varint l -> (length l < fuel)%nat ->
  0 <= bitpos -> bitpos + 7 * Z.of_nat (length l) <= 70 -> 0 <= result < 2 ^ bitpos ->
  Reads (varint_loop (St:=St) fuel bitpos result) l
    (u64 (result + varint_value l * 2 ^ bitpos)).
Proof.
  intros Hl. revert fuel bitpos result.
  induction Hl as [b Hb | b l Hb Hl IH]; intros fuel bitpos result Hf Hp Hlen Hr;
    (destruct fuel as [| fuel]; [simpl in Hf; lia |]); simpl in *.
  - rewrite (proj2 (Z.leb_gt 64 bitpos)) by lia. rewrite <- (app_nil_r [b]). eapply reads_bind; [apply pb_readbyte_reads |].
    rewrite land_80, (proj2 (Z.ltb_lt (b2z b) 128)), land_7f by blia. simpl.
    rewrite lor_wrap_shl, Z.add_0_r by lia. apply reads_ret.
  - assert (bitpos <= 56) by (pose proof (is_varint_length l Hl); lia).
    rewrite (proj2 (Z.leb_gt 64 bitpos)) by lia.
    change (b :: l) with ([b] ++ l). eapply reads_bind; [apply pb_readbyte_reads |].
    rewrite land_80, (proj2 (Z.ltb_ge (b2z b) 128)), land_7f by blia. simpl.
    rewrite lor_wrap_shl by lia. rewrite (wrap_small 8 (bitpos + 7)) by lia.
    assert (0 <= b2z b mod 128 < 128) as Hm by dlia.
    assert (2 ^ (bitpos + 7) = 2 ^ bitpos * 128) as Hpow by (rewrite Z.pow_add_r by lia; done).
    assert (2 ^ (bitpos + 7) <= 2 ^ 63) by (apply Z.pow_le_mono_r; lia).
    rewrite (wrap_small 64 (result + b2z b mod 128 * 2 ^ bitpos)) by nia.
    replace (result + (b2z b mod 128 + 128 * varint_value l) * 2 ^ bitpos)
      with (result + b2z b mod 128 * 2 ^ bitpos + varint_value l * 2 ^ (bitpos + 7))
      by (rewrite Hpow; lia).
    apply IH; [lia | lia | lia | nia].
Qed.

Lemma pb_decode_varint_reads l :
  is_varint l -> (length l <= 10)%nat ->
  Reads (pb_decode_varint (St:=St)) l (u64 (varint_value l)).
Proof.
  intros Hl Hn. rewrite <- (Z.mul_1_r (varint_value l)), <- (Z.add_0_l (varint_value l * 1)).
  apply (varint_loop_reads l 11 0 0); (done || lia).
Qed.

Lemma pb_decode_varint_varint v :
  0 <= v < 2 ^ 64 -> Reads (pb_decode_varint (St:=St)) (varint v) v.
Proof.
  intros Hv. destruct (varint_spec v Hv) as (H1 & H2 & H3).
  rewrite <- (wrap_small 64 v) at 2 by done. rewrite <- H2 at 2. by apply pb_decode_varint_reads.
Qed.
End VarintCodec.

(** ** 32-bit varints *)

Section Varint32.
Context {St : Type} `{ReadCallback St}.
Abbreviation loop := (varint32_loop (St:=St)).

(** One round below bit 32 whose byte has its high bit set ... *)
Lemma varint32_more fuel bitpos r b l w :
  128 <= b2z b -> 0 <= bitpos < 32 -> 0 <= r < 2 ^ bitpos ->
  Reads (loop fuel (bitpos + 7) (u32 (r + b2z b mod 128 * 2 ^ bitpos))) l w ->
  Reads (loop (S fuel) bitpos r) (b :: l) w.
Proof.
  intros Hb Hp Hr Hl. cbn [varint32_loop]. change (b :: l) with ([b] ++ l).
  eapply reads_bind; [apply pb_readbyte_reads |].
  rewrite (proj2 (Z.leb_gt 32 bitpos)) by lia. rewrite land_7f, lor_wrap_shl by lia.
  rewrite <- (app_nil_l l). eapply reads_bind; [apply reads_ret |].
  rewrite land_80, (proj2 (Z.ltb_ge (b2z b) 128)) by blia. cbn [negb Z.eqb].
  by rewrite (wrap_small 8 (bitpos + 7)) by lia.
Qed.

(** ... one whose byte is the last ... *)
Lemma varint32_last fuel bitpos r b :
  b2z b < 128 -> 0 <= bitpos < 32 -> 0 <= r < 2 ^ bitpos ->
  (bitpos = 28 -> b2z b < 16) ->
  Reads (loop (S fuel) bitpos r) [b] (u32 (r + b2z b * 2 ^ bitpos)).
Proof.
  intros Hb Hp Hr H28. cbn [varint32_loop]. rewrite <- (app_nil_r [b]).
  eapply reads_bind; [apply pb_readbyte_reads |].
  rewrite (proj2 (Z.leb_gt 32 bitpos)) by lia.
  rewrite land_7f, (Z.mod_small (b2z b)), lor_wrap_shl by blia.
  rewrite <- (app_nil_l []). eapply reads_bind; [apply reads_ret |].
  rewrite land_80, (proj2 (Z.ltb_lt (b2z b) 128)) by blia. cbn [negb Z.eqb].
  rewrite (wrap_small 8 (bitpos + 7)) by lia.
  destruct (Z.eqb_spec (bitpos + 7) 35); [| apply reads_ret]. cbn [andb].
  assert (b2z b .& 112 = 0) as ->; [| apply reads_ret].
  assert (b2z b < 16) as Hlt by (apply H28; lia). apply Z.eqb_eq.
  assert (negb (b2z b <? 16) || (b2z b .& 112 =? 0) = true) as Hall
    by (revert b Hb H28 Hlt; intros b _ _ _; revert b; by apply byte_forallb).
  by rewrite (proj2 (Z.ltb_lt _ _) Hlt) in Hall.
Qed.

(** ... and one above bit 32 that extends a sign bit. *)
Lemma varint32_sign fuel bitpos r b l w :
  32 <= bitpos < 63 -> 2 ^ 31 <= r < 2 ^ 32 -> b2z b = 255 ->
  Reads (loop fuel (bitpos + 7) r) l w ->
  Reads (loop (S fuel) bitpos r) (b :: l) w.
Proof.
  intros Hp Hr Hb Hl. cbn [varint32_loop]. change (b :: l) with ([b] ++ l).
  eapply reads_bind; [apply pb_readbyte_reads |].
  rewrite (proj2 (Z.leb_le 32 bitpos)), (proj2 (Z.ltb_lt bitpos 63)), Hb by lia.
  rewrite Z.shiftr_div_pow2, (proj2 (Z.eqb_neq (r / 2 ^ 31) 0)) by dlia.
  change (255 .& 127 =? 0) with false. change (255 .& 128 =? 0) with false.
  cbn [negb andb orb Z.eqb Pos.eqb].
  rewrite <- (app_nil_l l). eapply reads_bind; [apply reads_ret |].
  by rewrite (wrap_small 8 (bitpos + 7)) by lia.
Qed.

Lemma varint32_sign_last fuel r b :
  2 ^ 31 <= r < 2 ^ 32 -> b2z b = 1 -> Reads (loop (S fuel) 63 r) [b] r.
Proof.
  intros Hr Hb. cbn [varint32_loop]. rewrite <- (app_nil_r [b]).
  eapply reads_bind; [apply pb_readbyte_reads |]. rewrite Hb.
  rewrite Z.shiftr_div_pow2, (proj2 (Z.eqb_neq (r / 2 ^ 31) 0)) by dlia.
  change (1 .& 127 =? 0) with false. change (1 .& 128 =? 0) with true.
  cbn [negb andb orb Z.eqb Pos.eqb Z.leb Z.ltb Z.compare Pos.compare Pos.compare_cont].
  rewrite <- (app_nil_l []). eapply reads_bind; apply reads_ret.
Qed.

Lemma varint32_loop_reads l fuel bitpos r :
  is_varint l -> (length l < fuel)%nat ->
  0 <= bitpos -> bitpos + 7 * Z.of_nat (length l) <= 35 -> 0 <= r < 2 ^ bitpos ->
  r + varint_value l * 2 ^ bitpos < 2 ^ 32 ->
  Reads (loop fuel bitpos r) l (r + varint_value l * 2 ^ bitpos).
Proof.
  intros Hl. revert fuel bitpos r.
  induction Hl as [b Hb | b l Hb Hl IH]; intros fuel bitpos r Hf Hp Hlen Hr Hlt;
    (destruct fuel as [| fuel]; [simpl in Hf; lia |]); cbn [length varint_value foldr] in *.
  - rewrite Z.mod_small, Z.mul_0_r, Z.add_0_r in * by blia.
    rewrite <- (wrap_small 32 (r + _)) by blia.
    apply varint32_last; try lia. intros ->. change (2 ^ 28) with 268435456 in *. lia.
  - pose proof (is_varint_length l Hl). pose proof (varint_value_range l).
    assert (0 <= b2z b mod 128 < 128) as Hm by dlia.
    assert (2 ^ (bitpos + 7) = 2 ^ bitpos * 128) as Hpow by (rewrite Z.pow_add_r by lia; done).
    fold (varint_value l) in *.
    apply varint32_more; [done | lia | done |]. rewrite wrap_small by nia.
    replace (r + (b2z b mod 128 + 128 * varint_value l) * 2 ^ bitpos)
      with (r + b2z b mod 128 * 2 ^ bitpos + varint_value l * 2 ^ (bitpos + 7)) in *
      by (rewrite Hpow; lia).
    apply IH; [lia | lia | lia | nia | done].
Qed.

(** The loop is entered with fuel for the bytes that are left. *)
Lemma pb_decode_varint32_eof_more b l w :
  128 <= b2z b -> (1 <= length l)%nat ->
  (forall k, (length l <= k)%nat -> Reads (loop (S k) 7 (b2z b mod 128)) l w) ->
  Reads (pb_decode_varint32_eof (St:=St)) (b :: l) (Some w).
Proof.
  intros Hb Hlen Hl rest n e Hn. simpl in Hn. unfold pb_decode_varint32_eof.
  change ((b :: l) ++ rest) with ([b] ++ (l ++ rest)).
  erewrite prog_bind_done.
  2: { unfold try_. rewrite pb_readbyte_reads by (simpl; lia). done. }
  cbn zeta iota beta. rewrite land_80, (proj2 (Z.ltb_ge (b2z b) 128)), land_7f by blia.
  cbn [Z.eqb]. erewrite prog_bind_done by done. cbn [bytes_left].
  erewrite prog_bind_done; [| apply Hl; simpl; lia].
  unfold mret, prog_ret. do 2 f_equal. simpl. lia.
Qed.

Lemma pb_decode_varint32_eof_reads l :
  is_varint l -> (length l <= 5)%nat -> varint_value l < 2 ^ 32 ->
  Reads (pb_decode_varint32_eof (St:=St)) l (Some (varint_value l)).
Proof.
  intros Hl Hn Hv. destruct Hl as [b Hb | b l Hb Hl].
  - intros rest n e Hlen. unfold pb_decode_varint32_eof.
    erewrite prog_bind_done.
    2: { unfold try_. rewrite pb_readbyte_reads by done. done. }
    cbn zeta iota beta. rewrite land_80, (proj2 (Z.ltb_lt (b2z b) 128)) by blia. simpl.
    by rewrite Z.mod_small, Z.add_0_r by blia.
  - apply pb_decode_varint32_eof_more; [done | by apply is_varint_length |].
    intros k Hk. cbn [length varint_value foldr] in *. fold (varint_value l) in *.
    replace (b2z b mod 128 + 128 * varint_value l)
      with (b2z b mod 128 + varint_value l * 2 ^ 7) by lia.
    apply varint32_loop_reads; (done || lia || dlia).
Qed.

Lemma pb_decode_varint32_of_eof l w :
  Reads (pb_decode_varint32_eof (St:=St)) l (Some w) -> Reads (pb_decode_varint32 (St:=St)) l w.
Proof.
  intros Hr. rewrite <- (app_nil_r l). eapply reads_bind; [done | apply reads_ret].
Qed.

Lemma varint32_length v : 0 <= v < 2 ^ 32 -> (length (varint v) <= 5)%nat.
Proof.
  intros Hv. unfold varint.
  assert (forall k n u, 0 <= u < 2 ^ (7 * Z.of_nat k) -> k <> O ->
            (length (varint_groups n u) <= k)%nat) as Hgen.
  { induction k as [| k IH]; [done |]. intros [| n] u Hu _; simpl; [lia |].
    rewrite pow_7S in Hu. destruct (Z.ltb_spec u 128); simpl; [lia |].
    destruct k; [simpl in Hu; lia |].
    pose proof (IH n (u / 128)). assert (0 <= u / 128 < 2 ^ (7 * Z.of_nat (S k))) by dlia. lia. }
  apply Hgen; [| done]. simpl. lia.
Qed.

Lemma pb_decode_varint32_eof_varint v :
  0 <= v < 2 ^ 32 -> Reads (pb_decode_varint32_eof (St:=St)) (varint v) (Some v).
Proof.
  intros Hv. destruct (varint_spec v) as (H1 & H2 & H3); [lia |].
  rewrite <- H2 at 2. apply pb_decode_varint32_eof_reads; [done | by apply varint32_length | lia].
Qed.

Lemma pb_decode_varint32_varint v :
  0 <= v < 2 ^ 32 -> Reads (pb_decode_varint32 (St:=St)) (varint v) v.
Proof. intros. by apply pb_decode_varint32_of_eof, pb_decode_varint32_eof_varint. Qed.
End Varint32.

(** ** Little-endian words *)

Lemma le_value_range l : 0 <= le_value l < 256 ^ Z.of_nat (length l).
Proof.
  induction l as [| b l IH]; simpl; [done |].
  rewrite Nat2Z.inj_succ, Z.pow_succ_r by lia. blia.
Qed.

Lemma le_value_take n l :
  (n <= length l)%nat -> 0 <= le_value (take n l) < 256 ^ Z.of_nat n.
Proof. intros Hn. rewrite <- (length_take_le l n) at 3 by done. apply le_value_range. Qed.

(** [k] bytes of [v], least significant first, as the fixed-width encoders
    compute them; and what the decoders assemble from such bytes. *)
Definition le_bytes (k : nat) (v : Z) : list byte :=
  (fun i => z2b ((v .>> (8 * Z.of_nat i)) .& 255)) <$> seq 0 k.

Lemma le_bytes_S k v : le_bytes (S k) v = z2b (v mod 256) :: le_bytes k (v / 256).
Proof.
  unfold le_bytes. simpl. rewrite Z.shiftr_0_r, land_ff. f_equal.
  rewrite <- fmap_S_seq, <- list_fmap_compose. apply list_fmap_ext. intros i j _. simpl.
  f_equal. f_equal. rewrite !Z.shiftr_div_pow2 by lia.
  replace (8 * Z.of_nat (S j)) with (8 + 8 * Z.of_nat j) by lia.
  rewrite Z.pow_add_r, Z.div_div by lia. done.
Qed.

Lemma length_le_bytes k v : length (le_bytes k v) = k.
Proof. unfold le_bytes. by rewrite length_fmap, length_seq. Qed.

Lemma le_value_le_bytes k v : le_value (le_bytes k v) = v mod 256 ^ Z.of_nat k.
Proof.
  revert v. induction k as [| k IH]; intros v; [by rewrite Z.mod_1_r |].
  rewrite le_bytes_S. simpl. fold (le_value (le_bytes k (v / 256))).
  rewrite IH, b2z_z2b, Z.mod_mod by lia.
  rewrite Nat2Z.inj_succ, Z.pow_succ_r, Z.rem_mul_r by lia. done.
Qed.

(** The value determines the bytes they were read from. *)
Lemma le_bytes_le_value src : le_bytes (length src) (le_value src) = src.
Proof.
  induction src as [| b src IH]; [done |]. simpl. rewrite le_bytes_S.
  replace ((b2z b + 256 * le_value src) mod 256) with (b2z b) by dlia.
  replace ((b2z b + 256 * le_value src) / 256) with (le_value src) by dlia.
  by rewrite z2b_b2z, IH.
Qed.
(** Only the low bytes count. *)
Lemma le_bytes_mod_ext k v v' :
  v mod 256 ^ Z.of_nat k = v' mod 256 ^ Z.of_nat k -> le_bytes k v = le_bytes k v'.
Proof.
  intros Hv. rewrite <- (le_bytes_le_value (le_bytes k v)), <- (le_bytes_le_value (le_bytes k v')).
  by rewrite !length_le_bytes, !le_value_le_bytes, Hv.
Qed.
