(* ===== verification/PbSafe.v ===== *)
(** * Memory safety and termination of the nanopb decoders

    Every decoding function of [PbWire], run on any input whatsoever, keeps to
    the bytes its stream has left, stops within its fuel, and keeps the
    invariants of the stream ([StreamInv]); what it returns is in the range of
    its C type. *)

From S2P Require Import Prelude PbStream PbWire.

(** A step of a safety proof whose continuation does not need the value read. *)
Ltac safe_step :=
  first
    [ solve [typeclasses eauto]
    | apply safe_try | apply safe_if
    | apply safe_bind; [| intros ?] ].

Section Safety.
Context {St : Type} `{ReadCallback St} (I : pb_istream_t St -> Prop) `{!StreamInv I}.

Abbreviation left_lt k := (fun s => I s /\ bytes_left s < Z.of_nat k).

(** Reading a byte pays for a round of a loop. *)
Lemma readbyte_left k :
  runs (left_lt (S k)) pb_readbyte (fun _ => left_lt k) I.
Proof.
  intros s [Hs Hk]. destruct (si_readbyte s Hs) as (H1 & H2 & H3).
  destruct (pb_readbyte s) as [[b | | |] s'] eqn:E; simpl in *; try done.
  destruct (pb_readbyte_left s b s' (si_ok s Hs) E). split; [done | lia].
Qed.

Lemma read1_left k :
  runs (left_lt (S k)) (pb_read false 1)
    (fun l s => left_lt k s /\ length l = 1%nat) I.
Proof.
  intros s [Hs Hk]. destruct (si_read false 1 ltac:(lia) s Hs) as (H1 & H2 & H3).
  destruct (pb_read false 1 s) as [[l | | |] s'] eqn:E; simpl in *; try done.
  destruct (pb_read1_left s l s' (si_ok s Hs) E) as (? & ? & ?). split_and!; (done || lia).
Qed.

Lemma left_lt_0 s : left_lt 0 s -> False.
Proof. intros [Hs Hk]. destruct (si_ok s Hs). lia. Qed.

Lemma runs_error {A} P msg (Q : A -> _ -> Prop) :
  (forall s, P s -> I s) -> runs P (PB_RETURN_ERROR msg) Q I.
Proof. intros HP s Hs. by destruct (si_error A msg s (HP s Hs)) as (_ & _ & HI). Qed.

Lemma varint32_loop_runs fuel bitpos result :
  0 <= result < 2 ^ 32 ->
  runs (left_lt fuel) (varint32_loop fuel bitpos result)
    (fun v s => I s /\ 0 <= v < 2 ^ 32) I.
Proof.
  revert bitpos result. induction fuel as [| fuel IH]; intros bitpos result Hr.
  { intros s Hs. by destruct (left_lt_0 s). }
  cbn [varint32_loop]. eapply runs_bind; [apply readbyte_left |]. intros b. cbv zeta.
  eapply (runs_bind _ _ (fun v s => left_lt fuel s /\ 0 <= v < 2 ^ 32)).
  - apply runs_if; [apply runs_if |].
    + apply runs_error. tauto.
    + by apply runs_ret.
    + apply runs_ret. intros s Hs. split; [done |].
      apply lor_lt_pow2; [lia | done | apply wrap_range; lia].
  - intros v. apply runs_pure. intros Hv.
    apply runs_if; [by apply IH |]. apply runs_if; [apply runs_error; tauto |].
    apply runs_ret. tauto.
Qed.

(** What the fuel of a loop is measured against. *)
Lemma runs_with_fuel {A} (m : nat -> prog (pb_istream_t St) A) (Q : A -> _ -> Prop) :
  (forall k, runs (left_lt k) (m k) Q I) ->
  runs I (s ← getS; m (S (Z.to_nat (bytes_left s)))) Q I.
Proof.
  intros Hm s Hs. unfold mbind, prog_bind, getS. apply Hm. split; [done |].
  destruct (si_ok s Hs). lia.
Qed.

Lemma pb_decode_varint32_eof_runs :
  runs I pb_decode_varint32_eof
    (fun r s => I s /\ forall v, r = Some v -> 0 <= v < 2 ^ 32) I.
Proof.
  unfold pb_decode_varint32_eof. eapply (runs_bind _ _ (fun _ => I)).
  - apply runs_safe. repeat safe_step.
  - intros [b |]; cbv zeta.
    + apply runs_if.
      * apply runs_ret. intros s Hs. split; [done |]. intros v [= <-]. blia.
      * apply (runs_with_fuel (fun k => result ← varint32_loop k 7 (b2z b .& 127);
                               mret (Some result))).
        intros k. eapply runs_bind; [apply varint32_loop_runs |].
        { rewrite land_7f. dlia. }
        intros v. apply runs_ret. intros s [Hs Hv]. split; [done |]. by intros ? [= <-].
    + eapply (runs_bind _ _ (fun _ => I)); [apply runs_safe; apply _ |].
      intros s. apply runs_if; [by apply runs_ret |]. by intros s' Hs'.
Qed.

Lemma pb_decode_varint32_runs :
  runs I pb_decode_varint32 (fun v s => I s /\ 0 <= v < 2 ^ 32) I.
Proof.
  eapply runs_bind; [apply pb_decode_varint32_eof_runs |]. intros [v |].
  - apply runs_ret. intros s [Hs Hv]. auto.
  - by intros s [Hs _].
Qed.

#[export] Instance pb_decode_varint32_safe : Safe I pb_decode_varint32.
Proof.
  apply runs_safe. by eapply runs_weaken; [apply pb_decode_varint32_runs | | intros ? ? []].
Qed.

(** [bitpos] starts at 0 and the loop gives up at 64: 11 rounds. *)
Lemma varint_loop_safe k result :
  (k <= 10)%nat -> Safe I (varint_loop (S k) (7 * (10 - Z.of_nat k)) result).
Proof.
  revert result. induction k as [| k IH]; intros result Hk; cbn [varint_loop];
    [by change (64 <=? 7 * (10 - Z.of_nat 0)) with true; apply si_error |].
  apply safe_if; [apply si_error |]. apply safe_bind; [apply si_readbyte |].
  intros b. apply safe_if; [| apply safe_ret].
  rewrite wrap_small by lia.
  replace (7 * (10 - Z.of_nat (S k)) + 7) with (7 * (10 - Z.of_nat k)) by lia.
  apply IH. lia.
Qed.

#[export] Instance pb_decode_varint_safe : Safe I pb_decode_varint.
Proof. apply (varint_loop_safe 10 0). lia. Qed.

Lemma skip_varint_loop_runs fuel :
  runs (left_lt fuel) (skip_varint_loop fuel) (fun _ => I) I.
Proof.
  induction fuel as [| fuel IH]; [by intros s Hs; destruct (left_lt_0 s) |].
  cbn [skip_varint_loop]. eapply runs_bind; [apply read1_left |].
  intros l. apply runs_pure. intros Hl. destruct l as [| b []]; try done.
  apply runs_if; [done |]. apply runs_ret. tauto.
Qed.

#[export] Instance pb_skip_varint_safe : Safe I pb_skip_varint.
Proof. apply runs_safe, runs_with_fuel, skip_varint_loop_runs. Qed.

#[export] Instance pb_skip_string_safe : Safe I pb_skip_string.
Proof.
  apply (safe_bind_runs _ (fun v => 0 <= v < 2 ^ 32)); [apply pb_decode_varint32_runs |].
  intros v Hv. repeat safe_step.
Qed.

#[export] Instance pb_decode_tag_safe : Safe I pb_decode_tag.
Proof.
  apply safe_bind.
  - apply runs_safe.
    by eapply runs_weaken; [apply pb_decode_varint32_eof_runs | | intros ? ? []].
  - intros [v |]; repeat safe_step.
Qed.

#[export] Instance pb_skip_field_safe wire_type : Safe I (pb_skip_field wire_type).
Proof. unfold pb_skip_field. repeat safe_step. Qed.

#[export] Instance read_raw_value_safe wire_type max_size :
  Safe I (read_raw_value wire_type max_size).
Proof.
  unfold read_raw_value. repeat safe_step.
  generalize (Z.to_nat max_size) as room. intros room. apply runs_safe.
  induction room as [| room IH]; [by intros s Hs |]. cbn [read_raw_varint].
  eapply (runs_bind _ _ (fun l s => I s /\ length l = 1%nat)).
  - by apply pb_read_runs.
  - intros l. apply runs_pure. intros Hl. destruct l as [| b []]; try done.
    apply runs_if; [| by apply runs_ret].
    eapply runs_bind; [apply IH |]. intros rest. by apply runs_ret.
Qed.

#[export] Instance pb_decode_fixed32_safe : Safe I pb_decode_fixed32.
Proof.
  apply (safe_bind_runs _ (fun l => length l = 4%nat)); [by apply pb_read_runs |].
  intros l Hl. by do 5 (destruct l; try done).
Qed.

#[export] Instance pb_decode_fixed64_safe : Safe I pb_decode_fixed64.
Proof.
  apply (safe_bind_runs _ (fun l => length l = 8%nat)); [by apply pb_read_runs |].
  intros l Hl. by do 9 (destruct l; try done).
Qed.

Instance store_clamped_safe c v : Safe I (store_clamped c v).
Proof. unfold store_clamped. destruct c; apply _. Qed.

#[export] Instance pb_dec_varint_safe field : Safe I (pb_dec_varint field).
Proof. apply safe_bind; [apply _ |]. intros v. apply _. Qed.

#[export] Instance pb_dec_uvarint_safe field : Safe I (pb_dec_uvarint field).
Proof. apply _. Qed.

#[export] Instance pb_decode_svarint_safe : Safe I pb_decode_svarint.
Proof. apply _. Qed.

#[export] Instance pb_dec_svarint_safe field : Safe I (pb_dec_svarint field).
Proof. apply _. Qed.

#[export] Instance pb_dec_bool_safe : Safe I pb_dec_bool.
Proof. apply _. Qed.

#[export] Instance allocate_field_safe ok d a : Safe I (allocate_field ok d a).
Proof. unfold allocate_field. apply _. Qed.

(** The length-delimited decoders read a [size] first, which is not negative. *)
Lemma safe_sized {A} (f : Z -> prog (pb_istream_t St) A) :
  (forall size, 0 <= size < 2 ^ 32 -> Safe I (f size)) ->
  Safe I (size ← pb_decode_varint32; f size).
Proof. apply safe_bind_runs, pb_decode_varint32_runs. Qed.

#[export] Instance pb_dec_bytes_safe ok field : Safe I (pb_dec_bytes ok field).
Proof. apply safe_sized. intros size Hsize. cbv zeta. apply _. Qed.

#[export] Instance pb_dec_string_safe ok field : Safe I (pb_dec_string ok field).
Proof. apply safe_sized. intros size Hsize. cbv zeta. apply _. Qed.

Lemma pb_dec_fixed_length_bytes_safe field :
  0 <= f_data_size field -> Safe I (pb_dec_fixed_length_bytes field).
Proof. intros Hd. apply safe_sized. intros size Hsize. cbv zeta. apply _. Qed.
End Safety.

(** ** Any sequence of calls *)

(** A call of a decoding function, with its arguments. *)
Inductive decode_call : Type :=
  | CallTag | CallVarint32 | CallVarint | CallSvarint | CallFixed32 | CallFixed64 | CallBool
  | CallSkipField (wire_type : Z)
  | CallRawValue (wire_type max_size : Z)
  | CallDecVarint (field : pb_field_t)
  | CallDecUvarint (field : pb_field_t)
  | CallDecSvarint (field : pb_field_t)
  | CallDecBytes (field : pb_field_t)
  | CallDecString (field : pb_field_t).

Section Calls.
Context {St : Type} `{ReadCallback St} (realloc_ok : Z -> bool).
Abbreviation M := (prog (pb_istream_t St)).

(** The value of a call is dropped: only its effect on the stream matters. *)
Definition run_call (c : decode_call) : M unit :=
  let drop_ {A} (m : M A) : M unit := (_ ← m; mret tt) in
  match c with
  | CallTag => drop_ pb_decode_tag
  | CallVarint32 => drop_ pb_decode_varint32
  | CallVarint => drop_ pb_decode_varint
  | CallSvarint => drop_ pb_decode_svarint
  | CallFixed32 => drop_ pb_decode_fixed32
  | CallFixed64 => drop_ pb_decode_fixed64
  | CallBool => drop_ pb_decode_bool
  | CallSkipField w => pb_skip_field w
  | CallRawValue w n => drop_ (read_raw_value w n)
  | CallDecVarint f => drop_ (pb_dec_varint f)
  | CallDecUvarint f => drop_ (pb_dec_uvarint f)
  | CallDecSvarint f => drop_ (pb_dec_svarint f)
  | CallDecBytes f => drop_ (pb_dec_bytes realloc_ok f)
  | CallDecString f => drop_ (pb_dec_string realloc_ok f)
  end.

(** The caller goes on whether a call succeeds or fails. *)
Fixpoint run_calls (cs : list decode_call) : M unit :=
  match cs with
  | [] => mret tt
  | c :: cs => _ ← try_ (run_call c); run_calls cs
  end.

Instance run_call_safe I `{!StreamInv I} c : Safe I (run_call c).
Proof. unfold run_call, pb_decode_bool. destruct c; apply _. Qed.

Lemma run_calls_safe I `{!StreamInv I} cs : Safe I (run_calls cs).
Proof. induction cs as [| c cs IH]; simpl; apply _. Qed.

(** C9: nanopb input streams are memory safe.  On a buffer of at least [bytes_left]
    bytes with any contents, no sequence of calls of the decoding functions
    (each made whether or not the earlier ones succeeded) reads a byte outside
    the buffer, every call returns, and in the end the stream stands in the
    same buffer, [k] bytes further, with [bytes_left] less by exactly [k]. *)
Theorem nanopb_decoding_stays_in_buffer (cs : list decode_call) (mem : list byte)
    (n : Z) (e : option string) :
  0 <= n < 2 ^ 64 -> n <= Z.of_nat (length mem) ->
  exists k e',
    0 <= k <= n /\
    run_calls cs (mk_istream (BufSrc mem) n e)
    = (Done tt, mk_istream (BufSrc (drop (Z.to_nat k) mem)) (n - k) e').
Proof.
  intros Hn Hm. set (s := mk_istream (BufSrc mem) n e : pb_istream_t St).
  assert (advanced_from s s) as Hs by by apply (advanced_from_refl s mem).
  assert (forall s0, (run_calls cs s0).1 <> Failed) as Hnf.
  { clear. induction cs as [| c cs IH]; intros s0; [done |]. simpl.
    unfold mbind, prog_bind, try_. destruct (run_call c s0) as [[] s1]; simpl; done. }
  specialize (Hnf s). destruct (run_calls_safe _ cs s Hs) as (H1 & H2 & mem' & k & Hk).
  destruct (run_calls cs s) as [[[] | | |] [src m e']]; simpl in *; try done.
  destruct Hk as (_ & [= <-] & Hk & -> & ->). by exists k, e'.
Qed.
End Calls.

Lemma nanopb_decoding_stays_in_buffer_witness :
  exists k e',
    0 <= k <= 3 /\
    run_calls (fun _ => true) [CallTag; CallVarint; CallFixed64; CallSkipField 2]
      (mk_istream (St:=unit) (BufSrc [x08; x96; x01; xff]) 3 None)
    = (Done tt, mk_istream (BufSrc (drop (Z.to_nat k) [x08; x96; x01; xff])) (3 - k) e').
Proof.
  apply (nanopb_decoding_stays_in_buffer (fun _ => true)
           [CallTag; CallVarint; CallFixed64; CallSkipField 2]); vm_compute; done.
Defined.
