(* ===== verification/PbCodec.v ===== *)
(** * Round trips of the nanopb wire format

    What the encoders of [PbWire] emit is what its decoders read, for every
    scalar type, for tags and for length-delimited data; and [pb_skip_field]
    steps over it exactly.  The last section records inputs on which the 32-bit
    varint decoder accepts what it means to refuse. *)

From S2P Require Import Prelude PbStream PbWire PbSafe.

(** ** Zigzag *)

Lemma u64_shl1 v : u64 (u64 v .<< 1) = u64 (2 * v).
Proof.
  unfold wrap. rewrite Z.shiftl_mul_pow2, Z.mul_mod_idemp_l by lia. f_equal. lia.
Qed.

Lemma zigzag_eq v :
  - 2 ^ 63 <= v < 2 ^ 63 -> zigzag v = if v <? 0 then - 2 * v - 1 else 2 * v.
Proof.
  intros Hv. unfold zigzag. rewrite u64_shl1. unfold wrap, Z.lnot.
  destruct (Z.ltb_spec v 0).
  - rewrite <- (Z.mod_add (2 * v) 1) by lia. rewrite (Z.mod_small (2 * v + _)) by lia.
    rewrite <- (Z.mod_add _ 1) by lia. rewrite Z.mod_small; lia.
  - rewrite Z.mod_small; lia.
Qed.

Lemma zigzag_range v : - 2 ^ 63 <= v < 2 ^ 63 -> 0 <= zigzag v < 2 ^ 64.
Proof. intros Hv. rewrite zigzag_eq by done. case_bool; lia. Qed.

Lemma unzigzag_zigzag v : - 2 ^ 63 <= v < 2 ^ 63 -> unzigzag (zigzag v) = v.
Proof.
  intros Hv. rewrite zigzag_eq by done. unfold unzigzag.
  rewrite land_01, Z.shiftr_div_pow2 by lia. change (2 ^ 1) with 2.
  destruct (Z.ltb_spec v 0).
  - replace ((- 2 * v - 1) mod 2) with 1 by dlia.
    replace ((- 2 * v - 1) / 2) with (- v - 1) by dlia. simpl.
    unfold Z.lnot. rewrite swrap_small; lia.
  - replace ((2 * v) mod 2) with 0 by dlia. replace (2 * v / 2) with v by dlia. simpl.
    rewrite swrap_small; lia.
Qed.

Lemma swrap_wrap w v : 1 <= w -> - 2 ^ (w - 1) <= v < 2 ^ (w - 1) -> swrap w (wrap w v) = v.
Proof.
  intros Hw Hv. unfold swrap, wrap. rewrite Z.add_mod_idemp_l by lia.
  apply swrap_small; done.
Qed.

Lemma i32_u64 v : - 2 ^ 31 <= v < 2 ^ 31 -> i32 (u64 v) = v.
Proof.
  intros Hv. rewrite <- (swrap_wrap 32 v) at 2 by lia. unfold swrap. f_equal.
  unfold wrap. rewrite <- (Z.add_mod_idemp_l (v mod 2 ^ 64)) by lia.
  rewrite Z.mod_mod_divide; [done |]. by exists (2 ^ 32).
Qed.

(** ** Little-endian words *)

Lemma lor_le_step acc b n : 0 <= n -> 0 <= acc < 2 ^ n -> acc .| (b .<< n) = acc + b * 2 ^ n.
Proof. intros. rewrite lor_shl_r by done. lia. Qed.

Lemma fixed32_value b0 b1 b2 b3 :
  (b2z b0 .<< 0) .| (b2z b1 .<< 8) .| (b2z b2 .<< 16) .| (b2z b3 .<< 24)
  = le_value [b0; b1; b2; b3].
Proof.
  rewrite Z.shiftl_0_r, (lor_le_step (b2z b0)) by blia.
  repeat (rewrite (lor_le_step (_ + _)) by blia). simpl. blia.
Qed.

Lemma fixed64_value b0 b1 b2 b3 b4 b5 b6 b7 :
  (b2z b0 .<< 0) .| (b2z b1 .<< 8) .| (b2z b2 .<< 16) .| (b2z b3 .<< 24) .|
  (b2z b4 .<< 32) .| (b2z b5 .<< 40) .| (b2z b6 .<< 48) .| (b2z b7 .<< 56)
  = le_value [b0; b1; b2; b3; b4; b5; b6; b7].
Proof.
  rewrite Z.shiftl_0_r, (lor_le_step (b2z b0)) by blia.
  repeat (rewrite (lor_le_step (_ + _)) by blia). simpl. blia.
Qed.

Lemma fixed32_bytes_eq v : fixed32_bytes v = le_bytes 4 v.
Proof. unfold fixed32_bytes, le_bytes. simpl. by rewrite Z.shiftr_0_r. Qed.

Lemma fixed64_bytes_eq v : fixed64_bytes v = le_bytes 8 v.
Proof. unfold fixed64_bytes, le_bytes. simpl. by rewrite Z.shiftr_0_r. Qed.

(** ** What the decoders read *)

Section Readers.
Context {St : Type} `{ReadCallback St}.

Lemma pb_decode_fixed32_reads l :
  length l = 4%nat -> Reads (pb_decode_fixed32 (St:=St)) l (le_value l).
Proof.
  intros Hl. do 5 (destruct l as [| ? l]; try done).
  rewrite <- (app_nil_r [_; _; _; _]) at 1. eapply reads_bind.
  - by apply pb_read_reads'.
  - cbn [fmap list_fmap]. rewrite fixed32_value. apply reads_ret.
Qed.

Lemma pb_decode_fixed64_reads l :
  length l = 8%nat -> Reads (pb_decode_fixed64 (St:=St)) l (le_value l).
Proof.
  intros Hl. do 9 (destruct l as [| ? l]; try done).
  rewrite <- (app_nil_r [_; _; _; _; _; _; _; _]) at 1. eapply reads_bind.
  - by apply pb_read_reads'.
  - cbn [fmap list_fmap]. rewrite fixed64_value. apply reads_ret.
Qed.

Lemma pb_decode_svarint_reads v :
  - 2 ^ 63 <= v < 2 ^ 63 -> Reads (pb_decode_svarint (St:=St)) (varint (zigzag v)) v.
Proof.
  intros Hv. rewrite <- (unzigzag_zigzag v) at 2 by done.
  apply reads_bind_ret, pb_decode_varint_varint, zigzag_range, Hv.
Qed.

(** [pb_skip_varint] steps over a varint of any length. *)
Lemma skip_varint_loop_reads l fuel :
  is_varint l -> (length l <= fuel)%nat -> Reads (skip_varint_loop (St:=St) fuel) l tt.
Proof.
  intros Hl. revert fuel. induction Hl as [b Hb | b l Hb Hl IH]; intros fuel Hf;
    (destruct fuel as [| fuel]; [simpl in Hf; lia |]); cbn [skip_varint_loop].
  - rewrite <- (app_nil_r [b]). eapply reads_bind; [by apply pb_read_reads' |].
    cbv beta iota. rewrite land_80, (proj2 (Z.ltb_lt (b2z b) 128)) by blia. apply reads_ret.
  - change (b :: l) with ([b] ++ l). eapply reads_bind; [by apply pb_read_reads' |].
    cbv beta iota. rewrite land_80, (proj2 (Z.ltb_ge (b2z b) 128)) by blia. apply IH. simpl in Hf. lia.
Qed.

Lemma pb_skip_varint_reads l : is_varint l -> Reads (pb_skip_varint (St:=St)) l tt.
Proof.
  intros Hl rest n e Hn. apply skip_varint_loop_reads; [done | simpl; lia | done].
Qed.

Lemma pb_skip_string_reads l :
  Z.of_nat (length l) < 2 ^ 32 ->
  Reads (pb_skip_string (St:=St)) (varint (Z.of_nat (length l)) ++ l) tt.
Proof.
  intros Hl. eapply reads_bind; [apply pb_decode_varint32_varint; lia |].
  apply (reads_bind_ret _ (fun _ => tt) l l), pb_read_reads.
Qed.

(** *** Tags *)

Lemma tag_value_eq n w :
  0 <= n < 2 ^ 61 -> (u64 (n .<< 3)) .| wire_type_z w = 8 * n + wire_type_z w.
Proof.
  intros Hn. assert (0 <= wire_type_z w < 8) by by destruct w.
  unfold wrap. rewrite Z.mod_small by (rewrite Z.shiftl_mul_pow2; lia).
  rewrite lor_shl by lia. lia.
Qed.

Lemma pb_decode_tag_reads n w :
  1 <= n < 2 ^ 29 ->
  Reads (pb_decode_tag (St:=St)) (varint (8 * n + wire_type_z w)) (Tag n (wire_type_z w)).
Proof.
  intros Hn. assert (0 <= wire_type_z w < 8) by by destruct w.
  rewrite <- (app_nil_r (varint _)).
  eapply reads_bind; [apply pb_decode_varint32_eof_varint; lia |].
  cbv beta iota. destruct (Z.eqb_spec (8 * n + wire_type_z w) 0); [lia |].
  rewrite land_07, Z.shiftr_div_pow2 by lia. change (2 ^ 3) with 8.
  replace ((8 * n + wire_type_z w) / 8) with n by dlia.
  replace ((8 * n + wire_type_z w) mod 8) with (wire_type_z w) by dlia. apply reads_ret.
Qed.

(** *** Scalar fields, by the width of their storage *)

Lemma clamp_signed_id size v :
  size ∈ [1; 2; 4; 8] -> - 2 ^ (8 * size - 1) <= v < 2 ^ (8 * size - 1) ->
  clamp_signed size v = Some v.
Proof.
  intros Hs. rewrite !elem_of_cons, elem_of_nil in Hs.
  destruct Hs as [-> | [-> | [-> | [-> | []]]]]; intros Hv; unfold clamp_signed; simpl;
    f_equal; try apply swrap_small; lia.
Qed.

Lemma clamp_unsigned_id size v :
  size ∈ [1; 2; 4; 8] -> 0 <= v < 2 ^ (8 * size) -> clamp_unsigned size v = Some v.
Proof.
  intros Hs. rewrite !elem_of_cons, elem_of_nil in Hs.
  destruct Hs as [-> | [-> | [-> | [-> | []]]]]; intros Hv; unfold clamp_unsigned; simpl;
    f_equal; try apply wrap_small; lia.
Qed.

Lemma store_clamped_reads v : Reads (store_clamped (St:=St) (Some v) v) [] v.
Proof. unfold store_clamped. rewrite Z.eqb_refl. apply reads_ret. Qed.

Lemma pb_dec_varint_reads field v :
  f_data_size field ∈ [1; 2; 4; 8] ->
  - 2 ^ (8 * f_data_size field - 1) <= v < 2 ^ (8 * f_data_size field - 1) ->
  Reads (pb_dec_varint (St:=St) field) (varint (u64 v)) v.
Proof.
  intros Hs Hv. rewrite <- (app_nil_r (varint _)).
  eapply reads_bind; [apply pb_decode_varint_varint, wrap_range; lia |]. cbv zeta.
  assert ((if f_data_size field =? 8 then i64 (u64 v) else i32 (u64 v)) = v) as ->.
  { rewrite !elem_of_cons, elem_of_nil in Hs.
    destruct Hs as [E | [E | [E | [E | []]]]]; rewrite E in *; simpl in *;
      (apply i32_u64 || apply swrap_wrap); lia. }
  rewrite clamp_signed_id by done. apply store_clamped_reads.
Qed.

Lemma pb_dec_uvarint_reads field v :
  f_data_size field ∈ [1; 2; 4; 8] -> 0 <= v < 2 ^ (8 * f_data_size field) ->
  Reads (pb_dec_uvarint (St:=St) field) (varint v) v.
Proof.
  intros Hs Hv. rewrite <- (app_nil_r (varint _)). eapply reads_bind.
  - apply pb_decode_varint_varint. rewrite !elem_of_cons, elem_of_nil in Hs.
    destruct Hs as [E | [E | [E | [E | []]]]]; rewrite E in *; simpl in *; lia.
  - cbv beta. rewrite clamp_unsigned_id by done. apply store_clamped_reads.
Qed.

Lemma pb_dec_svarint_reads field v :
  f_data_size field ∈ [1; 2; 4; 8] ->
  - 2 ^ (8 * f_data_size field - 1) <= v < 2 ^ (8 * f_data_size field - 1) ->
  Reads (pb_dec_svarint (St:=St) field) (varint (zigzag v)) v.
Proof.
  intros Hs Hv. rewrite <- (app_nil_r (varint _)). eapply reads_bind.
  - apply pb_decode_svarint_reads. rewrite !elem_of_cons, elem_of_nil in Hs.
    destruct Hs as [E | [E | [E | [E | []]]]]; rewrite E in *; simpl in *; lia.
  - cbv beta. rewrite clamp_signed_id by done. apply store_clamped_reads.
Qed.
End Readers.

(** ** What the encoders emit *)

Section Emitters.
Context {St : Type} `{WriteCallback St}.

Lemma pb_encode_svarint_emits v :
  - 2 ^ 63 <= v < 2 ^ 63 -> Emits (pb_encode_svarint (St:=St) v) (varint (zigzag v)).
Proof. intros Hv. apply pb_encode_varint_emits, zigzag_range, Hv. Qed.

Lemma pb_encode_fixed32_emits v : Emits (pb_encode_fixed32 (St:=St) v) (le_bytes 4 v).
Proof.
  unfold pb_encode_fixed32. rewrite fixed32_bytes_eq.
  apply pb_write_emits'. by rewrite length_le_bytes.
Qed.

Lemma pb_encode_fixed64_emits v : Emits (pb_encode_fixed64 (St:=St) v) (le_bytes 8 v).
Proof.
  unfold pb_encode_fixed64. rewrite fixed64_bytes_eq.
  apply pb_write_emits'. by rewrite length_le_bytes.
Qed.

Lemma pb_encode_tag_emits w n :
  0 <= n < 2 ^ 32 -> Emits (pb_encode_tag (St:=St) w n) (varint (8 * n + wire_type_z w)).
Proof.
  intros Hn. unfold pb_encode_tag. rewrite tag_value_eq by lia.
  apply pb_encode_varint_emits. destruct w; simpl; lia.
Qed.

Lemma pb_encode_string_emits l k :
  k = Z.of_nat (length l) -> k < 2 ^ 64 ->
  Emits (pb_encode_string (St:=St) l k) (varint k ++ l).
Proof.
  intros -> Hl. apply emits_bind; [apply pb_encode_varint_emits; lia | apply pb_write_emits].
Qed.

(** A step that only computes a value emits nothing. *)
Lemma emits_pure_bind {A} (m : prog (pb_ostream_t St) A) (f : A -> prog _ unit) a l :
  (forall s, m s = (Done a, s)) -> Emits (f a) l -> Emits (m ≫= f) l.
Proof.
  intros Hm Hf s Hs Hc Hl. rewrite (prog_bind_done m f s a s) by apply Hm.
  by apply Hf.
Qed.

Lemma load_raw_done n src s :
  length src = n -> load_raw (St:=St) n src s = (Done (le_value src), s).
Proof. intros <-. unfold load_raw. by rewrite Nat.leb_refl, take_ge. Qed.

Lemma load_signed_done size src s :
  size ∈ [1; 2; 4; 8] -> Z.of_nat (length src) = size ->
  load_signed (St:=St) size src s = (Done (swrap (8 * size) (le_value src)), s).
Proof.
  rewrite !elem_of_cons, elem_of_nil. intros [-> | [-> | [-> | [-> | []]]]] Hl;
    unfold load_signed; cbn [Z.eqb Pos.eqb];
    (erewrite prog_bind_done; [| apply load_raw_done; lia]); done.
Qed.

Lemma load_unsigned_done size src s :
  size ∈ [1; 2; 4; 8] -> Z.of_nat (length src) = size ->
  load_unsigned (St:=St) size src s = (Done (le_value src), s).
Proof.
  rewrite !elem_of_cons, elem_of_nil. intros [-> | [-> | [-> | [-> | []]]]] Hl;
    unfold load_unsigned; cbn [Z.eqb Pos.eqb]; apply load_raw_done; lia.
Qed.
End Emitters.

(** ** Scalar fields in memory

    A scalar field of [size] bytes holds a signed or unsigned value in two's
    complement, little endian; each kind of field has its own wire form. *)

Inductive scalar_kind : Type := KVarint | KUvarint | KSvarint.

Section Scalars.
Context {St : Type} `{ReadCallback St} `{WriteCallback St}.

Definition scalar_value (k : scalar_kind) (size : Z) (src : list byte) : Z :=
  match k with
  | KUvarint => le_value src
  | _ => swrap (8 * size) (le_value src)
  end.

Definition scalar_wire (k : scalar_kind) (v : Z) : list byte :=
  match k with
  | KVarint => varint (u64 v)
  | KUvarint => varint v
  | KSvarint => varint (zigzag v)
  end.

Definition enc_scalar (k : scalar_kind) : pb_field_t -> list byte -> prog (pb_ostream_t St) unit :=
  match k with KVarint => pb_enc_varint | KUvarint => pb_enc_uvarint | KSvarint => pb_enc_svarint end.

Definition dec_scalar (k : scalar_kind) : pb_field_t -> prog (pb_istream_t St) Z :=
  match k with KVarint => pb_dec_varint | KUvarint => pb_dec_uvarint | KSvarint => pb_dec_svarint end.

Lemma swrap_range w v : 1 <= w -> - 2 ^ (w - 1) <= swrap w v < 2 ^ (w - 1).
Proof.
  intros Hw. unfold swrap.
  assert (2 ^ w = 2 * 2 ^ (w - 1)) by (rewrite <- Z.pow_succ_r by lia; f_equal; lia).
  pose proof (Z.mod_pos_bound (v + 2 ^ (w - 1)) (2 ^ w)). lia.
Qed.

Lemma le_value_size size src :
  Z.of_nat (length src) = size -> 0 <= le_value src < 2 ^ (8 * size).
Proof.
  intros <-. pose proof (le_value_range src). by rewrite Z.pow_mul_r by lia.
Qed.

Lemma swrap_range_size size v :
  size ∈ [1; 2; 4; 8] -> - 2 ^ 63 <= swrap (8 * size) v < 2 ^ 63.
Proof.
  intros Hs. pose proof (swrap_range (8 * size) v) as Hr.
  rewrite !elem_of_cons, elem_of_nil in Hs.
  destruct Hs as [-> | [-> | [-> | [-> | []]]]]; simpl in Hr; lia.
Qed.

Lemma enc_scalar_emits k field src :
  f_data_size field ∈ [1; 2; 4; 8] -> Z.of_nat (length src) = f_data_size field ->
  Emits (enc_scalar k field src) (scalar_wire k (scalar_value k (f_data_size field) src)).
Proof.
  intros Hs Hl. destruct k; simpl; (eapply emits_pure_bind;
    [intros s; (by apply load_signed_done) || (by apply load_unsigned_done) |]).
  - apply pb_encode_varint_emits, wrap_range. lia.
  - apply pb_encode_varint_emits. pose proof (le_value_size _ src Hl).
    rewrite !elem_of_cons, elem_of_nil in Hs.
    destruct Hs as [E | [E | [E | [E | []]]]]; rewrite E in *; simpl in *; lia.
  - by apply pb_encode_svarint_emits, swrap_range_size.
Qed.

Lemma dec_scalar_reads k field src :
  f_data_size field ∈ [1; 2; 4; 8] -> Z.of_nat (length src) = f_data_size field ->
  Reads (dec_scalar k field) (scalar_wire k (scalar_value k (f_data_size field) src))
    (scalar_value k (f_data_size field) src).
Proof.
  intros Hs Hl. assert (1 <= f_data_size field).
  { rewrite !elem_of_cons, elem_of_nil in Hs. intuition lia. }
  pose proof (swrap_range (8 * f_data_size field) (le_value src)).
  destruct k; simpl.
  - apply pb_dec_varint_reads; [done | lia].
  - apply pb_dec_uvarint_reads; [done | by apply le_value_size].
  - apply pb_dec_svarint_reads; [done | lia].
Qed.

End Scalars.

Lemma swrap_mod w v : 0 <= w -> swrap w v mod 2 ^ w = v mod 2 ^ w.
Proof.
  intros Hw. unfold swrap. rewrite Zminus_mod_idemp_l. f_equal. lia.
Qed.

(** ** Messages as sequences of fields *)

(** A field as the callers of the encoder write it: a tag, then a payload of the
    wire type the tag announces. *)
Inductive payload : Type :=
  | PVarint (v : Z)
  | PSvarint (v : Z)
  | P64 (v : Z)
  | PString (l : list byte)
  | P32 (v : Z).

Inductive payload_kind : Type := AsVarint | AsSvarint | As64 | AsString | As32.

Definition kind_of (p : payload) : payload_kind :=
  match p with
  | PVarint _ => AsVarint | PSvarint _ => AsSvarint | P64 _ => As64
  | PString _ => AsString | P32 _ => As32
  end.

Definition kind_wire_type (k : payload_kind) : pb_wire_type_t :=
  match k with
  | AsVarint | AsSvarint => PB_WT_VARINT
  | As64 => PB_WT_64BIT
  | AsString => PB_WT_STRING
  | As32 => PB_WT_32BIT
  end.

(** The C types of the arguments. *)
Definition payload_ok (p : payload) : Prop :=
  match p with
  | PVarint v | P64 v => 0 <= v < 2 ^ 64
  | PSvarint v => - 2 ^ 63 <= v < 2 ^ 63
  | PString l => Z.of_nat (length l) < 2 ^ 32
  | P32 v => 0 <= v < 2 ^ 32
  end.

Definition field_ok (f : Z * payload) : Prop := 1 <= f.1 < 2 ^ 29 /\ payload_ok f.2.

Definition payload_wire (p : payload) : list byte :=
  match p with
  | PVarint v => varint v
  | PSvarint v => varint (zigzag v)
  | P64 v => le_bytes 8 v
  | PString l => varint (Z.of_nat (length l)) ++ l
  | P32 v => le_bytes 4 v
  end.

Definition tag_wire (n : Z) (p : payload) : list byte :=
  varint (8 * n + wire_type_z (kind_wire_type (kind_of p))).

Definition fields_wire (fs : list (Z * payload)) : list byte :=
  flat_map (fun f => tag_wire f.1 f.2 ++ payload_wire f.2) fs.

Section Messages.
Context {St : Type} `{ReadCallback St} `{WriteCallback St}.

Definition encode_payload (p : payload) : prog (pb_ostream_t St) unit :=
  match p with
  | PVarint v => pb_encode_varint v
  | PSvarint v => pb_encode_svarint v
  | P64 v => pb_encode_fixed64 v
  | PString l => pb_encode_string l (Z.of_nat (length l))
  | P32 v => pb_encode_fixed32 v
  end.

Fixpoint encode_fields (fs : list (Z * payload)) : prog (pb_ostream_t St) unit :=
  match fs with
  | [] => mret tt
  | (n, p) :: fs =>
      _ ← pb_encode_tag (kind_wire_type (kind_of p)) n;
      _ ← encode_payload p;
      encode_fields fs
  end.

(** Decoders that know which kind of payload comes next. *)
Definition decode_payload (k : payload_kind) : prog (pb_istream_t St) payload :=
  match k with
  | AsVarint => v ← pb_decode_varint; mret (PVarint v)
  | AsSvarint => v ← pb_decode_svarint; mret (PSvarint v)
  | As64 => v ← pb_decode_fixed64; mret (P64 v)
  | AsString => n ← pb_decode_varint32; l ← pb_read false n; mret (PString l)
  | As32 => v ← pb_decode_fixed32; mret (P32 v)
  end.

Fixpoint decode_fields (ks : list payload_kind) : prog (pb_istream_t St) (list (Z * Z * payload)) :=
  match ks with
  | [] => mret []
  | k :: ks =>
      t ← pb_decode_tag;
      match t with
      | TagEof => fail
      | Tag n w => p ← decode_payload k; fs ← decode_fields ks; mret ((n, w, p) :: fs)
      end
  end.

(** A decoder that knows none of the fields: it reads tags and skips payloads up
    to the end of the stream, and counts. *)
Fixpoint skip_fields (fuel : nat) : prog (pb_istream_t St) nat :=
  match fuel with
  | O => nofuel
  | S fuel =>
      t ← pb_decode_tag;
      match t with
      | TagEof => mret O
      | Tag _ w => _ ← pb_skip_field w; n ← skip_fields fuel; mret (S n)
      end
  end.

Lemma encode_payload_emits p : payload_ok p -> Emits (encode_payload p) (payload_wire p).
Proof.
  destruct p; simpl; intros Hp.
  - by apply pb_encode_varint_emits.
  - by apply pb_encode_svarint_emits.
  - apply pb_encode_fixed64_emits.
  - apply pb_encode_string_emits; lia.
  - apply pb_encode_fixed32_emits.
Qed.

Lemma encode_fields_emits fs :
  Forall field_ok fs -> Emits (encode_fields fs) (fields_wire fs).
Proof.
  induction 1 as [| [n p] fs [Hn Hp] Hfs IH]; [apply emits_ret |]. simpl in *.
  rewrite <- app_assoc. apply emits_bind; [apply pb_encode_tag_emits; lia |].
  apply emits_bind; [by apply encode_payload_emits | done].
Qed.

Lemma decode_payload_reads p :
  payload_ok p -> Reads (decode_payload (kind_of p)) (payload_wire p) p.
Proof.
  destruct p as [v | v | v | l | v]; simpl; intros Hp.
  - by apply reads_bind_ret, pb_decode_varint_varint.
  - by apply reads_bind_ret, pb_decode_svarint_reads.
  - pose proof (le_value_le_bytes 8 v) as E. rewrite Z.mod_small in E by done.
    rewrite <- E at 2. apply reads_bind_ret, pb_decode_fixed64_reads, length_le_bytes.
  - eapply reads_bind; [apply pb_decode_varint32_varint; lia |].
    apply reads_bind_ret, pb_read_reads.
  - pose proof (le_value_le_bytes 4 v) as E. rewrite Z.mod_small in E by done.
    rewrite <- E at 2. apply reads_bind_ret, pb_decode_fixed32_reads, length_le_bytes.
Qed.

Definition wire_fields (fs : list (Z * payload)) : list (Z * Z * payload) :=
  (fun f => (f.1, wire_type_z (kind_wire_type (kind_of f.2)), f.2)) <$> fs.

Lemma decode_fields_reads fs :
  Forall field_ok fs ->
  Reads (decode_fields (kind_of ∘ snd <$> fs)) (fields_wire fs) (wire_fields fs).
Proof.
  induction 1 as [| [n p] fs [Hn Hp] Hfs IH]; [apply reads_ret |]. cbn in *.
  rewrite <- app_assoc. eapply reads_bind; [by apply pb_decode_tag_reads |]. cbn beta iota.
  eapply reads_bind; [by apply decode_payload_reads |]. by apply reads_bind_ret.
Qed.

(** [pb_skip_field] steps over the payload and nothing else. *)
Lemma pb_skip_field_reads p :
  payload_ok p ->
  Reads (pb_skip_field (St:=St) (wire_type_z (kind_wire_type (kind_of p)))) (payload_wire p) tt.
Proof.
  destruct p as [v | v | v | l | v]; intros Hp; unfold pb_skip_field;
    cbn [kind_of kind_wire_type wire_type_z Z.eqb Pos.eqb payload_wire payload_ok] in *.
  - apply pb_skip_varint_reads, varint_spec, Hp.
  - apply pb_skip_varint_reads, varint_spec, zigzag_range, Hp.
  - apply (reads_bind_ret _ (fun _ => tt) _ (le_bytes 8 v)), pb_read_reads'.
    by rewrite length_le_bytes.
  - by apply pb_skip_string_reads.
  - apply (reads_bind_ret _ (fun _ => tt) _ (le_bytes 4 v)), pb_read_reads'.
    by rewrite length_le_bytes.
Qed.

Lemma pb_decode_tag_end mem e :
  exists e', pb_decode_tag (St:=St) (mk_istream (BufSrc mem) 0 e)
             = (Done TagEof, mk_istream (BufSrc mem) 0 e').
Proof. by eexists. Qed.

Lemma skip_fields_end fs rest fuel e :
  Forall field_ok fs -> (length fs < fuel)%nat ->
  Z.of_nat (length (fields_wire fs)) < 2 ^ 64 ->
  exists e',
    skip_fields fuel
      (mk_istream (BufSrc (fields_wire fs ++ rest)) (Z.of_nat (length (fields_wire fs))) e)
    = (Done (length fs), mk_istream (BufSrc rest) 0 e').
Proof.
  intros Hfs. revert fuel e.
  induction Hfs as [| [n p] fs [Hn Hp] Hfs IH]; intros [| fuel] e Hf Hl;
    try (simpl in Hf; lia).
  - simpl. by eexists.
  - cbn [skip_fields fields_wire flat_map fst snd] in *. fold (fields_wire fs) in *.
    rewrite !length_app in Hl. rewrite <- !app_assoc, !length_app.
    erewrite prog_bind_done by (apply pb_decode_tag_reads; [done | unfold tag_wire in *; lia]).
    cbn iota beta. fold (tag_wire n p).
    erewrite prog_bind_done by (apply pb_skip_field_reads; [done | lia]).
    destruct (IH fuel e) as [e' He]; [simpl in Hf; lia | lia |].
    exists e'. erewrite prog_bind_done; [done |].
    etransitivity; [| exact He]. do 2 f_equal. lia.
Qed.
End Messages.

(** ** Properties *)

Section Properties.
Context {St : Type} `{ReadCallback St} `{WriteCallback St}.

(** C12: a message written field by field (tag, then varint, zigzag varint, fixed
    32 or 64 bits, or length-delimited bytes) reads back as the same fields,
    and ends where it was written to: the encoder succeeds exactly when the
    buffer has room for the message, and then the decoder returns every field
    number, wire type and value and leaves what follows the message unread. *)
Theorem nanopb_fields_roundtrip (fs : list (Z * payload)) (bufsize : Z) (rest : list byte) :
  Forall field_ok fs -> 0 <= bufsize < 2 ^ 64 ->
  let w := fields_wire fs in let n := Z.of_nat (length w) in
  n < 2 ^ 64 ->
  (n <= bufsize ->
   encode_fields fs (pb_ostream_from_buffer (St:=St) bufsize)
   = (Done tt, mk_ostream (BufSink w (bufsize - n)) bufsize n None) /\
   decode_fields (kind_of ∘ snd <$> fs) (pb_istream_from_buffer (St:=St) (w ++ rest) n)
   = (Done (wire_fields fs), mk_istream (BufSrc rest) 0 None)) /\
  (bufsize < n -> (encode_fields fs (pb_ostream_from_buffer (St:=St) bufsize)).1 = Failed).
Proof.
  intros Hfs Hb w n Hn.
  destruct (encode_fields_emits fs Hfs (pb_ostream_from_buffer bufsize)) as [He1 He2];
    [unfold ostream_ok; simpl; lia | done | done |]. fold w in He1, He2.
  unfold fits in He1, He2; simpl in He1, He2. split.
  - intros Hle. rewrite He1 by lia. unfold o_append; simpl. split.
    + by rewrite wrap_small by lia.
    + pose proof (decode_fields_reads fs Hfs rest n None) as Hr. fold w in Hr.
      unfold pb_istream_from_buffer. rewrite Hr by lia. fold n. by rewrite Z.sub_diag.
  - intros Hlt. apply He2. fold n. lia.
Qed.

(** C17: unknown fields are skipped exactly.  Reading tags and skipping payloads by
    their wire type, as the decoder does with fields it does not know, steps
    over every field of a well-formed message and stops at its end. *)
Theorem nanopb_unknown_fields_skipped (fs : list (Z * payload)) (rest : list byte) fuel :
  Forall field_ok fs -> (length fs < fuel)%nat ->
  Z.of_nat (length (fields_wire fs)) < 2 ^ 64 ->
  exists e,
    skip_fields fuel (pb_istream_from_buffer (St:=St) (fields_wire fs ++ rest)
                        (Z.of_nat (length (fields_wire fs))))
    = (Done (length fs), mk_istream (BufSrc rest) 0 e).
Proof. intros. by apply skip_fields_end. Qed.

(** C21: a scalar struct member survives encoding and decoding.  For members of 1, 2,
    4 and 8 bytes, declared as int/enum, unsigned or zigzag-encoded, what
    [pb_dec_*] stores after reading what [pb_enc_*] wrote has exactly the bytes
    of the member that was encoded. *)
Theorem nanopb_scalar_roundtrip (k : scalar_kind) (field : pb_field_t) (src rest : list byte)
    (bufsize : Z) :
  f_data_size field ∈ [1; 2; 4; 8] -> Z.of_nat (length src) = f_data_size field ->
  10 <= bufsize < 2 ^ 64 ->
  exists w v s,
    enc_scalar k field src (pb_ostream_from_buffer (St:=St) bufsize) = (Done tt, s) /\
    o_sink s = BufSink w (bufsize - Z.of_nat (length w)) /\
    dec_scalar k field (pb_istream_from_buffer (St:=St) (w ++ rest) (Z.of_nat (length w)))
    = (Done v, mk_istream (BufSrc rest) 0 None) /\
    le_bytes (length src) v = src.
Proof.
  intros Hs Hl Hb. set (v := scalar_value k (f_data_size field) src).
  assert (length (scalar_wire k v) <= 10)%nat as Hw by (destruct k; apply varint_length).
  destruct (enc_scalar_emits (St:=St) k field src Hs Hl (pb_ostream_from_buffer bufsize)) as [He _];
    [unfold ostream_ok; simpl; lia | done | fold v; lia |].
  exists (scalar_wire k v), v. eexists. split_and!.
  - apply He. unfold fits; simpl. fold v. lia.
  - done.
  - unfold pb_istream_from_buffer. rewrite (dec_scalar_reads k field src Hs Hl) by (fold v; lia).
    fold v. by rewrite Z.sub_diag.
  - rewrite <- (le_bytes_le_value src) at 2. subst v. rewrite <- Hl.
    apply le_bytes_mod_ext. change 256 with (2 ^ 8). rewrite <- Z.pow_mul_r by lia.
    destruct k; simpl; try done; apply swrap_mod; lia.
Qed.
(** A sizing pass predicts the buffer it takes.  Run on [PB_OSTREAM_SIZING], which
    stores nothing, an encoder succeeds and counts [size] bytes; run on a buffer
    of exactly [size] bytes it succeeds and fills it, with those [size] bytes, and
    on any smaller buffer it fails without having left it. *)
Theorem nanopb_sizing_pass_exact (fs : list (Z * payload)) :
  Forall field_ok fs -> Z.of_nat (length (fields_wire fs)) < 2 ^ 64 ->
  exists size w s,
    encode_fields fs (PB_OSTREAM_SIZING (St:=St)) = (Done tt, mk_ostream NullSink 0 size None) /\
    encode_fields fs (pb_ostream_from_buffer (St:=St) size) = (Done tt, s) /\
    o_sink s = BufSink w 0 /\ Z.of_nat (length w) = size /\
    forall bufsize, 0 <= bufsize < size ->
      (encode_fields fs (pb_ostream_from_buffer (St:=St) bufsize)).1 = Failed.
Proof.
  intros Hfs Hn. pose proof (encode_fields_emits (St:=St) fs Hfs) as He.
  exists (Z.of_nat (length (fields_wire fs))), (fields_wire fs). eexists. split_and!.
  - destruct (He PB_OSTREAM_SIZING) as [H1 _]; [done.. |].
    rewrite H1 by done. unfold o_append; simpl. by rewrite wrap_small by lia.
  - apply He; [unfold ostream_ok; simpl; lia | done | done |].
    unfold fits; simpl. lia.
  - simpl. f_equal; lia.
  - done.
  - intros bufsize Hb. apply He; [unfold ostream_ok; simpl; lia | done | done |].
    unfold fits; simpl. lia.
Qed.

(** The last six bytes of a negative 32-bit value sign-extended to 64 bits. *)
Lemma varint_negative v :
  - 2 ^ 31 <= v < 0 ->
  exists b0 b1 b2 b3 b4 b5 b6 b7 b8 b9,
    varint (u64 v) = [b0; b1; b2; b3; b4; b5; b6; b7; b8; b9] /\
    128 <= b2z b0 /\ 128 <= b2z b1 /\ 128 <= b2z b2 /\ 128 <= b2z b3 /\ 248 <= b2z b4 /\
    b2z b5 = 255 /\ b2z b6 = 255 /\ b2z b7 = 255 /\ b2z b8 = 255 /\ b2z b9 = 1 /\
    u32 v = b2z b0 mod 128 + b2z b1 mod 128 * 2 ^ 7 + b2z b2 mod 128 * 2 ^ 14
            + b2z b3 mod 128 * 2 ^ 21 + (b2z b4 - 240) * 2 ^ 28.
Proof.
  intros Hv. assert (u64 v = 2 ^ 64 + v) as ->.
  { unfold wrap. symmetry. apply Z.mod_unique with (-1); lia. }
  assert (u32 v = 2 ^ 32 + v) as ->.
  { unfold wrap. symmetry. apply Z.mod_unique with (-1); lia. }
  unfold varint. cbn [varint_groups].
  repeat match goal with |- context [Z.ltb ?a 128] =>
    first [ rewrite (proj2 (Z.ltb_ge a 128)) by dlia | rewrite (proj2 (Z.ltb_lt a 128)) by dlia ] end.
  do 10 eexists. split; [done |]. rewrite !b2z_z2b. split_and!; dlia.
Qed.

(** A negative [int32] is ten bytes on the wire, and the 32-bit decoder (which
    reads enums, lengths and tags with the same code) takes it back: it checks
    that the bytes above bit 32 repeat the sign and returns the low 32 bits. *)
Theorem pb_decode_varint32_sign_extended (v : Z) (rest : list byte) (n : Z) :
  - 2 ^ 31 <= v < 0 -> 10 <= n < 2 ^ 64 ->
  exists w, length w = 10%nat /\
    pb_encode_varint (u64 v) (PB_OSTREAM_SIZING (St:=St))
    = (Done tt, mk_ostream NullSink 0 10 None) /\
    (exists room, (pb_encode_varint (u64 v) (pb_ostream_from_buffer (St:=St) 10)).2
                  = mk_ostream (BufSink w room) 10 10 None) /\
    pb_decode_varint32 (mk_istream (St:=St) (BufSrc (w ++ rest)) n None)
    = (Done (u32 v), mk_istream (BufSrc rest) (n - 10) None).
Proof.
  intros Hv Hn. exists (varint (u64 v)).
  assert (0 <= u64 v < 2 ^ 64) as Hu by by apply wrap_range.
  pose proof (pb_encode_varint_emits (St:=St) _ Hu) as He.
  destruct (varint_negative v Hv)
    as (b0 & b1 & b2 & b3 & b4 & b5 & b6 & b7 & b8 & b9 & Hw & H0' & H1 & H2 & H3 & H4 & H5 & H6
        & H7 & H8 & H9 & Hval).
  rewrite Hw in *. split_and!; [done | ..].
  - by destruct (He PB_OSTREAM_SIZING) as [-> _].
  - destruct (He (pb_ostream_from_buffer 10)) as [Hd _]; [unfold ostream_ok; simpl; lia | done.. |].
    rewrite Hd by (unfold fits; simpl; lia). by eexists.
  - assert (Reads (pb_decode_varint32 (St:=St)) [b0; b1; b2; b3; b4; b5; b6; b7; b8; b9] (u32 v)) as Hr.
    { apply pb_decode_varint32_of_eof. apply pb_decode_varint32_eof_more; [done | simpl; lia |].
      intros k Hk. cbn [length] in Hk. do 8 (destruct k as [| k]; [lia |]).
      apply (varint32_more _ 7); [done | lia | dlia |]. rewrite wrap_small by dlia.
      apply (varint32_more _ 14); [done | lia | dlia |]. rewrite wrap_small by dlia.
      apply (varint32_more _ 21); [done | lia | dlia |]. rewrite wrap_small by dlia.
      apply (varint32_more _ 28); [lia | lia | dlia |].
      match goal with |- Reads (varint32_loop _ _ (u32 ?x)) _ _ =>
        replace (u32 x) with (u32 v) end.
      2: { rewrite Hval. unfold wrap at 1. apply Z.mod_unique with 7; dlia. }
      assert (2 ^ 31 <= u32 v < 2 ^ 32) by (rewrite Hval; dlia).
      apply (varint32_sign _ 35); [lia | done | done |].
      apply (varint32_sign _ 42); [lia | done | done |].
      apply (varint32_sign _ 49); [lia | done | done |].
      apply (varint32_sign _ 56); [lia | done | done |].
      by apply varint32_sign_last. }
    rewrite Hr by (simpl; lia). done.
Qed.

(** A length-delimited field is isolated from its reader.  After
    [pb_make_string_substream], whatever sequence of decoding calls runs on the
    substream (successful or not, reading all of it, part of it or trying to read
    more), [pb_close_string_substream] leaves the parent stream just after the
    field: no reader of a field can desynchronise the message around it. *)
Theorem pb_string_substream_isolated (realloc_ok : Z -> bool) (cs : list decode_call)
    (l rest : list byte) (n : Z) :
  Z.of_nat (length l) < 2 ^ 32 ->
  Z.of_nat (length (varint (Z.of_nat (length l)) ++ l)) <= n < 2 ^ 64 ->
  exists sub parent e,
    pb_make_string_substream
      (mk_istream (St:=St) (BufSrc (varint (Z.of_nat (length l)) ++ l ++ rest)) n None)
    = (Done sub, parent) /\
    bytes_left sub = Z.of_nat (length l) /\ i_src sub = BufSrc (l ++ rest) /\
    pb_close_string_substream (run_calls realloc_ok cs sub).2 parent
    = (Done tt, mk_istream (BufSrc rest)
                  (n - Z.of_nat (length (varint (Z.of_nat (length l)) ++ l))) e).
Proof.
  intros Hl Hn. rewrite length_app, Nat2Z.inj_add in *.
  set (len := Z.of_nat (length l)) in *. set (k := Z.of_nat (length (varint len))) in *.
  set (sub := mk_istream (St:=St) (BufSrc (l ++ rest)) len None).
  set (parent := mk_istream (St:=St) (BufSrc (l ++ rest)) (n - k - len) None).
  assert (advanced_from sub sub) as Hsub.
  { apply (advanced_from_refl sub (l ++ rest)); [| done].
    unfold istream_ok; simpl. rewrite length_app. lia. }
  destruct (run_calls_safe realloc_ok _ cs sub Hsub) as (_ & _ & mem & j & _ & Hmem & Hj & Hsrc & Hleft).
  destruct (run_calls realloc_ok cs sub) as [r [src m e]] eqn:Erun.
  simpl in Hmem, Hj, Hsrc, Hleft. injection Hmem as <-. subst src m.
  exists sub, parent, e. split_and!; [| done | done |].
  - unfold pb_make_string_substream.
    erewrite prog_bind_done by (apply pb_decode_varint32_varint; lia). fold k.
    erewrite prog_bind_done by done. cbn [bytes_left]. rewrite (proj2 (Z.ltb_ge _ _)) by lia.
    erewrite prog_bind_done by done. unfold set_bytes_left; simpl.
    by rewrite wrap_small by lia.
  - rewrite Erun. unfold pb_close_string_substream. cbn [snd bytes_left].
    assert (drop (Z.to_nat j) (l ++ rest) = drop (Z.to_nat j) l ++ rest) as ->
      by (apply drop_app_le; lia).
    assert (Z.of_nat (length (drop (Z.to_nat j) l)) = len - j) as Hd by (rewrite length_drop; lia).
    destruct (Z.eqb_spec (len - j) 0) as [E |]; cbn [negb].
    + destruct (drop _ l); [| simpl in Hd; lia]. simpl. do 2 f_equal. lia.
    + rewrite (pb_read_reads' true (len - j) (drop (Z.to_nat j) l)) by lia.
      cbn [i_src i_errmsg bytes_left]. do 2 f_equal. simpl. lia.
Qed.
End Properties.

(** ** Concrete runs *)


Definition sample_fields : list (Z * payload) :=
  [(1, PVarint 150); (2, PString [x68; x69]); (3, PSvarint (-2)); (16, P32 77); (5, P64 (2 ^ 40))].

Lemma sample_fields_ok : Forall field_ok sample_fields.
Proof. repeat constructor; cbn; lia. Qed.

Lemma nanopb_fields_roundtrip_witness :
  decode_fields (kind_of ∘ snd <$> sample_fields)
    (pb_istream_from_buffer (St:=unit) (fields_wire sample_fields ++ [x00])
       (Z.of_nat (length (fields_wire sample_fields))))
  = (Done (wire_fields sample_fields), mk_istream (BufSrc [x00]) 0 None).
Proof.
  refine (proj2 (proj1 (nanopb_fields_roundtrip (St:=unit) sample_fields 100 [x00]
                          sample_fields_ok _ _) _)); by vm_compute.
Defined.

Lemma nanopb_unknown_fields_skipped_witness :
  exists e,
    skip_fields 6 (pb_istream_from_buffer (St:=unit) (fields_wire sample_fields ++ [x00])
                     (Z.of_nat (length (fields_wire sample_fields))))
    = (Done 5%nat, mk_istream (BufSrc [x00]) 0 e).
Proof.
  refine (nanopb_unknown_fields_skipped (St:=unit) sample_fields [x00] 6 sample_fields_ok _ _);
    [simpl; lia | by vm_compute].
Defined.

(** An [int32_t] member. *)
Definition sample_field : pb_field_t := mk_field 3 PB_LTYPE_VARINT 0 0 4 0 PtrNull.

Lemma nanopb_scalar_roundtrip_witness :
  exists w v s,
    enc_scalar KSvarint sample_field [xfe; xff; xff; xff] (pb_ostream_from_buffer (St:=unit) 64)
    = (Done tt, s) /\
    o_sink s = BufSink w (64 - Z.of_nat (length w)) /\
    dec_scalar KSvarint sample_field
      (pb_istream_from_buffer (St:=unit) (w ++ []) (Z.of_nat (length w)))
    = (Done v, mk_istream (BufSrc []) 0 None) /\
    le_bytes 4 v = [xfe; xff; xff; xff].
Proof.
  apply (nanopb_scalar_roundtrip (St:=unit) KSvarint sample_field [xfe; xff; xff; xff] [] 64);
    [by do 2 right; left | done | done].
Defined.

Lemma nanopb_sizing_pass_exact_witness :
  exists size w s,
    encode_fields sample_fields (PB_OSTREAM_SIZING (St:=unit))
    = (Done tt, mk_ostream NullSink 0 size None) /\
    encode_fields sample_fields (pb_ostream_from_buffer (St:=unit) size) = (Done tt, s) /\
    o_sink s = BufSink w 0 /\ Z.of_nat (length w) = size /\
    forall bufsize, 0 <= bufsize < size ->
      (encode_fields sample_fields (pb_ostream_from_buffer (St:=unit) bufsize)).1 = Failed.
Proof.
  refine (nanopb_sizing_pass_exact (St:=unit) sample_fields sample_fields_ok _). by vm_compute.
Defined.

Lemma pb_decode_varint32_sign_extended_witness :
  exists w, length w = 10%nat /\
    pb_encode_varint (u64 (-5)) (PB_OSTREAM_SIZING (St:=unit))
    = (Done tt, mk_ostream NullSink 0 10 None) /\
    (exists room, (pb_encode_varint (u64 (-5)) (pb_ostream_from_buffer (St:=unit) 10)).2
                  = mk_ostream (BufSink w room) 10 10 None) /\
    pb_decode_varint32 (mk_istream (St:=unit) (BufSrc (w ++ [x00])) 11 None)
    = (Done (u32 (-5)), mk_istream (BufSrc [x00]) 1 None).
Proof. apply (pb_decode_varint32_sign_extended (St:=unit) (-5) [x00] 11); lia. Defined.

Lemma pb_string_substream_isolated_witness :
  exists sub parent e,
    pb_make_string_substream (mk_istream (St:=unit) (BufSrc ([x03] ++ [x08; x96; x01] ++ [x0a])) 5 None)
    = (Done sub, parent) /\
    bytes_left sub = 3 /\ i_src sub = BufSrc ([x08; x96; x01] ++ [x0a]) /\
    pb_close_string_substream (run_calls (fun _ => true) [CallTag; CallFixed64] sub).2 parent
    = (Done tt, mk_istream (BufSrc [x0a]) 1 e).
Proof.
  refine (pb_string_substream_isolated (St:=unit) (fun _ => true) [CallTag; CallFixed64]
            [x08; x96; x01] [x0a] 5 _ _); by vm_compute.
Defined.

(** *** Inputs on which the 32-bit decoder accepts an overflow

    [bitpos == 35 && (byte & 0x70) != 0] only looks at the last byte of the
    varint.  When the fifth byte has its high bit set, its bits 4 to 6 (bits 32
    to 34 of the value) are shifted out of the 32-bit accumulator and never
    looked at. *)

Definition overlong (k : Z) : list byte := [x80; x80; x80; x80; z2b (128 + 16 * k); x00].

(** Bits 32 to 34 of a varint are dropped when the fifth byte is not the last one:
    for each value of these bits the 32-bit decoder reads 0 where the 64-bit decoder
    reads the value, and does not report an overflow. *)
Theorem varint32_overflow_accepted :
  Forall (fun k =>
    pb_decode_varint32 (pb_istream_from_buffer (St:=unit) (overlong k) 6)
    = (Done 0, mk_istream (BufSrc []) 0 None) /\
    pb_decode_varint (pb_istream_from_buffer (St:=unit) (overlong k) 6)
    = (Done (k * 2 ^ 32), mk_istream (BufSrc []) 0 None)) (seqZ 1 7).
Proof. cbn [seqZ seq fmap list_fmap Z.to_nat Pos.to_nat]. repeat constructor. Qed.

(** The position [bitpos] is a [uint_fast8_t]: it counts 7 bits for each byte, also
    for the bytes above bit 32, and comes round to 3 after 37 bytes.  A later byte is
    then added to the low bits of a result that was complete: whatever the low bits of
    the 38th byte, they are read as bits 3 to 9 of the value. *)
Theorem varint32_bitpos_wraps :
  Forall (fun v =>
    pb_decode_varint32 (pb_istream_from_buffer (St:=unit) (repeat x80 37 ++ [z2b v]) 38)
    = (Done (v * 2 ^ 3), mk_istream (BufSrc []) 0 None)) (seqZ 0 128).
Proof.
  cbn [seqZ seq fmap list_fmap Z.to_nat Pos.to_nat Pos.iter_op Nat.add].
  repeat (apply Forall_cons; split; [by vm_compute |]). by apply Forall_nil.
Qed.
