(* ===== verification/PbMem.v ===== *)
(** * The memory of C structs

    nanopb reads and writes message structs through a pointer and the offsets of a
    field descriptor.  The memory is a map from addresses to bytes; a load or a store
    outside it is an error of the program.  A pointer is 8 bytes, a [pb_size_t] 4 and a
    [bool] 1, stored least significant byte first, as on the targets of the app. *)

From stdpp Require Import gmap.
From S2P Require Import Prelude PbStream PbWire.

Definition memory := gmap Z byte.

Fixpoint load (m : memory) (a : Z) (n : nat) : option (list byte) :=
  match n with
  | O => Some []
  | S n => b ← m !! a; l ← load m (a + 1) n; Some (b :: l)
  end.

Fixpoint put (m : memory) (a : Z) (l : list byte) : memory :=
  match l with
  | [] => m
  | b :: l => <[a := b]> (put m (a + 1) l)
  end.

Definition store (m : memory) (a : Z) (l : list byte) : option memory :=
  _ ← load m a (length l); Some (put m a l).

Fixpoint forget (m : memory) (a : Z) (n : nat) : memory :=
  match n with
  | O => m
  | S n => delete a (forget m (a + 1) n)
  end.

(** The bytes that are there from [a] on: what a pointer of unknown extent points to. *)
Fixpoint run_from (fuel : nat) (m : memory) (a : Z) : list byte :=
  match fuel, m !! a with
  | S fuel, Some b => b :: run_from fuel m (a + 1)
  | _, _ => []
  end.

Definition mem_from (m : memory) (a : Z) : list byte := run_from (size m) m a.

(** ** Sizes of C types *)

Definition sizeof_ptr : nat := 8.
Definition sizeof_size : nat := 4.
Definition sizeof_bool : nat := 1.

Definition ptr_bytes (p : Z) : list byte := le_bytes sizeof_ptr p.
Definition size_bytes (n : Z) : list byte := le_bytes sizeof_size n.
Definition bool_bytes (b : bool) : list byte := [if b then x01 else x00].

(** ** The allocator

    [realloc] is outside the sources.  [new_block m h n] is the address of a block of [n]
    bytes when the rest of the memory is [m] and the blocks in use are [h], if there is
    one, and [fresh_byte] what a byte of a new block holds.  A block lies where nothing
    else does. *)

(** The allocated blocks, by address, with their size. *)
Definition blocks := gmap Z Z.

Class Allocator := {
  new_block : memory -> blocks -> Z -> option Z;
  fresh_byte : memory -> Z -> byte;
  new_block_spec m h n a : new_block m h n = Some a ->
    0 < a /\ a + n <= 2 ^ 64 /\ h !! a = None /\
    forall i, a <= i < a + n -> m !! i = None;
}.

Definition fresh_bytes `{Allocator} (m : memory) (a : Z) (n : nat) : list byte :=
  fresh_byte m <$> seqZ a (Z.of_nat n).

(** [realloc(ptr, n)]: [None] is an error of the program (a pointer that is not a block);
    otherwise the pointer returned, and what the memory and the blocks are then.  A block
    keeps its first bytes, and may stay where it is. *)
Definition realloc `{Allocator} (m : memory) (h : blocks) (ptr n : Z)
    : option (Z * memory * blocks) :=
  '(old, m1, h1) ← (if ptr =? 0 then Some ([], m, h) else
     sz ← h !! ptr;
     old ← load m ptr (Z.to_nat sz);
     Some (old, forget m ptr (Z.to_nat sz), delete ptr h));
  match new_block m1 h1 n with
  | None => Some (0, m, h)
  | Some a =>
      let kept := take (Z.to_nat n) old in
      let l := kept ++ drop (length kept) (fresh_bytes m1 a (Z.to_nat n)) in
      Some (a, put m1 a l, <[a := n]> h1)
  end.

(** [free(ptr)]. *)
Definition free (m : memory) (h : blocks) (ptr : Z) : option (memory * blocks) :=
  if ptr =? 0 then Some (m, h) else
  sz ← h !! ptr;
  _ ← load m ptr (Z.to_nat sz);
  Some (forget m ptr (Z.to_nat sz), delete ptr h).
