(* ===== verification/PbIter.v ===== *)
(** * Field descriptors and the field iterator

    [pb_common.c]: the iterator walks the field descriptors of a message and the struct
    they describe in step, as each descriptor gives its field's place relative to the
    field before it.  A descriptor array is the list of its entries before
    [PB_LAST_FIELD]. *)

From S2P Require Import Prelude PbStream PbWire PbMem.

Definition PB_HTYPE_REQUIRED : Z := 0.
Definition PB_HTYPE_OPTIONAL : Z := 16.
Definition PB_HTYPE_REPEATED : Z := 32.
Definition PB_HTYPE_ONEOF : Z := 48.

Definition PB_ATYPE_STATIC : Z := 0.
Definition PB_ATYPE_CALLBACK : Z := 64.

Definition PB_LTYPE_LAST_PACKABLE : Z := 5.

Definition PB_LAST_FIELD : pb_field_t := mk_field 0 0 0 0 0 0 PtrNull.

(** [fields[n]]. *)
Definition field_at (fields : list pb_field_t) (n : nat) : pb_field_t :=
  default PB_LAST_FIELD (fields !! n).

(** [pSize]: an address, or the local variable [fixed_count_size] of
    [pb_decode_noinit]. *)
Inductive size_ptr : Type :=
  | SizeAt (a : Z)
  | FixedCount.

#[export] Instance size_ptr_eq_dec : EqDecision size_ptr.
Proof. solve_decision. Defined.

Record pb_field_iter_t := mk_iter {
  start : list pb_field_t;
  pos : nat;
  required_field_index : Z;
  dest_struct : Z;
  pData : Z;
  pSize : size_ptr;
}.

(** [*iter->pos]. *)
Definition cur (iter : pb_field_iter_t) : pb_field_t := field_at (start iter) (pos iter).

Definition set_pData (p : Z) (iter : pb_field_iter_t) : pb_field_iter_t :=
  mk_iter (start iter) (pos iter) (required_field_index iter) (dest_struct iter) p (pSize iter).
Definition set_pSize (p : size_ptr) (iter : pb_field_iter_t) : pb_field_iter_t :=
  mk_iter (start iter) (pos iter) (required_field_index iter) (dest_struct iter) (pData iter) p.

Definition pb_field_iter_begin (fields : list pb_field_t) (dest : Z)
    : bool * pb_field_iter_t :=
  let f := field_at fields 0 in
  let pData := if dest =? 0 then 0 else dest + f_data_offset f in
  let pSize := if dest =? 0 then 0 else pData + f_size_offset f in
  (negb (f_tag f =? 0), mk_iter fields 0 0 dest pData (SizeAt pSize)).

(** How far the next field's offset is counted from, past the start of this one. *)
Definition prev_size (prev_field : pb_field_t) : Z :=
  if (PB_ATYPE (f_type prev_field) =? PB_ATYPE_STATIC)
     && (PB_HTYPE (f_type prev_field) =? PB_HTYPE_REPEATED)
  then f_data_size prev_field * f_array_size prev_field
  else if PB_ATYPE (f_type prev_field) =? PB_ATYPE_POINTER then Z.of_nat sizeof_ptr
  else f_data_size prev_field.

Definition pb_field_iter_next (iter : pb_field_iter_t) : bool * pb_field_iter_t :=
  let prev_field := cur iter in
  if f_tag prev_field =? 0 then (false, iter) else
  let f := field_at (start iter) (S (pos iter)) in
  if f_tag f =? 0
  then (false, (pb_field_iter_begin (start iter) (dest_struct iter)).2)
  else if (PB_HTYPE (f_type prev_field) =? PB_HTYPE_ONEOF)
          && (PB_HTYPE (f_type f) =? PB_HTYPE_ONEOF)
          && (f_data_offset f =? PB_SIZE_MAX)
  then (true, mk_iter (start iter) (S (pos iter)) (required_field_index iter)
                (dest_struct iter) (pData iter) (pSize iter))
  else
    let req := if PB_HTYPE (f_type prev_field) =? PB_HTYPE_REQUIRED
               then u32 (required_field_index iter + 1) else required_field_index iter in
    let p := pData iter + prev_size prev_field + f_data_offset f in
    (true, mk_iter (start iter) (S (pos iter)) req (dest_struct iter) p
             (SizeAt (p + f_size_offset f))).

(** The loops of [pb_field_iter_find] and [find_extension_field]: on to a field that
    passes the test, or back to where the loop started ([first]); [None]: out of fuel. *)
Fixpoint seek_field (test : pb_field_t -> bool) (fuel first : nat) (iter : pb_field_iter_t)
    : option (bool * pb_field_iter_t) :=
  match fuel with
  | O => None
  | S fuel =>
      if test (cur iter) then Some (true, iter)
      else
        let iter := (pb_field_iter_next iter).2 in
        if bool_decide (pos iter = first) then Some (false, iter)
        else seek_field test fuel first iter
  end.

Definition has_tag (tag : Z) (f : pb_field_t) : bool :=
  (f_tag f =? tag) && negb (PB_LTYPE (f_type f) =? PB_LTYPE_EXTENSION).

Definition is_extension (f : pb_field_t) : bool := PB_LTYPE (f_type f) =? PB_LTYPE_EXTENSION.

Definition pb_field_iter_find (iter : pb_field_iter_t) (tag : Z)
    : option (bool * pb_field_iter_t) :=
  seek_field (has_tag tag) (S (length (start iter))) (pos iter) iter.

(** Of [pb_decode.c]. *)
Definition find_extension_field (iter : pb_field_iter_t) : option (bool * pb_field_iter_t) :=
  seek_field is_extension (S (length (start iter))) (pos iter) iter.

(** [do { f(&iter) } while (pb_field_iter_next(&iter))]. *)
Fixpoint each_field {W A} (fuel : nat) (f : pb_field_iter_t -> prog W A)
    (iter : pb_field_iter_t) : prog W unit :=
  match fuel with
  | O => nofuel
  | S fuel =>
      _ ← f iter;
      let '(more, iter) := pb_field_iter_next iter in
      if more : bool then each_field fuel f iter else mret tt
  end.

(** The same over a message, which is left alone when it has no fields. *)
Definition each_field_of {W A} (fields : list pb_field_t) (dest : Z)
    (f : pb_field_iter_t -> prog W A) : prog W unit :=
  let '(some, iter) := pb_field_iter_begin fields dest in
  if some : bool then each_field (S (length fields)) f iter else mret tt.

(** ** Extensions *)

(** [pb_extension_type_t]: the two functions ([0] is [NULL]), and the descriptors that
    [arg] points to.  These objects are constants of the program. *)
Record pb_extension_type_t := mk_extension_type {
  et_decode : Z;
  et_encode : Z;
  et_arg : list pb_field_t;
}.

(** The members of a [pb_extension_t] in memory. *)
Definition ext_type_at (ext : Z) : Z := ext.
Definition ext_dest_at (ext : Z) : Z := ext + 8.
Definition ext_next_at (ext : Z) : Z := ext + 16.
Definition ext_found_at (ext : Z) : Z := ext + 24.

(** The members of a [pb_callback_t]. *)
Definition callback_func_at (p : Z) : Z := p.
Definition callback_arg_at (p : Z) : Z := p + 8.
