(* ===== verification/PbEncode.v ===== *)
(** * Encoding of messages

    [pb_encode] and what it is made of ([pb_encode.c]): the walk over a struct in memory
    by its field descriptors.  The struct is only read, so the memory is a parameter of
    the functions; their state is the output stream.  Submessages are encoded by
    recursion, with fuel for the depth of nesting. *)

From S2P Require Import Prelude PbStream PbWire PbMem PbIter.

Section Encode.
Context {St : Type} `{WriteCallback St}.

(** The memory, the descriptors of the submessages, the extension types, and the
    functions of the user: a field callback gets the field and the address of its
    argument, an extension callback the address of the extension. *)
Variable mem : memory.
Variable descs : nat -> list pb_field_t.
Variable ext_types : Z -> option pb_extension_type_t.
Variable user_encode : Z -> pb_field_t -> Z -> prog (pb_ostream_t St) unit.
Variable user_ext_encode : Z -> Z -> prog (pb_ostream_t St) unit.

Abbreviation M := (prog (pb_ostream_t St)).

(** Reads of the memory. *)
Definition get_bytes (a : Z) (n : nat) : M (list byte) :=
  match load mem a n with Some l => mret l | None => stuck end.

Definition get_ptr (a : Z) : M Z := l ← get_bytes a sizeof_ptr; mret (le_value l).
Definition get_size (a : Z) : M Z := l ← get_bytes a sizeof_size; mret (le_value l).

(** All [sizeof(bool)] bytes are looked at. *)
Definition safe_read_bool (p : Z) : M bool :=
  l ← get_bytes p sizeof_bool; mret (existsb (fun b => negb (b2z b =? 0)) l).

(** Runs on a stream of its own that only counts; a failure leaves the caller's stream. *)
Definition sized (m : M unit) : M Z := fun s =>
  match m PB_OSTREAM_SIZING with
  | (Done _, sizestream) => (Done (bytes_written sizestream), s)
  | (Failed, _) => (Failed, s)
  | (Stuck, _) => (Stuck, s)
  | (NoFuel, _) => (NoFuel, s)
  end.

(** [for (i = 0; i < count; i++)] with [p] moving on by [data_size]. *)
Fixpoint for_items (count : nat) (p data_size : Z) (f : Z -> M unit) : M unit :=
  match count with
  | O => mret tt
  | S count => _ ← f p; for_items count (p + data_size) data_size f
  end.

Definition encode_array (field : pb_field_t) (pData count : Z) (func : Z -> M unit) : M unit :=
  if count =? 0 then mret tt else
  if negb (PB_ATYPE (f_type field) =? PB_ATYPE_POINTER) && (f_array_size field <? count)
  then PB_RETURN_OERROR "array max size exceeded" else
  if PB_LTYPE (f_type field) <=? PB_LTYPE_LAST_PACKABLE then
    _ ← pb_encode_tag PB_WT_STRING (f_tag field);
    size ← (if PB_LTYPE (f_type field) =? PB_LTYPE_FIXED32 then mret (4 * count)
            else if PB_LTYPE (f_type field) =? PB_LTYPE_FIXED64 then mret (8 * count)
            else sized (for_items (Z.to_nat count) pData (f_data_size field) func));
    _ ← pb_encode_varint size;
    stream ← getS;
    if is_null_sink stream then pb_write [] size
    else for_items (Z.to_nat count) pData (f_data_size field) func
  else
    for_items (Z.to_nat count) pData (f_data_size field) (fun p =>
      _ ← pb_encode_tag_for_field field;
      if (PB_ATYPE (f_type field) =? PB_ATYPE_POINTER)
         && ((PB_LTYPE (f_type field) =? PB_LTYPE_STRING)
             || (PB_LTYPE (f_type field) =? PB_LTYPE_BYTES))
      then p' ← get_ptr p; func p'
      else func p).

(** [while pb_field_iter_next] of [pb_check_proto3_default_value], over the fields of a
    submessage, with its early return. *)
Fixpoint all_fields (fuel : nat) (f : pb_field_iter_t -> M bool) (iter : pb_field_iter_t)
    : M bool :=
  match fuel with
  | O => nofuel
  | S fuel =>
      b ← f iter;
      if negb b then mret false else
      let '(more, iter) := pb_field_iter_next iter in
      if more : bool then all_fields fuel f iter else mret true
  end.

(** The byte-per-byte comparison with zero, up to the first byte that differs. *)
Fixpoint zero_bytes (n : nat) (p : Z) : M bool :=
  match n with
  | O => mret true
  | S n =>
      l ← get_bytes p 1;
      if forallb (fun b => b2z b =? 0) l then zero_bytes n (p + 1) else mret false
  end.

(** The singular fields of proto3; [self] is the function on the fields of a submessage. *)
Definition singular_default (self : pb_field_t -> Z -> M bool) (field : pb_field_t) (data : Z)
    : M bool :=
  let type := f_type field in
  let catch_all := zero_bytes (Z.to_nat (f_data_size field)) data in
  if PB_ATYPE type =? PB_ATYPE_STATIC then
    if PB_LTYPE type =? PB_LTYPE_BYTES then n ← get_size data; mret (n =? 0)
    else if PB_LTYPE type =? PB_LTYPE_STRING then zero_bytes 1 data
    else if PB_LTYPE type =? PB_LTYPE_FIXED_LENGTH_BYTES then mret (f_data_size field =? 0)
    else if PB_LTYPE type =? PB_LTYPE_SUBMESSAGE then
      match f_ptr field with
      | PtrFields id =>
          let '(some, iter) := pb_field_iter_begin (descs id) data in
          if some : bool
          then all_fields (S (length (descs id))) (fun iter => self (cur iter) (pData iter)) iter
          else mret true
      | _ => stuck
      end
    else catch_all
  else if (PB_ATYPE type =? PB_ATYPE_POINTER) && (PB_LTYPE_LAST_PACKABLE <? PB_LTYPE type)
  then p ← get_ptr data; mret (p =? 0)
  else catch_all.

(** [fuel]: the depth of nesting of static submessages. *)
Fixpoint pb_check_proto3_default_value (fuel : nat) (field : pb_field_t) (data : Z) : M bool :=
  match fuel with
  | O => nofuel
  | S fuel =>
      let type := f_type field in
      let size_at := data + f_size_offset field in
      let rest := singular_default (pb_check_proto3_default_value fuel) field data in
      if PB_HTYPE type =? PB_HTYPE_REQUIRED then mret false
      else if PB_HTYPE type =? PB_HTYPE_REPEATED then
        if negb (f_size_offset field =? 0) then n ← get_size size_at; mret (n =? 0)
        else if PB_ATYPE type =? PB_ATYPE_STATIC then mret false
        else rest
      else if PB_HTYPE type =? PB_HTYPE_ONEOF then n ← get_size size_at; mret (n =? 0)
      else if (PB_HTYPE type =? PB_HTYPE_OPTIONAL) && negb (f_size_offset field =? 0)
      then b ← safe_read_bool size_at; mret (negb b)
      else rest
  end.

(** What [pSize] points to: a member of the struct or the local [implicit_has]. *)
Inductive has_ptr : Type :=
  | HasAt (a : Z)
  | ImplicitHas (b : bool).

Section Messages.
(** [pb_encode] on the messages below. *)
Variable self : list pb_field_t -> Z -> M unit.
(** Fuel for the check of default values and for lists of extensions. *)
Variable fuel : nat.

Definition pb_encode_submessage (fields : list pb_field_t) (src_struct : Z) : M unit :=
  size ← (fun s =>
    match self fields src_struct PB_OSTREAM_SIZING with
    | (Done _, substream) => (Done (bytes_written substream), s)
    | (Failed, substream) =>
        (Failed, mk_ostream (o_sink s) (max_size s) (bytes_written s) (o_errmsg substream))
    | (Stuck, _) => (Stuck, s)
    | (NoFuel, _) => (NoFuel, s)
    end);
  _ ← pb_encode_varint size;
  stream ← getS;
  if is_null_sink stream then pb_write [] size else
  if max_size stream <? u64 (bytes_written stream + size)
  then PB_RETURN_OERROR "stream full" else
  let '(status, substream) :=
    self fields src_struct (mk_ostream (o_sink stream) size 0 None) in
  match status with
  | Stuck => stuck
  | NoFuel => nofuel
  | _ =>
      _ ← modifyS (fun s => mk_ostream (o_sink substream) (max_size s)
                              (u64 (bytes_written s + bytes_written substream))
                              (o_errmsg substream));
      if negb (bytes_written substream =? size)
      then PB_RETURN_OERROR "submsg size changed"
      else match status with Done _ => mret tt | _ => fail end
  end.

Definition pb_enc_submessage (field : pb_field_t) (src : Z) : M unit :=
  match f_ptr field with
  | PtrNull => PB_RETURN_OERROR "invalid field descriptor"
  | PtrFields id => pb_encode_submessage (descs id) src
  | PtrDefault _ => stuck
  end.

(** [src] as the field encoders of [PbWire] take it. *)
Definition string_src (src : Z) : option (list byte) :=
  if src =? 0 then None else Some (mem_from mem src).

Definition bytes_src (src : Z) : M (option (Z * list byte)) :=
  if src =? 0 then mret None else
  n ← get_size src; mret (Some (n, mem_from mem (src + bytes_offset))).

(** [PB_ENCODERS[PB_LTYPE(field->type)]], called; the table has 11 entries, and entry 9
    is [NULL]. *)
Definition PB_ENCODERS (field : pb_field_t) (src : Z) : M unit :=
  let ltype := PB_LTYPE (f_type field) in
  if ltype =? PB_LTYPE_BOOL then b ← safe_read_bool src; pb_enc_bool b
  else if ltype =? PB_LTYPE_VARINT then pb_enc_varint field (mem_from mem src)
  else if ltype =? PB_LTYPE_UVARINT then pb_enc_uvarint field (mem_from mem src)
  else if ltype =? PB_LTYPE_SVARINT then pb_enc_svarint field (mem_from mem src)
  else if ltype =? PB_LTYPE_FIXED32 then pb_enc_fixed32 (mem_from mem src)
  else if ltype =? PB_LTYPE_FIXED64 then pb_enc_fixed64 (mem_from mem src)
  else if ltype =? PB_LTYPE_BYTES then b ← bytes_src src; pb_enc_bytes field b
  else if ltype =? PB_LTYPE_STRING then pb_enc_string field (string_src src)
  else if ltype =? PB_LTYPE_SUBMESSAGE then pb_enc_submessage field src
  else if ltype =? PB_LTYPE_FIXED_LENGTH_BYTES
  then pb_enc_fixed_length_bytes field (mem_from mem src)
  else stuck.

Definition encode_basic_field (field : pb_field_t) (data : Z) : M unit :=
  let type := f_type field in
  pSize ← (if negb (f_size_offset field =? 0) then mret (HasAt (data + f_size_offset field))
           else if PB_HTYPE type =? PB_HTYPE_OPTIONAL then
             d ← pb_check_proto3_default_value fuel field data; mret (ImplicitHas (negb d))
           else mret (ImplicitHas true));
  '(data, pSize) ←
    (if PB_ATYPE type =? PB_ATYPE_POINTER then
       p ← get_ptr data;
       mret (p, match pSize with
                | ImplicitHas _ => ImplicitHas (negb (p =? 0))
                | HasAt a => HasAt a
                end)
     else mret (data, pSize));
  let write := _ ← pb_encode_tag_for_field field; PB_ENCODERS field data in
  if PB_HTYPE type =? PB_HTYPE_REQUIRED then
    if data =? 0 then PB_RETURN_OERROR "missing required field" else write
  else if PB_HTYPE type =? PB_HTYPE_OPTIONAL then
    has ← match pSize with HasAt a => safe_read_bool a | ImplicitHas b => mret b end;
    if has : bool then write else mret tt
  else if PB_HTYPE type =? PB_HTYPE_REPEATED then
    count ← (if negb (f_size_offset field =? 0)
             then match pSize with HasAt a => get_size a | ImplicitHas _ => stuck end
             else mret (f_array_size field));
    encode_array field data count (PB_ENCODERS field)
  else if PB_HTYPE type =? PB_HTYPE_ONEOF then
    which ← match pSize with HasAt a => get_size a | ImplicitHas _ => stuck end;
    if which =? f_tag field then write else mret tt
  else PB_RETURN_OERROR "invalid field type".

Definition encode_callback_field (field : pb_field_t) (data : Z) : M unit :=
  func ← get_ptr (callback_func_at data);
  if func =? 0 then mret tt else
  ok ← try_ (user_encode func field (callback_arg_at data));
  match ok with Some _ => mret tt | None => PB_RETURN_OERROR "callback error" end.

Definition encode_field (field : pb_field_t) (data : Z) : M unit :=
  let atype := PB_ATYPE (f_type field) in
  if (atype =? PB_ATYPE_STATIC) || (atype =? PB_ATYPE_POINTER)
  then encode_basic_field field data
  else if atype =? PB_ATYPE_CALLBACK then encode_callback_field field data
  else PB_RETURN_OERROR "invalid field type".

Definition default_extension_encoder (type : pb_extension_type_t) (extension : Z) : M unit :=
  let field := field_at (et_arg type) 0 in
  if PB_ATYPE (f_type field) =? PB_ATYPE_POINTER
  then encode_field field (ext_dest_at extension)
  else dest ← get_ptr (ext_dest_at extension); encode_field field dest.

Fixpoint encode_extensions (n : nat) (extension : Z) : M unit :=
  if extension =? 0 then mret tt else
  match n with
  | O => nofuel
  | S n =>
      type ← get_ptr (ext_type_at extension);
      match ext_types type with
      | None => stuck
      | Some type =>
          _ ← (if negb (et_encode type =? 0) then user_ext_encode (et_encode type) extension
               else default_extension_encoder type extension);
          next ← get_ptr (ext_next_at extension);
          encode_extensions n next
      end
  end.

Definition encode_extension_field (data : Z) : M unit :=
  extension ← get_ptr data; encode_extensions fuel extension.

Definition encode_one (iter : pb_field_iter_t) : M unit :=
  if PB_LTYPE (f_type (cur iter)) =? PB_LTYPE_EXTENSION
  then encode_extension_field (pData iter)
  else encode_field (cur iter) (pData iter).
End Messages.

(** [fuel]: the depth of nesting of messages. *)
Fixpoint pb_encode (fuel : nat) (fields : list pb_field_t) (src_struct : Z) : M unit :=
  match fuel with
  | O => nofuel
  | S fuel' => each_field_of fields src_struct (encode_one (pb_encode fuel') fuel)
  end.

Definition pb_encode_delimited (fuel : nat) (fields : list pb_field_t) (src_struct : Z) : M unit :=
  pb_encode_submessage (pb_encode fuel) fields src_struct.

Definition pb_encode_nullterminated (fuel : nat) (fields : list pb_field_t) (src_struct : Z)
    : M unit :=
  _ ← pb_encode fuel fields src_struct; pb_write [x00] 1.

(** Returns [*size]; the state is not used. *)
Definition pb_get_encoded_size (fuel : nat) (fields : list pb_field_t) (src_struct : Z) : M Z :=
  sized (pb_encode fuel fields src_struct).
End Encode.
