(* ===== verification/PbDecode.v ===== *)
(** * Decoding of messages

    [pb_decode], [pb_release] and what they are made of ([pb_decode.c], built with
    [PB_ENABLE_MALLOC]): the walk over the fields of the input, the default values, the
    allocation of pointer fields and their release.  The state is the input stream, the
    memory with the structs, the blocks of the allocator, and the local variable
    [fixed_count_size] of the innermost [pb_decode_noinit].

    A custom input stream that fails is taken to leave the destination buffer alone. *)

From stdpp Require Import gmap.
From S2P Require Import Prelude PbStream PbWire PbMem PbIter.

Record dstate (St : Type) := mk_dstate {
  d_in : pb_istream_t St;
  d_mem : memory;
  d_blocks : blocks;
  d_fixed : N;
}.
Arguments mk_dstate {St} d_in d_mem d_blocks d_fixed.
Arguments d_in {St} d.
Arguments d_mem {St} d.
Arguments d_blocks {St} d.
Arguments d_fixed {St} d.

Section Decode.
Context {St : Type} `{ReadCallback St} `{Allocator}.

(** The descriptors of the submessages, the extension types, and the functions of the
    user: a field callback gets the field and the address of its argument, an extension
    callback the address of the extension, the tag and the wire type. *)
Variable descs : nat -> list pb_field_t.
Variable ext_types : Z -> option pb_extension_type_t.
Variable user_decode : Z -> pb_field_t -> Z -> prog (dstate St) unit.
Variable user_ext_decode : Z -> Z -> Z -> Z -> prog (dstate St) unit.

Abbreviation M := (prog (dstate St)).

Definition set_in (i : pb_istream_t St) (s : dstate St) : dstate St :=
  mk_dstate i (d_mem s) (d_blocks s) (d_fixed s).
Definition set_mem (m : memory) (s : dstate St) : dstate St :=
  mk_dstate (d_in s) m (d_blocks s) (d_fixed s).
Definition set_blocks (h : blocks) (s : dstate St) : dstate St :=
  mk_dstate (d_in s) (d_mem s) h (d_fixed s).
Definition set_fixed (n : N) (s : dstate St) : dstate St :=
  mk_dstate (d_in s) (d_mem s) (d_blocks s) n.

(** A function on the stream. *)
Definition lift {A} (m : prog (pb_istream_t St) A) : M A := fun s =>
  let '(r, i) := m (d_in s) in (r, set_in i s).

Definition DERROR {A} (msg : string) : M A := lift (PB_RETURN_ERROR msg).

(** [m] on another stream: what it returned, [None] if it failed, and that stream
    afterwards. *)
Definition on_substream {A} (sub : pb_istream_t St) (m : M A)
    : M (option A * pb_istream_t St) :=
  fun s =>
    let '(r, s') := m (set_in sub s) in
    let s'' := set_in (d_in s) s' in
    match r with
    | Done a => (Done (Some a, d_in s'), s'')
    | Failed => (Done (None, d_in s'), s'')
    | Stuck => (Stuck, s'')
    | NoFuel => (NoFuel, s'')
    end.

(** [if (!pb_close_string_substream(..)) return false; return status;] *)
Definition close_with (r : option unit * pb_istream_t St) : M unit :=
  _ ← lift (pb_close_string_substream r.2);
  match r.1 with Some _ => mret tt | None => fail end.

(** *** Loads and stores *)

Definition get_bytes (a : Z) (n : nat) : M (list byte) := fun s =>
  match load (d_mem s) a n with Some l => (Done l, s) | None => (Stuck, s) end.

Definition set_bytes (a : Z) (l : list byte) : M unit := fun s =>
  match store (d_mem s) a l with Some m => (Done tt, set_mem m s) | None => (Stuck, s) end.

Definition get_ptr (a : Z) : M Z := l ← get_bytes a sizeof_ptr; mret (le_value l).
Definition set_ptr (a p : Z) : M unit := set_bytes a (ptr_bytes p).

Definition memset_zero (a n : Z) : M unit := set_bytes a (repeat x00 (Z.to_nat n)).

(** [*(pb_size_t* )iter->pSize] and its assignment; [*(bool* )iter->pSize = b]. *)
Definition get_count (p : size_ptr) : M Z :=
  match p with
  | SizeAt a => l ← get_bytes a sizeof_size; mret (le_value l)
  | FixedCount => s ← getS; mret (Z.of_N (d_fixed s))
  end.

Definition set_count (p : size_ptr) (n : Z) : M unit :=
  match p with
  | SizeAt a => set_bytes a (size_bytes n)
  | FixedCount => modifyS (set_fixed (Z.to_N n))
  end.

Definition set_has (p : size_ptr) (b : bool) : M unit :=
  match p with SizeAt a => set_bytes a (bool_bytes b) | FixedCount => stuck end.

(** [iter->pSize == iter->pData]. *)
Definition size_is_data (iter : pb_field_iter_t) : bool :=
  match pSize iter with SizeAt a => a =? pData iter | FixedCount => false end.

(** *** The allocator *)

Definition do_realloc (ptr n : Z) : M Z := fun s =>
  match realloc (d_mem s) (d_blocks s) ptr n with
  | Some (p, m, h) => (Done p, set_blocks h (set_mem m s))
  | None => (Stuck, s)
  end.

Definition pb_free (ptr : Z) : M unit := fun s =>
  match free (d_mem s) (d_blocks s) ptr with
  | Some (m, h) => (Done tt, set_blocks h (set_mem m s))
  | None => (Stuck, s)
  end.

(** [allocate_field]: the size is checked as in [PbWire.allocate_field]; the pointer at
    [data] is reallocated. *)
Definition allocate_at (data data_size array_size : Z) : M unit :=
  ptr ← get_ptr data;
  if (data_size =? 0) || (array_size =? 0) then DERROR "invalid size" else
  let check_limit := 1 .<< 32 in
  if ((check_limit <=? data_size) || (check_limit <=? array_size))
     && (SIZE_MAX / array_size <? data_size)
  then DERROR "size too large" else
  ptr ← do_realloc ptr (u64 (array_size * data_size));
  if ptr =? 0 then DERROR "realloc failed" else set_ptr data ptr.

(** *** Extensions *)

Definition iter_from_extension (extension : Z) : M pb_field_iter_t :=
  type ← get_ptr (ext_type_at extension);
  match ext_types type with
  | None => stuck
  | Some type =>
      let fields := et_arg type in
      dest ← get_ptr (ext_dest_at extension);
      let iter := (pb_field_iter_begin fields dest).2 in
      let data := if PB_ATYPE (f_type (field_at fields 0)) =? PB_ATYPE_POINTER
                  then ext_dest_at extension else dest in
      mret (set_pSize (SizeAt (ext_found_at extension)) (set_pData data iter))
  end.

(** [while (ext != NULL) { f(ext); ext = ext->next; }] *)
Fixpoint each_extension (n : nat) (f : Z -> M unit) (ext : Z) : M unit :=
  if ext =? 0 then mret tt else
  match n with
  | O => nofuel
  | S n => _ ← f ext; next ← get_ptr (ext_next_at ext); each_extension n f next
  end.

(** ** Default values *)

Definition message_defaults (self : pb_field_iter_t -> M unit) (p : field_ptr) (dest : Z)
    : M unit :=
  match p with
  | PtrFields id => each_field_of (descs id) dest self
  | _ => stuck
  end.

(** [fuel]: the depth of nesting of static submessages and the length of the list of
    extensions. *)
Fixpoint pb_field_set_to_default (fuel : nat) (iter : pb_field_iter_t) : M unit :=
  match fuel with
  | O => nofuel
  | S fuel' =>
      let self := pb_field_set_to_default fuel' in
      let field := cur iter in
      let type := f_type field in
      if PB_LTYPE type =? PB_LTYPE_EXTENSION then
        ext ← get_ptr (pData iter);
        each_extension fuel' (fun ext =>
          _ ← set_bytes (ext_found_at ext) (bool_bytes false);
          ext_iter ← iter_from_extension ext;
          self ext_iter) ext
      else if PB_ATYPE type =? PB_ATYPE_STATIC then
        init_data ←
          (if (PB_HTYPE type =? PB_HTYPE_OPTIONAL) && negb (size_is_data iter)
           then _ ← set_has (pSize iter) false; mret true
           else if (PB_HTYPE type =? PB_HTYPE_REPEATED) || (PB_HTYPE type =? PB_HTYPE_ONEOF)
           then _ ← set_count (pSize iter) 0; mret false
           else mret true);
        if negb init_data then mret tt
        else if PB_LTYPE type =? PB_LTYPE_SUBMESSAGE
        then message_defaults self (f_ptr field) (pData iter)
        else
          match f_ptr field with
          | PtrNull => memset_zero (pData iter) (f_data_size field)
          | PtrDefault value =>
              if Nat.leb (Z.to_nat (f_data_size field)) (length value)
              then set_bytes (pData iter) (take (Z.to_nat (f_data_size field)) value)
              else stuck
          | PtrFields _ => stuck
          end
      else if PB_ATYPE type =? PB_ATYPE_POINTER then
        _ ← set_ptr (pData iter) 0;
        if (PB_HTYPE type =? PB_HTYPE_REPEATED) || (PB_HTYPE type =? PB_HTYPE_ONEOF)
        then set_count (pSize iter) 0 else mret tt
      else mret tt
  end.

Definition pb_message_set_to_defaults (fuel : nat) (fields : list pb_field_t) (dest : Z)
    : M unit :=
  each_field_of fields dest (pb_field_set_to_default fuel).

(** [pb_message_set_to_defaults((const pb_field_t* )ptr, dest)]. *)
Definition set_to_defaults_of (fuel : nat) (p : field_ptr) (dest : Z) : M unit :=
  message_defaults (pb_field_set_to_default fuel) p dest.

(** ** Release *)

(** [for (; count > 0; count--)] with [pItem] moving on by [size]. *)
Fixpoint for_each_item (count : nat) (item size : Z) (f : Z -> M unit) : M unit :=
  match count with
  | O => mret tt
  | S count => _ ← f item; for_each_item count (item + size) size f
  end.

(** What follows the check of the [which_] member in [pb_release_single_field]. *)
Definition release_contents (fuel : nat) (self : pb_field_iter_t -> M unit)
    (iter : pb_field_iter_t) : M unit :=
  let field := cur iter in
  let type := f_type field in
  let pointer := PB_ATYPE type =? PB_ATYPE_POINTER in
  let repeated := PB_HTYPE type =? PB_HTYPE_REPEATED in
  _ ← (if PB_LTYPE type =? PB_LTYPE_EXTENSION then
         ext ← get_ptr (pData iter);
         each_extension fuel (fun ext => ext_iter ← iter_from_extension ext; self ext_iter) ext
       else if (PB_LTYPE type =? PB_LTYPE_SUBMESSAGE)
               && negb (PB_ATYPE type =? PB_ATYPE_CALLBACK) then
         item ← (if pointer then get_ptr (pData iter) else mret (pData iter));
         count ←
           (if repeated then
              count ← (if (PB_ATYPE type =? PB_ATYPE_STATIC) && size_is_data iter
                       then mret (f_array_size field) else get_count (pSize iter));
              if (PB_ATYPE type =? PB_ATYPE_STATIC) && (f_array_size field <? count)
              then mret (f_array_size field) else mret count
            else mret 1);
         if item =? 0 then mret tt else
         for_each_item (Z.to_nat count) item (f_data_size field) (fun item =>
           match f_ptr field with
           | PtrFields id => if item =? 0 then mret tt else each_field_of (descs id) item self
           | _ => stuck
           end)
       else mret tt);
  if pointer then
    _ ← (if repeated && ((PB_LTYPE type =? PB_LTYPE_STRING) || (PB_LTYPE type =? PB_LTYPE_BYTES))
         then
           item ← get_ptr (pData iter);
           count ← get_count (pSize iter);
           for_each_item (Z.to_nat count) item (Z.of_nat sizeof_ptr) (fun item =>
             p ← get_ptr item; _ ← pb_free p; set_ptr item 0)
         else mret tt);
    _ ← (if repeated then set_count (pSize iter) 0 else mret tt);
    p ← get_ptr (pData iter);
    _ ← pb_free p;
    set_ptr (pData iter) 0
  else mret tt.

(** [fuel]: the depth of nesting of messages and the length of the list of extensions. *)
Fixpoint pb_release_single_field (fuel : nat) (iter : pb_field_iter_t) : M unit :=
  match fuel with
  | O => nofuel
  | S fuel' =>
      let go := release_contents fuel' (pb_release_single_field fuel') iter in
      if PB_HTYPE (f_type (cur iter)) =? PB_HTYPE_ONEOF then
        which ← get_count (pSize iter);
        if negb (which =? f_tag (cur iter)) then mret tt else go
      else go
  end.

Definition pb_release (fuel : nat) (fields : list pb_field_t) (dest : Z) : M unit :=
  if dest =? 0 then mret tt else each_field_of fields dest (pb_release_single_field fuel).

(** [pb_field_iter_find], a loop that always ends. *)
Definition iter_find (iter : pb_field_iter_t) (tag : Z) : M (bool * pb_field_iter_t) :=
  match pb_field_iter_find iter tag with Some r => mret r | None => nofuel end.

(** Returns the iterator, which is moved. *)
Definition pb_release_union_field (fuel : nat) (iter : pb_field_iter_t) : M pb_field_iter_t :=
  old_tag ← get_count (pSize iter);
  let new_tag := f_tag (cur iter) in
  if old_tag =? 0 then mret iter else
  if old_tag =? new_tag then mret iter else
  '(found, iter) ← iter_find iter old_tag;
  if negb found then DERROR "invalid union tag" else
  _ ← pb_release_single_field fuel iter;
  '(found, iter) ← iter_find iter new_tag;
  if negb found then DERROR "iterator error" else
  _ ← (if PB_ATYPE (f_type (cur iter)) =? PB_ATYPE_POINTER
       then set_ptr (pData iter) 0 else mret tt);
  mret iter.

(** ** Field decoders, storing at [dest] *)

(** [clamped = *(intN_t* )dest = (intN_t)svalue], and the comparison after it: the
    destination is written also when the value does not fit. *)
Definition store_clamped_at (data_size : Z) (clamped : option Z) (value dest : Z) : M unit :=
  match clamped with
  | None => DERROR "invalid data_size"
  | Some c =>
      _ ← set_bytes dest (le_bytes (Z.to_nat data_size) c);
      if negb (c =? value) then DERROR "integer too large" else mret tt
  end.

Definition dec_bool_at (dest : Z) : M unit :=
  b ← lift pb_dec_bool; set_bytes dest (bool_bytes b).

Definition dec_varint_at (field : pb_field_t) (dest : Z) : M unit :=
  value ← lift pb_decode_varint;
  let svalue := if f_data_size field =? 8 then i64 value else i32 value in
  store_clamped_at (f_data_size field) (clamp_signed (f_data_size field) svalue) svalue dest.

Definition dec_uvarint_at (field : pb_field_t) (dest : Z) : M unit :=
  value ← lift pb_decode_varint;
  store_clamped_at (f_data_size field) (clamp_unsigned (f_data_size field) value) value dest.

Definition dec_svarint_at (field : pb_field_t) (dest : Z) : M unit :=
  value ← lift pb_decode_svarint;
  store_clamped_at (f_data_size field) (clamp_signed (f_data_size field) value) value dest.

Definition dec_fixed32_at (dest : Z) : M unit :=
  v ← lift pb_dec_fixed32; set_bytes dest (le_bytes 4 v).

Definition dec_fixed64_at (dest : Z) : M unit :=
  v ← lift pb_dec_fixed64; set_bytes dest (le_bytes 8 v).

Definition dec_bytes_at (field : pb_field_t) (dest : Z) : M unit :=
  size ← lift pb_decode_varint32;
  if PB_SIZE_MAX <? size then DERROR "bytes overflow" else
  let alloc_size := u64 (size + bytes_offset) in
  if alloc_size <? size then DERROR "size too large" else
  bdest ←
    (if PB_ATYPE (f_type field) =? PB_ATYPE_POINTER then
       s ← getS;
       if bytes_left (d_in s) <? size then DERROR "end-of-stream" else
       _ ← allocate_at dest alloc_size 1; get_ptr dest
     else if f_data_size field <? alloc_size then DERROR "bytes overflow"
     else mret dest);
  _ ← set_bytes bdest (size_bytes size);
  bytes ← lift (pb_read false size);
  set_bytes (bdest + bytes_offset) bytes.

Definition dec_string_at (field : pb_field_t) (dest : Z) : M unit :=
  size ← lift pb_decode_varint32;
  let alloc_size := u32 (size + 1) in
  if alloc_size <? size then DERROR "size too large" else
  dest ←
    (if PB_ATYPE (f_type field) =? PB_ATYPE_POINTER then
       s ← getS;
       if bytes_left (d_in s) <? size then DERROR "end-of-stream" else
       _ ← allocate_at dest alloc_size 1; get_ptr dest
     else if f_data_size field <? alloc_size then DERROR "string overflow"
     else mret dest);
  bytes ← try_ (lift (pb_read false size));
  match bytes with
  | Some bytes => _ ← set_bytes dest bytes; set_bytes (dest + size) [x00]
  | None => _ ← set_bytes (dest + size) [x00]; fail
  end.

Definition dec_fixed_length_bytes_at (field : pb_field_t) (dest : Z) : M unit :=
  bytes ← lift (pb_dec_fixed_length_bytes field); set_bytes dest bytes.

(** ** Fields *)

Section Messages.
(** [pb_decode_noinit] on the messages below, and [pb_decode]. *)
Variable self_noinit : list pb_field_t -> Z -> M unit.
Variable self_decode : list pb_field_t -> Z -> M unit.
(** Fuel for default values and releases. *)
Variable fuel : nat.

Definition pb_dec_submessage (field : pb_field_t) (dest : Z) : M unit :=
  substream ← lift pb_make_string_substream;
  match f_ptr field with
  | PtrNull => DERROR "invalid field descriptor"
  | PtrDefault _ => stuck
  | PtrFields id =>
      r ← on_substream substream
            (if PB_HTYPE (f_type field) =? PB_HTYPE_REPEATED
             then self_decode (descs id) dest else self_noinit (descs id) dest);
      close_with r
  end.

(** [PB_DECODERS[PB_LTYPE(type)]], called; entry 9 of the table is [NULL]. *)
Definition PB_DECODERS (field : pb_field_t) (dest : Z) : M unit :=
  let ltype := PB_LTYPE (f_type field) in
  if ltype =? PB_LTYPE_BOOL then dec_bool_at dest
  else if ltype =? PB_LTYPE_VARINT then dec_varint_at field dest
  else if ltype =? PB_LTYPE_UVARINT then dec_uvarint_at field dest
  else if ltype =? PB_LTYPE_SVARINT then dec_svarint_at field dest
  else if ltype =? PB_LTYPE_FIXED32 then dec_fixed32_at dest
  else if ltype =? PB_LTYPE_FIXED64 then dec_fixed64_at dest
  else if ltype =? PB_LTYPE_BYTES then dec_bytes_at field dest
  else if ltype =? PB_LTYPE_STRING then dec_string_at field dest
  else if ltype =? PB_LTYPE_SUBMESSAGE then pb_dec_submessage field dest
  else if ltype =? PB_LTYPE_FIXED_LENGTH_BYTES then dec_fixed_length_bytes_at field dest
  else stuck.

(** [iter->pData + iter->pos->data_size * *size]: the product is 32 bits wide. *)
Definition item_at (data : Z) (field : pb_field_t) (size : Z) : Z :=
  data + u32 (f_data_size field * size).

(** The loop over a packed array in a static field; every entry uses input, so that the
    fuel is the number of bytes of the array.  Returns [status]. *)
Fixpoint packed_static_loop (n : nat) (iter : pb_field_iter_t) : M unit :=
  s ← getS;
  if bytes_left (d_in s) =? 0 then mret tt else
  size ← get_count (pSize iter);
  if f_array_size (cur iter) <=? size then mret tt else
  match n with
  | O => nofuel
  | S n =>
      _ ← PB_DECODERS (cur iter) (item_at (pData iter) (cur iter) size);
      size ← get_count (pSize iter);
      _ ← set_count (pSize iter) (u32 (size + 1));
      packed_static_loop n iter
  end.

Definition is_packed (wire_type : Z) (type : Z) : bool :=
  (wire_type =? wire_type_z PB_WT_STRING) && (PB_LTYPE type <=? PB_LTYPE_LAST_PACKABLE).

Definition decode_static_field (wire_type : Z) (iter : pb_field_iter_t) : M unit :=
  let field := cur iter in
  let type := f_type field in
  if PB_HTYPE type =? PB_HTYPE_REQUIRED then PB_DECODERS field (pData iter)
  else if PB_HTYPE type =? PB_HTYPE_OPTIONAL then
    _ ← (if negb (size_is_data iter) then set_has (pSize iter) true else mret tt);
    PB_DECODERS field (pData iter)
  else if PB_HTYPE type =? PB_HTYPE_REPEATED then
    if is_packed wire_type type then
      substream ← lift pb_make_string_substream;
      '(status, substream) ← on_substream substream
         (packed_static_loop (Z.to_nat (bytes_left substream)) iter);
      if negb (bytes_left substream =? 0) then DERROR "array overflow" else
      close_with (status, substream)
    else
      size ← get_count (pSize iter);
      _ ← set_count (pSize iter) (u32 (size + 1));
      if f_array_size field <=? size then DERROR "array overflow" else
      PB_DECODERS field (item_at (pData iter) field size)
  else if PB_HTYPE type =? PB_HTYPE_ONEOF then
    which ← get_count (pSize iter);
    _ ← (if (PB_LTYPE type =? PB_LTYPE_SUBMESSAGE) && negb (which =? f_tag field)
         then
           _ ← memset_zero (pData iter) (f_data_size field);
           set_to_defaults_of fuel (f_ptr field) (pData iter)
         else mret tt);
    _ ← set_count (pSize iter) (f_tag field);
    PB_DECODERS field (pData iter)
  else DERROR "invalid field type".

Definition initialize_pointer_field (item : Z) (iter : pb_field_iter_t) : M unit :=
  let field := cur iter in
  let ltype := PB_LTYPE (f_type field) in
  if (ltype =? PB_LTYPE_STRING) || (ltype =? PB_LTYPE_BYTES) then set_ptr item 0
  else if ltype =? PB_LTYPE_SUBMESSAGE then
    _ ← memset_zero item (f_data_size field);
    set_to_defaults_of fuel (f_ptr field) item
  else mret tt.

(** How the loop over a packed array ends: the array is finished; [*size] is at its
    maximum; [allocate_field] or the field decoder failed. *)
Inductive packed_end : Type := PackedDone | PackedTooMany | PackedFailed.

(** The loop over a packed array in a pointer field, on the substream. *)
Fixpoint packed_pointer_loop (n : nat) (allocated_size : Z) (iter : pb_field_iter_t)
    : M packed_end :=
  let field := cur iter in
  s ← getS;
  if bytes_left (d_in s) =? 0 then mret PackedDone else
  match n with
  | O => nofuel
  | S n =>
      size ← get_count (pSize iter);
      if size =? PB_SIZE_MAX then mret PackedTooMany else
      alloc ←
        (if allocated_size <? size + 1 then
           if f_data_size field =? 0 then stuck else
           let remain := (bytes_left (d_in s) - 1) / f_data_size field + 1 in
           let allocated_size :=
             if remain <? u64 (PB_SIZE_MAX - allocated_size)
             then u64 (allocated_size + remain) else u64 (allocated_size + 1) in
           ok ← try_ (allocate_at (pData iter) (f_data_size field) allocated_size);
           mret ((fun _ => allocated_size) <$> ok)
         else mret (Some allocated_size));
      match alloc with
      | None => mret PackedFailed
      | Some allocated_size =>
          data ← get_ptr (pData iter);
          let item := item_at data field size in
          if item =? 0 then mret PackedFailed else
          _ ← initialize_pointer_field item iter;
          ok ← try_ (PB_DECODERS field item);
          match ok with
          | None => mret PackedFailed
          | Some _ =>
              size ← get_count (pSize iter);
              _ ← set_count (pSize iter) (u32 (size + 1));
              packed_pointer_loop n allocated_size iter
          end
      end
  end.

Definition decode_pointer_field (wire_type : Z) (iter : pb_field_iter_t) : M unit :=
  let field := cur iter in
  let type := f_type field in
  let ltype := PB_LTYPE type in
  if negb (PB_HTYPE type =? PB_HTYPE_REPEATED) then
    _ ← (if ltype =? PB_LTYPE_SUBMESSAGE then
           p ← get_ptr (pData iter);
           if negb (p =? 0) then pb_release_single_field fuel iter else mret tt
         else mret tt);
    _ ← (if PB_HTYPE type =? PB_HTYPE_ONEOF
         then set_count (pSize iter) (f_tag field) else mret tt);
    if (ltype =? PB_LTYPE_STRING) || (ltype =? PB_LTYPE_BYTES)
    then PB_DECODERS field (pData iter)
    else
      _ ← allocate_at (pData iter) (f_data_size field) 1;
      p ← get_ptr (pData iter);
      _ ← initialize_pointer_field p iter;
      p ← get_ptr (pData iter);
      PB_DECODERS field p
  else if is_packed wire_type type then
    allocated_size ← get_count (pSize iter);
    substream ← lift pb_make_string_substream;
    '(r, substream) ← on_substream substream
      (packed_pointer_loop (Z.to_nat (bytes_left substream)) allocated_size iter);
    _ ← (match r with
         | Some PackedTooMany =>
             modifyS (fun s => set_in (mk_istream (i_src (d_in s)) (bytes_left (d_in s))
                                         (Some "too many array entries"%string)) s)
         | _ => mret tt
         end);
    close_with (match r with Some PackedDone => Some tt | _ => None end, substream)
  else
    size ← get_count (pSize iter);
    if size =? PB_SIZE_MAX then DERROR "too many array entries" else
    _ ← allocate_at (pData iter) (f_data_size field) (u32 (size + 1));
    data ← get_ptr (pData iter);
    let item := item_at data field size in
    _ ← set_count (pSize iter) (u32 (size + 1));
    _ ← initialize_pointer_field item iter;
    PB_DECODERS field item.

(** The loop over a string in [decode_callback_field]; a callback that uses no input and
    does not fail would be called for ever. *)
Fixpoint callback_loop (n : nat) (func : Z) (field : pb_field_t) (arg : Z) : M unit :=
  match n with
  | O => nofuel
  | S n =>
      _ ← user_decode func field arg;
      s ← getS;
      if negb (bytes_left (d_in s) =? 0) then callback_loop n func field arg else mret tt
  end.

Definition decode_callback_field (wire_type : Z) (iter : pb_field_iter_t) : M unit :=
  let field := cur iter in
  func ← (if pData iter =? 0 then mret 0 else get_ptr (callback_func_at (pData iter)));
  if func =? 0 then lift (pb_skip_field wire_type) else
  let arg := callback_arg_at (pData iter) in
  if wire_type =? wire_type_z PB_WT_STRING then
    substream ← lift pb_make_string_substream;
    '(r, substream) ← on_substream substream
      (callback_loop (S (Z.to_nat (bytes_left substream))) func field arg);
    match r with
    | None => DERROR "callback failed"
    | Some _ => close_with (Some tt, substream)
    end
  else
    buffer ← lift (read_raw_value wire_type 10);
    '(r, _) ← on_substream (pb_istream_from_buffer buffer (Z.of_nat (length buffer)))
                (user_decode func field arg);
    match r with Some _ => mret tt | None => fail end.

(** Returns the iterator, which [pb_release_union_field] moves. *)
Definition decode_field (wire_type : Z) (iter : pb_field_iter_t) : M pb_field_iter_t :=
  iter ← (if PB_HTYPE (f_type (cur iter)) =? PB_HTYPE_ONEOF
          then pb_release_union_field fuel iter else mret iter);
  let atype := PB_ATYPE (f_type (cur iter)) in
  _ ← (if atype =? PB_ATYPE_STATIC then decode_static_field wire_type iter
       else if atype =? PB_ATYPE_POINTER then decode_pointer_field wire_type iter
       else if atype =? PB_ATYPE_CALLBACK then decode_callback_field wire_type iter
       else DERROR "invalid field type");
  mret iter.

(** ** Extensions *)

Definition default_extension_decoder (type : pb_extension_type_t) (extension tag wire_type : Z)
    : M unit :=
  if negb (f_tag (field_at (et_arg type) 0) =? tag) then mret tt else
  iter ← iter_from_extension extension;
  _ ← set_bytes (ext_found_at extension) (bool_bytes true);
  _ ← decode_field wire_type iter; mret tt.

Fixpoint decode_extension_loop (n : nat) (left tag wire_type extension : Z) : M unit :=
  s ← getS;
  if (extension =? 0) || negb (bytes_left (d_in s) =? left) then mret tt else
  match n with
  | O => nofuel
  | S n =>
      type ← get_ptr (ext_type_at extension);
      match ext_types type with
      | None => stuck
      | Some type =>
          _ ← (if negb (et_decode type =? 0)
               then user_ext_decode (et_decode type) extension tag wire_type
               else default_extension_decoder type extension tag wire_type);
          next ← get_ptr (ext_next_at extension);
          decode_extension_loop n left tag wire_type next
      end
  end.

Definition decode_extension (tag wire_type : Z) (iter : pb_field_iter_t) : M unit :=
  extension ← get_ptr (pData iter);
  s ← getS;
  decode_extension_loop fuel (bytes_left (d_in s)) tag wire_type extension.

(** ** Messages *)

Definition PB_MAX_REQUIRED_FIELDS : Z := 64.

(** The local variables of [pb_decode_noinit] that the loop changes ([fixed_count_size]
    is in the state); [fields_seen] is an array of two 32-bit words. *)
Record decode_locals := mk_locals {
  l_iter : pb_field_iter_t;
  fields_seen : list Z;
  extension_range_start : Z;
  fixed_count_field : option nat;
}.

Definition set_iter (iter : pb_field_iter_t) (l : decode_locals) : decode_locals :=
  mk_locals iter (fields_seen l) (extension_range_start l) (fixed_count_field l).

(** [fixed_count_field != NULL && fixed_count_size != fixed_count_field->array_size]. *)
Definition fixed_count_wrong (l : decode_locals) : M bool :=
  match fixed_count_field l with
  | None => mret false
  | Some n => s ← getS;
              mret (negb (Z.of_N (d_fixed s) =? f_array_size (field_at (start (l_iter l)) n)))
  end.

Definition mark_seen (l : decode_locals) : decode_locals :=
  let index := required_field_index (l_iter l) in
  if (PB_HTYPE (f_type (cur (l_iter l))) =? PB_HTYPE_REQUIRED)
     && (index <? PB_MAX_REQUIRED_FIELDS)
  then mk_locals (l_iter l)
         (alter (fun w => w .| u32 (1 .<< (index .& 31))) (Z.to_nat (index .>> 5))
            (fields_seen l))
         (extension_range_start l) (fixed_count_field l)
  else l.

(** A field that is not in the message: an extension takes it, or it is skipped. *)
Definition decode_unknown (tag wire_type : Z) (l : decode_locals) : M decode_locals :=
  let skip l := _ ← lift (pb_skip_field wire_type); mret l in
  if extension_range_start l <=? tag then
    '(found, iter) ← match find_extension_field (l_iter l) with
                     | Some r => mret r | None => nofuel end;
    let first := if found : bool then f_tag (cur iter) else UINT32_MAX in
    let l := mk_locals iter (fields_seen l) first (fixed_count_field l) in
    if first <=? tag then
      s ← getS;
      _ ← decode_extension tag wire_type iter;
      s' ← getS;
      if negb (bytes_left (d_in s) =? bytes_left (d_in s')) then mret l else skip l
    else skip l
  else skip l.

(** A field of the message, at the iterator. *)
Definition decode_known (wire_type : Z) (l : decode_locals) : M decode_locals :=
  let iter := l_iter l in
  l ← (if (PB_HTYPE (f_type (cur iter)) =? PB_HTYPE_REPEATED) && size_is_data iter then
         _ ← (if bool_decide (fixed_count_field l = Some (pos iter)) then mret tt else
                wrong ← fixed_count_wrong l;
                if wrong : bool then DERROR "wrong size for fixed count field"
                else modifyS (set_fixed 0));
         mret (mk_locals (set_pSize FixedCount iter) (fields_seen l)
                 (extension_range_start l) (Some (pos iter)))
       else mret l);
  let l := mark_seen l in
  iter ← decode_field wire_type (l_iter l);
  mret (set_iter iter l).

(** The loop over the input; every round uses some, so that the fuel is the number of
    bytes left. *)
Fixpoint decode_loop (n : nat) (l : decode_locals) : M decode_locals :=
  s ← getS;
  if bytes_left (d_in s) =? 0 then mret l else
  match n with
  | O => nofuel
  | S n =>
      t ← lift pb_decode_tag;
      match t with
      | TagEof => mret l
      | Tag tag wire_type =>
          '(found, iter) ← iter_find (l_iter l) tag;
          let l := set_iter iter l in
          l ← (if found : bool then decode_known wire_type l
               else decode_unknown tag wire_type l);
          decode_loop n l
      end
  end.

(** [do { .. } while (pb_field_iter_next(&iter))]: the index and the type of the last
    field, and the iterator, which is back at the start; [None]: out of fuel. *)
Fixpoint last_field (n : nat) (iter : pb_field_iter_t) : option (Z * Z * pb_field_iter_t) :=
  match n with
  | O => None
  | S n =>
      let req_field_count := required_field_index iter in
      let last_type := f_type (cur iter) in
      let '(more, iter) := pb_field_iter_next iter in
      if more : bool then last_field n iter else Some (req_field_count, last_type, iter)
  end.

Definition required_count (req_field_count last_type : Z) (iter : pb_field_iter_t) : Z :=
  let n := if (PB_HTYPE last_type =? PB_HTYPE_REQUIRED) && negb (f_tag (cur iter) =? 0)
           then u32 (req_field_count + 1) else req_field_count in
  if PB_MAX_REQUIRED_FIELDS <? n then PB_MAX_REQUIRED_FIELDS else n.

(** The whole words are all ones, and the remaining bits too. *)
Definition all_required_seen (fields_seen : list Z) (req_field_count : Z) : bool :=
  let allbits := 2 ^ 32 - 1 in
  let word i := nth i fields_seen 0 in
  forallb (fun i => word i =? allbits) (seq 0 (Z.to_nat (req_field_count .>> 5)))
  && (if negb (req_field_count .& 31 =? 0)
      then word (Z.to_nat (req_field_count .>> 5))
           =? (allbits .>> (32 - (req_field_count .& 31)))
      else true).

(** The checks after the loop. *)
Definition check_decoded (l : decode_locals) : M unit :=
  wrong ← fixed_count_wrong l;
  if wrong : bool then DERROR "wrong size for fixed count field" else
  match last_field (S (length (start (l_iter l)))) (l_iter l) with
  | None => nofuel
  | Some (req_field_count, last_type, iter) =>
      let n := required_count req_field_count last_type iter in
      if (0 <? n) && negb (all_required_seen (fields_seen l) n)
      then DERROR "missing required field" else mret tt
  end.

(** [fixed_count_size] is a variable of its own in every call. *)
Definition with_fixed_count {A} (m : M A) : M A := fun s =>
  let '(r, s') := m (set_fixed 0 s) in (r, set_fixed (d_fixed s) s').

Definition decode_noinit_body (fields : list pb_field_t) (dest_struct : Z) : M unit :=
  with_fixed_count (
    let iter := (pb_field_iter_begin fields dest_struct).2 in
    s ← getS;
    l ← decode_loop (Z.to_nat (bytes_left (d_in s))) (mk_locals iter [0; 0] 0 None);
    check_decoded l).

Definition decode_body (noinit : list pb_field_t -> Z -> M unit) (fields : list pb_field_t)
    (dest_struct : Z) : M unit :=
  _ ← pb_message_set_to_defaults fuel fields dest_struct;
  status ← try_ (noinit fields dest_struct);
  match status with
  | Some _ => mret tt
  | None => _ ← pb_release fuel fields dest_struct; fail
  end.
End Messages.

(** [fuel]: the depth of nesting of messages and the length of lists of extensions. *)
Fixpoint pb_decode_noinit (fuel : nat) (fields : list pb_field_t) (dest_struct : Z) : M unit :=
  match fuel with
  | O => nofuel
  | S fuel' =>
      decode_noinit_body (pb_decode_noinit fuel')
        (decode_body fuel' (pb_decode_noinit fuel')) fuel fields dest_struct
  end.

Definition pb_decode (fuel : nat) (fields : list pb_field_t) (dest_struct : Z) : M unit :=
  decode_body fuel (pb_decode_noinit fuel) fields dest_struct.

Definition pb_decode_delimited_noinit (fuel : nat) (fields : list pb_field_t) (dest : Z)
    : M unit :=
  substream ← lift pb_make_string_substream;
  r ← on_substream substream (pb_decode_noinit fuel fields dest);
  close_with r.

Definition pb_decode_delimited (fuel : nat) (fields : list pb_field_t) (dest : Z) : M unit :=
  substream ← lift pb_make_string_substream;
  r ← on_substream substream (pb_decode fuel fields dest);
  close_with r.

Definition pb_decode_nullterminated (fuel : nat) (fields : list pb_field_t) (dest : Z)
    : M unit := pb_decode fuel fields dest.
End Decode.
