(* ===== verification/PbLayout.v ===== *)
(** * Where the fields of a message are

    The iterator computes the place of a field from the place of the field before it.
    [layout] gives all the places of a message at once, as offsets into its struct; the
    iterator is always at one of them, steps through them in order, and finds a field by
    its tag from wherever it stands. *)

From S2P Require Import Prelude PbStream PbWire PbMem PbIter.

(** A field with the offsets of its data and of its count or has member. *)
Record place := mk_place { p_field : pb_field_t; p_data : Z; p_size : Z }.

(** Members of a union share their place. *)
Definition in_union (prev f : pb_field_t) : bool :=
  (PB_HTYPE (f_type prev) =? PB_HTYPE_ONEOF) && (PB_HTYPE (f_type f) =? PB_HTYPE_ONEOF)
  && (f_data_offset f =? PB_SIZE_MAX).

Definition next_place (p : place) (f : pb_field_t) : place :=
  if in_union (p_field p) f then mk_place f (p_data p) (p_size p)
  else
    let d := p_data p + prev_size (p_field p) + f_data_offset f in
    mk_place f d (d + f_size_offset f).

Fixpoint places (p : place) (fields : list pb_field_t) : list place :=
  match fields with
  | [] => []
  | f :: fields => next_place p f :: places (next_place p f) fields
  end.

Definition first_place (f : pb_field_t) : place :=
  mk_place f (f_data_offset f) (f_data_offset f + f_size_offset f).

Definition layout (fields : list pb_field_t) : list place :=
  match fields with
  | [] => []
  | f :: fields => first_place f :: places (first_place f) fields
  end.

Definition is_required (f : pb_field_t) : bool := PB_HTYPE (f_type f) =? PB_HTYPE_REQUIRED.

(** How many of the first [i] fields are required. *)
Definition required_before (fields : list pb_field_t) (i : nat) : Z :=
  Z.of_nat (length (filter is_required (take i fields))).

(** The iterator at field [i] of the struct at [dest]. *)
Definition iter_at (fields : list pb_field_t) (dest : Z) (i : nat) (p : place) : pb_field_iter_t :=
  mk_iter fields i (required_before fields i) dest (dest + p_data p) (SizeAt (dest + p_size p)).

(** A descriptor array: its entries have tags, and there are less than [2^32]. *)
Definition fields_ok (fields : list pb_field_t) : Prop :=
  Forall (fun f => f_tag f <> 0) fields /\ Z.of_nat (length fields) < 2 ^ 32.

Lemma length_places p fields : length (places p fields) = length fields.
Proof. revert p. induction fields as [| f fields IH]; intros p; simpl; [done | by rewrite IH]. Qed.

Lemma length_layout fields : length (layout fields) = length fields.
Proof. destruct fields; simpl; [done | by rewrite length_places]. Qed.

Lemma places_field p fields : p_field <$> places p fields = fields.
Proof.
  revert p. induction fields as [| f fields IH]; intros p; simpl; [done |]. rewrite IH. f_equal.
  unfold next_place. by destruct (in_union _ _).
Qed.

Lemma layout_field fields : p_field <$> layout fields = fields.
Proof. destruct fields; simpl; [done |]. by rewrite places_field. Qed.

Lemma layout_lookup fields i p :
  layout fields !! i = Some p -> fields !! i = Some (p_field p).
Proof. intros Hi. rewrite <- (layout_field fields), list_lookup_fmap, Hi. done. Qed.

Lemma places_step q fields i p f :
  places q fields !! i = Some p -> fields !! S i = Some f ->
  places q fields !! S i = Some (next_place p f).
Proof.
  revert q i. induction fields as [| g fields IH]; intros q i; [done |]. simpl.
  destruct i as [| i]; simpl.
  - intros [= <-]. destruct fields; [done |]. by intros [= ->].
  - apply IH.
Qed.

Lemma layout_step fields i p f :
  layout fields !! i = Some p -> fields !! S i = Some f ->
  layout fields !! S i = Some (next_place p f).
Proof.
  destruct fields as [| g fields]; [done |]. simpl. destruct i as [| i]; simpl.
  - intros [= <-]. destruct fields; [done |]. by intros [= ->].
  - apply places_step.
Qed.

Section Iter.
Context (fields : list pb_field_t) (dest : Z).
Context (Hok : fields_ok fields) (Hdest : dest <> 0).

Lemma field_at_lookup i p : layout fields !! i = Some p -> field_at fields i = p_field p.
Proof. intros Hi. unfold field_at. by rewrite (layout_lookup _ _ _ Hi). Qed.

Lemma cur_iter_at i p : layout fields !! i = Some p -> cur (iter_at fields dest i p) = p_field p.
Proof. apply field_at_lookup. Qed.

Lemma tag_at i p : layout fields !! i = Some p -> f_tag (p_field p) <> 0.
Proof.
  intros Hi%layout_lookup. destruct Hok as [H _]. rewrite Forall_forall in H.
  apply H. by eapply list_elem_of_lookup_2.
Qed.

Lemma field_at_end i : (length fields <= i)%nat -> f_tag (field_at fields i) = 0.
Proof. intros Hi. unfold field_at. by rewrite lookup_ge_None_2. Qed.

Lemma iter_begin_empty : fields = [] -> (pb_field_iter_begin fields dest).1 = false.
Proof. by intros ->. Qed.

Lemma iter_begin p :
  layout fields !! 0%nat = Some p ->
  pb_field_iter_begin fields dest = (true, iter_at fields dest 0 p).
Proof.
  intros Hp. unfold pb_field_iter_begin, iter_at.
  rewrite (proj2 (Z.eqb_neq dest 0)), (field_at_lookup 0 p) by done.
  rewrite (proj2 (Z.eqb_neq _ 0)) by by eapply tag_at. cbn [negb].
  destruct fields as [| f fs]; [done |]. injection Hp as <-. cbn [first_place p_field p_data p_size].
  by rewrite Z.add_assoc.
Qed.

Lemma required_before_S i f :
  fields !! i = Some f ->
  required_before fields (S i) = required_before fields i + (if is_required f then 1 else 0).
Proof.
  intros Hi. unfold required_before. rewrite (take_S_r _ _ _ Hi), filter_app, length_app.
  rewrite filter_cons. destruct (is_required f); simpl; lia.
Qed.

Lemma required_before_le i : 0 <= required_before fields i <= Z.of_nat (length fields).
Proof.
  unfold required_before. pose proof (length_filter is_required (take i fields)) as H.
  rewrite length_take in H. lia.
Qed.

(** The iterator steps to the next field, ... *)
Lemma iter_next i p q :
  layout fields !! i = Some p -> layout fields !! S i = Some q ->
  pb_field_iter_next (iter_at fields dest i p) = (true, iter_at fields dest (S i) q).
Proof.
  intros Hp Hq. pose proof (layout_lookup _ _ _ Hp) as Hf. pose proof (layout_lookup _ _ _ Hq) as Hg.
  pose proof (layout_step _ _ _ _ Hp Hg) as Hstep. rewrite Hq in Hstep. injection Hstep as Hstep.
  unfold pb_field_iter_next. rewrite (cur_iter_at i p) by done.
  rewrite (proj2 (Z.eqb_neq _ 0)) by by eapply tag_at.
  cbn [pos start dest_struct pData pSize iter_at required_field_index].
  rewrite (field_at_lookup (S i) q) by done.
  rewrite (proj2 (Z.eqb_neq _ 0)) by by eapply tag_at. unfold iter_at at 1.
  rewrite (required_before_S i _ Hf). unfold next_place, in_union in Hstep. unfold iter_at, is_required.
  destruct (_ && _ && _) eqn:E; rewrite Hstep; cbn [p_field p_data p_size].
  - apply andb_prop in E as [E _]. apply andb_prop in E as [E _].
    apply Z.eqb_eq in E. rewrite E. change (PB_HTYPE_ONEOF =? PB_HTYPE_REQUIRED) with false.
    cbn iota. by rewrite Z.add_0_r.
  - rewrite !Z.add_assoc. do 2 f_equal.
    pose proof (required_before_S i (p_field p) Hf) as Hreq. unfold is_required in Hreq.
    pose proof (required_before_le i). pose proof (required_before_le (S i)). destruct Hok.
    destruct (_ =? PB_HTYPE_REQUIRED); [| lia]. apply wrap_small. lia.
Qed.

(** ... and from the last one back to the first. *)
Lemma iter_wrap i p q :
  layout fields !! i = Some p -> S i = length fields -> layout fields !! 0%nat = Some q ->
  pb_field_iter_next (iter_at fields dest i p) = (false, iter_at fields dest 0 q).
Proof.
  intros Hp Hi Hq. unfold pb_field_iter_next. rewrite (cur_iter_at i p) by done.
  rewrite (proj2 (Z.eqb_neq _ 0)) by by eapply tag_at.
  cbn [pos start dest_struct iter_at]. rewrite field_at_end by lia. cbn [Z.eqb].
  by rewrite (iter_begin q).
Qed.

Lemma layout_is_Some i : (i < length fields)%nat -> is_Some (layout fields !! i).
Proof. intros Hi. apply lookup_lt_is_Some. by rewrite length_layout. Qed.

(** Where a step leads, and that it leads around. *)
Lemma iter_next_mod i p :
  layout fields !! i = Some p ->
  exists q, layout fields !! ((i + 1) mod length fields)%nat = Some q /\
    (pb_field_iter_next (iter_at fields dest i p)).2
    = iter_at fields dest ((i + 1) mod length fields) q.
Proof.
  intros Hp. pose proof (lookup_lt_Some _ _ _ Hp) as Hi. rewrite length_layout in Hi.
  destruct (decide (S i = length fields)) as [He | He].
  - replace ((i + 1) mod length fields)%nat with 0%nat
      by (rewrite Nat.add_1_r, He, Nat.Div0.mod_same; done).
    destruct (layout_is_Some 0) as [q Hq]; [lia |]. exists q. by rewrite (iter_wrap i p q).
  - rewrite Nat.mod_small, Nat.add_1_r by lia.
    destruct (layout_is_Some (S i)) as [q Hq]; [lia |]. exists q. by rewrite (iter_next i p q).
Qed.

Lemma seek_field_loop test r fuel first i p :
  layout fields !! i = Some p -> (first < length fields)%nat ->
  ((i + r) mod length fields)%nat = first -> (1 <= r <= length fields)%nat -> (r <= fuel)%nat ->
  (exists j q, layout fields !! j = Some q /\ test (p_field q) = true /\
     seek_field test fuel first (iter_at fields dest i p) = Some (true, iter_at fields dest j q)) \/
  ((forall k q, (k < r)%nat -> layout fields !! ((i + k) mod length fields)%nat = Some q ->
      test (p_field q) = false) /\
   exists q, layout fields !! first = Some q /\
     seek_field test fuel first (iter_at fields dest i p) = Some (false, iter_at fields dest first q)).
Proof.
  revert fuel i p. induction r as [| r IH]; intros fuel i p Hp Hfirst Hr Hr1 Hfuel; [lia |].
  destruct fuel as [| fuel]; [lia |]. cbn [seek_field]. rewrite (cur_iter_at i p) by done.
  destruct (test (p_field p)) eqn:Et; [left; by exists i, p |].
  pose proof (lookup_lt_Some _ _ _ Hp) as Hi. rewrite length_layout in Hi.
  destruct (iter_next_mod i p Hp) as (q & Hq & ->). cbn [pos iter_at].
  assert (forall k, (i + S k) mod length fields
            = ((i + 1) mod length fields + k) mod length fields)%nat as Hmod.
  { intros k. rewrite Nat.Div0.add_mod_idemp_l. f_equal. lia. }
  assert (forall k q', (k < 1)%nat -> layout fields !! ((i + k) mod length fields)%nat = Some q' ->
            test (p_field q') = false) as H0.
  { intros k q' Hk. replace k with 0%nat by lia. rewrite Nat.add_0_r, Nat.mod_small, Hp by done.
    by intros [= <-]. }
  case_bool_decide as Hd.
  - right. assert (r = 0%nat) as ->.
    { destruct r as [| r]; [done |]. exfalso. rewrite Hmod, Hd in Hr.
      destruct (decide (first + S r < length fields)%nat).
      - rewrite Nat.mod_small in Hr by done. lia.
      - replace (first + S r)%nat with (first + S r - length fields + 1 * length fields)%nat in Hr
          by lia. rewrite Nat.Div0.mod_add, Nat.mod_small in Hr by lia. lia. }
    split; [done |]. exists q. by rewrite <- Hd.
  - destruct r as [| r].
    { exfalso. apply Hd. by rewrite <- Hr. }
    destruct (IH fuel ((i + 1) mod length fields)%nat q) as [(j & q' & ?) | [Hnot Hend]];
      [done | done | by rewrite <- Hmod | lia | lia | by left; exists j, q' |].
    right. split; [| done]. intros k q' Hk. destruct k as [| k]; [apply H0; lia |].
    rewrite Hmod. apply Hnot. lia.
Qed.

(** A search from anywhere goes over all the fields. *)
Lemma seek_field_spec test i p :
  layout fields !! i = Some p ->
  (exists j q, layout fields !! j = Some q /\ test (p_field q) = true /\
     seek_field test (S (length fields)) i (iter_at fields dest i p)
     = Some (true, iter_at fields dest j q)) \/
  ((forall j q, layout fields !! j = Some q -> test (p_field q) = false) /\
   seek_field test (S (length fields)) i (iter_at fields dest i p)
   = Some (false, iter_at fields dest i p)).
Proof.
  intros Hp. pose proof (lookup_lt_Some _ _ _ Hp) as Hi. rewrite length_layout in Hi.
  destruct (seek_field_loop test (length fields) (S (length fields)) i i p)
    as [H | [Hnot (q & Hq & ->)]]; try done; try lia; [| by left |].
  { replace (i + length fields)%nat with (i + 1 * length fields)%nat by lia.
    by rewrite Nat.Div0.mod_add, Nat.mod_small. }
  right. rewrite Hq in Hp. injection Hp as <-. split; [| done]. intros j q' Hj.
  pose proof (lookup_lt_Some _ _ _ Hj) as Hlt. rewrite length_layout in Hlt.
  apply (Hnot ((j + (length fields - i)) mod length fields)%nat).
  - apply Nat.mod_upper_bound. lia.
  - rewrite Nat.Div0.add_mod_idemp_r. replace (i + (j + (length fields - i)))%nat
      with (j + 1 * length fields)%nat by lia. by rewrite Nat.Div0.mod_add, Nat.mod_small.
Qed.

(** C8: From wherever the iterator stands, [pb_field_iter_find] comes back: it is at a field
    with the tag that is not the extension placeholder, if the message has one, at the
    place of that field in the struct; otherwise it is where it started. *)
Theorem iter_find_exact i p tag (Hp : layout fields !! i = Some p) :
  (exists j q, layout fields !! j = Some q /\ f_tag (p_field q) = tag /\ is_extension (p_field q) = false /\
     pb_field_iter_find (iter_at fields dest i p) tag = Some (true, iter_at fields dest j q)) \/
  ((forall f, f ∈ fields -> f_tag f = tag -> is_extension f = true) /\
   pb_field_iter_find (iter_at fields dest i p) tag = Some (false, iter_at fields dest i p)).
Proof.
  destruct (seek_field_spec (has_tag tag) i p Hp) as [(j & q & Hq & Ht & Hs) | [Hnone Hs]].
  - left. exists j, q. unfold has_tag in Ht. apply andb_prop in Ht as [Ht%Z.eqb_eq Hx%negb_true_iff].
    by split_and!.
  - right. split; [| done]. intros f (j & Hj)%list_elem_of_lookup Htag.
    destruct (layout_is_Some j) as [q Hq]; [by eapply lookup_lt_Some |].
    specialize (Hnone j q Hq). rewrite (layout_lookup _ _ _ Hq) in Hj. injection Hj as <-.
    unfold has_tag in Hnone. rewrite Htag, Z.eqb_refl in Hnone. by apply negb_false_iff in Hnone.
Qed.
End Iter.

(** ** Loops over the fields *)

Section EachField.
Context {W A : Type} (fields : list pb_field_t) (dest : Z) (f : pb_field_iter_t -> prog W A).

(** [f] at each of the places, the first of which is number [i]. *)
Fixpoint each_place (i : nat) (l : list place) : prog W unit :=
  match l with
  | [] => mret tt
  | p :: l => _ ← f (iter_at fields dest i p); each_place (S i) l
  end.

Lemma each_field_places i p l s fuel :
  fields_ok fields -> dest <> 0 -> drop i (layout fields) = p :: l -> (length l < fuel)%nat ->
  each_field fuel f (iter_at fields dest i p) s = each_place i (p :: l) s.
Proof.
  intros Hok Hd. revert i p s fuel. induction l as [| q l IH]; intros i p s fuel Hdrop Hfuel;
    (destruct fuel as [| fuel]; [lia |]); cbn [each_field each_place];
    apply prog_bind_ext; intros _ s'.
  all: assert (layout fields !! i = Some p) as Hp
    by (rewrite <- (Nat.add_0_r i), <- lookup_drop, Hdrop; done).
  all: pose proof (f_equal length Hdrop) as Hlen; rewrite length_drop, length_layout in Hlen;
    simpl in Hlen.
  - destruct (layout_is_Some fields 0) as [q Hq]; [lia |].
    by rewrite (iter_wrap fields dest Hok Hd i p q) by (done || lia).
  - assert (layout fields !! S i = Some q) as Hq
      by (rewrite <- (Nat.add_1_r i), <- lookup_drop, Hdrop; done).
    rewrite (iter_next fields dest Hok i p q) by done.
    apply IH; [| simpl in Hfuel; lia].
    by rewrite <- Nat.add_1_r, <- drop_drop, Hdrop.
Qed.

(** A walk over a message goes over the places of its layout. *)
Lemma each_field_of_places s :
  fields_ok fields -> dest <> 0 ->
  each_field_of fields dest f s = each_place 0 (layout fields) s.
Proof.
  intros Hok Hd. unfold each_field_of. destruct fields as [| g fs] eqn:E; [done |]. rewrite <- E in *.
  destruct (layout_is_Some fields 0) as [p Hp]; [rewrite E; simpl; lia |].
  rewrite (iter_begin fields dest Hok Hd p) by done.
  destruct (layout fields) as [| q l] eqn:El; [done |]. injection Hp as ->.
  apply each_field_places; [done | done | by rewrite El, drop_0 |].
  pose proof (length_layout fields) as Hl. rewrite El in Hl. simpl in Hl. lia.
Qed.
End EachField.

(** A search that starts at the second of three fields and finds the first. *)
Definition three_fields : list pb_field_t :=
  [mk_field 1 0 0 0 1 0 PtrNull; mk_field 2 1 3 0 4 0 PtrNull; mk_field 5 5 0 0 8 0 PtrNull].

Lemma iter_find_exact_witness :
  (exists j q, layout three_fields !! j = Some q /\ f_tag (p_field q) = 1 /\ is_extension (p_field q) = false /\
     pb_field_iter_find (iter_at three_fields 16 1 (mk_place (mk_field 2 1 3 0 4 0 PtrNull) 4 4)) 1
     = Some (true, iter_at three_fields 16 j q)) \/
  ((forall f, f ∈ three_fields -> f_tag f = 1 -> is_extension f = true) /\
   pb_field_iter_find (iter_at three_fields 16 1 (mk_place (mk_field 2 1 3 0 4 0 PtrNull) 4 4)) 1
   = Some (false, iter_at three_fields 16 1 (mk_place (mk_field 2 1 3 0 4 0 PtrNull) 4 4))).
Proof.
  apply (iter_find_exact three_fields 16); [split; [repeat constructor; done | done] | done | done].
Defined.
