(* ===== verification/PbEncodeSize.v ===== *)
(** * The sizing pass of the encoder

    nanopb encodes a message twice: first on a stream that only counts, to learn the
    length of a submessage or of the whole message, and then into the buffer.  The second
    pass must write exactly what the first one counted.  [Uniform m] states that of a
    step of the encoder: when it succeeds on a counting stream there is one byte string,
    as long as what was counted, that it writes on every stream with room for it.  The
    counting pass does not look at the contents of strings and bytes fields; if these are
    not all in memory, the second one is an error of the program on every stream. *)

From S2P Require Import Prelude PbStream PbWire PbMem PbIter PbEncode PbCodec.

Section Uniform.
Context {St : Type} `{WriteCallback St}.

Abbreviation M := (prog (pb_ostream_t St)).
Implicit Types (s : pb_ostream_t St) (l : list byte).

(** A stream over a buffer or a counting one, before an error. *)
Definition plain (s : pb_ostream_t St) : Prop :=
  ostream_ok s /\ is_cb_sink s = false /\ o_errmsg s = None.

(** [r]: all that [m] writes is read from the memory.  If not, [m] is an error on every
    stream into which it really writes. *)
Definition Writes {A} (r : bool) (m : M A) (l : list byte) (a : A) : Prop :=
  forall s, plain s -> bytes_written s + Z.of_nat (length l) < 2 ^ 64 ->
    match m s with
    | (Done a', s') => fits l s /\ a' = a /\ s' = o_append l s /\ (r = false -> o_sink s = NullSink)
    | (Failed, _) => ~ fits l s
    | (Stuck, _) => r = false
    | (NoFuel, _) => False
    end.

Class Uniform {A} (m : M A) : Prop :=
  uniform s a s' : plain s -> o_sink s = NullSink -> m s = (Done a, s') ->
    exists l r, s' = o_append l s /\ Writes r m l a.

Lemma plain_append l s : plain s -> fits l s -> plain (o_append l s).
Proof.
  intros (Hs & Hc & He) Hf. split_and!; [by apply o_append_ok | | done].
  unfold is_cb_sink, o_append in *. simpl. by destruct (o_sink s).
Qed.

Lemma null_fits l s : o_sink s = NullSink -> fits l s.
Proof. unfold fits. by intros ->. Qed.

Lemma null_append l s : o_sink s = NullSink -> o_sink (o_append l s) = NullSink.
Proof. unfold o_append. simpl. by intros ->. Qed.

Lemma str_append_nil s : plain s -> o_append [] s = s.
Proof.
  intros ((Hw & _) & _ & _). destruct s as [k m w e]. unfold o_append. simpl in *.
  rewrite Z.add_0_r, wrap_small by lia. f_equal. destruct k; try done. by rewrite app_nil_r, Z.sub_0_r.
Qed.

Lemma fits_nil s : plain s -> fits [] s.
Proof.
  intros ((_ & _ & Hk) & _ & _). unfold fits. destruct (o_sink s); try done. simpl. lia.
Qed.

Lemma append_written l s :
  bytes_written s + Z.of_nat (length l) < 2 ^ 64 -> 0 <= bytes_written s ->
  bytes_written (o_append l s) = bytes_written s + Z.of_nat (length l).
Proof. intros. simpl. by rewrite wrap_small by lia. Qed.

Lemma fits_app' l1 l2 s :
  plain s -> bytes_written s + Z.of_nat (length (l1 ++ l2)) < 2 ^ 64 ->
  fits (l1 ++ l2) s <-> fits l1 s /\ fits l2 (o_append l1 s).
Proof. intros (Hs & _ & _) Hl. apply fits_app; [done |]. destruct Hs as [? _]. lia. Qed.

(** ** Composition *)

Lemma writes_pure {A} (a : A) : Writes true (fun s => (Done a, s)) [] a.
Proof.
  intros s Hs Hl. split_and!; [by apply fits_nil | done | | done]. symmetry. by apply str_append_nil.
Qed.

#[export] Instance uniform_pure {A} (r : outcome A) : Uniform (fun s => (r, s)).
Proof.
  intros s a s' Hs Hk E. injection E as -> <-. exists [], true. split; [symmetry; by apply str_append_nil |].
  apply writes_pure.
Qed.

#[export] Instance uniform_ret {A} (a : A) : Uniform (mret a : M A).
Proof. exact (uniform_pure (Done a)). Qed.

#[export] Instance uniform_stuck {A} : Uniform (stuck : M A).
Proof. exact (uniform_pure Stuck). Qed.

#[export] Instance uniform_nofuel {A} : Uniform (nofuel : M A).
Proof. exact (uniform_pure NoFuel). Qed.

#[export] Instance uniform_fail {A} : Uniform (fail : M A).
Proof. exact (uniform_pure Failed). Qed.

#[export] Instance uniform_error {A} msg : Uniform (PB_RETURN_OERROR msg : M A).
Proof. by intros s a s' _ _. Qed.

Lemma writes_bind {A B} r1 r2 (m : M A) (f : A -> M B) l1 l2 a b :
  Writes r1 m l1 a -> Writes r2 (f a) l2 b -> Writes (r1 && r2) (m ≫= f) (l1 ++ l2) b.
Proof.
  intros Hm Hf s Hs Hl. pose proof (fits_app' l1 l2 s Hs Hl) as Hfits.
  assert (Hl' := Hl). rewrite length_app in Hl'.
  specialize (Hm s Hs ltac:(lia)). unfold mbind, prog_bind.
  destruct (m s) as [[a' | | |] s']; [| tauto | by rewrite Hm | done].
  destruct Hm as (Hfit & -> & -> & Hr1).
  assert (0 <= bytes_written s) as Hw by (destruct Hs as [[? _] _]; lia).
  specialize (Hf (o_append l1 s) (plain_append l1 s Hs Hfit)).
  rewrite append_written in Hf by lia. specialize (Hf ltac:(lia)).
  destruct (f a (o_append l1 s)) as [[b' | | |] s']; [| tauto | rewrite Hf; by destruct r1 | done].
  destruct Hf as (Hfit' & -> & -> & Hr2). rewrite o_append_app. split_and!; try tauto.
  intros [Hr | Hr]%andb_false_iff; [by apply Hr1 |]. specialize (Hr2 Hr).
  unfold o_append in Hr2. simpl in Hr2. by destruct (o_sink s).
Qed.

#[export] Instance uniform_bind {A B} (m : M A) (f : A -> M B) :
  Uniform m -> (forall a, Uniform (f a)) -> Uniform (m ≫= f).
Proof.
  intros Hm Hf s b s'' Hs Hk E. unfold mbind, prog_bind in E.
  destruct (m s) as [[a | | |] s'] eqn:Em; try done.
  destruct (Hm s a s' Hs Hk Em) as (l1 & r1 & -> & Hw1).
  destruct (Hf a (o_append l1 s) b s'') as (l2 & r2 & -> & Hw2); [| by apply null_append | done |].
  { apply plain_append; [done | by apply null_fits]. }
  exists (l1 ++ l2), (r1 && r2). split; [by rewrite o_append_app | by eapply writes_bind].
Qed.

Lemma writes_emits (m : M unit) l : Emits m l -> Writes true m l tt.
Proof.
  intros He s (Hs & Hc & _) Hl. assert (0 <= bytes_written s) as Hw by (destruct Hs as [? _]; lia).
  destruct (He s Hs Hc) as [Hd Hf]; [lia |].
  assert (fits l s \/ ~ fits l s) as [Hfit | Hfit].
  { unfold fits. destruct (o_sink s); try (by left). lia. }
  - by rewrite Hd.
  - specialize (Hf Hfit). by destruct (m s) as [[] ?].
Qed.

Lemma uniform_emits (m : M unit) l :
  Emits m l -> Z.of_nat (length l) < 2 ^ 64 -> Uniform m.
Proof.
  intros He Hl s [] s' (Hs & Hc & He') Hk E. exists l, true. split; [| by apply writes_emits].
  destruct (He s Hs Hc Hl) as [Hd _]. rewrite Hd in E; [by injection E | by apply null_fits].
Qed.

Lemma uniform_if {A} (b : bool) (m1 m2 : M A) : Uniform m1 -> Uniform m2 -> Uniform (if b then m1 else m2).
Proof. by destruct b. Qed.

Lemma uniform_if_bind {A B} (b : bool) (m1 m2 : M A) (f : A -> M B) :
  Uniform (m1 ≫= f) -> Uniform (m2 ≫= f) -> Uniform ((if b then m1 else m2) ≫= f).
Proof. by destruct b. Qed.

Lemma uniform_bind_ret {A B} (a : A) (f : A -> M B) : Uniform (f a) -> Uniform (mret a ≫= f).
Proof. done. Qed.

Lemma uniform_bind_stuck {A B} (f : A -> M B) : Uniform (stuck ≫= f).
Proof. by intros s b s' _ _. Qed.

Lemma uniform_bind_error {A B} msg (f : A -> M B) : Uniform (PB_RETURN_OERROR msg ≫= f).
Proof. by intros s b s' _ _. Qed.

(** The caller of a user function. *)
#[export] Instance uniform_try {A} (m : M A) msg :
  Uniform m -> Uniform (ok ← try_ m; match ok with Some _ => mret tt | None => PB_RETURN_OERROR msg end).
Proof.
  intros Hm s b s' Hs Hk E. unfold mbind, prog_bind, try_ in E.
  destruct (m s) as [[a | | |] s1] eqn:Em; try done. injection E as <- <-.
  destruct (Hm s a s1 Hs Hk Em) as (l & r & -> & Hw). exists l, r. split; [done |].
  intros s2 Hs2 Hl. specialize (Hw s2 Hs2 Hl). unfold mbind, prog_bind, try_.
  destruct (m s2) as [[a2 | | |] s3]; try done. destruct Hw as (? & _ & ? & ?). by split_and!.
Qed.

(** ** Writes *)

Lemma null_write buf count s :
  o_sink s = NullSink -> pb_write buf count s = (Done tt, add_written count s).
Proof.
  intros Hk. unfold pb_write, mbind, prog_bind, getS, is_null_sink. simpl. rewrite Hk. by rewrite andb_false_r.
Qed.

Lemma null_add_written count l s :
  plain s -> o_sink s = NullSink -> u64 (Z.of_nat (length l)) = u64 count ->
  add_written count s = o_append l s.
Proof.
  intros (_ & _ & He) Hk Hc. unfold add_written, o_append. rewrite Hk. f_equal. unfold wrap in *.
  by rewrite <- Zplus_mod_idemp_r, <- Hc, Zplus_mod_idemp_r.
Qed.

Lemma writes_write buf count :
  0 <= count ->
  exists l, length l = Z.to_nat count /\ Writes (Nat.leb (Z.to_nat count) (length buf)) (pb_write buf count) l tt.
Proof.
  intros Hc. exists (take (Z.to_nat count) (buf ++ repeat x00 (Z.to_nat count))).
  set (l := take _ _).
  assert (length l = Z.to_nat count) as Hl.
  { unfold l. rewrite length_take, length_app, repeat_length. lia. }
  split; [done |]. intros [k m w e] ((Hw & Hm & Hk) & Hcb & He) Hlen. simpl in *. rewrite Hl, Z2Nat.id in Hlen by done.
  unfold pb_write, mbind, prog_bind, getS, is_null_sink, run_ocallback, fits, o_append, add_written. simpl.
  rewrite Hl, Z2Nat.id by done.
  destruct k as [wr room | | st]; [| by rewrite andb_false_r | done].
  rewrite andb_true_r. destruct (Z.ltb_spec 0 count) as [Hpos | Hz].
  - rewrite wrap_small by lia.
    destruct (Z.ltb_spec (w + count) w), (Z.ltb_spec m (w + count)); simpl; try lia.
    destruct (Nat.leb_spec (Z.to_nat count) (length buf)); [| done].
    rewrite (proj2 (Z.leb_le _ room)) by lia. simpl. rewrite wrap_small by lia.
    unfold l. rewrite take_app_le by done. rewrite ?Z2Nat.id by done. split_and!; done.
  - assert (count = 0) as -> by lia. assert (l = []) as -> by (by apply nil_length_inv).
    simpl. rewrite app_nil_r. rewrite ?Z.sub_0_r. split_and!; (done || lia).
Qed.

Lemma uniform_write buf count : 0 <= count < 2 ^ 64 -> Uniform (pb_write buf count).
Proof.
  intros Hc s [] s' Hs Hk E. destruct (writes_write buf count) as (l & Hl & Hw); [lia |].
  exists l, (Nat.leb (Z.to_nat count) (length buf)). split; [| done]. rewrite null_write in E by done. injection E as <-.
  apply null_add_written; [done | done |]. by rewrite Hl, Z2Nat.id by lia.
Qed.

Lemma writes_varint v : 0 <= v < 2 ^ 64 -> Writes true (pb_encode_varint v) (varint v) tt.
Proof. intros Hv. by apply writes_emits, pb_encode_varint_emits. Qed.

Lemma uniform_varint v : 0 <= v < 2 ^ 64 -> Uniform (pb_encode_varint v).
Proof.
  intros Hv. eapply uniform_emits; [by apply pb_encode_varint_emits |].
  pose proof (varint_length v). lia.
Qed.

(** A size that was counted before what it counts: on a counting stream it is added
    without a second count. *)
Definition counted (size : Z) (items : pb_ostream_t St -> M unit) : M unit :=
  _ ← pb_encode_varint size;
  s ← getS;
  if is_null_sink s then pb_write [] size else items s.

Lemma writes_null_or r size items l :
  size = u64 (Z.of_nat (length l)) ->
  (forall s, o_sink s <> NullSink -> plain s -> bytes_written s + Z.of_nat (length l) < 2 ^ 64 ->
     match items s s with
     | (Done _, s') => fits l s /\ s' = o_append l s /\ r = true
     | (Failed, _) => ~ fits l s
     | (Stuck, _) => r = false
     | (NoFuel, _) => False
     end) ->
  Writes r (s ← getS; if is_null_sink s then pb_write [] size else items s) l tt.
Proof.
  intros Hsize Hw s Hs Hl. unfold mbind, prog_bind, getS. simpl. unfold is_null_sink.
  destruct (o_sink s) eqn:Hk.
  - specialize (Hw s ltac:(by rewrite Hk) Hs Hl). destruct (items s s) as [[[] | | |] s']; naive_solver.
  - rewrite null_write by done. split_and!; [by apply null_fits | done | | done].
    apply null_add_written; [done | done |]. rewrite Hsize. unfold wrap. by rewrite Z.mod_mod by lia.
  - destruct Hs as (_ & Hc & _). unfold is_cb_sink in Hc. by rewrite Hk in Hc.
Qed.

Lemma uniform_counted r size items l :
  size = u64 (Z.of_nat (length l)) ->
  (forall s, o_sink s <> NullSink -> plain s -> bytes_written s + Z.of_nat (length l) < 2 ^ 64 ->
     match items s s with
     | (Done _, s') => fits l s /\ s' = o_append l s /\ r = true
     | (Failed, _) => ~ fits l s
     | (Stuck, _) => r = false
     | (NoFuel, _) => False
     end) ->
  Uniform (counted size items).
Proof.
  intros Hsize Hw. apply uniform_bind.
  { apply uniform_varint. rewrite Hsize. by apply wrap_range. }
  intros _ s [] s' Hs Hk E. exists l, r. split; [| by apply writes_null_or].
  unfold mbind, prog_bind, getS, is_null_sink in E. simpl in E. rewrite Hk in E.
  rewrite null_write in E by done. injection E as <-. apply null_add_written; [done | done |].
  rewrite Hsize. unfold wrap. by rewrite Z.mod_mod by lia.
Qed.
End Uniform.

(** ** The encoder *)

(** The members of a descriptor are of type [pb_size_t]. *)
Definition field_typed (f : pb_field_t) : Prop :=
  0 <= f_tag f < 2 ^ 32 /\ 0 <= f_data_size f < 2 ^ 32 /\ 0 <= f_array_size f < 2 ^ 32.

#[export] Instance field_typed_dec f : Decision (field_typed f).
Proof. unfold field_typed. apply _. Defined.

Section Fields.
Context {St : Type} `{WriteCallback St}.
Variable mem : memory.

Abbreviation M := (prog (pb_ostream_t St)).

Lemma sizing_plain : plain (PB_OSTREAM_SIZING (St:=St)).
Proof. by split_and!. Qed.

Lemma uniform_sized_bind {B} (items : M unit) (f : Z -> M B) :
  Uniform items ->
  (forall l r size, size = u64 (Z.of_nat (length l)) -> Writes r items l tt -> Uniform (f size)) ->
  Uniform (sized items ≫= f).
Proof.
  intros Hi Hf s b s' Hs Hk E. unfold mbind, prog_bind, sized in E.
  destruct (items PB_OSTREAM_SIZING) as [[[] | | |] st] eqn:Ei; try done.
  destruct (Hi PB_OSTREAM_SIZING tt st sizing_plain eq_refl Ei) as (l & r & -> & Hw).
  destruct (Hf l r (bytes_written (o_append l PB_OSTREAM_SIZING)) eq_refl Hw s b s' Hs Hk E) as (l' & r' & -> & Hw').
  exists l', r'. split; [done |]. intros s2 Hs2 Hl2. unfold mbind, prog_bind, sized. rewrite Ei. by apply Hw'.
Qed.

#[export] Instance uniform_get_bytes a n : Uniform (get_bytes (St:=St) mem a n).
Proof. unfold get_bytes. destruct (load mem a n); apply _. Qed.
#[export] Instance uniform_get_ptr a : Uniform (get_ptr (St:=St) mem a).
Proof. unfold get_ptr. apply _. Qed.
#[export] Instance uniform_get_size a : Uniform (get_size (St:=St) mem a).
Proof. unfold get_size. apply _. Qed.
#[export] Instance uniform_safe_read_bool a : Uniform (safe_read_bool (St:=St) mem a).
Proof. unfold safe_read_bool. apply _. Qed.

#[export] Instance uniform_tag w n : 0 <= n < 2 ^ 32 -> Uniform (pb_encode_tag (St:=St) w n).
Proof.
  intros Hn. eapply uniform_emits; [by apply pb_encode_tag_emits |].
  pose proof (varint_length (8 * n + wire_type_z w)). lia.
Qed.

#[export] Instance uniform_tag_for_field f : field_typed f -> Uniform (pb_encode_tag_for_field (St:=St) f).
Proof.
  intros (Ht & _). unfold pb_encode_tag_for_field. destruct (wiretype_of_ltype _); [by apply uniform_tag | apply _].
Qed.

Lemma uniform_string buf k : 0 <= k < 2 ^ 64 -> Uniform (pb_encode_string (St:=St) buf k).
Proof.
  intros Hk. apply uniform_bind; [by apply uniform_varint | intros _; by apply uniform_write].
Qed.

(** *** Scalars *)

Lemma zigzag_word v : 0 <= zigzag v < 2 ^ 64.
Proof. unfold zigzag. destruct (v <? 0); by apply wrap_range. Qed.

Lemma load_raw_cases n src :
  load_raw (St:=St) n src = stuck \/
  exists v, load_raw (St:=St) n src = mret v /\ 0 <= v < 256 ^ Z.of_nat n.
Proof.
  unfold load_raw. destruct (Nat.leb_spec n (length src)) as [Hl |]; [right | by left].
  eexists. split; [done |]. pose proof (le_value_range (take n src)) as Hv.
  rewrite length_take, Nat.min_l in Hv by done. exact Hv.
Qed.

Lemma uniform_load_raw_bind {B} n src (f : Z -> M B) :
  (forall v, 0 <= v < 256 ^ Z.of_nat n -> Uniform (f v)) -> Uniform (load_raw n src ≫= f).
Proof.
  intros Hf. destruct (load_raw_cases n src) as [-> | (v & -> & Hv)];
    [apply uniform_bind_stuck | by apply uniform_bind_ret, Hf].
Qed.

#[export] Instance uniform_load_raw n src : Uniform (load_raw (St:=St) n src).
Proof. unfold load_raw. destruct (Nat.leb _ _); apply _. Qed.

#[export] Instance uniform_load_signed k src : Uniform (load_signed (St:=St) k src).
Proof. unfold load_signed. repeat (apply uniform_if; [apply _ |]). apply _. Qed.

Lemma uniform_enc_varint field src : Uniform (pb_enc_varint (St:=St) field src).
Proof.
  apply uniform_bind; [apply _ |]. intros v. apply uniform_varint. by apply wrap_range.
Qed.

Lemma uniform_enc_svarint field src : Uniform (pb_enc_svarint (St:=St) field src).
Proof.
  apply uniform_bind; [apply _ |]. intros v. apply uniform_varint, zigzag_word.
Qed.

Lemma uniform_enc_uvarint field src : Uniform (pb_enc_uvarint (St:=St) field src).
Proof.
  unfold pb_enc_uvarint, load_unsigned.
  repeat (apply uniform_if_bind; [apply uniform_load_raw_bind; intros v Hv; apply uniform_varint;
    cbn in Hv; lia |]).
  apply uniform_bind_error.
Qed.

Lemma writes_enc_fixed32 src :
  exists l r, length l = 4%nat /\ Writes r (pb_enc_fixed32 (St:=St) src) l tt.
Proof.
  unfold pb_enc_fixed32. destruct (load_raw_cases 4 src) as [-> | (v & -> & Hv)].
  - exists (repeat x00 4), false. split; [done |]. by intros s _ _.
  - exists (le_bytes 4 v), true. split; [done |]. apply writes_emits. apply pb_encode_fixed32_emits.
Qed.

Lemma writes_enc_fixed64 src :
  exists l r, length l = 8%nat /\ Writes r (pb_enc_fixed64 (St:=St) src) l tt.
Proof.
  unfold pb_enc_fixed64. destruct (load_raw_cases 8 src) as [-> | (v & -> & Hv)].
  - exists (repeat x00 8), false. split; [done |]. by intros s _ _.
  - exists (le_bytes 8 v), true. split; [done |]. apply writes_emits. apply pb_encode_fixed64_emits.
Qed.

Lemma uniform_enc_fixed32 src : Uniform (pb_enc_fixed32 (St:=St) src).
Proof.
  apply uniform_bind; [apply _ |]. intros v. by eapply uniform_emits; [apply pb_encode_fixed32_emits |].
Qed.

Lemma uniform_enc_fixed64 src : Uniform (pb_enc_fixed64 (St:=St) src).
Proof.
  apply uniform_bind; [apply _ |]. intros v. by eapply uniform_emits; [apply pb_encode_fixed64_emits |].
Qed.

(** *** Strings and bytes *)

Lemma bounded_strlen_range l k n : 0 <= k -> bounded_strlen l k = Some n -> 0 <= n <= k.
Proof.
  revert k n. induction l as [| b l IH]; intros k n Hk; simpl; destruct (Z.eqb_spec k 0); try done.
  - intros [= <-]. lia.
  - intros [= <-]. lia.
  - destruct (b2z b =? 0); [intros [= <-]; lia |].
    destruct (bounded_strlen l (k - 1)) as [m |] eqn:E; [| done]. intros [= <-].
    apply IH in E; lia.
Qed.

Lemma uniform_enc_string field src : field_typed field -> Uniform (pb_enc_string (St:=St) field src).
Proof.
  intros (_ & Hd & _). unfold pb_enc_string. destruct src as [l |]; [| by apply uniform_string].
  destruct (bounded_strlen _ _) as [n |] eqn:E; [| apply _]. apply uniform_string.
  apply bounded_strlen_range in E; destruct (_ =? _) in *; unfold SIZE_MAX in *; lia.
Qed.

Lemma load_length m a n l : load m a n = Some l -> length l = n.
Proof.
  revert a l. induction n as [| n IH]; intros a l; simpl; [by intros [= <-] |].
  intros (b & _ & (l' & Hl & [= <-])%bind_Some)%bind_Some. simpl. by rewrite (IH _ _ Hl).
Qed.

Lemma uniform_enc_bytes field src :
  Uniform (b ← bytes_src (St:=St) mem src; pb_enc_bytes field b).
Proof.
  unfold bytes_src. apply uniform_if_bind; [apply uniform_bind_ret; by apply uniform_string |].
  unfold get_size, get_bytes. destruct (load mem src sizeof_size) as [l |] eqn:E; [| by intros s b s' _ _].
  apply load_length in E. pose proof (le_value_range l) as Hl. rewrite E in Hl.
  change (Uniform (pb_enc_bytes (St:=St) field (Some (le_value l, mem_from mem (src + bytes_offset))))).
  unfold pb_enc_bytes. destruct (_ && _); [apply _ |]. apply uniform_string. change (256 ^ Z.of_nat sizeof_size) with (2 ^ 32) in Hl. lia.
Qed.

(** *** The default values of proto3 *)

Lemma uniform_all_fields n (f : pb_field_iter_t -> M bool) it :
  (forall it, Uniform (f it)) -> Uniform (all_fields n f it).
Proof.
  intros Hf. revert it. induction n as [| n IH]; intros it; simpl; [apply _ |].
  apply uniform_bind; [apply Hf |]. intros b. apply uniform_if; [apply _ |].
  destruct (pb_field_iter_next it) as [[] it']; [apply IH | apply _].
Qed.

#[export] Instance uniform_zero_bytes n p : Uniform (zero_bytes (St:=St) mem n p).
Proof.
  revert p. induction n as [| n IH]; intros p; simpl; [apply _ |].
  apply uniform_bind; [apply _ |]. intros l. apply uniform_if; [apply IH | apply _].
Qed.

Lemma next_start it : start (pb_field_iter_next it).2 = start it.
Proof. unfold pb_field_iter_next. by repeat (case_match; simpl). Qed.

Lemma uniform_each_field {A} fields n (f : pb_field_iter_t -> M A) it :
  (forall it, start it = fields -> Uniform (f it)) -> start it = fields -> Uniform (each_field n f it).
Proof.
  intros Hf. revert it. induction n as [| n IH]; intros it Hit; simpl; [apply _ |].
  apply uniform_bind; [by apply Hf |]. intros _. pose proof (next_start it) as Hn.
  destruct (pb_field_iter_next it) as [[] it']; [apply IH; by rewrite <- Hit | apply _].
Qed.

Variable descs : nat -> list pb_field_t.

Ltac branches := cbv zeta; repeat first [apply _ | apply uniform_if].

#[export] Instance uniform_default fuel field data :
  Uniform (pb_check_proto3_default_value (St:=St) mem descs fuel field data).
Proof.
  revert field data. induction fuel as [| fuel IH]; intros field data; cbn [pb_check_proto3_default_value]; [apply _ |].
  assert (Uniform (singular_default mem descs (pb_check_proto3_default_value (St:=St) mem descs fuel) field data)).
  { unfold singular_default. branches; (destruct (f_ptr field); [apply _ | | apply _];
    destruct (pb_field_iter_begin _ _) as [[] it]; [by apply uniform_all_fields | apply _]). }
  branches.
Qed.
End Fields.

(** ** Messages *)

Section Messages.
Context {St : Type} `{WriteCallback St}.
Variable mem : memory.
Variable descs : nat -> list pb_field_t.
Variable ext_types : Z -> option pb_extension_type_t.
Variable user_encode : Z -> pb_field_t -> Z -> prog (pb_ostream_t St) unit.
Variable user_ext_encode : Z -> Z -> prog (pb_ostream_t St) unit.
(** The functions of the user write the same whatever the stream. *)
Context (Hdescs : forall id, Forall field_typed (descs id)).
Context (Hext : forall t e, ext_types t = Some e -> Forall field_typed (et_arg e)).
Context (Huser : forall f field arg, Uniform (user_encode f field arg)).
Context (Huser_ext : forall f ext, Uniform (user_ext_encode f ext)).

Abbreviation M := (prog (pb_ostream_t St)).

Section Level.
Variable self : list pb_field_t -> Z -> M unit.
Variable fuel : nat.

(** The second pass of [pb_encode_submessage]. *)
Definition sub_pass (fields : list pb_field_t) (src size : Z) (stream : pb_ostream_t St) : M unit :=
  if max_size stream <? u64 (bytes_written stream + size) then PB_RETURN_OERROR "stream full" else
  let '(status, substream) := self fields src (mk_ostream (o_sink stream) size 0 None) in
  match status with
  | Stuck => stuck
  | NoFuel => nofuel
  | _ =>
      _ ← modifyS (fun s => mk_ostream (o_sink substream) (max_size s)
                              (u64 (bytes_written s + bytes_written substream))
                              (o_errmsg substream));
      if negb (bytes_written substream =? size)
      then PB_RETURN_OERROR "submsg size changed"
      else match status with Done _ => mret tt | _ => fail end
  end.

Lemma sub_pass_writes r fields src l size stream :
  Writes r (self fields src) l tt -> size = u64 (Z.of_nat (length l)) ->
  o_sink stream <> NullSink -> plain stream ->
  bytes_written stream + Z.of_nat (length l) < 2 ^ 64 ->
  match sub_pass fields src size stream stream with
  | (Done _, s') => fits l stream /\ s' = o_append l stream /\ r = true
  | (Failed, _) => ~ fits l stream
  | (Stuck, _) => r = false
  | (NoFuel, _) => False
  end.
Proof.
  intros Hw Hsize Hn Hst Hl. pose proof Hst as ((Hbw & Hmx & Hroom) & Hcb & He).
  rewrite wrap_small in Hsize by lia. unfold sub_pass.
  destruct (o_sink stream) as [w room | | st] eqn:Ek; [| done | unfold is_cb_sink in Hcb; by rewrite Ek in Hcb].
  rewrite wrap_small by lia. unfold fits. rewrite Ek.
  destruct (Z.ltb_spec (max_size stream) (bytes_written stream + size)) as [Hlt | Hle]; [simpl; lia |].
  specialize (Hw (mk_ostream (BufSink w room) size 0 None)).
  assert (plain (mk_ostream (BufSink w room) size 0 None : pb_ostream_t St)) as Hp
    by (unfold plain, ostream_ok; simpl; split_and!; (done || lia)).
  specialize (Hw Hp ltac:(simpl; lia)).
  destruct (self fields src (mk_ostream (BufSink w room) size 0 None)) as [[[] | | |] sub]; [| | done | done].
  - destruct Hw as (_ & _ & -> & Hr). unfold mbind, prog_bind, modifyS. simpl.
    rewrite (wrap_small 64 (0 + _)) by lia. rewrite Hsize, Z.add_0_l, Z.eqb_refl. simpl.
    split_and!; [lia | unfold o_append; by rewrite Ek, He |]. destruct r; [done | by specialize (Hr eq_refl)].
  - unfold fits in Hw. simpl in Hw. lia.
Qed.

(** After the first pass. *)
Lemma submessage_counted fields src l s :
  self fields src PB_OSTREAM_SIZING = (Done tt, o_append l PB_OSTREAM_SIZING) ->
  pb_encode_submessage self fields src s
  = counted (u64 (Z.of_nat (length l))) (sub_pass fields src (u64 (Z.of_nat (length l)))) s.
Proof. intros E. unfold pb_encode_submessage. unfold mbind, prog_bind at 1. by rewrite E. Qed.

Lemma writes_submessage r fields src l :
  self fields src PB_OSTREAM_SIZING = (Done tt, o_append l PB_OSTREAM_SIZING) ->
  Writes r (self fields src) l tt ->
  Writes r (pb_encode_submessage self fields src) (varint (u64 (Z.of_nat (length l))) ++ l) tt.
Proof.
  intros E Hw s Hs Hl. rewrite (submessage_counted fields src l s E). revert s Hs Hl.
  change (Writes (true && r) (counted (u64 (Z.of_nat (length l))) (sub_pass fields src (u64 (Z.of_nat (length l)))))
            (varint (u64 (Z.of_nat (length l))) ++ l) tt).
  eapply writes_bind; [apply writes_varint; by apply wrap_range |].
  apply writes_null_or; [done |]. intros s Hk Hs Hl. by apply sub_pass_writes.
Qed.

Lemma uniform_submessage fields src :
  Uniform (self fields src) -> Uniform (pb_encode_submessage self fields src).
Proof.
  intros Hself s b s' Hs Hk E.
  destruct (self fields src PB_OSTREAM_SIZING) as [[[] | | |] sub] eqn:Esub;
    try (unfold pb_encode_submessage, mbind, prog_bind at 1 in E; by rewrite Esub in E).
  destruct (Hself PB_OSTREAM_SIZING tt sub sizing_plain eq_refl Esub) as (l & r & -> & Hw).
  rewrite (submessage_counted fields src l s Esub) in E.
  assert (Uniform (counted (u64 (Z.of_nat (length l))) (sub_pass fields src (u64 (Z.of_nat (length l)))))) as Hc.
  { apply (uniform_counted r _ _ l eq_refl). intros. by apply sub_pass_writes. }
  destruct (Hc s b s' Hs Hk E) as (l' & r' & -> & Hw'). exists l', r'. split; [done |].
  intros s2 Hs2 Hl2. rewrite (submessage_counted fields src l s2 Esub). by apply Hw'.
Qed.

Context (Hself : forall id src, Uniform (self (descs id) src)).

Lemma field_at_typed fields i : Forall field_typed fields -> field_typed (field_at fields i).
Proof.
  intros Hf. unfold field_at. destruct (fields !! i) as [f |] eqn:E; [| by apply (bool_decide_unpack _)].
  simpl. by eapply Forall_lookup_1.
Qed.

Lemma uniform_encoders field src : field_typed field -> Uniform (PB_ENCODERS mem descs self field src).
Proof.
  intros Hf. unfold PB_ENCODERS. cbv zeta.
  repeat (apply uniform_if; [| try apply _]).
  - apply uniform_bind; [apply _ |]. intros b. unfold pb_enc_bool. apply uniform_varint. by destruct b.
  - apply uniform_enc_varint.
  - apply uniform_enc_uvarint.
  - apply uniform_enc_svarint.
  - apply uniform_enc_fixed32.
  - apply uniform_enc_fixed64.
  - apply uniform_enc_bytes.
  - by apply uniform_enc_string.
  - unfold pb_enc_submessage. destruct (f_ptr field); [apply _ | by apply uniform_submessage | apply _].
  - apply uniform_string. destruct Hf as (_ & Hd & _). lia.
Qed.

Lemma uniform_for_items n p k (f : Z -> M unit) :
  (forall p, Uniform (f p)) -> Uniform (for_items n p k f).
Proof.
  intros Hf. revert p. induction n as [| n IH]; intros p; simpl; [apply _ |].
  apply uniform_bind; [apply Hf | intros _; apply IH].
Qed.

Lemma writes_for_items n p k m (f : Z -> M unit) :
  (forall p, exists l r, length l = m /\ Writes r (f p) l tt) ->
  exists l r, length l = (n * m)%nat /\ Writes r (for_items n p k f) l tt.
Proof.
  intros Hf. revert p. induction n as [| n IH]; intros p; simpl.
  - exists [], true. split; [done | apply writes_pure].
  - destruct (Hf p) as (l1 & r1 & H1 & Hw1), (IH (p + k)) as (l2 & r2 & H2 & Hw2).
    exists (l1 ++ l2), (r1 && r2). split; [by rewrite length_app, H1, H2 | by eapply writes_bind].
Qed.

Lemma uniform_packed r size items l :
  size = u64 (Z.of_nat (length l)) -> Writes r items l tt ->
  Uniform (_ ← pb_encode_varint size; s ← getS; if is_null_sink s then pb_write [] size else items : M unit).
Proof.
  intros Hsize Hw. apply (uniform_counted r size (fun _ => items) l Hsize). intros s Hk Hs Hl.
  specialize (Hw s Hs Hl). destruct (items s) as [[[] | | |] s']; try done. destruct Hw as (? & _ & ? & Hr).
  split_and!; [done | done |]. destruct r; [done | by specialize (Hr eq_refl)].
Qed.

Lemma packed_size n m (l : list byte) :
  0 <= n < 2 ^ 32 -> 0 <= m <= 8 -> length l = (Z.to_nat n * Z.to_nat m)%nat ->
  m * n = u64 (Z.of_nat (length l)).
Proof. intros Hn Hm ->. rewrite wrap_small by nia. nia. Qed.

Lemma uniform_encode_array field data count :
  field_typed field -> 0 <= count < 2 ^ 32 ->
  Uniform (encode_array mem field data count (PB_ENCODERS mem descs self field)).
Proof.
  intros Hf Hc. unfold encode_array. apply uniform_if; [apply _ |]. apply uniform_if; [apply _ |].
  apply uniform_if.
  - apply uniform_bind; [apply uniform_tag; apply Hf |]. intros _.
    destruct (Z.eqb_spec (PB_LTYPE (f_type field)) PB_LTYPE_FIXED32) as [E | _];
      [| destruct (Z.eqb_spec (PB_LTYPE (f_type field)) PB_LTYPE_FIXED64) as [E | _]].
    + apply uniform_bind_ret.
      destruct (writes_for_items (Z.to_nat count) data (f_data_size field) 4 (PB_ENCODERS mem descs self field))
        as (l & r & Hl & Hw).
      { intros p. unfold PB_ENCODERS. rewrite E. apply writes_enc_fixed32. }
      apply (uniform_packed r _ _ l); [by apply packed_size | done].
    + apply uniform_bind_ret.
      destruct (writes_for_items (Z.to_nat count) data (f_data_size field) 8 (PB_ENCODERS mem descs self field))
        as (l & r & Hl & Hw).
      { intros p. unfold PB_ENCODERS. rewrite E. apply writes_enc_fixed64. }
      apply (uniform_packed r _ _ l); [by apply packed_size | done].
    + apply uniform_sized_bind; [apply uniform_for_items; intros p; by apply uniform_encoders |].
      intros l r size Hsize Hw. by apply (uniform_packed r _ _ l).
  - apply uniform_for_items. intros p. apply uniform_bind; [by apply uniform_tag_for_field |]. intros _.
    apply uniform_if; [apply uniform_bind; [apply _ |]; intros p' |]; by apply uniform_encoders.
Qed.

Lemma uniform_get_size_bind {B} a (f : Z -> M B) :
  (forall n, 0 <= n < 2 ^ 32 -> Uniform (f n)) -> Uniform (get_size mem a ≫= f).
Proof.
  intros Hf. unfold get_size, get_bytes. destruct (load mem a sizeof_size) as [l |] eqn:E; [| by intros s b s' _ _].
  apply load_length in E. pose proof (le_value_range l) as Hl. rewrite E in Hl. by apply (Hf (le_value l)).
Qed.

Lemma uniform_basic_field field data :
  field_typed field -> Uniform (encode_basic_field mem descs self fuel field data).
Proof.
  intros Hf. unfold encode_basic_field. cbv zeta.
  assert (forall data, Uniform (_ ← pb_encode_tag_for_field field; PB_ENCODERS mem descs self field data)) as Hwrite.
  { intros p. apply uniform_bind; [by apply uniform_tag_for_field | intros _; by apply uniform_encoders]. }
  apply uniform_bind; [apply uniform_if; [apply _ |]; apply uniform_if; apply _ |]. intros pSize.
  apply uniform_bind; [apply uniform_if; apply _ |]. intros [p size].
  apply uniform_if; [apply uniform_if; [apply _ | apply Hwrite] |].
  apply uniform_if; [apply uniform_bind; [destruct size; apply _ |]; intros b; apply uniform_if; [apply Hwrite | apply _] |].
  apply uniform_if.
  { apply uniform_if_bind; [destruct size as [a | b]; [apply uniform_get_size_bind | apply uniform_bind_stuck] |].
    - intros n Hn. by apply uniform_encode_array.
    - apply uniform_bind_ret, uniform_encode_array; [done | apply Hf]. }
  apply uniform_if; [| apply _].
  apply uniform_bind; [destruct size; apply _ |]. intros which. apply uniform_if; [apply Hwrite | apply _].
Qed.

Lemma uniform_field field data :
  field_typed field -> Uniform (encode_field mem descs user_encode self fuel field data).
Proof.
  intros Hf. unfold encode_field. cbv zeta. apply uniform_if; [by apply uniform_basic_field |].
  apply uniform_if; [| apply _]. unfold encode_callback_field.
  apply uniform_bind; [apply _ |]. intros func. apply uniform_if; [apply _ |]. by apply uniform_try.
Qed.

Lemma uniform_extensions n ext :
  Uniform (encode_extensions mem descs ext_types user_encode user_ext_encode self fuel n ext).
Proof.
  revert ext. induction n as [| n IH]; intros ext; simpl; (apply uniform_if; [apply _ |]); [apply _ |].
  apply uniform_bind; [apply _ |]. intros t. destruct (ext_types t) as [type |] eqn:Et; [| apply _].
  apply uniform_bind; [| intros _; apply uniform_bind; [apply _ | intros next; apply IH]].
  apply uniform_if; [apply Huser_ext |]. unfold default_extension_encoder. cbv zeta.
  assert (field_typed (field_at (et_arg type) 0)) by (apply field_at_typed; by eapply Hext).
  apply uniform_if; [by apply uniform_field |].
  apply uniform_bind; [apply _ | intros dest; by apply uniform_field].
Qed.

Lemma uniform_one fields p :
  Forall field_typed fields -> start p = fields ->
  Uniform (encode_one mem descs ext_types user_encode user_ext_encode self fuel p).
Proof.
  intros Hf Hp. unfold encode_one. apply uniform_if.
  - apply uniform_bind; [apply _ | intros ext; apply uniform_extensions].
  - apply uniform_field. unfold cur. rewrite Hp. by apply field_at_typed.
Qed.
End Level.

Lemma uniform_encode fuel fields src :
  Forall field_typed fields ->
  Uniform (pb_encode mem descs ext_types user_encode user_ext_encode fuel fields src).
Proof.
  revert fields src. induction fuel as [| fuel IH]; intros fields src Hf; cbn [pb_encode]; [apply _ |].
  unfold each_field_of. destruct (pb_field_iter_begin fields src) as [[] it] eqn:E; [| apply _].
  apply (uniform_each_field fields).
  - intros it' Hit. apply (uniform_one _ _ (fun id src => IH (descs id) src (Hdescs id)) fields); done.
  - unfold pb_field_iter_begin in E. by injection E as _ <-.
Qed.

Abbreviation encode fuel fields src := (pb_encode mem descs ext_types user_encode user_ext_encode fuel fields src).
Abbreviation encoded_size fuel fields src :=
  (pb_get_encoded_size mem descs ext_types user_encode user_ext_encode fuel fields src).
Abbreviation encode_delimited fuel fields src :=
  (pb_encode_delimited mem descs ext_types user_encode user_ext_encode fuel fields src).

(** What a second pass does on any buffer: it writes exactly [l] where there is room, and
    fails where there is not. *)
Definition second_pass (m : M unit) (l : list byte) : Prop :=
  forall s, plain s -> bytes_written s + Z.of_nat (length l) < 2 ^ 64 ->
    (fits l s -> m s = (Done tt, o_append l s)) /\ (~ fits l s -> (m s).1 = Failed).

Lemma size_counts fuel fields src n s s' :
  Forall field_typed fields -> encoded_size fuel fields src s = (Done n, s') ->
  exists l r, n = u64 (Z.of_nat (length l)) /\ Writes r (encode fuel fields src) l tt /\
    encode fuel fields src PB_OSTREAM_SIZING = (Done tt, o_append l PB_OSTREAM_SIZING).
Proof.
  intros Hf E. unfold pb_get_encoded_size, sized in E.
  destruct (encode fuel fields src PB_OSTREAM_SIZING) as [[[] | | |] st] eqn:Ee; try done.
  injection E as <- _.
  destruct (uniform_encode fuel fields src Hf PB_OSTREAM_SIZING tt st sizing_plain eq_refl Ee) as (l & r & -> & Hw).
  by exists l, r.
Qed.

Lemma writes_second_pass (m : M unit) l : Writes true m l tt -> second_pass m l.
Proof.
  intros Hw s Hs Hl. specialize (Hw s Hs Hl). destruct (m s) as [[[] | | |] s']; try done.
  destruct Hw as (Hfit & _ & -> & _). by split.
Qed.

(** A buffer of the size that was counted. *)
Lemma exact_buffer (l : list byte) :
  Z.of_nat (length l) < 2 ^ 64 ->
  plain (pb_ostream_from_buffer (Z.of_nat (length l)) : pb_ostream_t St) /\
  fits l (pb_ostream_from_buffer (Z.of_nat (length l)) : pb_ostream_t St).
Proof. intros Hl. unfold plain, ostream_ok, fits. simpl. split_and!; (done || lia). Qed.

(** C4: The two passes of the encoder agree.  If [pb_get_encoded_size] returns [n] for a
    message, and all that is to be written can be read (encoding into a buffer of [n] bytes
    is not an error of the program), there is one byte string of [n] bytes such that
    [pb_encode] on any stream over a buffer, and on a counting one, writes exactly it where
    there is room and fails where there is not, and [pb_encode_delimited] writes the size as
    a varint and the same bytes after it.  In particular neither runs out of fuel, and the
    size of a submessage never differs between its two passes ([submsg size changed]).
    The user's functions are assumed to write the same both times, as nanopb asks of them. *)
Theorem encoded_size_exact fuel fields src n s s' (Hf : Forall field_typed fields)
    (E : encoded_size fuel fields src s = (Done n, s'))
    (Hread : (encode fuel fields src (pb_ostream_from_buffer n)).1 <> Stuck) :
  exists l, n = u64 (Z.of_nat (length l)) /\
    second_pass (encode fuel fields src) l /\
    second_pass (encode_delimited fuel fields src) (varint n ++ l).
Proof.
  destruct (size_counts fuel fields src n s s' Hf E) as (l & r & -> & Hw & Hz). exists l. split; [done |].
  destruct (decide (Z.of_nat (length l) < 2 ^ 64)) as [Hl | Hl].
  - assert (r = true) as ->.
    { rewrite wrap_small in Hread by lia. destruct (exact_buffer l Hl) as [Hp Hfit].
      specialize (Hw _ Hp ltac:(simpl; lia)).
      destruct (encode _ _ _ _) as [[[] | | |] s1]; try done. destruct Hw as (_ & _ & _ & Hr).
      destruct r; [done | by specialize (Hr eq_refl)]. }
    split; [by apply writes_second_pass |]. apply writes_second_pass, writes_submessage; done.
  - split; intros s1 ((Hw1 & _) & _) Hl1; [| rewrite length_app in Hl1]; exfalso; lia.
Qed.
End Messages.
