(* ===== verification/PbHeader.v ===== *)
(** * The descriptor macros of [pb.h]

    A generated message is a C struct and an array of field descriptors, written with
    macros that take sizes and offsets from the struct.  The members of a struct are laid
    out here as on the targets of the app (each at the next multiple of its alignment),
    the macros are functions of that layout, and the iterator, which knows the descriptors
    only, is shown to visit every member at its offset. *)

From Stdlib Require Import String.
From stdpp Require Import strings.
From S2P Require Import Prelude PbStream PbWire PbMem PbIter PbLayout.

(** ** C structs *)

Inductive ctype : Type :=
  | Scalar (size : Z)
  | Pointer (to : ctype)
  | Array (elem : ctype) (n : Z)
  | Struct (name : string).

(** A member, or a union of members; the union is anonymous if its name is empty. *)
Inductive member : Type :=
  | Member (type : ctype) (name : string)
  | Union (name : string) (members : list (ctype * string)).

Definition c_bool := Scalar 1.
Definition c_char := Scalar 1.
Definition c_int32_t := Scalar 4.
Definition c_uint32_t := Scalar 4.
Definition c_enum := Scalar 4.
Definition c_float := Scalar 4.
Definition c_int64_t := Scalar 8.
Definition c_uint64_t := Scalar 8.
Definition c_double := Scalar 8.
Definition pb_size_t := Scalar 4.

(** [PB_BYTES_ARRAY_T(1)] and [pb_callback_t]. *)
Definition pb_bytes_array_t : list member :=
  [Member pb_size_t "size"; Member (Array c_char 1) "bytes"].
Definition pb_callback_t : list member :=
  [Member (Pointer c_char) "funcs"; Member (Pointer c_char) "arg"].

Definition round_up (n a : Z) : Z := (n + a - 1) / a * a.

Fixpoint assoc {A} (key : string) (l : list (string * A)) : option A :=
  match l with
  | [] => None
  | (k, v) :: l => if String.eqb key k then Some v else assoc key l
  end.

(** Size and alignment. *)
Definition extent : Type := Z * Z.

(** The path of a member, its offset and its type. *)
Definition slot : Type := string * (Z * ctype).

Section Structs.
Variable structs : list (string * list member).

Section Members.
Variable extent_of : ctype -> extent.

Definition extent_of_union (alts : list (ctype * string)) : extent :=
  foldr (fun t e => let '(s, a) := extent_of t.1 in (Z.max s e.1, Z.max a e.2)) (0, 1) alts.

Definition path (union_name name : string) : string :=
  if String.eqb union_name EmptyString then name else union_name ++ "." ++ name.

(** The members after the first [off] bytes of a struct with alignment [al] so far: their
    slots, and the size and alignment of the struct. *)
Fixpoint lay (ms : list member) (off al : Z) : list slot * extent :=
  match ms with
  | [] => ([], (round_up off al, al))
  | Member t name :: ms =>
      let '(s, a) := extent_of t in
      let o := round_up off a in
      let '(l, e) := lay ms (o + s) (Z.max al a) in ((name, (o, t)) :: l, e)
  | Union u alts :: ms =>
      let '(s, a) := extent_of_union alts in
      let o := round_up off a in
      let '(l, e) := lay ms (o + round_up s a) (Z.max al a) in
      (((fun t => (path u t.2, (o, t.1))) <$> alts) ++ l, e)
  end.
End Members.

(** Structs in structs: as deep as there are structs, at most. *)
Fixpoint extent_at (fuel : nat) : ctype -> extent :=
  fix go t :=
    match t with
    | Scalar n => (n, n)
    | Pointer _ => (8, 8)
    | Array t n => let '(s, a) := go t in (s * n, a)
    | Struct name =>
        match fuel, assoc name structs with
        | S fuel, Some ms => (lay (extent_at fuel) ms 0 1).2
        | _, _ => (0, 1)
        end
    end.

Definition sizeof (t : ctype) : Z := (extent_at (length structs) t).1.

Definition slots_of (st : string) : list slot :=
  match assoc st structs with
  | Some ms => (lay (extent_at (length structs)) ms 0 1).1
  | None => []
  end.

(** [offsetof(st, m)] and the type of [m]; [None] is an error of the compiler. *)
Definition member_at (st m : string) : option (Z * ctype) := assoc m (slots_of st).
Definition offsetof (st m : string) : option Z := fst <$> member_at st m.
Definition pb_membersize (st m : string) : option Z := (fun x => sizeof x.2) <$> member_at st m.

(** [pb_membersize(st, m[0])]. *)
Definition elem_size (st m : string) : option Z :=
  x ← member_at st m;
  match x.2 with Pointer t | Array t _ => Some (sizeof t) | _ => None end.
Definition pb_arraysize (st m : string) : option Z :=
  n ← pb_membersize st m; k ← elem_size st m; Some (n / k).
Definition pb_delta (st m1 m2 : string) : option Z :=
  a ← offsetof st m1; b ← offsetof st m2; Some (a - b).

(** ** The macros *)

Inductive pb_type : Type :=
  | BOOL | BYTES | DOUBLE | ENUM | UENUM | FIXED32 | FIXED64 | FLOAT | INT32 | INT64
  | MESSAGE | SFIXED32 | SFIXED64 | SINT32 | SINT64 | STRING | UINT32 | UINT64
  | EXTENSION | FIXED_LENGTH_BYTES.
Inductive pb_rules : Type := REQUIRED | OPTIONAL | SINGULAR | REPEATED | OPTEXT.
Inductive pb_allocation : Type := STATIC | POINTER | CALLBACK.
Inductive pb_placement : Type := FIRST | OTHER | UNION.

Definition PB_LTYPE_MAP (type : pb_type) : Z :=
  match type with
  | BOOL => PB_LTYPE_BOOL
  | BYTES => PB_LTYPE_BYTES
  | DOUBLE | FIXED64 | SFIXED64 => PB_LTYPE_FIXED64
  | ENUM | INT32 | INT64 => PB_LTYPE_VARINT
  | UENUM | UINT32 | UINT64 => PB_LTYPE_UVARINT
  | FIXED32 | FLOAT | SFIXED32 => PB_LTYPE_FIXED32
  | MESSAGE => PB_LTYPE_SUBMESSAGE
  | SINT32 | SINT64 => PB_LTYPE_SVARINT
  | STRING => PB_LTYPE_STRING
  | EXTENSION => PB_LTYPE_EXTENSION
  | FIXED_LENGTH_BYTES => PB_LTYPE_FIXED_LENGTH_BYTES
  end.

(** [PB_DATAOFFSET_FIRST], [_OTHER] and [_UNION], stored in a [pb_size_t]. *)
Definition PB_DATAOFFSET (placement : pb_placement) (st m1 m2 : string) : option Z :=
  match placement with
  | FIRST => o ← offsetof st m1; Some (wrap 32 o)
  | OTHER =>
      a ← offsetof st m1; b ← offsetof st m2; n ← pb_membersize st m2; Some (wrap 32 (a - b - n))
  | UNION => Some PB_SIZE_MAX
  end.

Definition sub_ptr (ids : list string) (ptr : option string) : option field_ptr :=
  match ptr with
  | None => Some PtrNull
  | Some name => x ← list_find (fun n => n = name) ids; Some (PtrFields x.1)
  end.

Variable ids : list string.

(** [PB_<rules>_<allocation>]. *)
Definition PB_RULES (rules : pb_rules) (allocation : pb_allocation) (tag : Z) (st m : string)
    (fd ltype : Z) (ptr : field_ptr) : option pb_field_t :=
  match rules, allocation with
  | REQUIRED, STATIC =>
      n ← pb_membersize st m;
      Some (mk_field tag (PB_ATYPE_STATIC .| PB_HTYPE_REQUIRED .| ltype) fd 0 n 0 ptr)
  | OPTIONAL, STATIC =>
      d ← pb_delta st ("has_" ++ m) m; n ← pb_membersize st m;
      Some (mk_field tag (PB_ATYPE_STATIC .| PB_HTYPE_OPTIONAL .| ltype) fd d n 0 ptr)
  | SINGULAR, STATIC =>
      n ← pb_membersize st m;
      Some (mk_field tag (PB_ATYPE_STATIC .| PB_HTYPE_OPTIONAL .| ltype) fd 0 n 0 ptr)
  | REPEATED, STATIC =>
      d ← pb_delta st (m ++ "_count") m; n ← elem_size st m; k ← pb_arraysize st m;
      Some (mk_field tag (PB_ATYPE_STATIC .| PB_HTYPE_REPEATED .| ltype) fd d n k ptr)
  | REQUIRED, POINTER =>
      n ← elem_size st m;
      Some (mk_field tag (PB_ATYPE_POINTER .| PB_HTYPE_REQUIRED .| ltype) fd 0 n 0 ptr)
  | OPTIONAL, POINTER | SINGULAR, POINTER | OPTEXT, POINTER =>
      n ← elem_size st m;
      Some (mk_field tag (PB_ATYPE_POINTER .| PB_HTYPE_OPTIONAL .| ltype) fd 0 n 0 ptr)
  | REPEATED, POINTER =>
      d ← pb_delta st (m ++ "_count") m; n ← elem_size st m;
      Some (mk_field tag (PB_ATYPE_POINTER .| PB_HTYPE_REPEATED .| ltype) fd d n 0 ptr)
  | REQUIRED, CALLBACK =>
      n ← pb_membersize st m;
      Some (mk_field tag (PB_ATYPE_CALLBACK .| PB_HTYPE_REQUIRED .| ltype) fd 0 n 0 ptr)
  | OPTIONAL, CALLBACK | SINGULAR, CALLBACK | OPTEXT, CALLBACK =>
      n ← pb_membersize st m;
      Some (mk_field tag (PB_ATYPE_CALLBACK .| PB_HTYPE_OPTIONAL .| ltype) fd 0 n 0 ptr)
  | REPEATED, CALLBACK =>
      n ← pb_membersize st m;
      Some (mk_field tag (PB_ATYPE_CALLBACK .| PB_HTYPE_REPEATED .| ltype) fd 0 n 0 ptr)
  | OPTEXT, STATIC =>
      n ← pb_membersize st m;
      Some (mk_field tag (PB_ATYPE_STATIC .| PB_HTYPE_REQUIRED .| ltype) 0 0 n 0 ptr)
  end.

(** [PB_ONEOF_<allocation>], and [PB_ANONYMOUS_ONEOF_<allocation>] where the path of the
    member has no name of the union. *)
Definition PB_ONEOF (allocation : pb_allocation) (u : string) (tag : Z) (st m : string)
    (fd ltype : Z) (ptr : field_ptr) : option pb_field_t :=
  match allocation with
  | STATIC =>
      d ← pb_delta st ("which_" ++ u) m; n ← pb_membersize st m;
      Some (mk_field tag (PB_ATYPE_STATIC .| PB_HTYPE_ONEOF .| ltype) fd d n 0 ptr)
  | POINTER =>
      d ← pb_delta st ("which_" ++ u) m; n ← elem_size st m;
      Some (mk_field tag (PB_ATYPE_POINTER .| PB_HTYPE_ONEOF .| ltype) fd d n 0 ptr)
  | CALLBACK => None
  end.

(** An entry of a descriptor array as it is written, and the descriptor it makes. *)
Inductive pb_decl : Type :=
  | PB_FIELD (tag : Z) (type : pb_type) (rules : pb_rules) (allocation : pb_allocation)
      (placement : pb_placement) (message field prevfield : string) (ptr : option string)
  | PB_REPEATED_FIXED_COUNT (tag : Z) (type : pb_type) (placement : pb_placement)
      (message field prevfield : string) (ptr : option string)
  | PB_ONEOF_FIELD (union_name : string) (tag : Z) (type : pb_type) (allocation : pb_allocation)
      (placement : pb_placement) (message field prevfield : string) (ptr : option string)
  | PB_ANONYMOUS_ONEOF_FIELD (union_name : string) (tag : Z) (type : pb_type)
      (allocation : pb_allocation) (placement : pb_placement)
      (message field prevfield : string) (ptr : option string).

Definition expand (d : pb_decl) : option pb_field_t :=
  match d with
  | PB_FIELD tag type rules allocation placement st m prev ptr =>
      fd ← PB_DATAOFFSET placement st m prev; p ← sub_ptr ids ptr;
      PB_RULES rules allocation tag st m fd (PB_LTYPE_MAP type) p
  | PB_REPEATED_FIXED_COUNT tag type placement st m prev ptr =>
      fd ← PB_DATAOFFSET placement st m prev; p ← sub_ptr ids ptr;
      n ← elem_size st m; k ← pb_arraysize st m;
      Some (mk_field tag (PB_ATYPE_STATIC .| PB_HTYPE_REPEATED .| PB_LTYPE_MAP type) fd 0 n k p)
  | PB_ONEOF_FIELD u tag type allocation placement st m prev ptr =>
      fd ← PB_DATAOFFSET placement st (u ++ "." ++ m) prev; p ← sub_ptr ids ptr;
      PB_ONEOF allocation u tag st (u ++ "." ++ m) fd (PB_LTYPE_MAP type) p
  | PB_ANONYMOUS_ONEOF_FIELD u tag type allocation placement st m prev ptr =>
      fd ← PB_DATAOFFSET placement st m prev; p ← sub_ptr ids ptr;
      PB_ONEOF allocation u tag st m fd (PB_LTYPE_MAP type) p
  end.

Definition fields_of (decls : list pb_decl) : option (list pb_field_t) := mapM expand decls.
End Structs.

(** ** The iterator and the members *)

Section Walk.
Variable structs : list (string * list member).
Variable ids : list string.

(** The struct, the path of the member, of its count or has or which member if there is
    one, and what its placement refers to. *)
Record view := mk_view {
  v_message : string;
  v_path : string;
  v_size : option string;
  v_oneof : bool;
  v_placement : pb_placement;
  v_prev : string;
}.

Definition size_member (rules : pb_rules) (allocation : pb_allocation) (m : string) : option string :=
  match rules, allocation with
  | OPTIONAL, STATIC => Some ("has_" ++ m)%string
  | REPEATED, STATIC | REPEATED, POINTER => Some (m ++ "_count")%string
  | _, _ => None
  end.

Definition view_of (d : pb_decl) : view :=
  match d with
  | PB_FIELD _ _ rules allocation placement st m prev _ =>
      mk_view st m (size_member rules allocation m) false placement prev
  | PB_REPEATED_FIXED_COUNT _ _ placement st m prev _ => mk_view st m None false placement prev
  | PB_ONEOF_FIELD u _ _ _ placement st m prev _ =>
      mk_view st (u ++ "." ++ m) (Some ("which_" ++ u)%string) true placement prev
  | PB_ANONYMOUS_ONEOF_FIELD u _ _ _ placement st m prev _ =>
      mk_view st m (Some ("which_" ++ u)%string) true placement prev
  end.

(** The place of a field is that of the members it was declared with. *)
Definition declared (d : pb_decl) (p : place) : Prop :=
  let v := view_of d in
  offsetof structs (v_message v) (v_path v) = Some (p_data p) /\
  offsetof structs (v_message v) (default (v_path v) (v_size v)) = Some (p_size p).

(** Arrays are of a type with a size; extension fields have no place in the struct. *)
Definition sane (d : pb_decl) : Prop :=
  match d with
  | PB_FIELD _ _ REPEATED STATIC _ st m _ _ | PB_REPEATED_FIXED_COUNT _ _ _ st m _ _ =>
      match member_at structs st m with
      | Some (_, Array t n) => sizeof structs t <> 0
      | _ => False
      end
  | PB_FIELD _ _ OPTEXT STATIC _ _ _ _ _ => False
  | PB_FIELD _ _ _ POINTER _ st m _ _ | PB_ONEOF_FIELD _ _ _ POINTER _ st m _ _
  | PB_ANONYMOUS_ONEOF_FIELD _ _ _ POINTER _ st m _ _ =>
      match member_at structs st (v_path (view_of d)) with Some (_, Pointer _) => True | _ => False end
  | _ => True
  end.

(** A declaration after another one: the member comes after that one, or is in the same
    union. *)
Definition linked (d1 d2 : pb_decl) : Prop :=
  let v1 := view_of d1 in let v2 := view_of d2 in
  v_message v2 = v_message v1 /\
  match v_placement v2 with
  | FIRST => False
  | OTHER =>
      v_prev v2 = v_path v1 /\
      match offsetof structs (v_message v1) (v_path v2), offsetof structs (v_message v1) (v_path v1),
            pb_membersize structs (v_message v1) (v_path v1) with
      | Some a, Some b, Some n => 0 <= a - b - n < PB_SIZE_MAX
      | _, _, _ => False
      end
  | UNION =>
      v_oneof v1 = true /\ v_oneof v2 = true /\ v_size v2 = v_size v1 /\
      offsetof structs (v_message v1) (v_path v2) = offsetof structs (v_message v1) (v_path v1)
  end.

Fixpoint all_linked (d : pb_decl) (decls : list pb_decl) : Prop :=
  match decls with
  | [] => True
  | d' :: decls => linked d d' /\ all_linked d' decls
  end.

(** The declarations of a message, in the order of its struct. *)
Definition in_order (decls : list pb_decl) : Prop :=
  Forall sane decls /\
  match decls with
  | [] => True
  | d :: decls =>
      v_placement (view_of d) = FIRST /\
      match offsetof structs (v_message (view_of d)) (v_path (view_of d)) with
      | Some o => 0 <= o < 2 ^ 32
      | None => False
      end /\ all_linked d decls
  end.

#[export] Instance sane_dec d : Decision (sane d).
Proof.
  destruct d as [? ? [] [] ? | | ? ? ? [] | ? ? ? []]; simpl; try apply _;
    destruct (member_at _ _ _) as [[? []] |]; apply _.
Defined.

#[export] Instance linked_dec d1 d2 : Decision (linked d1 d2).
Proof.
  unfold linked. apply and_dec; [apply _ |].
  destruct (v_placement _); [apply _ | | apply _]. apply and_dec; [apply _ |].
  do 2 (destruct (offsetof _ _ _); [| apply _]). destruct (pb_membersize _ _ _); apply _.
Defined.

#[export] Instance all_linked_dec d decls : Decision (all_linked d decls).
Proof. revert d. induction decls as [| d' decls IH]; intros d; simpl; apply _. Defined.

#[export] Instance in_order_dec decls : Decision (in_order decls).
Proof.
  unfold in_order. apply and_dec; [apply _ |]. destruct decls as [| d decls]; [apply _ |].
  apply and_dec; [unfold Decision; decide equality |]. apply and_dec; [| apply _].
  destruct (offsetof _ _ _); apply _.
Defined.

(** The bits of a descriptor's type. *)
Lemma type_bits type a h :
  a ∈ [PB_ATYPE_STATIC; PB_ATYPE_CALLBACK; PB_ATYPE_POINTER] ->
  h ∈ [PB_HTYPE_REQUIRED; PB_HTYPE_OPTIONAL; PB_HTYPE_REPEATED; PB_HTYPE_ONEOF] ->
  PB_ATYPE (a .| h .| PB_LTYPE_MAP type) = a /\ PB_HTYPE (a .| h .| PB_LTYPE_MAP type) = h.
Proof.
  intros Ha Hh.
  repeat match goal with
  | H : _ ∈ [] |- _ => apply elem_of_nil in H; destruct H
  | H : _ ∈ _ :: _ |- _ => apply elem_of_cons in H as [-> | H]
  end; by destruct type.
Qed.

Lemma membersize_offset st m n :
  pb_membersize structs st m = Some n -> exists o, offsetof structs st m = Some o.
Proof. unfold pb_membersize, offsetof. destruct (member_at _ _ _); [by eexists | done]. Qed.

Lemma delta_offset st m1 m2 d o :
  pb_delta structs st m1 m2 = Some d -> offsetof structs st m2 = Some o ->
  offsetof structs st m1 = Some (o + d).
Proof.
  unfold pb_delta. intros H Ho. rewrite Ho in H.
  destruct (offsetof structs st m1); simplify_eq/=. f_equal. lia.
Qed.

Lemma delta_offset_r st m1 m2 d :
  pb_delta structs st m1 m2 = Some d -> exists o, offsetof structs st m2 = Some o.
Proof.
  unfold pb_delta. destruct (offsetof structs st m1), (offsetof structs st m2); naive_solver.
Qed.

Lemma sizeof_pointer t : sizeof structs (Pointer t) = 8.
Proof. unfold sizeof. by destruct (length structs). Qed.

Lemma sizeof_array t n : sizeof structs (Array t n) = sizeof structs t * n.
Proof. unfold sizeof. destruct (length structs); simpl; by destruct (_ t). Qed.

Lemma pointer_member st m n :
  match member_at structs st m with Some (_, Pointer _) => True | _ => False end ->
  elem_size structs st m = Some n ->
  pb_membersize structs st m = Some 8 /\ exists o, offsetof structs st m = Some o.
Proof.
  unfold elem_size, pb_membersize, offsetof.
  destruct (member_at structs st m) as [[o []] |]; try done. intros _ _. simpl.
  rewrite sizeof_pointer. split; [done | by eexists].
Qed.

Lemma array_member st m n k :
  match member_at structs st m with
  | Some (_, Array t _) => sizeof structs t <> 0
  | _ => False
  end ->
  elem_size structs st m = Some n -> pb_arraysize structs st m = Some k ->
  pb_membersize structs st m = Some (n * k) /\ exists o, offsetof structs st m = Some o.
Proof.
  unfold pb_arraysize, elem_size, pb_membersize, offsetof.
  destruct (member_at structs st m) as [[o []] |]; try done. simpl. intros Hn ? ?. simplify_eq/=.
  split; [| by eexists]. rewrite sizeof_array, (Z.mul_comm (sizeof structs elem)), Z.div_mul; [f_equal; lia | done].
Qed.

(** What a descriptor says of the members it was made from. *)
Definition describes (d : pb_decl) (f : pb_field_t) : Prop :=
  let v := view_of d in
  (exists o, offsetof structs (v_message v) (v_path v) = Some o /\
     offsetof structs (v_message v) (default (v_path v) (v_size v)) = Some (o + f_size_offset f)) /\
  pb_membersize structs (v_message v) (v_path v) = Some (prev_size f) /\
  PB_DATAOFFSET structs (v_placement v) (v_message v) (v_path v) (v_prev v) = Some (f_data_offset f) /\
  (PB_HTYPE (f_type f) =? PB_HTYPE_ONEOF) = v_oneof v.

Ltac binds :=
  repeat match goal with
  | H : _ ≫= _ = Some _ |- _ => let E := fresh "E" in apply bind_Some in H as (? & E & H)
  end.

Ltac type_bits type :=
  repeat match goal with
  | |- context [PB_ATYPE (?a .| ?h .| PB_LTYPE_MAP type)] =>
      rewrite (proj1 (type_bits type a h ltac:(repeat constructor) ltac:(repeat constructor)))
  | |- context [PB_HTYPE (?a .| ?h .| PB_LTYPE_MAP type)] =>
      rewrite (proj2 (type_bits type a h ltac:(repeat constructor) ltac:(repeat constructor)))
  end.

Lemma expand_describes d f : sane d -> expand structs ids d = Some f -> describes d f.
Proof.
  intros Hs He. unfold describes, prev_size.
  destruct d as [tag type rules al pl st m prev ptr | tag type pl st m prev ptr
    | u tag type al pl st m prev ptr | u tag type al pl st m prev ptr];
    simpl in He; [destruct rules, al | | destruct al | destruct al]; try done; simpl in Hs;
    binds; simpl in He; binds; simplify_eq/=; type_bits type; simpl;
    repeat match goal with
    | E : elem_size _ _ _ = Some _ |- _ => destruct (pointer_member _ _ _ Hs E) as [-> [o Ho]]; clear E
    | E : elem_size _ _ _ = Some _, E' : pb_arraysize _ _ _ = Some _ |- _ =>
        destruct (array_member _ _ _ _ Hs E E') as [-> [o Ho]]; clear E
    | E : pb_membersize _ _ _ = Some _ |- _ => rewrite E; destruct (membersize_offset _ _ _ E) as [o Ho]; clear E
    end; (split; [exists o; split; [done |] | split_and!; try done]);
    try rewrite Z.add_0_r; try done; try by eapply delta_offset.
Qed.

Lemma describes_declared d f o :
  describes d f -> offsetof structs (v_message (view_of d)) (v_path (view_of d)) = Some o ->
  declared d (mk_place f o (o + f_size_offset f)).
Proof.
  intros ((o' & Ho & Hs) & _) Ho'. rewrite Ho in Ho'. injection Ho' as ->. by split.
Qed.

(** One step of the iterator. *)
Lemma linked_declared d1 d2 p f :
  describes d1 (p_field p) -> describes d2 f -> linked d1 d2 -> declared d1 p ->
  declared d2 (next_place p f).
Proof.
  intros (_ & Hn & _ & H1) ((o & Ho & Hs) & _ & Hfd & H2) [Hm Hl] [Hp Hps].
  unfold next_place, in_union. rewrite H1, H2.
  unfold PB_DATAOFFSET in Hfd. rewrite Hm in *.
  destruct (v_placement (view_of d2)); [done | |].
  - destruct Hl as [Hprev Hgap]. rewrite Hprev, Ho, Hp, Hn in Hfd. rewrite Ho, Hp, Hn in Hgap.
    simpl in Hfd. rewrite wrap_small in Hfd by (unfold PB_SIZE_MAX in Hgap; lia).
    injection Hfd as Hfd. destruct (Z.eqb_spec (f_data_offset f) PB_SIZE_MAX); [lia |].
    rewrite andb_false_r. unfold declared. rewrite Hm. simpl.
    replace (p_data p + prev_size (p_field p) + f_data_offset f) with o by lia. by split.
  - destruct Hl as (-> & -> & Hsz & Hoff). injection Hfd as Hfd. rewrite <- Hfd, Z.eqb_refl. simpl.
    unfold declared. rewrite Hm. simpl. rewrite Hoff, Hp. split; [done |].
    rewrite <- Hps. rewrite Hsz. by destruct (v_size (view_of d1)); simpl; [| rewrite Hoff].
Qed.

Lemma places_declared d p decls fields :
  Forall2 describes decls fields -> describes d (p_field p) -> all_linked d decls -> declared d p ->
  Forall2 declared decls (places p fields).
Proof.
  intros Hd. revert d p. induction Hd as [| d' f decls fields Hf Hd IH]; intros d p Hp Hl Hdp; simpl; [constructor |].
  destruct Hl as [Hl Hls]. assert (declared d' (next_place p f)) as Hn by (by eapply linked_declared).
  constructor; [done |]. eapply IH; [| done..]. unfold next_place. by destruct (in_union _ _).
Qed.

(** The walk of [pb_message_set_to_defaults], [pb_release] and the encoder over a message,
    with a function that notes where the iterator stands. *)
Definition walk (fields : list pb_field_t) (dest : Z) : prog (list pb_field_iter_t) unit :=
  each_field_of fields dest (fun iter => modifyS (fun seen => seen ++ [iter])).

(** The iterator stands at the descriptor of the declaration, its pointers at the members
    it was declared with, in the struct at [dest]. *)
Definition visits (dest : Z) (d : pb_decl) (iter : pb_field_iter_t) : Prop :=
  let v := view_of d in
  expand structs ids d = Some (cur iter) /\
  offsetof structs (v_message v) (v_path v) = Some (pData iter - dest) /\
  exists o, offsetof structs (v_message v) (default (v_path v) (v_size v)) = Some o /\
    pSize iter = SizeAt (dest + o).

Lemma layout_declared decls fields :
  in_order decls -> fields_of structs ids decls = Some fields ->
  Forall2 declared decls (layout fields).
Proof.
  intros [Hs Ho] Hf. apply mapM_Some in Hf.
  assert (Forall2 describes decls fields) as Hd.
  { clear Ho. induction Hf; inversion Hs; subst; constructor; [by apply expand_describes | by apply IHHf]. }
  destruct Hd as [| d f decls fields Hdf Hd]; [constructor |]. simpl.
  destruct Ho as (Hp & Hoff & Hl).
  assert (declared d (first_place f)) as Hfirst.
  { destruct (offsetof _ _ _) as [o |] eqn:E; [| done].
    pose proof Hdf as (_ & _ & Hfd & _). rewrite Hp in Hfd. simpl in Hfd. rewrite E in Hfd. simpl in Hfd.
    rewrite wrap_small in Hfd by done. injection Hfd as ->. by apply describes_declared. }
  constructor; [done |]. by eapply places_declared.
Qed.

Lemma declared_visits fields dest i d p :
  layout fields !! i = Some p -> expand structs ids d = Some (p_field p) -> declared d p ->
  visits dest d (iter_at fields dest i p).
Proof.
  intros Hp He [Ho Hs]. unfold visits. rewrite (cur_iter_at fields dest i p Hp). cbn [iter_at pData pSize].
  split_and!; [done | rewrite Ho; f_equal; lia | by exists (p_size p)].
Qed.

Lemma each_place_visits fields dest i decls l seen :
  drop i (layout fields) = l -> Forall2 (fun d p => expand structs ids d = Some (p_field p)) decls l ->
  Forall2 declared decls l ->
  exists its, each_place fields dest (fun iter => modifyS (fun seen => seen ++ [iter])) i l seen
              = (Done tt, seen ++ its) /\ Forall2 (visits dest) decls its.
Proof.
  intros Hl He. revert i Hl seen. induction He as [| d p decls l Hdp He IH]; intros i Hl seen Hd.
  { exists []. by rewrite app_nil_r. }
  inversion Hd as [| ? ? ? ? Hdp' Hd']; subst.
  assert (layout fields !! i = Some p) as Hp by (by rewrite <- (Nat.add_0_r i), <- lookup_drop, Hl).
  assert (drop (S i) (layout fields) = l) as Hl' by (by rewrite <- Nat.add_1_r, <- drop_drop, Hl).
  destruct (IH (S i) Hl' (seen ++ [iter_at fields dest i p]) Hd') as (its & Hw & Hv).
  exists (iter_at fields dest i p :: its). split.
  - etransitivity; [exact Hw | by rewrite <- app_assoc].
  - constructor; [by apply declared_visits | done].
Qed.

(** C5: The iterator and the descriptor macros agree: for a message declared in the order
    of its struct, the walk of [pb_field_iter_begin] and [pb_field_iter_next] over the
    descriptors that [PB_FIELD] and the oneof macros make ends after one stop for every
    declaration, in their order; there the iterator is at the descriptor of the
    declaration, its [pData] points to the member it names and its [pSize] to the count,
    has or which member, whatever the sizes, padding, unions and nested structs. *)
Theorem iterator_visits_members decls fields dest
    (Ho : in_order decls) (Hf : fields_of structs ids decls = Some fields)
    (Hok : fields_ok fields) (Hdest : dest <> 0) :
  exists its, walk fields dest [] = (Done tt, its) /\ Forall2 (visits dest) decls its.
Proof.
  pose proof (layout_declared decls fields Ho Hf) as Hd. apply mapM_Some in Hf.
  unfold walk. rewrite each_field_of_places by done.
  apply (each_place_visits fields dest 0 decls (layout fields) []); [by rewrite drop_0 | | done].
  rewrite <- (layout_field fields), Forall2_fmap_r in Hf. exact Hf.
Qed.
End Walk.
