(* ===== verification/FirestoreProtos.v ===== *)
(** * The messages of Firestore

    The structs that nanopb generated for the messages of Cloud Firestore, and their
    descriptor arrays, as they stand under [Firestore/Protos/nanopb]: one definition for
    every struct ([..nanopb.h]) and one for every descriptor array ([..nanopb.cc]).  The
    annotations of [google/api] and the empty message are left out. *)

From Stdlib Require Import String.
From S2P Require Import Prelude PbHeader.

Local Open Scope string_scope.

Abbreviation bytes_ptr := (Pointer (Struct "pb_bytes_array_t")).
Abbreviation anonymous := EmptyString.

(** ** [firestore/bundle] *)

Definition firestore_BundledQuery : list member :=
  [ Member bytes_ptr "parent";
    Member pb_size_t "which_query_type";
    Union anonymous
      [ (Struct "google_firestore_v1_StructuredQuery", "structured_query") ];
    Member c_enum "limit_type" ].

Definition firestore_BundledQuery_fields : list pb_decl :=
  [ PB_FIELD 1 BYTES SINGULAR POINTER FIRST "firestore_BundledQuery" "parent" "parent" None;
    PB_ANONYMOUS_ONEOF_FIELD "query_type" 2 MESSAGE STATIC OTHER "firestore_BundledQuery" "structured_query" "parent" (Some "google_firestore_v1_StructuredQuery");
    PB_FIELD 3 UENUM SINGULAR STATIC OTHER "firestore_BundledQuery" "limit_type" "structured_query" None ].

Definition firestore_NamedQuery : list member :=
  [ Member bytes_ptr "name";
    Member (Struct "firestore_BundledQuery") "bundled_query";
    Member (Struct "google_protobuf_Timestamp") "read_time" ].

Definition firestore_NamedQuery_fields : list pb_decl :=
  [ PB_FIELD 1 BYTES SINGULAR POINTER FIRST "firestore_NamedQuery" "name" "name" None;
    PB_FIELD 2 MESSAGE SINGULAR STATIC OTHER "firestore_NamedQuery" "bundled_query" "name" (Some "firestore_BundledQuery");
    PB_FIELD 3 MESSAGE SINGULAR STATIC OTHER "firestore_NamedQuery" "read_time" "bundled_query" (Some "google_protobuf_Timestamp") ].

Definition firestore_BundledDocumentMetadata : list member :=
  [ Member bytes_ptr "name";
    Member (Struct "google_protobuf_Timestamp") "read_time";
    Member c_bool "exists";
    Member pb_size_t "queries_count";
    Member (Pointer bytes_ptr) "queries" ].

Definition firestore_BundledDocumentMetadata_fields : list pb_decl :=
  [ PB_FIELD 1 BYTES SINGULAR POINTER FIRST "firestore_BundledDocumentMetadata" "name" "name" None;
    PB_FIELD 2 MESSAGE SINGULAR STATIC OTHER "firestore_BundledDocumentMetadata" "read_time" "name" (Some "google_protobuf_Timestamp");
    PB_FIELD 3 BOOL SINGULAR STATIC OTHER "firestore_BundledDocumentMetadata" "exists" "read_time" None;
    PB_FIELD 4 BYTES REPEATED POINTER OTHER "firestore_BundledDocumentMetadata" "queries" "exists" None ].

Definition firestore_BundleMetadata : list member :=
  [ Member bytes_ptr "id";
    Member (Struct "google_protobuf_Timestamp") "create_time";
    Member c_uint32_t "version";
    Member c_uint32_t "total_documents";
    Member c_uint64_t "total_bytes" ].

Definition firestore_BundleMetadata_fields : list pb_decl :=
  [ PB_FIELD 1 BYTES SINGULAR POINTER FIRST "firestore_BundleMetadata" "id" "id" None;
    PB_FIELD 2 MESSAGE SINGULAR STATIC OTHER "firestore_BundleMetadata" "create_time" "id" (Some "google_protobuf_Timestamp");
    PB_FIELD 3 UINT32 SINGULAR STATIC OTHER "firestore_BundleMetadata" "version" "create_time" None;
    PB_FIELD 4 UINT32 SINGULAR STATIC OTHER "firestore_BundleMetadata" "total_documents" "version" None;
    PB_FIELD 5 UINT64 SINGULAR STATIC OTHER "firestore_BundleMetadata" "total_bytes" "total_documents" None ].

Definition firestore_BundleElement : list member :=
  [ Member pb_size_t "which_element_type";
    Union anonymous
      [ (Struct "firestore_BundleMetadata", "metadata");
        (Struct "firestore_NamedQuery", "named_query");
        (Struct "firestore_BundledDocumentMetadata", "document_metadata");
        (Struct "google_firestore_v1_Document", "document") ] ].

Definition firestore_BundleElement_fields : list pb_decl :=
  [ PB_ANONYMOUS_ONEOF_FIELD "element_type" 1 MESSAGE STATIC FIRST "firestore_BundleElement" "metadata" "metadata" (Some "firestore_BundleMetadata");
    PB_ANONYMOUS_ONEOF_FIELD "element_type" 2 MESSAGE STATIC UNION "firestore_BundleElement" "named_query" "named_query" (Some "firestore_NamedQuery");
    PB_ANONYMOUS_ONEOF_FIELD "element_type" 3 MESSAGE STATIC UNION "firestore_BundleElement" "document_metadata" "document_metadata" (Some "firestore_BundledDocumentMetadata");
    PB_ANONYMOUS_ONEOF_FIELD "element_type" 4 MESSAGE STATIC UNION "firestore_BundleElement" "document" "document" (Some "google_firestore_v1_Document") ].

(** ** [firestore/local/maybe_document] *)

Definition firestore_client_NoDocument : list member :=
  [ Member bytes_ptr "name";
    Member (Struct "google_protobuf_Timestamp") "read_time" ].

Definition firestore_client_NoDocument_fields : list pb_decl :=
  [ PB_FIELD 1 BYTES SINGULAR POINTER FIRST "firestore_client_NoDocument" "name" "name" None;
    PB_FIELD 2 MESSAGE SINGULAR STATIC OTHER "firestore_client_NoDocument" "read_time" "name" (Some "google_protobuf_Timestamp") ].

Definition firestore_client_UnknownDocument : list member :=
  [ Member bytes_ptr "name";
    Member (Struct "google_protobuf_Timestamp") "version" ].

Definition firestore_client_UnknownDocument_fields : list pb_decl :=
  [ PB_FIELD 1 BYTES SINGULAR POINTER FIRST "firestore_client_UnknownDocument" "name" "name" None;
    PB_FIELD 2 MESSAGE SINGULAR STATIC OTHER "firestore_client_UnknownDocument" "version" "name" (Some "google_protobuf_Timestamp") ].

Definition firestore_client_MaybeDocument : list member :=
  [ Member pb_size_t "which_document_type";
    Union anonymous
      [ (Struct "firestore_client_NoDocument", "no_document");
        (Struct "google_firestore_v1_Document", "document");
        (Struct "firestore_client_UnknownDocument", "unknown_document") ];
    Member c_bool "has_committed_mutations" ].

Definition firestore_client_MaybeDocument_fields : list pb_decl :=
  [ PB_ANONYMOUS_ONEOF_FIELD "document_type" 1 MESSAGE STATIC FIRST "firestore_client_MaybeDocument" "no_document" "no_document" (Some "firestore_client_NoDocument");
    PB_ANONYMOUS_ONEOF_FIELD "document_type" 2 MESSAGE STATIC UNION "firestore_client_MaybeDocument" "document" "document" (Some "google_firestore_v1_Document");
    PB_ANONYMOUS_ONEOF_FIELD "document_type" 3 MESSAGE STATIC UNION "firestore_client_MaybeDocument" "unknown_document" "unknown_document" (Some "firestore_client_UnknownDocument");
    PB_FIELD 4 BOOL SINGULAR STATIC OTHER "firestore_client_MaybeDocument" "has_committed_mutations" "unknown_document" None ].

(** ** [firestore/local/mutation] *)

Definition firestore_client_MutationQueue : list member :=
  [ Member c_int32_t "last_acknowledged_batch_id";
    Member bytes_ptr "last_stream_token" ].

Definition firestore_client_MutationQueue_fields : list pb_decl :=
  [ PB_FIELD 1 INT32 SINGULAR STATIC FIRST "firestore_client_MutationQueue" "last_acknowledged_batch_id" "last_acknowledged_batch_id" None;
    PB_FIELD 2 BYTES SINGULAR POINTER OTHER "firestore_client_MutationQueue" "last_stream_token" "last_acknowledged_batch_id" None ].

Definition firestore_client_WriteBatch : list member :=
  [ Member c_int32_t "batch_id";
    Member pb_size_t "writes_count";
    Member (Pointer (Struct "google_firestore_v1_Write")) "writes";
    Member (Struct "google_protobuf_Timestamp") "local_write_time";
    Member pb_size_t "base_writes_count";
    Member (Pointer (Struct "google_firestore_v1_Write")) "base_writes" ].

Definition firestore_client_WriteBatch_fields : list pb_decl :=
  [ PB_FIELD 1 INT32 SINGULAR STATIC FIRST "firestore_client_WriteBatch" "batch_id" "batch_id" None;
    PB_FIELD 2 MESSAGE REPEATED POINTER OTHER "firestore_client_WriteBatch" "writes" "batch_id" (Some "google_firestore_v1_Write");
    PB_FIELD 3 MESSAGE SINGULAR STATIC OTHER "firestore_client_WriteBatch" "local_write_time" "writes" (Some "google_protobuf_Timestamp");
    PB_FIELD 4 MESSAGE REPEATED POINTER OTHER "firestore_client_WriteBatch" "base_writes" "local_write_time" (Some "google_firestore_v1_Write") ].

(** ** [firestore/local/target] *)

Definition firestore_client_Target : list member :=
  [ Member c_int32_t "target_id";
    Member (Struct "google_protobuf_Timestamp") "snapshot_version";
    Member bytes_ptr "resume_token";
    Member c_int64_t "last_listen_sequence_number";
    Member pb_size_t "which_target_type";
    Union anonymous
      [ (Struct "google_firestore_v1_Target_QueryTarget", "query");
        (Struct "google_firestore_v1_Target_DocumentsTarget", "documents") ];
    Member (Struct "google_protobuf_Timestamp") "last_limbo_free_snapshot_version" ].

Definition firestore_client_Target_fields : list pb_decl :=
  [ PB_FIELD 1 INT32 SINGULAR STATIC FIRST "firestore_client_Target" "target_id" "target_id" None;
    PB_FIELD 2 MESSAGE SINGULAR STATIC OTHER "firestore_client_Target" "snapshot_version" "target_id" (Some "google_protobuf_Timestamp");
    PB_FIELD 3 BYTES SINGULAR POINTER OTHER "firestore_client_Target" "resume_token" "snapshot_version" None;
    PB_FIELD 4 INT64 SINGULAR STATIC OTHER "firestore_client_Target" "last_listen_sequence_number" "resume_token" None;
    PB_ANONYMOUS_ONEOF_FIELD "target_type" 5 MESSAGE STATIC OTHER "firestore_client_Target" "query" "last_listen_sequence_number" (Some "google_firestore_v1_Target_QueryTarget");
    PB_ANONYMOUS_ONEOF_FIELD "target_type" 6 MESSAGE STATIC UNION "firestore_client_Target" "documents" "last_listen_sequence_number" (Some "google_firestore_v1_Target_DocumentsTarget");
    PB_FIELD 7 MESSAGE SINGULAR STATIC OTHER "firestore_client_Target" "last_limbo_free_snapshot_version" "documents" (Some "google_protobuf_Timestamp") ].

Definition firestore_client_TargetGlobal : list member :=
  [ Member c_int32_t "highest_target_id";
    Member c_int64_t "highest_listen_sequence_number";
    Member (Struct "google_protobuf_Timestamp") "last_remote_snapshot_version";
    Member c_int32_t "target_count" ].

Definition firestore_client_TargetGlobal_fields : list pb_decl :=
  [ PB_FIELD 1 INT32 SINGULAR STATIC FIRST "firestore_client_TargetGlobal" "highest_target_id" "highest_target_id" None;
    PB_FIELD 2 INT64 SINGULAR STATIC OTHER "firestore_client_TargetGlobal" "highest_listen_sequence_number" "highest_target_id" None;
    PB_FIELD 3 MESSAGE SINGULAR STATIC OTHER "firestore_client_TargetGlobal" "last_remote_snapshot_version" "highest_listen_sequence_number" (Some "google_protobuf_Timestamp");
    PB_FIELD 4 INT32 SINGULAR STATIC OTHER "firestore_client_TargetGlobal" "target_count" "last_remote_snapshot_version" None ].

(** ** [google/firestore/admin/index] *)

Definition google_firestore_admin_v1_Index : list member :=
  [ Member bytes_ptr "name";
    Member c_enum "query_scope";
    Member pb_size_t "fields_count";
    Member (Pointer (Struct "google_firestore_admin_v1_Index_IndexField")) "fields";
    Member c_enum "state" ].

Definition google_firestore_admin_v1_Index_fields : list pb_decl :=
  [ PB_FIELD 1 BYTES SINGULAR POINTER FIRST "google_firestore_admin_v1_Index" "name" "name" None;
    PB_FIELD 2 UENUM SINGULAR STATIC OTHER "google_firestore_admin_v1_Index" "query_scope" "name" None;
    PB_FIELD 3 MESSAGE REPEATED POINTER OTHER "google_firestore_admin_v1_Index" "fields" "query_scope" (Some "google_firestore_admin_v1_Index_IndexField");
    PB_FIELD 4 UENUM SINGULAR STATIC OTHER "google_firestore_admin_v1_Index" "state" "fields" None ].

Definition google_firestore_admin_v1_Index_IndexField : list member :=
  [ Member bytes_ptr "field_path";
    Member pb_size_t "which_value_mode";
    Union anonymous
      [ (c_enum, "order");
        (c_enum, "array_config") ] ].

Definition google_firestore_admin_v1_Index_IndexField_fields : list pb_decl :=
  [ PB_FIELD 1 BYTES SINGULAR POINTER FIRST "google_firestore_admin_v1_Index_IndexField" "field_path" "field_path" None;
    PB_ANONYMOUS_ONEOF_FIELD "value_mode" 2 UENUM STATIC OTHER "google_firestore_admin_v1_Index_IndexField" "order" "field_path" None;
    PB_ANONYMOUS_ONEOF_FIELD "value_mode" 3 UENUM STATIC UNION "google_firestore_admin_v1_Index_IndexField" "array_config" "field_path" None ].

(** ** [google/firestore/v1/common] *)

Definition google_firestore_v1_DocumentMask : list member :=
  [ Member pb_size_t "field_paths_count";
    Member (Pointer bytes_ptr) "field_paths" ].

Definition google_firestore_v1_DocumentMask_fields : list pb_decl :=
  [ PB_FIELD 1 BYTES REPEATED POINTER FIRST "google_firestore_v1_DocumentMask" "field_paths" "field_paths" None ].

Definition google_firestore_v1_Precondition : list member :=
  [ Member pb_size_t "which_condition_type";
    Union anonymous
      [ (c_bool, "exists");
        (Struct "google_protobuf_Timestamp", "update_time") ] ].

Definition google_firestore_v1_Precondition_fields : list pb_decl :=
  [ PB_ANONYMOUS_ONEOF_FIELD "condition_type" 1 BOOL STATIC FIRST "google_firestore_v1_Precondition" "exists" "exists" None;
    PB_ANONYMOUS_ONEOF_FIELD "condition_type" 2 MESSAGE STATIC UNION "google_firestore_v1_Precondition" "update_time" "update_time" (Some "google_protobuf_Timestamp") ].

Definition google_firestore_v1_TransactionOptions : list member :=
  [ Member pb_size_t "which_mode";
    Union anonymous
      [ (Struct "google_firestore_v1_TransactionOptions_ReadOnly", "read_only");
        (Struct "google_firestore_v1_TransactionOptions_ReadWrite", "read_write") ] ].

Definition google_firestore_v1_TransactionOptions_fields : list pb_decl :=
  [ PB_ANONYMOUS_ONEOF_FIELD "mode" 2 MESSAGE STATIC FIRST "google_firestore_v1_TransactionOptions" "read_only" "read_only" (Some "google_firestore_v1_TransactionOptions_ReadOnly");
    PB_ANONYMOUS_ONEOF_FIELD "mode" 3 MESSAGE STATIC UNION "google_firestore_v1_TransactionOptions" "read_write" "read_write" (Some "google_firestore_v1_TransactionOptions_ReadWrite") ].

Definition google_firestore_v1_TransactionOptions_ReadWrite : list member :=
  [ Member bytes_ptr "retry_transaction" ].

Definition google_firestore_v1_TransactionOptions_ReadWrite_fields : list pb_decl :=
  [ PB_FIELD 1 BYTES SINGULAR POINTER FIRST "google_firestore_v1_TransactionOptions_ReadWrite" "retry_transaction" "retry_transaction" None ].

Definition google_firestore_v1_TransactionOptions_ReadOnly : list member :=
  [ Member pb_size_t "which_consistency_selector";
    Union anonymous
      [ (Struct "google_protobuf_Timestamp", "read_time") ] ].

Definition google_firestore_v1_TransactionOptions_ReadOnly_fields : list pb_decl :=
  [ PB_ANONYMOUS_ONEOF_FIELD "consistency_selector" 2 MESSAGE STATIC FIRST "google_firestore_v1_TransactionOptions_ReadOnly" "read_time" "read_time" (Some "google_protobuf_Timestamp") ].

(** ** [google/firestore/v1/document] *)

Definition google_firestore_v1_Document : list member :=
  [ Member bytes_ptr "name";
    Member pb_size_t "fields_count";
    Member (Pointer (Struct "google_firestore_v1_Document_FieldsEntry")) "fields";
    Member (Struct "google_protobuf_Timestamp") "create_time";
    Member c_bool "has_update_time";
    Member (Struct "google_protobuf_Timestamp") "update_time" ].

Definition google_firestore_v1_Document_fields : list pb_decl :=
  [ PB_FIELD 1 BYTES SINGULAR POINTER FIRST "google_firestore_v1_Document" "name" "name" None;
    PB_FIELD 2 MESSAGE REPEATED POINTER OTHER "google_firestore_v1_Document" "fields" "name" (Some "google_firestore_v1_Document_FieldsEntry");
    PB_FIELD 3 MESSAGE SINGULAR STATIC OTHER "google_firestore_v1_Document" "create_time" "fields" (Some "google_protobuf_Timestamp");
    PB_FIELD 4 MESSAGE OPTIONAL STATIC OTHER "google_firestore_v1_Document" "update_time" "create_time" (Some "google_protobuf_Timestamp") ].

Definition google_firestore_v1_Document_FieldsEntry : list member :=
  [ Member bytes_ptr "key";
    Member (Struct "google_firestore_v1_Value") "value" ].

Definition google_firestore_v1_Document_FieldsEntry_fields : list pb_decl :=
  [ PB_FIELD 1 BYTES SINGULAR POINTER FIRST "google_firestore_v1_Document_FieldsEntry" "key" "key" None;
    PB_FIELD 2 MESSAGE SINGULAR STATIC OTHER "google_firestore_v1_Document_FieldsEntry" "value" "key" (Some "google_firestore_v1_Value") ].

Definition google_firestore_v1_Value : list member :=
  [ Member pb_size_t "which_value_type";
    Union anonymous
      [ (c_bool, "boolean_value");
        (c_int64_t, "integer_value");
        (c_double, "double_value");
        (bytes_ptr, "reference_value");
        (Struct "google_firestore_v1_MapValue", "map_value");
        (Struct "google_type_LatLng", "geo_point_value");
        (Struct "google_firestore_v1_ArrayValue", "array_value");
        (Struct "google_protobuf_Timestamp", "timestamp_value");
        (c_enum, "null_value");
        (bytes_ptr, "string_value");
        (bytes_ptr, "bytes_value") ] ].

Definition google_firestore_v1_Value_fields : list pb_decl :=
  [ PB_ANONYMOUS_ONEOF_FIELD "value_type" 1 BOOL STATIC FIRST "google_firestore_v1_Value" "boolean_value" "boolean_value" None;
    PB_ANONYMOUS_ONEOF_FIELD "value_type" 2 INT64 STATIC UNION "google_firestore_v1_Value" "integer_value" "integer_value" None;
    PB_ANONYMOUS_ONEOF_FIELD "value_type" 3 DOUBLE STATIC UNION "google_firestore_v1_Value" "double_value" "double_value" None;
    PB_ANONYMOUS_ONEOF_FIELD "value_type" 5 BYTES POINTER UNION "google_firestore_v1_Value" "reference_value" "reference_value" None;
    PB_ANONYMOUS_ONEOF_FIELD "value_type" 6 MESSAGE STATIC UNION "google_firestore_v1_Value" "map_value" "map_value" (Some "google_firestore_v1_MapValue");
    PB_ANONYMOUS_ONEOF_FIELD "value_type" 8 MESSAGE STATIC UNION "google_firestore_v1_Value" "geo_point_value" "geo_point_value" (Some "google_type_LatLng");
    PB_ANONYMOUS_ONEOF_FIELD "value_type" 9 MESSAGE STATIC UNION "google_firestore_v1_Value" "array_value" "array_value" (Some "google_firestore_v1_ArrayValue");
    PB_ANONYMOUS_ONEOF_FIELD "value_type" 10 MESSAGE STATIC UNION "google_firestore_v1_Value" "timestamp_value" "timestamp_value" (Some "google_protobuf_Timestamp");
    PB_ANONYMOUS_ONEOF_FIELD "value_type" 11 UENUM STATIC UNION "google_firestore_v1_Value" "null_value" "null_value" None;
    PB_ANONYMOUS_ONEOF_FIELD "value_type" 17 BYTES POINTER UNION "google_firestore_v1_Value" "string_value" "string_value" None;
    PB_ANONYMOUS_ONEOF_FIELD "value_type" 18 BYTES POINTER UNION "google_firestore_v1_Value" "bytes_value" "bytes_value" None ].

Definition google_firestore_v1_ArrayValue : list member :=
  [ Member pb_size_t "values_count";
    Member (Pointer (Struct "google_firestore_v1_Value")) "values" ].

Definition google_firestore_v1_ArrayValue_fields : list pb_decl :=
  [ PB_FIELD 1 MESSAGE REPEATED POINTER FIRST "google_firestore_v1_ArrayValue" "values" "values" (Some "google_firestore_v1_Value") ].

Definition google_firestore_v1_MapValue : list member :=
  [ Member pb_size_t "fields_count";
    Member (Pointer (Struct "google_firestore_v1_MapValue_FieldsEntry")) "fields" ].

Definition google_firestore_v1_MapValue_fields : list pb_decl :=
  [ PB_FIELD 1 MESSAGE REPEATED POINTER FIRST "google_firestore_v1_MapValue" "fields" "fields" (Some "google_firestore_v1_MapValue_FieldsEntry") ].

Definition google_firestore_v1_MapValue_FieldsEntry : list member :=
  [ Member bytes_ptr "key";
    Member (Struct "google_firestore_v1_Value") "value" ].

Definition google_firestore_v1_MapValue_FieldsEntry_fields : list pb_decl :=
  [ PB_FIELD 1 BYTES SINGULAR POINTER FIRST "google_firestore_v1_MapValue_FieldsEntry" "key" "key" None;
    PB_FIELD 2 MESSAGE SINGULAR STATIC OTHER "google_firestore_v1_MapValue_FieldsEntry" "value" "key" (Some "google_firestore_v1_Value") ].

(** ** [google/firestore/v1/firestore] *)

Definition google_firestore_v1_GetDocumentRequest : list member :=
  [ Member bytes_ptr "name";
    Member (Struct "google_firestore_v1_DocumentMask") "mask";
    Member pb_size_t "which_consistency_selector";
    Union anonymous
      [ (bytes_ptr, "transaction");
        (Struct "google_protobuf_Timestamp", "read_time") ] ].

Definition google_firestore_v1_GetDocumentRequest_fields : list pb_decl :=
  [ PB_FIELD 1 BYTES SINGULAR POINTER FIRST "google_firestore_v1_GetDocumentRequest" "name" "name" None;
    PB_FIELD 2 MESSAGE SINGULAR STATIC OTHER "google_firestore_v1_GetDocumentRequest" "mask" "name" (Some "google_firestore_v1_DocumentMask");
    PB_ANONYMOUS_ONEOF_FIELD "consistency_selector" 3 BYTES POINTER OTHER "google_firestore_v1_GetDocumentRequest" "transaction" "mask" None;
    PB_ANONYMOUS_ONEOF_FIELD "consistency_selector" 5 MESSAGE STATIC UNION "google_firestore_v1_GetDocumentRequest" "read_time" "mask" (Some "google_protobuf_Timestamp") ].

Definition google_firestore_v1_ListDocumentsRequest : list member :=
  [ Member bytes_ptr "parent";
    Member bytes_ptr "collection_id";
    Member c_int32_t "page_size";
    Member bytes_ptr "page_token";
    Member bytes_ptr "order_by";
    Member (Struct "google_firestore_v1_DocumentMask") "mask";
    Member pb_size_t "which_consistency_selector";
    Union anonymous
      [ (bytes_ptr, "transaction");
        (Struct "google_protobuf_Timestamp", "read_time") ];
    Member c_bool "show_missing" ].

Definition google_firestore_v1_ListDocumentsRequest_fields : list pb_decl :=
  [ PB_FIELD 1 BYTES SINGULAR POINTER FIRST "google_firestore_v1_ListDocumentsRequest" "parent" "parent" None;
    PB_FIELD 2 BYTES SINGULAR POINTER OTHER "google_firestore_v1_ListDocumentsRequest" "collection_id" "parent" None;
    PB_FIELD 3 INT32 SINGULAR STATIC OTHER "google_firestore_v1_ListDocumentsRequest" "page_size" "collection_id" None;
    PB_FIELD 4 BYTES SINGULAR POINTER OTHER "google_firestore_v1_ListDocumentsRequest" "page_token" "page_size" None;
    PB_FIELD 6 BYTES SINGULAR POINTER OTHER "google_firestore_v1_ListDocumentsRequest" "order_by" "page_token" None;
    PB_FIELD 7 MESSAGE SINGULAR STATIC OTHER "google_firestore_v1_ListDocumentsRequest" "mask" "order_by" (Some "google_firestore_v1_DocumentMask");
    PB_ANONYMOUS_ONEOF_FIELD "consistency_selector" 8 BYTES POINTER OTHER "google_firestore_v1_ListDocumentsRequest" "transaction" "mask" None;
    PB_ANONYMOUS_ONEOF_FIELD "consistency_selector" 10 MESSAGE STATIC UNION "google_firestore_v1_ListDocumentsRequest" "read_time" "mask" (Some "google_protobuf_Timestamp");
    PB_FIELD 12 BOOL SINGULAR STATIC OTHER "google_firestore_v1_ListDocumentsRequest" "show_missing" "read_time" None ].

Definition google_firestore_v1_ListDocumentsResponse : list member :=
  [ Member pb_size_t "documents_count";
    Member (Pointer (Struct "google_firestore_v1_Document")) "documents";
    Member bytes_ptr "next_page_token" ].

Definition google_firestore_v1_ListDocumentsResponse_fields : list pb_decl :=
  [ PB_FIELD 1 MESSAGE REPEATED POINTER FIRST "google_firestore_v1_ListDocumentsResponse" "documents" "documents" (Some "google_firestore_v1_Document");
    PB_FIELD 2 BYTES SINGULAR POINTER OTHER "google_firestore_v1_ListDocumentsResponse" "next_page_token" "documents" None ].

Definition google_firestore_v1_CreateDocumentRequest : list member :=
  [ Member bytes_ptr "parent";
    Member bytes_ptr "collection_id";
    Member bytes_ptr "document_id";
    Member (Struct "google_firestore_v1_Document") "document";
    Member (Struct "google_firestore_v1_DocumentMask") "mask" ].

Definition google_firestore_v1_CreateDocumentRequest_fields : list pb_decl :=
  [ PB_FIELD 1 BYTES SINGULAR POINTER FIRST "google_firestore_v1_CreateDocumentRequest" "parent" "parent" None;
    PB_FIELD 2 BYTES SINGULAR POINTER OTHER "google_firestore_v1_CreateDocumentRequest" "collection_id" "parent" None;
    PB_FIELD 3 BYTES SINGULAR POINTER OTHER "google_firestore_v1_CreateDocumentRequest" "document_id" "collection_id" None;
    PB_FIELD 4 MESSAGE SINGULAR STATIC OTHER "google_firestore_v1_CreateDocumentRequest" "document" "document_id" (Some "google_firestore_v1_Document");
    PB_FIELD 5 MESSAGE SINGULAR STATIC OTHER "google_firestore_v1_CreateDocumentRequest" "mask" "document" (Some "google_firestore_v1_DocumentMask") ].

Definition google_firestore_v1_UpdateDocumentRequest : list member :=
  [ Member (Struct "google_firestore_v1_Document") "document";
    Member (Struct "google_firestore_v1_DocumentMask") "update_mask";
    Member (Struct "google_firestore_v1_DocumentMask") "mask";
    Member (Struct "google_firestore_v1_Precondition") "current_document" ].

Definition google_firestore_v1_UpdateDocumentRequest_fields : list pb_decl :=
  [ PB_FIELD 1 MESSAGE SINGULAR STATIC FIRST "google_firestore_v1_UpdateDocumentRequest" "document" "document" (Some "google_firestore_v1_Document");
    PB_FIELD 2 MESSAGE SINGULAR STATIC OTHER "google_firestore_v1_UpdateDocumentRequest" "update_mask" "document" (Some "google_firestore_v1_DocumentMask");
    PB_FIELD 3 MESSAGE SINGULAR STATIC OTHER "google_firestore_v1_UpdateDocumentRequest" "mask" "update_mask" (Some "google_firestore_v1_DocumentMask");
    PB_FIELD 4 MESSAGE SINGULAR STATIC OTHER "google_firestore_v1_UpdateDocumentRequest" "current_document" "mask" (Some "google_firestore_v1_Precondition") ].

Definition google_firestore_v1_DeleteDocumentRequest : list member :=
  [ Member bytes_ptr "name";
    Member (Struct "google_firestore_v1_Precondition") "current_document" ].

Definition google_firestore_v1_DeleteDocumentRequest_fields : list pb_decl :=
  [ PB_FIELD 1 BYTES SINGULAR POINTER FIRST "google_firestore_v1_DeleteDocumentRequest" "name" "name" None;
    PB_FIELD 2 MESSAGE SINGULAR STATIC OTHER "google_firestore_v1_DeleteDocumentRequest" "current_document" "name" (Some "google_firestore_v1_Precondition") ].

Definition google_firestore_v1_BatchGetDocumentsRequest : list member :=
  [ Member bytes_ptr "database";
    Member pb_size_t "documents_count";
    Member (Pointer bytes_ptr) "documents";
    Member (Struct "google_firestore_v1_DocumentMask") "mask";
    Member pb_size_t "which_consistency_selector";
    Union anonymous
      [ (bytes_ptr, "transaction");
        (Struct "google_firestore_v1_TransactionOptions", "new_transaction");
        (Struct "google_protobuf_Timestamp", "read_time") ] ].

Definition google_firestore_v1_BatchGetDocumentsRequest_fields : list pb_decl :=
  [ PB_FIELD 1 BYTES SINGULAR POINTER FIRST "google_firestore_v1_BatchGetDocumentsRequest" "database" "database" None;
    PB_FIELD 2 BYTES REPEATED POINTER OTHER "google_firestore_v1_BatchGetDocumentsRequest" "documents" "database" None;
    PB_FIELD 3 MESSAGE SINGULAR STATIC OTHER "google_firestore_v1_BatchGetDocumentsRequest" "mask" "documents" (Some "google_firestore_v1_DocumentMask");
    PB_ANONYMOUS_ONEOF_FIELD "consistency_selector" 4 BYTES POINTER OTHER "google_firestore_v1_BatchGetDocumentsRequest" "transaction" "mask" None;
    PB_ANONYMOUS_ONEOF_FIELD "consistency_selector" 5 MESSAGE STATIC UNION "google_firestore_v1_BatchGetDocumentsRequest" "new_transaction" "mask" (Some "google_firestore_v1_TransactionOptions");
    PB_ANONYMOUS_ONEOF_FIELD "consistency_selector" 7 MESSAGE STATIC UNION "google_firestore_v1_BatchGetDocumentsRequest" "read_time" "mask" (Some "google_protobuf_Timestamp") ].

Definition google_firestore_v1_BatchGetDocumentsResponse : list member :=
  [ Member pb_size_t "which_result";
    Union anonymous
      [ (Struct "google_firestore_v1_Document", "found");
        (bytes_ptr, "missing") ];
    Member bytes_ptr "transaction";
    Member (Struct "google_protobuf_Timestamp") "read_time" ].

Definition google_firestore_v1_BatchGetDocumentsResponse_fields : list pb_decl :=
  [ PB_ANONYMOUS_ONEOF_FIELD "result" 1 MESSAGE STATIC FIRST "google_firestore_v1_BatchGetDocumentsResponse" "found" "found" (Some "google_firestore_v1_Document");
    PB_ANONYMOUS_ONEOF_FIELD "result" 2 BYTES POINTER UNION "google_firestore_v1_BatchGetDocumentsResponse" "missing" "missing" None;
    PB_FIELD 3 BYTES SINGULAR POINTER OTHER "google_firestore_v1_BatchGetDocumentsResponse" "transaction" "missing" None;
    PB_FIELD 4 MESSAGE SINGULAR STATIC OTHER "google_firestore_v1_BatchGetDocumentsResponse" "read_time" "transaction" (Some "google_protobuf_Timestamp") ].

Definition google_firestore_v1_BeginTransactionRequest : list member :=
  [ Member bytes_ptr "database";
    Member (Struct "google_firestore_v1_TransactionOptions") "options" ].

Definition google_firestore_v1_BeginTransactionRequest_fields : list pb_decl :=
  [ PB_FIELD 1 BYTES SINGULAR POINTER FIRST "google_firestore_v1_BeginTransactionRequest" "database" "database" None;
    PB_FIELD 2 MESSAGE SINGULAR STATIC OTHER "google_firestore_v1_BeginTransactionRequest" "options" "database" (Some "google_firestore_v1_TransactionOptions") ].

Definition google_firestore_v1_BeginTransactionResponse : list member :=
  [ Member bytes_ptr "transaction" ].

Definition google_firestore_v1_BeginTransactionResponse_fields : list pb_decl :=
  [ PB_FIELD 1 BYTES SINGULAR POINTER FIRST "google_firestore_v1_BeginTransactionResponse" "transaction" "transaction" None ].

Definition google_firestore_v1_CommitRequest : list member :=
  [ Member bytes_ptr "database";
    Member pb_size_t "writes_count";
    Member (Pointer (Struct "google_firestore_v1_Write")) "writes";
    Member bytes_ptr "transaction" ].

Definition google_firestore_v1_CommitRequest_fields : list pb_decl :=
  [ PB_FIELD 1 BYTES SINGULAR POINTER FIRST "google_firestore_v1_CommitRequest" "database" "database" None;
    PB_FIELD 2 MESSAGE REPEATED POINTER OTHER "google_firestore_v1_CommitRequest" "writes" "database" (Some "google_firestore_v1_Write");
    PB_FIELD 3 BYTES SINGULAR POINTER OTHER "google_firestore_v1_CommitRequest" "transaction" "writes" None ].

Definition google_firestore_v1_CommitResponse : list member :=
  [ Member pb_size_t "write_results_count";
    Member (Pointer (Struct "google_firestore_v1_WriteResult")) "write_results";
    Member (Struct "google_protobuf_Timestamp") "commit_time" ].

Definition google_firestore_v1_CommitResponse_fields : list pb_decl :=
  [ PB_FIELD 1 MESSAGE REPEATED POINTER FIRST "google_firestore_v1_CommitResponse" "write_results" "write_results" (Some "google_firestore_v1_WriteResult");
    PB_FIELD 2 MESSAGE SINGULAR STATIC OTHER "google_firestore_v1_CommitResponse" "commit_time" "write_results" (Some "google_protobuf_Timestamp") ].

Definition google_firestore_v1_RollbackRequest : list member :=
  [ Member bytes_ptr "database";
    Member bytes_ptr "transaction" ].

Definition google_firestore_v1_RollbackRequest_fields : list pb_decl :=
  [ PB_FIELD 1 BYTES SINGULAR POINTER FIRST "google_firestore_v1_RollbackRequest" "database" "database" None;
    PB_FIELD 2 BYTES SINGULAR POINTER OTHER "google_firestore_v1_RollbackRequest" "transaction" "database" None ].

Definition google_firestore_v1_RunQueryRequest : list member :=
  [ Member bytes_ptr "parent";
    Member pb_size_t "which_query_type";
    Union "query_type"
      [ (Struct "google_firestore_v1_StructuredQuery", "structured_query") ];
    Member pb_size_t "which_consistency_selector";
    Union "consistency_selector"
      [ (bytes_ptr, "transaction");
        (Struct "google_firestore_v1_TransactionOptions", "new_transaction");
        (Struct "google_protobuf_Timestamp", "read_time") ] ].

Definition google_firestore_v1_RunQueryRequest_fields : list pb_decl :=
  [ PB_FIELD 1 BYTES SINGULAR POINTER FIRST "google_firestore_v1_RunQueryRequest" "parent" "parent" None;
    PB_ONEOF_FIELD "query_type" 2 MESSAGE STATIC OTHER "google_firestore_v1_RunQueryRequest" "structured_query" "parent" (Some "google_firestore_v1_StructuredQuery");
    PB_ONEOF_FIELD "consistency_selector" 5 BYTES POINTER OTHER "google_firestore_v1_RunQueryRequest" "transaction" "query_type.structured_query" None;
    PB_ONEOF_FIELD "consistency_selector" 6 MESSAGE STATIC UNION "google_firestore_v1_RunQueryRequest" "new_transaction" "query_type.structured_query" (Some "google_firestore_v1_TransactionOptions");
    PB_ONEOF_FIELD "consistency_selector" 7 MESSAGE STATIC UNION "google_firestore_v1_RunQueryRequest" "read_time" "query_type.structured_query" (Some "google_protobuf_Timestamp") ].

Definition google_firestore_v1_RunQueryResponse : list member :=
  [ Member (Struct "google_firestore_v1_Document") "document";
    Member bytes_ptr "transaction";
    Member (Struct "google_protobuf_Timestamp") "read_time";
    Member c_int32_t "skipped_results" ].

Definition google_firestore_v1_RunQueryResponse_fields : list pb_decl :=
  [ PB_FIELD 1 MESSAGE SINGULAR STATIC FIRST "google_firestore_v1_RunQueryResponse" "document" "document" (Some "google_firestore_v1_Document");
    PB_FIELD 2 BYTES SINGULAR POINTER OTHER "google_firestore_v1_RunQueryResponse" "transaction" "document" None;
    PB_FIELD 3 MESSAGE SINGULAR STATIC OTHER "google_firestore_v1_RunQueryResponse" "read_time" "transaction" (Some "google_protobuf_Timestamp");
    PB_FIELD 4 INT32 SINGULAR STATIC OTHER "google_firestore_v1_RunQueryResponse" "skipped_results" "read_time" None ].

Definition google_firestore_v1_WriteRequest : list member :=
  [ Member bytes_ptr "database";
    Member bytes_ptr "stream_id";
    Member pb_size_t "writes_count";
    Member (Pointer (Struct "google_firestore_v1_Write")) "writes";
    Member bytes_ptr "stream_token";
    Member pb_size_t "labels_count";
    Member (Pointer (Struct "google_firestore_v1_WriteRequest_LabelsEntry")) "labels" ].

Definition google_firestore_v1_WriteRequest_fields : list pb_decl :=
  [ PB_FIELD 1 BYTES SINGULAR POINTER FIRST "google_firestore_v1_WriteRequest" "database" "database" None;
    PB_FIELD 2 BYTES SINGULAR POINTER OTHER "google_firestore_v1_WriteRequest" "stream_id" "database" None;
    PB_FIELD 3 MESSAGE REPEATED POINTER OTHER "google_firestore_v1_WriteRequest" "writes" "stream_id" (Some "google_firestore_v1_Write");
    PB_FIELD 4 BYTES SINGULAR POINTER OTHER "google_firestore_v1_WriteRequest" "stream_token" "writes" None;
    PB_FIELD 5 MESSAGE REPEATED POINTER OTHER "google_firestore_v1_WriteRequest" "labels" "stream_token" (Some "google_firestore_v1_WriteRequest_LabelsEntry") ].

Definition google_firestore_v1_WriteRequest_LabelsEntry : list member :=
  [ Member bytes_ptr "key";
    Member bytes_ptr "value" ].

Definition google_firestore_v1_WriteRequest_LabelsEntry_fields : list pb_decl :=
  [ PB_FIELD 1 BYTES SINGULAR POINTER FIRST "google_firestore_v1_WriteRequest_LabelsEntry" "key" "key" None;
    PB_FIELD 2 BYTES SINGULAR POINTER OTHER "google_firestore_v1_WriteRequest_LabelsEntry" "value" "key" None ].

Definition google_firestore_v1_WriteResponse : list member :=
  [ Member bytes_ptr "stream_id";
    Member bytes_ptr "stream_token";
    Member pb_size_t "write_results_count";
    Member (Pointer (Struct "google_firestore_v1_WriteResult")) "write_results";
    Member (Struct "google_protobuf_Timestamp") "commit_time" ].

Definition google_firestore_v1_WriteResponse_fields : list pb_decl :=
  [ PB_FIELD 1 BYTES SINGULAR POINTER FIRST "google_firestore_v1_WriteResponse" "stream_id" "stream_id" None;
    PB_FIELD 2 BYTES SINGULAR POINTER OTHER "google_firestore_v1_WriteResponse" "stream_token" "stream_id" None;
    PB_FIELD 3 MESSAGE REPEATED POINTER OTHER "google_firestore_v1_WriteResponse" "write_results" "stream_token" (Some "google_firestore_v1_WriteResult");
    PB_FIELD 4 MESSAGE SINGULAR STATIC OTHER "google_firestore_v1_WriteResponse" "commit_time" "write_results" (Some "google_protobuf_Timestamp") ].

Definition google_firestore_v1_ListenRequest : list member :=
  [ Member bytes_ptr "database";
    Member pb_size_t "which_target_change";
    Union anonymous
      [ (Struct "google_firestore_v1_Target", "add_target");
        (c_int32_t, "remove_target") ];
    Member pb_size_t "labels_count";
    Member (Pointer (Struct "google_firestore_v1_ListenRequest_LabelsEntry")) "labels" ].

Definition google_firestore_v1_ListenRequest_fields : list pb_decl :=
  [ PB_FIELD 1 BYTES SINGULAR POINTER FIRST "google_firestore_v1_ListenRequest" "database" "database" None;
    PB_ANONYMOUS_ONEOF_FIELD "target_change" 2 MESSAGE STATIC OTHER "google_firestore_v1_ListenRequest" "add_target" "database" (Some "google_firestore_v1_Target");
    PB_ANONYMOUS_ONEOF_FIELD "target_change" 3 INT32 STATIC UNION "google_firestore_v1_ListenRequest" "remove_target" "database" None;
    PB_FIELD 4 MESSAGE REPEATED POINTER OTHER "google_firestore_v1_ListenRequest" "labels" "remove_target" (Some "google_firestore_v1_ListenRequest_LabelsEntry") ].

Definition google_firestore_v1_ListenRequest_LabelsEntry : list member :=
  [ Member bytes_ptr "key";
    Member bytes_ptr "value" ].

Definition google_firestore_v1_ListenRequest_LabelsEntry_fields : list pb_decl :=
  [ PB_FIELD 1 BYTES SINGULAR POINTER FIRST "google_firestore_v1_ListenRequest_LabelsEntry" "key" "key" None;
    PB_FIELD 2 BYTES SINGULAR POINTER OTHER "google_firestore_v1_ListenRequest_LabelsEntry" "value" "key" None ].

Definition google_firestore_v1_ListenResponse : list member :=
  [ Member pb_size_t "which_response_type";
    Union anonymous
      [ (Struct "google_firestore_v1_TargetChange", "target_change");
        (Struct "google_firestore_v1_DocumentChange", "document_change");
        (Struct "google_firestore_v1_DocumentDelete", "document_delete");
        (Struct "google_firestore_v1_ExistenceFilter", "filter");
        (Struct "google_firestore_v1_DocumentRemove", "document_remove") ] ].

Definition google_firestore_v1_ListenResponse_fields : list pb_decl :=
  [ PB_ANONYMOUS_ONEOF_FIELD "response_type" 2 MESSAGE STATIC FIRST "google_firestore_v1_ListenResponse" "target_change" "target_change" (Some "google_firestore_v1_TargetChange");
    PB_ANONYMOUS_ONEOF_FIELD "response_type" 3 MESSAGE STATIC UNION "google_firestore_v1_ListenResponse" "document_change" "document_change" (Some "google_firestore_v1_DocumentChange");
    PB_ANONYMOUS_ONEOF_FIELD "response_type" 4 MESSAGE STATIC UNION "google_firestore_v1_ListenResponse" "document_delete" "document_delete" (Some "google_firestore_v1_DocumentDelete");
    PB_ANONYMOUS_ONEOF_FIELD "response_type" 5 MESSAGE STATIC UNION "google_firestore_v1_ListenResponse" "filter" "filter" (Some "google_firestore_v1_ExistenceFilter");
    PB_ANONYMOUS_ONEOF_FIELD "response_type" 6 MESSAGE STATIC UNION "google_firestore_v1_ListenResponse" "document_remove" "document_remove" (Some "google_firestore_v1_DocumentRemove") ].

Definition google_firestore_v1_Target : list member :=
  [ Member pb_size_t "which_target_type";
    Union "target_type"
      [ (Struct "google_firestore_v1_Target_QueryTarget", "query");
        (Struct "google_firestore_v1_Target_DocumentsTarget", "documents") ];
    Member pb_size_t "which_resume_type";
    Union "resume_type"
      [ (bytes_ptr, "resume_token");
        (Struct "google_protobuf_Timestamp", "read_time") ];
    Member c_int32_t "target_id";
    Member c_bool "once" ].

Definition google_firestore_v1_Target_fields : list pb_decl :=
  [ PB_ONEOF_FIELD "target_type" 2 MESSAGE STATIC FIRST "google_firestore_v1_Target" "query" "query" (Some "google_firestore_v1_Target_QueryTarget");
    PB_ONEOF_FIELD "target_type" 3 MESSAGE STATIC UNION "google_firestore_v1_Target" "documents" "documents" (Some "google_firestore_v1_Target_DocumentsTarget");
    PB_ONEOF_FIELD "resume_type" 4 BYTES POINTER OTHER "google_firestore_v1_Target" "resume_token" "target_type.documents" None;
    PB_ONEOF_FIELD "resume_type" 11 MESSAGE STATIC UNION "google_firestore_v1_Target" "read_time" "target_type.documents" (Some "google_protobuf_Timestamp");
    PB_FIELD 5 INT32 SINGULAR STATIC OTHER "google_firestore_v1_Target" "target_id" "resume_type.read_time" None;
    PB_FIELD 6 BOOL SINGULAR STATIC OTHER "google_firestore_v1_Target" "once" "target_id" None ].

Definition google_firestore_v1_Target_DocumentsTarget : list member :=
  [ Member pb_size_t "documents_count";
    Member (Pointer bytes_ptr) "documents" ].

Definition google_firestore_v1_Target_DocumentsTarget_fields : list pb_decl :=
  [ PB_FIELD 2 BYTES REPEATED POINTER FIRST "google_firestore_v1_Target_DocumentsTarget" "documents" "documents" None ].

Definition google_firestore_v1_Target_QueryTarget : list member :=
  [ Member bytes_ptr "parent";
    Member pb_size_t "which_query_type";
    Union anonymous
      [ (Struct "google_firestore_v1_StructuredQuery", "structured_query") ] ].

Definition google_firestore_v1_Target_QueryTarget_fields : list pb_decl :=
  [ PB_FIELD 1 BYTES SINGULAR POINTER FIRST "google_firestore_v1_Target_QueryTarget" "parent" "parent" None;
    PB_ANONYMOUS_ONEOF_FIELD "query_type" 2 MESSAGE STATIC OTHER "google_firestore_v1_Target_QueryTarget" "structured_query" "parent" (Some "google_firestore_v1_StructuredQuery") ].

Definition google_firestore_v1_TargetChange : list member :=
  [ Member c_enum "target_change_type";
    Member pb_size_t "target_ids_count";
    Member (Pointer c_int32_t) "target_ids";
    Member c_bool "has_cause";
    Member (Struct "google_rpc_Status") "cause";
    Member bytes_ptr "resume_token";
    Member (Struct "google_protobuf_Timestamp") "read_time" ].

Definition google_firestore_v1_TargetChange_fields : list pb_decl :=
  [ PB_FIELD 1 UENUM SINGULAR STATIC FIRST "google_firestore_v1_TargetChange" "target_change_type" "target_change_type" None;
    PB_FIELD 2 INT32 REPEATED POINTER OTHER "google_firestore_v1_TargetChange" "target_ids" "target_change_type" None;
    PB_FIELD 3 MESSAGE OPTIONAL STATIC OTHER "google_firestore_v1_TargetChange" "cause" "target_ids" (Some "google_rpc_Status");
    PB_FIELD 4 BYTES SINGULAR POINTER OTHER "google_firestore_v1_TargetChange" "resume_token" "cause" None;
    PB_FIELD 6 MESSAGE SINGULAR STATIC OTHER "google_firestore_v1_TargetChange" "read_time" "resume_token" (Some "google_protobuf_Timestamp") ].

Definition google_firestore_v1_ListCollectionIdsRequest : list member :=
  [ Member bytes_ptr "parent";
    Member c_int32_t "page_size";
    Member bytes_ptr "page_token" ].

Definition google_firestore_v1_ListCollectionIdsRequest_fields : list pb_decl :=
  [ PB_FIELD 1 BYTES SINGULAR POINTER FIRST "google_firestore_v1_ListCollectionIdsRequest" "parent" "parent" None;
    PB_FIELD 2 INT32 SINGULAR STATIC OTHER "google_firestore_v1_ListCollectionIdsRequest" "page_size" "parent" None;
    PB_FIELD 3 BYTES SINGULAR POINTER OTHER "google_firestore_v1_ListCollectionIdsRequest" "page_token" "page_size" None ].

Definition google_firestore_v1_ListCollectionIdsResponse : list member :=
  [ Member pb_size_t "collection_ids_count";
    Member (Pointer bytes_ptr) "collection_ids";
    Member bytes_ptr "next_page_token" ].

Definition google_firestore_v1_ListCollectionIdsResponse_fields : list pb_decl :=
  [ PB_FIELD 1 BYTES REPEATED POINTER FIRST "google_firestore_v1_ListCollectionIdsResponse" "collection_ids" "collection_ids" None;
    PB_FIELD 2 BYTES SINGULAR POINTER OTHER "google_firestore_v1_ListCollectionIdsResponse" "next_page_token" "collection_ids" None ].

(** ** [google/firestore/v1/query] *)

Definition google_firestore_v1_StructuredQuery : list member :=
  [ Member (Struct "google_firestore_v1_StructuredQuery_Projection") "select";
    Member pb_size_t "from_count";
    Member (Pointer (Struct "google_firestore_v1_StructuredQuery_CollectionSelector")) "from";
    Member (Struct "google_firestore_v1_StructuredQuery_Filter") "where";
    Member pb_size_t "order_by_count";
    Member (Pointer (Struct "google_firestore_v1_StructuredQuery_Order")) "order_by";
    Member c_bool "has_limit";
    Member (Struct "google_protobuf_Int32Value") "limit";
    Member c_int32_t "offset";
    Member (Struct "google_firestore_v1_Cursor") "start_at";
    Member (Struct "google_firestore_v1_Cursor") "end_at" ].

Definition google_firestore_v1_StructuredQuery_fields : list pb_decl :=
  [ PB_FIELD 1 MESSAGE SINGULAR STATIC FIRST "google_firestore_v1_StructuredQuery" "select" "select" (Some "google_firestore_v1_StructuredQuery_Projection");
    PB_FIELD 2 MESSAGE REPEATED POINTER OTHER "google_firestore_v1_StructuredQuery" "from" "select" (Some "google_firestore_v1_StructuredQuery_CollectionSelector");
    PB_FIELD 3 MESSAGE SINGULAR STATIC OTHER "google_firestore_v1_StructuredQuery" "where" "from" (Some "google_firestore_v1_StructuredQuery_Filter");
    PB_FIELD 4 MESSAGE REPEATED POINTER OTHER "google_firestore_v1_StructuredQuery" "order_by" "where" (Some "google_firestore_v1_StructuredQuery_Order");
    PB_FIELD 5 MESSAGE OPTIONAL STATIC OTHER "google_firestore_v1_StructuredQuery" "limit" "order_by" (Some "google_protobuf_Int32Value");
    PB_FIELD 6 INT32 SINGULAR STATIC OTHER "google_firestore_v1_StructuredQuery" "offset" "limit" None;
    PB_FIELD 7 MESSAGE SINGULAR STATIC OTHER "google_firestore_v1_StructuredQuery" "start_at" "offset" (Some "google_firestore_v1_Cursor");
    PB_FIELD 8 MESSAGE SINGULAR STATIC OTHER "google_firestore_v1_StructuredQuery" "end_at" "start_at" (Some "google_firestore_v1_Cursor") ].

Definition google_firestore_v1_StructuredQuery_CollectionSelector : list member :=
  [ Member bytes_ptr "collection_id";
    Member c_bool "all_descendants" ].

Definition google_firestore_v1_StructuredQuery_CollectionSelector_fields : list pb_decl :=
  [ PB_FIELD 2 BYTES SINGULAR POINTER FIRST "google_firestore_v1_StructuredQuery_CollectionSelector" "collection_id" "collection_id" None;
    PB_FIELD 3 BOOL SINGULAR STATIC OTHER "google_firestore_v1_StructuredQuery_CollectionSelector" "all_descendants" "collection_id" None ].

Definition google_firestore_v1_StructuredQuery_Filter : list member :=
  [ Member pb_size_t "which_filter_type";
    Union anonymous
      [ (Struct "google_firestore_v1_StructuredQuery_CompositeFilter", "composite_filter");
        (Struct "google_firestore_v1_StructuredQuery_FieldFilter", "field_filter");
        (Struct "google_firestore_v1_StructuredQuery_UnaryFilter", "unary_filter") ] ].

Definition google_firestore_v1_StructuredQuery_Filter_fields : list pb_decl :=
  [ PB_ANONYMOUS_ONEOF_FIELD "filter_type" 1 MESSAGE STATIC FIRST "google_firestore_v1_StructuredQuery_Filter" "composite_filter" "composite_filter" (Some "google_firestore_v1_StructuredQuery_CompositeFilter");
    PB_ANONYMOUS_ONEOF_FIELD "filter_type" 2 MESSAGE STATIC UNION "google_firestore_v1_StructuredQuery_Filter" "field_filter" "field_filter" (Some "google_firestore_v1_StructuredQuery_FieldFilter");
    PB_ANONYMOUS_ONEOF_FIELD "filter_type" 3 MESSAGE STATIC UNION "google_firestore_v1_StructuredQuery_Filter" "unary_filter" "unary_filter" (Some "google_firestore_v1_StructuredQuery_UnaryFilter") ].

Definition google_firestore_v1_StructuredQuery_CompositeFilter : list member :=
  [ Member c_enum "op";
    Member pb_size_t "filters_count";
    Member (Pointer (Struct "google_firestore_v1_StructuredQuery_Filter")) "filters" ].

Definition google_firestore_v1_StructuredQuery_CompositeFilter_fields : list pb_decl :=
  [ PB_FIELD 1 UENUM SINGULAR STATIC FIRST "google_firestore_v1_StructuredQuery_CompositeFilter" "op" "op" None;
    PB_FIELD 2 MESSAGE REPEATED POINTER OTHER "google_firestore_v1_StructuredQuery_CompositeFilter" "filters" "op" (Some "google_firestore_v1_StructuredQuery_Filter") ].

Definition google_firestore_v1_StructuredQuery_FieldFilter : list member :=
  [ Member (Struct "google_firestore_v1_StructuredQuery_FieldReference") "field";
    Member c_enum "op";
    Member (Struct "google_firestore_v1_Value") "value" ].

Definition google_firestore_v1_StructuredQuery_FieldFilter_fields : list pb_decl :=
  [ PB_FIELD 1 MESSAGE SINGULAR STATIC FIRST "google_firestore_v1_StructuredQuery_FieldFilter" "field" "field" (Some "google_firestore_v1_StructuredQuery_FieldReference");
    PB_FIELD 2 UENUM SINGULAR STATIC OTHER "google_firestore_v1_StructuredQuery_FieldFilter" "op" "field" None;
    PB_FIELD 3 MESSAGE SINGULAR STATIC OTHER "google_firestore_v1_StructuredQuery_FieldFilter" "value" "op" (Some "google_firestore_v1_Value") ].

Definition google_firestore_v1_StructuredQuery_UnaryFilter : list member :=
  [ Member c_enum "op";
    Member pb_size_t "which_operand_type";
    Union anonymous
      [ (Struct "google_firestore_v1_StructuredQuery_FieldReference", "field") ] ].

Definition google_firestore_v1_StructuredQuery_UnaryFilter_fields : list pb_decl :=
  [ PB_FIELD 1 UENUM SINGULAR STATIC FIRST "google_firestore_v1_StructuredQuery_UnaryFilter" "op" "op" None;
    PB_ANONYMOUS_ONEOF_FIELD "operand_type" 2 MESSAGE STATIC OTHER "google_firestore_v1_StructuredQuery_UnaryFilter" "field" "op" (Some "google_firestore_v1_StructuredQuery_FieldReference") ].

Definition google_firestore_v1_StructuredQuery_Order : list member :=
  [ Member (Struct "google_firestore_v1_StructuredQuery_FieldReference") "field";
    Member c_enum "direction" ].

Definition google_firestore_v1_StructuredQuery_Order_fields : list pb_decl :=
  [ PB_FIELD 1 MESSAGE SINGULAR STATIC FIRST "google_firestore_v1_StructuredQuery_Order" "field" "field" (Some "google_firestore_v1_StructuredQuery_FieldReference");
    PB_FIELD 2 UENUM SINGULAR STATIC OTHER "google_firestore_v1_StructuredQuery_Order" "direction" "field" None ].

Definition google_firestore_v1_StructuredQuery_FieldReference : list member :=
  [ Member bytes_ptr "field_path" ].

Definition google_firestore_v1_StructuredQuery_FieldReference_fields : list pb_decl :=
  [ PB_FIELD 2 BYTES SINGULAR POINTER FIRST "google_firestore_v1_StructuredQuery_FieldReference" "field_path" "field_path" None ].

Definition google_firestore_v1_StructuredQuery_Projection : list member :=
  [ Member pb_size_t "fields_count";
    Member (Pointer (Struct "google_firestore_v1_StructuredQuery_FieldReference")) "fields" ].

Definition google_firestore_v1_StructuredQuery_Projection_fields : list pb_decl :=
  [ PB_FIELD 2 MESSAGE REPEATED POINTER FIRST "google_firestore_v1_StructuredQuery_Projection" "fields" "fields" (Some "google_firestore_v1_StructuredQuery_FieldReference") ].

Definition google_firestore_v1_Cursor : list member :=
  [ Member pb_size_t "values_count";
    Member (Pointer (Struct "google_firestore_v1_Value")) "values";
    Member c_bool "before" ].

Definition google_firestore_v1_Cursor_fields : list pb_decl :=
  [ PB_FIELD 1 MESSAGE REPEATED POINTER FIRST "google_firestore_v1_Cursor" "values" "values" (Some "google_firestore_v1_Value");
    PB_FIELD 2 BOOL SINGULAR STATIC OTHER "google_firestore_v1_Cursor" "before" "values" None ].

(** ** [google/firestore/v1/write] *)

Definition google_firestore_v1_Write : list member :=
  [ Member pb_size_t "which_operation";
    Union anonymous
      [ (Struct "google_firestore_v1_Document", "update");
        (bytes_ptr, "delete_");
        (bytes_ptr, "verify");
        (Struct "google_firestore_v1_DocumentTransform", "transform") ];
    Member c_bool "has_update_mask";
    Member (Struct "google_firestore_v1_DocumentMask") "update_mask";
    Member c_bool "has_current_document";
    Member (Struct "google_firestore_v1_Precondition") "current_document";
    Member pb_size_t "update_transforms_count";
    Member (Pointer (Struct "google_firestore_v1_DocumentTransform_FieldTransform")) "update_transforms" ].

Definition google_firestore_v1_Write_fields : list pb_decl :=
  [ PB_ANONYMOUS_ONEOF_FIELD "operation" 1 MESSAGE STATIC FIRST "google_firestore_v1_Write" "update" "update" (Some "google_firestore_v1_Document");
    PB_ANONYMOUS_ONEOF_FIELD "operation" 2 BYTES POINTER UNION "google_firestore_v1_Write" "delete_" "delete_" None;
    PB_ANONYMOUS_ONEOF_FIELD "operation" 5 BYTES POINTER UNION "google_firestore_v1_Write" "verify" "verify" None;
    PB_ANONYMOUS_ONEOF_FIELD "operation" 6 MESSAGE STATIC UNION "google_firestore_v1_Write" "transform" "transform" (Some "google_firestore_v1_DocumentTransform");
    PB_FIELD 3 MESSAGE OPTIONAL STATIC OTHER "google_firestore_v1_Write" "update_mask" "transform" (Some "google_firestore_v1_DocumentMask");
    PB_FIELD 4 MESSAGE OPTIONAL STATIC OTHER "google_firestore_v1_Write" "current_document" "update_mask" (Some "google_firestore_v1_Precondition");
    PB_FIELD 7 MESSAGE REPEATED POINTER OTHER "google_firestore_v1_Write" "update_transforms" "current_document" (Some "google_firestore_v1_DocumentTransform_FieldTransform") ].

Definition google_firestore_v1_DocumentTransform : list member :=
  [ Member bytes_ptr "document";
    Member pb_size_t "field_transforms_count";
    Member (Pointer (Struct "google_firestore_v1_DocumentTransform_FieldTransform")) "field_transforms" ].

Definition google_firestore_v1_DocumentTransform_fields : list pb_decl :=
  [ PB_FIELD 1 BYTES SINGULAR POINTER FIRST "google_firestore_v1_DocumentTransform" "document" "document" None;
    PB_FIELD 2 MESSAGE REPEATED POINTER OTHER "google_firestore_v1_DocumentTransform" "field_transforms" "document" (Some "google_firestore_v1_DocumentTransform_FieldTransform") ].

Definition google_firestore_v1_DocumentTransform_FieldTransform : list member :=
  [ Member bytes_ptr "field_path";
    Member pb_size_t "which_transform_type";
    Union anonymous
      [ (c_enum, "set_to_server_value");
        (Struct "google_firestore_v1_Value", "increment");
        (Struct "google_firestore_v1_Value", "maximum");
        (Struct "google_firestore_v1_Value", "minimum");
        (Struct "google_firestore_v1_ArrayValue", "append_missing_elements");
        (Struct "google_firestore_v1_ArrayValue", "remove_all_from_array") ] ].

Definition google_firestore_v1_DocumentTransform_FieldTransform_fields : list pb_decl :=
  [ PB_FIELD 1 BYTES SINGULAR POINTER FIRST "google_firestore_v1_DocumentTransform_FieldTransform" "field_path" "field_path" None;
    PB_ANONYMOUS_ONEOF_FIELD "transform_type" 2 UENUM STATIC OTHER "google_firestore_v1_DocumentTransform_FieldTransform" "set_to_server_value" "field_path" None;
    PB_ANONYMOUS_ONEOF_FIELD "transform_type" 3 MESSAGE STATIC UNION "google_firestore_v1_DocumentTransform_FieldTransform" "increment" "field_path" (Some "google_firestore_v1_Value");
    PB_ANONYMOUS_ONEOF_FIELD "transform_type" 4 MESSAGE STATIC UNION "google_firestore_v1_DocumentTransform_FieldTransform" "maximum" "field_path" (Some "google_firestore_v1_Value");
    PB_ANONYMOUS_ONEOF_FIELD "transform_type" 5 MESSAGE STATIC UNION "google_firestore_v1_DocumentTransform_FieldTransform" "minimum" "field_path" (Some "google_firestore_v1_Value");
    PB_ANONYMOUS_ONEOF_FIELD "transform_type" 6 MESSAGE STATIC UNION "google_firestore_v1_DocumentTransform_FieldTransform" "append_missing_elements" "field_path" (Some "google_firestore_v1_ArrayValue");
    PB_ANONYMOUS_ONEOF_FIELD "transform_type" 7 MESSAGE STATIC UNION "google_firestore_v1_DocumentTransform_FieldTransform" "remove_all_from_array" "field_path" (Some "google_firestore_v1_ArrayValue") ].

Definition google_firestore_v1_WriteResult : list member :=
  [ Member c_bool "has_update_time";
    Member (Struct "google_protobuf_Timestamp") "update_time";
    Member pb_size_t "transform_results_count";
    Member (Pointer (Struct "google_firestore_v1_Value")) "transform_results" ].

Definition google_firestore_v1_WriteResult_fields : list pb_decl :=
  [ PB_FIELD 1 MESSAGE OPTIONAL STATIC FIRST "google_firestore_v1_WriteResult" "update_time" "update_time" (Some "google_protobuf_Timestamp");
    PB_FIELD 2 MESSAGE REPEATED POINTER OTHER "google_firestore_v1_WriteResult" "transform_results" "update_time" (Some "google_firestore_v1_Value") ].

Definition google_firestore_v1_DocumentChange : list member :=
  [ Member (Struct "google_firestore_v1_Document") "document";
    Member pb_size_t "target_ids_count";
    Member (Pointer c_int32_t) "target_ids";
    Member pb_size_t "removed_target_ids_count";
    Member (Pointer c_int32_t) "removed_target_ids" ].

Definition google_firestore_v1_DocumentChange_fields : list pb_decl :=
  [ PB_FIELD 1 MESSAGE SINGULAR STATIC FIRST "google_firestore_v1_DocumentChange" "document" "document" (Some "google_firestore_v1_Document");
    PB_FIELD 5 INT32 REPEATED POINTER OTHER "google_firestore_v1_DocumentChange" "target_ids" "document" None;
    PB_FIELD 6 INT32 REPEATED POINTER OTHER "google_firestore_v1_DocumentChange" "removed_target_ids" "target_ids" None ].

Definition google_firestore_v1_DocumentDelete : list member :=
  [ Member bytes_ptr "document";
    Member c_bool "has_read_time";
    Member (Struct "google_protobuf_Timestamp") "read_time";
    Member pb_size_t "removed_target_ids_count";
    Member (Pointer c_int32_t) "removed_target_ids" ].

Definition google_firestore_v1_DocumentDelete_fields : list pb_decl :=
  [ PB_FIELD 1 BYTES SINGULAR POINTER FIRST "google_firestore_v1_DocumentDelete" "document" "document" None;
    PB_FIELD 4 MESSAGE OPTIONAL STATIC OTHER "google_firestore_v1_DocumentDelete" "read_time" "document" (Some "google_protobuf_Timestamp");
    PB_FIELD 6 INT32 REPEATED POINTER OTHER "google_firestore_v1_DocumentDelete" "removed_target_ids" "read_time" None ].

Definition google_firestore_v1_DocumentRemove : list member :=
  [ Member bytes_ptr "document";
    Member pb_size_t "removed_target_ids_count";
    Member (Pointer c_int32_t) "removed_target_ids";
    Member (Struct "google_protobuf_Timestamp") "read_time" ].

Definition google_firestore_v1_DocumentRemove_fields : list pb_decl :=
  [ PB_FIELD 1 BYTES SINGULAR POINTER FIRST "google_firestore_v1_DocumentRemove" "document" "document" None;
    PB_FIELD 2 INT32 REPEATED POINTER OTHER "google_firestore_v1_DocumentRemove" "removed_target_ids" "document" None;
    PB_FIELD 4 MESSAGE SINGULAR STATIC OTHER "google_firestore_v1_DocumentRemove" "read_time" "removed_target_ids" (Some "google_protobuf_Timestamp") ].

Definition google_firestore_v1_ExistenceFilter : list member :=
  [ Member c_int32_t "target_id";
    Member c_int32_t "count" ].

Definition google_firestore_v1_ExistenceFilter_fields : list pb_decl :=
  [ PB_FIELD 1 INT32 SINGULAR STATIC FIRST "google_firestore_v1_ExistenceFilter" "target_id" "target_id" None;
    PB_FIELD 2 INT32 SINGULAR STATIC OTHER "google_firestore_v1_ExistenceFilter" "count" "target_id" None ].

(** ** [google/protobuf/any] *)

Definition google_protobuf_Any : list member :=
  [ Member bytes_ptr "type_url";
    Member bytes_ptr "value" ].

Definition google_protobuf_Any_fields : list pb_decl :=
  [ PB_FIELD 1 BYTES SINGULAR POINTER FIRST "google_protobuf_Any" "type_url" "type_url" None;
    PB_FIELD 2 BYTES SINGULAR POINTER OTHER "google_protobuf_Any" "value" "type_url" None ].

(** ** [google/protobuf/struct] *)

Definition google_protobuf_Struct : list member :=
  [ Member pb_size_t "fields_count";
    Member (Pointer (Struct "google_protobuf_Struct_FieldsEntry")) "fields" ].

Definition google_protobuf_Struct_fields : list pb_decl :=
  [ PB_FIELD 1 MESSAGE REPEATED POINTER FIRST "google_protobuf_Struct" "fields" "fields" (Some "google_protobuf_Struct_FieldsEntry") ].

Definition google_protobuf_Struct_FieldsEntry : list member :=
  [ Member bytes_ptr "key";
    Member (Struct "google_protobuf_Value") "value" ].

Definition google_protobuf_Struct_FieldsEntry_fields : list pb_decl :=
  [ PB_FIELD 1 BYTES SINGULAR POINTER FIRST "google_protobuf_Struct_FieldsEntry" "key" "key" None;
    PB_FIELD 2 MESSAGE SINGULAR STATIC OTHER "google_protobuf_Struct_FieldsEntry" "value" "key" (Some "google_protobuf_Value") ].

Definition google_protobuf_Value : list member :=
  [ Member pb_size_t "which_kind";
    Union anonymous
      [ (c_enum, "null_value");
        (c_double, "number_value");
        (bytes_ptr, "string_value");
        (c_bool, "bool_value");
        (Struct "google_protobuf_Struct", "struct_value");
        (Struct "google_protobuf_ListValue", "list_value") ] ].

Definition google_protobuf_Value_fields : list pb_decl :=
  [ PB_ANONYMOUS_ONEOF_FIELD "kind" 1 UENUM STATIC FIRST "google_protobuf_Value" "null_value" "null_value" None;
    PB_ANONYMOUS_ONEOF_FIELD "kind" 2 DOUBLE STATIC UNION "google_protobuf_Value" "number_value" "number_value" None;
    PB_ANONYMOUS_ONEOF_FIELD "kind" 3 BYTES POINTER UNION "google_protobuf_Value" "string_value" "string_value" None;
    PB_ANONYMOUS_ONEOF_FIELD "kind" 4 BOOL STATIC UNION "google_protobuf_Value" "bool_value" "bool_value" None;
    PB_ANONYMOUS_ONEOF_FIELD "kind" 5 MESSAGE STATIC UNION "google_protobuf_Value" "struct_value" "struct_value" (Some "google_protobuf_Struct");
    PB_ANONYMOUS_ONEOF_FIELD "kind" 6 MESSAGE STATIC UNION "google_protobuf_Value" "list_value" "list_value" (Some "google_protobuf_ListValue") ].

Definition google_protobuf_ListValue : list member :=
  [ Member pb_size_t "values_count";
    Member (Pointer (Struct "google_protobuf_Value")) "values" ].

Definition google_protobuf_ListValue_fields : list pb_decl :=
  [ PB_FIELD 1 MESSAGE REPEATED POINTER FIRST "google_protobuf_ListValue" "values" "values" (Some "google_protobuf_Value") ].

(** ** [google/protobuf/timestamp] *)

Definition google_protobuf_Timestamp : list member :=
  [ Member c_int64_t "seconds";
    Member c_int32_t "nanos" ].

Definition google_protobuf_Timestamp_fields : list pb_decl :=
  [ PB_FIELD 1 INT64 SINGULAR STATIC FIRST "google_protobuf_Timestamp" "seconds" "seconds" None;
    PB_FIELD 2 INT32 SINGULAR STATIC OTHER "google_protobuf_Timestamp" "nanos" "seconds" None ].

(** ** [google/protobuf/wrappers] *)

Definition google_protobuf_DoubleValue : list member :=
  [ Member c_double "value" ].

Definition google_protobuf_DoubleValue_fields : list pb_decl :=
  [ PB_FIELD 1 DOUBLE SINGULAR STATIC FIRST "google_protobuf_DoubleValue" "value" "value" None ].

Definition google_protobuf_FloatValue : list member :=
  [ Member c_float "value" ].

Definition google_protobuf_FloatValue_fields : list pb_decl :=
  [ PB_FIELD 1 FLOAT SINGULAR STATIC FIRST "google_protobuf_FloatValue" "value" "value" None ].

Definition google_protobuf_Int64Value : list member :=
  [ Member c_int64_t "value" ].

Definition google_protobuf_Int64Value_fields : list pb_decl :=
  [ PB_FIELD 1 INT64 SINGULAR STATIC FIRST "google_protobuf_Int64Value" "value" "value" None ].

Definition google_protobuf_UInt64Value : list member :=
  [ Member c_uint64_t "value" ].

Definition google_protobuf_UInt64Value_fields : list pb_decl :=
  [ PB_FIELD 1 UINT64 SINGULAR STATIC FIRST "google_protobuf_UInt64Value" "value" "value" None ].

Definition google_protobuf_Int32Value : list member :=
  [ Member c_int32_t "value" ].

Definition google_protobuf_Int32Value_fields : list pb_decl :=
  [ PB_FIELD 1 INT32 SINGULAR STATIC FIRST "google_protobuf_Int32Value" "value" "value" None ].

Definition google_protobuf_UInt32Value : list member :=
  [ Member c_uint32_t "value" ].

Definition google_protobuf_UInt32Value_fields : list pb_decl :=
  [ PB_FIELD 1 UINT32 SINGULAR STATIC FIRST "google_protobuf_UInt32Value" "value" "value" None ].

Definition google_protobuf_BoolValue : list member :=
  [ Member c_bool "value" ].

Definition google_protobuf_BoolValue_fields : list pb_decl :=
  [ PB_FIELD 1 BOOL SINGULAR STATIC FIRST "google_protobuf_BoolValue" "value" "value" None ].

Definition google_protobuf_StringValue : list member :=
  [ Member bytes_ptr "value" ].

Definition google_protobuf_StringValue_fields : list pb_decl :=
  [ PB_FIELD 1 BYTES SINGULAR POINTER FIRST "google_protobuf_StringValue" "value" "value" None ].

Definition google_protobuf_BytesValue : list member :=
  [ Member bytes_ptr "value" ].

Definition google_protobuf_BytesValue_fields : list pb_decl :=
  [ PB_FIELD 1 BYTES SINGULAR POINTER FIRST "google_protobuf_BytesValue" "value" "value" None ].

(** ** [google/rpc/status] *)

Definition google_rpc_Status : list member :=
  [ Member c_int32_t "code";
    Member bytes_ptr "message";
    Member pb_size_t "details_count";
    Member (Pointer (Struct "google_protobuf_Any")) "details" ].

Definition google_rpc_Status_fields : list pb_decl :=
  [ PB_FIELD 1 INT32 SINGULAR STATIC FIRST "google_rpc_Status" "code" "code" None;
    PB_FIELD 2 BYTES SINGULAR POINTER OTHER "google_rpc_Status" "message" "code" None;
    PB_FIELD 3 MESSAGE REPEATED POINTER OTHER "google_rpc_Status" "details" "message" (Some "google_protobuf_Any") ].

(** ** [google/type/latlng] *)

Definition google_type_LatLng : list member :=
  [ Member c_double "latitude";
    Member c_double "longitude" ].

Definition google_type_LatLng_fields : list pb_decl :=
  [ PB_FIELD 1 DOUBLE SINGULAR STATIC FIRST "google_type_LatLng" "latitude" "latitude" None;
    PB_FIELD 2 DOUBLE SINGULAR STATIC OTHER "google_type_LatLng" "longitude" "latitude" None ].

(** ** All of them *)

Definition structs : list (string * list member) :=
  [ ("pb_bytes_array_t", pb_bytes_array_t);
    ("firestore_BundledQuery", firestore_BundledQuery);
    ("firestore_NamedQuery", firestore_NamedQuery);
    ("firestore_BundledDocumentMetadata", firestore_BundledDocumentMetadata);
    ("firestore_BundleMetadata", firestore_BundleMetadata);
    ("firestore_BundleElement", firestore_BundleElement);
    ("firestore_client_NoDocument", firestore_client_NoDocument);
    ("firestore_client_UnknownDocument", firestore_client_UnknownDocument);
    ("firestore_client_MaybeDocument", firestore_client_MaybeDocument);
    ("firestore_client_MutationQueue", firestore_client_MutationQueue);
    ("firestore_client_WriteBatch", firestore_client_WriteBatch);
    ("firestore_client_Target", firestore_client_Target);
    ("firestore_client_TargetGlobal", firestore_client_TargetGlobal);
    ("google_firestore_admin_v1_Index", google_firestore_admin_v1_Index);
    ("google_firestore_admin_v1_Index_IndexField", google_firestore_admin_v1_Index_IndexField);
    ("google_firestore_v1_DocumentMask", google_firestore_v1_DocumentMask);
    ("google_firestore_v1_Precondition", google_firestore_v1_Precondition);
    ("google_firestore_v1_TransactionOptions", google_firestore_v1_TransactionOptions);
    ("google_firestore_v1_TransactionOptions_ReadWrite", google_firestore_v1_TransactionOptions_ReadWrite);
    ("google_firestore_v1_TransactionOptions_ReadOnly", google_firestore_v1_TransactionOptions_ReadOnly);
    ("google_firestore_v1_Document", google_firestore_v1_Document);
    ("google_firestore_v1_Document_FieldsEntry", google_firestore_v1_Document_FieldsEntry);
    ("google_firestore_v1_Value", google_firestore_v1_Value);
    ("google_firestore_v1_ArrayValue", google_firestore_v1_ArrayValue);
    ("google_firestore_v1_MapValue", google_firestore_v1_MapValue);
    ("google_firestore_v1_MapValue_FieldsEntry", google_firestore_v1_MapValue_FieldsEntry);
    ("google_firestore_v1_GetDocumentRequest", google_firestore_v1_GetDocumentRequest);
    ("google_firestore_v1_ListDocumentsRequest", google_firestore_v1_ListDocumentsRequest);
    ("google_firestore_v1_ListDocumentsResponse", google_firestore_v1_ListDocumentsResponse);
    ("google_firestore_v1_CreateDocumentRequest", google_firestore_v1_CreateDocumentRequest);
    ("google_firestore_v1_UpdateDocumentRequest", google_firestore_v1_UpdateDocumentRequest);
    ("google_firestore_v1_DeleteDocumentRequest", google_firestore_v1_DeleteDocumentRequest);
    ("google_firestore_v1_BatchGetDocumentsRequest", google_firestore_v1_BatchGetDocumentsRequest);
    ("google_firestore_v1_BatchGetDocumentsResponse", google_firestore_v1_BatchGetDocumentsResponse);
    ("google_firestore_v1_BeginTransactionRequest", google_firestore_v1_BeginTransactionRequest);
    ("google_firestore_v1_BeginTransactionResponse", google_firestore_v1_BeginTransactionResponse);
    ("google_firestore_v1_CommitRequest", google_firestore_v1_CommitRequest);
    ("google_firestore_v1_CommitResponse", google_firestore_v1_CommitResponse);
    ("google_firestore_v1_RollbackRequest", google_firestore_v1_RollbackRequest);
    ("google_firestore_v1_RunQueryRequest", google_firestore_v1_RunQueryRequest);
    ("google_firestore_v1_RunQueryResponse", google_firestore_v1_RunQueryResponse);
    ("google_firestore_v1_WriteRequest", google_firestore_v1_WriteRequest);
    ("google_firestore_v1_WriteRequest_LabelsEntry", google_firestore_v1_WriteRequest_LabelsEntry);
    ("google_firestore_v1_WriteResponse", google_firestore_v1_WriteResponse);
    ("google_firestore_v1_ListenRequest", google_firestore_v1_ListenRequest);
    ("google_firestore_v1_ListenRequest_LabelsEntry", google_firestore_v1_ListenRequest_LabelsEntry);
    ("google_firestore_v1_ListenResponse", google_firestore_v1_ListenResponse);
    ("google_firestore_v1_Target", google_firestore_v1_Target);
    ("google_firestore_v1_Target_DocumentsTarget", google_firestore_v1_Target_DocumentsTarget);
    ("google_firestore_v1_Target_QueryTarget", google_firestore_v1_Target_QueryTarget);
    ("google_firestore_v1_TargetChange", google_firestore_v1_TargetChange);
    ("google_firestore_v1_ListCollectionIdsRequest", google_firestore_v1_ListCollectionIdsRequest);
    ("google_firestore_v1_ListCollectionIdsResponse", google_firestore_v1_ListCollectionIdsResponse);
    ("google_firestore_v1_StructuredQuery", google_firestore_v1_StructuredQuery);
    ("google_firestore_v1_StructuredQuery_CollectionSelector", google_firestore_v1_StructuredQuery_CollectionSelector);
    ("google_firestore_v1_StructuredQuery_Filter", google_firestore_v1_StructuredQuery_Filter);
    ("google_firestore_v1_StructuredQuery_CompositeFilter", google_firestore_v1_StructuredQuery_CompositeFilter);
    ("google_firestore_v1_StructuredQuery_FieldFilter", google_firestore_v1_StructuredQuery_FieldFilter);
    ("google_firestore_v1_StructuredQuery_UnaryFilter", google_firestore_v1_StructuredQuery_UnaryFilter);
    ("google_firestore_v1_StructuredQuery_Order", google_firestore_v1_StructuredQuery_Order);
    ("google_firestore_v1_StructuredQuery_FieldReference", google_firestore_v1_StructuredQuery_FieldReference);
    ("google_firestore_v1_StructuredQuery_Projection", google_firestore_v1_StructuredQuery_Projection);
    ("google_firestore_v1_Cursor", google_firestore_v1_Cursor);
    ("google_firestore_v1_Write", google_firestore_v1_Write);
    ("google_firestore_v1_DocumentTransform", google_firestore_v1_DocumentTransform);
    ("google_firestore_v1_DocumentTransform_FieldTransform", google_firestore_v1_DocumentTransform_FieldTransform);
    ("google_firestore_v1_WriteResult", google_firestore_v1_WriteResult);
    ("google_firestore_v1_DocumentChange", google_firestore_v1_DocumentChange);
    ("google_firestore_v1_DocumentDelete", google_firestore_v1_DocumentDelete);
    ("google_firestore_v1_DocumentRemove", google_firestore_v1_DocumentRemove);
    ("google_firestore_v1_ExistenceFilter", google_firestore_v1_ExistenceFilter);
    ("google_protobuf_Any", google_protobuf_Any);
    ("google_protobuf_Struct", google_protobuf_Struct);
    ("google_protobuf_Struct_FieldsEntry", google_protobuf_Struct_FieldsEntry);
    ("google_protobuf_Value", google_protobuf_Value);
    ("google_protobuf_ListValue", google_protobuf_ListValue);
    ("google_protobuf_Timestamp", google_protobuf_Timestamp);
    ("google_protobuf_DoubleValue", google_protobuf_DoubleValue);
    ("google_protobuf_FloatValue", google_protobuf_FloatValue);
    ("google_protobuf_Int64Value", google_protobuf_Int64Value);
    ("google_protobuf_UInt64Value", google_protobuf_UInt64Value);
    ("google_protobuf_Int32Value", google_protobuf_Int32Value);
    ("google_protobuf_UInt32Value", google_protobuf_UInt32Value);
    ("google_protobuf_BoolValue", google_protobuf_BoolValue);
    ("google_protobuf_StringValue", google_protobuf_StringValue);
    ("google_protobuf_BytesValue", google_protobuf_BytesValue);
    ("google_rpc_Status", google_rpc_Status);
    ("google_type_LatLng", google_type_LatLng) ].

Definition messages : list (string * list pb_decl) :=
  [ ("firestore_BundledQuery", firestore_BundledQuery_fields);
    ("firestore_NamedQuery", firestore_NamedQuery_fields);
    ("firestore_BundledDocumentMetadata", firestore_BundledDocumentMetadata_fields);
    ("firestore_BundleMetadata", firestore_BundleMetadata_fields);
    ("firestore_BundleElement", firestore_BundleElement_fields);
    ("firestore_client_NoDocument", firestore_client_NoDocument_fields);
    ("firestore_client_UnknownDocument", firestore_client_UnknownDocument_fields);
    ("firestore_client_MaybeDocument", firestore_client_MaybeDocument_fields);
    ("firestore_client_MutationQueue", firestore_client_MutationQueue_fields);
    ("firestore_client_WriteBatch", firestore_client_WriteBatch_fields);
    ("firestore_client_Target", firestore_client_Target_fields);
    ("firestore_client_TargetGlobal", firestore_client_TargetGlobal_fields);
    ("google_firestore_admin_v1_Index", google_firestore_admin_v1_Index_fields);
    ("google_firestore_admin_v1_Index_IndexField", google_firestore_admin_v1_Index_IndexField_fields);
    ("google_firestore_v1_DocumentMask", google_firestore_v1_DocumentMask_fields);
    ("google_firestore_v1_Precondition", google_firestore_v1_Precondition_fields);
    ("google_firestore_v1_TransactionOptions", google_firestore_v1_TransactionOptions_fields);
    ("google_firestore_v1_TransactionOptions_ReadWrite", google_firestore_v1_TransactionOptions_ReadWrite_fields);
    ("google_firestore_v1_TransactionOptions_ReadOnly", google_firestore_v1_TransactionOptions_ReadOnly_fields);
    ("google_firestore_v1_Document", google_firestore_v1_Document_fields);
    ("google_firestore_v1_Document_FieldsEntry", google_firestore_v1_Document_FieldsEntry_fields);
    ("google_firestore_v1_Value", google_firestore_v1_Value_fields);
    ("google_firestore_v1_ArrayValue", google_firestore_v1_ArrayValue_fields);
    ("google_firestore_v1_MapValue", google_firestore_v1_MapValue_fields);
    ("google_firestore_v1_MapValue_FieldsEntry", google_firestore_v1_MapValue_FieldsEntry_fields);
    ("google_firestore_v1_GetDocumentRequest", google_firestore_v1_GetDocumentRequest_fields);
    ("google_firestore_v1_ListDocumentsRequest", google_firestore_v1_ListDocumentsRequest_fields);
    ("google_firestore_v1_ListDocumentsResponse", google_firestore_v1_ListDocumentsResponse_fields);
    ("google_firestore_v1_CreateDocumentRequest", google_firestore_v1_CreateDocumentRequest_fields);
    ("google_firestore_v1_UpdateDocumentRequest", google_firestore_v1_UpdateDocumentRequest_fields);
    ("google_firestore_v1_DeleteDocumentRequest", google_firestore_v1_DeleteDocumentRequest_fields);
    ("google_firestore_v1_BatchGetDocumentsRequest", google_firestore_v1_BatchGetDocumentsRequest_fields);
    ("google_firestore_v1_BatchGetDocumentsResponse", google_firestore_v1_BatchGetDocumentsResponse_fields);
    ("google_firestore_v1_BeginTransactionRequest", google_firestore_v1_BeginTransactionRequest_fields);
    ("google_firestore_v1_BeginTransactionResponse", google_firestore_v1_BeginTransactionResponse_fields);
    ("google_firestore_v1_CommitRequest", google_firestore_v1_CommitRequest_fields);
    ("google_firestore_v1_CommitResponse", google_firestore_v1_CommitResponse_fields);
    ("google_firestore_v1_RollbackRequest", google_firestore_v1_RollbackRequest_fields);
    ("google_firestore_v1_RunQueryRequest", google_firestore_v1_RunQueryRequest_fields);
    ("google_firestore_v1_RunQueryResponse", google_firestore_v1_RunQueryResponse_fields);
    ("google_firestore_v1_WriteRequest", google_firestore_v1_WriteRequest_fields);
    ("google_firestore_v1_WriteRequest_LabelsEntry", google_firestore_v1_WriteRequest_LabelsEntry_fields);
    ("google_firestore_v1_WriteResponse", google_firestore_v1_WriteResponse_fields);
    ("google_firestore_v1_ListenRequest", google_firestore_v1_ListenRequest_fields);
    ("google_firestore_v1_ListenRequest_LabelsEntry", google_firestore_v1_ListenRequest_LabelsEntry_fields);
    ("google_firestore_v1_ListenResponse", google_firestore_v1_ListenResponse_fields);
    ("google_firestore_v1_Target", google_firestore_v1_Target_fields);
    ("google_firestore_v1_Target_DocumentsTarget", google_firestore_v1_Target_DocumentsTarget_fields);
    ("google_firestore_v1_Target_QueryTarget", google_firestore_v1_Target_QueryTarget_fields);
    ("google_firestore_v1_TargetChange", google_firestore_v1_TargetChange_fields);
    ("google_firestore_v1_ListCollectionIdsRequest", google_firestore_v1_ListCollectionIdsRequest_fields);
    ("google_firestore_v1_ListCollectionIdsResponse", google_firestore_v1_ListCollectionIdsResponse_fields);
    ("google_firestore_v1_StructuredQuery", google_firestore_v1_StructuredQuery_fields);
    ("google_firestore_v1_StructuredQuery_CollectionSelector", google_firestore_v1_StructuredQuery_CollectionSelector_fields);
    ("google_firestore_v1_StructuredQuery_Filter", google_firestore_v1_StructuredQuery_Filter_fields);
    ("google_firestore_v1_StructuredQuery_CompositeFilter", google_firestore_v1_StructuredQuery_CompositeFilter_fields);
    ("google_firestore_v1_StructuredQuery_FieldFilter", google_firestore_v1_StructuredQuery_FieldFilter_fields);
    ("google_firestore_v1_StructuredQuery_UnaryFilter", google_firestore_v1_StructuredQuery_UnaryFilter_fields);
    ("google_firestore_v1_StructuredQuery_Order", google_firestore_v1_StructuredQuery_Order_fields);
    ("google_firestore_v1_StructuredQuery_FieldReference", google_firestore_v1_StructuredQuery_FieldReference_fields);
    ("google_firestore_v1_StructuredQuery_Projection", google_firestore_v1_StructuredQuery_Projection_fields);
    ("google_firestore_v1_Cursor", google_firestore_v1_Cursor_fields);
    ("google_firestore_v1_Write", google_firestore_v1_Write_fields);
    ("google_firestore_v1_DocumentTransform", google_firestore_v1_DocumentTransform_fields);
    ("google_firestore_v1_DocumentTransform_FieldTransform", google_firestore_v1_DocumentTransform_FieldTransform_fields);
    ("google_firestore_v1_WriteResult", google_firestore_v1_WriteResult_fields);
    ("google_firestore_v1_DocumentChange", google_firestore_v1_DocumentChange_fields);
    ("google_firestore_v1_DocumentDelete", google_firestore_v1_DocumentDelete_fields);
    ("google_firestore_v1_DocumentRemove", google_firestore_v1_DocumentRemove_fields);
    ("google_firestore_v1_ExistenceFilter", google_firestore_v1_ExistenceFilter_fields);
    ("google_protobuf_Any", google_protobuf_Any_fields);
    ("google_protobuf_Struct", google_protobuf_Struct_fields);
    ("google_protobuf_Struct_FieldsEntry", google_protobuf_Struct_FieldsEntry_fields);
    ("google_protobuf_Value", google_protobuf_Value_fields);
    ("google_protobuf_ListValue", google_protobuf_ListValue_fields);
    ("google_protobuf_Timestamp", google_protobuf_Timestamp_fields);
    ("google_protobuf_DoubleValue", google_protobuf_DoubleValue_fields);
    ("google_protobuf_FloatValue", google_protobuf_FloatValue_fields);
    ("google_protobuf_Int64Value", google_protobuf_Int64Value_fields);
    ("google_protobuf_UInt64Value", google_protobuf_UInt64Value_fields);
    ("google_protobuf_Int32Value", google_protobuf_Int32Value_fields);
    ("google_protobuf_UInt32Value", google_protobuf_UInt32Value_fields);
    ("google_protobuf_BoolValue", google_protobuf_BoolValue_fields);
    ("google_protobuf_StringValue", google_protobuf_StringValue_fields);
    ("google_protobuf_BytesValue", google_protobuf_BytesValue_fields);
    ("google_rpc_Status", google_rpc_Status_fields);
    ("google_type_LatLng", google_type_LatLng_fields) ].
