(* ===== verification/PbRequired.v ===== *)
(** * Required fields

    [pb_decode_noinit] marks the required fields it meets in an array of two words, by the
    number that the iterator gives them, and checks at the end with a few comparisons of
    words that none is missing.  The theorem says what these comparisons decide. *)

From stdpp Require Import gmap.
From S2P Require Import Prelude PbStream PbWire PbMem PbIter PbDecode PbLayout.

(** ** Bits of the words *)

Lemma testbit_high w i : 0 <= w < 2 ^ 32 -> 32 <= i -> Z.testbit w i = false.
Proof.
  intros Hw Hi. destruct (decide (w = 0)) as [-> |]; [apply Z.bits_0 |].
  apply Z.bits_above_log2; [lia |]. apply Z.lt_le_trans with 32; [| done].
  apply Z.log2_lt_pow2; lia.
Qed.

(** A word without bits from [r] on is all ones below [r], or one of them is missing. *)
Lemma word_full w r :
  0 <= w < 2 ^ 32 -> 0 <= r <= 32 -> (forall i, r <= i < 32 -> Z.testbit w i = false) ->
  w = Z.ones r <-> forall i, 0 <= i < r -> Z.testbit w i = true.
Proof.
  intros Hw Hr Hhigh. split.
  - intros -> i Hi. by rewrite Z.ones_spec_low.
  - intros Hbits. apply Z.bits_inj'. intros i Hi. destruct (decide (i < r)).
    + rewrite Hbits, Z.ones_spec_low by lia. done.
    + rewrite Z.ones_spec_high by lia. destruct (decide (i < 32)); [by apply Hhigh; lia |].
      apply testbit_high; lia.
Qed.

Lemma allbits_shift r : 0 < r < 32 -> (2 ^ 32 - 1) .>> (32 - r) = Z.ones r.
Proof.
  intros Hr. apply Z.bits_inj'. intros i Hi. rewrite Z.shiftr_spec by done.
  replace (2 ^ 32 - 1) with (Z.ones 32) by done. destruct (decide (i < r)).
  - rewrite !Z.ones_spec_low by lia. done.
  - rewrite !Z.ones_spec_high by lia. done.
Qed.

(** Bit [k] of [fields_seen]. *)
Definition seen_bit (seen : list Z) (k : Z) : bool :=
  Z.testbit (nth (Z.to_nat (k .>> 5)) seen 0) (k .& 31).

(** Two words. *)
Definition seen_ok (seen : list Z) : Prop :=
  length seen = 2%nat /\ Forall (fun w => 0 <= w < 2 ^ 32) seen.

Lemma split_index k : k .>> 5 = k / 32 /\ k .& 31 = k mod 32.
Proof.
  split; [by rewrite Z.shiftr_div_pow2 |]. change 31 with (Z.ones 5). by rewrite Z.land_ones.
Qed.

Lemma seen_bit_lo w0 w1 k : 0 <= k < 32 -> seen_bit [w0; w1] k = Z.testbit w0 k.
Proof.
  intros Hk. unfold seen_bit. destruct (split_index k) as [-> ->].
  by rewrite Z.div_small, Z.mod_small by done.
Qed.

Lemma seen_bit_hi w0 w1 k : 32 <= k < 64 -> seen_bit [w0; w1] k = Z.testbit w1 (k - 32).
Proof.
  intros Hk. unfold seen_bit. destruct (split_index k) as [-> ->].
  replace (k / 32) with 1 by (Z.to_euclidean_division_equations; lia).
  replace (k mod 32) with (k - 32) by (Z.to_euclidean_division_equations; lia). done.
Qed.

(** The comparisons of [pb_decode_noinit] find out whether all of the first [n] bits are
    set, if no later one is. *)
Lemma all_required_seen_spec seen n :
  seen_ok seen -> 0 <= n <= 64 -> (forall k, n <= k < 64 -> seen_bit seen k = false) ->
  all_required_seen seen n = true <-> forall k, 0 <= k < n -> seen_bit seen k = true.
Proof.
  intros [Hlen Hw] Hn Hhigh. destruct seen as [| w0 [| w1 [|]]]; try done.
  inversion_clear Hw as [| ? ? Hw0 Hw']. inversion_clear Hw' as [| ? ? Hw1 _].
  unfold all_required_seen. destruct (split_index n) as [-> ->].
  assert (n / 32 = 0 /\ n mod 32 = n /\ n < 32 \/ n / 32 = 1 /\ n mod 32 = n - 32 /\ 32 <= n < 64 \/
          n / 32 = 2 /\ n mod 32 = 0 /\ n = 64)
    as [(-> & -> & H) | [(-> & -> & H) | (-> & -> & ->)]] by (Z.to_euclidean_division_equations; lia); simpl.
  - destruct (Z.eqb_spec n 0) as [-> |]; simpl; [split; [intros _ k; lia | done] |].
    rewrite allbits_shift, Z.eqb_eq, word_full by
      (lia || done || (intros i Hi; rewrite <- (seen_bit_lo w0 w1) by lia; apply Hhigh; lia)).
    split; intros Hb k Hk; specialize (Hb k Hk); by rewrite seen_bit_lo in * by lia.
  - rewrite andb_true_r, andb_true_iff, Z.eqb_eq. change (2 ^ 32 - 1) with (Z.ones 32) at 1.
    rewrite word_full by (lia || done || (intros i Hi; lia)).
    assert ((if negb (n - 32 =? 0) then w1 =? (2 ^ 32 - 1) .>> (32 - (n - 32)) else true) = true <->
            forall i, 0 <= i < n - 32 -> Z.testbit w1 i = true) as ->.
    { destruct (Z.eqb_spec (n - 32) 0); simpl; [split; [intros _ i; lia | done] |].
      rewrite allbits_shift, Z.eqb_eq by lia. apply word_full; [done | lia |].
      intros i Hi. specialize (Hhigh (i + 32) ltac:(lia)). rewrite seen_bit_hi in Hhigh by lia.
      by replace (i + 32 - 32) with i in Hhigh by lia. }
    split.
    + intros [H0 H1] k Hk. destruct (decide (k < 32)); [rewrite seen_bit_lo by lia; apply H0; lia |].
      rewrite seen_bit_hi by lia. apply H1. lia.
    + intros Hb. split; intros i Hi; [rewrite <- (seen_bit_lo w0 w1) by lia; apply Hb; lia |].
      specialize (Hb (i + 32) ltac:(lia)). rewrite seen_bit_hi in Hb by lia.
      by replace (i + 32 - 32) with i in Hb by lia.
  - rewrite !andb_true_r, andb_true_iff, !Z.eqb_eq. change (2 ^ 32 - 1) with (Z.ones 32).
    rewrite !word_full by (lia || done || (intros i Hi; lia)). split.
    + intros [H0 H1] k Hk. destruct (decide (k < 32)); [rewrite seen_bit_lo by lia; apply H0; lia |].
      rewrite seen_bit_hi by lia. apply H1. lia.
    + intros Hb. split; intros i Hi; [rewrite <- (seen_bit_lo w0 w1) by lia; apply Hb; lia |].
      specialize (Hb (i + 32) ltac:(lia)). rewrite seen_bit_hi in Hb by lia.
      by replace (i + 32 - 32) with i in Hb by lia.
Qed.

Definition set_bit (seen : list Z) (k : Z) : list Z :=
  alter (fun w => w .| u32 (1 .<< (k .& 31))) (Z.to_nat (k .>> 5)) seen.

Lemma set_bit_spec seen k :
  seen_ok seen -> 0 <= k < 64 ->
  seen_ok (set_bit seen k) /\
  forall j, 0 <= j < 64 -> seen_bit (set_bit seen k) j = (j =? k) || seen_bit seen j.
Proof.
  intros [Hlen Hw] Hk. destruct seen as [| w0 [| w1 [|]]]; try done.
  inversion_clear Hw as [| ? ? Hw0 Hw']. inversion_clear Hw' as [| ? ? Hw1 _].
  assert (forall w r, 0 <= w < 2 ^ 32 -> 0 <= r < 32 ->
    0 <= w .| u32 (1 .<< r) < 2 ^ 32 /\
    forall i, 0 <= i -> Z.testbit (w .| u32 (1 .<< r)) i = (i =? r) || Z.testbit w i) as Hor.
  { intros w r Hw Hr. rewrite Z.shiftl_1_l, wrap_small.
    2: { split; [lia |]. apply Z.pow_lt_mono_r; lia. }
    assert (forall i, 0 <= i -> Z.testbit (w .| 2 ^ r) i = (i =? r) || Z.testbit w i) as Hbit.
    { intros i Hi. rewrite Z.lor_spec, Z.pow2_bits_eqb by lia. rewrite orb_comm. f_equal. apply Z.eqb_sym. }
    split; [| done]. split; [apply Z.lor_nonneg; lia |].
    rewrite <- (Z.mod_small w (2 ^ 32)), <- (Z.mod_small (2 ^ r) (2 ^ 32)), <- !Z.land_ones by
      (split; [lia | apply Z.pow_lt_mono_r; lia] || lia).
    rewrite <- Z.land_lor_distr_l, Z.land_ones by lia. by apply Z.mod_pos_bound. }
  unfold set_bit. destruct (split_index k) as [-> ->].
  assert (k / 32 = 0 /\ k mod 32 = k /\ k < 32 \/ k / 32 = 1 /\ k mod 32 = k - 32 /\ 32 <= k)
    as [(-> & -> & H) | (-> & -> & H)] by (Z.to_euclidean_division_equations; lia);
    [destruct (Hor w0 k Hw0 ltac:(lia)) as [Hr Hb] | destruct (Hor w1 (k - 32) Hw1 ltac:(lia)) as [Hr Hb]];
    [change (alter _ _ _) with [w0 .| u32 (1 .<< k); w1] | change (alter _ _ _) with [w0; w1 .| u32 (1 .<< (k - 32))]];
    (split; [split; [done | by rewrite !Forall_cons] |]); intros j Hj;
    (destruct (decide (j < 32)); [rewrite !seen_bit_lo by lia | rewrite !seen_bit_hi by lia]);
    rewrite ?Hb by lia; try done.
  - by rewrite (proj2 (Z.eqb_neq j k)) by lia.
  - by rewrite (proj2 (Z.eqb_neq j k)) by lia.
  - f_equal. apply Bool.eq_iff_eq_true. rewrite !Z.eqb_eq. lia.
Qed.

(** ** The walk to the last field *)

Section Walk.
Context (fields : list pb_field_t) (dest : Z).
Context (Hok : fields_ok fields) (Hdest : dest <> 0).

Lemma last_field_spec n i p p0 q :
  layout fields !! i = Some p -> layout fields !! 0%nat = Some p0 ->
  layout fields !! (length fields - 1)%nat = Some q -> (length fields - i <= n)%nat ->
  last_field n (iter_at fields dest i p)
  = Some (required_before fields (length fields - 1), f_type (p_field q), iter_at fields dest 0 p0).
Proof.
  intros Hp Hp0 Hq. revert i p Hp. induction n as [| n IH]; intros i p Hp Hn;
    pose proof (lookup_lt_Some _ _ _ Hp) as Hi; rewrite length_layout in Hi; [lia |].
  cbn [last_field]. rewrite (cur_iter_at fields dest i p) by done.
  destruct (decide (S i = length fields)) as [He | He].
  - rewrite (iter_wrap fields dest Hok Hdest i p p0) by done.
    replace (length fields - 1)%nat with i in * by lia. rewrite Hp in Hq. injection Hq as <-. done.
  - destruct (layout_is_Some fields (S i)) as [p' Hp']; [lia |].
    rewrite (iter_next fields dest Hok i p p') by done. apply IH; [done | lia].
Qed.

Lemma required_count_spec p0 q :
  layout fields !! 0%nat = Some p0 -> layout fields !! (length fields - 1)%nat = Some q ->
  required_count (required_before fields (length fields - 1)) (f_type (p_field q)) (iter_at fields dest 0 p0)
  = Z.min 64 (required_before fields (length fields)).
Proof.
  intros Hp0 Hq. unfold required_count. rewrite (cur_iter_at fields dest 0 p0) by done.
  rewrite (proj2 (Z.eqb_neq (f_tag (p_field p0)) 0)) by by eapply tag_at. rewrite andb_true_r.
  pose proof (lookup_lt_Some _ _ _ Hq) as Hlt. rewrite length_layout in Hlt.
  pose proof (required_before_S fields _ _ (layout_lookup _ _ _ Hq)) as HS.
  replace (S (length fields - 1)) with (length fields) in HS by lia. unfold is_required in HS.
  pose proof (required_before_le fields (length fields - 1)).
  pose proof (required_before_le fields (length fields)). destruct Hok as [_ Hlen]. revert HS.
  destruct (_ =? PB_HTYPE_REQUIRED); intros HS; unfold PB_MAX_REQUIRED_FIELDS; rewrite ?wrap_small by lia;
    match goal with |- context [64 <? ?x] => destruct (Z.ltb_spec 64 x) end; lia.
Qed.

(** The fields at the positions [js] are met, one after the other. *)
Definition meet (l : decode_locals) (j : nat) : decode_locals :=
  match layout fields !! j with
  | Some p => mark_seen (set_iter (iter_at fields dest j p) l)
  | None => l
  end.
Definition meet_all (js : list nat) (l : decode_locals) : decode_locals := foldl meet l js.

(** The required fields met so far have their bits set, and no other bit is. *)
Definition marked (js : list nat) (seen : list Z) : Prop :=
  seen_ok seen /\
  forall k, 0 <= k < 64 ->
    seen_bit seen k = true <->
    exists j f, j ∈ js /\ fields !! j = Some f /\ is_required f = true /\ required_before fields j = k.

Lemma meet_marked js j l :
  (j < length fields)%nat -> marked js (fields_seen l) -> marked (js ++ [j]) (fields_seen (meet l j)).
Proof.
  intros Hj [Hseen Hm]. destruct (layout_is_Some fields j Hj) as [p Hp]. unfold meet. rewrite Hp.
  unfold mark_seen. cbn [l_iter set_iter fields_seen required_field_index iter_at].
  rewrite (cur_iter_at fields dest j p) by done. change (_ =? PB_HTYPE_REQUIRED) with (is_required (p_field p)).
  pose proof (layout_lookup _ _ _ Hp) as Hf. pose proof (required_before_le fields j).
  assert (forall k, (exists j' f, j' ∈ js ++ [j] /\ fields !! j' = Some f /\ is_required f = true /\
                       required_before fields j' = k) <->
    (exists j' f, j' ∈ js /\ fields !! j' = Some f /\ is_required f = true /\ required_before fields j' = k) \/
    is_required (p_field p) = true /\ required_before fields j = k) as Hex.
  { intros k. split.
    - intros (j' & f & [Hin | ->%list_elem_of_singleton]%elem_of_app & Hf' & Hr & Hk); [left; by exists j', f |].
      right. rewrite Hf in Hf'. by injection Hf' as ->.
    - intros [(j' & f & ? & ? & ? & ?) | [? ?]]; [exists j', f | exists j, (p_field p)];
        (split_and!; [apply elem_of_app | done..]); [by left | right; by apply list_elem_of_singleton]. }
  destruct (is_required (p_field p)) eqn:Er; simpl.
  - destruct (Z.ltb_spec (required_before fields j) PB_MAX_REQUIRED_FIELDS) as [Hlt | Hge]; simpl.
    + destruct (set_bit_spec (fields_seen l) (required_before fields j) Hseen) as [Hs Hb];
        [unfold PB_MAX_REQUIRED_FIELDS in Hlt; lia |].
      split; [exact Hs |]. intros k Hk. change (alter _ _ _) with (set_bit (fields_seen l) (required_before fields j)).
      rewrite Hb, orb_true_iff, Z.eqb_eq, Hm, Hex by done. naive_solver.
    + split; [done |]. intros k Hk. rewrite Hm, Hex by done. unfold PB_MAX_REQUIRED_FIELDS in Hge.
      split; [by left |]. intros [? | [_ ?]]; [done | lia].
  - split; [done |]. intros k Hk. rewrite Hm, Hex by done. naive_solver.
Qed.

(** The iterator is at one of the fields. *)
Definition at_place (it : pb_field_iter_t) : Prop :=
  exists i p, layout fields !! i = Some p /\ it = iter_at fields dest i p.

Lemma meet_place l j : at_place (l_iter l) -> at_place (l_iter (meet l j)).
Proof.
  intros Hl. unfold meet. destruct (layout fields !! j) as [p |] eqn:Hp; [| done]. unfold mark_seen.
  destruct (_ && _); by exists j, p.
Qed.

Lemma meet_all_marked done js l :
  Forall (fun j => j < length fields)%nat js -> marked done (fields_seen l) -> at_place (l_iter l) ->
  marked (done ++ js) (fields_seen (meet_all js l)) /\ at_place (l_iter (meet_all js l)) /\
  fixed_count_field (meet_all js l) = fixed_count_field l.
Proof.
  intros Hjs. revert done l. induction Hjs as [| j js Hj Hjs IH]; intros done l Hm Hs; cbn [meet_all foldl].
  { by rewrite app_nil_r. }
  assert (fixed_count_field (meet l j) = fixed_count_field l) as Hfix.
  { unfold meet. destruct (layout fields !! j); [| done]. unfold mark_seen. by destruct (_ && _). }
  destruct (IH (done ++ [j]) (meet l j)) as (? & ? & ?); [by apply meet_marked | by apply meet_place |].
  rewrite <- app_assoc in *. split_and!; [done | done | by rewrite <- Hfix].
Qed.

Lemma marked_nil : marked [] [0; 0].
Proof.
  split; [split; [done | by repeat constructor] |]. intros k Hk. split.
  - unfold seen_bit. assert (k .>> 5 = 0 \/ k .>> 5 = 1) as [-> | ->]
      by (destruct (split_index k) as [-> _]; Z.to_euclidean_division_equations; lia); simpl; by rewrite Z.bits_0.
  - intros (j & f & Hj & _). by apply elem_of_nil in Hj.
Qed.

Lemma required_index j f n :
  fields !! j = Some f -> is_required f = true -> (j < n)%nat ->
  required_before fields j < required_before fields n.
Proof.
  intros Hf Hr Hn. pose proof (required_before_S fields j f Hf) as HS. rewrite Hr in HS.
  assert (forall a b, (a <= b)%nat -> required_before fields a <= required_before fields b) as Hmono.
  { intros a b Hab. unfold required_before. apply Nat2Z.inj_le. replace (take a fields) with (take a (take b fields))
      by (rewrite take_take; f_equal; lia).
    rewrite <- (take_drop a (take b fields)) at 2. rewrite filter_app, length_app. lia. }
  specialize (Hmono (S j) n ltac:(lia)). lia.
Qed.

Lemma required_at k :
  0 <= k < required_before fields (length fields) ->
  exists j f, fields !! j = Some f /\ is_required f = true /\ required_before fields j = k.
Proof.
  assert (forall n, (n <= length fields)%nat -> 0 <= k < required_before fields n ->
    exists j f, fields !! j = Some f /\ is_required f = true /\ required_before fields j = k) as H; [| by apply H].
  induction n as [| n IH]; intros Hn Hk; [unfold required_before in Hk; simpl in Hk; lia |].
  destruct (lookup_lt_is_Some_2 fields n ltac:(lia)) as [f Hf].
  pose proof (required_before_S fields n f Hf) as HS. destruct (is_required f) eqn:Er.
  - destruct (decide (k < required_before fields n)); [apply IH; lia |].
    exists n, f. split_and!; [done | done | lia].
  - apply IH; lia.
Qed.
End Walk.

Section Check.
Context {St : Type} `{ReadCallback St}.
Context (fields : list pb_field_t) (dest : Z) (Hok : fields_ok fields) (Hdest : dest <> 0) (Hne : fields <> []).

(** C7: The check for missing required fields is exact: after the fields at the positions
    [js] were met, in any order and any number of times, it passes if and only if every
    required field of the message, of the first 64 that the decoder keeps track of, is
    among them; otherwise the message is refused. *)
Theorem required_fields_checked js (s : dstate St) (Hjs : Forall (fun j => j < length fields)%nat js) :
  let l := meet_all fields dest js (mk_locals (pb_field_iter_begin fields dest).2 [0; 0] 0 None) in
  ((check_decoded l s).1 = Done tt <->
   forall j f, fields !! j = Some f -> is_required f = true -> required_before fields j < 64 -> j ∈ js) /\
  ((check_decoded l s).1 = Done tt \/ (check_decoded l s).1 = Failed).
Proof.
  destruct (layout_is_Some fields 0) as [p0 Hp0]; [destruct fields; simpl; (done || lia) |].
  destruct (layout_is_Some fields (length fields - 1)) as [q Hq]; [apply lookup_lt_Some in Hp0; rewrite length_layout in Hp0; lia |].
  rewrite (iter_begin fields dest Hok Hdest p0 Hp0). intros l. cbn [snd] in l.
  destruct (meet_all_marked fields dest Hdest [] js (mk_locals (iter_at fields dest 0 p0) [0; 0] 0 None) Hjs
    (marked_nil fields)) as ([Hseen Hm] & (i & p & Hp & Hit) & Hfix); [by exists 0%nat, p0 |].
  fold l in Hseen, Hm, Hit, Hfix. simpl in Hfix, Hm.
  set (n := Z.min 64 (required_before fields (length fields))).
  assert (check_decoded l s = if (0 <? n) && negb (all_required_seen (fields_seen l) n)
                              then DERROR "missing required field" s else (Done tt, s)) as ->.
  { unfold check_decoded, fixed_count_wrong, mbind, prog_bind. rewrite Hfix, Hit. cbn [mret prog_ret iter_at start].
    rewrite (last_field_spec fields dest Hok Hdest _ i p p0 q) by (done || lia).
    rewrite (required_count_spec fields dest Hok p0 q) by done. fold n. by destruct (_ && _). }
  pose proof (required_before_le fields (length fields)) as Hle.
  assert (forall k, n <= k < 64 -> seen_bit (fields_seen l) k = false) as Hhigh.
  { intros k Hk. apply not_true_is_false. rewrite Hm by lia. intros (j & f & _ & Hf & Hr & <-).
    pose proof (required_index fields j f (length fields) Hf Hr (lookup_lt_Some _ _ _ Hf)). lia. }
  pose proof (all_required_seen_spec (fields_seen l) n Hseen ltac:(lia) Hhigh) as Hall.
  assert ((forall k, 0 <= k < n -> seen_bit (fields_seen l) k = true) <->
    forall j f, fields !! j = Some f -> is_required f = true -> required_before fields j < 64 -> j ∈ js) as Hiff.
  { split.
    - intros Hb j f Hf Hr Hlt. pose proof (required_before_le fields j).
      pose proof (required_index fields j f (length fields) Hf Hr (lookup_lt_Some _ _ _ Hf)).
      specialize (Hb (required_before fields j) ltac:(lia)). rewrite Hm in Hb by lia.
      destruct Hb as (j' & f' & Hin & Hf' & Hr' & Heq).
      destruct (decide (j < j')%nat); [pose proof (required_index fields j f j' Hf Hr ltac:(done)); lia |].
      destruct (decide (j' < j)%nat); [pose proof (required_index fields j' f' j Hf' Hr' ltac:(done)); lia |].
      by replace j with j' by lia.
    - intros Hb k Hk. rewrite Hm by lia. destruct (required_at fields k ltac:(lia)) as (j & f & Hf & Hr & Heq).
      exists j, f. split_and!; [| done..]. apply (Hb j f Hf Hr). lia. }
  destruct (all_required_seen (fields_seen l) n) eqn:Ea.
  - rewrite andb_false_r. split; [| by left]. split; [intros _; exact (proj1 Hiff (proj1 Hall eq_refl)) | done].
  - assert (0 < n) as Hn.
    { destruct (decide (0 < n)); [done |]. exfalso. assert (false = true) by (apply Hall; intros k Hk; lia). done. }
    rewrite (proj2 (Z.ltb_lt 0 n)) by done. simpl. split; [| by right]. split; [done |]. intros Hb.
    discriminate (proj2 Hall (proj2 Hiff Hb)).
Qed.
End Check.

(** Two required fields around an optional one. *)
Definition demo_fields : list pb_field_t :=
  [mk_field 1 (PB_HTYPE_REQUIRED .| PB_LTYPE_BOOL) 0 0 1 0 PtrNull;
   mk_field 2 (PB_HTYPE_OPTIONAL .| PB_LTYPE_BOOL) 0 0 1 0 PtrNull;
   mk_field 3 (PB_HTYPE_REQUIRED .| PB_LTYPE_BOOL) 0 0 1 0 PtrNull].

Lemma demo_ok : fields_ok demo_fields.
Proof. split; [repeat constructor; done | done]. Qed.

Lemma required_fields_checked_witness :
  let s : dstate unit := mk_dstate (pb_istream_from_buffer [] 0) ∅ ∅ 0 in
  let l := meet_all demo_fields 16 [2; 1]%nat (mk_locals (pb_field_iter_begin demo_fields 16).2 [0; 0] 0 None) in
  ((check_decoded l s).1 = Done tt <->
   forall j f, demo_fields !! j = Some f -> is_required f = true -> required_before demo_fields j < 64 ->
     j ∈ [2; 1]%nat) /\
  ((check_decoded l s).1 = Done tt \/ (check_decoded l s).1 = Failed).
Proof.
  intros s. apply (required_fields_checked demo_fields 16 demo_ok); [done | done |].
  repeat constructor; simpl; lia.
Defined.

(** ... where the first one is missing. *)
Example demo_missing :
  (check_decoded (meet_all demo_fields 16 [2; 1]%nat
     (mk_locals (pb_field_iter_begin demo_fields 16).2 [0; 0] 0 None))
   (mk_dstate (pb_istream_from_buffer [] 0) ∅ ∅ 0 : dstate unit)).1 = Failed.
Proof. by vm_compute. Qed.
