(* ===== verification/Sep.v ===== *)
(** * Separation logic of memory and blocks

    Assertions about a part of the memory and some of the allocated blocks, as a logic of
    bunched implications in which the Iris proof mode works.  The logic is linear: an
    assertion describes all of its part, so that a proof which gives back what it was
    given shows that no block is lost.

    An assertion may also speak of a number of credits, which only grows: [counted c] says
    that there are [c] of them or more.  The program logic of the decoder gives a credit for
    every byte of the input that was read, so that the entries of an array, each of which
    took a byte, can be counted. *)

From stdpp Require Import gmap.
From iris.bi Require Import bi.
From iris.proofmode Require Import proofmode.
From S2P Require Import Prelude PbMem.

(** What an assertion describes. *)
Definition res : Type := memory * blocks.

(** [z] is the disjoint union of [x] and [y]. *)
Definition joins (x y z : res) : Prop :=
  x.1 ##ₘ y.1 /\ x.2 ##ₘ y.2 /\ z = (x.1 ∪ y.1, x.2 ∪ y.2).

Lemma joins_comm x y z : joins x y z -> joins y x z.
Proof.
  intros (H1 & H2 & ->). split_and!; [done.. |]. f_equal; by apply map_union_comm.
Qed.

Lemma joins_assoc x y z xy w :
  joins x y xy -> joins xy z w -> exists yz, joins y z yz /\ joins x yz w.
Proof.
  intros (H1 & H2 & ->) (H3 & H4 & ->). simpl in *.
  apply map_disjoint_union_l in H3 as [??]. apply map_disjoint_union_l in H4 as [??].
  eexists. split; [done |]. split_and!; [by apply map_disjoint_union_r_2 .. |].
  simpl. by rewrite !(assoc_L (∪)).
Qed.

Lemma joins_unit_l x : joins (∅, ∅) x x.
Proof.
  split_and!; [apply map_disjoint_empty_l .. |]. destruct x. by rewrite !(left_id_L ∅ (∪)).
Qed.

Lemma joins_unit_l_inv x y : joins (∅, ∅) x y -> y = x.
Proof. intros (_ & _ & ->). destruct x. by rewrite !(left_id_L ∅ (∪)). Qed.

(** ** Assertions *)

Record hprop := HProp {
  holds : nat -> res -> Prop;
  holds_up e e' x : (e <= e')%nat -> holds e x -> holds e' x;
}.
Bind Scope bi_scope with hprop.

Section Ofe.
Inductive hprop_equiv' (P Q : hprop) : Prop :=
  { hprop_in_equiv : forall e x, holds P e x <-> holds Q e x }.
Local Instance hprop_equiv : Equiv hprop := hprop_equiv'.
Local Instance hprop_equivalence : Equivalence (≡@{hprop}).
Proof.
  split.
  - by constructor.
  - intros P Q [H]. constructor. intros e x. by rewrite H.
  - intros P Q R [H] [H']. constructor. intros e x. by rewrite H H'.
Qed.
Canonical Structure hpropO := discreteO hprop.
End Ofe.

#[local] Obligation Tactic := try (by intros); cbn beta.

Section Connectives.
Definition h_entails (P Q : hprop) : Prop := forall e x, holds P e x -> holds Q e x.
Program Definition h_emp : hprop := HProp (fun _ x => x = (∅, ∅)) _.
Program Definition h_pure (phi : Prop) : hprop := HProp (fun _ _ => phi) _.
Program Definition h_and (P Q : hprop) : hprop := HProp (fun e x => holds P e x /\ holds Q e x) _.
Next Obligation. intros P Q e e' x He [? ?]. eauto using holds_up. Qed.
Program Definition h_or (P Q : hprop) : hprop := HProp (fun e x => holds P e x \/ holds Q e x) _.
Next Obligation. intros P Q e e' x He [? | ?]; eauto using holds_up. Qed.
Program Definition h_impl (P Q : hprop) : hprop :=
  HProp (fun e x => forall e', (e <= e')%nat -> holds P e' x -> holds Q e' x) _.
Next Obligation. intros P Q e e' x Hle H e2 Hle2. apply H. lia. Qed.
Program Definition h_forall (A : Type) (P : A -> hprop) : hprop :=
  HProp (fun e x => forall a, holds (P a) e x) _.
Next Obligation. intros A P e e' x He H a. eauto using holds_up. Qed.
Program Definition h_exist (A : Type) (P : A -> hprop) : hprop :=
  HProp (fun e x => exists a, holds (P a) e x) _.
Next Obligation. intros A P e e' x He [a ?]. eauto using holds_up. Qed.
Program Definition h_sep (P Q : hprop) : hprop :=
  HProp (fun e z => exists x y, joins x y z /\ holds P e x /\ holds Q e y) _.
Next Obligation. intros P Q e e' z Hle (x & y & Hj & Hx & Hy). exists x, y. split_and!; eauto using holds_up. Qed.
Program Definition h_wand (P Q : hprop) : hprop :=
  HProp (fun e x => forall e' y z, (e <= e')%nat -> joins x y z -> holds P e' y -> holds Q e' z) _.
Next Obligation. intros P Q e e' x Hle H e2 y z Hle2. apply H. lia. Qed.
Definition h_persistently (P : hprop) : hprop := h_pure (h_entails h_emp P).
Definition h_later (P : hprop) : hprop := P.
End Connectives.

Lemma hprop_bi_mixin :
  BiMixin h_entails h_emp h_pure h_and h_or h_impl h_forall h_exist h_sep h_wand.
Proof.
  split.
  - split; [by intros P e x | intros P Q R H1 H2 e x Hx; by apply H2, H1].
  - intros P Q. split; [intros [H]; split; intros e x; apply H | intros [H1 H2]].
    constructor. intros e x. split; [apply H1 | apply H2].
  - intros n phi psi H. constructor. intros e x. exact H.
  - intros n P P' [H1] Q Q' [H2]. constructor. intros e x. simpl. by rewrite H1 H2.
  - intros n P P' [H1] Q Q' [H2]. constructor. intros e x. simpl. by rewrite H1 H2.
  - intros n P P' [H1] Q Q' [H2]. constructor. intros e x. simpl.
    split; intros H e' He; [rewrite -H1 -H2 | rewrite H1 H2]; by apply H.
  - intros A n P Q H. constructor. intros e x. simpl.
    split; intros Hx a; by apply (H a).
  - intros A n P Q H. constructor. intros e x. simpl.
    split; intros [a Hx]; exists a; by apply (H a).
  - intros n P P' [H1] Q Q' [H2]. constructor. intros e x. simpl.
    split; intros (y & z & ? & ? & ?); exists y, z; (split_and!; [done | by apply H1 | by apply H2]).
  - intros n P P' [H1] Q Q' [H2]. constructor. intros e x. simpl.
    split; intros H e' y z He Hj Hy; apply H2, (H e' y z He Hj), H1, Hy.
  - by intros phi P Hphi e x _.
  - intros phi P H e x Hphi. by apply H.
  - by intros P Q e x [? ?].
  - by intros P Q e x [? ?].
  - intros P Q R H1 H2 e x Hx. split; [by apply H1 | by apply H2].
  - intros P Q e x Hx. by left.
  - intros P Q e x Hx. by right.
  - intros P Q R H1 H2 e x [Hx | Hx]; [by apply H1 | by apply H2].
  - intros P Q R H e x Hp e' He Hq. apply H. split; [by eapply holds_up | done].
  - intros P Q R H e x [Hp Hq]. by apply (H e x Hp e).
  - intros A P Q H e x Hx a. by apply H.
  - intros A P a e x Hx. apply Hx.
  - intros A P a e x Hx. by exists a.
  - intros A P Q H e x [a Hx]. by apply (H a).
  - intros P P' Q Q' H1 H2 e x (y & z & Hj & Hy & Hz). exists y, z.
    split_and!; [done | by apply H1 | by apply H2].
  - intros P e x Hx. exists (∅, ∅), x. split_and!; [apply joins_unit_l | done | done].
  - intros P e x (y & z & Hj & -> & Hz). by rewrite (joins_unit_l_inv _ _ Hj).
  - intros P Q e x (y & z & Hj & Hy & Hz). exists z, y. split_and!; [by apply joins_comm | done | done].
  - intros P Q R e x (yz & w & Hj & (y & z & Hj' & Hy & Hz) & Hw).
    destruct (joins_assoc y z w yz x Hj' Hj) as (zw & ? & ?).
    exists y, zw. split_and!; [done | done |]. by exists z, w.
  - intros P Q R H e x Hx e' y z He Hj Hy. apply H. exists x, y. split_and!; [done | by eapply holds_up | done].
  - intros P Q R H e x (y & z & Hj & Hy & Hz). by apply (H e y Hy e z x).
Qed.

Lemma hprop_bi_persistently_mixin :
  BiPersistentlyMixin h_entails h_emp h_and h_exist h_sep h_persistently.
Proof.
  eapply bi_persistently_mixin_discrete, hprop_bi_mixin; [done | | done].
  intros A P H. destruct (H 0%nat (∅, ∅) eq_refl) as [a Ha]. exists a.
  intros e x ->. eapply holds_up, Ha. lia.
Qed.

Lemma hprop_bi_later_mixin :
  BiLaterMixin h_entails h_pure h_or h_impl h_forall h_exist h_sep h_persistently h_later.
Proof. eapply bi_later_mixin_id; [done | apply hprop_bi_mixin]. Qed.

Canonical Structure hpropI : bi :=
  {| bi_ofe_mixin := ofe_mixin_of hprop;
     bi_bi_mixin := hprop_bi_mixin;
     bi_bi_persistently_mixin := hprop_bi_persistently_mixin;
     bi_bi_later_mixin := hprop_bi_later_mixin |}.

#[export] Instance hprop_pure_forall : BiPureForall hpropI.
Proof. intros A phi e x H a. apply H. Qed.
#[export] Instance hprop_persistently_forall : BiPersistentlyForall hpropI.
Proof. intros A phi e x H e' y Hy a. by apply H. Qed.

(** ** Credits *)

Program Definition counted (c : Z) : hprop := HProp (fun e x => c <= Z.of_nat e /\ x = (∅, ∅)) _.
Next Obligation. simpl. intros c e e' x He [? ?]. split; [lia | done]. Qed.

Lemma counted_emp c : counted c ⊢ emp.
Proof. by intros e x [_ ?]. Qed.

Lemma counted_0 : emp ⊢ counted 0.
Proof. intros e x Hx. split; [lia | exact Hx]. Qed.

Lemma counted_sep c P e x : holds (counted c ∗ P) e x <-> c <= Z.of_nat e /\ holds P e x.
Proof.
  split.
  - intros (y & z & Hj & [Hc ->] & Hz). by rewrite (joins_unit_l_inv _ _ Hj).
  - intros [Hc Hx]. exists (∅, ∅), x. split_and!; [apply joins_unit_l | done | done].
Qed.

(** ** Bytes in memory, allocated blocks *)

Program Definition pts (a : Z) (l : list byte) : hprop := HProp (fun _ x => x = (put ∅ a l, ∅)) _.
Program Definition blk (p n : Z) : hprop := HProp (fun _ x => x = (∅, {[p := n]})) _.

Notation "a ↦ l" := (pts a l) (at level 20, format "a  ↦  l") : bi_scope.

Lemma put_lookup m a l i :
  put m a l !! i
  = if decide (a <= i < a + Z.of_nat (length l)) then l !! Z.to_nat (i - a) else m !! i.
Proof.
  revert a. induction l as [| b l IH]; intros a; simpl.
  { by case_decide; [lia |]. }
  destruct (decide (i = a)) as [-> | Hne].
  - rewrite lookup_insert_eq. case_decide; [| lia]. by rewrite Z.sub_diag.
  - rewrite lookup_insert_ne; [| done]. rewrite IH.
    repeat case_decide; try lia; [| done].
    replace (Z.to_nat (i - a)) with (S (Z.to_nat (i - (a + 1)))) by lia. done.
Qed.

Lemma put_union m a l : put m a l = put ∅ a l ∪ m.
Proof.
  apply map_eq. intros i. rewrite lookup_union !put_lookup lookup_empty.
  case_decide; [| symmetry; apply (left_id_L None (∪))].
  destruct (lookup_lt_is_Some_2 l (Z.to_nat (i - a))) as [b ->]; [lia |]. by rewrite union_Some_l.
Qed.

Lemma put_disjoint m a l :
  put ∅ a l ##ₘ m <-> forall i, a <= i < a + Z.of_nat (length l) -> m !! i = None.
Proof.
  rewrite map_disjoint_alt. split.
  - intros H i Hi. destruct (H i) as [Hn |]; [| done].
    rewrite put_lookup decide_True in Hn; [| done].
    apply lookup_ge_None in Hn. lia.
  - intros H i. rewrite put_lookup lookup_empty. case_decide; [right; by apply H | by left].
Qed.

Lemma load_Some m a n l :
  load m a n = Some l <->
  length l = n /\ forall i, a <= i < a + Z.of_nat n -> m !! i = l !! Z.to_nat (i - a).
Proof.
  revert a l. induction n as [| n IH]; intros a l; simpl.
  { split; [intros [= <-]; split; [done | lia] |]. intros [Hl _]. by destruct l. }
  split.
  - intros H. apply bind_Some in H as (b & Hb & H). apply bind_Some in H as (l' & Hl & H).
    injection H as <-. apply IH in Hl as [<- Hl]. split; [done |]. intros i Hi.
    destruct (decide (i = a)) as [-> | Hne]; [by rewrite Z.sub_diag |].
    rewrite Hl; [| lia]. by replace (Z.to_nat (i - a)) with (S (Z.to_nat (i - (a + 1)))) by lia.
  - intros [Hl H]. destruct l as [| b l]; [done |]. simpl in Hl.
    rewrite (H a); [| lia]. rewrite Z.sub_diag. simpl.
    rewrite ((proj2 (IH (a + 1) l))); [done |]. split; [lia |]. intros i Hi.
    rewrite H; [| lia]. by replace (Z.to_nat (i - a)) with (S (Z.to_nat (i - (a + 1)))) by lia.
Qed.

Lemma pts_app a l1 l2 : a ↦ (l1 ++ l2) ⊣⊢ a ↦ l1 ∗ (a + Z.of_nat (length l1)) ↦ l2.
Proof.
  assert (put ∅ a l1 ##ₘ put ∅ (a + Z.of_nat (length l1)) l2) as Hd.
  { apply put_disjoint. intros i Hi. rewrite put_lookup decide_False; [done | lia]. }
  assert (put ∅ a (l1 ++ l2) = put ∅ a l1 ∪ put ∅ (a + Z.of_nat (length l1)) l2) as He.
  { rewrite -put_union. apply map_eq. intros i. rewrite !put_lookup lookup_empty length_app.
    destruct (decide (a <= i < a + Z.of_nat (length l1))).
    - rewrite decide_True; [| lia]. by rewrite lookup_app_l; [| lia].
    - case_decide; case_decide; try lia; [| done]. rewrite lookup_app_r; [| lia]. f_equal. lia. }
  constructor. intros e x. split.
  - intros Hx. simpl in Hx. subst x. rewrite He. exists (put ∅ a l1, ∅), (put ∅ (a + Z.of_nat (length l1)) l2, ∅).
    split_and!; [| done | done]. split_and!; [done | apply map_disjoint_empty_l |].
    simpl. by rewrite (left_id_L ∅ (∪)).
  - intros (y & z & (H1 & H2 & ->) & -> & ->). simpl. by rewrite He (left_id_L ∅ (∪)).
Qed.

Lemma pts_nil a : a ↦ [] ⊣⊢ emp.
Proof. by constructor. Qed.

(** *** What the assertions say of the state *)

Lemma sep_pts_inv a l R e m h :
  holds (a ↦ l ∗ R) e (m, h) <->
  exists m', put ∅ a l ##ₘ m' /\ m = put m' a l /\ holds R e (m', h).
Proof.
  split.
  - intros (y & [m' h'] & (H1 & H2 & H3) & -> & HR). simpl in *. injection H3 as -> ->.
    exists m'. rewrite (left_id_L ∅ (∪)). split_and!; [done | by rewrite (put_union m') | done].
  - intros (m' & Hd & -> & HR). exists (put ∅ a l, ∅), (m', h).
    split_and!; [| done | done]. split_and!; [done | apply map_disjoint_empty_l |].
    simpl. by rewrite (left_id_L ∅ (∪)) (put_union m').
Qed.

Lemma sep_blk_inv p n R e m h :
  holds (blk p n ∗ R) e (m, h) <-> exists h', h' !! p = None /\ h = <[p := n]> h' /\ holds R e (m, h').
Proof.
  split.
  - intros (y & [m' h'] & (H1 & H2 & H3) & -> & HR). simpl in *. injection H3 as -> ->.
    apply map_disjoint_singleton_l in H2. exists h'. rewrite (left_id_L ∅ (∪)).
    split_and!; [done | by rewrite insert_union_singleton_l | done].
  - intros (h' & Hd & -> & HR). exists (∅, {[p := n]}), (m, h').
    split_and!; [| done | done].
    split_and!; [apply map_disjoint_empty_l | by apply map_disjoint_singleton_l |].
    simpl. by rewrite (left_id_L ∅ (∪)) insert_union_singleton_l.
Qed.

Lemma pts_load a l R e m h : holds (a ↦ l ∗ R) e (m, h) -> load m a (length l) = Some l.
Proof.
  intros (m' & _ & -> & _)%sep_pts_inv. apply load_Some. split; [done |]. intros i Hi.
  by rewrite put_lookup decide_True.
Qed.

Lemma put_put m a l l' : length l = length l' -> put (put m a l) a l' = put m a l'.
Proof.
  intros Hl. apply map_eq. intros i. rewrite !put_lookup Hl. by repeat case_decide.
Qed.

Lemma pts_store a l l' R e m h :
  holds (a ↦ l ∗ R) e (m, h) -> length l' = length l ->
  exists m', store m a l' = Some m' /\ holds (a ↦ l' ∗ R) e (m', h).
Proof.
  intros H Hl. pose proof (pts_load a l R e m h H) as Hload.
  apply sep_pts_inv in H as (m' & Hd & -> & HR).
  exists (put m' a l'). unfold store. rewrite Hl Hload. simpl. rewrite put_put; [| done].
  split; [done |]. apply sep_pts_inv. exists m'. split_and!; [| done | done].
  apply put_disjoint. rewrite Hl. by apply put_disjoint.
Qed.

Lemma forget_lookup m a n i :
  forget m a n !! i = if decide (a <= i < a + Z.of_nat n) then None else m !! i.
Proof.
  revert a. induction n as [| n IH]; intros a; simpl.
  { by case_decide; [lia |]. }
  destruct (decide (i = a)) as [-> | Hne].
  - rewrite lookup_delete_eq decide_True; [done | lia].
  - rewrite lookup_delete_ne; [| done]. rewrite IH. by repeat case_decide; try lia.
Qed.

Lemma forget_put m a l :
  put ∅ a l ##ₘ m -> forget (put m a l) a (length l) = m.
Proof.
  intros Hd. rewrite put_disjoint in Hd. apply map_eq. intros i.
  rewrite forget_lookup put_lookup. case_decide; [by rewrite Hd | done].
Qed.

(** A block of the allocator with its contents. *)
Definition block (p : Z) (l : list byte) : hprop := (p ↦ l ∗ blk p (Z.of_nat (length l)))%I.

Lemma block_inv p l R e m h :
  holds (block p l ∗ R) e (m, h) <->
  exists m' h', put ∅ p l ##ₘ m' /\ m = put m' p l /\ h' !! p = None /\
    h = <[p := Z.of_nat (length l)]> h' /\ holds R e (m', h').
Proof.
  assert (holds (block p l ∗ R) e (m, h) <-> holds (p ↦ l ∗ (blk p (Z.of_nat (length l)) ∗ R)) e (m, h)) as ->.
  { assert (block p l ∗ R ⊣⊢ p ↦ l ∗ (blk p (Z.of_nat (length l)) ∗ R)) as [H]
      by by rewrite /block assoc.
    apply H. }
  rewrite sep_pts_inv. split.
  - intros (m' & Hd & -> & (h' & Hh & -> & HR)%sep_blk_inv). by exists m', h'.
  - intros (m' & h' & Hd & -> & Hh & -> & HR). exists m'. split_and!; [done | done |].
    apply sep_blk_inv. by exists h'.
Qed.

Section Allocator.
Context `{Allocator}.

Lemma new_block_holds R e m h n a l :
  new_block m h n = Some a -> Z.of_nat (length l) = n -> holds R e (m, h) ->
  holds (block a l ∗ R) e (put m a l, <[a := n]> h).
Proof.
  intros (Ha & Hm & Hh & Hi)%new_block_spec Hl HR. apply block_inv. exists m, h.
  rewrite Hl. split_and!; [| done | done | done | done].
  apply put_disjoint. by rewrite Hl.
Qed.

(** What [realloc] leaves: the old block if it fails, otherwise the new one. *)
Definition realloc_post (old : list byte) (before R : hprop) (n : Z) (e : nat) (m : memory) (h : blocks)
    (r : Z * memory * blocks) : Prop :=
  (r = (0, m, h) /\ holds before e (m, h)) \/
  (exists a m' h' l, r = (a, m', h') /\ 0 < a /\ a + n <= 2 ^ 64 /\
     Z.of_nat (length l) = n /\ (forall i, Z.of_nat i < n -> (i < length old)%nat -> l !! i = old !! i) /\
     holds (block a l ∗ R) e (m', h')).

Lemma realloc_holds p old R e m h n :
  0 <= n -> p <> 0 -> holds (block p old ∗ R) e (m, h) ->
  exists r, realloc m h p n = Some r /\ realloc_post old (block p old ∗ R)%I R n e m h r.
Proof.
  intros Hn Hp HB. pose proof HB as (m' & h' & Hd & -> & Hh & -> & HR)%block_inv.
  unfold realloc. destruct (Z.eqb_spec p 0); [done |].
  rewrite lookup_insert_eq. simpl. rewrite Nat2Z.id.
  assert (load (put m' p old) p (length old) = Some old) as ->.
  { apply load_Some. split; [done |]. intros i Hi. by rewrite put_lookup decide_True. }
  simpl. rewrite forget_put; [| done]. rewrite delete_insert_id; [| done].
  destruct (new_block m' h' n) as [a |] eqn:E; (eexists; split; [done |]); [right | by left].
  pose proof (new_block_spec _ _ _ _ E) as (Ha & Hm & _).
  set (l := take (Z.to_nat n) old ++ _).
  assert (Z.of_nat (length l) = n) as Hl.
  { unfold l, fresh_bytes. rewrite length_app length_drop length_fmap length_seqZ length_take. lia. }
  eexists a, _, _, l. split_and!; [done.. | | by apply new_block_holds].
  intros i Hi Hi'. unfold l. rewrite lookup_app_l; [apply lookup_take_lt; lia | rewrite length_take; lia].
Qed.

Lemma realloc_null_holds R e m h n :
  0 <= n -> holds R e (m, h) ->
  exists r, realloc m h 0 n = Some r /\ realloc_post [] R R n e m h r.
Proof.
  intros Hn HR. unfold realloc. simpl.
  destruct (new_block m h n) as [a |] eqn:E; (eexists; split; [done |]); [right | by left].
  pose proof (new_block_spec _ _ _ _ E) as (Ha & Hm & _).
  rewrite take_nil /= drop_0.
  assert (Z.of_nat (length (fresh_bytes m a (Z.to_nat n))) = n) as Hl
    by (unfold fresh_bytes; rewrite length_fmap length_seqZ; lia).
  eexists a, _, _, _. split_and!; [done.. | | by apply new_block_holds].
  simpl. lia.
Qed.

Lemma free_holds p l R e m h :
  p <> 0 -> holds (block p l ∗ R) e (m, h) ->
  exists m' h', free m h p = Some (m', h') /\ holds R e (m', h').
Proof.
  intros Hp (m' & h' & Hd & -> & Hh & -> & HR)%block_inv.
  exists m', h'. split; [| done]. unfold free. destruct (Z.eqb_spec p 0); [done |].
  rewrite lookup_insert_eq. simpl. rewrite Nat2Z.id.
  assert (load (put m' p l) p (length l) = Some l) as ->.
  { apply load_Some. split; [done |]. intros i Hi. by rewrite put_lookup decide_True. }
  simpl. rewrite forget_put; [| done]. by rewrite delete_insert_id.
Qed.
End Allocator.

#[global] Arguments holds : simpl never.
