(* ===== verification/Slice.v ===== *)
(** * Parts of a byte string

    [sub o n l]: the [n] bytes of [l] at offset [o]; [upd o k l]: [l] with the bytes [k] at
    offset [o].  The members of a struct are parts of its bytes. *)

From S2P Require Import Prelude PbWire PbMem.

Definition sub (o n : Z) (l : list byte) : list byte := take (Z.to_nat n) (drop (Z.to_nat o) l).
Definition upd (o : Z) (k l : list byte) : list byte := list_inserts (Z.to_nat o) k l.

Abbreviation lenB l := (Z.of_nat (length l)).

Section Slice.
Implicit Types (l k : list byte) (o n : Z).

Lemma length_sub o n l : 0 <= o -> 0 <= n -> o + n <= lenB l -> lenB (sub o n l) = n.
Proof. intros. unfold sub. rewrite length_take, length_drop. lia. Qed.

Lemma length_upd o k l : length (upd o k l) = length l.
Proof. apply length_inserts. Qed.

Lemma lookup_sub o n l i :
  0 <= o -> sub o n l !! i = if decide (Z.of_nat i < n) then l !! (Z.to_nat o + i)%nat else None.
Proof.
  intros Ho. unfold sub. case_decide.
  - rewrite lookup_take_lt by lia. by rewrite lookup_drop.
  - by rewrite lookup_take_ge by lia.
Qed.

Lemma lookup_upd o k l i :
  0 <= o ->
  upd o k l !! i =
  if decide (o <= Z.of_nat i < o + lenB k /\ Z.of_nat i < lenB l)
  then k !! (i - Z.to_nat o)%nat else l !! i.
Proof.
  intros Ho. unfold upd. case_decide as Hd.
  - apply list_lookup_inserts; lia.
  - destruct (decide (Z.of_nat i < o)); [by rewrite list_lookup_inserts_lt by lia |].
    destruct (decide (Z.of_nat i < lenB l)); [by rewrite list_lookup_inserts_ge by lia |].
    by rewrite !lookup_ge_None_2 by (rewrite ?length_inserts; lia).
Qed.

(** A part of an updated string: away from the update, ... *)
Lemma sub_upd_disj o n p k l :
  0 <= o -> 0 <= p -> o + n <= p \/ p + lenB k <= o -> sub o n (upd p k l) = sub o n l.
Proof.
  intros Ho Hp Hd. apply list_eq. intros i. rewrite !lookup_sub by done. case_decide; [| done].
  rewrite lookup_upd by done. by rewrite decide_False by lia.
Qed.

(** ... within it, ... *)
Lemma sub_upd_in o n p k l :
  0 <= p <= o -> 0 <= n -> o + n <= p + lenB k -> p + lenB k <= lenB l ->
  sub o n (upd p k l) = sub (o - p) n k.
Proof.
  intros Ho Hn H1 H2. apply list_eq. intros i. rewrite !lookup_sub by lia. case_decide; [| done].
  rewrite lookup_upd by lia. rewrite decide_True by lia. f_equal. lia.
Qed.

(** ... the update itself, ... *)
Lemma sub_upd_same p k l :
  0 <= p -> p + lenB k <= lenB l -> sub p (lenB k) (upd p k l) = k.
Proof.
  intros Hp Hl. rewrite sub_upd_in by lia. unfold sub. rewrite Z.sub_diag, drop_0, Nat2Z.id.
  by apply firstn_all.
Qed.

(** ... and around an update of a part. *)
Lemma sub_upd_out o n p k l :
  0 <= o <= p -> p + lenB k <= o + n -> o + n <= lenB l ->
  sub o n (upd p k l) = upd (p - o) k (sub o n l).
Proof.
  intros Ho H1 H2. apply list_eq. intros i. rewrite lookup_upd by lia.
  rewrite !lookup_sub by lia. rewrite length_sub by lia. case_decide.
  - rewrite lookup_upd by lia. case_decide; case_decide; try lia; [| done]. f_equal. lia.
  - by rewrite decide_False by lia.
Qed.

Lemma sub_sub o n o' n' l :
  0 <= o -> 0 <= o' -> o' + n' <= n -> sub o' n' (sub o n l) = sub (o + o') n' l.
Proof.
  intros Ho Ho' Hn. apply list_eq. intros i. rewrite !lookup_sub by lia. case_decide; [| done].
  rewrite decide_True by lia. f_equal. lia.
Qed.

Lemma upd_sub o n l : 0 <= o -> 0 <= n -> upd o (sub o n l) l = l.
Proof.
  intros Ho Hn. apply list_eq. intros i. rewrite lookup_upd by done.
  case_decide as Hd; [| done]. rewrite lookup_sub by done.
  destruct Hd as [Hd Hl]. revert Hd. unfold sub at 1. rewrite length_take, length_drop.
  intros Hd. rewrite decide_True by lia. f_equal. lia.
Qed.

Lemma upd_upd o k k' l : 0 <= o -> length k = length k' -> upd o k' (upd o k l) = upd o k' l.
Proof.
  intros Ho Hk. apply list_eq. intros i. rewrite !lookup_upd, length_upd by done.
  rewrite <- Hk. by case_decide.
Qed.

Lemma split_at o n l :
  0 <= o -> 0 <= n -> o + n <= lenB l ->
  l = take (Z.to_nat o) l ++ sub o n l ++ drop (Z.to_nat (o + n)) l.
Proof.
  intros Ho Hn Hl. unfold sub. rewrite Z2Nat.inj_add, <- drop_drop, take_drop by lia.
  by rewrite take_drop.
Qed.

Lemma upd_split o k l :
  0 <= o -> o + lenB k <= lenB l ->
  upd o k l = take (Z.to_nat o) l ++ k ++ drop (Z.to_nat (o + lenB k)) l.
Proof.
  intros Ho Hl. apply list_eq. intros i. rewrite lookup_upd by done. case_decide as Hd.
  - rewrite lookup_app_r, length_take by (rewrite length_take; lia).
    rewrite lookup_app_l by lia. f_equal. lia.
  - destruct (decide (Z.of_nat i < o)).
    + rewrite lookup_app_l by (rewrite length_take; lia). by rewrite lookup_take_lt by lia.
    + rewrite lookup_app_r, length_take by (rewrite length_take; lia).
      rewrite lookup_app_r by lia. rewrite lookup_drop.
      destruct (decide (Z.of_nat i < lenB l)); [f_equal; lia |].
      by rewrite !lookup_ge_None_2 by lia.
Qed.

(** Every byte of [l] is looked at. *)
Lemma sub_all l : sub 0 (lenB l) l = l.
Proof. unfold sub. rewrite drop_0, Nat2Z.id. apply firstn_all. Qed.

(** The values of members of a struct. *)
Definition size_of (o : Z) (l : list byte) : Z := le_value (sub o 4 l).
Definition ptr_of (o : Z) (l : list byte) : Z := le_value (sub o 8 l).

Lemma size_of_range o l : 0 <= size_of o l < 2 ^ 32.
Proof.
  unfold size_of. pose proof (le_value_range (sub o 4 l)) as H.
  assert (256 ^ lenB (sub o 4 l) <= 256 ^ 4); [| change (256 ^ 4) with (2 ^ 32) in *; lia].
  apply Z.pow_le_mono_r; [lia |]. unfold sub. rewrite length_take. lia.
Qed.

Lemma length_size_bytes n : length (size_bytes n) = 4%nat.
Proof. apply length_le_bytes. Qed.
Lemma length_ptr_bytes n : length (ptr_bytes n) = 8%nat.
Proof. apply length_le_bytes. Qed.

Lemma size_of_upd o n l :
  0 <= o -> o + 4 <= lenB l -> 0 <= n < 2 ^ 32 -> size_of o (upd o (size_bytes n) l) = n.
Proof.
  intros Ho Hl Hn. unfold size_of.
  replace 4 with (lenB (size_bytes n)) by (by rewrite length_size_bytes).
  rewrite sub_upd_same by (rewrite ?length_size_bytes; lia).
  unfold size_bytes. rewrite le_value_le_bytes. by apply Z.mod_small.
Qed.

Lemma ptr_of_upd o p l :
  0 <= o -> o + 8 <= lenB l -> 0 <= p < 2 ^ 64 -> ptr_of o (upd o (ptr_bytes p) l) = p.
Proof.
  intros Ho Hl Hn. unfold ptr_of.
  replace 8 with (lenB (ptr_bytes p)) by (by rewrite length_ptr_bytes).
  rewrite sub_upd_same by (rewrite ?length_ptr_bytes; lia).
  unfold ptr_bytes. rewrite le_value_le_bytes. by apply Z.mod_small.
Qed.
End Slice.
