(* ===== verification/PbTriple.v ===== *)
(** * A program logic for the decoder

    [triple n P m n' Q E]: with at most [n] bytes left of the input and a part of the memory
    described by [P], [m] runs without an error of the program and within its fuel; it
    returns [a] with [Q a], having read [n - n' a] bytes or more, or fails with [E]; the rest
    of the memory and of the blocks is as it was, and the stream stands further on in the same
    buffer.  The credits of [Sep.v] are the bytes that were read: those left and the credits
    add up to a number [T] that does not change, and that is at most the [budget]. *)

From stdpp Require Import gmap.
From iris.proofmode Require Import proofmode.
From S2P Require Import Prelude PbStream PbWire PbSafe PbMem PbIter PbDecode Sep Slice.

(** At most [n] bytes are left, and a buffer goes on for [c] bytes or more after them; it is
    a final part of [base]. *)
Definition within {St} (base : list byte) (c n : Z) (s : pb_istream_t St) : Prop :=
  0 <= bytes_left s <= n /\ bytes_left s < 2 ^ 64 /\
  match i_src s with
  | BufSrc mem => (exists k, mem = drop k base) /\ bytes_left s + c <= lenB mem
  | CbSrc _ => True
  end.

Section Within.
Context {St : Type} `{ReadCallback St}.

Lemma within_error {A} base c n msg (s : pb_istream_t St) :
  within base c n s -> within base c n (PB_RETURN_ERROR (A:=A) msg s).2.
Proof. done. Qed.

Lemma within_weaken base c n n' (s : pb_istream_t St) :
  within base c n s -> n <= n' -> within base c n' s.
Proof. unfold within. intros (? & ? & ?) ?. split_and!; (done || lia). Qed.

(** Reading [k] bytes. *)
Lemma within_read_direct base c n k (s : pb_istream_t St) :
  0 <= c -> 0 <= k -> within base c n s ->
  match pb_read_direct k s with
  | (Done _, s') => within base c (n - k) s'
  | (Failed, s') => within base c n s'
  | _ => False
  end.
Proof.
  intros Hc Hk Hs. unfold pb_read_direct. destruct (Z.eqb_spec k 0) as [-> |].
  { simpl. by rewrite Z.sub_0_r. }
  destruct Hs as (Hn & H64 & Hm). unfold mbind, prog_bind, getS. simpl.
  destruct (Z.ltb_spec (bytes_left s) k); [done |].
  unfold run_callback.
  destruct s as [src b e]; simpl in *. destruct src as [mem | st]; simpl.
  - destruct Hm as [[j ->] Hl]. destruct (Nat.leb_spec (Z.to_nat k) (length (drop j base))); [| lia].
    simpl. unfold within; simpl. rewrite wrap_small; [| lia].
    split_and!; [lia | lia | lia | |].
    + eexists. by rewrite drop_drop.
    + rewrite length_drop. lia.
  - destruct (user_read st _) as [[l |] st'] eqn:E; simpl; [| unfold within; simpl; split_and!; (done || lia)].
    unfold within; simpl. rewrite wrap_small; [| lia]. split_and!; (done || lia).
Qed.

Lemma within_readbyte base c n (s : pb_istream_t St) :
  0 <= c -> within base c n s ->
  match pb_readbyte s with
  | (Done _, s') => within base c (n - 1) s'
  | (Failed, s') => within base c n s'
  | _ => False
  end.
Proof.
  intros Hc (Hn & H64 & Hm). unfold pb_readbyte, mbind, prog_bind, getS. simpl.
  destruct (Z.eqb_spec (bytes_left s) 0); [unfold within; simpl; split_and!; (done || lia) |].
  unfold run_callback.
  destruct s as [src b e]; simpl in *. destruct src as [mem | st]; simpl.
  - destruct Hm as [[j Hj] Hl]. destruct mem as [| x mem]; simpl in *; [lia |].
    unfold within; simpl. rewrite drop_0. split_and!; [lia | lia | lia | | lia].
    exists (S j). by rewrite -Nat.add_1_r -drop_drop -Hj.
  - destruct (user_read st 1) as [[[| x l] |] st'] eqn:E; simpl; try (unfold within; simpl; split_and!; (done || lia)).
Qed.

Lemma within_read_skip fuel base c n k (s : pb_istream_t St) :
  0 <= c -> 0 <= k -> k / 16 <= Z.of_nat fuel -> within base c n s ->
  match pb_read_skip fuel k s with
  | (Done _, s') => within base c (n - k) s'
  | (Failed, s') => within base c n s'
  | _ => False
  end.
Proof.
  intros Hc. revert k n s. induction fuel as [| fuel IH]; intros k n s Hk Hf Hs; simpl;
    destruct (Z.ltb_spec 16 k).
  - exfalso. Z.to_euclidean_division_equations. lia.
  - pose proof (within_read_direct base c n k s Hc Hk Hs) as Hr. unfold mbind, prog_bind.
    by destruct (pb_read_direct k s) as [[] ?].
  - pose proof (within_read_direct base c n 16 s Hc ltac:(lia) Hs) as Hr. unfold mbind, prog_bind.
    destruct (pb_read_direct 16 s) as [[] s']; [| done..].
    assert ((k - 16) / 16 <= Z.of_nat fuel) as Hf' by (Z.to_euclidean_division_equations; lia).
    pose proof (IH (k - 16) (n - 16) s' ltac:(lia) Hf' Hr) as IHs.
    destruct (pb_read_skip fuel (k - 16) s') as [[] s'']; [| | done..].
    + eapply within_weaken; [done | lia].
    + eapply within_weaken; [done | lia].
  - pose proof (within_read_direct base c n k s Hc Hk Hs) as Hr. unfold mbind, prog_bind.
    by destruct (pb_read_direct k s) as [[] ?].
Qed.

Lemma within_read base c n null k (s : pb_istream_t St) :
  0 <= c -> 0 <= k -> within base c n s ->
  match pb_read null k s with
  | (Done _, s') => within base c (n - k) s'
  | (Failed, s') => within base c n s'
  | _ => False
  end.
Proof.
  intros Hc Hk Hs. unfold pb_read. destruct (Z.eqb_spec k 0) as [-> |].
  { simpl. by rewrite Z.sub_0_r. }
  unfold mbind, prog_bind, getS. simpl.
  destruct (i_src s); [by apply within_read_direct |].
  destruct null; [| by apply within_read_direct].
  apply within_read_skip; try done. Z.to_euclidean_division_equations. lia.
Qed.

#[export] Instance within_inv base c n : 0 <= c -> StreamInv (within (St:=St) base c n).
Proof.
  intros Hc. split.
  - intros s (Hn & H64 & Hm). split; [lia |]. destruct (i_src s); [| done]. lia.
  - intros A msg s Hs. by split_and!.
  - intros s Hs. pose proof (within_readbyte base c n s Hc Hs) as Hr.
    destruct (pb_readbyte s) as [[] s']; split_and!; try done.
    simpl. eapply within_weaken; [done | lia].
  - intros null k Hk s Hs. pose proof (within_read base c n null k s Hc Hk Hs) as Hr.
    destruct (pb_read null k s) as [[] s']; split_and!; try done.
    simpl. eapply within_weaken; [done | lia].
Qed.
End Within.

(** ** Triples *)

(** A bound on the bytes of the input. *)
Class Budget := budget : Z.

(** The bytes read, of [T]. *)
Definition credits {St} (T : Z) (s : dstate St) : nat := Z.to_nat (T - bytes_left (d_in s)).

Section Triple.
Context {St : Type} `{ReadCallback St} `{Allocator} {Bud : Budget}.

Definition triple {A} (n : Z) (P : hprop) (m : prog (dstate St) A) (n' : A -> Z)
    (Q : A -> hprop) (E : hprop) : Prop :=
  forall base c R s T, 0 <= c -> within base c n (d_in s) -> bytes_left (d_in s) <= T <= budget ->
    holds (P ∗ R) (credits T s) (d_mem s, d_blocks s) ->
    match m s with
    | (Done a, s') =>
        within base c (bytes_left (d_in s) - Z.max 0 (n - n' a)) (d_in s') /\
        holds (Q a ∗ R) (credits T s') (d_mem s', d_blocks s')
    | (Failed, s') =>
        within base c (bytes_left (d_in s)) (d_in s') /\
        holds (E ∗ R) (credits T s') (d_mem s', d_blocks s')
    | _ => False
    end.

Implicit Types (P E R : hprop).

Lemma holds_mono P Q e x : (P ⊢ Q) -> holds P e x -> holds Q e x.
Proof. intros HPQ. apply HPQ. Qed.

Lemma within_left base c n (s : pb_istream_t St) : within base c n s -> within base c (bytes_left s) s.
Proof. intros (? & ? & ?). split_and!; (done || lia). Qed.

Lemma credits_up T (s s' : dstate St) x P :
  bytes_left (d_in s') <= bytes_left (d_in s) -> holds P (credits T s) x -> holds P (credits T s') x.
Proof. intros Hs HP. eapply holds_up, HP. unfold credits. lia. Qed.

Lemma triple_bind {A B} n n1 n2 P (m : prog (dstate St) A) Q1 (f : A -> prog (dstate St) B) Q E :
  triple n P m n1 Q1 E -> (forall a, n1 a <= n) ->
  (forall a, triple (n1 a) (Q1 a) (f a) n2 Q E) -> triple n P (m ≫= f) n2 Q E.
Proof.
  intros Hm Hle Hf base c R s T Hc Hs HT HP. unfold mbind, prog_bind.
  specialize (Hm base c R s T Hc Hs HT HP). destruct (m s) as [[a | | |] s']; try done.
  destruct Hm as [Hs' HQ]. pose proof Hs as (Hl & _ & _). pose proof Hs' as (Hl' & _ & _).
  assert (within base c (n1 a) (d_in s')) as Hs1 by (eapply within_weaken; [done | lia]).
  specialize (Hf a base c R s' T Hc Hs1 ltac:(lia) HQ).
  destruct (f a s') as [[b | | |] s'']; try done; destruct Hf as [Hw HE]; (split; [| done]);
    (eapply within_weaken; [done | lia]).
Qed.

(** A step that uses no input. *)
Lemma triple_seq {A B} n n2 P (m : prog (dstate St) A) Q1 (f : A -> prog (dstate St) B) Q E :
  triple n P m (fun _ => n) Q1 E -> (forall a, triple n (Q1 a) (f a) n2 Q E) ->
  triple n P (m ≫= f) n2 Q E.
Proof. intros Hm Hf. by eapply triple_bind. Qed.

Lemma triple_weaken {A} n P P' (m : prog (dstate St) A) n' n'' (Q Q' : A -> hprop) E E' :
  triple n P' m n' Q' E' -> (P ⊢ P') -> (forall a, Q' a ⊢ Q a) -> (E' ⊢ E) ->
  (forall a, n' a <= n'' a) -> triple n P m n'' Q E.
Proof.
  intros Hm HP HQ HE Hn base c R s T Hc Hs HT HPR.
  assert (holds (P' ∗ R) (credits T s) (d_mem s, d_blocks s)) as HPR'.
  { eapply holds_mono; [| done]. by apply bi.sep_mono_l. }
  specialize (Hm base c R s T Hc Hs HT HPR'). destruct (m s) as [[a | | |] s']; try done.
  - destruct Hm as [? HQR]. specialize (Hn a). split; [eapply within_weaken; [done | lia] |].
    eapply holds_mono; [| done]. by apply bi.sep_mono_l.
  - destruct Hm as [? HER]. split; [done |]. eapply holds_mono; [| done]. by apply bi.sep_mono_l.
Qed.

Lemma triple_pre {A} n P P' (m : prog (dstate St) A) n' (Q : A -> hprop) E :
  (P ⊢ P') -> triple n P' m n' Q E -> triple n P m n' Q E.
Proof. intros HP Hm. by eapply triple_weaken. Qed.

Lemma triple_post {A} n P (m : prog (dstate St) A) n' (Q Q' : A -> hprop) E :
  (forall a, Q' a ⊢ Q a) -> triple n P m n' Q' E -> triple n P m n' Q E.
Proof. intros HP Hm. by eapply triple_weaken. Qed.

Lemma triple_err {A} n P (m : prog (dstate St) A) n' (Q : A -> hprop) E E' :
  (E' ⊢ E) -> triple n P m n' Q E' -> triple n P m n' Q E.
Proof. intros HP Hm. by eapply triple_weaken. Qed.

Lemma triple_left {A} n P (m : prog (dstate St) A) n' n'' (Q : A -> hprop) E :
  triple n P m n' Q E -> (forall a, n' a <= n'' a) -> triple n P m n'' Q E.
Proof. intros Hm Hn. by eapply triple_weaken. Qed.

Lemma triple_frame {A} n P (m : prog (dstate St) A) n' (Q : A -> hprop) E F :
  triple n P m n' Q E -> triple n (P ∗ F) m n' (fun a => Q a ∗ F)%I (E ∗ F).
Proof.
  intros Hm base c R s T Hc Hs HT HP.
  assert (forall X e x, holds ((X ∗ F) ∗ R) e x <-> holds (X ∗ (F ∗ R)) e x) as Ha.
  { intros X. assert ((X ∗ F) ∗ R ⊣⊢ X ∗ (F ∗ R))%I as [Ha] by by rewrite assoc. apply Ha. }
  apply Ha in HP. specialize (Hm base c (F ∗ R)%I s T Hc Hs HT HP).
  destruct (m s) as [[a | | |] s']; try done; by rewrite Ha.
Qed.

(** The frame rule as it is used: what [m] does not need comes back with the result. *)
Lemma triple_framed {A} n P P0 F (m : prog (dstate St) A) n' (Q Q0 : A -> hprop) E E0 :
  (P ⊢ P0 ∗ F) -> triple n P0 m n' Q0 E0 -> (forall a, Q0 a ∗ F ⊢ Q a) -> (E0 ∗ F ⊢ E) ->
  triple n P m n' Q E.
Proof.
  intros HP Hm HQ HE.
  eapply triple_weaken; [exact (triple_frame n P0 m n' Q0 E0 F Hm) | done | exact HQ | exact HE | done].
Qed.

Lemma triple_exist {A X} n (P : X -> hprop) (m : prog (dstate St) A) n' (Q : A -> hprop) E :
  (forall x, triple n (P x) m n' Q E) -> triple n (∃ x, P x) m n' Q E.
Proof.
  intros Hm base c R s T Hc Hs HT (y & z & Hj & [x Hx] & HR). apply (Hm x base c R s T Hc Hs HT).
  by exists y, z.
Qed.

Lemma triple_pure {A} n (phi : Prop) P (m : prog (dstate St) A) n' (Q : A -> hprop) E :
  (phi -> triple n P m n' Q E) -> triple n (⌜phi⌝ ∧ P) m n' Q E.
Proof.
  intros Hm base c R s T Hc Hs HT (y & z & Hj & [Hphi Hx] & HR). apply (Hm Hphi base c R s T Hc Hs HT).
  by exists y, z.
Qed.

(** A fact that follows from the precondition. *)
Lemma triple_fact {A} n (phi : Prop) P (m : prog (dstate St) A) n' (Q : A -> hprop) E :
  (P ⊢ ⌜phi⌝) -> (phi -> triple n P m n' Q E) -> triple n P m n' Q E.
Proof.
  intros HP Hm. apply (triple_pre _ _ (⌜phi⌝ ∧ P)%I); [by apply bi.and_intro |]. by apply triple_pure.
Qed.

Lemma triple_ret {A} n P (a : A) n' (Q : A -> hprop) E :
  (P ⊢ Q a) -> n <= n' a -> triple n P (mret a) n' Q E.
Proof.
  intros HP Hn base c R s T Hc Hs HT HPR. simpl. split; [eapply within_weaken; [by eapply within_left | lia] |].
  eapply holds_mono; [| done]. by apply bi.sep_mono_l.
Qed.

Lemma triple_if {A} n P (b : bool) (m1 m2 : prog (dstate St) A) n' (Q : A -> hprop) E :
  (b = true -> triple n P m1 n' Q E) -> (b = false -> triple n P m2 n' Q E) ->
  triple n P (if b then m1 else m2) n' Q E.
Proof. destruct b; auto. Qed.

(** Laws of the monad. *)
Lemma triple_bind_ret {A B} n P (a : A) (f : A -> prog (dstate St) B) n' (Q : B -> hprop) E :
  triple n P (f a) n' Q E -> triple n P (mret a ≫= f) n' Q E.
Proof. exact id. Qed.

Lemma triple_assoc {A B C} n P (m : prog (dstate St) A) (f : A -> prog (dstate St) B)
    (g : B -> prog (dstate St) C) n' (Q : C -> hprop) E :
  triple n P (m ≫= fun x => f x ≫= g) n' Q E -> triple n P ((m ≫= f) ≫= g) n' Q E.
Proof.
  intros Hm base c R s T Hc Hs HT HP. specialize (Hm base c R s T Hc Hs HT HP). by rewrite prog_bind_assoc.
Qed.

Lemma triple_if_bind {A B} n P (b : bool) (m1 m2 : prog (dstate St) A)
    (f : A -> prog (dstate St) B) n' (Q : B -> hprop) E :
  (b = true -> triple n P (m1 ≫= f) n' Q E) -> (b = false -> triple n P (m2 ≫= f) n' Q E) ->
  triple n P ((if b then m1 else m2) ≫= f) n' Q E.
Proof. destruct b; auto. Qed.

Lemma triple_fail {A} n P n' (Q : A -> hprop) E : (P ⊢ E) -> triple n P (fail : prog _ A) n' Q E.
Proof.
  intros HE base c R s T Hc Hs HT HPR. simpl. split; [by eapply within_left |].
  eapply holds_mono; [| done]. by apply bi.sep_mono_l.
Qed.

(** *** The stream *)

Lemma triple_lift {A} n P (m : prog (pb_istream_t St) A) n' (phi : A -> Prop) (Q : A -> hprop) E :
  (forall base c n0, 0 <= c -> n0 <= n ->
     runs (within base c n0) m (fun a s => within base c (n0 - Z.max 0 (n - n' a)) s /\ phi a) (within base c n0)) ->
  (forall a, phi a -> P ⊢ Q a) -> (P ⊢ E) -> triple n P (lift m) n' Q E.
Proof.
  intros Hm HQ HE base c R s T Hc Hs HT HPR. unfold lift. pose proof Hs as ([_ Hn] & _ & _).
  specialize (Hm base c (bytes_left (d_in s)) Hc Hn _ (within_left _ _ _ _ Hs)).
  destruct (m (d_in s)) as [[a | | |] i]; try done; simpl.
  - destruct Hm as [Hw Ha]. split; [done |]. destruct Hw as ([_ Hl] & _ & _).
    apply (credits_up T s); [simpl; lia |]. eapply holds_mono; [| done].
    apply bi.sep_mono_l. by apply HQ.
  - split; [done |]. destruct Hm as ([_ Hl] & _ & _).
    apply (credits_up T s); [simpl; lia |]. eapply holds_mono; [| done]. by apply bi.sep_mono_l.
Qed.

Lemma triple_error {A} n P msg n' (Q : A -> hprop) E :
  (P ⊢ E) -> triple n P (DERROR msg : prog _ A) n' Q E.
Proof.
  intros HE. eapply (triple_lift _ _ _ _ (fun _ => False)); [| done | done].
  by intros base c n0 Hc Hn s Hs.
Qed.

Lemma triple_error_bind {A B} n P msg (f : A -> prog (dstate St) B) n' (Q : B -> hprop) E :
  (P ⊢ E) -> triple n P (DERROR msg ≫= f) n' Q E.
Proof.
  intros HE. eapply (triple_seq _ _ _ _ (fun _ => False)%I); [by apply triple_error |].
  intros ? base c R s T _ _ _ (? & ? & _ & [] & _).
Qed.

(** A stream function that is [Safe]. *)
Lemma triple_lift_safe {A} n P (m : prog (pb_istream_t St) A) (Q : A -> hprop) E :
  (forall base c n0, 0 <= c -> Safe (within base c n0) m) ->
  (forall a, P ⊢ Q a) -> (P ⊢ E) -> triple n P (lift m) (fun _ => n) Q E.
Proof.
  intros Hm HQ HE. eapply (triple_lift _ _ _ _ (fun _ => True)); [| auto | done].
  intros base c n0 Hc _. eapply runs_weaken; [apply runs_safe, (Hm base c n0 Hc) | done |].
  intros a s Hs. split; [| done]. eapply within_weaken; [exact Hs | lia].
Qed.

(** The value of the state is not known but for the bytes left. *)
Lemma triple_getS_range {A} n P (f : dstate St -> prog (dstate St) A) n' (Q : A -> hprop) E :
  (forall s0, 0 <= bytes_left (d_in s0) <= n -> bytes_left (d_in s0) < 2 ^ 64 ->
     triple (bytes_left (d_in s0)) P (f s0) (fun a => bytes_left (d_in s0) - Z.max 0 (n - n' a)) Q E) ->
  triple n P (getS ≫= f) n' Q E.
Proof.
  intros Hf base c R s T Hc Hs HT HPR. unfold mbind, prog_bind, getS. simpl.
  pose proof Hs as (Hn & H64 & Hm).
  specialize (Hf s Hn H64 base c R s T Hc (within_left _ _ _ _ Hs) HT HPR). destruct (f s s) as [[a | | |] s']; try done.
  destruct Hf as [Hw HE]. split; [| done]. eapply within_weaken; [done | lia].
Qed.

Lemma triple_getS {A} n P (f : dstate St -> prog (dstate St) A) n' (Q : A -> hprop) E :
  (forall s0, 0 <= bytes_left (d_in s0) <= n ->
     triple (bytes_left (d_in s0)) P (f s0) (fun a => bytes_left (d_in s0) - Z.max 0 (n - n' a)) Q E) ->
  triple n P (getS ≫= f) n' Q E.
Proof. intros Hf. apply triple_getS_range. intros s0 Hs0 _. by apply Hf. Qed.

Lemma triple_getS_any {A} n P (f : dstate St -> prog (dstate St) A) n' (Q : A -> hprop) E :
  (forall s0, triple n P (f s0) n' Q E) -> triple n P (getS ≫= f) n' Q E.
Proof. intros Hf base c R s T. apply (Hf s). Qed.

Lemma triple_try {A} n P (m : prog (dstate St) A) n' (Q : A -> hprop) (Q' : option A -> hprop) E E' :
  triple n P m n' Q E -> (forall a, Q a ⊢ Q' (Some a)) -> (E ⊢ Q' None) ->
  triple n P (try_ m) (fun r => match r with Some a => n' a | None => n end) Q' E'.
Proof.
  intros Hm HQ HE base c R s T Hc Hs HT HPR. unfold try_. specialize (Hm base c R s T Hc Hs HT HPR).
  destruct (m s) as [[a | | |] s']; try done.
  - destruct Hm as [? HR]. split; [done |]. eapply holds_mono; [| done]. by apply bi.sep_mono_l.
  - destruct Hm as [? HR]. split; [eapply within_weaken; [done | lia] |].
    eapply holds_mono; [| done]. by apply bi.sep_mono_l.
Qed.

Lemma triple_try_same {A} n P (m : prog (dstate St) A) (Q : A -> hprop) (Q' : option A -> hprop) E E' :
  triple n P m (fun _ => n) Q E -> (forall a, Q a ⊢ Q' (Some a)) -> (E ⊢ Q' None) ->
  triple n P (try_ m) (fun _ => n) Q' E'.
Proof.
  intros Hm HQ HE. eapply triple_left; [exact (triple_try n P m _ Q Q' E E' Hm HQ HE) | by intros []].
Qed.

Lemma triple_modify_fixed n P v (Q : unit -> hprop) E :
  (P ⊢ Q tt) -> triple n P (modifyS (set_fixed v)) (fun _ => n) Q E.
Proof.
  intros HQ base c R s T Hc Hs HT HPR. simpl. split; [eapply within_weaken; [by eapply within_left | simpl; lia] |].
  eapply holds_mono; [| done]. by apply bi.sep_mono_l.
Qed.

Lemma triple_with_fixed {A} n P (m : prog (dstate St) A) n' (Q : A -> hprop) E :
  triple n P m n' Q E -> triple n P (with_fixed_count m) n' Q E.
Proof.
  intros Hm base c R s T Hc Hs HT HPR. unfold with_fixed_count.
  specialize (Hm base c R (set_fixed 0 s) T Hc Hs HT HPR). by destruct (m (set_fixed 0 s)) as [[] s'].
Qed.

(** *** The memory *)

Lemma triple_get_bytes n a k l P (Q : list byte -> hprop) E :
  length l = k -> (P ⊢ a ↦ l ∗ (a ↦ l -∗ Q l)) ->
  triple n P (get_bytes a k) (fun _ => n) Q E.
Proof.
  intros <- HP base c R s T Hc Hs HT HPR. unfold get_bytes.
  assert (holds (a ↦ l ∗ ((a ↦ l -∗ Q l) ∗ R)) (credits T s) (d_mem s, d_blocks s)) as Hh.
  { eapply holds_mono; [| done]. rewrite HP. by rewrite assoc. }
  rewrite (pts_load _ _ _ _ _ _ Hh). split; [eapply within_weaken; [by eapply within_left | lia] |]. eapply holds_mono; [| done].
  iIntros "(Ha & HQ & HR)". iFrame. by iApply "HQ".
Qed.

Lemma triple_set_bytes n a l l' P (Q : unit -> hprop) E :
  length l' = length l -> (P ⊢ a ↦ l ∗ (a ↦ l' -∗ Q tt)) ->
  triple n P (set_bytes a l') (fun _ => n) Q E.
Proof.
  intros Hl HP base c R s T Hc Hs HT HPR. unfold set_bytes.
  assert (holds (a ↦ l ∗ ((a ↦ l' -∗ Q tt) ∗ R)) (credits T s) (d_mem s, d_blocks s)) as Hh.
  { eapply holds_mono; [| done]. rewrite HP. by rewrite assoc. }
  destruct (pts_store _ _ l' _ _ _ _ Hh Hl) as (m' & -> & Hh').
  split; [eapply within_weaken; [by eapply within_left | simpl; lia] |]. simpl.
  eapply holds_mono; [| exact Hh']. iIntros "(Ha & HQ & HR)". iFrame. by iApply "HQ".
Qed.

(** A member of a struct. *)
Lemma pts_part a o n l :
  0 <= o -> 0 <= n -> o + n <= lenB l ->
  a ↦ l ⊢ (a + o) ↦ sub o n l ∗ ∀ k, ⌜lenB k = n⌝ → (a + o) ↦ k -∗ a ↦ upd o k l.
Proof.
  intros Ho Hn Hl. rewrite {1}(split_at o n l); [| done..].
  rewrite !pts_app. rewrite length_take length_sub; [| done..].
  replace (a + Z.of_nat (Z.to_nat o `min` length l)) with (a + o) by lia.
  iIntros "(H1 & H2 & H3)". iFrame "H2". iIntros (k Hk) "H2".
  rewrite (upd_split o k l); [| lia..]. rewrite !pts_app length_take Hk.
  replace (a + Z.of_nat (Z.to_nat o `min` length l)) with (a + o) by lia. iFrame.
Qed.

Lemma triple_get_part n a o k l P (Q : list byte -> hprop) E :
  0 <= o -> o + Z.of_nat k <= lenB l -> (P ⊢ a ↦ l ∗ (a ↦ l -∗ Q (sub o (Z.of_nat k) l))) ->
  triple n P (get_bytes (a + o) k) (fun _ => n) Q E.
Proof.
  intros Ho Hl HP. apply (triple_get_bytes _ _ _ (sub o (Z.of_nat k) l)).
  { pose proof (length_sub o (Z.of_nat k) l). lia. }
  rewrite HP {1}(pts_part a o (Z.of_nat k) l); [| lia..].
  iIntros "[[H1 H2] HQ]". iFrame "H1". iIntros "H1". iApply "HQ".
  iSpecialize ("H2" $! (sub o (Z.of_nat k) l) with "[] H1").
  - iPureIntro. apply length_sub; lia.
  - rewrite upd_sub; [done | lia..].
Qed.

Lemma triple_set_part n a o k l P (Q : unit -> hprop) E :
  0 <= o -> o + lenB k <= lenB l -> (P ⊢ a ↦ l ∗ (a ↦ upd o k l -∗ Q tt)) ->
  triple n P (set_bytes (a + o) k) (fun _ => n) Q E.
Proof.
  intros Ho Hl HP. apply (triple_set_bytes _ _ (sub o (lenB k) l)).
  { pose proof (length_sub o (lenB k) l). lia. }
  rewrite HP {1}(pts_part a o (lenB k) l); [| lia..].
  iIntros "[[H1 H2] HQ]". iFrame "H1". iIntros "H1". iApply "HQ".
  by iApply ("H2" with "[] H1").
Qed.

(** *** Counting what was read *)

(** A step that reads a byte gives a credit. *)
Lemma triple_counted {A} n P (m : prog (dstate St) A) n' (Q : A -> hprop) E k :
  triple n P m n' Q E -> (forall a, n' a < n) ->
  triple n (counted k ∗ P) m n' (fun a => counted (k + 1) ∗ Q a)%I E.
Proof.
  intros Hm Hn base c R s T Hc Hs HT HP.
  assert (forall k X e x, holds ((counted k ∗ X) ∗ R) e x <-> k <= Z.of_nat e /\ holds (X ∗ R) e x) as Ha.
  { intros k' X e x. rewrite -counted_sep. assert ((counted k' ∗ X) ∗ R ⊣⊢ counted k' ∗ (X ∗ R))%I as [Ha]
      by by rewrite assoc. apply Ha. }
  apply Ha in HP as [Hk HP]. specialize (Hm base c R s T Hc Hs HT HP).
  destruct (m s) as [[a | | |] s']; try done. destruct Hm as [Hw HQ]. split; [done |]. apply Ha. split; [| done].
  specialize (Hn a). destruct Hw as (Hl & _ & _). unfold credits in *. lia.
Qed.

(** There are no more credits than the budget allows. *)
Lemma triple_in_budget {A} n P (m : prog (dstate St) A) n' (Q : A -> hprop) E k :
  (k <= budget -> triple n (counted k ∗ P) m n' Q E) -> triple n (counted k ∗ P) m n' Q E.
Proof.
  intros Hm base c R s T Hc Hs HT HP. apply Hm; try done.
  assert (holds (counted k ∗ (P ∗ R)) (credits T s) (d_mem s, d_blocks s)) as Hh.
  { eapply holds_mono; [| done]. by rewrite assoc. }
  apply counted_sep in Hh as [Hk _]. destruct Hs as (Hl & _ & _). unfold credits in Hk. lia.
Qed.
End Triple.

(** ** What the readers of the stream use up *)

Section Progress.
Context {St : Type} `{ReadCallback St}.
Context (base : list byte) (c n : Z) (Hc : 0 <= c).

Abbreviation W := (within (St:=St) base c).

#[local] Instance W_inv k : StreamInv (W k) := within_inv base c k Hc.

(** A reader that uses a byte or more. *)
Definition uses {A} (m : prog (pb_istream_t St) A) (phi : A -> Prop) : Prop :=
  runs (W n) m (fun a s => W (n - 1) s /\ phi a) (W n).

Lemma runs_err {S A} (P : S -> Prop) (m : prog S A) Q (E E' : S -> Prop) :
  runs P m Q E -> (forall s, E s -> E' s) -> runs P m Q E'.
Proof.
  intros Hm HE s Hs. specialize (Hm s Hs). destruct (m s) as [[a | | |] s']; try done. by apply HE.
Qed.

Lemma W_up s : W (n - 1) s -> W n s.
Proof. intros Hs. eapply within_weaken; [done | lia]. Qed.

Lemma readbyte_uses : uses pb_readbyte (fun _ => True).
Proof.
  intros s Hs. pose proof (within_readbyte base c n s Hc Hs) as Hr.
  by destruct (pb_readbyte s) as [[] s'].
Qed.

Lemma read_uses k : 1 <= k -> uses (pb_read false k) (fun l => length l = Z.to_nat k).
Proof.
  intros Hk s Hs. pose proof (within_read base c n false k s Hc ltac:(lia) Hs) as Hr.
  destruct (pb_read false k s) as [[l | | |] s'] eqn:E; try done.
  split; [eapply within_weaken; [done | lia] |]. eapply pb_read_length; [| done]. lia.
Qed.

(** What follows the first read keeps to what is left after it. *)
Lemma uses_bind {A B} (m : prog (pb_istream_t St) A) (f : A -> prog _ B) phi psi :
  uses m phi ->
  (forall a, phi a -> runs (W (n - 1)) (f a) (fun b s => W (n - 1) s /\ psi b) (W (n - 1))) ->
  uses (m ≫= f) psi.
Proof.
  intros Hm Hf. eapply runs_bind; [exact Hm |]. intros a. cbn beta. apply runs_pure. intros Ha.
  eapply runs_err; [by apply Hf | by apply W_up].
Qed.

Lemma uses_bind_safe {A B} (m : prog (pb_istream_t St) A) (f : A -> prog _ B) phi :
  uses m phi -> (forall a, phi a -> Safe (W (n - 1)) (f a)) -> uses (m ≫= f) (fun _ => True).
Proof.
  intros Hm Hf. eapply uses_bind; [done |]. intros a Ha.
  eapply runs_weaken; [apply runs_safe, (Hf a Ha) | done | done].
Qed.

(** The first byte of a varint, then its tail. *)
Lemma varint32_eof_uses :
  runs (W n) pb_decode_varint32_eof
    (fun r s => match r with Some v => W (n - 1) s /\ 0 <= v < 2 ^ 32 | None => W n s end) (W n).
Proof.
  unfold pb_decode_varint32_eof.
  eapply (runs_bind _ _ (fun r s => match r with Some _ => W (n - 1) s | None => W n s end)).
  - intros s Hs. unfold try_. pose proof (within_readbyte base c n s Hc Hs) as Hr.
    by destruct (pb_readbyte s) as [[] s'].
  - intros [b |]; cbv zeta.
    + apply runs_if.
      * apply runs_ret. intros s Hs. split; [done |]. pose proof (b2z_range b). lia.
      * eapply runs_err; [| apply W_up].
        apply (runs_with_fuel (W (n - 1)) (fun k => result ← varint32_loop k 7 (b2z b .& 127);
                               mret (Some result))).
        intros k. eapply runs_bind; [apply varint32_loop_runs; [apply _ |] |].
        { rewrite land_7f. pose proof (b2z_range b). Z.to_euclidean_division_equations. lia. }
        intros v. by apply runs_ret.
    + intros s Hs. unfold mbind, prog_bind, getS. simpl. by destruct (bytes_left s =? 0).
Qed.

Lemma varint32_uses : uses pb_decode_varint32 (fun v => 0 <= v < 2 ^ 32).
Proof.
  eapply runs_bind; [apply varint32_eof_uses |]. intros [v |].
  - by apply runs_ret.
  - by intros s Hs.
Qed.

Lemma varint_loop_S fuel bitpos result :
  varint_loop (St:=St) (S fuel) bitpos result =
  (if 64 <=? bitpos then PB_RETURN_ERROR "varint overflow" else
   byte ← pb_readbyte;
   let b := b2z byte in
   let result := result .| u64 ((b .& 127) .<< bitpos) in
   let bitpos := u8 (bitpos + 7) in
   if negb (b .& 128 =? 0) then varint_loop fuel bitpos result else mret result).
Proof. done. Qed.

Lemma varint_uses : uses pb_decode_varint (fun _ => True).
Proof.
  unfold pb_decode_varint. rewrite varint_loop_S. change (64 <=? 0) with false. cbn iota.
  eapply uses_bind_safe; [apply readbyte_uses |]. intros b _. cbv zeta.
  change (u8 (0 + 7)) with (7 * (10 - Z.of_nat 9)). apply safe_if; [| apply _].
  apply varint_loop_safe; [apply _ | lia].
Qed.

Lemma svarint_uses : uses pb_decode_svarint (fun _ => True).
Proof. eapply uses_bind_safe; [apply varint_uses |]. intros v _. apply _. Qed.

Lemma dec_bool_uses : uses pb_dec_bool (fun _ => True).
Proof. eapply uses_bind_safe; [apply varint32_uses |]. intros v _. apply _. Qed.

Lemma fixed32_uses : uses pb_dec_fixed32 (fun _ => True).
Proof.
  eapply uses_bind_safe; [by apply (read_uses 4) |]. intros l Hl. by do 5 (destruct l; try done).
Qed.

Lemma fixed64_uses : uses pb_dec_fixed64 (fun _ => True).
Proof.
  eapply uses_bind_safe; [by apply (read_uses 8) |]. intros l Hl. by do 9 (destruct l; try done).
Qed.

Lemma fixed_length_bytes_uses field :
  0 <= f_data_size field ->
  uses (pb_dec_fixed_length_bytes field) (fun l => length l = Z.to_nat (f_data_size field)).
Proof.
  intros Hd. eapply uses_bind; [apply varint32_uses |]. intros size Hsize. cbv zeta.
  apply runs_if; [apply runs_error; [apply _ | done] |]. apply runs_if.
  { apply runs_ret. intros s Hs. split; [done |]. by rewrite repeat_length. }
  apply runs_if; [apply runs_error; [apply _ | done] |]. by apply pb_read_runs; [apply _ |].
Qed.

Lemma decode_tag_uses :
  runs (W n) pb_decode_tag
    (fun t s => match t with Tag tag _ => W (n - 1) s /\ 0 <= tag < 2 ^ 29 | TagEof => W n s end)
    (W n).
Proof.
  eapply runs_bind; [apply varint32_eof_uses |]. intros [v |].
  - apply runs_if; apply runs_ret; intros s [Hs Hv]; [by apply W_up |]. split; [done |].
    rewrite Z.shiftr_div_pow2; [| done]. Z.to_euclidean_division_equations. lia.
  - by apply runs_ret.
Qed.

Lemma make_substream_uses (s : pb_istream_t St) :
  W n s ->
  match pb_make_string_substream s with
  | (Done sub, s') => 0 <= bytes_left s' <= n - 1 /\ bytes_left s' < 2 ^ 64 /\
      0 <= bytes_left sub <= n - 1 /\ within base (c + bytes_left s') (bytes_left sub) sub /\
      W (bytes_left s') s' /\ bytes_left s' + bytes_left sub <= n - 1
  | (Failed, s') => W n s'
  | _ => False
  end.
Proof.
  intros Hs. unfold pb_make_string_substream, mbind, prog_bind.
  pose proof (varint32_uses s Hs) as Hv.
  destruct (pb_decode_varint32 s) as [[v | | |] s'] eqn:E; try done. destruct Hv as [Hs' Hv].
  unfold getS. destruct (Z.ltb_spec (bytes_left s') v).
  - unfold PB_RETURN_ERROR. by apply W_up.
  - destruct Hs' as (H1 & H2 & H3). simpl.
    rewrite wrap_small; [| lia]. destruct (i_src s') as [mem |] eqn:Es.
    + destruct H3 as [? ?]. split_and!; try lia; unfold within, set_bytes_left; simpl; rewrite Es;
        split_and!; (done || lia).
    + split_and!; try lia; unfold within, set_bytes_left; simpl; rewrite Es; split_and!; (done || lia).
Qed.
End Progress.

(** ** Substreams *)

Section Substream.
Context {St : Type} `{ReadCallback St} `{Allocator} {Bud : Budget}.

Implicit Types (P X E R F : hprop).

(** What remains to be done with a substream that has been read from, its parent being
    shortened already by the length of the substream. *)
Definition closing {B} (n : Z) (X : hprop) (k : prog (dstate St) B) (sub : pb_istream_t St)
    (Q : B -> hprop) (E : hprop) : Prop :=
  forall base c b R s T, 0 <= c -> 0 <= bytes_left (d_in s) <= n -> bytes_left (d_in s) < 2 ^ 64 ->
    within base c n (d_in s) -> within base (c + bytes_left (d_in s)) b sub ->
    holds (X ∗ R) (credits T s) (d_mem s, d_blocks s) ->
    match k s with
    | (Done a, s') => within base c (bytes_left (d_in s)) (d_in s') /\ holds (Q a ∗ R) (credits T s') (d_mem s', d_blocks s')
    | (Failed, s') => within base c (bytes_left (d_in s)) (d_in s') /\ holds (E ∗ R) (credits T s') (d_mem s', d_blocks s')
    | _ => False
    end.

Lemma closing_error {B} n X msg sub (Q : B -> hprop) E :
  (X ⊢ E) -> closing n X (DERROR msg) sub Q E.
Proof.
  intros HX base c b R s T Hc Hn H64 Hs Hsub HX'. unfold DERROR, lift, PB_RETURN_ERROR. simpl.
  split; [exact (within_left _ _ _ _ Hs) |]. eapply holds_mono; [| done]. by apply bi.sep_mono_l.
Qed.

Lemma closing_if {B} n X (t : bool) (k1 k2 : prog (dstate St) B) sub (Q : B -> hprop) E :
  closing n X k1 sub Q E -> closing n X k2 sub Q E -> closing n X (if t then k1 else k2) sub Q E.
Proof. by destruct t. Qed.

Lemma closing_close n X (r : option unit) sub (Q : unit -> hprop) E :
  (X ⊢ Q tt) \/ r = None -> (X ⊢ E) -> closing n X (close_with (r, sub)) sub Q E.
Proof.
  intros HQ HE base c b R s T Hc Hn H64 Hs Hsub HX. unfold close_with, mbind, prog_bind, lift. simpl.
  unfold pb_close_string_substream.
  assert (holds (E ∗ R) (credits T s) (d_mem s, d_blocks s)) as HER.
  { eapply holds_mono; [| done]. by apply bi.sep_mono_l. }
  assert (match (if negb (bytes_left sub =? 0) then pb_read true (bytes_left sub) sub
                 else (Done [], sub)) with
          | (Done _, sub') => within base (c + bytes_left (d_in s)) 0 sub'
          | (Failed, _) => True
          | _ => False
          end) as Hread.
  { destruct (Z.eqb_spec (bytes_left sub) 0) as [E0 | E0]; simpl.
    - unfold within in *. rewrite E0 in Hsub |- *. split_and!; try lia; tauto.
    - destruct Hsub as (? & ? & ?).
      assert (within base (c + bytes_left (d_in s)) (bytes_left sub) sub) as Hsub'
        by (unfold within; split_and!; (done || lia)).
      pose proof (within_read base (c + bytes_left (d_in s)) (bytes_left sub) true
                    (bytes_left sub) sub ltac:(lia) ltac:(lia) Hsub') as Hr.
      destruct (pb_read true (bytes_left sub) sub) as [[] sub']; try done.
      by rewrite Z.sub_diag in Hr. }
  destruct (if negb (bytes_left sub =? 0) then _ else _) as [[l | | |] sub']; try done.
  2: { split; [exact (within_left _ _ _ _ Hs) | exact HER]. }
  destruct Hread as (Hb & _ & Hm). simpl.
  assert (within base c (bytes_left (d_in s)) (mk_istream (i_src sub') (bytes_left (d_in s)) (i_errmsg sub'))) as Hw.
  { unfold within; simpl. split_and!; try lia. destruct (i_src sub'); [| done].
    destruct Hm. split; [done | lia]. }
  destruct r as [[] |]; simpl; [| by split]. destruct HQ as [HQ | HQ]; [| done].
  split; [done |]. eapply holds_mono; [| exact HX]. by apply bi.sep_mono_l.
Qed.

Lemma closing_ret {A B} n X (a : A) (k : A -> prog (dstate St) B) sub (Q : B -> hprop) E :
  closing n X (k a) sub Q E -> closing n X (mret a ≫= k) sub Q E.
Proof. exact id. Qed.

(** A change of the error message before the substream is closed. *)
Lemma closing_errmsg {B} n X e (k : prog (dstate St) B) sub (Q : B -> hprop) E :
  closing n X k sub Q E ->
  closing n X (_ ← modifyS (fun s => set_in (mk_istream (i_src (d_in s)) (bytes_left (d_in s)) e) s);
               k) sub Q E.
Proof.
  intros Hk base c b R s T Hc Hn H64 Hs Hsub HX. unfold mbind, prog_bind, modifyS. cbn iota beta.
  by apply (Hk base c b R (set_in (mk_istream (i_src (d_in s)) (bytes_left (d_in s)) e) s) T).
Qed.

Lemma triple_substream {A B} n P (m : pb_istream_t St -> prog (dstate St) A)
    (k : option A * pb_istream_t St -> prog (dstate St) B) n1 Q1 E1 (Q : B -> hprop) E :
  (forall sub, 0 <= bytes_left sub <= n - 1 ->
     triple (bytes_left sub) P (m sub) (n1 sub) Q1 E1) ->
  (forall a sub, closing (n - 1) (Q1 a) (k (Some a, sub)) sub Q E) ->
  (forall sub, closing (n - 1) E1 (k (None, sub)) sub Q E) -> (P ⊢ E) ->
  triple n P (sub ← lift pb_make_string_substream; on_substream sub (m sub) ≫= k)
    (fun _ => n - 1) Q E.
Proof.
  intros Hm Hk Hk0 HPE base c R s T Hc Hs HT HP. unfold mbind at 1, prog_bind at 1, lift at 1.
  pose proof Hs as ([_ Hn] & _ & _).
  pose proof (make_substream_uses base c (bytes_left (d_in s)) Hc (d_in s) (within_left _ _ _ _ Hs)) as Hmake.
  destruct (pb_make_string_substream (d_in s)) as [[sub | | |] i]; try done.
  2: { split; [done |]. destruct Hmake as ([_ Hl] & _ & _).
       apply (credits_up T s); [simpl; lia |]. eapply holds_mono; [| done]. by apply bi.sep_mono_l. }
  destruct Hmake as (Hi & Hi64 & Hsub & Hws & Hwi & Hsum).
  unfold mbind, prog_bind, on_substream.
  assert (holds (P ∗ R) (credits (T - bytes_left i) (set_in sub (set_in i s))) (d_mem s, d_blocks s)) as HP'.
  { eapply holds_up, HP. unfold credits. simpl. lia. }
  specialize (Hm sub ltac:(lia) base (c + bytes_left i) R (set_in sub (set_in i s)) (T - bytes_left i)
    ltac:(lia) Hws ltac:(simpl; lia) HP').
  assert (within base c (n - 1) i) as Hwi' by (eapply within_weaken; [exact Hwi | lia]).
  assert (forall X s', 0 <= bytes_left (d_in s') -> holds X (credits (T - bytes_left i) s') (d_mem s', d_blocks s') ->
    holds X (credits T (set_in i s')) (d_mem s', d_blocks s')) as Hout.
  { intros X s' Hl HX. eapply holds_up, HX. unfold credits. simpl. lia. }
  assert (forall (x : dstate St) (phi : Prop), within base c (bytes_left i) (d_in x) /\ phi ->
    within base c (bytes_left (d_in s)) (d_in x) /\ phi) as Hup.
  { intros x phi [? ?]. split; [| done]. eapply within_weaken; [done | lia]. }
  assert (forall (x : dstate St) (phi : Prop), within base c (bytes_left i) (d_in x) /\ phi ->
    within base c (bytes_left (d_in s) - Z.max 0 (n - (n - 1))) (d_in x) /\ phi) as Hup1.
  { intros x phi [? ?]. split; [| done]. eapply within_weaken; [done | lia]. }
  destruct (m sub (set_in sub (set_in i s))) as [[a | | |] s']; try done; cbn iota beta;
    destruct Hm as [Hw HQ]; pose proof Hw as ([Hw0 _] & _ & _).
  - specialize (Hk a (d_in s') base c _ R (set_in i s') T Hc ltac:(simpl; lia) Hi64 Hwi' Hw (Hout _ _ Hw0 HQ)).
    simpl in *. destruct (k _ _) as [[b | | |] s'']; try done; [by apply Hup1 | by apply Hup].
  - specialize (Hk0 (d_in s') base c _ R (set_in i s') T Hc ltac:(simpl; lia) Hi64 Hwi' Hw (Hout _ _ Hw0 HQ)).
    simpl in *. destruct (k _ _) as [[b | | |] s'']; try done; [by apply Hup1 | by apply Hup].
Qed.

(** ** The allocator *)

(** The block a pointer owns, if it is not [NULL]. *)
Definition own_ptr (p : Z) (b : list byte) : hprop :=
  if p =? 0 then (⌜b = []⌝ ∧ emp)%I else block p b.

Lemma triple_free n p b P (Q : unit -> hprop) E :
  (P ⊢ own_ptr p b ∗ Q tt) -> triple (St:=St) n P (pb_free p) (fun _ => n) Q E.
Proof.
  intros HP base c R s T Hc Hs HT HPR. unfold pb_free, own_ptr in *.
  assert (forall s', d_in s' = d_in s -> within base c (bytes_left (d_in s) - Z.max 0 (n - n)) (d_in s')) as Hw.
  { intros s' ->. eapply within_weaken; [by eapply within_left | lia]. }
  destruct (Z.eqb_spec p 0) as [-> | Hp].
  - split; [by apply Hw |]. simpl. eapply holds_mono; [| done]. rewrite HP.
    iIntros "[[[_ _] HQ] HR]". iFrame.
  - assert (holds (block p b ∗ (Q tt ∗ R)) (credits T s) (d_mem s, d_blocks s)) as Hh.
    { eapply holds_mono; [| done]. rewrite HP. by rewrite assoc. }
    destruct (free_holds p b _ _ _ _ Hp Hh) as (m' & h' & -> & Hh'). split; [by apply Hw | done].
Qed.

Lemma triple_free_some n p G E :
  triple (St:=St) n ((∃ b, own_ptr p b) ∗ G) (pb_free p) (fun _ => n) (fun _ => G) E.
Proof.
  apply (triple_pre _ _ (∃ b, own_ptr p b ∗ G)%I).
  - iIntros "[[%b H1] H2]". iExists b. iFrame.
  - apply triple_exist. intros b. by apply (triple_free n p b).
Qed.

(** A new block of [n] bytes that starts with what the old one held. *)
Definition grown (b b' : list byte) (n : Z) : Prop :=
  lenB b' = n /\
  forall i, Z.of_nat i < n -> (i < length b)%nat -> b' !! i = b !! i.

Lemma triple_realloc n p b k F E :
  0 < k ->
  triple (St:=St) n (own_ptr p b ∗ F) (do_realloc p k) (fun _ => n)
    (fun q => if q =? 0 then own_ptr p b ∗ F
              else ∃ b', ⌜0 < q < 2 ^ 64 /\ grown b b' k⌝ ∧ block q b' ∗ F)%I E.
Proof.
  intros Hk base c R s T Hc Hs HT HPR. unfold do_realloc.
  assert (exists r, realloc (d_mem s) (d_blocks s) p k = Some r /\
            realloc_post b (own_ptr p b ∗ F ∗ R) (F ∗ R) k (credits T s) (d_mem s) (d_blocks s) r) as (r & -> & Hr).
  { assert (holds (own_ptr p b ∗ (F ∗ R)) (credits T s) (d_mem s, d_blocks s)) as Hh.
    { eapply holds_mono; [| done]. by rewrite assoc. }
    unfold own_ptr in *. destruct (Z.eqb_spec p 0) as [-> | Hp]; [| apply realloc_holds; [lia | done | done]].
    assert (b = [] /\ holds (F ∗ R) (credits T s) (d_mem s, d_blocks s)) as [-> HFR].
    { destruct Hh as (y & z & Hj & [Hb Hy] & Hz). split; [exact Hb |].
      change (holds emp (credits T s) y) with (y = (∅, ∅)) in Hy. subst y.
      by rewrite (joins_unit_l_inv _ _ Hj). }
    destruct (realloc_null_holds (F ∗ R)%I _ _ _ k ltac:(lia) HFR) as (r & Hr & Hpost). exists r.
    split; [done |]. destruct Hpost as [[-> Hh'] | Hpost]; [left | by right].
    split; [done |]. eapply holds_mono; [| exact Hh]. iIntros "[[_ _] H]". iFrame. by iSplit. }
  destruct Hr as [[-> Hh] | (a & m' & h' & l & -> & Ha & Hak & Hl & Hpre & Hh)]; simpl;
    (split; [eapply within_weaken; [by eapply within_left | simpl; lia] |]).
  - eapply holds_mono; [| exact Hh]. iIntros "(H1 & H2 & H3)". iFrame.
  - destruct (Z.eqb_spec a 0); [lia |]. eapply holds_mono; [| exact Hh].
    iIntros "(H1 & H2 & H3)". iFrame "H3". iExists l. iFrame. iPureIntro.
    split; [split; [lia | by split_and!] | done].
Qed.

(** The pointer in a struct is allocated, or left as it was. *)
Lemma triple_allocate n a o ds cnt l b F :
  0 <= o -> o + 8 <= lenB l -> 0 <= ds < 2 ^ 64 -> 0 <= cnt < 2 ^ 64 ->
  triple (St:=St) n (a ↦ l ∗ own_ptr (ptr_of o l) b ∗ F) (allocate_at (a + o) ds cnt)
    (fun _ => n)
    (fun _ => ∃ q b', ⌜0 < q < 2 ^ 64 /\ grown b b' (cnt * ds)⌝ ∧
                a ↦ upd o (ptr_bytes q) l ∗ block q b' ∗ F)%I
    (a ↦ l ∗ own_ptr (ptr_of o l) b ∗ F).
Proof.
  intros Ho Hl Hds Hcnt. unfold allocate_at.
  eapply triple_seq.
  { unfold get_ptr. eapply triple_seq.
    - eapply (triple_get_part _ _ _ _ _ _
        (fun r => ⌜r = sub o 8 l⌝ ∧ (a ↦ l ∗ own_ptr (ptr_of o l) b ∗ F))%I); [done | done |].
      iIntros "(H1 & H2 & H3)". iFrame "H1". iIntros "H1". iSplit; [done | iFrame].
    - intros r. apply (triple_ret _ _ _ _ (fun p => ⌜p = ptr_of o l⌝ ∧ (a ↦ l ∗ own_ptr (ptr_of o l) b ∗ F))%I).
      + iIntros "[-> H]". iSplit; done.
      + done. }
  intros p. apply triple_pure. intros ->. cbv beta.
  apply triple_if; [intros _; by apply triple_error | intros Hz].
  apply orb_false_elim in Hz as [Hz1 Hz2]. apply Z.eqb_neq in Hz1, Hz2. cbv zeta.
  apply triple_if; [intros _; by apply triple_error | intros Hlim].
  assert (cnt * ds < 2 ^ 64) as Hprod.
  { change (1 .<< 32) with (2 ^ 32) in Hlim. apply andb_false_iff in Hlim as [Hlim | Hlim].
    - apply orb_false_elim in Hlim as [Ho1 Ho2]. apply Z.leb_gt in Ho1, Ho2. nia.
    - apply Z.ltb_ge in Hlim. unfold SIZE_MAX in Hlim.
      pose proof (Z.mul_div_le (2 ^ 64 - 1) cnt ltac:(lia)). nia. }
  rewrite wrap_small; [| nia].
  eapply triple_seq.
  { eapply triple_pre; [| apply (triple_realloc n _ b (cnt * ds) (a ↦ l ∗ F)%I); nia].
    iIntros "(H1 & H2 & H3)". iFrame. }
  intros q. cbv beta. destruct (q =? 0).
  { apply triple_error. iIntros "(H1 & H2 & H3)". iFrame. }
  apply triple_exist. intros b'. apply triple_pure. intros [Hq Hg].
  eapply triple_set_part; [done | by rewrite length_ptr_bytes |].
  iIntros "(H1 & H2 & H3)". iFrame "H2". iIntros "H2". iExists q, b'. iSplit; [done |]. iFrame.
Qed.
End Substream.
