(* ===== verification/PbOwned.v ===== *)
(** * What a message struct owns

    A table gives the descriptors of the messages of a program with the sizes of their
    structs, and [table_ok] what the generator of the descriptors guarantees of them.
    [msg_owned] is what the bytes of a struct own in the heap: the blocks its pointer
    fields point to, what the submessages in those blocks own, and so on; the entries of
    an array that own something are counted against the bytes read ([tally]).
    [entries_fit] says of a number of bytes that so many entries keep the arrays below
    4 GiB.

    Callback fields and extensions are left out here (their data belongs to the user), and
    static arrays of submessages that have pointers: [pb_decode] does not initialise the
    entries of these arrays before it counts them. *)

From stdpp Require Import gmap.
From iris.proofmode Require Import proofmode.
From S2P Require Import Prelude PbStream PbWire PbMem PbIter PbLayout Sep Slice.

(** ** Descriptors *)

(** The descriptors of a message, the size of its struct, a bound on the depth of static
    submessages in it, and whether it has no pointers. *)
Record msg_desc := mk_desc {
  md_fields : list pb_field_t;
  md_size : Z;
  md_rank : nat;
  md_flat : bool;
}.

Definition is_ltype (t : Z) (f : pb_field_t) : bool := PB_LTYPE (f_type f) =? t.
Definition is_htype (t : Z) (f : pb_field_t) : bool := PB_HTYPE (f_type f) =? t.
Definition is_pointer (f : pb_field_t) : bool := PB_ATYPE (f_type f) =? PB_ATYPE_POINTER.
Definition is_oneof (f : pb_field_t) : bool := is_htype PB_HTYPE_ONEOF f.
Definition is_repeated (f : pb_field_t) : bool := is_htype PB_HTYPE_REPEATED f.
Definition is_sub (f : pb_field_t) : bool := is_ltype PB_LTYPE_SUBMESSAGE f.
(** String and bytes fields, whose pointers point to the data itself. *)
Definition is_text (f : pb_field_t) : bool :=
  is_ltype PB_LTYPE_STRING f || is_ltype PB_LTYPE_BYTES f.

(** The entries of a pointer array of these own something. *)
Definition owning_entries (f : pb_field_t) : bool := is_sub f || is_text f.

(** The extents of the data and of the count or has member. *)
Definition data_len (f : pb_field_t) : Z := prev_size f.

Definition size_len (p : place) : Z :=
  let f := p_field p in
  if is_oneof f then 4
  else if is_repeated f then if p_size p =? p_data p then 0 else 4
  else if negb (is_pointer f) && is_htype PB_HTYPE_OPTIONAL f && negb (p_size p =? p_data p)
  then 1 else 0.

Definition apart (o n o' n' : Z) : Prop := o + n <= o' \/ o' + n' <= o.

(** The ranges of two fields do not meet, ... *)
Definition places_apart (p q : place) : Prop :=
  apart (p_data p) (data_len (p_field p)) (p_data q) (data_len (p_field q)) /\
  apart (p_data p) (data_len (p_field p)) (p_size q) (size_len q) /\
  apart (p_size p) (size_len p) (p_data q) (data_len (p_field q)) /\
  apart (p_size p) (size_len p) (p_size q) (size_len q).

(** ... or they are members of a union, with one [which_] member. *)
Definition same_union (p q : place) : Prop :=
  is_oneof (p_field p) = true /\ is_oneof (p_field q) = true /\
  p_data p = p_data q /\ p_size p = p_size q.

Definition pair_ok (p q : place) : Prop :=
  f_tag (p_field p) = f_tag (p_field q) \/ same_union p q \/ places_apart p q.

Section Table.
Variable table : list msg_desc.

Definition sub_desc (f : pb_field_t) : option msg_desc :=
  match f_ptr f with PtrFields id => table !! id | _ => None end.

Definition default_ok (f : pb_field_t) : Prop :=
  match f_ptr f with
  | PtrNull => True
  | PtrDefault v => f_data_size f <= lenB v
  | PtrFields _ => False
  end.

Definition place_ok (md : msg_desc) (p : place) : Prop :=
  let f := p_field p in
  PB_LTYPE (f_type f) <= 10 /\ is_extension f = false /\
  (is_pointer f = false -> PB_ATYPE (f_type f) = PB_ATYPE_STATIC) /\
  0 <= p_data p /\ p_data p + data_len f <= md_size md /\
  0 <= p_size p /\ p_size p + size_len p <= md_size md /\
  apart (p_data p) (data_len f) (p_size p) (size_len p) /\
  1 <= f_data_size f < 2 ^ 32 /\ 0 <= f_array_size f < 2 ^ 32 /\ 0 < f_tag f < 2 ^ 32 /\
  (is_ltype PB_LTYPE_FIXED32 f = true -> f_data_size f = 4) /\
  (is_ltype PB_LTYPE_FIXED64 f = true -> f_data_size f = 8) /\
  match sub_desc f with
  | Some md' => is_sub f = true /\ f_data_size f = md_size md' /\
                (is_pointer f = false -> (md_rank md' < md_rank md)%nat) /\
                (is_pointer f = false -> is_repeated f = true -> md_flat md' = true)
  | None => is_sub f = false
  end /\
  (is_sub f = false -> default_ok f) /\
  (is_repeated f = true -> p_size p = p_data p ->
   is_pointer f = false /\ is_sub f = false /\ 4 <= data_len f) /\
  (is_repeated f = true -> is_pointer f = true -> is_text f = true -> f_data_size f = 8).

(** No pointer, also not in a submessage. *)
Definition flat_place (p : place) : Prop :=
  is_pointer (p_field p) = false /\
  match sub_desc (p_field p) with Some md' => md_flat md' = true | None => True end.

Definition desc_ok (md : msg_desc) : Prop :=
  md_fields md <> [] /\ fields_ok (md_fields md) /\ NoDup (f_tag <$> md_fields md) /\ 1 <= md_size md < 2 ^ 32 /\
  Forall (place_ok md) (layout (md_fields md)) /\
  Forall (fun p => Forall (pair_ok p) (layout (md_fields md))) (layout (md_fields md)) /\
  (md_flat md = true -> Forall flat_place (layout (md_fields md))).

Definition table_ok : Prop := Forall desc_ok table.

(** The address of an entry of an array is computed in 32 bits.  That is right for the arrays
    whose entries own something when [K] entries of them are below 4 GiB. *)
Definition entry_fits (K : Z) (f : pb_field_t) : Prop :=
  is_pointer f = true -> is_repeated f = true -> owning_entries f = true -> K * f_data_size f < 2 ^ 32.

Definition entries_fit (K : Z) : Prop :=
  Forall (fun md => Forall (entry_fits K) (md_fields md)) table.

#[export] Instance entry_fits_dec K f : Decision (entry_fits K f).
Proof. unfold entry_fits. apply _. Defined.
#[export] Instance entries_fit_dec K : Decision (entries_fit K).
Proof. unfold entries_fit. apply _. Defined.
#[export] Instance default_ok_dec f : Decision (default_ok f).
Proof. unfold default_ok. destruct (f_ptr f); apply _. Defined.
#[export] Instance apart_dec o n o' n' : Decision (apart o n o' n').
Proof. unfold apart. apply _. Defined.
#[export] Instance pair_ok_dec p q : Decision (pair_ok p q).
Proof. unfold pair_ok, same_union, places_apart. apply _. Defined.
#[export] Instance place_ok_dec md p : Decision (place_ok md p).
Proof. unfold place_ok. destruct (sub_desc (p_field p)); apply _. Defined.
#[export] Instance flat_place_dec p : Decision (flat_place p).
Proof. unfold flat_place. destruct (sub_desc (p_field p)); apply _. Defined.
#[export] Instance desc_ok_dec md : Decision (desc_ok md).
Proof. unfold desc_ok, fields_ok. apply _. Defined.
#[export] Instance table_ok_dec : Decision table_ok.
Proof. unfold table_ok. apply _. Defined.

(** The descriptors as the decoder takes them. *)
Definition descs_of (id : nat) : list pb_field_t :=
  match table !! id with Some md => md_fields md | None => [] end.

(** ** Ownership *)

(** A list of assertions that own nothing. *)
Lemma sepL_of_emp {A} (Φ : nat -> A -> hprop) (l : list A) :
  (forall k x, l !! k = Some x -> emp ⊢ Φ k x) -> emp ⊢ [∗ list] k ↦ x ∈ l, Φ k x.
Proof.
  intros HΦ. trans ([∗ list] k ↦ x ∈ l, (emp : hprop))%I; [by rewrite big_sepL_emp |].
  by apply big_sepL_mono.
Qed.

Definition count_of (p : place) (l : list byte) : Z := size_of (p_size p) l.

(** A pointer that is [NULL] or owns its block. *)
Definition opt_block (p : Z) : hprop := if p =? 0 then emp%I else (∃ b, block p b)%I.

(** The entries of an array of which [n] are in use. *)
Definition items (n : nat) (ds : Z) (F : list byte -> hprop) (b : list byte) : hprop :=
  ([∗ list] i ∈ seq 0 n, F (sub (Z.of_nat i * ds) ds b))%I.

Section Field.
(** What a submessage owns. *)
Variable rec : msg_desc -> list byte -> hprop.
(** A count of a static array may be too large, as it is after a failure. *)
Variable loose : bool.

Definition sub_owned (f : pb_field_t) (x : list byte) : hprop :=
  match sub_desc f with Some md => rec md x | None => emp%I end.

(** An entry of a pointer array. *)
Definition elem_owned (f : pb_field_t) (x : list byte) : hprop :=
  if is_sub f then sub_owned f x else if is_text f then opt_block (ptr_of 0 x) else emp%I.

Definition static_owned (p : place) (l : list byte) : hprop :=
  let f := p_field p in
  let x := sub (p_data p) (data_len f) l in
  if is_sub f then
    if is_repeated f then
      (⌜loose = true \/ count_of p l <= f_array_size f⌝ ∧
       items (Z.to_nat (Z.min (count_of p l) (f_array_size f))) (f_data_size f) (sub_owned f) x)%I
    else sub_owned f x
  else emp%I.

(** Each entry of an array that owns something was read from a byte of the input, or from
    more; after a failure there may be an entry that was not read. *)
Definition tally (f : pb_field_t) (c : Z) : hprop :=
  if negb loose && owning_entries f then counted c else emp%I.

Definition pointer_owned (p : place) (l : list byte) : hprop :=
  let f := p_field p in
  let ptr := ptr_of (p_data p) l in
  if ptr =? 0 then
    if is_repeated f then (⌜count_of p l = 0⌝ ∧ emp)%I else emp%I
  else
    (∃ b, block ptr b ∗
       if is_repeated f then
         ⌜count_of p l * f_data_size f <= lenB b⌝ ∧
         (tally f (count_of p l) ∗ items (Z.to_nat (count_of p l)) (f_data_size f) (elem_owned f) b)
       else if is_sub f then ⌜lenB b = f_data_size f⌝ ∧ sub_owned f b
       else emp)%I.

(** The field is a member of a union that holds another one, or nothing. *)
Definition inactive (p : place) (l : list byte) : bool :=
  is_oneof (p_field p) && negb (count_of p l =? f_tag (p_field p)).

Definition field_owned (p : place) (l : list byte) : hprop :=
  if inactive p l then
    if is_pointer (p_field p) && (count_of p l =? 0)
    then (⌜ptr_of (p_data p) l = 0⌝ ∧ emp)%I else emp%I
  else if is_pointer (p_field p) then pointer_owned p l else static_owned p l.
End Field.

Lemma tally_emp loose f c : tally loose f c ⊢ emp.
Proof. unfold tally. destruct (negb loose && owning_entries f); [apply counted_emp | done]. Qed.

Lemma tally_0 loose f : emp ⊢ tally loose f 0.
Proof. unfold tally. destruct (negb loose && owning_entries f); [apply counted_0 | done]. Qed.

Lemma tally_loose f c : emp ⊢ tally true f c.
Proof. done. Qed.

Lemma tally_plain loose f c : owning_entries f = false -> tally loose f c = emp%I.
Proof. intros Hf. unfold tally. by rewrite Hf andb_false_r. Qed.

(** [n] bounds the depth of nesting. *)
Fixpoint msg_owned (loose : bool) (n : nat) (md : msg_desc) (l : list byte) : hprop :=
  match n with
  | O => False%I
  | S n => ([∗ list] p ∈ layout (md_fields md), field_owned (msg_owned loose n) loose p l)%I
  end.

(** Bytes at [a] with which [phi] holds, and what they own. *)
Definition struct_at (a : Z) (phi : list byte -> Prop) (F : list byte -> hprop) : hprop :=
  (∃ l, ⌜phi l⌝ ∧ (a ↦ l ∗ F l))%I.

(** A message struct at [a], with all that it owns. *)
Definition msg (loose : bool) (n : nat) (md : msg_desc) (a : Z) : hprop :=
  struct_at a (fun l => lenB l = md_size md) (msg_owned loose n md).

(** The bytes of a message that owns nothing. *)
Definition blank (loose : bool) (n : nat) (md : msg_desc) (l : list byte) : Prop :=
  lenB l = md_size md /\ (emp ⊢ msg_owned loose n md l).

(** ** Changes to one field *)

(** A range away from a field. *)
Definition off_place (p : place) (o n : Z) : Prop :=
  apart o n (p_data p) (data_len (p_field p)) /\ apart o n (p_size p) (size_len p).

(** [l'] is [l] but for the members of the field. *)
Definition keeps (p : place) (l l' : list byte) : Prop :=
  length l' = length l /\ forall o n, 0 <= o -> off_place p o n -> sub o n l' = sub o n l.

Lemma keeps_refl p l : keeps p l l.
Proof. done. Qed.

Lemma keeps_trans p l1 l2 l3 : keeps p l1 l2 -> keeps p l2 l3 -> keeps p l1 l3.
Proof.
  intros [H1 H1'] [H2 H2']. split; [by rewrite H2|]. intros o n Ho Hoff.
  by rewrite H2'; [apply H1' |..].
Qed.

Lemma keeps_data p l o k :
  0 <= p_data p <= o -> o + lenB k <= p_data p + data_len (p_field p) -> keeps p l (upd o k l).
Proof.
  intros Ho Hk. split; [apply length_upd |]. intros o' n Ho' [[H | H] _];
    apply sub_upd_disj; lia.
Qed.

Lemma keeps_size p l k :
  0 <= p_size p -> lenB k <= size_len p -> keeps p l (upd (p_size p) k l).
Proof.
  intros Ho Hk. split; [apply length_upd |]. intros o' n Ho' [_ [H | H]];
    apply sub_upd_disj; lia.
Qed.

(** What a field owns depends on its own members only. *)
Lemma field_owned_local rec loose p l l' :
  sub (p_data p) (data_len (p_field p)) l' = sub (p_data p) (data_len (p_field p)) l ->
  (size_len p = 4 -> sub (p_size p) 4 l' = sub (p_size p) 4 l) ->
  (is_repeated (p_field p) = true -> p_size p = p_data p ->
   is_pointer (p_field p) = false /\ is_sub (p_field p) = false) ->
  field_owned rec loose p l' = field_owned rec loose p l.
Proof.
  intros Hd Hs Hfix. unfold field_owned, inactive.
  assert (is_pointer (p_field p) = true -> ptr_of (p_data p) l' = ptr_of (p_data p) l) as Hptr.
  { intros Hp. unfold ptr_of. f_equal. unfold data_len, prev_size, is_pointer in *.
    apply Z.eqb_eq in Hp. by rewrite Hp in Hd. }
  destruct (is_oneof (p_field p)) eqn:Eo.
  - assert (count_of p l' = count_of p l) as Hc.
    { unfold count_of, size_of. f_equal. apply Hs. unfold size_len. by rewrite Eo. }
    rewrite Hc. simpl. destruct (is_pointer (p_field p)) eqn:Ep.
    + unfold pointer_owned. by rewrite Hptr ?Hc.
    + unfold static_owned. by rewrite Hd Hc.
  - simpl. destruct (is_repeated (p_field p)) eqn:Er.
    + destruct (decide (p_size p = p_data p)) as [He | He].
      { destruct (Hfix eq_refl He) as [-> Hsub]. unfold static_owned. by rewrite Hsub. }
      assert (count_of p l' = count_of p l) as Hc.
      { unfold count_of, size_of. f_equal. apply Hs. unfold size_len. rewrite Eo Er.
        by destruct (Z.eqb_spec (p_size p) (p_data p)). }
      destruct (is_pointer (p_field p)) eqn:Ep.
      * unfold pointer_owned. by rewrite Hptr ?Hc.
      * unfold static_owned. by rewrite Hd Hc.
    + destruct (is_pointer (p_field p)) eqn:Ep.
      * unfold pointer_owned. by rewrite Hptr ?Er.
      * unfold static_owned. by rewrite Hd Er.
Qed.
End Table.
