(* ===== verification/PbFields.v ===== *)
(** * The fields of a struct

    The steps that the proofs about fields are made of: loads and stores of members of a
    struct, walks over the fields of a message, and what a change of one field leaves of
    the other fields and what they own. *)

From stdpp Require Import gmap.
From iris.proofmode Require Import proofmode.
From S2P Require Import Prelude PbStream PbWire PbMem PbIter PbDecode PbLayout.
From S2P Require Import Sep Slice PbTriple PbOwned.

(** ** Steps on a struct at [a] *)

Section Steps.
Context {St : Type} `{ReadCallback St} `{Allocator} {Bud : Budget}.
Context {A : Type} (n : Z) (n' : A -> Z) (Q : A -> hprop) (E : hprop).
Implicit Types (F : hprop) (l : list byte).

Lemma step_set a o k l F (m : prog (dstate St) A) :
  0 <= o -> o + lenB k <= lenB l ->
  triple n (a ↦ upd o k l ∗ F) m n' Q E ->
  triple n (a ↦ l ∗ F) (set_bytes (a + o) k ≫= fun _ => m) n' Q E.
Proof.
  intros Ho Hk Hm. eapply (triple_seq _ _ _ _ (fun _ => (a ↦ upd o k l ∗ F)%I)); [| done].
  eapply triple_set_part; [done | done |]. iIntros "[H1 H2]". iFrame. iIntros "H1". iFrame.
Qed.

Lemma step_set_count a o v l F (m : prog (dstate St) A) :
  0 <= o -> o + 4 <= lenB l ->
  triple n (a ↦ upd o (size_bytes v) l ∗ F) m n' Q E ->
  triple n (a ↦ l ∗ F) (set_count (SizeAt (a + o)) v ≫= fun _ => m) n' Q E.
Proof. intros Ho Hl. apply step_set; [done | by rewrite length_size_bytes]. Qed.

Lemma step_set_ptr a o v l F (m : prog (dstate St) A) :
  0 <= o -> o + 8 <= lenB l ->
  triple n (a ↦ upd o (ptr_bytes v) l ∗ F) m n' Q E ->
  triple n (a ↦ l ∗ F) (set_ptr (a + o) v ≫= fun _ => m) n' Q E.
Proof. intros Ho Hl. apply step_set; [done | by rewrite length_ptr_bytes]. Qed.

Lemma step_get a o k l F (m : list byte -> prog (dstate St) A) :
  0 <= o -> o + Z.of_nat k <= lenB l ->
  triple n (a ↦ l ∗ F) (m (sub o (Z.of_nat k) l)) n' Q E ->
  triple n (a ↦ l ∗ F) (get_bytes (a + o) k ≫= m) n' Q E.
Proof.
  intros Ho Hk Hm.
  eapply (triple_seq _ _ _ _ (fun r => ⌜r = sub o (Z.of_nat k) l⌝ ∧ (a ↦ l ∗ F))%I).
  - eapply triple_get_part; [done | done |]. iIntros "[H1 H2]". iFrame. iIntros "H1".
    iSplit; [done | iFrame].
  - intros r. apply triple_pure. by intros ->.
Qed.

Lemma step_get_count a o l F (m : Z -> prog (dstate St) A) :
  0 <= o -> o + 4 <= lenB l ->
  triple n (a ↦ l ∗ F) (m (size_of o l)) n' Q E ->
  triple n (a ↦ l ∗ F) (get_count (SizeAt (a + o)) ≫= m) n' Q E.
Proof.
  intros Ho Hl Hm base c R s T Hc Hs HT HP.
  pose proof (step_get a o sizeof_size l F (fun x => m (le_value x)) Ho Hl Hm base c R s T Hc Hs HT HP) as Hstep.
  unfold get_count. by rewrite prog_bind_assoc.
Qed.

Lemma step_get_ptr a o l F (m : Z -> prog (dstate St) A) :
  0 <= o -> o + 8 <= lenB l ->
  triple n (a ↦ l ∗ F) (m (ptr_of o l)) n' Q E ->
  triple n (a ↦ l ∗ F) (get_ptr (a + o) ≫= m) n' Q E.
Proof.
  intros Ho Hl Hm base c R s T Hc Hs HT HP.
  pose proof (step_get a o sizeof_ptr l F (fun x => m (le_value x)) Ho Hl Hm base c R s T Hc Hs HT HP) as Hstep.
  unfold get_ptr. by rewrite prog_bind_assoc.
Qed.

End Steps.

(** The last step of a program. *)
Section Last.
Context {St : Type} `{ReadCallback St} `{Allocator} {Bud : Budget}.
Context (n : Z) (Q : unit -> hprop) (E : hprop).
Implicit Types (F : hprop) (l : list byte).

Lemma last_set a o k l F :
  0 <= o -> o + lenB k <= lenB l -> (a ↦ upd o k l ∗ F ⊢ Q tt) ->
  triple (St:=St) n (a ↦ l ∗ F) (set_bytes (a + o) k) (fun _ => n) Q E.
Proof.
  intros Ho Hk HQ. eapply triple_set_part; [done | done |]. iIntros "[H1 H2]". iFrame "H1".
  iIntros "H1". rewrite -HQ. iFrame.
Qed.

Lemma last_set_count a o v l F :
  0 <= o -> o + 4 <= lenB l -> (a ↦ upd o (size_bytes v) l ∗ F ⊢ Q tt) ->
  triple (St:=St) n (a ↦ l ∗ F) (set_count (SizeAt (a + o)) v) (fun _ => n) Q E.
Proof. intros Ho Hl. apply last_set; [done | by rewrite length_size_bytes]. Qed.

Lemma last_set_ptr a o v l F :
  0 <= o -> o + 8 <= lenB l -> (a ↦ upd o (ptr_bytes v) l ∗ F ⊢ Q tt) ->
  triple (St:=St) n (a ↦ l ∗ F) (set_ptr (a + o) v) (fun _ => n) Q E.
Proof. intros Ho Hl. apply last_set; [done | by rewrite length_ptr_bytes]. Qed.

Lemma last_get_ptr a o l F (R : Z -> hprop) :
  0 <= o -> o + 8 <= lenB l -> (a ↦ l ∗ F ⊢ R (ptr_of o l)) ->
  triple (St:=St) n (a ↦ l ∗ F) (get_ptr (a + o)) (fun _ => n) R E.
Proof.
  intros Ho Hl HR. unfold get_ptr. apply (step_get n _ R E a o sizeof_ptr l F); [done | done |].
  by apply triple_ret.
Qed.
End Last.

(** ** Structs that change *)

Section Structs.
Context {St : Type} `{ReadCallback St} `{Allocator} {Bud : Budget}.
Implicit Types (P G E : hprop) (l x : list byte) (F : list byte -> hprop).

Lemma struct_intro a l G (phi : list byte -> Prop) F :
  phi l -> (G ⊢ F l) -> a ↦ l ∗ G ⊢ struct_at a phi F.
Proof. intros Hl ->. iIntros "[Hl HG]". iExists l. iSplit; [done |]. iFrame. Qed.

Lemma struct_mono a (phi psi : list byte -> Prop) F F' :
  (forall l, phi l -> psi l) -> (forall l, phi l -> F l ⊢ F' l) ->
  struct_at a phi F ⊢ struct_at a psi F'.
Proof.
  intros Hp HF. iIntros "(%l & %Hl & H1 & H2)". iExists l. rewrite HF; [| done].
  iSplit; [by auto |]. iFrame.
Qed.

Lemma triple_struct {A} n a phi F (m : prog (dstate St) A) n' (Q : A -> hprop) E :
  (forall l, phi l -> triple n (a ↦ l ∗ F l) m n' Q E) -> triple n (struct_at a phi F) m n' Q E.
Proof. intros Hm. apply triple_exist. intros l. apply triple_pure. apply Hm. Qed.

(** A program that works on a part of a struct, and what is left of the struct then. *)
Definition hole (a o k : Z) (l : list byte) : hprop :=
  (∀ x, ⌜lenB x = k⌝ → (a + o) ↦ x -∗ a ↦ upd o x l)%I.

Lemma triple_zoom {A} n a o k l P (m : prog (dstate St) A) n' Q1 E1 (Q : A -> hprop) E :
  0 <= o -> 0 <= k -> o + k <= lenB l ->
  triple n ((a + o) ↦ sub o k l ∗ P) m n' Q1 E1 ->
  (forall r, Q1 r ∗ hole a o k l ⊢ Q r) -> (E1 ∗ hole a o k l ⊢ E) ->
  triple n (a ↦ l ∗ P) m n' Q E.
Proof.
  intros Ho Hk Hl Hm HQ HE. eapply (triple_framed _ _ _ (hole a o k l)); [| exact Hm | done | done].
  rewrite {1}(pts_part a o k l); [| done..]. iIntros "[[H1 H2] H3]". iFrame.
Qed.

Lemma hole_struct a o k l phi F Q :
  (forall x, phi x -> lenB x = k) -> (forall x, phi x -> a ↦ upd o x l ∗ F x ⊢ Q) ->
  struct_at (a + o) phi F ∗ hole a o k l ⊢ Q.
Proof.
  intros Hk HQ. iIntros "[(%x & %Hx & H1 & H2) Hw]". rewrite -(HQ x Hx). iFrame.
  iApply ("Hw" with "[] H1"). iPureIntro. by apply Hk.
Qed.

Lemma hole_false a o k l Q : False ∗ hole a o k l ⊢ Q.
Proof. iIntros "[[] _]". Qed.
End Structs.

(** ** Walks over the fields of a message *)

Section Walk.
Context {St : Type} `{ReadCallback St} `{Allocator} {Bud : Budget}.

Lemma triple_each_place {A} n (fields : list pb_field_t) a (f : pb_field_iter_t -> prog (dstate St) A)
    (I : nat -> hprop) E :
  fields_ok fields -> a <> 0 ->
  (forall i p, layout fields !! i = Some p ->
     triple n (I i) (f (iter_at fields a i p)) (fun _ => n) (fun _ => I (S i)) E) ->
  triple n (I 0%nat) (each_field_of fields a f) (fun _ => n) (fun _ => I (length fields)) E.
Proof.
  intros Hok Ha Hf base c R s T Hc Hs HT HP. rewrite each_field_of_places; [| done..].
  revert base c R s T Hc Hs HT HP. change (triple n (I 0%nat) (each_place fields a f 0 (layout fields))
    (fun _ => n) (fun _ => I (length fields)) E).
  assert (forall k i, drop i (layout fields) = k -> (i <= length fields)%nat ->
            triple n (I i) (each_place fields a f i k) (fun _ => n) (fun _ => I (length fields)) E)
    as Hgen.
  { induction k as [| p k IH]; intros i Hdrop Hi; cbn [each_place].
    - apply triple_ret; [| done]. apply (f_equal length) in Hdrop.
      rewrite length_drop length_layout in Hdrop. simpl in Hdrop.
      by replace i with (length fields) by lia.
    - assert (layout fields !! i = Some p) as Hp
        by by rewrite -(Nat.add_0_r i) -lookup_drop Hdrop.
      pose proof (lookup_lt_Some _ _ _ Hp) as Hlt. rewrite length_layout in Hlt.
      eapply triple_seq; [by apply Hf |]. intros ?. cbv beta. apply IH; [| lia].
      by rewrite -Nat.add_1_r -drop_drop Hdrop. }
  apply Hgen; [by rewrite drop_0 | lia].
Qed.
End Walk.

(** ** What the table says of a field *)

Section Table.
Context (table : list msg_desc) (Htable : table_ok table).

Lemma desc_in md : md ∈ table -> desc_ok table md.
Proof. by apply (proj1 (Forall_forall _ _) Htable). Qed.

Lemma place_in md i p :
  md ∈ table -> layout (md_fields md) !! i = Some p -> place_ok table md p.
Proof.
  intros Hmd Hp. destruct (desc_in md Hmd) as (_ & _ & _ & _ & Hall & _).
  rewrite Forall_forall in Hall. apply Hall. by eapply list_elem_of_lookup_2.
Qed.

Lemma entries_fit_le K K' : entries_fit table K' -> K <= K' -> entries_fit table K.
Proof.
  intros Hfit HK. apply Forall_forall. intros md Hmd. apply Forall_forall.
  intros f [i Hf]%list_elem_of_lookup_1 Hp Hr Ho.
  destruct (layout_is_Some (md_fields md) i) as [p Hlp]; [by apply lookup_lt_Some in Hf |].
  pose proof (layout_lookup _ _ _ Hlp) as Hlf. rewrite Hf in Hlf. injection Hlf as ->.
  pose proof (place_in md i p Hmd Hlp) as (_&_&_&_&_&_&_&_&Hds&_).
  pose proof (proj1 (Forall_forall _ _) Hfit md Hmd) as Hall.
  pose proof (proj1 (Forall_forall _ _) Hall _ (list_elem_of_lookup_2 _ _ _ Hf) Hp Hr Ho). nia.
Qed.

Lemma sub_desc_in f md : sub_desc table f = Some md -> md ∈ table.
Proof. unfold sub_desc. destruct (f_ptr f); [done | | done]. apply list_elem_of_lookup_2. Qed.

Lemma descs_of_sub f md id :
  sub_desc table f = Some md -> f_ptr f = PtrFields id -> descs_of table id = md_fields md.
Proof. unfold sub_desc, descs_of. intros Hs Hf. rewrite Hf in Hs. by rewrite Hs. Qed.

(** The descriptors a submessage field points to. *)
Lemma sub_field md p :
  place_ok table md p -> is_sub (p_field p) = true ->
  exists id md', f_ptr (p_field p) = PtrFields id /\ sub_desc table (p_field p) = Some md' /\
    descs_of table id = md_fields md' /\ md' ∈ table /\ f_data_size (p_field p) = md_size md' /\
    (is_pointer (p_field p) = false -> (md_rank md' < md_rank md)%nat) /\
    (is_pointer (p_field p) = false -> is_repeated (p_field p) = true -> md_flat md' = true).
Proof.
  intros (_&_&_&_&_&_&_&_&_&_&_&_&_&Hsub&_) Hs.
  destruct (sub_desc table (p_field p)) as [md' |] eqn:Ed; [| congruence].
  destruct Hsub as (_ & Hsz & Hr & Hflat). pose proof (sub_desc_in _ _ Ed) as Hin.
  destruct (f_ptr (p_field p)) as [| id |] eqn:Ef.
  - unfold sub_desc in Ed. by rewrite Ef in Ed.
  - exists id, md'. split_and!; try done. by eapply descs_of_sub.
  - unfold sub_desc in Ed. by rewrite Ef in Ed.
Qed.

Lemma pair_in md i j p q :
  md ∈ table -> layout (md_fields md) !! i = Some p -> layout (md_fields md) !! j = Some q ->
  i <> j -> f_tag (p_field p) <> f_tag (p_field q) /\ (same_union p q \/ places_apart p q).
Proof.
  intros Hmd Hp Hq Hij. destruct (desc_in md Hmd) as (_ & _ & Hnd & _ & _ & Hpair & _).
  assert (f_tag (p_field p) <> f_tag (p_field q)) as Htag.
  { intros Heq. apply Hij. eapply NoDup_lookup; [exact Hnd | |].
    - rewrite list_lookup_fmap (layout_lookup _ _ _ Hp). done.
    - rewrite list_lookup_fmap (layout_lookup _ _ _ Hq) /= Heq. done. }
  split; [done |]. rewrite Forall_forall in Hpair.
  specialize (Hpair p (list_elem_of_lookup_2 _ _ _ Hp)). rewrite Forall_forall in Hpair.
  by destruct (Hpair q (list_elem_of_lookup_2 _ _ _ Hq)) as [? | ?].
Qed.

Lemma place_fixed md p :
  place_ok table md p -> is_repeated (p_field p) = true -> p_size p = p_data p ->
  is_pointer (p_field p) = false /\ is_sub (p_field p) = false.
Proof.
  intros Hp Hr Hs. destruct Hp as (_&_&_&_&_&_&_&_&_&_&_&_&_&_&_& Hfix & _).
  by destruct (Hfix Hr Hs) as (? & ? & _).
Qed.

(** Another field keeps what it owns, ... *)
Lemma other_apart md p q l l' rec loose :
  place_ok table md q -> places_apart p q -> keeps p l l' ->
  field_owned table rec loose q l' = field_owned table rec loose q l.
Proof.
  intros Hq (H1 & H2 & H3 & H4) [_ Hk]. pose proof Hq as (_&_&_&Hd&_&Hs&_).
  assert (forall a b c d, apart a b c d -> apart c d a b) as Hsym by (unfold apart; lia).
  apply field_owned_local.
  - apply Hk; [lia |]. split; by apply Hsym.
  - intros E. apply Hk; [lia |]. rewrite E in H2, H4. split; by apply Hsym.
  - by apply (place_fixed md).
Qed.

(** ... also in a union, when that holds the field that changes. *)
Lemma other_kept md i j p q l l' rec loose :
  md ∈ table -> layout (md_fields md) !! i = Some p -> layout (md_fields md) !! j = Some q ->
  i <> j -> keeps p l l' ->
  (is_oneof (p_field p) = true ->
     count_of p l = f_tag (p_field p) /\ count_of p l' = f_tag (p_field p)) ->
  field_owned table rec loose q l' = field_owned table rec loose q l.
Proof.
  intros Hmd Hp Hq Hij Hk Hun. destruct (pair_in md i j p q Hmd Hp Hq Hij) as [Htag [Hu | Hap]].
  - destruct Hu as (Hop & Hoq & Hd & Hs). destruct (Hun Hop) as [Hc Hc'].
    assert (forall x, count_of q x = count_of p x) as Hcq by (intros x; unfold count_of; by rewrite Hs).
    pose proof (place_in md i p Hmd Hp) as (_&_&_&_&_&_&_&_&_&_&Htp&_).
    unfold field_owned, inactive. rewrite Hoq !Hcq Hc Hc'.
    rewrite (proj2 (Z.eqb_neq (f_tag (p_field p)) (f_tag (p_field q)))); [| done].
    rewrite (proj2 (Z.eqb_neq (f_tag (p_field p)) 0)); [| lia]. by rewrite andb_false_r.
  - eapply other_apart; [by eapply place_in | done | done].
Qed.

(** The fields but for one of them. *)
Definition others (md : msg_desc) (rec : msg_desc -> list byte -> hprop) (loose : bool) (i : nat)
    (l : list byte) : hprop :=
  ([∗ list] j ↦ q ∈ layout (md_fields md),
     if decide (j = i) then emp else field_owned table rec loose q l)%I.

Lemma others_kept md i p l l' rec loose :
  md ∈ table -> layout (md_fields md) !! i = Some p -> keeps p l l' ->
  (is_oneof (p_field p) = true ->
     count_of p l = f_tag (p_field p) /\ count_of p l' = f_tag (p_field p)) ->
  others md rec loose i l ⊣⊢ others md rec loose i l'.
Proof.
  intros Hmd Hp Hk Hun. apply big_sepL_proper. intros j q Hq. case_decide as Hij; [done |].
  by rewrite (other_kept md i j p q l l').
Qed.

Lemma fields_split md i p l rec loose :
  layout (md_fields md) !! i = Some p ->
  ([∗ list] q ∈ layout (md_fields md), field_owned table rec loose q l)
  ⊣⊢ field_owned table rec loose p l ∗ others md rec loose i l.
Proof. intros Hp. by rewrite (big_sepL_delete _ _ _ _ Hp). Qed.
(** The fields but for one and, if it is in a union, for the other members of that. *)
Definition outside (md : msg_desc) (rec : msg_desc -> list byte -> hprop) (loose : bool) (i : nat)
    (p : place) (l : list byte) : hprop :=
  ([∗ list] j ↦ q ∈ layout (md_fields md),
     if decide (j = i \/ same_union p q) then emp else field_owned table rec loose q l)%I.

Lemma outside_kept md i p l l' rec loose :
  md ∈ table -> layout (md_fields md) !! i = Some p -> keeps p l l' ->
  outside md rec loose i p l ⊣⊢ outside md rec loose i p l'.
Proof.
  intros Hmd Hp Hk. apply big_sepL_proper. intros j q Hq. case_decide as Hij; [done |].
  apply Decidable.not_or in Hij as [Hij Hu].
  destruct (pair_in md i j p q Hmd Hp Hq) as [_ [? | Hap]]; [congruence | done |].
  rewrite (other_apart md p q l l'); [done | by eapply place_in | done..].
Qed.

Lemma same_union_count p q (l : list byte) : same_union p q -> count_of q l = count_of p l.
Proof. intros (_ & _ & _ & Hs). unfold count_of. by rewrite Hs. Qed.

(** A member of a union that holds another one. *)
Lemma inactive_emp rec loose q l :
  is_oneof (p_field q) = true -> count_of q l <> 0 -> count_of q l <> f_tag (p_field q) ->
  field_owned table rec loose q l = emp%I.
Proof.
  intros Ho H0 Ht. unfold field_owned, inactive. rewrite Ho.
  rewrite (proj2 (Z.eqb_neq (count_of q l) (f_tag (p_field q)))); [| done].
  rewrite (proj2 (Z.eqb_neq (count_of q l) 0)); [| done]. by rewrite andb_false_r.
Qed.

Lemma tag_pos md i p : md ∈ table -> layout (md_fields md) !! i = Some p -> 0 < f_tag (p_field p).
Proof. intros Hmd Hp. pose proof (place_in md i p Hmd Hp) as (_&_&_&_&_&_&_&_&_&_&?&_). lia. Qed.

Lemma others_outside md i p l rec loose :
  md ∈ table -> layout (md_fields md) !! i = Some p ->
  (is_oneof (p_field p) = true -> count_of p l = f_tag (p_field p) \/ count_of p l = 0) ->
  others md rec loose i l ⊢ outside md rec loose i p l.
Proof.
  intros Hmd Hp Hun. apply big_sepL_mono. intros j q Hq.
  destruct (decide (j = i)) as [-> | Hij]; [by rewrite decide_True; [| left] |].
  case_decide as Hu; [| done]. destruct Hu as [? | Hu]; [done |].
  destruct (pair_in md i j p q Hmd Hp Hq) as [Htag _]; [congruence |].
  pose proof (tag_pos md i p Hmd Hp). pose proof (tag_pos md j q Hmd Hq).
  pose proof Hu as (Hop & Hoq & _). destruct (Hun Hop) as [Hc | Hc];
    (rewrite -(same_union_count p q l) in Hc; [| done]).
  - rewrite inactive_emp; [done | done | lia | lia].
  - unfold field_owned, inactive. rewrite Hoq Hc.
    rewrite (proj2 (Z.eqb_neq 0 (f_tag (p_field q)))); [| lia]. simpl.
    destruct (_ && _); [iIntros "[_ $]" | done].
Qed.

Lemma outside_others md i p l rec loose :
  md ∈ table -> layout (md_fields md) !! i = Some p ->
  (is_oneof (p_field p) = true -> count_of p l = f_tag (p_field p)) ->
  outside md rec loose i p l ⊢ others md rec loose i l.
Proof.
  intros Hmd Hp Hun. apply big_sepL_mono. intros j q Hq.
  destruct (decide (j = i)) as [-> | Hij]; [by rewrite decide_True; [| left] |].
  case_decide as Hu; [| done]. destruct Hu as [? | Hu]; [done |].
  destruct (pair_in md i j p q Hmd Hp Hq) as [Htag _]; [congruence |].
  pose proof (tag_pos md i p Hmd Hp). pose proof (proj1 Hu) as Hop. pose proof (proj1 (proj2 Hu)).
  specialize (Hun Hop). rewrite -(same_union_count p q l) in Hun; [| done].
  rewrite inactive_emp; [done | done | lia | lia].
Qed.

(** The member that a union held is gone. *)
Lemma released_outside md i j p q l rec loose :
  md ∈ table -> layout (md_fields md) !! i = Some p -> layout (md_fields md) !! j = Some q ->
  is_oneof (p_field p) = true -> count_of p l = f_tag (p_field q) -> (emp ⊢ field_owned table rec loose q l) ->
  others md rec loose j l ⊢ outside md rec loose i p l.
Proof.
  intros Hmd Hp Hq Hop Hc Hfree. apply big_sepL_mono. intros k r Hr.
  pose proof (tag_pos md j q Hmd Hq).
  destruct (decide (k = j)) as [-> | Hkj].
  - rewrite Hq in Hr. injection Hr as <-. case_decide; [done |]. exact Hfree.
  - case_decide as Hu; [| done].
    destruct (pair_in md j k q r Hmd Hq Hr) as [Htag _]; [congruence |].
    assert (is_oneof (p_field r) = true /\ count_of r l = count_of p l) as [Ho Hcr].
    { destruct Hu as [-> | Hu]; [rewrite Hp in Hr; by injection Hr as <- |].
      split; [apply Hu | by apply same_union_count]. }
    rewrite inactive_emp; [done | done | lia | lia].
Qed.
End Table.

(** ** Facts about single fields *)

Section Places.
Context (table : list msg_desc).

Lemma data_len_pointer f : is_pointer f = true -> data_len f = 8.
Proof.
  unfold is_pointer, data_len, prev_size. intros Hp%Z.eqb_eq. by rewrite Hp.
Qed.

Lemma data_len_static f :
  is_pointer f = false -> is_repeated f = false -> data_len f = f_data_size f.
Proof.
  unfold is_pointer, is_repeated, is_htype, data_len, prev_size. intros -> ->.
  by rewrite andb_false_r.
Qed.

Lemma data_len_array f :
  PB_ATYPE (f_type f) = PB_ATYPE_STATIC -> is_repeated f = true ->
  data_len f = f_data_size f * f_array_size f.
Proof. unfold is_repeated, is_htype, data_len, prev_size. intros -> ->. done. Qed.

Lemma size_len_count p :
  is_oneof (p_field p) = true \/ (is_repeated (p_field p) = true /\ p_size p <> p_data p) ->
  size_len p = 4.
Proof.
  unfold size_len. intros [-> | [-> Hne]]; [done |].
  destruct (is_oneof _); [done |]. by rewrite (proj2 (Z.eqb_neq _ _) Hne).
Qed.

Lemma size_len_has p :
  is_pointer (p_field p) = false -> is_htype PB_HTYPE_OPTIONAL (p_field p) = true ->
  p_size p <> p_data p -> size_len p = 1.
Proof.
  unfold size_len, is_oneof, is_repeated, is_htype. intros -> Ho Hne. rewrite Ho.
  apply Z.eqb_eq in Ho. rewrite Ho. by rewrite (proj2 (Z.eqb_neq _ _) Hne).
Qed.

Lemma size_is_data_at fields a i p :
  size_is_data (iter_at fields a i p) = (p_size p =? p_data p).
Proof.
  unfold size_is_data, iter_at. simpl. destruct (Z.eqb_spec (p_size p) (p_data p)) as [-> |].
  - by rewrite Z.eqb_refl.
  - apply Z.eqb_neq. lia.
Qed.

(** The rules of repetition: there are four, and they exclude each other. *)
Lemma htype_cases t :
  PB_HTYPE t = PB_HTYPE_REQUIRED \/ PB_HTYPE t = PB_HTYPE_OPTIONAL \/
  PB_HTYPE t = PB_HTYPE_REPEATED \/ PB_HTYPE t = PB_HTYPE_ONEOF.
Proof.
  unfold PB_HTYPE. assert (t .& 48 = ((t .>> 4) .& 3) * 16) as ->.
  { change 16 with (2 ^ 4). rewrite -Z.shiftl_mul_pow2; [| done]. change 48 with (3 .<< 4).
    apply Z.bits_inj'. intros k Hk. rewrite Z.land_spec. destruct (decide (k < 4)).
    - by rewrite !Z.shiftl_spec_low; [rewrite andb_false_r | done..].
    - rewrite !Z.shiftl_spec; [| lia | lia]. rewrite Z.land_spec Z.shiftr_spec; [| lia].
      by replace (k - 4 + 4) with k by lia. }
  change 3 with (Z.ones 2). rewrite Z.land_ones; [| done].
  pose proof (Z.mod_pos_bound (t .>> 4) (2 ^ 2) ltac:(lia)).
  unfold PB_HTYPE_REQUIRED, PB_HTYPE_OPTIONAL, PB_HTYPE_REPEATED, PB_HTYPE_ONEOF. lia.
Qed.

Lemma oneof_not_repeated f : is_oneof f = true -> is_repeated f = false.
Proof. unfold is_oneof, is_repeated, is_htype. intros ->%Z.eqb_eq. done. Qed.

Lemma optional_not_repeated f : is_htype PB_HTYPE_OPTIONAL f = true -> is_repeated f = false.
Proof. unfold is_repeated, is_htype. intros ->%Z.eqb_eq. done. Qed.

Lemma optional_not_oneof f : is_htype PB_HTYPE_OPTIONAL f = true -> is_oneof f = false.
Proof. unfold is_oneof, is_htype. intros ->%Z.eqb_eq. done. Qed.

Lemma items_0 ds F b : items 0 ds F b = emp%I.
Proof. done. Qed.

(** The bounds of the members of a field. *)
Lemma place_bounds md p (l : list byte) :
  place_ok table md p -> lenB l = md_size md ->
  0 <= p_data p /\ p_data p + data_len (p_field p) <= lenB l /\
  0 <= p_size p /\ p_size p + size_len p <= lenB l /\
  apart (p_data p) (data_len (p_field p)) (p_size p) (size_len p) /\
  1 <= f_data_size (p_field p) < 2 ^ 32 /\ 0 <= f_array_size (p_field p) < 2 ^ 32 /\
  0 < f_tag (p_field p) < 2 ^ 32.
Proof. intros (_&_&_&?&?&?&?&?&?&?&?&_) ->. tauto. Qed.

Lemma place_kind md p :
  place_ok table md p ->
  PB_LTYPE (f_type (p_field p)) =? PB_LTYPE_EXTENSION = false /\
  (is_pointer (p_field p) = false -> PB_ATYPE (f_type (p_field p)) = PB_ATYPE_STATIC) /\
  match sub_desc table (p_field p) with
  | Some md' => is_sub (p_field p) = true /\ f_data_size (p_field p) = md_size md' /\
                (is_pointer (p_field p) = false -> (md_rank md' < md_rank md)%nat) /\
                (is_pointer (p_field p) = false -> is_repeated (p_field p) = true ->
                 md_flat md' = true)
  | None => is_sub (p_field p) = false
  end /\
  (is_sub (p_field p) = false -> default_ok (p_field p)) /\
  (is_repeated (p_field p) = true -> p_size p = p_data p ->
   is_pointer (p_field p) = false /\ is_sub (p_field p) = false /\ 4 <= data_len (p_field p)).
Proof. intros (_&?&?&_&_&_&_&_&_&_&_&_&_&?&?&?&_). tauto. Qed.

(** What a member of a union owns while the union holds nothing, and a field in use. *)
Lemma field_owned_unset rec loose p l :
  0 < f_tag (p_field p) -> is_oneof (p_field p) = true -> count_of p l = 0 ->
  field_owned table rec loose p l =
    (if is_pointer (p_field p) then ⌜ptr_of (p_data p) l = 0⌝ ∧ emp else emp)%I.
Proof.
  intros Ht Ho Hc. unfold field_owned, inactive. rewrite Ho Hc.
  rewrite (proj2 (Z.eqb_neq 0 (f_tag (p_field p)))); [| lia]. by destruct (is_pointer _).
Qed.

Lemma field_owned_active rec loose p l :
  (is_oneof (p_field p) = true -> count_of p l = f_tag (p_field p)) ->
  field_owned table rec loose p l =
    (if is_pointer (p_field p) then pointer_owned table rec loose p l
     else static_owned table rec loose p l).
Proof.
  intros Ho. unfold field_owned, inactive. destruct (is_oneof _); [| done].
  by rewrite Ho // Z.eqb_refl.
Qed.

(** A static field that is neither a submessage nor in use owns nothing. *)
Lemma static_emp rec loose p l :
  is_pointer (p_field p) = false -> is_sub (p_field p) = false ->
  field_owned table rec loose p l = emp%I.
Proof.
  intros Hp Hs. unfold field_owned, static_owned. rewrite Hp Hs. simpl.
  by destruct (inactive p l).
Qed.

(** What is well formed is so also for the checks that hold after a failure. *)
Lemma field_owned_loose (rec rec' : msg_desc -> list byte -> hprop) p l :
  (forall md x, rec md x ⊢ rec' md x) ->
  field_owned table rec false p l ⊢ field_owned table rec' true p l.
Proof.
  intros Hrec. unfold field_owned.
  assert (forall f x, sub_owned table rec f x ⊢ sub_owned table rec' f x) as Hsub.
  { intros f x. unfold sub_owned. by destruct (sub_desc table f). }
  assert (forall k ds (F F' : list byte -> hprop) b, (forall x, F x ⊢ F' x) ->
            items k ds F b ⊢ items k ds F' b) as Hitems.
  { intros k ds F F' b HF. apply big_sepL_mono. intros j y _. apply HF. }
  destruct (inactive p l); [done |]. destruct (is_pointer (p_field p)).
  - unfold pointer_owned. destruct (_ =? 0); [done |]. apply bi.exist_mono. intros b.
    apply bi.sep_mono_r. destruct (is_repeated (p_field p)).
    + apply bi.and_mono_r. rewrite tally_emp -tally_loose. apply bi.sep_mono_r, Hitems.
      intros x. unfold elem_owned. by destruct (is_sub (p_field p)).
    + destruct (is_sub (p_field p)); [by apply bi.and_mono_r | done].
  - unfold static_owned. destruct (is_sub (p_field p)); [| done].
    destruct (is_repeated (p_field p)); [| done]. apply bi.and_mono.
    + iIntros "_". iPureIntro. by left.
    + by apply Hitems.
Qed.

Lemma msg_owned_loose n md l : msg_owned table false n md l ⊢ msg_owned table true n md l.
Proof.
  revert md l. induction n as [| n IH]; intros md l; [done |]. apply big_sepL_mono.
  intros j q _. by apply field_owned_loose.
Qed.
End Places.

(** ** Messages without pointers *)

Section Flat.
Context (table : list msg_desc) (Htable : table_ok table).

(** They own nothing, whatever their bytes. *)
Lemma flat_blank n md l :
  md ∈ table -> md_flat md = true -> (md_rank md < n)%nat -> lenB l = md_size md ->
  blank table true n md l.
Proof.
  revert md l. induction n as [| n IH]; intros md l Hmd Hflat Hr Hl; [lia |]. split; [done |].
  destruct (desc_in table Htable md Hmd) as (_ & _ & _ & _ & _ & _ & Hf). specialize (Hf Hflat).
  apply sepL_of_emp. intros j p Hp. pose proof (place_in table Htable md j p Hmd Hp) as Hok.
  rewrite Forall_forall in Hf. destruct (Hf p (list_elem_of_lookup_2 _ _ _ Hp)) as [Hst Hsubf].
  destruct (place_bounds table md p l Hok Hl) as (Hd & Hd' & _ & _ & _ & Hds & Har & _).
  unfold field_owned. rewrite Hst. simpl. destruct (inactive p l); [done |]. unfold static_owned.
  destruct (is_sub (p_field p)) eqn:Es; [| done].
  destruct (sub_field table md p Hok Es) as (id & md' & Ef & Ed & Edf & Hin & Hsz & Hrank & _).
  rewrite Ed in Hsubf. unfold sub_owned. rewrite Ed.
  assert (forall x, lenB x = f_data_size (p_field p) -> emp ⊢ msg_owned table true n md' x) as Hx.
  { intros x Hx. apply IH; [done | done | specialize (Hrank Hst); lia | lia]. }
  destruct (is_repeated (p_field p)) eqn:Er.
  - apply bi.and_intro; [iIntros "_"; iPureIntro; by left |].
    apply sepL_of_emp. intros k y [-> Hk]%lookup_seq. apply Hx.
    destruct (place_kind table md p Hok) as (_ & Hstat & _).
    pose proof (data_len_array _ (Hstat Hst) Er) as Hdl.
    rewrite length_sub; [done | nia | lia |]. rewrite length_sub; nia.
  - apply Hx. rewrite length_sub; [by apply data_len_static | lia | | lia].
    rewrite data_len_static; [lia | done | done].
Qed.
End Flat.
