(* ===== verification/PbDefaults.v ===== *)
(** * Default values

    [pb_message_set_to_defaults] on a struct that owns nothing, whatever its bytes: it
    writes only to the struct, and leaves a message that owns nothing yet is well formed. *)

From stdpp Require Import gmap.
From iris.proofmode Require Import proofmode.
From S2P Require Import Prelude PbStream PbWire PbMem PbIter PbDecode PbLayout.
From S2P Require Import Sep Slice PbTriple PbOwned PbFields.

Section Defaults.
Context {St : Type} `{ReadCallback St} `{Allocator} {Bud : Budget}.
Context (table : list msg_desc) (Htable : table_ok table).
Context (ext_types : Z -> option pb_extension_type_t).

Abbreviation set_default fuel := (pb_field_set_to_default (St:=St) (descs_of table) ext_types fuel).

(** What is done with a field that is no extension, by the names of its properties. *)
Lemma set_default_eq md fuel a i p :
  layout (md_fields md) !! i = Some p -> place_ok table md p ->
  set_default (S fuel) (iter_at (md_fields md) a i p) =
  (let f := p_field p in
   if is_pointer f then
     _ ← set_ptr (a + p_data p) 0;
     if is_repeated f || is_oneof f then set_count (SizeAt (a + p_size p)) 0 else mret tt
   else
     init_data ←
       (if is_htype PB_HTYPE_OPTIONAL f && negb (p_size p =? p_data p)
        then _ ← set_has (SizeAt (a + p_size p)) false; mret true
        else if is_repeated f || is_oneof f
        then _ ← set_count (SizeAt (a + p_size p)) 0; mret false
        else mret true);
     if negb init_data then mret tt
     else if is_sub f then message_defaults (descs_of table) (set_default fuel) (f_ptr f) (a + p_data p)
     else match f_ptr f with
          | PtrNull => memset_zero (a + p_data p) (f_data_size f)
          | PtrDefault value =>
              if Nat.leb (Z.to_nat (f_data_size f)) (length value)
              then set_bytes (a + p_data p) (take (Z.to_nat (f_data_size f)) value)
              else stuck
          | PtrFields _ => stuck
          end).
Proof.
  intros Hp Hok. destruct (place_kind table md p Hok) as (Hext & Hst & _).
  cbn [pb_field_set_to_default]. rewrite (cur_iter_at _ a i p); [| done].
  rewrite size_is_data_at Hext.
  change (PB_ATYPE (f_type (p_field p)) =? PB_ATYPE_POINTER) with (is_pointer (p_field p)).
  destruct (is_pointer (p_field p)) eqn:Ep.
  - unfold is_pointer in Ep. apply Z.eqb_eq in Ep. by rewrite Ep.
  - by rewrite Hst.
Qed.

(** What becomes of the bytes of the struct. *)
Definition default_post (p : place) (l l' : list byte) : Prop :=
  keeps p l l' /\
  (is_oneof (p_field p) = true ->
     count_of p l' = 0 /\
     (apart (p_data p) 8 (p_size p) 4 -> p_data p + 8 <= lenB l ->
      ptr_of (p_data p) l = 0 -> ptr_of (p_data p) l' = 0)).

Lemma default_count md p l rec :
  place_ok table md p -> lenB l = md_size md -> is_pointer (p_field p) = false ->
  is_repeated (p_field p) || is_oneof (p_field p) = true ->
  default_post p l (upd (p_size p) (size_bytes 0) l) /\
  (emp ⊢ field_owned table rec false p (upd (p_size p) (size_bytes 0) l)) /\
  p_size p + 4 <= lenB l.
Proof.
  intros Hok Hl Hst Hro.
  destruct (place_bounds table md p l Hok Hl) as (Hd & Hd' & Hs & Hs' & Hap & Hds & Har & Ht).
  destruct (place_kind table md p Hok) as (_ & _ & _ & _ & Hfix).
  destruct (is_oneof (p_field p)) eqn:Eo.
  - pose proof (size_len_count p (or_introl Eo)) as Hsl. rewrite Hsl in Hs', Hap.
    assert (count_of p (upd (p_size p) (size_bytes 0) l) = 0) as Hc
      by (apply size_of_upd; lia).
    split_and!; [| | lia].
    + split; [apply keeps_size; [done | rewrite length_size_bytes; lia] |].
      intros _. split; [done |]. intros Ha H8 Hp0. unfold ptr_of, apart in *.
      rewrite sub_upd_disj; [done | lia | lia | rewrite length_size_bytes; lia].
    + rewrite field_owned_unset; [by rewrite Hst | lia | done | done].
  - rewrite orb_false_r in Hro. destruct (decide (p_size p = p_data p)) as [He | Hne].
    + destruct (Hfix Hro He) as (_ & Hsub & H4). split_and!; [| | lia].
      * split; [| by rewrite Eo]. rewrite He. apply keeps_data; [lia |]. rewrite length_size_bytes. lia.
      * by rewrite static_emp.
    + pose proof (size_len_count p (or_intror (conj Hro Hne))) as Hsl. rewrite Hsl in Hs', Hap.
      assert (count_of p (upd (p_size p) (size_bytes 0) l) = 0) as Hc
        by (apply size_of_upd; lia).
      split_and!; [| | lia].
      * split; [| by rewrite Eo]. apply keeps_size; [done | rewrite length_size_bytes; lia].
      * rewrite field_owned_active; [| by rewrite Eo]. unfold static_owned. rewrite Hst Hro Hc.
        destruct (is_sub (p_field p)); [| done]. rewrite Z.min_l; [| lia].
        rewrite items_0. iIntros "_". iSplit; [| done]. iPureIntro. right. lia.
Qed.

Lemma default_pointer md p l rec :
  place_ok table md p -> lenB l = md_size md -> is_pointer (p_field p) = true ->
  let l1 := upd (p_data p) (ptr_bytes 0) l in
  let l2 := if is_repeated (p_field p) || is_oneof (p_field p)
            then upd (p_size p) (size_bytes 0) l1 else l1 in
  p_data p + 8 <= lenB l /\ default_post p l l2 /\ (emp ⊢ field_owned table rec false p l2) /\
  (is_repeated (p_field p) || is_oneof (p_field p) = true -> p_size p + 4 <= lenB l).
Proof.
  intros Hok Hl Hp l1 l2.
  destruct (place_bounds table md p l Hok Hl) as (Hd & Hd' & Hs & Hs' & Hap & Hds & Har & Ht).
  destruct (place_kind table md p Hok) as (_ & _ & _ & _ & Hfix).
  pose proof (data_len_pointer _ Hp) as Hdl.
  assert (is_repeated (p_field p) || is_oneof (p_field p) = true -> size_len p = 4) as Hsl.
  { intros Hro. apply size_len_count. apply orb_true_iff in Hro as [Hr | Ho]; [right | by left].
    split; [done |]. intros He. destruct (Hfix Hr He). congruence. }
  assert (keeps p l l1) as Hk1 by (apply keeps_data; [lia | rewrite length_ptr_bytes; lia]).
  assert (ptr_of (p_data p) l1 = 0) as Hp1 by (apply ptr_of_upd; lia).
  assert (lenB l1 = lenB l) as Hl1 by (by unfold l1; rewrite length_upd).
  unfold apart in Hap. unfold l2. destruct (is_repeated _ || is_oneof _) eqn:Hro.
  - rewrite Hsl in Hs', Hap; [| done].
    assert (count_of p (upd (p_size p) (size_bytes 0) l1) = 0) as Hc by (apply size_of_upd; lia).
    assert (ptr_of (p_data p) (upd (p_size p) (size_bytes 0) l1) = 0) as Hp2.
    { unfold ptr_of in *. rewrite sub_upd_disj; [done | lia | lia | rewrite length_size_bytes; lia]. }
    split_and!; [lia | split | | lia].
    + eapply keeps_trans; [exact Hk1 |]. apply keeps_size; [lia | rewrite length_size_bytes Hsl; lia].
    + done.
    + destruct (is_oneof (p_field p)) eqn:Eo.
      * rewrite field_owned_unset; [rewrite Hp; by iIntros "_" | lia | done | done].
      * rewrite field_owned_active; [| by rewrite Eo]. rewrite Hp. unfold pointer_owned.
        rewrite Hp2 Hc. simpl. destruct (is_repeated _); [by iIntros "_" | done].
  - apply orb_false_iff in Hro as [Hr Ho]. split_and!; [lia | split | | done].
    + done.
    + by rewrite Ho.
    + rewrite field_owned_active; [| by rewrite Ho]. rewrite Hp. unfold pointer_owned.
      by rewrite Hp1 Hr.
Qed.

(** A static field that holds one entry. *)
Lemma static_single p l l1 k :
  is_pointer (p_field p) = false -> is_repeated (p_field p) = false ->
  is_oneof (p_field p) = false -> 0 <= p_data p -> p_data p + data_len (p_field p) <= lenB l ->
  keeps p l l1 -> lenB k = data_len (p_field p) ->
  default_post p l (upd (p_data p) k l1) /\
  forall rec loose, field_owned table rec loose p (upd (p_data p) k l1)
    = (if is_sub (p_field p) then sub_owned table rec (p_field p) k else emp)%I.
Proof.
  intros Hp Hr Ho Hd Hl Hk1 Hk. split; [split; [| by rewrite Ho] |].
  - eapply keeps_trans; [exact Hk1 |]. apply keeps_data; lia.
  - intros rec loose. rewrite field_owned_active; [| by rewrite Ho]. rewrite Hp.
    unfold static_owned. rewrite Hr -Hk sub_upd_same; [done | done |].
    rewrite (proj1 Hk1). lia.
Qed.

(** ** Fields *)

Section Field.
Context (n : Z) (fuel N : nat) (md : msg_desc) (Hmd : md ∈ table).

Definition defaulted (p : place) (l l' : list byte) : Prop :=
  lenB l' = md_size md /\ default_post p l l' /\
  (emp ⊢ field_owned table (msg_owned table false N) false p l').

Context (IH : forall md' a x G, md' ∈ table -> (md_rank md' < md_rank md)%nat -> 0 < a ->
  lenB x = md_size md' ->
  triple (St:=St) n (a ↦ x ∗ G) (each_field_of (md_fields md') a (set_default fuel)) (fun _ => n)
    (fun _ => struct_at a (blank table false N md') (fun _ => G)) False).

Lemma triple_init i p a l l1 G :
  layout (md_fields md) !! i = Some p -> 0 < a -> lenB l = md_size md ->
  is_pointer (p_field p) = false -> is_repeated (p_field p) = false ->
  is_oneof (p_field p) = false -> keeps p l l1 ->
  triple (St:=St) n (a ↦ l1 ∗ G)
    (if is_sub (p_field p)
     then message_defaults (descs_of table) (set_default fuel) (f_ptr (p_field p)) (a + p_data p)
     else match f_ptr (p_field p) with
          | PtrNull => memset_zero (a + p_data p) (f_data_size (p_field p))
          | PtrDefault value =>
              if Nat.leb (Z.to_nat (f_data_size (p_field p))) (length value)
              then set_bytes (a + p_data p) (take (Z.to_nat (f_data_size (p_field p))) value)
              else stuck
          | PtrFields _ => stuck
          end) (fun _ => n)
    (fun _ => struct_at a (defaulted p l) (fun _ => G)) False.
Proof.
  intros Hp Ha Hl Hst Hr Ho Hk1. pose proof (place_in table Htable md i p Hmd Hp) as Hok.
  destruct (place_bounds table md p l Hok Hl) as (Hd & Hd' & Hs & Hs' & Hap & Hds & Har & Ht).
  destruct (place_kind table md p Hok) as (_ & _ & Hsub & Hdef & _).
  pose proof (data_len_static _ Hst Hr) as Hdl. pose proof (proj1 Hk1) as Hlen.
  assert (forall k, lenB k = data_len (p_field p) -> is_sub (p_field p) = false ->
            triple (St:=St) n (a ↦ l1 ∗ G) (set_bytes (a + p_data p) k) (fun _ => n)
              (fun _ => struct_at a (defaulted p l) (fun _ => G)) False) as Hset.
  { intros k Hk Hns. apply last_set; [done | lia |].
    apply struct_intro; [| done]. destruct (static_single p l l1 k) as [H1 H2]; try done.
    split_and!; [rewrite length_upd; lia | done |]. by rewrite H2 Hns. }
  destruct (is_sub (p_field p)) eqn:Es.
  - destruct (sub_field table md p Hok Es) as (id & md' & Ef & Ed & Edf & Hin & Hsz & Hrank & _).
    rewrite Ef. cbn [message_defaults]. rewrite Edf.
    eapply (triple_zoom _ _ (p_data p) (f_data_size (p_field p))); [lia | lia | lia | apply (IH md') | |].
    + done.
    + by apply Hrank.
    + lia.
    + rewrite length_sub; lia.
    + intros ?. cbv beta. apply hole_struct; [intros x Hx; by rewrite (proj1 Hx) |].
      intros x [Hx Hb]. destruct (static_single p l l1 x) as [H1 H2]; try done; [congruence |].
      apply struct_intro; [| done]. split_and!; [rewrite length_upd; lia | done |].
      rewrite H2 Es. unfold sub_owned. by rewrite Ed.
    + apply hole_false.
  - specialize (Hdef eq_refl). unfold default_ok in Hdef. destruct (f_ptr (p_field p)); [| done |].
    + apply Hset; [rewrite repeat_length; lia | done].
    + rewrite (proj2 (Nat.leb_le _ _)); [| lia]. apply Hset; [rewrite length_take; lia | done].
Qed.

Lemma triple_set_default i p a l G :
  layout (md_fields md) !! i = Some p -> 0 < a -> lenB l = md_size md ->
  triple (St:=St) n (a ↦ l ∗ G) (set_default (S fuel) (iter_at (md_fields md) a i p)) (fun _ => n)
    (fun _ => struct_at a (defaulted p l) (fun _ => G)) False.
Proof.
  intros Hp Ha Hl. pose proof (place_in table Htable md i p Hmd Hp) as Hok.
  destruct (place_bounds table md p l Hok Hl) as (Hd & Hd' & Hs & Hs' & Hap & Hds & Har & Ht).
  rewrite (set_default_eq md fuel a i p); [| done..]. cbv zeta. apply triple_if; intros Hptr.
  - destruct (default_pointer md p l (msg_owned table false N) Hok Hl Hptr) as (H8 & Hpost & Howned & H4).
    apply step_set_ptr; [done | lia |]. destruct (_ || _); simpl in Hpost, Howned.
    + apply last_set_count; [lia | rewrite length_upd; lia |]. apply struct_intro; [| done].
      split_and!; [rewrite !length_upd; lia | done | done].
    + apply triple_ret; [| done]. apply struct_intro; [| done].
      split_and!; [rewrite !length_upd; lia | done | done].
  - apply triple_if_bind; intros Hopt.
    + apply andb_true_iff in Hopt as [Hopt Hne]. apply negb_true_iff, Z.eqb_neq in Hne.
      pose proof (size_len_has p Hptr Hopt Hne) as Hsl.
      apply triple_assoc. apply step_set; [lia | simpl; lia |]. apply triple_bind_ret.
      apply (triple_init i); try done; [by apply optional_not_repeated | by apply optional_not_oneof |].
      apply keeps_size; [lia | simpl; lia].
    + apply triple_if_bind; intros Hro.
      * destruct (default_count md p l (msg_owned table false N) Hok Hl Hptr Hro) as (Hpost & Howned & H4).
        apply triple_assoc. apply step_set_count; [lia | lia |]. apply triple_bind_ret.
        apply triple_ret; [| done]. apply struct_intro; [| done].
        split_and!; [rewrite length_upd; lia | done | done].
      * apply orb_false_iff in Hro as [Hr Ho]. apply triple_bind_ret. by apply (triple_init i).
Qed.
End Field.

(** ** Messages *)

Lemma emp_pure (phi : Prop) : (emp ⊢@{hpropI} ⌜phi⌝ ∧ emp) -> phi.
Proof. intros Hphi. by destruct (Hphi 0%nat (∅, ∅) eq_refl). Qed.

(** The fields before [i] have their default values. *)
Definition up_to (N : nat) (md : msg_desc) (i : nat) (l : list byte) : Prop :=
  lenB l = md_size md /\
  forall j q, (j < i)%nat -> layout (md_fields md) !! j = Some q ->
    (emp ⊢ field_owned table (msg_owned table false N) false q l) /\
    (is_oneof (p_field q) = true -> count_of q l = 0).

Lemma up_to_S N md i p l l' :
  md ∈ table -> layout (md_fields md) !! i = Some p -> up_to N md i l ->
  defaulted N md p l l' -> up_to N md (S i) l'.
Proof.
  intros Hmd Hp [Hl Hup] (Hl' & [Hk Hun] & Howned). split; [done |]. intros j q Hj Hq.
  destruct (decide (j = i)) as [-> | Hne].
  { rewrite Hp in Hq. injection Hq as <-. split; [done |]. intros Ho. by destruct (Hun Ho). }
  destruct (Hup j q ltac:(lia) Hq) as [Hqe Hqc].
  destruct (pair_in table Htable md i j p q Hmd Hp Hq) as [_ [Hu | Hap]]; [done | |].
  - pose proof Hu as (Hop & Hoq & Hd & Hs). destruct (Hun Hop) as [Hc Hptr].
    assert (count_of q l' = 0) as Hcq by (by rewrite (same_union_count p q l' Hu)).
    split; [| done]. pose proof (tag_pos table Htable md j q Hmd Hq) as Ht.
    rewrite field_owned_unset in Hqe; [| done | done | by apply Hqc].
    rewrite field_owned_unset; [| done..]. destruct (is_pointer (p_field q)) eqn:Ep; [| done].
    apply emp_pure in Hqe. iIntros "_". iSplit; [| done]. iPureIntro.
    pose proof (place_in table Htable md j q Hmd Hq) as Hqok.
    destruct (place_bounds table md q l Hqok Hl) as (_ & Hd' & _ & _ & Hap & _).
    rewrite (data_len_pointer _ Ep) in Hd', Hap. rewrite (size_len_count q (or_introl Hoq)) in Hap.
    rewrite -Hd in Hqe, Hd', Hap |- *. rewrite -Hs in Hap. by apply Hptr.
  - pose proof (place_in table Htable md j q Hmd Hq) as Hqok.
    rewrite (other_apart table md p q l l'); [| done..]. split; [done |]. intros Ho.
    rewrite -(Hqc Ho). unfold count_of, size_of. f_equal. destruct Hap as (_ & H2 & _ & H4).
    rewrite (size_len_count q (or_introl Ho)) in H2, H4.
    destruct (place_bounds table md q l Hqok Hl) as (_ & _ & Hqs & _).
    apply Hk; [done |]. unfold off_place, apart in *. lia.
Qed.

(** [pb_message_set_to_defaults]: enough fuel for the static submessages. *)
Lemma triple_set_to_defaults_S n fuel N md a l G :
  md ∈ table -> (md_rank md < fuel)%nat -> (md_rank md <= N)%nat -> 0 < a -> lenB l = md_size md ->
  triple (St:=St) n (a ↦ l ∗ G)
    (pb_message_set_to_defaults (descs_of table) ext_types fuel (md_fields md) a) (fun _ => n)
    (fun _ => struct_at a (blank table false (S N) md) (fun _ => G)) False.
Proof.
  revert N md a l G. induction fuel as [| fuel IH]; intros N md a l G Hmd Hf HN Ha Hl; [lia |].
  destruct (desc_in table Htable md Hmd) as (_ & Hok & _).
  eapply triple_weaken; [eapply (triple_each_place n (md_fields md) a _
      (fun i => struct_at a (up_to N md i) (fun _ => G)) False%I); [done | lia |] | | | done | done].
  - intros i p Hp. apply triple_struct. intros x [Hx Hup].
    eapply triple_post; [| apply (triple_set_default n fuel N md Hmd); [| done..]].
    + intros ?. cbv beta. apply struct_mono; [| done]. intros x'. by apply up_to_S.
    + intros md' b y G' Hmd' Hr Hb Hy. destruct N as [| N]; [lia |].
      apply (IH N md'); (done || lia).
  - rewrite -(struct_intro a l G (up_to N md 0) (fun _ => G)); [done | | done].
    split; [done |]. lia.
  - intros ?. cbv beta. apply struct_mono; [| done]. intros x [Hx Hup]. split; [done |].
    cbn [msg_owned]. apply sepL_of_emp. intros k q Hq. eapply Hup; [| done].
    rewrite -length_layout. by eapply lookup_lt_Some.
Qed.

Lemma triple_set_to_defaults n fuel N md a l G :
  md ∈ table -> (md_rank md < fuel)%nat -> (md_rank md < N)%nat -> 0 < a -> lenB l = md_size md ->
  triple (St:=St) n (a ↦ l ∗ G)
    (pb_message_set_to_defaults (descs_of table) ext_types fuel (md_fields md) a) (fun _ => n)
    (fun _ => struct_at a (blank table false N md) (fun _ => G)) False.
Proof.
  intros Hmd Hf HN Ha Hl. destruct N as [| N]; [lia |]. apply triple_set_to_defaults_S; (done || lia).
Qed.
End Defaults.
