(* ===== verification/PbRelease.v ===== *)
(** * Release

    [pb_release] on a message frees every block that the message owns and no other; the
    struct is left as a message that owns nothing, so that it may be released again. *)

From stdpp Require Import gmap.
From iris.proofmode Require Import proofmode.
From S2P Require Import Prelude PbStream PbWire PbMem PbIter PbDecode PbLayout.
From S2P Require Import Sep Slice PbTriple PbOwned PbFields.

(** ** Arrays *)

Section Items.
Context {St : Type} `{ReadCallback St} `{Allocator} {Bud : Budget}.

Definition items_from (k r : nat) (ds : Z) (F : list byte -> hprop) (b : list byte) : hprop :=
  ([∗ list] i ∈ seq k r, F (sub (Z.of_nat i * ds) ds b))%I.

(** The entries that an update of entry [j] leaves alone. *)
Lemma items_upd k r j ds F x b :
  0 <= ds -> lenB x = ds -> (j < k \/ k + r <= j)%nat ->
  items_from k r ds F (upd (Z.of_nat j * ds) x b) ⊣⊢ items_from k r ds F b.
Proof.
  intros Hds Hx Hj. apply big_sepL_proper. intros i y Hi. apply lookup_seq in Hi as [-> Hi].
  rewrite sub_upd_disj; [done | nia | nia | nia].
Qed.

(** A loop that works on the entries in turn. *)
Lemma triple_items n r k item ds b F G (good : list byte -> Prop)
    (f : Z -> prog (dstate St) unit) :
  0 <= ds -> (Z.of_nat (k + r)) * ds <= lenB b ->
  (forall i x G, (i < k + r)%nat -> lenB x = ds ->
     triple n ((item + Z.of_nat i * ds) ↦ x ∗ F x ∗ G) (f (item + Z.of_nat i * ds)) (fun _ => n)
       (fun _ => struct_at (item + Z.of_nat i * ds) (fun x' => lenB x' = ds /\ good x') (fun _ => G))
       False) ->
  (forall i, (i < k)%nat -> good (sub (Z.of_nat i * ds) ds b)) ->
  triple n (item ↦ b ∗ items_from k r ds F b ∗ G) (for_each_item r (item + Z.of_nat k * ds) ds f)
    (fun _ => n)
    (fun _ => struct_at item (fun b' => lenB b' = lenB b /\
       forall i, (i < k + r)%nat -> good (sub (Z.of_nat i * ds) ds b')) (fun _ => G)) False.
Proof.
  intros Hds. revert k b. induction r as [| r IH]; intros k b Hlen Hf Hgood; cbn [for_each_item].
  - apply triple_ret; [| done]. rewrite -(struct_intro item b G _ (fun _ => G)); [| | done].
    + iIntros "(H1 & _ & H3)". iFrame.
    + split; [done |]. intros i Hi. apply Hgood. lia.
  - assert (lenB (sub (Z.of_nat k * ds) ds b) = ds) as Hx by (apply length_sub; nia).
    eapply (triple_seq _ _ _ _ (fun _ => struct_at item
      (fun b' => lenB b' = lenB b /\ forall i, (i < S k)%nat -> good (sub (Z.of_nat i * ds) ds b'))
      (fun b' => items_from (S k) r ds F b' ∗ G)%I)).
    + eapply triple_pre; [| eapply (triple_zoom n item (Z.of_nat k * ds) ds b
        (F (sub (Z.of_nat k * ds) ds b) ∗ (items_from (S k) r ds F b ∗ G)))].
      * unfold items_from. simpl. iIntros "(H1 & [H2 H3] & H4)". iFrame.
      * nia.
      * lia.
      * nia.
      * apply Hf; [lia | done].
      * intros ?. cbv beta. apply hole_struct; [by intros x [Hx' _] |]. intros x [Hx' Hg].
        rewrite -(items_upd (S k) r k ds F x b); [| lia | done | lia].
        apply struct_intro; [| done]. rewrite length_upd. split; [done |]. intros i Hi.
        destruct (decide (i = k)) as [-> | Hne].
        -- pose proof (sub_upd_same (Z.of_nat k * ds) x b ltac:(nia) ltac:(nia)) as Hs.
           rewrite Hx' in Hs. by rewrite Hs.
        -- rewrite sub_upd_disj; [apply Hgood; lia | nia | nia | nia].
      * apply hole_false.
    + intros ?. cbv beta. apply triple_struct. intros b' [Hb' Hg].
      replace (item + Z.of_nat k * ds + ds) with (item + Z.of_nat (S k) * ds) by lia.
      eapply triple_post; [| apply IH].
      * intros ?. cbv beta. apply struct_mono; [| done]. intros b'' [Hb'' Hg'].
        split; [congruence |]. intros i Hi. apply Hg'. lia.
      * lia.
      * intros i x G' Hi. apply Hf. lia.
      * done.
Qed.
End Items.

Section Release.
Context {St : Type} `{ReadCallback St} `{Allocator} {Bud : Budget}.
Context (table : list msg_desc) (Htable : table_ok table).
Context (ext_types : Z -> option pb_extension_type_t).
Context (n : Z) (loose : bool) (N fuel : nat) (self : pb_field_iter_t -> prog (dstate St) unit).
Context (md : msg_desc) (Hmd : md ∈ table).

Abbreviation rec := (msg_owned table loose N).
Abbreviation M := (prog (dstate St)).

(** The submessages that a field holds. *)
Context (IH : forall md' a x G, md' ∈ table -> 0 < a -> lenB x = md_size md' ->
  triple (St:=St) n (a ↦ x ∗ rec md' x ∗ G) (each_field_of (md_fields md') a self) (fun _ => n)
    (fun _ => struct_at a (blank table loose N md') (fun _ => G)) False).

(** *** The program, by the names of the properties of the field *)

Definition release_entry (f : pb_field_t) (item : Z) : M unit :=
  match f_ptr f with
  | PtrFields id =>
      if item =? 0 then mret tt else each_field_of (descs_of table id) item self
  | _ => stuck
  end.

Definition release_subs (p : place) (a : Z) : M unit :=
  let f := p_field p in
  item ← (if is_pointer f then get_ptr (a + p_data p) else mret (a + p_data p));
  count ←
    (if is_repeated f then
       count ← (if negb (is_pointer f) && (p_size p =? p_data p)
                then mret (f_array_size f) else get_count (SizeAt (a + p_size p)));
       if negb (is_pointer f) && (f_array_size f <? count)
       then mret (f_array_size f) else mret count
     else mret 1);
  if item =? 0 then mret tt else
  for_each_item (Z.to_nat count) item (f_data_size f) (release_entry f).

Definition release_texts (p : place) (a : Z) : M unit :=
  item ← get_ptr (a + p_data p);
  count ← get_count (SizeAt (a + p_size p));
  for_each_item (Z.to_nat count) item (Z.of_nat sizeof_ptr) (fun item =>
    p ← get_ptr item; _ ← pb_free p; set_ptr item 0).

Definition release_pointer (p : place) (a : Z) : M unit :=
  let f := p_field p in
  _ ← (if is_repeated f && is_text f then release_texts p a else mret tt);
  _ ← (if is_repeated f then set_count (SizeAt (a + p_size p)) 0 else mret tt);
  q ← get_ptr (a + p_data p);
  _ ← pb_free q;
  set_ptr (a + p_data p) 0.

Lemma release_contents_eq a i p :
  layout (md_fields md) !! i = Some p -> place_ok table md p ->
  release_contents (descs_of table) ext_types fuel self (iter_at (md_fields md) a i p) =
  (_ ← (if is_sub (p_field p) then release_subs p a else mret tt);
   if is_pointer (p_field p) then release_pointer p a else mret tt).
Proof.
  intros Hp Hok. destruct (place_kind table md p Hok) as (Hext & Hst & _).
  unfold release_contents. rewrite (cur_iter_at _ a i p); [| done]. cbv zeta.
  rewrite size_is_data_at Hext.
  assert (PB_ATYPE (f_type (p_field p)) =? PB_ATYPE_CALLBACK = false
          /\ (PB_ATYPE (f_type (p_field p)) =? PB_ATYPE_STATIC) = negb (is_pointer (p_field p))) as [-> ->].
  { destruct (is_pointer (p_field p)) eqn:Ep.
    - unfold is_pointer in Ep. apply Z.eqb_eq in Ep. by rewrite Ep.
    - by rewrite (Hst eq_refl). }
  rewrite andb_true_r. reflexivity.
Qed.

(** *** Entries *)

Lemma triple_release_entry p it x G :
  place_ok table md p -> is_sub (p_field p) = true -> 0 < it ->
  lenB x = f_data_size (p_field p) ->
  triple (St:=St) n (it ↦ x ∗ sub_owned table rec (p_field p) x ∗ G) (release_entry (p_field p) it)
    (fun _ => n)
    (fun _ => struct_at it (fun x' => lenB x' = f_data_size (p_field p) /\
       (emp ⊢ sub_owned table rec (p_field p) x')) (fun _ => G)) False.
Proof.
  intros Hok Hs Hit Hx. destruct (sub_field table md p Hok Hs) as (id & md' & Ef & Ed & Edf & Hin & Hsz & _).
  unfold release_entry, sub_owned. rewrite Ef Ed Edf (proj2 (Z.eqb_neq it 0)); [| lia].
  eapply triple_post; [| apply IH; [done | done | lia]].
  intros ?. cbv beta. apply struct_mono; [| done]. intros x' [Hx' Hb]. split; [lia | done].
Qed.

Lemma triple_release_entries p item b k G :
  place_ok table md p -> is_sub (p_field p) = true -> 0 < item ->
  Z.of_nat k * f_data_size (p_field p) <= lenB b ->
  triple (St:=St) n
    (item ↦ b ∗ items k (f_data_size (p_field p)) (sub_owned table rec (p_field p)) b ∗ G)
    (for_each_item k item (f_data_size (p_field p)) (release_entry (p_field p))) (fun _ => n)
    (fun _ => struct_at item (fun b' => lenB b' = lenB b /\
       (emp ⊢ items k (f_data_size (p_field p)) (sub_owned table rec (p_field p)) b'))
       (fun _ => G)) False.
Proof.
  intros Hok Hs Hit Hk. pose proof Hok as (_&_&_&_&_&_&_&_&Hds&_).
  replace item with (item + Z.of_nat 0 * f_data_size (p_field p)) at 2 by lia.
  eapply triple_post; [| apply (triple_items n k 0 item _ b _ G
    (fun x => emp ⊢ sub_owned table rec (p_field p) x)); [lia | done | | lia]].
  - intros ?. cbv beta. apply struct_mono; [| done]. intros b' [Hb Hg]. split; [done |].
    apply sepL_of_emp. intros j y [-> Hj]%lookup_seq. by apply Hg.
  - intros j x G' Hj Hx. apply triple_release_entry; [done | done | nia | done].
Qed.

(** *** Static fields *)

(** A field that is released changes at most its own members; a union does not change the
    member it holds. *)
Definition changed (p : place) (l l' : list byte) : Prop :=
  l' = l \/
  (keeps p l l' /\
   (is_oneof (p_field p) = true ->
      count_of p l = f_tag (p_field p) /\ count_of p l' = f_tag (p_field p))).

Definition active (p : place) (l : list byte) : Prop :=
  is_oneof (p_field p) = true -> count_of p l = f_tag (p_field p).

Definition released (p : place) (l l' : list byte) : Prop :=
  lenB l' = md_size md /\ changed p l l' /\
  (emp ⊢ field_owned table rec loose p l') /\
  (is_pointer (p_field p) = true -> active p l -> ptr_of (p_data p) l' = 0).

Lemma count_kept p l k :
  place_ok table md p -> lenB l = md_size md -> lenB k = data_len (p_field p) ->
  is_oneof (p_field p) = true \/ (is_repeated (p_field p) = true /\ p_size p <> p_data p) ->
  count_of p (upd (p_data p) k l) = count_of p l.
Proof.
  intros Hok Hl Hk Hc. destruct (place_bounds table md p l Hok Hl) as (Hd & Hd' & Hs & Hs' & Hap & _).
  rewrite (size_len_count p Hc) in Hap. unfold count_of, size_of, apart in *.
  by rewrite sub_upd_disj; [| lia | lia | lia].
Qed.

Lemma sub_fixed p :
  place_ok table md p -> is_sub (p_field p) = true -> is_repeated (p_field p) = true ->
  p_size p <> p_data p.
Proof.
  intros Hok Hs Hr He. destruct (place_kind table md p Hok) as (_ & _ & _ & _ & Hfix).
  destruct (Hfix Hr He) as (_ & ? & _). congruence.
Qed.

(** How many entries there are. *)
Definition entries (p : place) (l : list byte) : nat :=
  if is_repeated (p_field p) then Z.to_nat (Z.min (count_of p l) (f_array_size (p_field p))) else 1%nat.

Lemma static_entries p l :
  place_ok table md p -> lenB l = md_size md -> is_pointer (p_field p) = false ->
  is_sub (p_field p) = true ->
  let b := sub (p_data p) (data_len (p_field p)) l in
  Z.of_nat (entries p l) * f_data_size (p_field p) <= lenB b /\ lenB b = data_len (p_field p) /\
  (static_owned table rec loose p l
    ⊣⊢ ⌜is_repeated (p_field p) = true -> loose = true \/ count_of p l <= f_array_size (p_field p)⌝ ∧
       items (entries p l) (f_data_size (p_field p)) (sub_owned table rec (p_field p)) b).
Proof.
  intros Hok Hl Hst Hsub b.
  destruct (place_bounds table md p l Hok Hl) as (Hd & Hd' & Hs & Hs' & Hap & Hds & Har & Ht).
  destruct (place_kind table md p Hok) as (_ & Hstat & _). unfold entries, static_owned, items.
  rewrite Hsub. destruct (is_repeated (p_field p)) eqn:Er.
  - pose proof (data_len_array _ (Hstat Hst) Er) as Hdl.
    pose proof (size_of_range (p_size p) l) as Hc. fold (count_of p l) in Hc.
    split_and!; [| apply length_sub; lia |].
    + unfold b. rewrite length_sub; [nia | lia | lia | lia].
    + iSplit; (iIntros "[%Hx $]"; iPureIntro); auto.
  - pose proof (data_len_static _ Hst Er) as Hdl. 
    assert (lenB b = f_data_size (p_field p)) as Hb by (unfold b; rewrite length_sub; lia).
    split_and!; [lia | lia |]. cbn [seq big_opL].
    assert (sub (Z.of_nat 0 * f_data_size (p_field p)) (f_data_size (p_field p)) b = b) as ->
      by (rewrite -Hb; apply sub_all).
    rewrite right_id. fold b. iSplit; [iIntros "H"; iSplit; [by iPureIntro | done] | iIntros "[_ $]"].
Qed.

Lemma triple_release_static p a l G :
  place_ok table md p -> lenB l = md_size md -> 0 < a -> is_pointer (p_field p) = false ->
  is_sub (p_field p) = true -> active p l ->
  triple (St:=St) n (a ↦ l ∗ static_owned table rec loose p l ∗ G) (release_subs p a) (fun _ => n)
    (fun _ => struct_at a (released p l) (fun _ => G)) False.
Proof.
  intros Hok Hl Ha Hst Hsub Hact. pose proof (proj1 (proj2 (place_kind table md p Hok)) Hst) as Hstat.
  destruct (static_entries p l Hok Hl Hst Hsub) as (Hk & Hb & Hown).
  destruct (place_bounds table md p l Hok Hl) as (Hd & Hd' & Hs & Hs' & Hap & Hds & Har & Ht).
  eapply (triple_pre _ _ (⌜_⌝ ∧ (a ↦ l ∗ items _ _ _ _ ∗ G))%I).
  { rewrite Hown. iIntros "(H1 & [%H2 H3] & H4)". iSplit; [iPureIntro; exact H2 | iFrame]. }
  apply triple_pure. intros Hle.
  assert (triple (St:=St) n
    (a ↦ l ∗ items (entries p l) (f_data_size (p_field p)) (sub_owned table rec (p_field p))
                (sub (p_data p) (data_len (p_field p)) l) ∗ G)
    (for_each_item (entries p l) (a + p_data p) (f_data_size (p_field p))
       (release_entry (p_field p))) (fun _ => n)
    (fun _ => struct_at a (released p l) (fun _ => G)) False) as Hloop.
  { eapply (triple_zoom _ _ (p_data p) (data_len (p_field p)));
      [lia | lia | lia | apply triple_release_entries; (done || lia) | | apply hole_false].
    intros ?. cbv beta. apply hole_struct; [intros x [Hx _]; lia |]. intros x [Hx Hit].
    apply struct_intro; [| done].
    assert (keeps p l (upd (p_data p) x l)) as Hkeep by (apply keeps_data; lia).
    assert (is_oneof (p_field p) = true \/ is_repeated (p_field p) = true ->
            count_of p (upd (p_data p) x l) = count_of p l) as Hc.
    { intros [Ho | Hr]; apply (count_kept p l x Hok Hl); try lia; [by left | right].
      split; [done | by apply sub_fixed]. }
    assert (entries p (upd (p_data p) x l) = entries p l) as He.
    { unfold entries. destruct (is_repeated _) eqn:Er; [| done]. by rewrite Hc; [| right]. }
    split_and!.
    - by rewrite length_upd.
    - right. split; [done |]. intros Ho. rewrite Hc; [| by left]. by rewrite (Hact Ho).
    - rewrite field_owned_active; [| intros Ho; rewrite Hc; [by apply Hact | by left]].
      rewrite Hst. destruct (static_entries p (upd (p_data p) x l) Hok) as (_ & _ & ->);
        [by rewrite length_upd | done | done |].
      rewrite He -Hb -Hx sub_upd_same; [| done | lia]. apply bi.and_intro; [| done].
      iIntros "_". iPureIntro. intros Hr. rewrite Hc; [by apply Hle | by right].
    - congruence. }
  unfold release_subs. rewrite Hst. cbn [negb andb]. cbv zeta. apply triple_bind_ret.
  rewrite (proj2 (Z.eqb_neq (a + p_data p) 0)); [| lia].
  revert Hloop. unfold entries. destruct (is_repeated (p_field p)) eqn:Er;
    [intros Hloop | exact id].
  pose proof (sub_fixed p Hok Hsub Er) as Hne. rewrite (proj2 (Z.eqb_neq _ _) Hne).
  apply triple_assoc. rewrite (size_len_count p (or_intror (conj Er Hne))) in Hs'.
  apply step_get_count; [lia | lia |].
  fold (count_of p l). apply triple_if_bind; intros Hlt; apply triple_bind_ret.
  - apply Z.ltb_lt in Hlt. rewrite Z.min_r in Hloop |- *; [exact Hloop | lia].
  - apply Z.ltb_ge in Hlt. rewrite Z.min_l in Hloop |- *; [exact Hloop | lia].
Qed.

(** *** Pointer fields *)

(** Once the submessages are released: ... *)
Definition without_subs (p : place) (l : list byte) : hprop :=
  (if ptr_of (p_data p) l =? 0 then
     ⌜is_repeated (p_field p) = true -> count_of p l = 0⌝ ∧ emp
   else ∃ b, block (ptr_of (p_data p) l) b ∗
          (if is_repeated (p_field p) && is_text (p_field p) then
             ⌜count_of p l * f_data_size (p_field p) <= lenB b⌝ ∧
             items (Z.to_nat (count_of p l)) (f_data_size (p_field p))
               (fun x => opt_block (ptr_of 0 x)) b
           else emp))%I.

(** ... and the strings of an array too. *)
Definition only_block (p : place) (l : list byte) : hprop :=
  (∃ b, own_ptr (ptr_of (p_data p) l) b)%I.

Lemma sub_not_text f : is_sub f = true -> is_text f = false.
Proof. unfold is_sub, is_text, is_ltype. intros ->%Z.eqb_eq. done. Qed.

Lemma pointer_size_len p :
  place_ok table md p -> is_pointer (p_field p) = true -> is_repeated (p_field p) = true ->
  size_len p = 4.
Proof.
  intros Hok Hp Hr. apply size_len_count. right. split; [done |]. intros He.
  destruct (place_kind table md p Hok) as (_ & _ & _ & _ & Hfix).
  destruct (Hfix Hr He). congruence.
Qed.

(** The entries of the block of a pointer to submessages. *)
Definition pointer_entries (p : place) (l : list byte) : nat :=
  if is_repeated (p_field p) then Z.to_nat (count_of p l) else 1%nat.

Lemma pointer_subs p l :
  is_sub (p_field p) = true -> ptr_of (p_data p) l <> 0 -> 0 <= f_data_size (p_field p) ->
  pointer_owned table rec loose p l ⊢
  ∃ b, ⌜Z.of_nat (pointer_entries p l) * f_data_size (p_field p) <= lenB b⌝ ∧
       (block (ptr_of (p_data p) l) b ∗
        items (pointer_entries p l) (f_data_size (p_field p)) (sub_owned table rec (p_field p)) b).
Proof.
  intros Hs Hp Hds. unfold pointer_owned, pointer_entries. rewrite (proj2 (Z.eqb_neq _ _) Hp) Hs.
  iIntros "(%b & H1 & H2)". iExists b. iFrame "H1".
  destruct (is_repeated (p_field p)).
  - pose proof (size_of_range (p_size p) l) as Hc. fold (count_of p l) in Hc.
    unfold elem_owned. rewrite Hs tally_emp left_id. iDestruct "H2" as "[%Hb $]". iPureIntro. lia.
  - iDestruct "H2" as "[%Hb H2]". iSplit; [iPureIntro; lia |]. unfold items. cbn [seq big_opL].
    assert (sub (Z.of_nat 0 * f_data_size (p_field p)) (f_data_size (p_field p)) b = b) as ->
      by (rewrite -Hb; apply sub_all).
    by rewrite right_id.
Qed.

Lemma triple_release_pointer_subs p a l G :
  place_ok table md p -> lenB l = md_size md -> is_pointer (p_field p) = true ->
  triple (St:=St) n (a ↦ l ∗ pointer_owned table rec loose p l ∗ G)
    (if is_sub (p_field p) then release_subs p a else mret tt) (fun _ => n)
    (fun _ => a ↦ l ∗ without_subs p l ∗ G)%I False.
Proof.
  intros Hok Hl Hp.
  destruct (place_bounds table md p l Hok Hl) as (Hd & Hd' & Hs & Hs' & Hap & Hds & Har & Ht).
  pose proof (size_of_range (p_size p) l) as Hc. fold (count_of p l) in Hc.
  rewrite (data_len_pointer _ Hp) in Hd'.
  destruct (is_sub (p_field p)) eqn:Es.
  - assert (triple (St:=St) n (a ↦ l ∗ pointer_owned table rec loose p l ∗ G)
      (if ptr_of (p_data p) l =? 0 then mret tt
       else for_each_item (pointer_entries p l) (ptr_of (p_data p) l) (f_data_size (p_field p))
              (release_entry (p_field p))) (fun _ => n)
      (fun _ => a ↦ l ∗ without_subs p l ∗ G)%I False) as Hloop.
    { unfold without_subs. rewrite (sub_not_text _ Es) andb_false_r.
      destruct (Z.eqb_spec (ptr_of (p_data p) l) 0) as [E0 | Hne].
      - apply triple_ret; [| done]. unfold pointer_owned. rewrite E0. simpl.
        iIntros "(H1 & H2 & H3)". iFrame "H1 H3".
        destruct (is_repeated _); [iDestruct "H2" as "[% _]" |]; (iSplit; [by iPureIntro | done]).
      - pose proof (le_value_range (sub (p_data p) 8 l)) as Hpos. fold (ptr_of (p_data p) l) in Hpos.
        eapply (triple_pre _ _ (∃ b, ⌜_⌝ ∧ (_ ↦ b ∗ items _ _ _ b ∗
            (blk (ptr_of (p_data p) l) (lenB b) ∗ a ↦ l ∗ G)))%I).
        { rewrite (pointer_subs p l Es Hne); [| lia].
          iIntros "(H1 & (%b & %Hb & [H2 H3] & H4) & H5)". iExists b. iSplit; [iPureIntro; exact Hb |].
          iFrame. }
        apply triple_exist. intros b. apply triple_pure. intros Hb.
        eapply triple_post; [| apply triple_release_entries; (done || lia)].
        intros ?. cbv beta. iIntros "(%b' & [%Hb' _] & H1 & H2 & H3 & H4)". iFrame "H3 H4".
        iExists b'. unfold block. rewrite Hb'. iFrame. }
    unfold release_subs. rewrite Hp. cbn [negb andb]. cbv zeta.
    apply step_get_ptr; [lia | lia |]. revert Hloop. unfold pointer_entries.
    destruct (is_repeated (p_field p)) eqn:Er; intros Hloop; [| exact Hloop].
    rewrite (pointer_size_len p Hok Hp Er) in Hs'.
    apply triple_assoc. apply step_get_count; [lia | lia | exact Hloop].
  - apply triple_ret; [| done]. unfold pointer_owned, without_subs.
    iIntros "(H1 & H2 & H3)". iFrame "H1 H3". destruct (_ =? 0).
    + destruct (is_repeated _); [iDestruct "H2" as "[% _]" |]; (iSplit; [by iPureIntro | done]).
    + iDestruct "H2" as "(%b & H1 & H2)". iExists b. iFrame.
      unfold elem_owned. rewrite Es. destruct (is_repeated _); [| done]. rewrite tally_emp left_id. simpl.
      destruct (is_text _); [done |]. iDestruct "H2" as "[_ H2]".
      unfold items. by rewrite big_sepL_emp.
Qed.

Lemma triple_release_texts p a l G :
  place_ok table md p -> lenB l = md_size md -> is_pointer (p_field p) = true ->
  triple (St:=St) n (a ↦ l ∗ without_subs p l ∗ G)
    (if is_repeated (p_field p) && is_text (p_field p) then release_texts p a else mret tt)
    (fun _ => n) (fun _ => a ↦ l ∗ only_block p l ∗ G)%I False.
Proof.
  intros Hok Hl Hp. unfold without_subs, only_block, own_ptr.
  destruct (place_bounds table md p l Hok Hl) as (Hd & Hd' & Hs & Hs' & Hap & Hds & Har & Ht).
  pose proof (size_of_range (p_size p) l) as Hc. fold (count_of p l) in Hc.
  rewrite (data_len_pointer _ Hp) in Hd'. set (ptr := ptr_of (p_data p) l).
  destruct (is_repeated (p_field p) && is_text (p_field p)) eqn:Ert.
  - apply andb_true_iff in Ert as [Er Etx]. rewrite (pointer_size_len p Hok Hp Er) in Hs'.
    pose proof Hok as (_&_&_&_&_&_&_&_&_&_&_&_&_&_&_&_&H8). specialize (H8 Er Hp Etx).
    unfold release_texts. apply step_get_ptr; [lia | lia |]. apply step_get_count; [lia | lia |].
    fold (count_of p l) ptr. destruct (Z.eqb_spec ptr 0) as [E0 | Hne].
    + apply (triple_pre _ _ (⌜count_of p l = 0⌝ ∧ (a ↦ l ∗ G))%I).
      { iIntros "(H1 & [%H2 _] & H3)". iSplit; [iPureIntro; by apply H2 | iFrame]. }
      apply triple_pure. intros ->. apply triple_ret; [| done].
      iIntros "[H1 H2]". iFrame. by iExists [].
    + eapply (triple_pre _ _ (∃ b, ⌜_⌝ ∧ (_ ↦ b ∗ items_from 0 _ _ _ b ∗
            (blk ptr (lenB b) ∗ a ↦ l ∗ G)))%I).
      { iIntros "(H1 & (%b & [H2 H3] & [%Hb H4]) & H5)". iExists b. iSplit; [iPureIntro; exact Hb |].
        iFrame. }
      apply triple_exist. intros b. apply triple_pure. intros Hb. rewrite H8 in Hb |- *.
      change (Z.of_nat sizeof_ptr) with 8. replace ptr with (ptr + Z.of_nat 0 * 8) at 3 by lia.
      eapply triple_post; [| apply (triple_items n _ 0 ptr 8 b _ _ (fun _ => True)); [lia | lia | | done]].
      * intros ?. cbv beta. iIntros "(%b' & [%Hb' _] & H1 & H2 & H3 & H4)". iFrame "H3 H4".
        iExists b'. unfold block. rewrite Hb'. iFrame.
      * intros i x G' Hi Hx. set (it := ptr + Z.of_nat i * 8). replace it with (it + 0) by lia.
        rewrite {1}Z.add_0_r. apply step_get_ptr; [lia | lia |].
        eapply (triple_seq _ _ _ _ (fun _ => it ↦ x ∗ G')%I).
        { eapply triple_pre; [| apply triple_free_some]. unfold opt_block, own_ptr.
          iIntros "(H1 & H2 & H3)". iFrame. destruct (_ =? 0); [by iExists [] | done]. }
        intros ?. cbv beta. apply last_set_ptr; [lia | lia |]. rewrite Z.add_0_r.
        apply struct_intro; [| done]. split; [by rewrite length_upd | done].
  - apply triple_ret; [| done]. iIntros "(H1 & H2 & H3)". iFrame "H1 H3".
    destruct (ptr =? 0).
    + iExists []. iDestruct "H2" as "[_ H2]". by iFrame.
    + iDestruct "H2" as "(%b & H1 & _)". iExists b. iFrame.
Qed.

Lemma triple_release_pointer p a l G :
  place_ok table md p -> lenB l = md_size md -> is_pointer (p_field p) = true -> active p l ->
  triple (St:=St) n (a ↦ l ∗ without_subs p l ∗ G) (release_pointer p a)
    (fun _ => n) (fun _ => struct_at a (released p l) (fun _ => G))%I False.
Proof.
  intros Hok Hl Hp Hact.
  destruct (place_bounds table md p l Hok Hl) as (Hd & Hd' & Hs & Hs' & Hap & Hds & Har & Ht).
  rewrite (data_len_pointer _ Hp) in Hd', Hap.
  eapply triple_seq; [by apply triple_release_texts |]. intros ?. cbv beta.
  set (l1 := if is_repeated (p_field p) then upd (p_size p) (size_bytes 0) l else l).
  assert (lenB l1 = lenB l /\ keeps p l l1 /\ ptr_of (p_data p) l1 = ptr_of (p_data p) l /\
          (is_repeated (p_field p) = true -> p_size p + 4 <= lenB l /\ count_of p l1 = 0)) as (Hl1 & Hk1 & Hp1 & Hc1).
  { unfold l1. destruct (is_repeated (p_field p)) eqn:Er; [| done].
    rewrite (pointer_size_len p Hok Hp Er) in Hs', Hap. unfold apart in Hap. split_and!.
    - by rewrite length_upd.
    - apply keeps_size; [lia | rewrite length_size_bytes (pointer_size_len p Hok Hp Er); lia].
    - unfold ptr_of. rewrite sub_upd_disj; [done | lia | lia | rewrite length_size_bytes; lia].
    - intros _. split; [lia |]. apply size_of_upd; lia. }
  eapply (triple_seq _ _ _ _ (fun _ => a ↦ l1 ∗ only_block p l ∗ G)%I).
  { unfold l1. destruct (is_repeated (p_field p)); [| by apply triple_ret].
    apply last_set_count; [lia | by destruct Hc1 | done]. }
  intros ?. cbv beta. apply step_get_ptr; [lia | lia |]. rewrite Hp1.
  eapply (triple_seq _ _ _ _ (fun _ => a ↦ l1 ∗ G)%I).
  { eapply triple_pre; [| apply triple_free_some]. iIntros "(H1 & H2 & H3)". iFrame. }
  intros ?. cbv beta. apply last_set_ptr; [lia | lia |]. apply struct_intro; [| done].
  set (l2 := upd (p_data p) (ptr_bytes 0) l1).
  assert (lenB l2 = lenB l) as Hl2 by (unfold l2; rewrite length_upd; lia).
  assert (ptr_of (p_data p) l2 = 0) as Hp2 by (apply ptr_of_upd; lia).
  assert (keeps p l l2) as Hk2.
  { eapply keeps_trans; [exact Hk1 |]. apply keeps_data; [lia |].
    rewrite (data_len_pointer _ Hp) length_ptr_bytes. lia. }
  assert (is_oneof (p_field p) = true -> count_of p l2 = count_of p l) as Hc2.
  { intros Ho. unfold l2. rewrite (count_kept p l1); [| done | congruence | | by left].
    - unfold l1. by rewrite (oneof_not_repeated _ Ho).
    - by rewrite (data_len_pointer _ Hp) length_ptr_bytes. }
  split_and!; [lia | right; split; [done |] | | done].
  - intros Ho. by rewrite Hc2; [split; apply Hact |].
  - rewrite field_owned_active; [| intros Ho; by rewrite Hc2; [apply Hact |]].
    rewrite Hp. unfold pointer_owned. rewrite Hp2. simpl. destruct (is_repeated (p_field p)) eqn:Er; [| done].
    iIntros "_". iSplit; [| done]. iPureIntro. destruct (Hc1 eq_refl) as [_ <-].
    apply (count_kept p l1 (ptr_bytes 0) Hok); [congruence | by rewrite (data_len_pointer _ Hp) length_ptr_bytes |].
    right. split; [done |]. intros He. destruct (place_kind table md p Hok) as (_ & _ & _ & _ & Hfix).
    destruct (Hfix Er He). congruence.
Qed.

(** *** Fields *)

Lemma triple_release_contents i p a l G :
  layout (md_fields md) !! i = Some p -> lenB l = md_size md -> 0 < a -> active p l ->
  triple (St:=St) n (a ↦ l ∗ field_owned table rec loose p l ∗ G)
    (release_contents (descs_of table) ext_types fuel self (iter_at (md_fields md) a i p))
    (fun _ => n) (fun _ => struct_at a (released p l) (fun _ => G)) False.
Proof.
  intros Hp Hl Ha Hact. pose proof (place_in table Htable md i p Hmd Hp) as Hok.
  rewrite (release_contents_eq a i p Hp Hok) field_owned_active; [| done].
  destruct (is_pointer (p_field p)) eqn:Ep.
  - eapply triple_seq; [by apply triple_release_pointer_subs |]. intros ?. cbv beta.
    by apply triple_release_pointer.
  - destruct (is_sub (p_field p)) eqn:Es.
    + eapply triple_seq; [by apply triple_release_static |]. intros ?. cbv beta.
      by apply triple_ret.
    + apply triple_bind_ret, triple_ret; [| done].
      pose proof (static_emp table rec loose p l Ep Es) as Hemp.
      rewrite field_owned_active in Hemp; [| done]. rewrite Ep in Hemp. rewrite Hemp left_id.
      apply struct_intro; [| done]. split_and!; [done | by left | by rewrite static_emp | congruence].
Qed.

Lemma triple_release_field i p a l G :
  layout (md_fields md) !! i = Some p -> lenB l = md_size md -> 0 < a ->
  self = pb_release_single_field (descs_of table) ext_types fuel ->
  triple (St:=St) n (a ↦ l ∗ field_owned table rec loose p l ∗ G)
    (pb_release_single_field (descs_of table) ext_types (S fuel) (iter_at (md_fields md) a i p))
    (fun _ => n) (fun _ => struct_at a (released p l) (fun _ => G)) False.
Proof.
  intros Hp Hl Ha Hself. pose proof (place_in table Htable md i p Hmd Hp) as Hok.
  cbn [pb_release_single_field]. rewrite (cur_iter_at _ a i p); [| done]. rewrite -Hself. cbv zeta.
  change (PB_HTYPE (f_type (p_field p)) =? PB_HTYPE_ONEOF) with (is_oneof (p_field p)).
  destruct (place_bounds table md p l Hok Hl) as (Hd & Hd' & Hs & Hs' & Hap & Hds & Har & Ht).
  apply triple_if; intros Ho; [| apply triple_release_contents; try done; by rewrite /active Ho].
  rewrite (size_len_count p (or_introl Ho)) in Hs'.
  apply step_get_count; [lia | lia |]. fold (count_of p l).
  destruct (Z.eqb_spec (count_of p l) (f_tag (p_field p))) as [Hc | Hc]; simpl.
  { apply triple_release_contents; [done.. |]. by intros _. }
  apply (triple_fact _ (emp ⊢ field_owned table rec loose p l)).
  { iIntros "(_ & H2 & _)". unfold field_owned, inactive. rewrite Ho.
    rewrite (proj2 (Z.eqb_neq _ _) Hc). simpl. destruct (_ && _); [| by iPureIntro].
    iDestruct "H2" as "[%Hz _]". iPureIntro. iIntros "_". by iSplit. }
  intros Hemp. apply triple_ret; [| done].
  rewrite -(struct_intro a l G (released p l) (fun _ => G)); [| | done].
  - iIntros "(H1 & H2 & H3)". iFrame. unfold field_owned, inactive. rewrite Ho.
    rewrite (proj2 (Z.eqb_neq _ _) Hc). simpl. destruct (_ && _); [| done].
    by iDestruct "H2" as "[_ $]".
  - split_and!; [done | by left | done |]. intros _ Hact. by destruct (Hc (Hact Ho)).
Qed.

(** *** Messages *)

(** The fields before [i] are released. *)
Definition rest (i : nat) (l : list byte) : hprop :=
  ([∗ list] j ↦ q ∈ layout (md_fields md),
     if decide (j < i)%nat then emp else field_owned table rec loose q l)%I.

Definition released_to (i : nat) (l : list byte) : Prop :=
  lenB l = md_size md /\
  forall j q, (j < i)%nat -> layout (md_fields md) !! j = Some q ->
    emp ⊢ field_owned table rec loose q l.

Lemma rest_split i p l :
  layout (md_fields md) !! i = Some p ->
  rest i l ⊣⊢ field_owned table rec loose p l ∗ rest (S i) l.
Proof.
  intros Hp. unfold rest. rewrite (big_sepL_delete _ _ _ _ Hp) decide_False; [| lia].
  apply bi.sep_proper; [done |]. rewrite (big_sepL_delete (fun j q => if decide (j < S i)%nat then emp%I else _) _ _ _ Hp).
  rewrite decide_True; [| lia]. rewrite left_id. apply big_sepL_proper. intros j q Hq.
  repeat case_decide; (done || lia).
Qed.

Lemma changed_other i j p q l l' :
  layout (md_fields md) !! i = Some p -> layout (md_fields md) !! j = Some q -> i <> j ->
  changed p l l' -> field_owned table rec loose q l' = field_owned table rec loose q l.
Proof. intros Hp Hq Hij [-> | [Hk Hun]]; [done |]. by apply (other_kept table Htable md i j p q). Qed.

Lemma released_to_S i p l l' :
  layout (md_fields md) !! i = Some p -> released_to i l -> released p l l' ->
  released_to (S i) l' /\ (rest (S i) l ⊢ rest (S i) l').
Proof.
  intros Hp [Hl Hto] (Hl' & Hch & Hemp & _). split; [split; [done |] |].
  - intros j q Hj Hq. destruct (decide (j = i)) as [-> | Hne].
    + rewrite Hp in Hq. by injection Hq as <-.
    + rewrite (changed_other i j p q l l'); [| done..]. apply (Hto j); [lia | done].
  - apply big_sepL_mono. intros j q Hq. case_decide; [done |].
    rewrite (changed_other i j p q l l'); [done | done | done | lia | done].
Qed.
End Release.

Section Messages.
Context {St : Type} `{ReadCallback St} `{Allocator} {Bud : Budget}.
Context (table : list msg_desc) (Htable : table_ok table).
Context (ext_types : Z -> option pb_extension_type_t).

(** [pb_release] on a message that is not [NULL]: enough fuel for the depth of nesting. *)
Lemma triple_release_fields n loose fuel N md a l G :
  md ∈ table -> (N <= fuel)%nat -> 0 < a -> lenB l = md_size md ->
  triple (St:=St) n (a ↦ l ∗ msg_owned table loose N md l ∗ G)
    (each_field_of (md_fields md) a (pb_release_single_field (descs_of table) ext_types fuel))
    (fun _ => n) (fun _ => struct_at a (blank table loose N md) (fun _ => G)) False.
Proof.
  revert N md a l G. induction fuel as [| fuel IH]; intros N md a l G Hmd Hf Ha Hl;
    (destruct N as [| N]; [apply (triple_pre _ _ False); [iIntros "(_ & [] & _)" |];
       intros base c R s T _ _ _ (? & ? & _ & [] & _) |]); [lia |].
  destruct (desc_in table Htable md Hmd) as (_ & Hok & _).
  eapply triple_weaken; [eapply (triple_each_place n (md_fields md) a _
      (fun i => struct_at a (released_to table loose N md i) (fun l => rest table loose N md i l ∗ G))%I
      False%I); [done | lia |] | | | done | done].
  - intros i p Hp. apply triple_struct. intros x [Hx Hto].
    eapply triple_weaken; [eapply (triple_release_field table Htable ext_types n loose N fuel); [exact Hmd | | done..]
      | | | done | done].
    + intros md' b y G' Hmd' Hb Hy. apply IH; (done || lia).
    + rewrite (rest_split _ _ _ _ i p); [| done]. rewrite -assoc. done.
    + intros ?. cbv beta. iIntros "(%x' & %Hx' & H1 & H2 & H3)".
      destruct (released_to_S table Htable loose N md Hmd i p x x' Hp) as [H1 H2]; [done | done |].
      rewrite H2. iExists x'. iSplit; [done |]. iFrame.
  - iIntros "(H1 & H2 & H3)". iExists l. iSplit; [iPureIntro; split; [done | lia] |].
    iFrame.
  - intros ?. cbv beta. iIntros "(%x & [%Hx %Hto] & H1 & H2 & H3)". iExists x.
    iSplit; [iPureIntro; split; [done |] |].
    + cbn [msg_owned]. apply sepL_of_emp. intros k q Hq. eapply Hto; [| done].
      rewrite -length_layout. by eapply lookup_lt_Some.
    + iFrame. unfold rest. rewrite (big_sepL_proper _ (fun _ _ => emp%I)).
      * by rewrite big_sepL_emp.
      * intros k q Hq. rewrite decide_True; [done |]. rewrite -length_layout. by eapply lookup_lt_Some.
Qed.

Lemma triple_release_single n loose fuel N md i p a l G :
  md ∈ table -> (N < fuel)%nat -> 0 < a -> lenB l = md_size md ->
  layout (md_fields md) !! i = Some p ->
  triple (St:=St) n (a ↦ l ∗ field_owned table (msg_owned table loose N) loose p l ∗ G)
    (pb_release_single_field (descs_of table) ext_types fuel (iter_at (md_fields md) a i p))
    (fun _ => n) (fun _ => struct_at a (released table loose N md p l) (fun _ => G)) False.
Proof.
  intros Hmd Hf Ha Hl Hp. destruct fuel as [| fuel]; [lia |].
  eapply (triple_release_field table Htable ext_types n loose N fuel); [done | | done..].
  intros md' b y G' Hmd' Hb Hy. apply triple_release_fields; (done || lia).
Qed.
End Messages.
