(* ===== verification/PbScalars.v ===== *)
(** * Decoding a value that is not a message

    The field decoders, on the memory they write: a value in place, or in a block that they
    allocate.  Each uses a byte of the input or more, also to fill an array. *)

From stdpp Require Import gmap.
From iris.proofmode Require Import proofmode.
From S2P Require Import Prelude PbStream PbWire PbSafe PbMem PbIter PbDecode PbLayout.
From S2P Require Import Sep Slice PbTriple PbOwned PbFields.

Section Values.
Context {St : Type} `{ReadCallback St} `{Allocator} {Bud : Budget}.
Implicit Types (G P E : hprop).

(** A read from the stream that uses a byte or more. *)
Lemma triple_read {A B} n P (m : prog (pb_istream_t St) A) phi (f : A -> prog (dstate St) B)
    (Q : B -> hprop) E :
  (forall base c n0 (Hc : 0 <= c), uses base c n0 m phi) ->
  (forall a, phi a -> triple (n - 1) P (f a) (fun _ => n - 1) Q E) -> (P ⊢ E) ->
  triple n P (lift m ≫= f) (fun _ => n - 1) Q E.
Proof.
  intros Hm Hf HE. eapply (triple_bind _ (fun _ => n - 1) _ _ _ (fun a => ⌜phi a⌝ ∧ P)%I).
  - eapply triple_lift; [| | done].
    { intros base c n0 Hc _. eapply runs_weaken; [apply (Hm base c n0 Hc) | done |].
      intros a s [Hs Ha]. split; [| exact Ha]. eapply within_weaken; [exact Hs | lia]. }
    intros a Ha. by apply bi.and_intro; [iIntros "_" |].
  - intros _. lia.
  - intros a. apply triple_pure. apply Hf.
Qed.

(** The bytes of a value, as they come to be. *)
Definition value_at (dest : Z) (x : list byte) G : hprop :=
  struct_at dest (fun x' => length x' = length x) (fun _ => G).

Lemma value_intro dest x G : dest ↦ x ∗ G ⊢ value_at dest x G.
Proof. by apply struct_intro. Qed.

Lemma triple_write n dest k x G (Q : unit -> hprop) E :
  lenB k <= lenB x -> (value_at dest x G ⊢ Q tt) ->
  triple (St:=St) n (dest ↦ x ∗ G) (set_bytes dest k) (fun _ => n) Q E.
Proof.
  intros Hk HQ. rewrite -{2}(Z.add_0_r dest). apply last_set; [done | done |].
  rewrite -HQ. apply struct_intro; [by rewrite length_upd | done].
Qed.

(** A write that is not the last one. *)
Lemma triple_write_step {A} n dest o k x G (m : prog (dstate St) A) n' Q E :
  0 <= o -> o + lenB k <= lenB x ->
  (forall x', length x' = length x -> triple n (dest ↦ x' ∗ G) m n' Q E) ->
  triple n (dest ↦ x ∗ G) (set_bytes (dest + o) k ≫= fun _ => m) n' Q E.
Proof. intros Ho Hk Hm. apply step_set; [done | done |]. apply Hm. by rewrite length_upd. Qed.

Lemma triple_store_clamped n ds clamped value dest x G :
  lenB x = ds ->
  triple (St:=St) n (dest ↦ x ∗ G) (store_clamped_at ds clamped value dest) (fun _ => n)
    (fun _ => value_at dest x G) (value_at dest x G).
Proof.
  intros Hx. unfold store_clamped_at. destruct clamped as [c |].
  - eapply (triple_seq _ _ _ _ (fun _ => value_at dest x G)).
    { apply triple_write; [rewrite length_le_bytes; lia | done]. }
    intros ?. cbv beta. apply triple_if; intros _; [by apply triple_error | by apply triple_ret].
  - apply triple_error. apply value_intro.
Qed.

(** A decoder of [f] at [dest] may write to the bytes that are there. *)
Definition writes n dest x (m : prog (dstate St) unit) : Prop :=
  forall G, triple n (dest ↦ x ∗ G) m (fun _ => n - 1) (fun _ => value_at dest x G)
              (value_at dest x G).

Lemma dec_bool_writes n dest x : 1 <= lenB x -> writes n dest x (dec_bool_at dest).
Proof.
  intros Hx G. eapply triple_read; [intros; by apply dec_bool_uses | | apply value_intro].
  intros b _. by apply triple_write.
Qed.

Lemma dec_varint_writes f n dest x : lenB x = f_data_size f -> writes n dest x (dec_varint_at f dest).
Proof.
  intros Hx G. eapply triple_read; [intros; by apply varint_uses | | apply value_intro].
  intros v _. by apply triple_store_clamped.
Qed.

Lemma dec_uvarint_writes f n dest x : lenB x = f_data_size f -> writes n dest x (dec_uvarint_at f dest).
Proof.
  intros Hx G. eapply triple_read; [intros; by apply varint_uses | | apply value_intro].
  intros v _. by apply triple_store_clamped.
Qed.

Lemma dec_svarint_writes f n dest x : lenB x = f_data_size f -> writes n dest x (dec_svarint_at f dest).
Proof.
  intros Hx G. eapply triple_read; [intros; by apply svarint_uses | | apply value_intro].
  intros v _. by apply triple_store_clamped.
Qed.

Lemma dec_fixed32_writes n dest x : lenB x = 4 -> writes n dest x (dec_fixed32_at dest).
Proof.
  intros Hx G. eapply triple_read; [intros; by apply fixed32_uses | | apply value_intro].
  intros v _. apply triple_write; [rewrite length_le_bytes; lia | done].
Qed.

Lemma dec_fixed64_writes n dest x : lenB x = 8 -> writes n dest x (dec_fixed64_at dest).
Proof.
  intros Hx G. eapply triple_read; [intros; by apply fixed64_uses | | apply value_intro].
  intros v _. apply triple_write; [rewrite length_le_bytes; lia | done].
Qed.

Lemma dec_fixed_length_writes f n dest x :
  lenB x = f_data_size f -> writes n dest x (dec_fixed_length_bytes_at f dest).
Proof.
  intros Hx G. eapply triple_read;
    [intros; apply fixed_length_bytes_uses; [done | lia] | | apply value_intro].
  intros v Hv. cbv beta in Hv. apply triple_write; [lia | done].
Qed.

(** *** Strings and byte strings *)

(** The rest of the input for [size] bytes. *)
Lemma triple_pb_read n size P (Q : list byte -> hprop) E :
  0 <= size -> (forall l, lenB l = size -> P ⊢ Q l) -> (P ⊢ E) ->
  triple n P (lift (pb_read false size)) (fun _ => n) Q E.
Proof.
  intros Hs HQ HE. eapply (triple_lift _ _ _ _ (fun l => lenB l = size)); [| done | done].
  intros base c n0 Hc _. pose proof (within_inv (St:=St) base c n0 Hc).
  eapply runs_weaken; [by apply (pb_read_runs (within base c n0)) | |].
  - done.
  - intros l s [? ?]. split; [eapply within_weaken; [done | lia] | lia].
Qed.

Definition store_bytes (size bdest : Z) : prog (dstate St) unit :=
  _ ← set_bytes bdest (size_bytes size);
  bytes ← lift (pb_read false size);
  set_bytes (bdest + bytes_offset) bytes.

Lemma triple_store_bytes n size bdest x G :
  0 <= size -> size + 4 <= lenB x ->
  triple n (bdest ↦ x ∗ G) (store_bytes size bdest) (fun _ => n)
    (fun _ => value_at bdest x G) (value_at bdest x G).
Proof.
  intros Hs Hx. unfold store_bytes.
  eapply (triple_seq _ _ _ _ (fun _ => value_at bdest x G)).
  { apply triple_write; [rewrite length_size_bytes; lia | done]. }
  intros ?. cbv beta. apply triple_struct. intros x1 Hx1.
  eapply (triple_seq _ _ _ _ (fun l => ⌜lenB l = size⌝ ∧ (bdest ↦ x1 ∗ G))%I).
  - apply triple_pb_read; [done | |].
    + intros l Hl. by apply bi.and_intro; [iIntros "_" |].
    + by apply struct_intro.
  - intros l. apply triple_pure. intros Hl. apply last_set; [done | unfold bytes_offset; lia |].
    apply struct_intro; [by rewrite length_upd | done].
Qed.

Definition store_string (size dest : Z) : prog (dstate St) unit :=
  bytes ← try_ (lift (pb_read false size));
  match bytes with
  | Some bytes => _ ← set_bytes dest bytes; set_bytes (dest + size) [x00]
  | None => _ ← set_bytes (dest + size) [x00]; fail
  end.

Lemma triple_store_string n size dest x G :
  0 <= size -> size + 1 <= lenB x ->
  triple n (dest ↦ x ∗ G) (store_string size dest) (fun _ => n)
    (fun _ => value_at dest x G) (value_at dest x G).
Proof.
  intros Hs Hx. unfold store_string.
  eapply (triple_seq _ _ _ _ (fun r => ⌜forall l, r = Some l -> lenB l = size⌝ ∧ (dest ↦ x ∗ G))%I).
  - apply (triple_try_same _ _ _ (fun l => ⌜lenB l = size⌝ ∧ (dest ↦ x ∗ G))%I _ (dest ↦ x ∗ G)%I).
    + apply triple_pb_read; [done | | done].
      intros l Hl. by apply bi.and_intro; [iIntros "_" |].
    + intros l. iIntros "[%Hl H]". iSplit; [| done]. iPureIntro. by intros ? [= <-].
    + iIntros "H". by iSplit.
  - intros r. apply triple_pure. intros Hr. destruct r as [l |].
    + specialize (Hr l eq_refl). eapply (triple_seq _ _ _ _ (fun _ => value_at dest x G)).
      { apply triple_write; [lia | done]. }
      intros ?. cbv beta. apply triple_struct. intros x1 Hx1. apply last_set; [done | simpl; lia |].
      apply struct_intro; [by rewrite length_upd | done].
    + apply triple_write_step; [done | simpl; lia |]. intros x1 Hx1.
      apply triple_fail. by apply struct_intro.
Qed.

Lemma dec_bytes_static_writes f n dest x :
  lenB x = f_data_size f -> is_pointer f = false -> writes n dest x (dec_bytes_at f dest).
Proof.
  intros Hx Hp G. eapply triple_read; [intros; by apply varint32_uses | | apply value_intro].
  intros size Hsize. cbv beta in Hsize. cbv zeta.
  apply triple_if; intros _; [apply triple_error, value_intro |].
  apply triple_if; intros _; [apply triple_error, value_intro |].
  change (PB_ATYPE (f_type f) =? PB_ATYPE_POINTER) with (is_pointer f). rewrite Hp.
  apply triple_if_bind; intros Hlen.
  { apply triple_error_bind, value_intro. }
  apply triple_bind_ret. apply Z.ltb_ge in Hlen. unfold bytes_offset in Hlen.
  rewrite wrap_small in Hlen; [| lia]. apply triple_store_bytes; lia.
Qed.

(** One byte more for the terminator, when that does not wrap around. *)
Lemma string_size size :
  0 <= size < 2 ^ 32 -> u32 (size + 1) <? size = false -> u32 (size + 1) = size + 1.
Proof.
  intros Hs Hover%Z.ltb_ge. destruct (decide (size + 1 < 2 ^ 32)); [apply wrap_small; lia |].
  replace (size + 1) with (2 ^ 32) in Hover by lia. change (u32 (2 ^ 32)) with 0 in Hover. lia.
Qed.

Lemma dec_string_static_writes f n dest x :
  lenB x = f_data_size f -> is_pointer f = false -> writes n dest x (dec_string_at f dest).
Proof.
  intros Hx Hp G. eapply triple_read; [intros; by apply varint32_uses | | apply value_intro].
  intros size Hsize. cbv beta in Hsize. cbv zeta.
  apply triple_if; intros Hover; [apply triple_error, value_intro |].
  change (PB_ATYPE (f_type f) =? PB_ATYPE_POINTER) with (is_pointer f). rewrite Hp.
  apply triple_if_bind; intros Hlen.
  { apply triple_error_bind, value_intro. }
  apply triple_bind_ret. apply Z.ltb_ge in Hlen. rewrite string_size in Hlen; [| done..].
  apply triple_store_string; lia.
Qed.

(** *** Strings in blocks of their own *)

(** A pointer to a block, or [NULL]. *)
Definition slot_at (dest : Z) G : hprop :=
  struct_at dest (fun x => lenB x = 8) (fun x => opt_block (ptr_of 0 x) ∗ G)%I.

Lemma slot_intro dest x G : lenB x = 8 -> dest ↦ x ∗ opt_block (ptr_of 0 x) ∗ G ⊢ slot_at dest G.
Proof. intros Hx. by apply struct_intro. Qed.

Definition alloc_text (size alloc dest : Z) : prog (dstate St) Z :=
  s ← getS;
  if bytes_left (d_in s) <? size then DERROR "end-of-stream" else
  _ ← allocate_at dest alloc 1; get_ptr dest.

(** What belongs to a new block besides its bytes. *)
Definition block_rest (q dest : Z) (x b : list byte) G : hprop :=
  (blk q (lenB b) ∗ dest ↦ upd 0 (ptr_bytes q) x ∗ G)%I.

Lemma triple_alloc_text n size alloc dest x G :
  lenB x = 8 -> 0 < alloc < 2 ^ 64 ->
  triple n (dest ↦ x ∗ opt_block (ptr_of 0 x) ∗ G) (alloc_text size alloc dest) (fun _ => n)
    (fun q => ∃ b, ⌜0 < q < 2 ^ 64 /\ lenB b = alloc⌝ ∧ (q ↦ b ∗ block_rest q dest x b G))%I
    (slot_at dest G).
Proof.
  intros Hx Ha. unfold alloc_text. apply triple_getS. intros s0 Hs0.
  apply (triple_left _ _ _ (fun _ => bytes_left (d_in s0))); [| intros ?; lia].
  apply triple_if; intros _; [by apply triple_error, slot_intro |].
  replace (allocate_at dest alloc 1) with (allocate_at (St:=St) (dest + 0) alloc 1)
    by (by rewrite Z.add_0_r).
  eapply (triple_seq _ _ _ _ (fun _ => ∃ q b, ⌜0 < q < 2 ^ 64 /\ lenB b = alloc⌝ ∧
            dest ↦ upd 0 (ptr_bytes q) x ∗ (q ↦ b ∗ blk q (lenB b) ∗ G))%I).
  - apply (triple_pre _ _ (∃ b, dest ↦ x ∗ own_ptr (ptr_of 0 x) b ∗ G)%I).
    { unfold opt_block, own_ptr. iIntros "(H1 & H2 & H3)". destruct (_ =? 0).
      - iExists []. iFrame. done.
      - iDestruct "H2" as "[%b H2]". iExists b. iFrame. }
    apply triple_exist. intros b.
    eapply triple_weaken; [apply (triple_allocate _ dest 0 alloc 1 x b G); lia | done | | | done].
    + intros ?. cbv beta. iIntros "(%q & %b' & [%Hq %Hg] & H1 & [H2 H3] & H4)". iExists q, b'.
      destruct Hg as [Hg _]. iSplit; [iPureIntro; split; [done | lia] |]. iFrame.
    + rewrite -(slot_intro dest x G Hx). unfold opt_block, own_ptr.
      iIntros "(H1 & H2 & H3)". iFrame. destruct (_ =? 0); [by iDestruct "H2" as "[_ $]" | by iExists b].
  - intros ?. cbv beta. apply triple_exist. intros q. apply triple_exist. intros b.
    apply triple_pure. intros [Hq Hb].
    replace (get_ptr dest) with (get_ptr (St:=St) (dest + 0)) by (by rewrite Z.add_0_r).
    apply last_get_ptr; [done | rewrite length_upd; lia |].
    rewrite ptr_of_upd; [| done | lia | lia]. iIntros "(H1 & H2 & H3 & H4)". iExists b.
    iSplit; [done |]. unfold block_rest. iFrame.
Qed.

Lemma slot_of_block q dest x b b' G :
  lenB x = 8 -> 0 < q < 2 ^ 64 -> length b' = length b ->
  q ↦ b' ∗ block_rest q dest x b G ⊢ slot_at dest G.
Proof.
  intros Hx Hq Hb. iIntros "(H1 & H2 & H3 & H4)". iExists (upd 0 (ptr_bytes q) x).
  iSplit; [iPureIntro; by rewrite length_upd |]. iFrame "H3 H4".
  rewrite ptr_of_upd; [| done | lia | lia]. unfold opt_block. rewrite (proj2 (Z.eqb_neq q 0)); [| lia].
  iExists b'. unfold block. rewrite Hb. iFrame.
Qed.

Lemma slot_of_value q dest x b G :
  lenB x = 8 -> 0 < q < 2 ^ 64 -> value_at q b (block_rest q dest x b G) ⊢ slot_at dest G.
Proof.
  intros Hx Hq. iIntros "(%b' & %Hb & H1 & H2)". rewrite -(slot_of_block q dest x b b' G); [| done..]. iFrame.
Qed.

Definition fills n dest x (m : prog (dstate St) unit) : Prop :=
  forall G, triple n (dest ↦ x ∗ opt_block (ptr_of 0 x) ∗ G) m (fun _ => n - 1)
              (fun _ => slot_at dest G) (slot_at dest G).

Lemma dec_bytes_fills f n dest x :
  lenB x = 8 -> is_pointer f = true -> fills n dest x (dec_bytes_at f dest).
Proof.
  intros Hx Hp G. eapply triple_read; [intros; by apply varint32_uses | | by apply slot_intro].
  intros size Hsize. cbv beta in Hsize. cbv zeta.
  apply triple_if; intros _; [by apply triple_error, slot_intro |].
  apply triple_if; intros _; [by apply triple_error, slot_intro |].
  change (PB_ATYPE (f_type f) =? PB_ATYPE_POINTER) with (is_pointer f). rewrite Hp.
  unfold bytes_offset. rewrite wrap_small; [| lia].
  eapply triple_seq; [apply triple_alloc_text; [done | lia] |]. intros q.
  apply triple_exist. intros b. apply triple_pure. intros [Hq Hb].
  eapply triple_weaken; [apply (triple_store_bytes _ size q b); lia | done | | | done];
    intros; by apply slot_of_value.
Qed.

Lemma dec_string_fills f n dest x :
  lenB x = 8 -> is_pointer f = true -> fills n dest x (dec_string_at f dest).
Proof.
  intros Hx Hp G. eapply triple_read; [intros; by apply varint32_uses | | by apply slot_intro].
  intros size Hsize. cbv beta in Hsize. cbv zeta.
  apply triple_if; intros Hover; [by apply triple_error, slot_intro |].
  change (PB_ATYPE (f_type f) =? PB_ATYPE_POINTER) with (is_pointer f). rewrite Hp.
  rewrite string_size; [| done..].
  eapply triple_seq; [apply triple_alloc_text; [done | lia] |]. intros q.
  apply triple_exist. intros b. apply triple_pure. intros [Hq Hb].
  eapply triple_weaken; [apply (triple_store_string _ size q b); lia | done | | | done];
    intros; by apply slot_of_value.
Qed.
End Values.
