(* ===== verification/PbFieldSafe.v ===== *)
(** * Decoding one field

    [decode_field] on a well-formed message: the field is decoded into the struct or into
    blocks that the struct then owns; when the decoding fails, the message is still one that
    can be released. *)

From stdpp Require Import gmap.
From iris.proofmode Require Import proofmode.
From S2P Require Import Prelude PbStream PbWire PbSafe PbMem PbIter PbDecode PbLayout.
From S2P Require Import Sep Slice PbTriple PbOwned PbFields PbDefaults PbRelease PbScalars.

(** What is known of the decoding of submessages with at most [n] bytes. *)
Section Submessages.
Context {St : Type} `{ReadCallback St} `{Allocator} {Bud : Budget}.

Definition noinit_ok (table : list msg_desc) (n : Z) (N : nat)
    (self : list pb_field_t -> Z -> prog (dstate St) unit) : Prop :=
  forall m md a G, m <= n -> md ∈ table -> 0 < a ->
  triple m (msg table false N md a ∗ G) (self (md_fields md) a) (fun _ => m)
    (fun _ => msg table false N md a ∗ G)%I (msg table true N md a ∗ G).

Definition decode_ok (table : list msg_desc) (n : Z) (N : nat)
    (self : list pb_field_t -> Z -> prog (dstate St) unit) : Prop :=
  forall m md a x G, m <= n -> md ∈ table -> 0 < a -> lenB x = md_size md ->
  triple m (a ↦ x ∗ G) (self (md_fields md) a) (fun _ => m)
    (fun _ => msg table false N md a ∗ G)%I
    (struct_at a (blank table true N md) (fun _ => G)).
End Submessages.

Section Field.
Context {St : Type} `{ReadCallback St} `{Allocator} {Bud : Budget}.
Context (table : list msg_desc) (Htable : table_ok table).
Context (ext_types : Z -> option pb_extension_type_t).
Context (user_decode : Z -> pb_field_t -> Z -> prog (dstate St) unit).
Context (self_noinit self_decode : list pb_field_t -> Z -> prog (dstate St) unit).

(** At most [n] bytes are left, and the message is one of depth [S N]. *)
Context (n : Z) (N fuel R : nat).
Context (md : msg_desc) (Hmd : md ∈ table).

Context (IH_noinit : noinit_ok table n N self_noinit).
Context (IH_decode : decode_ok table n N self_decode).

Abbreviation decoders := (PB_DECODERS (descs_of table) self_noinit self_decode).

(** ** The field decoders *)

Lemma decoders_write m p dest x :
  place_ok table md p -> is_sub (p_field p) = false ->
  is_text (p_field p) && is_pointer (p_field p) = false ->
  lenB x = f_data_size (p_field p) -> writes m dest x (decoders (p_field p) dest).
Proof.
  intros (Hlt & Hext & _ & _ & _ & _ & _ & _ & Hds & _ & _ & H32 & H64 & _) Hs Ht Hx.
  assert (0 <= PB_LTYPE (f_type (p_field p))) as Hge.
  { unfold PB_LTYPE. apply Z.land_nonneg. by right. }
  unfold is_sub, is_text, is_ltype, is_extension in *. unfold PB_DECODERS.
  set (t := PB_LTYPE (f_type (p_field p))) in *.
  assert (t = 0 \/ t = 1 \/ t = 2 \/ t = 3 \/ t = 4 \/ t = 5 \/ t = 6 \/ t = 7 \/ t = 8 \/ t = 9 \/ t = 10)
    as Hcases by lia.
  destruct Hcases as [E | [E | [E | [E | [E | [E | [E | [E | [E | [E | E]]]]]]]]]]; rewrite E in Hs, Hext, Ht, H32, H64 |- *; try done.
  - apply dec_bool_writes. lia.
  - by apply dec_varint_writes.
  - by apply dec_uvarint_writes.
  - by apply dec_svarint_writes.
  - apply dec_fixed32_writes. rewrite Hx. by apply H32.
  - apply dec_fixed64_writes. rewrite Hx. by apply H64.
  - by apply dec_bytes_static_writes.
  - by apply dec_string_static_writes.
  - by apply dec_fixed_length_writes.
Qed.

Lemma decoders_fill m p dest x :
  is_text (p_field p) = true -> is_pointer (p_field p) = true -> lenB x = 8 ->
  fills m dest x (decoders (p_field p) dest).
Proof.
  intros Ht Hp Hx. unfold is_text, is_ltype in Ht. unfold PB_DECODERS.
  apply orb_true_iff in Ht as [Ht | Ht]; apply Z.eqb_eq in Ht; rewrite Ht.
  - by apply dec_string_fills.
  - by apply dec_bytes_fills.
Qed.

Lemma decoders_sub p dest :
  is_sub (p_field p) = true ->
  decoders (p_field p) dest
  = pb_dec_submessage (descs_of table) self_noinit self_decode (p_field p) dest.
Proof.
  unfold is_sub, is_ltype, PB_DECODERS. intros ->%Z.eqb_eq. reflexivity.
Qed.

Lemma msg_loose k md' a : msg table false k md' a ⊢ msg table true k md' a.
Proof. apply struct_mono; [done |]. intros l _. apply msg_owned_loose. Qed.

Lemma msg_blank loose k md' a G :
  struct_at a (blank table loose k md') (fun _ => G) ⊢ msg table loose k md' a ∗ G.
Proof.
  iIntros "(%l & [%Hl %Hb] & H1 & $)". iExists l. iSplit; [done |]. iFrame.
  iStopProof. exact Hb.
Qed.

(** A submessage that is there already. *)
Lemma decoders_sub_single p md' dest G :
  place_ok table md p -> sub_desc table (p_field p) = Some md' -> is_repeated (p_field p) = false ->
  0 < dest ->
  triple (St:=St) n (msg table false N md' dest ∗ G) (decoders (p_field p) dest) (fun _ => n - 1)
    (fun _ => msg table false N md' dest ∗ G)%I (msg table true N md' dest ∗ G).
Proof.
  intros Hok Hsub Hr Hdest.
  destruct (place_kind table md p Hok) as (_ & _ & Hs & _). rewrite Hsub in Hs. destruct Hs as [Hs _].
  destruct (sub_field table md p Hok Hs) as (id & md2 & Ef & Ed & Edf & Hin & _).
  rewrite decoders_sub; [| done]. rewrite Hsub in Ed. injection Ed as <-.
  unfold pb_dec_submessage. rewrite Ef Edf.
  change (PB_HTYPE (f_type (p_field p)) =? PB_HTYPE_REPEATED) with (is_repeated (p_field p)). rewrite Hr.
  eapply (triple_substream _ _ (fun _ => _) (fun r => close_with r)).
  - intros sub Hb. apply IH_noinit; [lia | done | done].
  - intros [] sub. apply closing_close; [by left | by rewrite msg_loose].
  - intros sub. apply closing_close; [by right | done].
  - by rewrite msg_loose.
Qed.

(** A new entry of an array; before that is decoded, it can be released as it is. *)
Lemma decoders_sub_repeated p md' dest x G :
  place_ok table md p -> sub_desc table (p_field p) = Some md' -> is_repeated (p_field p) = true ->
  0 < dest -> blank table true N md' x ->
  triple (St:=St) n (dest ↦ x ∗ G) (decoders (p_field p) dest) (fun _ => n - 1)
    (fun _ => msg table false N md' dest ∗ G)%I (msg table true N md' dest ∗ G).
Proof.
  intros Hok Hsub Hr Hdest Hx.
  destruct (place_kind table md p Hok) as (_ & _ & Hs & _). rewrite Hsub in Hs. destruct Hs as [Hs _].
  destruct (sub_field table md p Hok Hs) as (id & md2 & Ef & Ed & Edf & Hin & _).
  rewrite decoders_sub; [| done]. rewrite Hsub in Ed. injection Ed as <-.
  unfold pb_dec_submessage. rewrite Ef Edf.
  change (PB_HTYPE (f_type (p_field p)) =? PB_HTYPE_REPEATED) with (is_repeated (p_field p)). rewrite Hr.
  eapply (triple_substream _ _ (fun _ => _) (fun r => close_with r)).
  - intros sub Hb. apply IH_decode; [lia | done | done | apply Hx].
  - intros [] sub. apply closing_close; [by left | by rewrite msg_loose].
  - intros sub. apply closing_close; [by right | apply msg_blank].
  - rewrite -msg_blank. by apply struct_intro.
Qed.

(** ** Static fields *)

Abbreviation rec := (msg_owned table false N).
Abbreviation rec' := (msg_owned table true N).

(** What decoding the field leaves of the bytes of the struct. *)
Definition fits (p : place) (l l' : list byte) : Prop :=
  lenB l' = md_size md /\ keeps p l l' /\ active p l'.

(** A success, and a failure. *)
Definition decoded (p : place) (a : Z) (l : list byte) G : hprop :=
  struct_at a (fits p l) (fun l' => field_owned table rec false p l' ∗ G)%I.
Definition undecoded (p : place) (a : Z) (l : list byte) G : hprop :=
  struct_at a (fits p l) (fun l' => field_owned table rec' true p l' ∗ G)%I.

Lemma decoded_undecoded p a l G : decoded p a l G ⊢ undecoded p a l G.
Proof.
  apply struct_mono; [done |]. intros l' _. apply bi.sep_mono_l, field_owned_loose.
  intros. apply msg_owned_loose.
Qed.

Lemma static_owned_single rc lo p l :
  is_repeated (p_field p) = false ->
  static_owned table rc lo p l
  = (if is_sub (p_field p) then sub_owned table rc (p_field p) (sub (p_data p) (data_len (p_field p)) l)
     else emp)%I.
Proof. intros Hr. unfold static_owned. by rewrite Hr. Qed.

(** A new value for the only entry of the field. *)
Lemma static_value p l l1 x :
  place_ok table md p -> lenB l = md_size md -> is_pointer (p_field p) = false ->
  is_repeated (p_field p) = false -> keeps p l l1 -> active p l1 ->
  lenB x = data_len (p_field p) ->
  fits p l (upd (p_data p) x l1) /\
  forall rc lo, field_owned table rc lo p (upd (p_data p) x l1)
    = (if is_sub (p_field p) then sub_owned table rc (p_field p) x else emp)%I.
Proof.
  intros Hok Hl Hst Hr Hk Hact Hx. pose proof (proj1 Hk) as Hlen.
  destruct (place_bounds table md p l Hok Hl) as (Hd & Hd' & _).
  assert (active p (upd (p_data p) x l1)) as Hact'.
  { intros Ho. rewrite (count_kept table md p l1 x Hok); [by apply Hact | lia | done | by left]. }
  split; [split_and!; [rewrite length_upd; lia | | done] |].
  - eapply keeps_trans; [exact Hk |]. apply keeps_data; lia.
  - intros rc lo. rewrite field_owned_active; [| done]. rewrite Hst static_owned_single; [| done].
    rewrite -Hx sub_upd_same; [done | done | lia].
Qed.

(** The [which_] member of a union. *)
Lemma set_which p l l1 :
  place_ok table md p -> lenB l = md_size md -> is_oneof (p_field p) = true -> keeps p l l1 ->
  let l2 := upd (p_size p) (size_bytes (f_tag (p_field p))) l1 in
  0 <= p_size p /\ p_size p + 4 <= lenB l /\ keeps p l l2 /\ active p l2 /\
  sub (p_data p) (data_len (p_field p)) l2 = sub (p_data p) (data_len (p_field p)) l1.
Proof.
  intros Hok Hl Ho Hk l2. pose proof (proj1 Hk) as Hlen.
  destruct (place_bounds table md p l Hok Hl) as (Hd & Hd' & Hs & Hs' & Hap & Hds & Har & Ht).
  pose proof (size_len_count p (or_introl Ho)) as Hsl. rewrite Hsl in Hs', Hap. unfold apart in Hap.
  split_and!; [done | done | | |].
  - eapply keeps_trans; [exact Hk |]. apply keeps_size; [done | rewrite length_size_bytes; lia].
  - intros _. apply size_of_upd; lia.
  - apply sub_upd_disj; [done | done | rewrite length_size_bytes; lia].
Qed.

Lemma single_back lo p md' a l l1 G :
  place_ok table md p -> lenB l = md_size md -> is_pointer (p_field p) = false ->
  is_repeated (p_field p) = false -> keeps p l l1 -> active p l1 ->
  is_sub (p_field p) = true -> sub_desc table (p_field p) = Some md' ->
  f_data_size (p_field p) = md_size md' ->
  (msg table lo N md' (a + p_data p) ∗ G) ∗ hole a (p_data p) (f_data_size (p_field p)) l1 ⊢
  struct_at a (fits p l) (fun l' => field_owned table (msg_owned table lo N) lo p l' ∗ G)%I.
Proof.
  intros Hok Hl Hst Hr Hk Hact Es Ed Hsz. pose proof (data_len_static _ Hst Hr) as Hdl.
  unfold msg, hole. iIntros "[[(%x & %Hxl & H1 & H2) H3] Hw]".
  destruct (static_value p l l1 x) as [Hf Ho]; try done; [lia |].
  iExists (upd (p_data p) x l1). iSplit; [done |]. rewrite Ho Es. unfold sub_owned. rewrite Ed.
  iFrame. iApply ("Hw" with "[] H1"). iPureIntro. lia.
Qed.

Lemma triple_static_one p a l l1 G :
  place_ok table md p -> lenB l = md_size md -> is_pointer (p_field p) = false ->
  is_repeated (p_field p) = false -> keeps p l l1 -> active p l1 -> 0 < a ->
  triple (St:=St) n (a ↦ l1 ∗ static_owned table rec false p l1 ∗ G)
    (decoders (p_field p) (a + p_data p)) (fun _ => n - 1)
    (fun _ => decoded p a l G) (undecoded p a l G).
Proof.
  intros Hok Hl Hst Hr Hk Hact Ha. pose proof (proj1 Hk) as Hlen.
  destruct (place_bounds table md p l Hok Hl) as (Hd & Hd' & _ & _ & _ & Hds & _).
  pose proof (data_len_static _ Hst Hr) as Hdl. rewrite static_owned_single; [| done].
  pose proof (length_sub (p_data p) (f_data_size (p_field p)) l1 Hd ltac:(lia) ltac:(lia)) as Hx.
  destruct (is_sub (p_field p)) eqn:Es.
  - destruct (sub_field table md p Hok Es) as (id & md' & Ef & Ed & Edf & Hin & Hsz & _).
    eapply (triple_zoom _ _ (p_data p) (f_data_size (p_field p)));
      [lia | lia | lia | | |].
    + eapply triple_pre; [| apply (decoders_sub_single p md' (a + p_data p) G); (done || lia)].
      rewrite Hdl. unfold sub_owned. rewrite Ed. iIntros "(H1 & H2 & $)".
      iExists (sub (p_data p) (f_data_size (p_field p)) l1). iSplit; [iPureIntro; lia |]. iFrame.
    + intros ?. cbv beta. by apply (single_back false p md').
    + by apply (single_back true p md').
  - apply (triple_pre _ _ (a ↦ l1 ∗ G)%I); [iIntros "(H1 & _ & H3)"; iFrame |].
    eapply (triple_zoom _ _ (p_data p) (f_data_size (p_field p)));
      [lia | lia | lia | apply (decoders_write n p); [done | done | by rewrite Hst andb_false_r | done] | |];
      intros; (apply hole_struct; [intros x Hxl; lia |]); intros x Hxl;
      (destruct (static_value p l l1 x) as [Hf Ho]; try done; [lia |]);
      (apply struct_intro; [done |]); by rewrite Ho Es left_id.
Qed.

(** *** Arrays *)

Lemma items_loose k d f b :
  items k d (sub_owned table rec f) b ⊢ items k d (sub_owned table rec' f) b.
Proof.
  apply big_sepL_mono. intros j y _. unfold sub_owned.
  destruct (sub_desc table f); [apply msg_owned_loose | done].
Qed.

(** The count of an array: the member of the struct, or the variable of the decoder. *)
Definition count_ptr (p : place) (a : Z) (sp : size_ptr) : Prop :=
  match sp with
  | SizeAt c => c = a + p_size p /\ p_size p <> p_data p
  | FixedCount => p_size p = p_data p
  end.

Definition with_count (p : place) (sp : size_ptr) (v : Z) (l : list byte) : list byte :=
  match sp with SizeAt _ => upd (p_size p) (size_bytes v) l | FixedCount => l end.

Definition count_is (p : place) (sp : size_ptr) (l : list byte) (v : Z) : Prop :=
  match sp with SizeAt _ => v = count_of p l | FixedCount => 0 <= v end.

Lemma count_bounds p (l : list byte) sp a :
  place_ok table md p -> lenB l = md_size md -> is_repeated (p_field p) = true ->
  count_ptr p a (SizeAt sp) ->
  p_size p + 4 <= lenB l /\ size_len p = 4 /\ 0 <= p_size p.
Proof.
  intros Hok Hl Hr [_ Hne]. pose proof (size_len_count p (or_intror (conj Hr Hne))) as Hsl.
  destruct (place_bounds table md p l Hok Hl) as (_ & _ & Hs & Hs' & _). lia.
Qed.

Lemma step_get_size {A} m p a sp l F (k : Z -> prog (dstate St) A) n' Q E :
  place_ok table md p -> lenB l = md_size md -> is_repeated (p_field p) = true ->
  count_ptr p a sp ->
  (forall v, 0 <= v -> count_is p sp l v -> triple m (a ↦ l ∗ F) (k v) n' Q E) ->
  triple m (a ↦ l ∗ F) (get_count sp ≫= k) n' Q E.
Proof.
  intros Hok Hl Hr Hsp Hk. destruct sp as [c |].
  - destruct (count_bounds p l c a Hok Hl Hr Hsp) as (H4 & _ & Hs0). destruct Hsp as [-> _].
    apply step_get_count; [lia | lia |]. apply Hk; [apply size_of_range | done].
  - cbn [get_count]. apply triple_assoc. apply triple_getS_any. intros s0.
    apply triple_bind_ret, Hk; [lia | simpl; lia].
Qed.

Lemma step_set_size {A} m p a sp v l F (k : prog (dstate St) A) n' Q E :
  place_ok table md p -> lenB l = md_size md -> is_repeated (p_field p) = true ->
  count_ptr p a sp ->
  triple m (a ↦ with_count p sp v l ∗ F) k n' Q E ->
  triple m (a ↦ l ∗ F) (set_count sp v ≫= fun _ => k) n' Q E.
Proof.
  intros Hok Hl Hr Hsp Hk. destruct sp as [c |].
  - destruct (count_bounds p l c a Hok Hl Hr Hsp) as (H4 & _ & Hs0). destruct Hsp as [-> _].
    by apply step_set_count; [lia | lia |].
  - cbn [set_count]. eapply (triple_seq _ _ _ _ (fun _ => a ↦ l ∗ F)%I); [by apply triple_modify_fixed |].
    by intros [].
Qed.

Lemma count_is_member p sp l v : sp <> FixedCount -> count_is p sp l v -> v = count_of p l.
Proof. by destruct sp. Qed.

(** The depth and the fuel are enough for new submessages; [R] bounds the rank of the
    messages of the program. *)
Context (HR : forall md, md ∈ table -> (md_rank md <= R)%nat).
Context (Hn : 0 <= n) (HN : Z.of_nat (R + 1) * (n + 1) <= Z.of_nat N) (Hfuel : (N < fuel)%nat).

Lemma rank_lt md' : md' ∈ table -> (md_rank md' < N)%nat.
Proof. intros Hin. pose proof (HR md' Hin). nia. Qed.

Section Array.
Context (p : place) (a : Z) (sp : size_ptr) (l : list byte).
Context (Hok : place_ok table md p) (Hl : lenB l = md_size md) (Ha : 0 < a).
Context (Hst : is_pointer (p_field p) = false) (Hr : is_repeated (p_field p) = true).
Context (Hsp : count_ptr p a sp).

Abbreviation ds := (f_data_size (p_field p)).
Abbreviation as_ := (f_array_size (p_field p)).

Lemma array_bounds :
  0 <= p_data p /\ p_data p + ds * as_ <= lenB l /\ data_len (p_field p) = ds * as_ /\
  1 <= ds /\ 0 <= as_ /\ ds * as_ < 2 ^ 32.
Proof.
  destruct (place_bounds table md p l Hok Hl) as (Hd & Hd' & _ & _ & _ & Hds & Har & _).
  destruct (place_kind table md p Hok) as (_ & Hstat & _).
  pose proof (data_len_array _ (Hstat Hst) Hr) as Hdl.
  destruct (desc_in table Htable md Hmd) as (_ & _ & _ & Hsz & _). lia.
Qed.

Lemma array_item v :
  0 <= v < as_ ->
  item_at (a + p_data p) (p_field p) v = a + (p_data p + v * ds) /\
  p_data p + v * ds + ds <= p_data p + ds * as_.
Proof.
  intros Hv. destruct array_bounds as (_ & _ & _ & ? & ? & ?). unfold item_at.
  rewrite wrap_small; [split; nia | nia].
Qed.

Lemma array_active l' : active p l'.
Proof. intros Ho. pose proof (oneof_not_repeated _ Ho). congruence. Qed.

Lemma with_count_keeps v l1 : lenB l1 = lenB l -> keeps p l1 (with_count p sp v l1).
Proof.
  intros Hl1. destruct sp as [c |]; [| apply keeps_refl].
  destruct (count_bounds p l c a Hok Hl Hr Hsp) as (H4 & Hsl & Hs0).
  apply keeps_size; [lia | rewrite length_size_bytes Hsl; lia].
Qed.

Lemma with_count_length v l1 : lenB (with_count p sp v l1) = lenB l1.
Proof. destruct sp; [simpl; by rewrite length_upd | done]. Qed.

(** An entry that owns nothing. *)
Lemma triple_array_scalar m l1 v G :
  is_sub (p_field p) = false -> lenB l1 = lenB l -> keeps p l l1 -> 0 <= v < as_ ->
  triple (St:=St) m (a ↦ l1 ∗ G) (decoders (p_field p) (item_at (a + p_data p) (p_field p) v))
    (fun _ => m - 1) (fun _ => struct_at a (fits p l) (fun _ => G))
    (struct_at a (fits p l) (fun _ => G)).
Proof.
  intros Hs Hl1 Hk Hv. destruct (array_item v Hv) as [-> Hv'].
  destruct array_bounds as (Hd & Hd' & Hdl & Hds & Har & H32).
  assert (0 <= v * ds) by nia.
  eapply (triple_zoom _ _ (p_data p + v * ds) ds);
    [lia | lia | lia | apply (decoders_write m p); [done | done | by rewrite Hst andb_false_r |] | |].
  - apply length_sub; lia.
  - intros ?. cbv beta. apply hole_struct; [intros x Hx; rewrite Hx; apply length_sub; lia |].
    intros x Hx. apply struct_intro; [| done].
    assert (lenB x = ds) as Hx' by (rewrite Hx; apply length_sub; lia).
    split_and!; [rewrite length_upd; lia | | apply array_active].
    eapply keeps_trans; [exact Hk |]. apply keeps_data; lia.
  - apply hole_struct; [intros x Hx; rewrite Hx; apply length_sub; lia |].
    intros x Hx. apply struct_intro; [| done].
    assert (lenB x = ds) as Hx' by (rewrite Hx; apply length_sub; lia).
    split_and!; [rewrite length_upd; lia | | apply array_active].
    eapply keeps_trans; [exact Hk |]. apply keeps_data; lia.
Qed.

Lemma scalar_decoded G :
  is_sub (p_field p) = false -> struct_at a (fits p l) (fun _ => G) ⊢ decoded p a l G.
Proof.
  intros Hs. apply struct_mono; [done |]. intros l' _. rewrite static_emp; [| done..].
  by rewrite left_id.
Qed.

(** The loop over a packed array: every round uses some of the input. *)
Lemma triple_packed_static i k m l1 G :
  is_sub (p_field p) = false -> layout (md_fields md) !! i = Some p -> fits p l l1 -> m <= Z.of_nat k ->
  triple (St:=St) m (a ↦ l1 ∗ G)
    (packed_static_loop (descs_of table) self_noinit self_decode k
       (set_pSize sp (iter_at (md_fields md) a i p)))
    (fun _ => m) (fun _ => struct_at a (fits p l) (fun _ => G))
    (struct_at a (fits p l) (fun _ => G)).
Proof.
  intros Hs Hp. revert m l1. induction k as [| k IH]; intros m l1 Hf Hm; cbn [packed_static_loop];
    change (cur (set_pSize sp (iter_at (md_fields md) a i p)))
      with (cur (iter_at (md_fields md) a i p)); rewrite (cur_iter_at _ a i p Hp);
    destruct Hf as (Hl1 & Hk1 & Hact1).
  - intros base c R' s T Hc Hw HT HP. unfold mbind, prog_bind, getS.
    destruct (Z.eqb_spec (bytes_left (d_in s)) 0); [| unfold within in Hw; simpl in Hm; lia].
    simpl. split; [eapply within_weaken; [by eapply within_left | lia] |].
    eapply holds_mono; [| exact HP]. apply bi.sep_mono_l.
    by apply struct_intro.
  - apply triple_getS. intros s0 Hs0. 
    apply (triple_left _ _ _ (fun _ => bytes_left (d_in s0))); [| intros ?; lia].
    apply triple_if; intros _; [apply triple_ret; [by apply struct_intro | done] |].
    apply (step_get_size _ p a sp); [done | lia | done | done |]. intros v Hv0 Hv.
    apply triple_if; intros Hlt; [apply triple_ret; [by apply struct_intro | done] |].
    apply Z.leb_gt in Hlt.
    eapply (triple_bind _ (fun _ => bytes_left (d_in s0) - 1)); [| intros ?; lia |].
    + apply triple_array_scalar; [done | lia | done | lia].
    + intros ?. cbv beta. apply triple_struct. intros l2 (Hl2 & Hk2 & Hact2).
      apply (step_get_size _ p a sp); [done | lia | done | done |]. intros v2 Hv2 _.
      apply (step_set_size _ p a sp); [done | lia | done | done |].
      eapply triple_left; [apply IH |]; [| lia | intros ?; cbv beta; lia].
      split_and!; [rewrite with_count_length; lia | | apply array_active].
      eapply keeps_trans; [exact Hk2 |]. apply with_count_keeps. lia.
Qed.

(** *** Entries that are submessages *)

Abbreviation region := (sub (p_data p) (ds * as_)).

Lemma count_member :
  sp <> FixedCount -> p_size p + 4 <= lenB l /\ size_len p = 4 /\ 0 <= p_size p.
Proof. intros Hf. destruct sp as [c |]; [by apply (count_bounds p l c a) | done]. Qed.

Lemma with_count_region v l1 : lenB l1 = lenB l -> sp <> FixedCount -> region (with_count p sp v l1) = region l1.
Proof.
  intros Hl1 Hf. destruct sp as [c |]; [simpl | done].
  destruct (count_bounds p l c a Hok Hl Hr Hsp) as (H4 & Hsl & Hs0).
  destruct array_bounds as (Hd & Hd' & Hdl & _).
  destruct (place_bounds table md p l Hok Hl) as (_ & _ & _ & _ & Hap & _).
  rewrite Hsl Hdl in Hap. unfold apart in Hap.
  apply sub_upd_disj; [lia | lia | rewrite length_size_bytes; lia].
Qed.

Lemma with_count_count v l1 :
  lenB l1 = lenB l -> sp <> FixedCount -> 0 <= v < 2 ^ 32 -> count_of p (with_count p sp v l1) = v.
Proof.
  intros Hl1 Hf Hv. destruct sp as [c |]; [simpl | done].
  destruct (count_bounds p l c a Hok Hl Hr Hsp) as (H4 & Hsl & Hs0). apply size_of_upd; lia.
Qed.

Lemma items_S k (F : list byte -> hprop) b :
  items (S k) ds F b ⊣⊢ items k ds F b ∗ F (sub (Z.of_nat k * ds) ds b).
Proof.
  unfold items. rewrite seq_S big_sepL_app. apply bi.sep_proper; [done |]. by rewrite big_sepL_singleton.
Qed.

(** One entry more. *)
Lemma entry_back lo md' v G :
  let l1 := with_count p sp (v + 1) l in
  sub_desc table (p_field p) = Some md' -> is_sub (p_field p) = true -> ds = md_size md' ->
  sp <> FixedCount -> 0 <= v < as_ ->
  (msg table lo N md' (a + (p_data p + v * ds)) ∗
   (items (Z.to_nat v) ds (sub_owned table (msg_owned table lo N) (p_field p)) (region l) ∗ G)) ∗
  hole a (p_data p + v * ds) ds l1 ⊢
  struct_at a (fits p l) (fun l' => field_owned table (msg_owned table lo N) lo p l' ∗ G)%I.
Proof.
  intros l1 Ed Es Hsz Hf Hv. destruct array_bounds as (Hd & Hd' & Hdl & Hds & Har & H32).
  pose proof (with_count_length (v + 1) l) as Hl1. fold l1 in Hl1.
  pose proof (with_count_keeps (v + 1) l eq_refl) as Hk1. fold l1 in Hk1.
  unfold msg, hole. iIntros "[[(%x & %Hxl & H1 & H2) [H3 H4]] Hw]".
  assert (lenB x = ds) as Hx by lia.
  iExists (upd (p_data p + v * ds) x l1). iSplit.
  { iPureIntro. split_and!; [rewrite length_upd; lia | | apply array_active].
    eapply keeps_trans; [exact Hk1 |]. apply keeps_data; nia. }
  iSplitL "Hw H1"; [iApply ("Hw" with "[] H1"); by iPureIntro |]. iFrame "H4".
  assert (count_of p (upd (p_data p + v * ds) x l1) = v + 1) as Hc.
  { destruct (count_member Hf) as (H4 & Hsl & Hs0).
    destruct (place_bounds table md p l Hok Hl) as (_ & _ & _ & _ & Hap & _).
    rewrite Hsl Hdl in Hap. unfold apart in Hap.
    unfold count_of, size_of. rewrite sub_upd_disj; [| nia | nia | nia].
    change (count_of p l1 = v + 1). apply with_count_count; (done || nia). }
  assert (region (upd (p_data p + v * ds) x l1) = upd (v * ds) x (region l)) as Hreg.
  { rewrite sub_upd_out; [| nia | nia | nia]. rewrite with_count_region; [| done | done].
    f_equal. lia. }
  rewrite field_owned_active; [| apply array_active]. rewrite Hst. unfold static_owned.
  rewrite Es Hr Hc Hdl Hreg. rewrite Z.min_l; [| lia].
  iSplit; [iPureIntro; right; lia |]. rewrite Z2Nat.inj_add; [| lia | lia].
  rewrite Nat.add_comm. change (Z.to_nat 1 + Z.to_nat v)%nat with (S (Z.to_nat v)). rewrite items_S.
  rewrite Z2Nat.id; [| lia]. iSplitL "H3".
  - change (items ?k ds ?F ?b) with (items_from 0 k ds F b).
    replace (v * ds) with (Z.of_nat (Z.to_nat v) * ds) by lia. rewrite items_upd; [done | lia | lia | lia].
  - pose proof (sub_upd_same (v * ds) x (region l)) as Hsame. rewrite Hx in Hsame.
    rewrite Hsame; [| nia | rewrite length_sub; nia]. unfold sub_owned. rewrite Ed. done.
Qed.

Lemma triple_array_sub v G :
  let l1 := with_count p sp (v + 1) l in
  is_sub (p_field p) = true -> sp <> FixedCount -> 0 <= v < as_ ->
  triple (St:=St) n
    (a ↦ l1 ∗ items (Z.to_nat v) ds (sub_owned table rec (p_field p)) (region l) ∗ G)
    (decoders (p_field p) (item_at (a + p_data p) (p_field p) v)) (fun _ => n - 1)
    (fun _ => decoded p a l G) (undecoded p a l G).
Proof.
  intros l1 Es Hf Hv. destruct (array_item v Hv) as [-> Hv'].
  destruct array_bounds as (Hd & Hd' & Hdl & Hds & Har & H32).
  destruct (sub_field table md p Hok Es) as (id & md' & Ef & Ed & Edf & Hin & Hsz & Hrank & Hflat).
  pose proof (with_count_length (v + 1) l) as Hl1. fold l1 in Hl1.
  eapply (triple_zoom _ _ (p_data p + v * ds) ds); [nia | lia | nia | | |].
  - apply (decoders_sub_repeated p md'); [done | done | done | nia |].
    apply flat_blank; [done | done | by apply Hflat | by apply rank_lt |].
    rewrite length_sub; nia.
  - intros ?. cbv beta. by apply (entry_back false md' v G).
  - unfold undecoded. rewrite -(entry_back true md' v G); try done.
    rewrite items_loose. iIntros "[(H1 & H2 & H3) H4]". iFrame.
Qed.

(** *** The two forms of arrays on the wire *)

Abbreviation iter i := (set_pSize sp (iter_at (md_fields md) a i p)).

Lemma triple_static_packed i G :
  is_sub (p_field p) = false -> layout (md_fields md) !! i = Some p ->
  triple (St:=St) n (a ↦ l ∗ G)
    (substream ← lift pb_make_string_substream;
     '(status, substream) ← on_substream substream
        (packed_static_loop (descs_of table) self_noinit self_decode
           (Z.to_nat (bytes_left substream)) (iter i));
     if negb (bytes_left substream =? 0) then DERROR "array overflow" else
     close_with (status, substream))
    (fun _ => n) (fun _ => struct_at a (fits p l) (fun _ => G)) (struct_at a (fits p l) (fun _ => G)).
Proof.
  intros Es Hp. assert (fits p l l) as Hf by (split_and!; [done | done | apply array_active]).
  apply (triple_left _ _ _ (fun _ => n - 1)); [| intros ?; lia]. eapply triple_substream.
  - intros sub Hb. apply triple_packed_static; [done | done | done | lia].
  - intros [] sub. apply closing_if; [by apply closing_error | apply closing_close; [by left | done]].
  - intros sub. apply closing_if; [by apply closing_error | apply closing_close; [by right | done]].
  - by apply struct_intro.
Qed.

(** A count that is too large by one. *)
Lemma array_overflow v G :
  is_sub (p_field p) = true -> sp <> FixedCount -> v = as_ -> v < 2 ^ 32 - 1 ->
  a ↦ with_count p sp (v + 1) l ∗
    items (Z.to_nat v) ds (sub_owned table rec (p_field p)) (region l) ∗ G
  ⊢ undecoded p a l G.
Proof.
  intros Es Hf Heq Hv. destruct array_bounds as (Hd & Hd' & Hdl & Hds & Har & H32).
  apply struct_intro.
  - split_and!; [by rewrite with_count_length | by apply with_count_keeps | apply array_active].
  - apply bi.sep_mono_l. rewrite field_owned_active; [| apply array_active].
    rewrite Hst. unfold static_owned.
    rewrite Es Hr Hdl with_count_count; [| done | done | lia]. rewrite with_count_region; [| done | done].
    apply bi.and_intro; [iIntros "_"; iPureIntro; by left |].
    rewrite Z.min_r; [| lia]. rewrite -Heq. apply items_loose.
Qed.

Lemma triple_static_unpacked G :
  triple (St:=St) n (a ↦ l ∗ static_owned table rec false p l ∗ G)
    (size ← get_count sp;
     _ ← set_count sp (u32 (size + 1));
     if f_array_size (p_field p) <=? size then DERROR "array overflow" else
     decoders (p_field p) (item_at (a + p_data p) (p_field p) size))
    (fun _ => n) (fun _ => decoded p a l G) (undecoded p a l G).
Proof.
  destruct array_bounds as (Hd & Hd' & Hdl & Hds & Har & H32).
  apply (step_get_size _ p a sp); [done..|]. intros v Hv0 Hv.
  apply (step_set_size _ p a sp); [done..|].
  destruct (is_sub (p_field p)) eqn:Es.
  - assert (sp <> FixedCount) as Hf.
    { intros E. apply (sub_fixed table md p Hok Es Hr). pose proof Hsp as Hfix. by rewrite E in Hfix. }
    destruct (count_member Hf) as (H4 & Hsl & Hs0).
    pose proof (count_is_member p sp l v Hf Hv) as Hvc.
    destruct (place_bounds table md p l Hok Hl) as (_ & _ & _ & _ & Hap & _ & Har2 & _).
    destruct (desc_in table Htable md Hmd) as (_ & _ & _ & Hsize & _).
    rewrite Hsl Hdl in Hap. unfold apart in Hap.
    apply (triple_pre _ _ (⌜v <= as_⌝ ∧ (a ↦ with_count p sp (u32 (v + 1)) l ∗
      items (Z.to_nat v) ds (sub_owned table rec (p_field p)) (region l) ∗ G))%I).
    { unfold static_owned. rewrite Es Hr -Hvc Hdl. iIntros "(H1 & [%Hle H2] & H3)".
      destruct Hle as [? | Hle]; [done |]. rewrite Z.min_l; [| done]. iSplit; [done |]. iFrame. }
    apply triple_pure. intros Hle. rewrite wrap_small; [| nia].
    apply triple_if; intros Hlt.
    + apply Z.leb_le in Hlt. apply triple_error, array_overflow; (done || nia).
    + apply Z.leb_gt in Hlt. eapply triple_left; [by apply triple_array_sub |].
      intros ?. cbv beta. lia.
  - apply (triple_pre _ _ (a ↦ with_count p sp (u32 (v + 1)) l ∗ G)%I).
    { unfold static_owned. rewrite Es. iIntros "(H1 & _ & H2)". iFrame. }
    apply triple_if; intros Hlt.
    + apply triple_error. rewrite -decoded_undecoded -scalar_decoded; [| done].
      apply struct_intro; [| done].
      split_and!; [by rewrite with_count_length | by apply with_count_keeps | apply array_active].
    + apply Z.leb_gt in Hlt. eapply triple_weaken; [apply (triple_array_scalar n); [done | apply with_count_length |
        by apply with_count_keeps | lia] | done | | | ].
      * intros ?. by apply scalar_decoded.
      * rewrite -decoded_undecoded. by apply scalar_decoded.
      * intros ?. cbv beta. lia.
Qed.
End Array.

(** *** Members of unions *)

(** What the field owns when its decoding begins: nothing, if it is a member of a union
    that does not hold it. *)
Definition prepared (p : place) (l : list byte) : hprop :=
  (if inactive p l then emp
   else if is_pointer (p_field p) then pointer_owned table rec false p l
   else static_owned table rec false p l)%I.

Lemma triple_static_oneof p a l G :
  place_ok table md p -> lenB l = md_size md -> is_pointer (p_field p) = false ->
  is_oneof (p_field p) = true -> 0 < a ->
  triple (St:=St) n (a ↦ l ∗ prepared p l ∗ G)
    (which ← get_count (SizeAt (a + p_size p));
     _ ← (if is_sub (p_field p) && negb (which =? f_tag (p_field p))
          then
            _ ← memset_zero (a + p_data p) (f_data_size (p_field p));
            set_to_defaults_of (descs_of table) ext_types fuel (f_ptr (p_field p)) (a + p_data p)
          else mret tt);
     _ ← set_count (SizeAt (a + p_size p)) (f_tag (p_field p));
     decoders (p_field p) (a + p_data p))
    (fun _ => n) (fun _ => decoded p a l G) (undecoded p a l G).
Proof.
  intros Hok Hl Hst Ho Ha. pose proof (oneof_not_repeated _ Ho) as Hr.
  destruct (place_bounds table md p l Hok Hl) as (Hd & Hd' & Hs & _ & _ & Hds & _).
  pose proof (data_len_static _ Hst Hr) as Hdl.
  destruct (set_which p l l Hok Hl Ho (keeps_refl p l)) as (_ & H4 & _).
  assert (forall l1, keeps p l l1 ->
    triple (St:=St) n (a ↦ l1 ∗ static_owned table rec false p l1 ∗ G)
      (_ ← set_count (SizeAt (a + p_size p)) (f_tag (p_field p)); decoders (p_field p) (a + p_data p))
      (fun _ => n) (fun _ => decoded p a l G) (undecoded p a l G)) as Hgo.
  { intros l1 Hk1. pose proof (proj1 Hk1) as Hlen.
    destruct (set_which p l l1 Hok Hl Ho Hk1) as (_ & _ & Hk2 & Hact & Hreg).
    apply step_set_count; [done | lia |].
    eapply triple_left; [eapply triple_pre; [| apply (triple_static_one p a l _ G Hok Hl Hst Hr Hk2 Hact Ha)] |].
    - rewrite !static_owned_single; [| done..]. by rewrite Hreg.
    - intros ?. cbv beta. lia. }
  apply step_get_count; [done | lia |]. fold (count_of p l). unfold prepared, inactive. rewrite Ho Hst.
  destruct (Z.eqb_spec (count_of p l) (f_tag (p_field p))) as [Hc | Hc]; cbn [andb negb].
  { rewrite andb_false_r. apply triple_bind_ret. by apply Hgo. }
  rewrite andb_true_r. destruct (is_sub (p_field p)) eqn:Es.
  - destruct (sub_field table md p Hok Es) as (id & md' & Ef & Ed & Edf & Hin & Hsz & Hrank & _).
    apply triple_assoc. unfold memset_zero, set_to_defaults_of. rewrite Ef. cbn [message_defaults]. rewrite Edf.
    apply step_set; [done | rewrite repeat_length; lia |].
    set (l1 := upd (p_data p) _ l).
    assert (keeps p l l1) as Hk1 by (apply keeps_data; [lia | rewrite repeat_length; lia]).
    pose proof (proj1 Hk1) as Hlen1.
    eapply (triple_seq _ _ _ _ (fun _ => ∃ l2, ⌜keeps p l l2⌝ ∧ (a ↦ l2 ∗ static_owned table rec false p l2 ∗ G))%I).
    + pose proof (rank_lt md' Hin) as Hlt. eapply (triple_zoom _ _ (p_data p) (f_data_size (p_field p))); [done | lia | lia | | |].
      * apply (triple_set_to_defaults table Htable ext_types n fuel N md'); try done; [lia | lia |].
        rewrite length_sub; lia.
      * intros ?. cbv beta. apply hole_struct; [intros x Hx; by rewrite (proj1 Hx) |].
        intros x [Hx Hb]. iIntros "(H1 & _ & H2)". iExists _. iFrame "H1 H2". iSplit.
        -- iPureIntro. eapply keeps_trans; [exact Hk1 |]. apply keeps_data; lia.
        -- rewrite static_owned_single; [| done]. rewrite Es. unfold sub_owned. rewrite Ed.
           assert (lenB x = data_len (p_field p)) as Hxl by lia.
           rewrite -Hxl sub_upd_same; [| done | lia]. iStopProof. exact Hb.
      * apply hole_false.
    + intros ?. cbv beta. apply triple_exist. intros l2. apply triple_pure. apply Hgo.
  - apply triple_bind_ret. eapply triple_pre; [| by apply Hgo].
    rewrite static_owned_single; [| done]. by rewrite Es.
Qed.

(** *** All static fields *)

(** Where the iterator says that the count is. *)
Definition count_place (p : place) (a : Z) (sp : size_ptr) : Prop :=
  if is_repeated (p_field p) then count_ptr p a sp else sp = SizeAt (a + p_size p).

Lemma prepared_static p l :
  is_pointer (p_field p) = false -> is_oneof (p_field p) = false ->
  prepared p l = static_owned table rec false p l.
Proof. intros Hst Ho. unfold prepared, inactive. by rewrite Ho Hst. Qed.

Lemma active_not_oneof p l : is_oneof (p_field p) = false -> active p l.
Proof. intros Ho Ho'. congruence. Qed.

Lemma triple_decode_static wire_type i p a sp l G :
  layout (md_fields md) !! i = Some p -> lenB l = md_size md -> 0 < a ->
  is_pointer (p_field p) = false -> count_place p a sp ->
  triple (St:=St) n (a ↦ l ∗ prepared p l ∗ G)
    (decode_static_field (descs_of table) ext_types self_noinit self_decode fuel wire_type
       (set_pSize sp (iter_at (md_fields md) a i p)))
    (fun _ => n) (fun _ => decoded p a l G) (undecoded p a l G).
Proof.
  intros Hp Hl Ha Hst Hsp. pose proof (place_in table Htable md i p Hmd Hp) as Hok.
  unfold decode_static_field, count_place in *.
  change (cur (set_pSize sp (iter_at (md_fields md) a i p))) with (cur (iter_at (md_fields md) a i p)).
  rewrite (cur_iter_at _ a i p Hp). cbv zeta. cbn [pData pSize set_pSize iter_at].
  destruct (place_bounds table md p l Hok Hl) as (Hd & Hd' & Hs & Hs' & Hap & Hds & _).
  unfold is_repeated, is_oneof, is_htype in Hsp.
  destruct (htype_cases (f_type (p_field p))) as [Ht | [Ht | [Ht | Ht]]].
  - assert (is_repeated (p_field p) = false /\ is_oneof (p_field p) = false) as [Hr Ho]
      by (unfold is_repeated, is_oneof, is_htype; by rewrite Ht).
    rewrite Ht. cbn [Z.eqb PB_HTYPE_REQUIRED]. rewrite prepared_static; [| done..].
    eapply triple_left; [apply triple_static_one; try done; by apply active_not_oneof |].
    intros ?. cbv beta. lia.
  - assert (is_repeated (p_field p) = false /\ is_oneof (p_field p) = false) as [Hr Ho]
      by (unfold is_repeated, is_oneof, is_htype; by rewrite Ht).
    rewrite Ht in Hsp |- *. cbn in Hsp. subst sp.
    rewrite prepared_static; [| done..]. rewrite (size_is_data_at (md_fields md) a i p).
    apply triple_if; [done | intros _]. apply triple_if; [intros _ | done].
    apply (triple_left _ _ _ (fun _ => n - 1)); [| intros ?; lia].
    apply triple_if_bind; intros Hne.
    + apply negb_true_iff, Z.eqb_neq in Hne.
      assert (size_len p = 1) as Hsl by (apply (size_len_has p Hst); [by rewrite /is_htype Ht | done]).
      rewrite Hsl in Hs', Hap. unfold apart in Hap.
      cbn [set_has]. apply step_set; [done | simpl; lia |].
      assert (keeps p l (upd (p_size p) (bool_bytes true) l)) as Hk.
      { apply keeps_size; [done | by rewrite Hsl]. }
      eapply triple_pre; [| apply triple_static_one; try done; by apply active_not_oneof].
      rewrite !static_owned_single; [| done..].
      rewrite sub_upd_disj; [done | done | done | simpl; lia].
    + apply triple_bind_ret, triple_static_one; try done. by apply active_not_oneof.
  - assert (is_repeated (p_field p) = true /\ is_oneof (p_field p) = false) as [Hr Ho]
      by (unfold is_repeated, is_oneof, is_htype; by rewrite Ht).
    rewrite Ht in Hsp |- *. cbn in Hsp. rewrite prepared_static; [| done..].
    apply triple_if; [done | intros _]. apply triple_if; [done | intros _].
    apply triple_if; [intros _ | done]. apply triple_if; intros Hpk.
    + assert (is_sub (p_field p) = false) as Es.
      { apply andb_true_iff in Hpk as [_ Hlt]. apply Z.leb_le in Hlt. unfold PB_LTYPE_LAST_PACKABLE in Hlt.
        unfold is_sub, is_ltype. apply Z.eqb_neq. unfold PB_LTYPE_SUBMESSAGE. lia. }
      eapply triple_weaken; [by apply (triple_static_packed p a sp l Hok Hl Hst Hr Hsp i G) | | | | done].
      * unfold static_owned. rewrite Es. iIntros "(H1 & _ & H2)". iFrame.
      * intros ?. by apply scalar_decoded.
      * rewrite -decoded_undecoded. by apply scalar_decoded.
    + by apply triple_static_unpacked.
  - assert (is_repeated (p_field p) = false /\ is_oneof (p_field p) = true) as [Hr Ho]
      by (unfold is_repeated, is_oneof, is_htype; by rewrite Ht).
    rewrite Ht in Hsp |- *. cbn in Hsp. subst sp.
    apply triple_if; [done | intros _]. apply triple_if; [done | intros _].
    apply triple_if; [done | intros _]. apply triple_if; [intros _ | done].
    by apply triple_static_oneof.
Qed.
End Field.
