(* ===== verification/PbPointerSafe.v ===== *)
(** * Decoding a pointer field

    [decode_pointer_field] on a well-formed message: the blocks that it allocates are owned
    by the field when it returns, also when it fails. *)

From stdpp Require Import gmap.
From iris.proofmode Require Import proofmode.
From S2P Require Import Prelude PbStream PbWire PbSafe PbMem PbIter PbDecode PbLayout.
From S2P Require Import Sep Slice PbTriple PbOwned PbFields PbDefaults PbRelease PbScalars.
From S2P Require Import PbFieldSafe.

Section Pointer.
Context {St : Type} `{ReadCallback St} `{Allocator} {Bud : Budget}.
Context (table : list msg_desc) (Htable : table_ok table).
Context (ext_types : Z -> option pb_extension_type_t).
Context (self_noinit self_decode : list pb_field_t -> Z -> prog (dstate St) unit).
Context (n : Z) (N fuel R : nat).
Context (md : msg_desc) (Hmd : md ∈ table).
Context (IH_noinit : noinit_ok table n N self_noinit).
Context (IH_decode : decode_ok table n N self_decode).
Context (HR : forall md, md ∈ table -> (md_rank md <= R)%nat).
Context (Hbudget : entries_fit table budget).
Context (Hn : 0 <= n) (HN : Z.of_nat (R + 1) * (n + 1) <= Z.of_nat N) (Hfuel : (N < fuel)%nat).

Abbreviation decoders := (PB_DECODERS (descs_of table) self_noinit self_decode).
Abbreviation rec := (msg_owned table false N).
Abbreviation rec' := (msg_owned table true N).
Abbreviation decoded := (decoded table N md).
Abbreviation undecoded := (undecoded table N md).

Lemma sub_rank p md' :
  sub_desc table (p_field p) = Some md' -> (md_rank md' < N)%nat.
Proof. intros Ed. eapply (rank_lt table n N fuel R); [done.. | by eapply sub_desc_in]. Qed.

(** ** New entries *)

Definition initialized (p : place) (x : list byte) : Prop :=
  lenB x = f_data_size (p_field p) /\
  (is_text (p_field p) = true -> ptr_of 0 x = 0) /\
  forall md', sub_desc table (p_field p) = Some md' -> blank table false N md' x.

Lemma triple_initialize i p a it x F :
  layout (md_fields md) !! i = Some p -> lenB x = f_data_size (p_field p) -> 0 < it ->
  (is_text (p_field p) = true -> f_data_size (p_field p) = 8) ->
  triple (St:=St) n (it ↦ x ∗ F)
    (initialize_pointer_field (descs_of table) ext_types fuel it (iter_at (md_fields md) a i p))
    (fun _ => n) (fun _ => struct_at it (initialized p) (fun _ => F)) False.
Proof.
  intros Hp Hx Hit H8. pose proof (place_in table Htable md i p Hmd Hp) as Hok.
  unfold initialize_pointer_field. rewrite (cur_iter_at _ a i p Hp). cbv zeta.
  change ((PB_LTYPE (f_type (p_field p)) =? PB_LTYPE_STRING)
          || (PB_LTYPE (f_type (p_field p)) =? PB_LTYPE_BYTES)) with (is_text (p_field p)).
  change (PB_LTYPE (f_type (p_field p)) =? PB_LTYPE_SUBMESSAGE) with (is_sub (p_field p)).
  destruct (place_kind table md p Hok) as (_ & _ & Hs & _).
  destruct (is_text (p_field p)) eqn:Et.
  - rewrite -{2}(Z.add_0_r it). specialize (H8 eq_refl). apply last_set_ptr; [done | lia |].
    apply struct_intro; [| done]. split_and!; [by rewrite length_upd | |].
    + intros _. apply ptr_of_upd; lia.
    + intros md' Ed. rewrite Ed in Hs. pose proof (sub_not_text _ (proj1 Hs)). congruence.
  - destruct (is_sub (p_field p)) eqn:Es.
    + destruct (sub_field table md p Hok Es) as (id & md' & Ef & Ed & Edf & Hin & Hsz & _).
      pose proof (sub_rank p md' Ed) as Hrk.
      unfold memset_zero, set_to_defaults_of. rewrite Ef. cbn [message_defaults]. rewrite Edf.
      replace (set_bytes it) with (set_bytes (St:=St) (it + 0)) by (by rewrite Z.add_0_r).
      apply step_set; [done | rewrite repeat_length; lia |].
      eapply triple_post; [| apply (triple_set_to_defaults table Htable ext_types n fuel N md');
        [done | lia | lia | done | rewrite length_upd; lia]].
      intros ?. cbv beta. apply struct_mono; [| done]. intros y [Hy Hb].
      split_and!; [lia | congruence |]. intros md2 Ed2. rewrite Ed in Ed2. by injection Ed2 as <-.
    + apply triple_ret; [| done]. apply struct_intro; [| done]. split_and!; [done | congruence |].
      intros md' Ed. rewrite Ed in Hs. by destruct Hs.
Qed.

(** ** One value *)

Section Single.
Context (p : place) (a : Z) (l : list byte) (i : nat) (G : hprop).
Context (Hp : layout (md_fields md) !! i = Some p).
Context (Hok : place_ok table md p) (Hl : lenB l = md_size md) (Ha : 0 < a).
Context (Hptr : is_pointer (p_field p) = true) (Hr : is_repeated (p_field p) = false).

Abbreviation ds := (f_data_size (p_field p)).

(** The pointer is [NULL], or points to a block that owns nothing else. *)
Definition plain_pointer (l1 : list byte) : Prop :=
  lenB l1 = md_size md /\ keeps p l l1 /\
  (is_sub (p_field p) = true -> ptr_of (p_data p) l1 = 0).

Lemma slot_bounds : 0 <= p_data p /\ p_data p + 8 <= lenB l /\ 1 <= ds < 2 ^ 32.
Proof.
  destruct (place_bounds table md p l Hok Hl) as (Hd & Hd' & _ & _ & _ & Hds & _).
  by rewrite (data_len_pointer _ Hptr) in Hd'.
Qed.

(** An old submessage is released. *)
Lemma triple_release_old :
  (inactive p l = true -> ptr_of (p_data p) l = 0) ->
  triple (St:=St) n (a ↦ l ∗ prepared table N p l ∗ G)
    (if is_sub (p_field p) then
       q ← get_ptr (a + p_data p);
       if negb (q =? 0)
       then pb_release_single_field (descs_of table) ext_types fuel (iter_at (md_fields md) a i p)
       else mret tt
     else mret tt)
    (fun _ => n)
    (fun _ => struct_at a plain_pointer (fun l1 => opt_block (ptr_of (p_data p) l1) ∗ G)%I) False.
Proof.
  intros Hin. destruct slot_bounds as (Hd & Hd' & Hds).
  assert (prepared table N p l = if inactive p l then emp%I else pointer_owned table rec false p l) as Hprep.
  { unfold prepared. by rewrite Hptr. }
  destruct (is_sub (p_field p)) eqn:Es.
  - apply step_get_ptr; [done | done |]. destruct (Z.eqb_spec (ptr_of (p_data p) l) 0) as [E0 | E0]; cbn [negb].
    + apply triple_ret; [| done]. rewrite -(struct_intro a l (opt_block (ptr_of (p_data p) l) ∗ G) plain_pointer
        (fun l1 => opt_block (ptr_of (p_data p) l1) ∗ G)%I); [| by split_and! | done].
      rewrite Hprep. unfold opt_block, pointer_owned. rewrite E0 Hr. simpl.
      by destruct (inactive p l).
    + assert (active p l) as Hact.
      { intros Ho. destruct (decide (count_of p l = f_tag (p_field p))) as [? | Hc]; [done |].
        destruct E0. apply Hin. unfold inactive. by rewrite Ho (proj2 (Z.eqb_neq _ _) Hc). }
      eapply triple_weaken; [apply (triple_release_single table Htable ext_types n false fuel N md i p a l G); done
        | | | done | done].
      * rewrite Hprep field_owned_active; [| done]. rewrite Hptr. unfold inactive.
        destruct (is_oneof (p_field p)) eqn:Ho; [| done]. by rewrite (Hact Ho) Z.eqb_refl.
      * intros ?. cbv beta. iIntros "(%l1 & %Hrel & H1 & H2)".
        destruct Hrel as (Hl1 & Hch & _ & Hz). specialize (Hz Hptr Hact). iExists l1. iSplit.
        -- iPureIntro. split_and!; [done | | done]. by destruct Hch as [-> | [? _]].
        -- iFrame. unfold opt_block. by rewrite Hz.
  - apply triple_ret; [| done]. rewrite -(struct_intro a l (opt_block (ptr_of (p_data p) l) ∗ G) plain_pointer
      (fun l1 => opt_block (ptr_of (p_data p) l1) ∗ G)%I); [| split_and!; [done | apply keeps_refl | congruence] | done].
    rewrite Hprep. unfold opt_block, pointer_owned. destruct (inactive p l).
    + by rewrite Hin.
    + rewrite Hr Es. iIntros "(H1 & H2 & H3)". iFrame. destruct (_ =? 0); [done |].
      iDestruct "H2" as "(%b & H1 & _)". by iExists b.
Qed.

(** The field holds the pointer [q], or no block yet. *)
Lemma pointer_back lo l1 l2 q b F :
  plain_pointer l1 -> active p l1 -> l2 = upd (p_data p) (ptr_bytes q) l1 -> 0 < q < 2 ^ 64 ->
  lenB b = ds ->
  (F ⊢ if is_sub (p_field p) then sub_owned table (msg_owned table lo N) (p_field p) b else emp) ->
  a ↦ l2 ∗ block q b ∗ F ∗ G ⊢
  struct_at a (fits md p l) (fun l' => field_owned table (msg_owned table lo N) lo p l' ∗ G)%I.
Proof.
  intros (Hl1 & Hk1 & _) Hact -> Hq Hb HF. destruct slot_bounds as (Hd & Hd' & Hds).
  pose proof (data_len_pointer _ Hptr) as Hdl.
  assert (active p (upd (p_data p) (ptr_bytes q) l1)) as Hact2.
  { intros Ho. rewrite (count_kept table md p l1 _ Hok Hl1); [by apply Hact | | by left].
    by rewrite length_ptr_bytes Hdl. }
  rewrite HF. rewrite -(struct_intro a (upd (p_data p) (ptr_bytes q) l1)
    (field_owned table (msg_owned table lo N) lo p (upd (p_data p) (ptr_bytes q) l1) ∗ G)); [| | done].
  - iIntros "(H1 & H2 & H3 & H4)". iFrame "H1 H4". rewrite field_owned_active; [| done].
    rewrite Hptr. unfold pointer_owned. rewrite ptr_of_upd; [| lia | lia | lia].
    rewrite (proj2 (Z.eqb_neq q 0)); [| lia]. rewrite Hr. iExists b. iFrame "H2".
    destruct (is_sub (p_field p)); [by iSplit | done].
  - split_and!; [by rewrite length_upd | | done].
    eapply keeps_trans; [exact Hk1 |]. apply keeps_data; [lia | rewrite length_ptr_bytes; lia].
Qed.

Lemma no_pointer_back lo l1 :
  plain_pointer l1 -> active p l1 ->
  a ↦ l1 ∗ opt_block (ptr_of (p_data p) l1) ∗ G ⊢
  struct_at a (fits md p l) (fun l' => field_owned table (msg_owned table lo N) lo p l' ∗ G)%I.
Proof.
  intros (Hl1 & Hk1 & Hz) Hact. apply struct_intro; [by split_and! |]. apply bi.sep_mono_l.
  rewrite field_owned_active; [| done]. rewrite Hptr. unfold pointer_owned, opt_block. rewrite Hr.
  destruct (Z.eqb_spec (ptr_of (p_data p) l1) 0) as [E0 | E0]; [done |].
  iIntros "[%b H]". iExists b. iFrame. destruct (is_sub (p_field p)); [by destruct E0; auto | done].
Qed.

(** A string or bytes. *)
Lemma triple_pointer_text l1 :
  plain_pointer l1 -> active p l1 -> is_text (p_field p) = true ->
  triple (St:=St) n (a ↦ l1 ∗ opt_block (ptr_of (p_data p) l1) ∗ G)
    (decoders (p_field p) (a + p_data p)) (fun _ => n)
    (fun _ => decoded p a l G) (undecoded p a l G).
Proof.
  intros Hpl Hact Ht. pose proof Hpl as (Hl1 & Hk1 & _). destruct slot_bounds as (Hd & Hd' & Hds).
  assert (lenB (sub (p_data p) 8 l1) = 8) as Hx by (apply length_sub; lia).
  assert (ptr_of 0 (sub (p_data p) 8 l1) = ptr_of (p_data p) l1) as Hpo.
  { unfold ptr_of. rewrite sub_sub; [by rewrite Z.add_0_r | done | done | done]. }
  assert (slot_at (a + p_data p) G ∗ hole a (p_data p) 8 l1 ⊢ decoded p a l G) as Hback.
  { apply hole_struct; [done |]. intros x Hx'. set (l2 := upd (p_data p) x l1).
    assert (ptr_of (p_data p) l2 = ptr_of 0 x) as <-.
    { unfold ptr_of, l2. rewrite -Hx' sub_upd_same; [by rewrite sub_all | done | lia]. }
    apply (no_pointer_back false).
    - split_and!; [unfold l2; by rewrite length_upd | |].
      + eapply keeps_trans; [exact Hk1 |]. apply keeps_data; [lia | rewrite (data_len_pointer _ Hptr); lia].
      + intros Es. pose proof (sub_not_text _ Es). congruence.
    - intros Ho. unfold l2. rewrite (count_kept table md p l1 x Hok Hl1); [by apply Hact | | by left].
      by rewrite (data_len_pointer _ Hptr). }
  apply (triple_left _ _ _ (fun _ => n - 1)); [| intros ?; lia].
  rewrite -Hpo. eapply (triple_zoom _ _ (p_data p) 8); [done | done | lia | by apply decoders_fill | done |].
  by rewrite Hback decoded_undecoded.
Qed.

Definition value_owned lo (x : list byte) : hprop :=
  (if is_sub (p_field p) then sub_owned table (msg_owned table lo N) (p_field p) x else emp)%I.

Definition value_owned_at lo it F : hprop :=
  struct_at it (fun x => lenB x = ds) (fun x => value_owned lo x ∗ F)%I.

Lemma triple_decode_value it x F :
  is_text (p_field p) = false -> 0 < it -> initialized p x ->
  triple (St:=St) n (it ↦ x ∗ F) (decoders (p_field p) it) (fun _ => n - 1)
    (fun _ => value_owned_at false it F) (value_owned_at true it F).
Proof.
  intros Ht Hit (Hx & _ & Hsub). unfold value_owned_at, value_owned. destruct (is_sub (p_field p)) eqn:Es.
  - destruct (sub_field table md p Hok Es) as (id & md' & Ef & Ed & Edf & Hin & Hsz & _).
    specialize (Hsub md' Ed). unfold sub_owned. rewrite Ed.
    assert (forall lo, msg table lo N md' it ∗ F ⊢
      struct_at it (fun x => lenB x = ds) (fun x => msg_owned table lo N md' x ∗ F)%I) as Hmsg.
    { intros lo. iIntros "[(%y & %Hy & H1 & H2) H3]". iExists y. iSplit; [iPureIntro; lia |]. iFrame. }
    eapply triple_weaken; [apply (decoders_sub_single table self_noinit self_decode n N md IH_noinit p md' it F);
      done | | intros ?; apply Hmsg | apply Hmsg | done].
    rewrite -msg_blank. by apply struct_intro.
  - eapply triple_weaken; [apply (decoders_write table self_noinit self_decode md n p it x); try done;
      by rewrite Ht | done | | | done].
    + intros ?. apply struct_mono; [intros y Hy; lia |]. intros y _. by rewrite left_id.
    + apply struct_mono; [intros y Hy; lia |]. intros y _. by rewrite left_id.
Qed.

(** A new block for a number or a submessage. *)
Lemma triple_pointer_alloc l1 :
  plain_pointer l1 -> active p l1 -> is_text (p_field p) = false ->
  triple (St:=St) n (a ↦ l1 ∗ opt_block (ptr_of (p_data p) l1) ∗ G)
    (_ ← allocate_at (a + p_data p) ds 1;
     q ← get_ptr (a + p_data p);
     _ ← initialize_pointer_field (descs_of table) ext_types fuel q (iter_at (md_fields md) a i p);
     q ← get_ptr (a + p_data p);
     decoders (p_field p) q) (fun _ => n)
    (fun _ => decoded p a l G) (undecoded p a l G).
Proof.
  intros Hpl Hact Ht. pose proof Hpl as (Hl1 & Hk1 & Hz). destruct slot_bounds as (Hd & Hd' & Hds).
  eapply (triple_seq _ _ _ _ (fun _ => ∃ q b, ⌜0 < q < 2 ^ 64 /\ lenB b = ds⌝ ∧
            a ↦ upd (p_data p) (ptr_bytes q) l1 ∗ (q ↦ b ∗ blk q (lenB b) ∗ G))%I).
  - apply (triple_pre _ _ (∃ b, a ↦ l1 ∗ own_ptr (ptr_of (p_data p) l1) b ∗ G)%I).
    { unfold opt_block, own_ptr. iIntros "(H1 & H2 & H3)". destruct (_ =? 0).
      - iExists []. iFrame. done.
      - iDestruct "H2" as "[%b H2]". iExists b. iFrame. }
    apply triple_exist. intros b.
    eapply triple_weaken; [apply (triple_allocate _ a (p_data p) ds 1 l1 b G); lia | done | | | done].
    + intros ?. cbv beta. iIntros "(%q & %b' & [%Hq %Hg] & H1 & [H2 H3] & H4)". iExists q, b'.
      destruct Hg as [Hg _]. iSplit; [iPureIntro; split; [done | lia] |]. iFrame.
    + unfold undecoded. rewrite -(no_pointer_back true l1 Hpl Hact). unfold opt_block, own_ptr.
      iIntros "(H1 & H2 & H3)". iFrame. destruct (_ =? 0); [by iDestruct "H2" as "[_ $]" | by iExists b].
  - intros ?. cbv beta. apply triple_exist. intros q. apply triple_exist. intros b.
    apply triple_pure. intros [Hq Hb]. set (l2 := upd (p_data p) (ptr_bytes q) l1).
    assert (lenB l2 = lenB l1) as Hl2 by (unfold l2; by rewrite length_upd).
    assert (ptr_of (p_data p) l2 = q) as Hp2 by (apply ptr_of_upd; lia).
    apply step_get_ptr; [lia | lia |]. rewrite Hp2.
    apply (triple_left _ _ _ (fun _ => n - 1)); [| intros ?; lia].
    eapply (triple_seq _ _ _ _ (fun _ => struct_at q (initialized p) (fun _ => a ↦ l2 ∗ blk q (lenB b) ∗ G))%I).
    { eapply triple_weaken; [apply (triple_initialize i p a q b (a ↦ l2 ∗ blk q (lenB b) ∗ G)%I);
          [done | done | lia | congruence]
        | | done | | done].
      - iIntros "(H1 & H2 & H3 & H4)". iFrame.
      - iIntros "[]". }
    intros ?. cbv beta. apply triple_struct. intros x Hini.
    apply (triple_pre _ _ (a ↦ l2 ∗ (q ↦ x ∗ blk q (lenB b) ∗ G))%I).
    { iIntros "(H1 & H2 & H3 & H4)". iFrame. }
    apply step_get_ptr; [lia | lia |]. rewrite Hp2.
    eapply triple_weaken; [apply (triple_decode_value q x (a ↦ l2 ∗ blk q (lenB b) ∗ G)%I); [done | lia | exact Hini]
      | | | | done].
    + iIntros "(H1 & H2 & H3 & H4)". iFrame.
    + intros ?. cbv beta. iIntros "(%x' & %Hx' & H1 & H2 & H3 & H4 & H5)".
      unfold decoded. rewrite -(pointer_back false l1 l2 q x' (value_owned false x') Hpl Hact); try done.
      iFrame. unfold block. rewrite Hb Hx'. iFrame.
    + iIntros "(%x' & %Hx' & H1 & H2 & H3 & H4 & H5)".
      unfold undecoded. rewrite -(pointer_back true l1 l2 q x' (value_owned true x') Hpl Hact); try done.
      iFrame. unfold block. rewrite Hb Hx'. iFrame.
Qed.
End Single.

(** ** Arrays *)

Section Array.
Context (p : place) (a : Z) (l : list byte) (i : nat) (G : hprop).
Context (Hp : layout (md_fields md) !! i = Some p).
Context (Hok : place_ok table md p) (Hl : lenB l = md_size md) (Ha : 0 < a).
Context (Hptr : is_pointer (p_field p) = true) (Hr : is_repeated (p_field p) = true).

Abbreviation ds := (f_data_size (p_field p)).

Lemma pointer_bounds :
  0 <= p_data p /\ p_data p + 8 <= lenB l /\ 1 <= ds < 2 ^ 32 /\
  0 <= p_size p /\ p_size p + 4 <= lenB l /\ apart (p_data p) 8 (p_size p) 4.
Proof.
  destruct (place_bounds table md p l Hok Hl) as (Hd & Hd' & Hs & Hs' & Hap & Hds & _).
  rewrite (data_len_pointer _ Hptr) in Hd', Hap.
  rewrite (pointer_size_len table md p Hok Hptr Hr) in Hs', Hap. tauto.
Qed.

Lemma pointer_active l' : active p l'.
Proof. intros Ho. pose proof (oneof_not_repeated _ Ho). congruence. Qed.

Definition elem lo (x : list byte) : hprop :=
  elem_owned table (msg_owned table lo N) (p_field p) x.

(** The block of the array and what its entries own. *)
Definition array_owned lo (q c : Z) : hprop :=
  (∃ b, own_ptr q b ∗ (⌜c * ds <= lenB b⌝ ∧ (tally lo (p_field p) c ∗ items (Z.to_nat c) ds (elem lo) b)))%I.

Lemma pointer_array lo l1 :
  pointer_owned table (msg_owned table lo N) lo p l1
  ⊣⊢ array_owned lo (ptr_of (p_data p) l1) (count_of p l1).
Proof.
  pose proof (size_of_range (p_size p) l1) as Hc. fold (count_of p l1) in Hc.
  destruct pointer_bounds as (_ & _ & Hds & _). unfold pointer_owned, array_owned, own_ptr. rewrite Hr.
  destruct (_ =? 0).
  - iSplit.
    + iIntros "[%H1 _]". iExists []. rewrite H1 -tally_0 left_id.
      change (Z.to_nat 0) with 0%nat. rewrite items_0. iSplitL; by iSplit.
    + iIntros "(%b & [-> _] & H)". rewrite tally_emp left_id. iDestruct "H" as "[%Hb H]". simpl in Hb.
      assert (count_of p l1 = 0) as -> by nia.
      change (Z.to_nat 0) with 0%nat. rewrite items_0. by iSplit.
  - iSplit; iIntros "(%b & H1 & H2)"; iExists b; iFrame.
Qed.

(** The struct and its array, when the count is [c] and the pointer [q]. *)
Lemma array_back lo l2 q c F :
  fits md p l l2 -> ptr_of (p_data p) l2 = q -> count_of p l2 = c -> (F ⊢ array_owned lo q c) ->
  a ↦ l2 ∗ F ∗ G ⊢
  struct_at a (fits md p l) (fun l' => field_owned table (msg_owned table lo N) lo p l' ∗ G)%I.
Proof.
  intros Hf Hq Hc HF. apply struct_intro; [done |]. apply bi.sep_mono_l.
  rewrite field_owned_active; [| apply pointer_active]. rewrite Hptr pointer_array Hq Hc. exact HF.
Qed.

(** A new pointer and a new count. *)
Lemma array_set q c :
  0 < q < 2 ^ 64 -> 0 <= c < 2 ^ 32 ->
  let l1 := upd (p_data p) (ptr_bytes q) l in
  let l2 := upd (p_size p) (size_bytes c) l1 in
  lenB l1 = lenB l /\ fits md p l l1 /\ fits md p l l2 /\ ptr_of (p_data p) l1 = q /\
  count_of p l1 = count_of p l /\ ptr_of (p_data p) l2 = q /\ count_of p l2 = c.
Proof.
  intros Hq Hc l1 l2. destruct pointer_bounds as (Hd & Hd' & Hds & Hs & Hs' & Hap). unfold apart in Hap.
  assert (lenB l1 = lenB l) as Hl1 by (unfold l1; by rewrite length_upd).
  assert (lenB l2 = lenB l) as Hl2 by (unfold l2; by rewrite length_upd).
  assert (keeps p l l1) as Hk1.
  { apply keeps_data; [lia |]. rewrite (data_len_pointer _ Hptr) length_ptr_bytes. lia. }
  assert (keeps p l l2) as Hk2.
  { eapply keeps_trans; [exact Hk1 |]. apply keeps_size; [lia |].
    rewrite (pointer_size_len table md p Hok Hptr Hr) length_size_bytes. lia. }
  split_and!; try done.
  - split_and!; [lia | done | apply pointer_active].
  - split_and!; [lia | done | apply pointer_active].
  - apply ptr_of_upd; lia.
  - unfold count_of, size_of. apply f_equal. apply sub_upd_disj; [lia | lia |].
    rewrite length_ptr_bytes. lia.
  - unfold ptr_of. rewrite sub_upd_disj; [| lia | lia | rewrite length_size_bytes; lia].
    change (ptr_of (p_data p) l1 = q). apply ptr_of_upd; lia.
  - apply size_of_upd; lia.
Qed.

(** The entries of a block that has grown. *)
Lemma items_grown k m (F : list byte -> hprop) (b b' : list byte) :
  grown b b' (m * ds) -> (k <= Z.to_nat m)%nat -> Z.of_nat k * ds <= lenB b ->
  items k ds F b' ⊣⊢ items k ds F b.
Proof.
  intros (Hb' & Hsame) Hk Hb. destruct pointer_bounds as (_ & _ & Hds & _).
  apply big_sepL_proper. intros j y [-> Hj]%lookup_seq.
  assert (sub (Z.of_nat (0 + j) * ds) ds b' = sub (Z.of_nat (0 + j) * ds) ds b) as ->; [| done].
  apply list_eq. intros x. rewrite !lookup_sub; [| nia..]. case_decide; [| done]. apply Hsame; nia.
Qed.

Lemma text_size : is_text (p_field p) = true -> ds = 8.
Proof. intros Ht. pose proof Hok as (_&_&_&_&_&_&_&_&_&_&_&_&_&_&_&_&H8). by apply H8. Qed.

Definition elem_at lo it F : hprop :=
  struct_at it (fun x => lenB x = ds) (fun x => elem lo x ∗ F)%I.

Lemma triple_array_entry it x F :
  0 < it -> initialized p x ->
  triple (St:=St) n (it ↦ x ∗ F) (decoders (p_field p) it) (fun _ => n - 1)
    (fun _ => elem_at false it F) (elem_at true it F).
Proof.
  intros Hit (Hx & Htx & Hsub). unfold elem_at, elem, elem_owned.
  destruct (is_sub (p_field p)) eqn:Es; [| destruct (is_text (p_field p)) eqn:Et].
  - destruct (sub_field table md p Hok Es) as (id & md' & Ef & Ed & Edf & Hin & Hsz & _).
    destruct (Hsub md' Ed) as [Hx' Hb]. unfold sub_owned. rewrite Ed.
    assert (forall lo, msg table lo N md' it ∗ F ⊢
      struct_at it (fun x => lenB x = ds) (fun x => msg_owned table lo N md' x ∗ F)%I) as Hmsg.
    { intros lo. iIntros "[(%y & %Hy & H1 & H2) H3]". iExists y. iSplit; [iPureIntro; lia |]. iFrame. }
    eapply triple_weaken; [apply (decoders_sub_repeated table self_noinit self_decode n N md IH_decode p md' it x F);
      try done | done | intros ?; apply Hmsg | apply Hmsg | done].
    split; [done |]. by rewrite Hb msg_owned_loose.
  - specialize (Htx eq_refl). pose proof (text_size Et) as H8.
    eapply triple_weaken; [apply (decoders_fill table self_noinit self_decode n p it x Et Hptr ltac:(lia) F)
      | | | | done].
    + rewrite Htx. iIntros "[H1 H2]". by iFrame.
    + intros ?. apply struct_mono; [intros y Hy; lia | done].
    + apply struct_mono; [intros y Hy; lia | done].
  - eapply triple_weaken; [apply (decoders_write table self_noinit self_decode md n p it x); try done;
      by rewrite Et | done | | | done].
    + intros ?. apply struct_mono; [intros y Hy; lia |]. intros y _. by rewrite left_id.
    + apply struct_mono; [intros y Hy; lia |]. intros y _. by rewrite left_id.
Qed.

(** Space for [m] entries. *)
Lemma triple_array_alloc k l1 c m F :
  lenB l1 = lenB l -> 0 <= c <= m -> m < 2 ^ 32 ->
  triple (St:=St) k (a ↦ l1 ∗ array_owned false (ptr_of (p_data p) l1) c ∗ F)
    (allocate_at (a + p_data p) ds m) (fun _ => k)
    (fun _ => ∃ q b, ⌜0 < q < 2 ^ 64 /\ lenB b = (m * ds)%Z⌝ ∧
       a ↦ upd (p_data p) (ptr_bytes q) l1 ∗
       (q ↦ b ∗ (blk q (lenB b) ∗ (tally false (p_field p) c ∗ items (Z.to_nat c) ds (elem false) b) ∗ F)))%I
    (a ↦ l1 ∗ array_owned false (ptr_of (p_data p) l1) c ∗ F).
Proof.
  intros Hl1 Hc Hm. destruct pointer_bounds as (Hd & Hd' & Hds & Hs & Hs' & Hap).
  eapply (triple_pre _ _ (∃ b, ⌜_⌝ ∧ (a ↦ l1 ∗ own_ptr _ b ∗
    ((tally false (p_field p) c ∗ items (Z.to_nat c) ds (elem false) b) ∗ F)))%I).
  { iIntros "(H1 & (%b & H2 & [%Hb H3]) & H4)". iExists b. iSplit; [iPureIntro; exact Hb | iFrame]. }
  apply triple_exist. intros b. apply triple_pure. intros Hb.
  eapply triple_weaken; [apply (triple_allocate k a (p_data p) ds m l1 b); lia | done | | | done].
  - intros ?. cbv beta. iIntros "(%q & %b' & [%Hq %Hg] & H1 & [H2 H3] & [H4 H5] & H6)".
    pose proof Hg as (Hlen & _). iExists q, b'. iSplit; [done |]. iFrame.
    rewrite (items_grown _ m _ b b' Hg); [done | lia | lia].
  - iIntros "(H1 & H2 & H3 & H4)". iFrame "H1 H4". iExists b. iFrame "H2". by iSplit.
Qed.

Lemma elem_loose k b : items k ds (elem false) b ⊢ items k ds (elem true) b.
Proof.
  apply big_sepL_mono. intros j y _. unfold elem, elem_owned, sub_owned.
  destruct (is_sub (p_field p)); [| done].
  destruct (sub_desc table (p_field p)); [apply msg_owned_loose | done].
Qed.

(** The entry after those in use. *)
Lemma entry_fill lo q b k F :
  Z.of_nat (S k) * ds <= lenB b ->
  elem_at lo (q + Z.of_nat k * ds) (items k ds (elem lo) b ∗ F) ∗ hole q (Z.of_nat k * ds) ds b
  ⊢ struct_at q (fun b' => lenB b' = lenB b) (fun b' => items (S k) ds (elem lo) b' ∗ F)%I.
Proof.
  intros Hb. destruct pointer_bounds as (_ & _ & Hds & _).
  apply hole_struct; [done |]. intros x Hx. iIntros "(H1 & H2 & H3 & H4)".
  iExists (upd (Z.of_nat k * ds) x b). iFrame "H1 H4". iSplit; [iPureIntro; by rewrite length_upd |].
  rewrite items_S. iSplitL "H3".
  - change (items ?k ds ?F ?b) with (items_from 0 k ds F b). rewrite items_upd; [done | lia | done | lia].
  - pose proof (sub_upd_same (Z.of_nat k * ds) x b) as Hsame. rewrite Hx in Hsame.
    rewrite Hsame; [done | lia | lia].
Qed.

Lemma triple_array_item q b k F :
  0 < q -> Z.of_nat (S k) * ds <= lenB b ->
  let item := q + Z.of_nat k * ds in
  triple (St:=St) n (q ↦ b ∗ items k ds (elem false) b ∗ F)
    (_ ← initialize_pointer_field (descs_of table) ext_types fuel item (iter_at (md_fields md) a i p);
     decoders (p_field p) item) (fun _ => n - 1)
    (fun _ => struct_at q (fun b' => lenB b' = lenB b) (fun b' => items (S k) ds (elem false) b' ∗ F)%I)
    (struct_at q (fun b' => lenB b' = lenB b) (fun b' => items (S k) ds (elem true) b' ∗ F)%I).
Proof.
  intros Hq Hb item. destruct pointer_bounds as (_ & _ & Hds & _).
  eapply (triple_zoom _ _ (Z.of_nat k * ds) ds); [lia | lia | lia | | |].
  - eapply triple_seq.
    + eapply triple_err; [| apply (triple_initialize i p a _ _ (items k ds (elem false) b ∗ F)%I);
        [done | apply length_sub; lia | lia | apply text_size]].
      iIntros "[]".
    + intros ?. cbv beta. apply triple_struct. intros x Hx. apply triple_array_entry; [lia | done].
  - intros ?. by apply entry_fill.
  - rewrite -(entry_fill true q b k F Hb). apply bi.sep_mono_l. apply struct_mono; [done |].
    intros x _. by rewrite elem_loose.
Qed.

(** *** Packed arrays *)

Section Packed.
Context (Es : is_sub (p_field p) = false) (Et : is_text (p_field p) = false).

(** Space for [m] entries. *)
Definition room (q m : Z) : hprop := (∃ b, ⌜m * ds <= lenB b⌝ ∧ own_ptr q b)%I.

Lemma items_plain lo k b : items k ds (elem lo) b ⊣⊢ emp.
Proof. unfold items, elem, elem_owned. rewrite Es Et. by rewrite big_sepL_emp. Qed.

Lemma array_room lo q c : array_owned lo q c ⊣⊢ room q c.
Proof.
  unfold array_owned, room. apply bi.exist_proper. intros b.
  rewrite items_plain tally_plain; [| by unfold owning_entries; rewrite Es Et]. rewrite left_id.
  iSplit; [iIntros "[$ [% _]]"; by iPureIntro | iIntros "[% $]"; by iSplit].
Qed.

Lemma array_room_le q c m : c <= m -> room q m ⊢ room q c.
Proof.
  intros Hc. destruct pointer_bounds as (_ & _ & Hds & _).
  iIntros "(%b & %Hb & H)". iExists b. iFrame. iPureIntro. nia.
Qed.

(** The struct with [c] entries in space for [m]. *)
Definition packing (c m : Z) (l1 : list byte) : Prop :=
  fits md p l l1 /\ count_of p l1 = c /\ 0 <= c <= m /\ m < 2 ^ 32.

Lemma packing_decoded c m l1 :
  packing c m l1 -> a ↦ l1 ∗ room (ptr_of (p_data p) l1) m ∗ G ⊢ decoded p a l G.
Proof.
  intros (Hf & Hc & Hcm & _). rewrite (array_room_le _ c); [| lia].
  apply (array_back false l1 (ptr_of (p_data p) l1) c); try done. by rewrite array_room.
Qed.

(** The new size: for all that can be left, if the count allows that. *)
Definition new_size (left allocated : Z) : Z :=
  let remain := (left - 1) / ds + 1 in
  if remain <? u64 (PB_SIZE_MAX - allocated) then u64 (allocated + remain) else u64 (allocated + 1).

Lemma new_size_bounds left m :
  0 < left < 2 ^ 64 -> 0 <= m < PB_SIZE_MAX -> m < new_size left m < 2 ^ 32.
Proof.
  intros Hleft Hm. unfold new_size, PB_SIZE_MAX in *. cbv zeta.
  destruct pointer_bounds as (_ & _ & Hds & _).
  assert (0 <= (left - 1) / ds) by (apply Z.div_pos; lia).
  rewrite (wrap_small _ (2 ^ 32 - 1 - m)); [| lia].
  destruct (Z.ltb_spec ((left - 1) / ds + 1) (2 ^ 32 - 1 - m)); rewrite wrap_small; lia.
Qed.

Lemma triple_packing_alloc k l1 c m m' :
  packing c m l1 -> m < m' < 2 ^ 32 ->
  triple (St:=St) k (a ↦ l1 ∗ room (ptr_of (p_data p) l1) m ∗ G)
    (try_ (allocate_at (a + p_data p) ds m')) (fun _ => k)
    (fun r => ∃ l2 m2, ⌜packing c m2 l2 /\ (is_Some r -> m2 = m')⌝ ∧
        (a ↦ l2 ∗ room (ptr_of (p_data p) l2) m2 ∗ G))%I False.
Proof.
  intros Hpk Hm'. pose proof Hpk as (Hf & Hc & Hcm & Hm). pose proof (proj1 Hf) as Hl1.
  destruct pointer_bounds as (Hd & Hd' & Hds & Hs & Hs' & Hap).
  eapply triple_try_same.
  - eapply triple_pre; [| apply (triple_array_alloc k l1 m m' G); lia]. by rewrite array_room.
  - intros ?. cbv beta. iIntros "(%q & %b & (%Hq & %Hb) & H1 & H2 & H3 & H4 & H5)".
    iExists (upd (p_data p) (ptr_bytes q) l1), m'. iSplit.
    + iPureIntro. split; [| done]. destruct Hf as (_ & Hk & _). split_and!.
      * split_and!; [rewrite length_upd; lia | | apply pointer_active].
        eapply keeps_trans; [exact Hk |]. apply keeps_data; [lia |].
        rewrite (data_len_pointer _ Hptr) length_ptr_bytes. lia.
      * rewrite -Hc. apply (count_kept table md); [done | lia | | right; split; [done |]].
        -- by rewrite (data_len_pointer _ Hptr) length_ptr_bytes.
        -- intros He. destruct (place_kind table md p Hok) as (_ & _ & _ & _ & Hfix).
           destruct (Hfix Hr He). congruence.
      * lia.
      * lia.
      * lia.
    + rewrite items_plain tally_emp left_id. iDestruct "H4" as "_". rewrite ptr_of_upd; [| lia | lia | lia].
      iFrame "H1 H5". iExists b. iSplit; [iPureIntro; lia |]. unfold own_ptr, block.
      rewrite (proj2 (Z.eqb_neq q 0)); [| lia]. iFrame.
  - rewrite array_room. iIntros "H". iExists l1, m. iSplit; [| done].
    iPureIntro. split; [done | by intros []].
Qed.

(** The offset of an entry is computed in 32 bits, and may wrap: it is not greater. *)
Lemma entry_offset c : 0 <= c -> 0 <= u32 (ds * c) <= c * ds.
Proof.
  intros Hc. destruct pointer_bounds as (_ & _ & Hds & _). unfold u32.
  pose proof (Z.mod_le (ds * c) (2 ^ 32) ltac:(nia) ltac:(lia)).
  pose proof (Z.mod_pos_bound (ds * c) (2 ^ 32) ltac:(lia)). lia.
Qed.

(** An entry is written to a place in the block. *)
Lemma triple_plain_entry k q o m F :
  0 < q -> 0 <= o -> o + ds <= m * ds ->
  triple (St:=St) k (room q m ∗ F) (decoders (p_field p) (q + o)) (fun _ => k - 1)
    (fun _ => room q m ∗ F)%I (room q m ∗ F).
Proof.
  intros Hq Ho Hom. destruct pointer_bounds as (_ & _ & Hds & _). unfold room, own_ptr.
  rewrite (proj2 (Z.eqb_neq q 0)); [| lia].
  eapply (triple_pre _ _ (∃ b, ⌜_⌝ ∧ (q ↦ b ∗ (blk q (lenB b) ∗ F)))%I).
  { iIntros "[(%b & %Hb & [H1 H2]) H3]". iExists b. iSplit; [iPureIntro; exact Hb | iFrame]. }
  apply triple_exist. intros b. apply triple_pure. intros Hb.
  assert (struct_at (q + o) (fun x' => length x' = length (sub o ds b))
            (fun _ => blk q (lenB b) ∗ F)%I ∗ hole q o ds b
          ⊢ (∃ b, ⌜m * ds <= lenB b⌝ ∧ block q b) ∗ F) as Hback.
  { apply hole_struct; [intros x Hx; rewrite Hx; apply length_sub; lia |].
    intros x Hx. iIntros "(H1 & H2 & H3)". iFrame "H3". iExists (upd o x b).
    unfold block. rewrite length_upd. iFrame. by iPureIntro. }
  eapply (triple_zoom _ _ o ds); [lia | lia | lia | | intros ?; apply Hback | apply Hback].
  apply (decoders_write table self_noinit self_decode md k p); try done; [by rewrite Et |].
  apply length_sub; lia.
Qed.

Lemma room_pos q c m : 0 <= q -> 0 <= c < m -> room q m ⊢ ⌜0 < q⌝.
Proof.
  intros Hq Hc. destruct pointer_bounds as (_ & _ & Hds & _). unfold room, own_ptr.
  iIntros "(%b & %Hb & H)". destruct (Z.eqb_spec q 0) as [-> |]; [| iPureIntro; lia].
  iDestruct "H" as "[-> _]". simpl in Hb. nia.
Qed.

Lemma initialize_plain it :
  initialize_pointer_field (descs_of table) ext_types fuel it (iter_at (md_fields md) a i p)
  = mret (M:=prog (dstate St)) tt.
Proof.
  unfold initialize_pointer_field. rewrite (cur_iter_at _ a i p Hp). cbv zeta.
  change ((PB_LTYPE (f_type (p_field p)) =? PB_LTYPE_STRING)
          || (PB_LTYPE (f_type (p_field p)) =? PB_LTYPE_BYTES)) with (is_text (p_field p)).
  change (PB_LTYPE (f_type (p_field p)) =? PB_LTYPE_SUBMESSAGE) with (is_sub (p_field p)).
  by rewrite Et Es.
Qed.

Lemma packing_more c m l1 :
  packing c m l1 -> c < m ->
  let l2 := upd (p_size p) (size_bytes (c + 1)) l1 in
  packing (c + 1) m l2 /\ ptr_of (p_data p) l2 = ptr_of (p_data p) l1.
Proof.
  intros ((Hl1 & Hk & _) & Hc & Hcm & Hm) Hlt l2.
  destruct pointer_bounds as (Hd & Hd' & Hds & Hs & Hs' & Hap). unfold apart in Hap. split.
  - split_and!; [split_and! | | lia | lia | done].
    + unfold l2. rewrite length_upd. lia.
    + eapply keeps_trans; [exact Hk |]. apply keeps_size; [lia |].
      rewrite (pointer_size_len table md p Hok Hptr Hr) length_size_bytes. lia.
    + apply pointer_active.
    + apply size_of_upd; lia.
  - unfold ptr_of, l2. rewrite sub_upd_disj; [done | lia | lia | rewrite length_size_bytes; lia].
Qed.

Lemma triple_packed_pointer k j l1 c m :
  packing c m l1 -> j <= Z.of_nat k ->
  triple (St:=St) j (a ↦ l1 ∗ room (ptr_of (p_data p) l1) m ∗ G)
    (packed_pointer_loop (descs_of table) ext_types self_noinit self_decode fuel k m
       (iter_at (md_fields md) a i p))
    (fun _ => j) (fun _ => decoded p a l G) False.
Proof.
  revert j l1 c m. induction k as [| k IH]; intros j l1 c m Hpk Hj; cbn [packed_pointer_loop];
    apply triple_getS_range; intros s0 Hs0 H64;
    (apply (triple_left _ _ _ (fun _ => bytes_left (d_in s0))); [| intros ?; lia]);
    (destruct (Z.eqb_spec (bytes_left (d_in s0)) 0) as [E0 | E0];
      [apply triple_ret; [by apply (packing_decoded c m) | done] |]); [lia |].
  rewrite (cur_iter_at _ a i p Hp).
  pose proof Hpk as (Hf & Hc & Hcm & Hm). pose proof (proj1 Hf) as Hl1.
  destruct pointer_bounds as (Hd & Hd' & Hds & Hs & Hs' & Hap).
  apply step_get_count; [lia | lia |]. fold (count_of p l1). rewrite Hc.
  apply triple_if; intros Hmax; [apply triple_ret; [by apply (packing_decoded c m) | done] |].
  apply Z.eqb_neq in Hmax. set (bl := bytes_left (d_in s0)) in *.
  eapply (triple_seq _ _ _ _ (fun r => ∃ l2 m2, ⌜packing c m2 l2 /\ (forall x, r = Some x -> x = m2 /\ c < m2)⌝ ∧
            (a ↦ l2 ∗ room (ptr_of (p_data p) l2) m2 ∗ G))%I).
  { apply triple_if; intros Hlt.
    - apply Z.ltb_lt in Hlt. rewrite (proj2 (Z.eqb_neq ds 0)); [| lia].
      change (if _ <? _ then _ else _) with (new_size bl m).
      destruct (new_size_bounds bl m) as [Hgt Hnew]; [lia | unfold PB_SIZE_MAX in *; lia |].
      eapply triple_seq; [by apply (triple_packing_alloc bl l1 c m (new_size bl m)) |].
      intros r. cbv beta. apply triple_ret; [| done].
      iIntros "(%l2 & %m2 & [%Hpk2 %Hm2] & H)". iExists l2, m2. iSplit; [| done].
      iPureIntro. split; [done |]. intros x. destruct r; [| done]. simpl. intros [= <-].
      specialize (Hm2 ltac:(eauto)). lia.
    - apply Z.ltb_ge in Hlt. apply triple_ret; [| done]. iIntros "H". iExists l1, m.
      iSplit; [| done]. iPureIntro. split; [done |]. intros x [= <-]. lia. }
  intros r. cbv beta. apply triple_exist. intros l2. apply triple_exist. intros m2.
  apply triple_pure. intros [Hpk2 Hr2].
  destruct r as [m3 |]; [| apply triple_ret; [by apply (packing_decoded c m2) | done]].
  destruct (Hr2 m3 eq_refl) as [-> Hlt]. pose proof Hpk2 as (Hf2 & Hc2 & Hcm2 & Hm2).
  pose proof (proj1 Hf2) as Hl2. set (q := ptr_of (p_data p) l2) in *.
  pose proof (le_value_range (sub (p_data p) 8 l2)) as Hq0. change (le_value _) with q in Hq0.
  apply (triple_fact _ (0 < q)).
  { rewrite (room_pos q c m2); [| lia | lia]. iIntros "(H1 & H & H2)".
    iDestruct "H" as %Hx. by iPureIntro. }
  intros Hq. cbn [pData iter_at]. apply step_get_ptr; [lia | lia |]. fold q. cbv zeta.
  unfold item_at. pose proof (entry_offset c ltac:(lia)) as Hoff.
  rewrite (proj2 (Z.eqb_neq _ 0)); [| lia].
  rewrite initialize_plain. apply triple_bind_ret.
  eapply (triple_bind _ (fun r => match r with Some _ => bl - 1 | None => bl end) _ _ _
    (fun _ => a ↦ l2 ∗ room q m2 ∗ G)%I).
  - apply (triple_pre _ _ (room q m2 ∗ (a ↦ l2 ∗ G))%I); [iIntros "(H1 & H2 & H3)"; iFrame |].
    eapply (triple_try _ _ _ (fun _ => bl - 1)); [apply (triple_plain_entry bl q (u32 (ds * c)) m2); [done | lia | nia] | |].
    + intros ?. iIntros "(H1 & H2 & H3)". iFrame.
    + iIntros "(H1 & H2 & H3)". iFrame.
  - intros [r |]; lia.
  - intros [r |]; [| apply triple_ret; [by apply (packing_decoded c m2) | done]].
    cbn [pSize iter_at]. apply step_get_count; [lia | lia |]. fold (count_of p l2). rewrite Hc2.
    unfold PB_SIZE_MAX in *. rewrite wrap_small; [| lia]. apply step_set_count; [lia | lia |].
    destruct (packing_more c m2 l2 Hpk2 Hlt) as [Hpk3 Hq3]. fold q in Hq3. rewrite -Hq3.
    eapply triple_left; [apply (IH _ _ (c + 1) m2 Hpk3); lia | intros ?; cbv beta; lia].
Qed.

Lemma triple_pointer_packed :
  triple (St:=St) n (a ↦ l ∗ pointer_owned table rec false p l ∗ G)
    (allocated_size ← get_count (SizeAt (a + p_size p));
     substream ← lift pb_make_string_substream;
     '(r, substream) ← on_substream substream
       (packed_pointer_loop (descs_of table) ext_types self_noinit self_decode fuel
          (Z.to_nat (bytes_left substream)) allocated_size (iter_at (md_fields md) a i p));
     _ ← (match r with
          | Some PackedTooMany =>
              modifyS (fun s => set_in (mk_istream (i_src (d_in s)) (bytes_left (d_in s))
                                          (Some "too many array entries"%string)) s)
          | _ => mret tt
          end);
     close_with (match r with Some PackedDone => Some tt | _ => None end, substream))
    (fun _ => n) (fun _ => decoded p a l G) (undecoded p a l G).
Proof.
  destruct pointer_bounds as (Hd & Hd' & Hds & Hs & Hs' & Hap).
  apply step_get_count; [lia | lia |]. fold (count_of p l).
  pose proof (size_of_range (p_size p) l) as Hc. fold (count_of p l) in Hc. set (c := count_of p l) in *.
  assert (packing c c l) as Hpk.
  { split_and!; [split_and!; [done | done | apply pointer_active] | done | lia | lia | lia]. }
  apply (triple_pre _ _ (a ↦ l ∗ room (ptr_of (p_data p) l) c ∗ G)%I).
  { by rewrite pointer_array array_room. }
  assert (decoded p a l G ⊢ undecoded p a l G) as Hun by apply decoded_undecoded.
  apply (triple_left _ _ _ (fun _ => n - 1)); [| intros ?; lia]. eapply triple_substream.
  - intros sub Hb. apply (triple_packed_pointer _ _ l c c Hpk). lia.
  - intros r sub. cbv beta iota. destruct r.
    + apply closing_ret, closing_close; [by left | done].
    + apply closing_errmsg, closing_close; [by right | done].
    + apply closing_ret, closing_close; [by right | done].
  - intros sub. apply closing_ret, closing_close; [by right | iIntros "[]"].
  - rewrite -Hun. by apply (packing_decoded c c).
Qed.
End Packed.

(** *** Other arrays *)

Lemma owning_fit : owning_entries (p_field p) = true -> budget * ds < 2 ^ 32.
Proof.
  intros Hown. pose proof (proj1 (Forall_forall _ _) Hbudget md Hmd) as Hfits.
  apply (proj1 (Forall_forall _ _) Hfits (p_field p)); try done. eapply list_elem_of_lookup_2. by apply layout_lookup.
Qed.

(** The new entry of an array whose entries own something: each was read from a byte of the
    input, so that all are where their 32-bit offsets say. *)
Lemma triple_owning_entry q c b F :
  owning_entries (p_field p) = true -> 0 < q -> 0 <= c -> (c + 1) * ds <= lenB b ->
  triple (St:=St) n (counted c ∗ (q ↦ b ∗ items (Z.to_nat c) ds (elem false) b ∗ F))
    (_ ← initialize_pointer_field (descs_of table) ext_types fuel (item_at q (p_field p) c)
           (iter_at (md_fields md) a i p);
     decoders (p_field p) (item_at q (p_field p) c)) (fun _ => n - 1)
    (fun _ => counted (c + 1) ∗
       struct_at q (fun b' => lenB b' = lenB b) (fun b' => items (Z.to_nat (c + 1)) ds (elem false) b' ∗ F))%I
    (struct_at q (fun b' => lenB b' = lenB b) (fun b' => items (Z.to_nat (c + 1)) ds (elem true) b' ∗ F)%I).
Proof.
  intros Hown Hq Hc Hb. destruct pointer_bounds as (_ & _ & Hds & _).
  apply triple_in_budget. intros Hcb. pose proof (owning_fit Hown) as Hfit.
  unfold item_at. rewrite wrap_small; [| nia].
  replace (q + ds * c) with (q + Z.of_nat (Z.to_nat c) * ds) by lia.
  replace (Z.to_nat (c + 1)) with (S (Z.to_nat c)) by lia.
  apply triple_counted; [| intros ?; lia]. apply triple_array_item; [done | lia].
Qed.

(** The block with a new entry. *)
Lemma triple_new_entry q c b F :
  0 < q -> 0 <= c -> lenB b = (c + 1) * ds ->
  triple (St:=St) n
    (q ↦ b ∗ (blk q (lenB b) ∗ (tally false (p_field p) c ∗ items (Z.to_nat c) ds (elem false) b) ∗ F))
    (_ ← initialize_pointer_field (descs_of table) ext_types fuel (item_at q (p_field p) c)
           (iter_at (md_fields md) a i p);
     decoders (p_field p) (item_at q (p_field p) c)) (fun _ => n - 1)
    (fun _ => array_owned false q (c + 1) ∗ F)%I (array_owned true q (c + 1) ∗ F).
Proof.
  intros Hq Hc Hb. destruct (owning_entries (p_field p)) eqn:Hown.
  - assert (forall lo b', lenB b' = lenB b ->
      tally lo (p_field p) (c + 1) ∗ q ↦ b' ∗ items (Z.to_nat (c + 1)) ds (elem lo) b' ∗ blk q (lenB b) ∗ F
      ⊢ array_owned lo q (c + 1) ∗ F) as Hback.
    { intros lo b' Hb'. iIntros "(H1 & H2 & H3 & H4 & $)". iExists b'. unfold own_ptr, block.
      rewrite (proj2 (Z.eqb_neq q 0)); [| lia]. rewrite Hb'. iFrame. iPureIntro. lia. }
    assert (tally false (p_field p) = counted) as Ht by (unfold tally; by rewrite Hown). rewrite Ht.
    eapply triple_weaken; [apply (triple_owning_entry q c b (blk q (lenB b) ∗ F)%I); [done | done | done | lia]
      | | | | done].
    + iIntros "(H1 & H2 & [H3 H4] & H5)". iFrame.
    + intros ?. cbv beta. iIntros "(H1 & %b' & %Hb' & H2 & H3 & H4)".
      rewrite -(Hback false b' Hb') Ht. iFrame.
    + iIntros "(%b' & %Hb' & H2 & H3 & H4)". rewrite -(Hback true b' Hb') -tally_loose left_id. iFrame.
  - apply orb_false_iff in Hown as [Es Et].
    apply (triple_pre _ _ (room q (c + 1) ∗ F)%I).
    { rewrite tally_emp left_id items_plain // left_id. iIntros "(H1 & H2 & $)". iExists b.
      iSplit; [iPureIntro; lia |]. unfold own_ptr. rewrite (proj2 (Z.eqb_neq q 0)); [| lia]. iFrame. }
    rewrite initialize_plain //. apply triple_bind_ret. pose proof (entry_offset c Hc) as Hoff.
    eapply triple_weaken; [apply (triple_plain_entry Es Et n q (u32 (ds * c)) (c + 1) F); [done | lia | lia]
      | done | intros ?; by rewrite array_room | by rewrite array_room | done].
Qed.

Lemma triple_pointer_unpacked :
  triple (St:=St) n (a ↦ l ∗ pointer_owned table rec false p l ∗ G)
    (size ← get_count (SizeAt (a + p_size p));
     if size =? PB_SIZE_MAX then DERROR "too many array entries" else
     _ ← allocate_at (a + p_data p) ds (u32 (size + 1));
     data ← get_ptr (a + p_data p);
     let item := item_at data (p_field p) size in
     _ ← set_count (SizeAt (a + p_size p)) (u32 (size + 1));
     _ ← initialize_pointer_field (descs_of table) ext_types fuel item (iter_at (md_fields md) a i p);
     decoders (p_field p) item) (fun _ => n)
    (fun _ => decoded p a l G) (undecoded p a l G).
Proof.
  destruct pointer_bounds as (Hd & Hd' & Hds & Hs & Hs' & Hap).
  assert (fits md p l l) as Hfit by (split_and!; [done | done | apply pointer_active]).
  apply step_get_count; [done | done |]. fold (count_of p l).
  pose proof (size_of_range (p_size p) l) as Hc. fold (count_of p l) in Hc. set (c := count_of p l) in *.
  apply (triple_pre _ _ (a ↦ l ∗ array_owned false (ptr_of (p_data p) l) c ∗ G)%I).
  { by rewrite pointer_array. }
  assert (a ↦ l ∗ array_owned false (ptr_of (p_data p) l) c ∗ G ⊢ undecoded p a l G) as Hsame.
  { rewrite -decoded_undecoded. by apply (array_back false l (ptr_of (p_data p) l) c). }
  apply triple_if; intros Hmax; [by apply triple_error |]. apply Z.eqb_neq in Hmax. unfold PB_SIZE_MAX in Hmax.
  rewrite wrap_small; [| lia].
  eapply triple_seq.
  { eapply triple_weaken; [apply (triple_array_alloc n l c (c + 1) G); lia | done | done | done | done]. }
  intros ?. cbv beta. apply triple_exist. intros q. apply triple_exist. intros b.
  apply triple_pure. intros (Hq & Hb).
  destruct (array_set q (c + 1) Hq ltac:(lia)) as (Hl1 & Hf1 & Hf2 & Hp1 & _ & Hp2 & Hc2).
  apply step_get_ptr; [lia | lia |]. rewrite Hp1. cbv zeta. apply step_set_count; [lia | lia |].
  set (l2 := upd (p_size p) _ _) in *.
  assert (forall lo, array_owned lo q (c + 1) ∗ (a ↦ l2 ∗ G) ⊢
    struct_at a (fits md p l) (fun l' => field_owned table (msg_owned table lo N) lo p l' ∗ G)%I) as Hback.
  { intros lo. rewrite -(array_back lo l2 q (c + 1) (array_owned lo q (c + 1)) Hf2 Hp2 Hc2); [| done].
    iIntros "(H1 & H2 & H3)". iFrame. }
  eapply triple_weaken; [apply (triple_new_entry q c b (a ↦ l2 ∗ G)%I); lia
    | | intros ?; apply (Hback false) | apply (Hback true) | intros ?; cbv beta; lia].
  iIntros "(H1 & H2 & H3 & H4 & H5)". iFrame.
Qed.
End Array.

(** ** All pointer fields *)

Lemma triple_decode_pointer wire_type i p a l G :
  layout (md_fields md) !! i = Some p -> lenB l = md_size md -> 0 < a ->
  is_pointer (p_field p) = true -> (inactive p l = true -> ptr_of (p_data p) l = 0) ->
  triple (St:=St) n (a ↦ l ∗ prepared table N p l ∗ G)
    (decode_pointer_field (descs_of table) ext_types self_noinit self_decode fuel wire_type
       (iter_at (md_fields md) a i p))
    (fun _ => n) (fun _ => decoded p a l G) (undecoded p a l G).
Proof.
  intros Hp Hl Ha Hptr Hin. pose proof (place_in table Htable md i p Hmd Hp) as Hok.
  unfold decode_pointer_field. rewrite (cur_iter_at _ a i p Hp). cbv zeta. cbn [pData pSize iter_at].
  change (PB_HTYPE (f_type (p_field p)) =? PB_HTYPE_REPEATED) with (is_repeated (p_field p)).
  change (PB_HTYPE (f_type (p_field p)) =? PB_HTYPE_ONEOF) with (is_oneof (p_field p)).
  change ((PB_LTYPE (f_type (p_field p)) =? PB_LTYPE_STRING)
          || (PB_LTYPE (f_type (p_field p)) =? PB_LTYPE_BYTES)) with (is_text (p_field p)).
  change (PB_LTYPE (f_type (p_field p)) =? PB_LTYPE_SUBMESSAGE) with (is_sub (p_field p)).
  apply triple_if; intros Hr.
  - apply negb_true_iff in Hr. eapply triple_seq.
    { eapply triple_err; [| by apply (triple_release_old p a l i G)]. iIntros "[]". }
    intros ?. cbv beta. apply triple_struct. intros l1 Hpl.
    eapply (triple_seq _ _ _ _ (fun _ => ∃ l2, ⌜plain_pointer p l l2 /\ active p l2⌝ ∧
              (a ↦ l2 ∗ opt_block (ptr_of (p_data p) l2) ∗ G))%I).
    + destruct (is_oneof (p_field p)) eqn:Ho.
      * pose proof Hpl as (Hl1 & Hk1 & Hz).
        destruct (set_which table md p l l1 Hok Hl Ho Hk1) as (Hs & Hs' & Hk2 & Hact & Hreg).
        set (l2 := upd (p_size p) _ l1) in *.
        assert (ptr_of (p_data p) l2 = ptr_of (p_data p) l1) as Hpt.
        { rewrite (data_len_pointer _ Hptr) in Hreg. unfold ptr_of. by rewrite Hreg. }
        apply last_set_count; [done | lia |]. iIntros "H". iExists l2. rewrite Hpt. iSplit; [| done].
        iPureIntro. split; [| done]. split_and!; [unfold l2; by rewrite length_upd | done | by rewrite Hpt].
      * apply triple_ret; [| done]. iIntros "H". iExists l1. iSplit; [| done]. iPureIntro.
        split; [done |]. by apply active_not_oneof.
    + intros ?. cbv beta. apply triple_exist. intros l2. apply triple_pure. intros [Hpl2 Hact].
      apply triple_if; intros Ht; [by apply triple_pointer_text | by apply (triple_pointer_alloc p a l i)].
  - apply negb_false_iff in Hr. assert (prepared table N p l = pointer_owned table rec false p l) as ->.
    { unfold prepared, inactive. rewrite Hptr. destruct (is_oneof (p_field p)) eqn:Ho; [| done].
      pose proof (oneof_not_repeated _ Ho). congruence. }
    apply triple_if; intros Hpk; [| by apply triple_pointer_unpacked].
    apply andb_true_iff in Hpk as [_ Hlt]. apply Z.leb_le in Hlt. unfold PB_LTYPE_LAST_PACKABLE in Hlt.
    apply triple_pointer_packed; try done.
    + unfold is_sub, is_ltype, PB_LTYPE_SUBMESSAGE. apply Z.eqb_neq. lia.
    + unfold is_text, is_ltype, PB_LTYPE_STRING, PB_LTYPE_BYTES.
      apply orb_false_iff; split; apply Z.eqb_neq; lia.
Qed.
End Pointer.
