(* ===== verification/PbMsgSafe.v ===== *)
(** * Decoding a message

    [pb_decode] on a struct of whatever bytes: when it succeeds, the struct is a well-formed
    message that owns the blocks that were allocated; when it fails, nothing is left of
    them.  Any input is allowed; the depth of the message is bounded by its length. *)

From stdpp Require Import gmap.
From iris.proofmode Require Import proofmode.
From S2P Require Import Prelude PbStream PbWire PbSafe PbMem PbIter PbDecode PbLayout.
From S2P Require Import Sep Slice PbTriple PbOwned PbFields PbDefaults PbRelease PbScalars.
From S2P Require Import PbFieldSafe PbPointerSafe.

(** ** One field *)

Section Field.
Context {St : Type} `{ReadCallback St} `{Allocator} {Bud : Budget}.
Context (table : list msg_desc) (Htable : table_ok table).
Context (ext_types : Z -> option pb_extension_type_t).
Context (user_decode : Z -> pb_field_t -> Z -> prog (dstate St) unit).
Context (user_ext_decode : Z -> Z -> Z -> Z -> prog (dstate St) unit).
Context (self_noinit self_decode : list pb_field_t -> Z -> prog (dstate St) unit).
Context (n : Z) (N fuel R : nat).
Context (md : msg_desc) (Hmd : md ∈ table).

Abbreviation rec := (msg_owned table false N).
Abbreviation find := (iter_find (St:=St)).

Lemma cur_find a i p tag :
  0 < a -> layout (md_fields md) !! i = Some p ->
  (exists j q, layout (md_fields md) !! j = Some q /\ f_tag (p_field q) = tag /\
     find (iter_at (md_fields md) a i p) tag = mret (true, iter_at (md_fields md) a j q)) \/
  ((forall j q, layout (md_fields md) !! j = Some q -> f_tag (p_field q) <> tag) /\
   find (iter_at (md_fields md) a i p) tag = mret (false, iter_at (md_fields md) a i p)).
Proof.
  intros Ha Hp. destruct (desc_in table Htable md Hmd) as (_ & Hok & _).
  unfold iter_find, pb_field_iter_find. cbn [start pos iter_at].
  destruct (seek_field_spec (md_fields md) a Hok ltac:(lia) (has_tag tag) i p Hp)
    as [(j & q & Hq & Ht & ->) | [Hnot ->]]; [left | right].
  - exists j, q. split_and!; try done. apply andb_true_iff in Ht as [Ht _]. by apply Z.eqb_eq.
  - split; [| done]. intros j q Hq Ht. specialize (Hnot j q Hq). unfold has_tag in Hnot.
    destruct (place_kind table md q (place_in table Htable md j q Hmd Hq)) as [Hext _].
    rewrite Hext Ht Z.eqb_refl in Hnot. done.
Qed.

Lemma tag_unique i j p q :
  layout (md_fields md) !! i = Some p -> layout (md_fields md) !! j = Some q ->
  f_tag (p_field q) = f_tag (p_field p) -> j = i /\ q = p.
Proof.
  intros Hp Hq Ht. destruct (decide (i = j)) as [-> | Hne].
  - rewrite Hp in Hq. by injection Hq as <-.
  - destruct (pair_in table Htable md i j p q Hmd Hp Hq Hne) as [Hne' _]. congruence.
Qed.

(** *** Where the iterator stands *)

Definition stands (a : Z) (it : pb_field_iter_t) : Prop :=
  exists i p sp, layout (md_fields md) !! i = Some p /\
    it = set_pSize sp (iter_at (md_fields md) a i p) /\
    (sp = SizeAt (a + p_size p) \/
     (sp = FixedCount /\ is_repeated (p_field p) = true /\ p_size p = p_data p)).

Lemma stands_at a i p : layout (md_fields md) !! i = Some p -> stands a (iter_at (md_fields md) a i p).
Proof. intros Hp. exists i, p, (SizeAt (a + p_size p)). split_and!; [done | done | by left]. Qed.

Lemma next_stands a i p sp :
  layout (md_fields md) !! i = Some p ->
  sp = SizeAt (a + p_size p) \/ (sp = FixedCount /\ is_repeated (p_field p) = true /\ p_size p = p_data p) ->
  pb_field_iter_next (set_pSize sp (iter_at (md_fields md) a i p))
  = pb_field_iter_next (iter_at (md_fields md) a i p).
Proof.
  intros Hp [-> | (-> & Hr & _)]; [done |]. unfold pb_field_iter_next.
  change (cur (set_pSize FixedCount (iter_at (md_fields md) a i p))) with (cur (iter_at (md_fields md) a i p)).
  rewrite (cur_iter_at _ a i p Hp). unfold is_repeated, is_htype in Hr. apply Z.eqb_eq in Hr.
  pose proof (tag_pos table Htable md i p Hmd Hp) as Ht.
  rewrite (proj2 (Z.eqb_neq (f_tag (p_field p)) 0)); [| lia]. by rewrite Hr.
Qed.

(** A search stays if the field is the one, and otherwise goes on as from [iter_at]. *)
Lemma seek_stands test k first a i p sp :
  layout (md_fields md) !! i = Some p ->
  sp = SizeAt (a + p_size p) \/ (sp = FixedCount /\ is_repeated (p_field p) = true /\ p_size p = p_data p) ->
  seek_field test (S k) first (set_pSize sp (iter_at (md_fields md) a i p))
  = if test (p_field p) then Some (true, set_pSize sp (iter_at (md_fields md) a i p))
    else seek_field test (S k) first (iter_at (md_fields md) a i p).
Proof.
  intros Hp Hsp. cbn [seek_field]. rewrite (next_stands a i p sp Hp Hsp).
  change (cur (set_pSize sp (iter_at (md_fields md) a i p))) with (cur (iter_at (md_fields md) a i p)).
  rewrite (cur_iter_at _ a i p Hp). by destruct (test (p_field p)).
Qed.

Lemma find_stands a it tag :
  0 < a -> stands a it ->
  (exists it', find it tag = mret (true, it') /\ stands a it') \/
  (exists it', find it tag = mret (false, it') /\ stands a it').
Proof.
  intros Ha (i & p & sp & Hp & -> & Hsp).
  assert (find (set_pSize sp (iter_at (md_fields md) a i p)) tag =
    if has_tag tag (p_field p) then mret (true, set_pSize sp (iter_at (md_fields md) a i p))
    else find (iter_at (md_fields md) a i p) tag) as ->.
  { unfold iter_find, pb_field_iter_find. cbn [start pos set_pSize iter_at].
    change (mk_iter (md_fields md) i ?r ?d ?x sp) with (set_pSize sp (iter_at (md_fields md) a i p)).
    rewrite (seek_stands _ _ _ a i p sp Hp Hsp). by destruct (has_tag tag (p_field p)). }
  destruct (has_tag tag (p_field p)); [left; eexists; split; [done | by exists i, p, sp] |].
  destruct (cur_find a i p tag Ha Hp) as [(j & q & Hq & _ & ->) | [_ ->]]; [left | right];
    eexists; (split; [done |]); by apply stands_at.
Qed.

(** There are no extension fields. *)
Lemma find_extension_stands a it :
  0 < a -> stands a it -> exists it', find_extension_field it = Some (false, it') /\ stands a it'.
Proof.
  intros Ha (i & p & sp & Hp & -> & Hsp). destruct (desc_in table Htable md Hmd) as (_ & Hok & _).
  assert (forall j q, layout (md_fields md) !! j = Some q -> is_extension (p_field q) = false) as Hext.
  { intros j q Hq. pose proof (place_in table Htable md j q Hmd Hq) as (_ & ? & _). done. }
  unfold find_extension_field. cbn [start pos set_pSize iter_at].
  change (mk_iter (md_fields md) i ?r ?d ?x sp) with (set_pSize sp (iter_at (md_fields md) a i p)).
  rewrite (seek_stands _ _ _ a i p sp Hp Hsp) (Hext i p Hp).
  destruct (seek_field_spec (md_fields md) a Hok ltac:(lia) is_extension i p Hp)
    as [(j & q & Hq & Ht & _) | [_ ->]].
  - by rewrite (Hext j q Hq) in Ht.
  - eexists. split; [done |]. by apply stands_at.
Qed.

(** The walk to the last field. *)
Lemma last_field_stands a it :
  0 < a -> stands a it -> is_Some (last_field (S (length (start it))) it).
Proof.
  intros Ha (i & p & sp & Hp & -> & Hsp). cbn [start set_pSize iter_at].
  change (mk_iter (md_fields md) i ?r ?d ?x sp) with (set_pSize sp (iter_at (md_fields md) a i p)).
  destruct (desc_in table Htable md Hmd) as (Hne & Hok & _).
  pose proof (lookup_lt_Some _ _ _ Hp) as Hi. rewrite length_layout in Hi.
  assert (length (md_fields md) - i < S (length (md_fields md)))%nat as Hk by lia. revert Hk.
  generalize (S (length (md_fields md))). intros k. revert i p sp Hp Hsp Hi.
  induction k as [| k IH]; intros i p sp Hp Hsp Hi Hk; [lia |].
  cbn [last_field]. rewrite (next_stands a i p sp Hp Hsp).
  destruct (decide (S i = length (md_fields md))) as [He | Hn'].
  - destruct (layout_is_Some (md_fields md) 0) as [q Hq]; [lia |].
    by rewrite (iter_wrap (md_fields md) a Hok ltac:(lia) i p q Hp He Hq).
  - destruct (layout_is_Some (md_fields md) (S i)) as [q Hq]; [lia |].
    rewrite (iter_next (md_fields md) a Hok i p q Hp Hq).
    change (iter_at (md_fields md) a (S i) q)
      with (set_pSize (SizeAt (a + p_size q)) (iter_at (md_fields md) a (S i) q)).
    apply (IH (S i) q _ Hq); [by left | lia | lia].
Qed.

(** *** Unions *)

(** What the decoding of a field begins with. *)
Definition ready (i : nat) (p : place) (l : list byte) : hprop :=
  (⌜inactive p l = true -> is_pointer (p_field p) = true -> ptr_of (p_data p) l = 0⌝ ∧
   (prepared table N p l ∗ outside table md rec false i p l))%I.

Definition fields (lo : bool) (l : list byte) : hprop :=
  ([∗ list] q ∈ layout (md_fields md), field_owned table (msg_owned table lo N) lo q l)%I.

Lemma ready_active i p l :
  layout (md_fields md) !! i = Some p -> active p l -> fields false l ⊢ ready i p l.
Proof.
  intros Hp Hact. pose proof (tag_pos table Htable md i p Hmd Hp) as Ht.
  assert (inactive p l = false) as Hin.
  { unfold inactive. destruct (is_oneof _) eqn:Ho; [| done]. by rewrite (Hact Ho) Z.eqb_refl. }
  unfold fields. rewrite (fields_split table md i p l rec false Hp).
  rewrite (others_outside table Htable md i p l rec false Hmd Hp); [| intros Ho; left; by apply Hact].
  rewrite field_owned_active; [| done]. unfold ready, prepared. rewrite Hin.
  iIntros "H". by iSplit; [iPureIntro |].
Qed.

Lemma ready_unset i p l :
  layout (md_fields md) !! i = Some p -> is_oneof (p_field p) = true -> count_of p l = 0 ->
  fields false l ⊢ ready i p l.
Proof.
  intros Hp Ho Hc. pose proof (tag_pos table Htable md i p Hmd Hp) as Ht.
  unfold fields. rewrite (fields_split table md i p l rec false Hp).
  rewrite (others_outside table Htable md i p l rec false Hmd Hp); [| intros _; by right].
  rewrite field_owned_unset; [| done..]. unfold ready, prepared, inactive.
  rewrite Ho Hc (proj2 (Z.eqb_neq 0 (f_tag (p_field p)))); [| lia]. simpl.
  destruct (is_pointer (p_field p)).
  - iIntros "[[% $] $]". by iPureIntro.
  - iIntros "[$ $]". by iPureIntro.
Qed.

(** The member that was held is released; the new one is not there yet. *)
Lemma ready_switched i j p q l l1 :
  layout (md_fields md) !! i = Some p -> layout (md_fields md) !! j = Some q ->
  is_oneof (p_field p) = true -> lenB l = md_size md ->
  count_of p l = f_tag (p_field q) -> i <> j -> released table false N md q l l1 ->
  let l2 := if is_pointer (p_field p) then upd (p_data p) (ptr_bytes 0) l1 else l1 in
  lenB l1 = lenB l /\ (others table md rec false j l ⊢ ready i p l2).
Proof.
  intros Hp Hq Ho Hl Hc Hij (Hl1 & Hch & Hemp & _) l2. split; [congruence |].
  pose proof (tag_pos table Htable md i p Hmd Hp) as Htp.
  pose proof (tag_pos table Htable md j q Hmd Hq) as Htq.
  destruct (pair_in table Htable md i j p q Hmd Hp Hq Hij) as [Htag Hpair].
  pose proof (place_in table Htable md i p Hmd Hp) as Hok.
  destruct (place_bounds table md p l Hok Hl) as (Hd & Hd' & Hs & Hs' & Hap & _).
  pose proof (size_len_count p (or_introl Ho)) as Hsl.
  assert (count_of p l1 = count_of p l) as Hc1.
  { destruct Hch as [-> | [Hk Hun]]; [done |]. destruct Hpair as [Hu | (_ & _ & H2 & H4)].
    - rewrite -(same_union_count p q l1 Hu). destruct (Hun (proj1 (proj2 Hu))) as [_ ->]. by rewrite Hc.
    - unfold count_of, size_of. f_equal. apply Hk; [done |]. rewrite Hsl in H2, H4.
      unfold off_place, apart in *. lia. }
  assert (others table md rec false j l ⊢ outside table md rec false i p l1) as Hout.
  { rewrite -(released_outside table Htable md i j p q l1 rec false); [| done | done | done | done | congruence | done].
    apply big_sepL_mono. intros k r Hr. case_decide as Hkj; [done |].
    by rewrite (changed_other table Htable false N md Hmd j k q r l l1); [| done | done | congruence |]. }
  assert (inactive p l1 = true) as Hin.
  { unfold inactive. rewrite Ho Hc1 Hc. by rewrite (proj2 (Z.eqb_neq (f_tag (p_field q)) (f_tag (p_field p)))). }
  rewrite Hout. unfold l2, ready, prepared. destruct (is_pointer (p_field p)) eqn:Ep.
  - rewrite (data_len_pointer _ Ep) Hsl in Hd', Hap. unfold apart in Hap.
    assert (keeps p l1 (upd (p_data p) (ptr_bytes 0) l1)) as Hk.
    { apply keeps_data; [lia |]. rewrite (data_len_pointer _ Ep) length_ptr_bytes. lia. }
    rewrite (outside_kept table Htable md i p l1 _ rec false Hmd Hp Hk).
    assert (inactive p (upd (p_data p) (ptr_bytes 0) l1) = true) as ->.
    { unfold inactive in *. rewrite (count_kept table md p l1 (ptr_bytes 0)); [done | done | lia | | by left].
      by rewrite (data_len_pointer _ Ep) length_ptr_bytes. }
    iIntros "H". iSplit; [iPureIntro; intros _ _; apply ptr_of_upd; lia |]. iFrame.
  - rewrite Hin. iIntros "H". iSplit; [by iPureIntro |]. iFrame.
Qed.

Definition whole lo (a : Z) (G : hprop) : hprop :=
  struct_at a (fun l => lenB l = md_size md) (fun l => fields lo l ∗ G)%I.

Lemma fields_loose l : fields false l ⊢ fields true l.
Proof. exact (msg_owned_loose table (S N) md l). Qed.

Lemma whole_loose a G : whole false a G ⊢ whole true a G.
Proof. apply struct_mono; [done |]. intros l _. by rewrite fields_loose. Qed.

Lemma whole_intro lo a l G : lenB l = md_size md -> a ↦ l ∗ fields lo l ∗ G ⊢ whole lo a G.
Proof. intros Hl. by apply struct_intro. Qed.

Context (Hfuel : (N < fuel)%nat).

Lemma triple_release_union i p a l G :
  layout (md_fields md) !! i = Some p -> is_oneof (p_field p) = true -> lenB l = md_size md -> 0 < a ->
  triple (St:=St) n (a ↦ l ∗ fields false l ∗ G)
    (pb_release_union_field (descs_of table) ext_types fuel (iter_at (md_fields md) a i p)) (fun _ => n)
    (fun it => ⌜it = iter_at (md_fields md) a i p⌝ ∧
       struct_at a (fun l' => lenB l' = md_size md) (fun l' => ready i p l' ∗ G))%I
    (whole false a G).
Proof.
  intros Hp Ho Hl Ha. pose proof (place_in table Htable md i p Hmd Hp) as Hok.
  destruct (place_bounds table md p l Hok Hl) as (Hd & Hd' & Hs & Hs' & _).
  rewrite (size_len_count p (or_introl Ho)) in Hs'.
  assert (forall l', lenB l' = md_size md -> (fields false l' ⊢ ready i p l') ->
    a ↦ l' ∗ fields false l' ∗ G ⊢ ⌜iter_at (md_fields md) a i p = iter_at (md_fields md) a i p⌝ ∧
       struct_at a (fun l' => lenB l' = md_size md) (fun l' => ready i p l' ∗ G)) as Hret.
  { intros l' Hl' HR. apply bi.and_intro; [iIntros "_"; by iPureIntro |]. apply struct_intro; [done |].
    by rewrite HR. }
  unfold pb_release_union_field. rewrite (cur_iter_at _ a i p Hp). cbv zeta. cbn [pSize iter_at].
  apply step_get_count; [done | lia |]. fold (count_of p l).
  destruct (Z.eqb_spec (count_of p l) 0) as [E0 | E0].
  { apply triple_ret; [| done]. apply Hret; [done | by apply ready_unset]. }
  destruct (Z.eqb_spec (count_of p l) (f_tag (p_field p))) as [Et | Et].
  { apply triple_ret; [| done]. apply Hret; [done |]. apply ready_active; [done |]. by intros _. }
  destruct (cur_find a i p (count_of p l) Ha Hp) as [(j & q & Hq & Htq & ->) | [_ ->]];
    apply triple_bind_ret; cbv iota beta.
  2: { by apply triple_error, whole_intro. }
  cbn [negb]. assert (i <> j) as Hij by (intros <-; rewrite Hp in Hq; injection Hq as <-; congruence).
  eapply triple_seq.
  { eapply triple_weaken; [apply (triple_release_single table Htable ext_types n false fuel N md j q a l
      (others table md rec false j l ∗ G)%I); done | | done | iIntros "[]" | done].
    unfold fields. rewrite (fields_split table md j q l rec false Hq). iIntros "(H1 & [H2 H3] & H4)". iFrame. }
  intros ?. cbv beta. apply triple_struct. intros l1 Hrel.
  destruct (ready_switched i j p q l l1 Hp Hq Ho Hl (eq_sym Htq) Hij Hrel) as [Hl1 Hready].
  destruct (cur_find a j q (f_tag (p_field p)) Ha Hq) as [(k & r & Hr & Htr & ->) | [Hnot _]].
  2: { by destruct (Hnot i p Hp). }
  destruct (tag_unique i k p r Hp Hr Htr) as [-> ->].
  apply triple_bind_ret. cbv iota beta. cbn [negb]. rewrite (cur_iter_at _ a i p Hp).
  change (PB_ATYPE (f_type (p_field p)) =? PB_ATYPE_POINTER) with (is_pointer (p_field p)).
  cbn [pData iter_at].
  eapply (triple_seq _ _ _ _ (fun _ => struct_at a (fun l' => lenB l' = md_size md) (fun l' => ready i p l' ∗ G))%I).
  - destruct (is_pointer (p_field p)) eqn:Ep.
    + rewrite (data_len_pointer _ Ep) in Hd'. apply last_set_ptr; [done | lia |].
      apply struct_intro; [rewrite length_upd; lia |]. by rewrite Hready.
    + apply triple_ret; [| done]. apply struct_intro; [lia |]. by rewrite Hready.
  - intros ?. cbv beta. apply triple_ret; [| done]. iIntros "H". by iSplit.
Qed.

(** *** The field and the others *)

Lemma outside_loose i p l :
  outside table md rec false i p l ⊢ outside table md (msg_owned table true N) true i p l.
Proof.
  apply big_sepL_mono. intros j q _. case_decide; [done |]. apply field_owned_loose.
  intros. apply msg_owned_loose.
Qed.

Lemma whole_back lo i p a l G :
  layout (md_fields md) !! i = Some p ->
  struct_at a (fits md p l) (fun l' => field_owned table (msg_owned table lo N) lo p l' ∗
    (outside table md (msg_owned table lo N) lo i p l ∗ G))%I ⊢ whole lo a G.
Proof.
  intros Hp. apply struct_mono; [by intros l' (Hl' & _) |]. intros l' (Hl' & Hk & Hact).
  rewrite (outside_kept table Htable md i p l l' _ lo Hmd Hp Hk).
  rewrite (outside_others table Htable md i p l' _ lo Hmd Hp Hact).
  unfold fields. rewrite (fields_split table md i p l' _ lo Hp). by rewrite assoc.
Qed.

Context (IH_noinit : noinit_ok table n N self_noinit).
Context (IH_decode : decode_ok table n N self_decode).
Context (HR : forall md, md ∈ table -> (md_rank md <= R)%nat).
Context (Hbudget : entries_fit table budget) (Hn : 0 <= n) (HN : Z.of_nat (R + 1) * (n + 1) <= Z.of_nat N).

Lemma triple_decode_ready wire_type i p a sp G :
  layout (md_fields md) !! i = Some p -> 0 < a -> count_place p a sp ->
  triple (St:=St) n (struct_at a (fun l => lenB l = md_size md) (fun l => ready i p l ∗ G)%I)
    (if PB_ATYPE (f_type (p_field p)) =? PB_ATYPE_STATIC
     then decode_static_field (descs_of table) ext_types self_noinit self_decode fuel wire_type
            (set_pSize sp (iter_at (md_fields md) a i p))
     else if PB_ATYPE (f_type (p_field p)) =? PB_ATYPE_POINTER
     then decode_pointer_field (descs_of table) ext_types self_noinit self_decode fuel wire_type
            (set_pSize sp (iter_at (md_fields md) a i p))
     else if PB_ATYPE (f_type (p_field p)) =? PB_ATYPE_CALLBACK
     then decode_callback_field user_decode wire_type (set_pSize sp (iter_at (md_fields md) a i p))
     else DERROR "invalid field type") (fun _ => n) (fun _ => whole false a G) (whole true a G).
Proof.
  intros Hp Ha Hsp. pose proof (place_in table Htable md i p Hmd Hp) as Hok.
  destruct (place_kind table md p Hok) as (_ & Hstat & _ & _ & Hfix).
  apply triple_struct. intros l Hl.
  apply (triple_pre _ _ (⌜inactive p l = true -> is_pointer (p_field p) = true -> ptr_of (p_data p) l = 0⌝ ∧
    (a ↦ l ∗ prepared table N p l ∗ (outside table md rec false i p l ∗ G)))%I).
  { unfold ready. iIntros "(H1 & [%H2 [H3 H4]] & H5)". iSplit; [done |]. iFrame. }
  apply triple_pure. intros Hin.
  assert (undecoded table N md p a l (outside table md rec false i p l ∗ G) ⊢ whole true a G) as HE.
  { etrans; [| by apply (whole_back true i p a l G Hp)]. apply struct_mono; [done |].
    intros l' _. apply bi.sep_mono_r, bi.sep_mono_l, outside_loose. }
  destruct (is_pointer (p_field p)) eqn:Ep.
  - assert (sp = SizeAt (a + p_size p)) as ->.
    { unfold count_place in Hsp. destruct (is_repeated (p_field p)) eqn:Er; [| done].
      destruct sp as [c |]; simpl in Hsp; [by destruct Hsp as [-> _] |].
      destruct (Hfix eq_refl Hsp). congruence. }
    unfold is_pointer in Ep. apply Z.eqb_eq in Ep. rewrite Ep.
    change (PB_ATYPE_POINTER =? PB_ATYPE_STATIC) with false. rewrite Z.eqb_refl. cbv iota.
    eapply triple_weaken; [apply (triple_decode_pointer table Htable ext_types self_noinit self_decode n N fuel R
      md Hmd IH_noinit IH_decode HR Hbudget Hn HN Hfuel wire_type i p a l (outside table md rec false i p l ∗ G));
      try done | done | | done | done].
    + unfold is_pointer. by rewrite Ep.
    + intros Hi. by apply Hin.
    + intros ?. by apply (whole_back false).
  - rewrite (Hstat eq_refl) Z.eqb_refl.
    eapply triple_weaken; [apply (triple_decode_static table Htable ext_types self_noinit self_decode n N fuel R
      md Hmd IH_noinit IH_decode HR Hn HN Hfuel wire_type i p a sp l (outside table md rec false i p l ∗ G)); try done
      | done | | done | done].
    intros ?. by apply (whole_back false).
Qed.

Lemma triple_decode_field wire_type i p a sp G :
  layout (md_fields md) !! i = Some p -> 0 < a -> count_place p a sp ->
  triple (St:=St) n (whole false a G)
    (decode_field (descs_of table) ext_types user_decode self_noinit self_decode fuel wire_type
       (set_pSize sp (iter_at (md_fields md) a i p)))
    (fun _ => n)
    (fun it => ⌜it = set_pSize sp (iter_at (md_fields md) a i p)⌝ ∧ whole false a G)%I
    (whole true a G).
Proof.
  intros Hp Ha Hsp. unfold decode_field.
  change (cur (set_pSize sp (iter_at (md_fields md) a i p))) with (cur (iter_at (md_fields md) a i p)).
  rewrite (cur_iter_at _ a i p Hp).
  change (PB_HTYPE (f_type (p_field p)) =? PB_HTYPE_ONEOF) with (is_oneof (p_field p)).
  eapply (triple_seq _ _ _ _ (fun it => ⌜it = set_pSize sp (iter_at (md_fields md) a i p)⌝ ∧
    struct_at a (fun l' => lenB l' = md_size md) (fun l' => ready i p l' ∗ G))%I).
  - apply triple_struct. intros l Hl. apply triple_if; intros Ho.
    + assert (sp = SizeAt (a + p_size p)) as ->.
      { unfold count_place in Hsp. by rewrite (oneof_not_repeated _ Ho) in Hsp. }
      eapply triple_err; [| by apply triple_release_union]. apply whole_loose.
    + apply triple_ret; [| done]. apply bi.and_intro; [iIntros "_"; by iPureIntro |].
      apply struct_intro; [done |]. rewrite (ready_active i p l Hp); [done |]. by apply active_not_oneof.
  - intros it. apply triple_pure. intros ->.
    change (cur (set_pSize sp (iter_at (md_fields md) a i p))) with (cur (iter_at (md_fields md) a i p)).
    rewrite (cur_iter_at _ a i p Hp). eapply triple_seq; [by apply triple_decode_ready |].
    intros ?. cbv beta. apply triple_ret; [| done]. iIntros "H". by iSplit.
Qed.

(** *** A field of the input *)

Lemma triple_fixed_count_wrong {A} m P l (f : bool -> prog (dstate St) A) n' Q E :
  (forall b, triple m P (f b) n' Q E) -> triple m P (fixed_count_wrong l ≫= f) n' Q E.
Proof.
  intros Hf. unfold fixed_count_wrong. destruct (fixed_count_field l); [| by apply triple_bind_ret].
  apply triple_assoc, triple_getS_any. intros s0. by apply triple_bind_ret.
Qed.

Definition located (a : Z) (G : hprop) (l : decode_locals) : hprop :=
  (⌜stands a (l_iter l)⌝ ∧ whole false a G)%I.

Lemma mark_seen_iter l : l_iter (mark_seen l) = l_iter l.
Proof. unfold mark_seen. by destruct (_ && _). Qed.

Lemma triple_known_field wire_type a l i p sp G :
  0 < a -> layout (md_fields md) !! i = Some p -> count_place p a sp ->
  sp = SizeAt (a + p_size p) \/ (sp = FixedCount /\ is_repeated (p_field p) = true /\ p_size p = p_data p) ->
  l_iter l = set_pSize sp (iter_at (md_fields md) a i p) ->
  triple (St:=St) n (whole false a G)
    (let l := mark_seen l in
     iter ← decode_field (descs_of table) ext_types user_decode self_noinit self_decode fuel wire_type (l_iter l);
     mret (set_iter iter l)) (fun _ => n) (located a G) (whole true a G).
Proof.
  intros Ha Hp Hsp Hst Hl. cbv zeta. rewrite mark_seen_iter Hl.
  eapply triple_seq; [by apply triple_decode_field |]. intros it. apply triple_pure. intros ->.
  apply triple_ret; [| done]. iIntros "H". iSplit; [| done]. iPureIntro. by exists i, p, sp.
Qed.

Lemma triple_decode_known wire_type a l G :
  0 < a -> stands a (l_iter l) ->
  triple (St:=St) n (whole false a G)
    (decode_known (descs_of table) ext_types user_decode self_noinit self_decode fuel wire_type l)
    (fun _ => n) (located a G) (whole true a G).
Proof.
  intros Ha (i & p & sp & Hp & Hl & Hsp). unfold decode_known. rewrite Hl.
  change (cur (set_pSize sp (iter_at (md_fields md) a i p))) with (cur (iter_at (md_fields md) a i p)).
  rewrite (cur_iter_at _ a i p Hp).
  change (PB_HTYPE (f_type (p_field p)) =? PB_HTYPE_REPEATED) with (is_repeated (p_field p)).
  apply triple_if_bind; intros Hfix.
  - apply andb_true_iff in Hfix as [Hr Hsd].
    assert (p_size p = p_data p) as He.
    { destruct Hsp as [-> | (-> & _)]; [| done].
      rewrite (size_is_data_at (md_fields md) a i p) in Hsd. by apply Z.eqb_eq. }
    apply triple_assoc. eapply (triple_seq _ _ _ _ (fun _ => whole false a G)).
    + apply triple_if; intros _; [by apply triple_ret |]. apply triple_fixed_count_wrong. intros b.
      apply triple_if; intros _; [apply triple_error, whole_loose | by apply triple_modify_fixed].
    + intros ?. cbv beta. apply triple_bind_ret.
      apply (triple_known_field wire_type a _ i p FixedCount); try done.
      * unfold count_place. by rewrite Hr.
      * by right.
  - apply triple_bind_ret. apply (triple_known_field wire_type a l i p sp); try done.
    unfold count_place. destruct (is_repeated (p_field p)) eqn:Er.
    + destruct Hsp as [-> | (-> & _ & He)]; [| done]. split; [done |].
      rewrite (size_is_data_at (md_fields md) a i p) in Hfix. by apply Z.eqb_neq.
    + by destruct Hsp as [-> | (-> & ? & _)].
Qed.

Lemma triple_skip wire_type P E : (P ⊢ E) ->
  triple (St:=St) n P (lift (pb_skip_field wire_type)) (fun _ => n) (fun _ => P) E.
Proof.
  intros HE. apply triple_lift_safe; [| done | done]. intros base c n0 Hc.
  pose proof (within_inv (St:=St) base c n0 Hc). apply _.
Qed.

Lemma triple_decode_unknown tag wire_type a l G :
  0 < a -> stands a (l_iter l) -> tag < UINT32_MAX ->
  triple (St:=St) n (whole false a G)
    (decode_unknown (descs_of table) ext_types user_decode user_ext_decode self_noinit self_decode fuel tag wire_type l)
    (fun _ => n) (located a G) (whole true a G).
Proof.
  intros Ha Hst Htag. unfold decode_unknown.
  assert (forall l', stands a (l_iter l') ->
    triple (St:=St) n (whole false a G) (_ ← lift (pb_skip_field wire_type); mret l') (fun _ => n)
      (located a G) (whole true a G)) as Hskip.
  { intros l' Hst'. eapply triple_seq; [apply triple_skip, whole_loose |]. intros ?. cbv beta.
    apply triple_ret; [| done]. iIntros "H". by iSplit. }
  apply triple_if; intros _; [| by apply Hskip].
  destruct (find_extension_stands a (l_iter l) Ha Hst) as (it & -> & Hit).
  apply triple_bind_ret. cbv beta iota zeta. rewrite (proj2 (Z.leb_gt _ _) Htag).
  by apply Hskip.
Qed.
End Field.

(** ** The whole input *)

Section Message.
Context {St : Type} `{ReadCallback St} `{Allocator} {Bud : Budget}.
Context (table : list msg_desc) (Htable : table_ok table).
Context (ext_types : Z -> option pb_extension_type_t).
Context (user_decode : Z -> pb_field_t -> Z -> prog (dstate St) unit).
Context (user_ext_decode : Z -> Z -> Z -> Z -> prog (dstate St) unit).
Context (R : nat) (HR : forall md, md ∈ table -> (md_rank md <= R)%nat).
Context (Hbudget : entries_fit table budget).

Lemma noinit_ok_le n m N (self : list pb_field_t -> Z -> prog (dstate St) unit) :
  noinit_ok table n N self -> m <= n -> noinit_ok table m N self.
Proof. intros Hs Hm k md a G Hk. apply Hs. lia. Qed.

Lemma decode_ok_le n m N (self : list pb_field_t -> Z -> prog (dstate St) unit) :
  decode_ok table n N self -> m <= n -> decode_ok table m N self.
Proof. intros Hs Hm k md a x G Hk. apply Hs. lia. Qed.

Section Loop.
Context (self_noinit self_decode : list pb_field_t -> Z -> prog (dstate St) unit).
Context (B : Z) (N fuel : nat) (md : msg_desc) (Hmd : md ∈ table) (Hfuel : (N < fuel)%nat).
Context (IH_noinit : noinit_ok table (B - 1) N self_noinit).
Context (IH_decode : decode_ok table (B - 1) N self_decode).
Context (HN : Z.of_nat (R + 1) * B <= Z.of_nat N).
Context (a : Z) (Ha : 0 < a) (G : hprop).

Abbreviation whole := (whole table N md).

(** Each round uses some of the input. *)
Lemma triple_decode_loop k j l :
  stands md a (l_iter l) -> j <= Z.of_nat k -> j <= B ->
  triple (St:=St) j (whole false a G)
    (decode_loop (descs_of table) ext_types user_decode user_ext_decode self_noinit self_decode fuel k l)
    (fun _ => j) (located table N md a G) (whole true a G).
Proof.
  revert j l. induction k as [| k IH]; intros j l Hst Hj HB; cbn [decode_loop];
    apply triple_getS; intros s0 Hs0;
    (apply (triple_left _ _ _ (fun _ => bytes_left (d_in s0))); [| intros ?; lia]);
    (apply triple_if; intros E0; [apply Z.eqb_eq in E0; apply triple_ret; [| done]; iIntros "H"; by iSplit |]);
    apply Z.eqb_neq in E0; [lia |].
  set (bl := bytes_left (d_in s0)) in *.
  eapply (triple_bind _ (fun t => match t with Tag _ _ => bl - 1 | TagEof => bl end) _ _ _
    (fun t => ⌜match t with Tag tag _ => 0 <= tag < 2 ^ 29 | TagEof => True end⌝ ∧ whole false a G)%I).
  - eapply (triple_lift _ _ _ _ (fun t => match t with Tag tag _ => 0 <= tag < 2 ^ 29 | TagEof => True end)).
    + intros base c n0 Hc _. eapply runs_weaken; [by apply decode_tag_uses | done |].
      intros [tag wire_type |] s Hs; [destruct Hs as [Hs ?] |]; (split; [| done]); (eapply within_weaken; [done | lia]).
    + intros t Ht. iIntros "H". by iSplit.
    + apply whole_loose.
  - intros [|]; lia.
  - intros [tag wire_type |]; apply triple_pure; intros Htag.
    2: { apply triple_ret; [| done]. iIntros "H". by iSplit. }
    assert (noinit_ok table (bl - 1) N self_noinit) by (eapply noinit_ok_le; [done | lia]).
    assert (decode_ok table (bl - 1) N self_decode) by (eapply decode_ok_le; [done | lia]).
    assert (forall m, triple (St:=St) (bl - 1) (whole false a G) m (fun _ => bl - 1)
        (located table N md a G) (whole true a G) ->
      triple (St:=St) (bl - 1) (whole false a G)
        (m ≫= decode_loop (descs_of table) ext_types user_decode user_ext_decode self_noinit self_decode fuel k)
        (fun _ => bl) (located table N md a G) (whole true a G)) as Hrest.
    { intros m Hm. eapply triple_seq; [exact Hm |]. intros l'. apply triple_pure. intros Hst'.
      eapply triple_left; [apply (IH (bl - 1) l' Hst'); lia | intros ?; cbv beta; lia]. }
    destruct (find_stands (St:=St) table Htable md Hmd a (l_iter l) tag Ha Hst) as [(it & -> & Hit) | (it & -> & Hit)];
      apply triple_bind_ret; cbv beta iota zeta; apply Hrest.
    + apply (triple_decode_known table Htable ext_types user_decode self_noinit self_decode (bl - 1) N fuel R);
        (done || nia).
    + apply (triple_decode_unknown table Htable ext_types user_decode user_ext_decode self_noinit self_decode
        (bl - 1) N fuel); try done. unfold UINT32_MAX. lia.
Qed.

Lemma triple_check_decoded j l :
  stands md a (l_iter l) ->
  triple (St:=St) j (whole false a G) (check_decoded l) (fun _ => j) (fun _ => whole false a G) (whole true a G).
Proof.
  intros Hst. unfold check_decoded. apply triple_fixed_count_wrong. intros b.
  apply triple_if; intros _; [apply triple_error, whole_loose |].
  destruct (last_field_stands table Htable md Hmd a (l_iter l) Ha Hst) as [[[c t] it] ->].
  apply triple_if; intros _; [apply triple_error, whole_loose | by apply triple_ret].
Qed.

Lemma triple_noinit_body n :
  n <= B ->
  triple (St:=St) n (whole false a G)
    (decode_noinit_body (descs_of table) ext_types user_decode user_ext_decode self_noinit self_decode fuel
       (md_fields md) a) (fun _ => n) (fun _ => whole false a G) (whole true a G).
Proof.
  intros Hn. destruct (desc_in table Htable md Hmd) as (Hne & Hok & _).
  destruct (layout_is_Some (md_fields md) 0) as [p Hp]; [destruct (md_fields md); simpl in *; (done || lia) |].
  unfold decode_noinit_body. apply triple_with_fixed.
  rewrite (iter_begin (md_fields md) a Hok ltac:(lia) p Hp). cbn [snd].
  apply triple_getS. intros s0 Hs0. apply (triple_left _ _ _ (fun _ => bytes_left (d_in s0))); [| intros ?; lia].
  eapply triple_seq; [apply triple_decode_loop; [by apply stands_at | lia | lia] |].
  intros l. apply triple_pure. apply triple_check_decoded.
Qed.
End Loop.

(** ** Messages *)

Lemma triple_neg {A} n P (m : prog (dstate St) A) n' Q E : n < 0 -> triple n P m n' Q E.
Proof. intros Hn base c F s T Hc (? & _) _ _. lia. Qed.

Abbreviation noinit fuel := (pb_decode_noinit (descs_of table) ext_types user_decode user_ext_decode fuel).

(** [pb_decode] clears the struct, decodes, and after a failure releases. *)
Lemma triple_decode_body n N fuel md a x G :
  md ∈ table -> 0 < a -> lenB x = md_size md -> (N <= fuel)%nat -> (md_rank md < N)%nat ->
  (forall G, triple (St:=St) n (msg table false N md a ∗ G) (noinit fuel (md_fields md) a) (fun _ => n)
     (fun _ => msg table false N md a ∗ G)%I (msg table true N md a ∗ G)) ->
  triple (St:=St) n (a ↦ x ∗ G) (decode_body (descs_of table) ext_types fuel (noinit fuel) (md_fields md) a)
    (fun _ => n) (fun _ => msg table false N md a ∗ G)%I
    (struct_at a (blank table true N md) (fun _ => G)).
Proof.
  intros Hmd Ha Hx HN Hr Hno. unfold decode_body.
  eapply (triple_seq _ _ _ _ (fun _ => msg table false N md a ∗ G)%I).
  { eapply triple_weaken; [apply (triple_set_to_defaults table Htable ext_types n fuel N md a x G); (done || lia)
      | done | intros ?; apply msg_blank | iIntros "[]" | done]. }
  intros ?. cbv beta.
  eapply (triple_seq _ _ _ _ (fun r => if r is Some _ then msg table false N md a ∗ G
                                       else msg table true N md a ∗ G)%I).
  { by eapply triple_try_same. }
  intros [r |]; [by apply triple_ret |].
  apply (triple_pre _ _ (struct_at a (fun l => lenB l = md_size md) (fun l => msg_owned table true N md l ∗ G)%I)).
  { iIntros "[(%l & %Hl & H1 & H2) H3]". iExists l. iSplit; [done |]. iFrame. }
  apply triple_struct. intros l Hl. unfold pb_release. rewrite (proj2 (Z.eqb_neq a 0)); [| lia].
  eapply triple_seq.
  { eapply triple_err; [| by apply (triple_release_fields table Htable ext_types n true fuel N md a l G)].
    iIntros "[]". }
  intros ?. by apply triple_fail.
Qed.

(** A message of [n] bytes is not deeper than this. *)
Definition depth_ok (md : msg_desc) (n : Z) (N : nat) : Prop :=
  0 <= n /\ Z.of_nat (md_rank md) + 1 + Z.of_nat (R + 1) * n <= Z.of_nat N.

Lemma triple_pb_decode_noinit fuel n N md a G :
  md ∈ table -> 0 < a -> (N <= fuel)%nat -> depth_ok md n N ->
  triple (St:=St) n (msg table false N md a ∗ G) (noinit fuel (md_fields md) a) (fun _ => n)
    (fun _ => msg table false N md a ∗ G)%I (msg table true N md a ∗ G).
Proof.
  revert n N md a G. induction fuel as [| fuel IH]; intros n N md a G Hmd Ha HN [Hn Hd]; [lia |].
  destruct N as [| N]; [lia |]. cbn [pb_decode_noinit].
  assert (noinit_ok table (n - 1) N (noinit fuel)) as Hnoinit.
  { intros m md' b G' Hm Hmd' Hb. destruct (decide (m < 0)); [by apply triple_neg |].
    pose proof (HR md' Hmd'). apply IH; [done | done | lia | split; nia]. }
  assert (decode_ok table (n - 1) N (decode_body (descs_of table) ext_types fuel (noinit fuel))) as Hdecode.
  { intros m md' b x G' Hm Hmd' Hb Hx. destruct (decide (m < 0)); [by apply triple_neg |].
    pose proof (HR md' Hmd'). apply triple_decode_body; [done | done | done | lia | nia |].
    intros G2. by apply Hnoinit. }
  assert (forall lo, whole table N md lo a G ⊣⊢ msg table lo (S N) md a ∗ G) as Hwhole.
  { intros lo. iSplit.
    - iIntros "(%l & %Hl & H1 & H2 & $)". iExists l. iSplit; [done |]. iFrame.
    - iIntros "[(%l & %Hl & H1 & H2) H3]". iExists l. iSplit; [done |]. iFrame. }
  eapply triple_weaken; [apply (triple_noinit_body (noinit fuel)
    (decode_body (descs_of table) ext_types fuel (noinit fuel)) n N (S fuel) md Hmd ltac:(lia) Hnoinit Hdecode
    ltac:(lia) a Ha G n ltac:(lia)) | | | | done]; intros; by rewrite Hwhole.
Qed.

Lemma triple_pb_decode fuel n N md a x G :
  md ∈ table -> 0 < a -> lenB x = md_size md -> (N <= fuel)%nat -> depth_ok md n N ->
  triple (St:=St) n (a ↦ x ∗ G)
    (pb_decode (descs_of table) ext_types user_decode user_ext_decode fuel (md_fields md) a) (fun _ => n)
    (fun _ => msg table false N md a ∗ G)%I (struct_at a (blank table true N md) (fun _ => G)).
Proof.
  intros Hmd Ha Hx HN Hd. pose proof Hd as [Hn Hd']. apply triple_decode_body; [done | done | done | lia | lia |].
  intros G'. by apply triple_pb_decode_noinit.
Qed.
End Message.
