(* ===== verification/PbMemSafe.v ===== *)
(** * Memory safety and ownership of the decoder

    What the program logic of the other files shows, said without it: [pb_decode] on any
    input that is not too long for the 32-bit offsets of array entries ([entries_fit]) and
    any table of descriptors that is [table_ok] reads and writes within the struct
    and the blocks it allocates, returns within a fuel computed from the length of the
    input, gives back every block when it fails, and leaves a struct from which
    [pb_release] gives back every block when it succeeds. *)

From stdpp Require Import gmap.
From iris.proofmode Require Import proofmode.
From S2P Require Import Prelude PbStream PbWire PbSafe PbMem PbIter PbDecode PbLayout Sep.
From S2P Require Import Slice PbTriple PbOwned PbFields PbRelease PbFieldSafe PbMsgSafe.

(** ** States *)

(** The bytes of a struct are there, and the memory without them. *)
Definition struct_in (m : memory) (a n : Z) : Prop :=
  exists l, lenB l = n /\ load m a (length l) = Some l.
Definition outside (m : memory) (a n : Z) : memory := forget m a (Z.to_nat n).

(** [pb_decode] recurses once for each level of nesting: one byte of the input at least
    leads to the next pointer or array, and static submessages are [max_rank] deep. *)
Definition max_rank (table : list msg_desc) : nat := max_list (md_rank <$> table).
Definition decode_fuel (table : list msg_desc) (len : Z) : nat :=
  S (max_rank table) * S (Z.to_nat len).

Lemma max_rank_ge table md : md ∈ table -> (md_rank md <= max_rank table)%nat.
Proof. intros Hmd. apply max_list_elem_of_le. by apply list_elem_of_fmap_2. Qed.

Lemma decode_depth table md len fuel :
  md ∈ table -> 0 <= len -> (decode_fuel table len <= fuel)%nat ->
  depth_ok (max_rank table) md len fuel.
Proof.
  intros Hmd%max_rank_ge Hl Hf. unfold decode_fuel in Hf. split; [done |]. nia.
Qed.

(** A part of the state that is exactly [x]. *)
Program Definition exactly (x : res) : hprop := HProp (fun _ y => y = x) _.
Next Obligation. by intros. Qed.

Lemma struct_split e m h a l :
  load m a (length l) = Some l ->
  holds (a ↦ l ∗ exactly (outside m a (lenB l), h)) e (m, h).
Proof.
  intros [_ Hl]%load_Some. apply sep_pts_inv. exists (outside m a (lenB l)).
  unfold outside. rewrite Nat2Z.id. split_and!; [| | done].
  - apply put_disjoint. intros i Hi. by rewrite forget_lookup decide_True.
  - apply map_eq. intros i. rewrite put_lookup forget_lookup. by case_decide as Hi; [apply Hl |].
Qed.

(** The struct is there, and nothing else has changed. *)
Definition alone (m0 : memory) (h0 : blocks) (a n : Z) (m : memory) (h : blocks) : Prop :=
  struct_in m a n /\ outside m a n = outside m0 a n /\ h = h0.

(** The struct is there; there may be more memory and more blocks. *)
Definition extends (m0 : memory) (h0 : blocks) (a n : Z) (m : memory) (h : blocks) : Prop :=
  struct_in m a n /\ outside m0 a n ⊆ outside m a n /\ h0 ⊆ h.

Lemma struct_alone m0 h0 a n phi e m h :
  (forall l, phi l -> lenB l = n) ->
  holds (struct_at a phi (fun _ => exactly (outside m0 a n, h0))) e (m, h) ->
  alone m0 h0 a n m h.
Proof.
  intros Hphi (l & Hl & Hh). specialize (Hphi l Hl). subst n.
  pose proof (pts_load _ _ _ _ _ _ Hh) as Hload.
  apply sep_pts_inv in Hh as (m' & Hd & -> & Hx). injection Hx as -> ->.
  split; [by exists l |]. split; [| done]. unfold outside at 1. rewrite Nat2Z.id.
  by apply forget_put.
Qed.

Lemma struct_extends m0 h0 a n phi F e m h :
  (forall l, phi l -> lenB l = n) ->
  holds (struct_at a phi F ∗ exactly (outside m0 a n, h0)) e (m, h) ->
  extends m0 h0 a n m h.
Proof.
  intros Hphi Hh.
  assert (holds (struct_at a phi (fun l => F l ∗ exactly (outside m0 a n, h0))%I) e (m, h)) as (l & Hl & Hx).
  { eapply holds_mono; [| exact Hh]. iIntros "[(%l & %Hl & H1 & H2) H3]". iExists l. iSplit; [done |]. iFrame. }
  specialize (Hphi l Hl). subst n.
  pose proof (pts_load _ _ _ _ _ _ Hx) as Hload.
  apply sep_pts_inv in Hx as (m' & Hd & -> & (y & z & (H1 & H2 & H3) & _ & ->)).
  simpl in *. injection H3 as -> ->. split; [by exists l |]. split.
  - unfold outside at 2. rewrite Nat2Z.id forget_put; [| done].
    by apply map_union_subseteq_r.
  - by apply map_union_subseteq_r.
Qed.

Section Decode.
Context {St : Type} `{ReadCallback St} `{Allocator}.
Context (table : list msg_desc) (Htable : table_ok table).
Context (ext_types : Z -> option pb_extension_type_t).
Context (user_decode : Z -> pb_field_t -> Z -> prog (dstate St) unit).
Context (user_ext_decode : Z -> Z -> Z -> Z -> prog (dstate St) unit).

Implicit Types (s : dstate St).

Abbreviation decode fuel md := (pb_decode (descs_of table) ext_types user_decode user_ext_decode fuel (md_fields md)).
Abbreviation merge fuel md :=
  (pb_decode_noinit (descs_of table) ext_types user_decode user_ext_decode fuel (md_fields md)).
Abbreviation delimited fuel md :=
  (pb_decode_delimited (descs_of table) ext_types user_decode user_ext_decode fuel (md_fields md)).
Abbreviation release fuel md := (pb_release (descs_of table) ext_types fuel (md_fields md)).

(** A struct of the message is at [a], with a stream to decode it from that is not so long
    that an array of strings or submessages could reach 4 GiB. *)
Definition ready (md : msg_desc) (fuel : nat) (a : Z) (s : dstate St) : Prop :=
  istream_ok (d_in s) /\ md ∈ table /\ 0 < a /\ struct_in (d_mem s) a (md_size md) /\
  entries_fit table (bytes_left (d_in s)) /\
  (decode_fuel table (bytes_left (d_in s)) <= fuel)%nat.

(** An outcome of the program logic for a part of the state and all of the rest; [T] bytes
    are read at most, with those that were read before. *)
Lemma triple_run {A} (T : Z) P (m : prog (dstate St) A) n' Q E s x :
  triple (Bud:=T) (bytes_left (d_in s)) (P ∗ exactly x) m n' Q E -> istream_ok (d_in s) ->
  bytes_left (d_in s) <= T ->
  holds (P ∗ exactly x) (credits T s) (d_mem s, d_blocks s) ->
  match m s with
  | (Done r, s') => (istream_ok (d_in s') /\ bytes_left (d_in s') <= bytes_left (d_in s)) /\
      holds (Q r) (Z.to_nat T) (d_mem s', d_blocks s')
  | (Failed, s') => (istream_ok (d_in s') /\ bytes_left (d_in s') <= bytes_left (d_in s)) /\
      holds E (Z.to_nat T) (d_mem s', d_blocks s')
  | _ => False
  end.
Proof.
  intros Hm [Hb Hi] HT Hx.
  set (base := match i_src (d_in s) with BufSrc mem => mem | CbSrc _ => [] end).
  assert (within base 0 (bytes_left (d_in s)) (d_in s)) as Hw.
  { unfold within. split_and!; [lia | lia | lia |]. unfold base.
    destruct (i_src (d_in s)); [| done]. split; [by exists 0%nat |]. lia. }
  assert (forall (i : pb_istream_t St) k, k <= bytes_left (d_in s) -> within base 0 k i ->
    istream_ok i /\ bytes_left i <= bytes_left (d_in s)) as Hok.
  { intros i k Hk (? & ? & Hi'). split; [| lia]. split; [lia |]. destruct (i_src i); [| done]. lia. }
  assert (forall P s', 0 <= bytes_left (d_in s') ->
    holds (P ∗ emp) (credits T s') (d_mem s', d_blocks s') -> holds P (Z.to_nat T) (d_mem s', d_blocks s')) as Hemp.
  { intros P' s' Hs' HP. apply (holds_mono (P' ∗ emp)); [by rewrite bi.sep_emp |]. eapply holds_up, HP.
    unfold credits. lia. }
  specialize (Hm base 0 emp%I s T ltac:(lia) Hw ltac:(unfold budget; lia)).
  destruct (m s) as [[r | | |] s'].
  1,2: destruct Hm as [Hw' HQ]; [eapply holds_mono; [| exact Hx]; by rewrite bi.sep_emp |];
    pose proof Hw' as ([Hl _] & _); split; [eapply Hok; [| exact Hw']; lia | by apply Hemp].
  all: apply Hm; eapply holds_mono; [| exact Hx]; by rewrite bi.sep_emp.
Qed.

(** A decoded message with all the blocks it owns, and the state it was decoded in. *)
Definition owning (fuel : nat) (loose : bool) (md : msg_desc) (a : Z) (m0 : memory) (h0 : blocks) : hprop :=
  (msg table loose fuel md a ∗ exactly (outside m0 a (md_size md), h0))%I.

(** The message owns nothing. *)
Definition emptied (fuel : nat) (loose : bool) (md : msg_desc) (a : Z) (m0 : memory) (h0 : blocks) : hprop :=
  struct_at a (blank table loose fuel md) (fun _ => exactly (outside m0 a (md_size md), h0)).

Lemma emptied_owning fuel loose md a m0 h0 : emptied fuel loose md a m0 h0 ⊢ owning fuel loose md a m0 h0.
Proof. apply msg_blank. Qed.

Lemma emptied_alone fuel loose md a m0 h0 e m h :
  holds (emptied fuel loose md a m0 h0) e (m, h) -> alone m0 h0 a (md_size md) m h.
Proof. apply struct_alone. by intros l [? _]. Qed.

Lemma owning_extends fuel loose md a m0 h0 e m h :
  holds (owning fuel loose md a m0 h0) e (m, h) -> extends m0 h0 a (md_size md) m h.
Proof. by apply struct_extends. Qed.

Lemma ready_split md fuel a s e :
  ready md fuel a s -> exists l, lenB l = md_size md /\
    holds (a ↦ l ∗ exactly (outside (d_mem s) a (md_size md), d_blocks s)) e (d_mem s, d_blocks s).
Proof.
  intros (_ & _ & _ & (l & <- & Hl) & _). exists l. split; [done |]. by apply struct_split.
Qed.

Lemma decode_runs md fuel a s :
  ready md fuel a s ->
  match decode fuel md a s with
  | (Done _, s') =>
      (istream_ok (d_in s') /\ bytes_left (d_in s') <= bytes_left (d_in s)) /\
      holds (owning fuel false md a (d_mem s) (d_blocks s)) (Z.to_nat (bytes_left (d_in s)))
        (d_mem s', d_blocks s')
  | (Failed, s') =>
      (istream_ok (d_in s') /\ bytes_left (d_in s') <= bytes_left (d_in s)) /\
      holds (emptied fuel true md a (d_mem s) (d_blocks s)) (Z.to_nat (bytes_left (d_in s)))
        (d_mem s', d_blocks s')
  | _ => False
  end.
Proof.
  intros Hr. destruct (ready_split md fuel a s (credits (bytes_left (d_in s)) s) Hr) as (l & Hl & Hx).
  destruct Hr as (Hs & Hmd & Ha & _ & Hfit & Hf).
  apply (triple_run (bytes_left (d_in s)) (a ↦ l) _ (fun _ => bytes_left (d_in s)) _ _ s _
    (triple_pb_decode (Bud:=bytes_left (d_in s)) table Htable ext_types user_decode user_ext_decode (max_rank table)
       (max_rank_ge table) Hfit fuel (bytes_left (d_in s)) fuel md a l
       (exactly (outside (d_mem s) a (md_size md), d_blocks s)) Hmd Ha Hl (le_n _)
       (decode_depth table md _ fuel Hmd (proj1 (proj1 Hs)) Hf)) Hs ltac:(lia) Hx).
Qed.

Lemma release_runs md fuel loose a m0 h0 e s :
  md ∈ table -> 0 < a -> istream_ok (d_in s) ->
  holds (owning fuel loose md a m0 h0) e (d_mem s, d_blocks s) ->
  match release fuel md a s with
  | (Done _, s') =>
      (istream_ok (d_in s') /\ bytes_left (d_in s') <= bytes_left (d_in s)) /\
      exists e', holds (emptied fuel loose md a m0 h0) e' (d_mem s', d_blocks s')
  | _ => False
  end.
Proof.
  intros Hmd Ha Hs Hx. set (T := Z.of_nat e + bytes_left (d_in s)).
  assert (triple (St:=St) (Bud:=T) (bytes_left (d_in s))
    (msg table loose fuel md a ∗ exactly (outside m0 a (md_size md), h0))
    (release fuel md a) (fun _ => bytes_left (d_in s))
    (fun _ => emptied fuel loose md a m0 h0) False) as Ht.
  { apply (triple_pre _ _ (struct_at a (fun l => lenB l = md_size md)
       (fun l => msg_owned table loose fuel md l ∗ exactly (outside m0 a (md_size md), h0))%I)).
    { iIntros "[(%l & %Hl & H1 & H2) H3]". iExists l. iSplit; [done |]. iFrame. }
    apply triple_struct. intros l Hl. unfold pb_release. rewrite (proj2 (Z.eqb_neq a 0)); [| lia].
    by apply (triple_release_fields table Htable ext_types). }
  pose proof (triple_run T (msg table loose fuel md a) _ (fun _ => bytes_left (d_in s)) _ _ s _
    Ht Hs ltac:(unfold T; lia)) as Hrun.
  destruct (release fuel md a s) as [[r | | |] s']; try done.
  - destruct Hrun as [? ?]; [eapply holds_up, Hx; unfold credits, T; lia |]. split; [done | by eexists].
  - destruct Hrun as [_ []]. eapply holds_up, Hx; unfold credits, T; lia.
  - apply Hrun. eapply holds_up, Hx; unfold credits, T; lia.
  - apply Hrun. eapply holds_up, Hx; unfold credits, T; lia.
Qed.

(** After a [pb_release] the memory outside the struct and the blocks are [m0] and [h0],
    also if it is called again and again. *)
Fixpoint releases (k : nat) (fuel : nat) (md : msg_desc) (a : Z) : prog (dstate St) unit :=
  match k with
  | O => release fuel md a
  | S k => _ ← release fuel md a; releases k fuel md a
  end.

Definition gives_back (fuel : nat) (md : msg_desc) (a : Z) (m0 : memory) (h0 : blocks) (m : memory)
    (h : blocks) : Prop :=
  forall k s, istream_ok (d_in s) -> d_mem s = m -> d_blocks s = h ->
    match releases k fuel md a s with
    | (Done _, s') => alone m0 h0 a (md_size md) (d_mem s') (d_blocks s')
    | _ => False
    end.

Lemma owning_gives_back fuel loose md a m0 h0 e m h :
  md ∈ table -> 0 < a -> holds (owning fuel loose md a m0 h0) e (m, h) ->
  gives_back fuel md a m0 h0 m h.
Proof.
  intros Hmd Ha Hx k. revert e m h Hx. induction k as [| k IH]; intros e m h Hx s Hs <- <-;
    pose proof (release_runs md fuel loose a m0 h0 e s Hmd Ha Hs Hx) as Hr; cbn [releases].
  - destruct (release fuel md a s) as [[] s']; try done. destruct Hr as [_ [e' Hr]]. by eapply emptied_alone.
  - unfold mbind, prog_bind. destruct (release fuel md a s) as [[] s']; try done.
    destruct Hr as [[Hs' _] [e' Hr]]. eapply IH; [| done..]. eapply holds_mono; [apply emptied_owning | exact Hr].
Qed.

(** C1: For every table of descriptors that is [table_ok], every allocator, and every input
    (a buffer or a callback) whose length times the size of an entry is below 4 GiB for
    each pointer array of strings, bytes or submessages ([entries_fit]; the code computes
    the offset of an entry in 32 bits), [pb_decode] into a struct runs without a load or
    store outside the struct and its own blocks, without a wrong [free], and within
    [decode_fuel]; when it fails every block it had allocated is freed again and nothing
    outside of the struct has changed; when it succeeds the other memory and blocks are
    still there; the stream is at a later position. *)
Theorem pb_decode_memory_safe md fuel a s (Hr : ready md fuel a s) :
  match decode fuel md a s with
  | (Done _, s') =>
      (istream_ok (d_in s') /\ bytes_left (d_in s') <= bytes_left (d_in s)) /\
      extends (d_mem s) (d_blocks s) a (md_size md) (d_mem s') (d_blocks s')
  | (Failed, s') =>
      (istream_ok (d_in s') /\ bytes_left (d_in s') <= bytes_left (d_in s)) /\
      alone (d_mem s) (d_blocks s) a (md_size md) (d_mem s') (d_blocks s')
  | _ => False
  end.
Proof.
  pose proof (decode_runs md fuel a s Hr) as Hd.
  destruct (decode fuel md a s) as [[] s']; try done; destruct Hd as [[? ?] Hd]; split_and!; try done.
  - by eapply owning_extends.
  - by eapply emptied_alone.
Qed.

(** C2: Whether [pb_decode] succeeds or fails (on an input as in the theorem before), [pb_release] afterwards runs without an
    error and frees exactly the blocks that the decoder left allocated: the blocks and the
    memory outside of the struct are as before [pb_decode], also after a second or further
    release (no leak, no double free). *)
Theorem pb_decode_release_restores md fuel a s (Hr : ready md fuel a s) :
  match decode fuel md a s with
  | (_, s') => gives_back fuel md a (d_mem s) (d_blocks s) (d_mem s') (d_blocks s')
  end.
Proof.
  pose proof (decode_runs md fuel a s Hr) as Hd. destruct Hr as (_ & Hmd & Ha & _).
  destruct (decode fuel md a s) as [[] s']; try done; destruct Hd as [_ Hd].
  - by eapply owning_gives_back.
  - eapply owning_gives_back; [done | done |]. eapply holds_mono; [apply emptied_owning | exact Hd].
Qed.

Lemma merge_runs md fuel a m0 h0 e s :
  md ∈ table -> 0 < a -> istream_ok (d_in s) -> entries_fit table (Z.of_nat e + bytes_left (d_in s)) ->
  (decode_fuel table (bytes_left (d_in s)) <= fuel)%nat ->
  holds (owning fuel false md a m0 h0) e (d_mem s, d_blocks s) ->
  match merge fuel md a s with
  | (Done _, s') | (Failed, s') =>
      exists loose e', holds (owning fuel loose md a m0 h0) e' (d_mem s', d_blocks s')
  | _ => False
  end.
Proof.
  intros Hmd Ha Hs Hfit Hf Hx. set (T := Z.of_nat e + bytes_left (d_in s)) in *.
  pose proof (triple_run T (msg table false fuel md a) _ (fun _ => bytes_left (d_in s)) _ _ s _
    (triple_pb_decode_noinit (Bud:=T) table Htable ext_types user_decode user_ext_decode (max_rank table)
       (max_rank_ge table) Hfit fuel (bytes_left (d_in s)) fuel md a
       (exactly (outside m0 a (md_size md), h0)) Hmd Ha (le_n _)
       (decode_depth table md _ fuel Hmd (proj1 (proj1 Hs)) Hf)) Hs ltac:(unfold T; lia)) as Hrun.
  assert (holds (owning fuel false md a m0 h0) (credits T s) (d_mem s, d_blocks s)) as Hx'
    by (eapply holds_up, Hx; unfold credits, T; lia).
  specialize (Hrun Hx').
  destruct (merge fuel md a s) as [[] s']; try done; [exists false | exists true]; eexists; apply Hrun.
Qed.

(** C3: [pb_decode_noinit] adds the fields of a second input to a message that [pb_decode]
    has decoded: when the two inputs together are short enough for the arrays
    ([entries_fit]), it runs without an error, replaces and extends what the message owns
    without losing a block, and whether it succeeds or fails, [pb_release] gives back all
    the blocks of both calls. *)
Theorem pb_decode_noinit_merges md fuel a s s1 (i : pb_istream_t St) (Hr : ready md fuel a s)
    (Hd : decode fuel md a s = (Done tt, s1))
    (Hi : istream_ok i) (Hfit : entries_fit table (bytes_left (d_in s) + bytes_left i))
    (Hf : (decode_fuel table (bytes_left i) <= fuel)%nat) :
  match merge fuel md a (set_in i s1) with
  | (Done _, s') | (Failed, s') =>
      extends (d_mem s) (d_blocks s) a (md_size md) (d_mem s') (d_blocks s') /\
      gives_back fuel md a (d_mem s) (d_blocks s) (d_mem s') (d_blocks s')
  | _ => False
  end.
Proof.
  pose proof (decode_runs md fuel a s Hr) as Hd'. rewrite Hd in Hd'. destruct Hd' as [_ Hx].
  destruct Hr as (Hs & Hmd & Ha & _).
  assert (entries_fit table (Z.of_nat (Z.to_nat (bytes_left (d_in s))) + bytes_left (d_in (set_in i s1)))) as Hfit'.
  { rewrite Z2Nat.id; [exact Hfit | apply Hs]. }
  pose proof (merge_runs md fuel a _ _ _ (set_in i s1) Hmd Ha Hi Hfit' Hf Hx) as Hm.
  destruct (merge fuel md a (set_in i s1)) as [[] s']; try done; destruct Hm as (loose & e' & Hm);
    (split; [by eapply owning_extends | by eapply owning_gives_back]).
Qed.
End Decode.
