(* ===== verification/PbFirestore.v ===== *)
(** * The decoder on the messages of Firestore

    The table of descriptors that the macros make of the declarations of Cloud Firestore's
    messages satisfies all that the theorems on the decoder assume of a table; with a
    simple allocator they hold of concrete inputs. *)

From Stdlib Require Import String.
From stdpp Require Import gmap strings.
From S2P Require Import Prelude PbStream PbWire PbSafe PbMem PbIter PbEncode PbDecode.
From S2P Require Import PbLayout PbHeader PbEncodeSize FirestoreProtos PbOwned PbFields PbMemSafe.

(** ** The table *)

Definition ids : list string := fst <$> messages.

(** The depth of static submessages, and whether there are no pointers: [n] is a bound on
    the depth. *)
Section Ranks.
Variable all : list (list pb_field_t).

Definition static_subs (fields : list pb_field_t) : list nat :=
  omap (fun f => match f_ptr f with
                 | PtrFields id => if is_pointer f then None else Some id
                 | _ => None
                 end) fields.

Fixpoint static_rank (n : nat) (fields : list pb_field_t) : nat :=
  match n with
  | O => O
  | S n => max_list ((fun id => S (static_rank n (default [] (all !! id)))) <$> static_subs fields)
  end.

Fixpoint no_pointers (n : nat) (fields : list pb_field_t) : bool :=
  match n with
  | O => false
  | S n => forallb (fun f => negb (is_pointer f)) fields &&
           forallb (fun id => no_pointers n (default [] (all !! id))) (static_subs fields)
  end.
End Ranks.

Definition make_table (all : list (list pb_field_t * Z)) : list msg_desc :=
  let fields := fst <$> all in
  (fun m => mk_desc m.1 m.2 (static_rank fields (length all) m.1) (no_pointers fields (length all) m.1)) <$> all.

Definition firestore_fields : list (list pb_field_t * Z) :=
  (fun m => (default [] (fields_of structs ids m.2), sizeof structs (Struct m.1))) <$> messages.
Definition firestore_table : list msg_desc := make_table firestore_fields.

Lemma firestore_table_ok : table_ok firestore_table.
Proof. apply (bool_decide_unpack _). vm_compute. exact I. Qed.

Lemma firestore_in_order : Forall (fun m => in_order structs m.2) messages.
Proof. apply (bool_decide_unpack _). vm_compute. exact I. Qed.

Lemma firestore_expand : Forall (fun m => is_Some (fields_of structs ids m.2)) messages.
Proof. apply (bool_decide_unpack _). vm_compute. exact I. Qed.

Lemma firestore_typed : Forall (fun md => Forall field_typed (md_fields md)) firestore_table.
Proof. apply (bool_decide_unpack _). vm_compute. exact I. Qed.

(** C6: The 87 messages of Firestore are well formed: their declarations follow the order
    of their structs and all expand to descriptors of the right widths, and the table of
    these descriptors satisfies what the theorems on the decoder assume: fields that lie in
    the struct and do not overlap except in unions, sizes that fit their types, counts
    apart from their arrays, submessages whose descriptors are in the table with the right
    size, and a bounded depth of static nesting (7). *)
Theorem firestore_well_formed :
  length messages = 87%nat /\
  Forall (fun m => in_order structs m.2 /\ is_Some (fields_of structs ids m.2)) messages /\
  table_ok firestore_table /\ max_rank firestore_table = 7%nat /\
  Forall (fun md => Forall field_typed (md_fields md)) firestore_table.
Proof.
  split_and!; [by vm_compute | | exact firestore_table_ok | by vm_compute | exact firestore_typed].
  apply Forall_and. split; [exact firestore_in_order | exact firestore_expand].
Qed.

Lemma firestore_fields_ok :
  Forall (fun m => forall fields, fields_of structs ids m.2 = Some fields -> fields_ok fields) messages.
Proof.
  assert (Forall (fun m => fields_ok (default [] (fields_of structs ids m.2))) messages) as H.
  { apply (bool_decide_unpack _). vm_compute. exact I. }
  eapply Forall_impl; [exact H |]. intros m Hm fields Hf. cbv beta in Hm. by rewrite Hf in Hm.
Qed.

Lemma iterator_visits_members_witness :
  Forall (fun m => exists fields, fields_of structs ids m.2 = Some fields /\
    exists its, walk fields 4096 [] = (Done tt, its) /\ Forall2 (visits structs ids 4096) m.2 its) messages.
Proof.
  apply Forall_forall. intros m Hm.
  pose proof (proj1 (Forall_forall _ _) firestore_in_order m Hm) as Ho.
  destruct (proj1 (Forall_forall _ _) firestore_expand m Hm) as [fields Hf].
  pose proof (proj1 (Forall_forall _ _) firestore_fields_ok m Hm fields Hf) as Hok.
  exists fields. split; [exact Hf |].
  pose proof (iterator_visits_members structs ids m.2 fields 4096 Ho Hf Hok ltac:(done)) as X. exact X.
Defined.

(** The entries of the largest array of submessages have 144 bytes: inputs below 28 MiB are
    not too long for the 32-bit offsets of the entries. *)
Lemma firestore_inputs_fit : entries_fit firestore_table 29826161.
Proof. apply (bool_decide_unpack _). vm_compute. exact I. Qed.

(** ** A concrete program *)

Definition desc_of (name : string) : msg_desc :=
  default (mk_desc [] 0 0 false) (assoc name (zip ids firestore_table)).

Lemma desc_of_in name md : assoc name (zip ids firestore_table) = Some md -> desc_of name ∈ firestore_table.
Proof.
  unfold desc_of. intros H. rewrite H. simpl. revert H. generalize firestore_table as t. generalize ids as l.
  induction l as [| x l IH]; intros [| y t]; simpl; try done.
  destruct (String.eqb name x); [intros [= ->]; by left | intros H; right; by apply IH].
Qed.

(** An allocator that takes blocks from above all memory in use. *)
Definition top_of (m : gmap Z byte) : Z := foldr (fun x acc => Z.max (x.1 + 1) acc) 4096 (map_to_list m).

Lemma top_of_ge (m : gmap Z byte) i b : m !! i = Some b -> i < top_of m.
Proof.
  intros H%elem_of_map_to_list%list_elem_of_In. unfold top_of.
  set (l := map_to_list m) in *. clearbody l. induction l as [| [j c] l IH]; simpl in *; [done |].
  destruct H as [[= -> ->] | H]; [lia |]. specialize (IH H). lia.
Qed.

Lemma top_of_pos m : 4096 <= top_of m.
Proof. unfold top_of. induction (map_to_list m) as [| x l IH]; simpl; lia. Qed.

Definition bump (m : memory) (h : blocks) (n : Z) : option Z :=
  if (top_of m + n <=? 2 ^ 64) && bool_decide (h !! top_of m = None)
  then Some (top_of m) else None.

#[global] Instance bump_allocator : Allocator.
Proof.
  refine {| new_block := bump; fresh_byte _ _ := xaa |}.
  intros m h n a. unfold bump. destruct (_ && _) eqn:E; [| done]. intros [= <-].
  apply andb_prop in E as [E2 E3]. apply Z.leb_le in E2. apply bool_decide_eq_true in E3.
  pose proof (top_of_pos m). split_and!; [lia | done | done |].
  intros i Hi. destruct (m !! i) eqn:Em; [| done]. pose proof (top_of_ge m i _ Em). lia.
Defined.

Definition no_types (e : Z) : option pb_extension_type_t := None.
Definition no_decode (f : Z) (field : pb_field_t) (arg : Z) : prog (dstate unit) unit := stuck.
Definition no_ext (f ext tag wire : Z) : prog (dstate unit) unit := stuck.

Abbreviation decode fuel md :=
  (pb_decode (descs_of firestore_table) no_types no_decode no_ext fuel (md_fields md)).
Abbreviation merge fuel md :=
  (pb_decode_noinit (descs_of firestore_table) no_types no_decode no_ext fuel (md_fields md)).

(** A [Value]: an array of 300, "ab" and the map {"k": true}. *)
Definition value_desc : msg_desc := desc_of "google_firestore_v1_Value".
Definition value_input : list byte :=
  [x4a; x19; x0a; x03; x10; xac; x02; x0a; x05; x8a; x01; x02; x61; x62;
   x0a; x0b; x32; x09; x0a; x07; x0a; x01; x6b; x12; x02; x08; x01].

(** A second input: the string "z" takes the place of the array. *)
Definition string_input : list byte := [x8a; x01; x01; x7a].

Definition stream_of (l : list byte) : pb_istream_t unit := pb_istream_from_buffer l (Z.of_nat (length l)).

(** The struct has garbage in it, and another block is in use. *)
Definition start_mem : memory := put (put ∅ 16 (repeat xbb 24)) 64 [x01; x02].
Definition start_state (l : list byte) : dstate unit :=
  mk_dstate (stream_of l) start_mem {[64 := 2]} 0.

Definition enough : nat := decode_fuel firestore_table (Z.of_nat (length value_input)).

Lemma value_in : value_desc ∈ firestore_table.
Proof. by eapply desc_of_in; vm_compute. Qed.

Lemma stream_of_ok l : Z.of_nat (length l) < 2 ^ 64 -> istream_ok (stream_of l).
Proof. intros. unfold istream_ok, stream_of, pb_istream_from_buffer. simpl. lia. Qed.

Lemma value_ready l :
  (length l <= length value_input)%nat -> ready firestore_table value_desc enough 16 (start_state l).
Proof.
  intros Hl. split_and!; [| exact value_in | done | | |].
  - apply stream_of_ok. simpl in Hl |- *. lia.
  - exists (repeat xbb 24). by vm_compute.
  - eapply entries_fit_le; [exact firestore_table_ok | exact firestore_inputs_fit |]. simpl in Hl |- *. lia.
  - unfold enough, decode_fuel. simpl d_in. unfold stream_of, pb_istream_from_buffer. simpl bytes_left.
    rewrite !Nat2Z.id. apply Nat.mul_le_mono_l. lia.
Qed.

Abbreviation start := (start_state value_input).

Lemma pb_decode_memory_safe_witness :
  match decode enough value_desc 16 start with
  | (Done _, s') =>
      (istream_ok (d_in s') /\ bytes_left (d_in s') <= bytes_left (d_in start)) /\
      extends (d_mem start) (d_blocks start) 16 (md_size value_desc) (d_mem s') (d_blocks s')
  | (Failed, s') =>
      (istream_ok (d_in s') /\ bytes_left (d_in s') <= bytes_left (d_in start)) /\
      alone (d_mem start) (d_blocks start) 16 (md_size value_desc) (d_mem s') (d_blocks s')
  | _ => False
  end.
Proof.
  pose proof (pb_decode_memory_safe firestore_table firestore_table_ok no_types no_decode no_ext
    value_desc enough 16 (start_state value_input) (value_ready value_input (le_n _))) as X. exact X.
Defined.

Lemma value_decoded : (decode enough value_desc 16 start).1 = Done tt.
Proof. by vm_compute. Qed.

Lemma pb_decode_release_restores_witness :
  match decode enough value_desc 16 start with
  | (_, s') => gives_back (St:=unit) firestore_table no_types enough value_desc 16 (d_mem start) (d_blocks start) (d_mem s') (d_blocks s')
  end.
Proof.
  pose proof (pb_decode_release_restores firestore_table firestore_table_ok no_types no_decode no_ext
    value_desc enough 16 (start_state value_input) (value_ready value_input (le_n _))) as X. exact X.
Defined.

Definition decoded_state : dstate unit := (decode enough value_desc 16 start).2.

Lemma decoded_state_run : decode enough value_desc 16 start = (Done tt, decoded_state).
Proof. unfold decoded_state. rewrite <- value_decoded. apply surjective_pairing. Qed.

Lemma string_fuel : (decode_fuel firestore_table (bytes_left (stream_of string_input)) <= enough)%nat.
Proof. apply Nat.mul_le_mono_l. apply (bool_decide_unpack _). vm_compute. exact I. Qed.

Lemma string_ok : istream_ok (stream_of string_input).
Proof. by apply stream_of_ok. Qed.

Lemma both_fit :
  entries_fit firestore_table (bytes_left (d_in start) + bytes_left (stream_of string_input)).
Proof. by eapply entries_fit_le; [exact firestore_table_ok | exact firestore_inputs_fit | vm_compute]. Qed.

Lemma pb_decode_noinit_merges_witness :
  match merge enough value_desc 16 (set_in (stream_of string_input) decoded_state) with
  | (Done _, s') | (Failed, s') =>
      extends (d_mem start) (d_blocks start) 16 (md_size value_desc) (d_mem s') (d_blocks s') /\
      gives_back (St:=unit) firestore_table no_types enough value_desc 16 (d_mem start) (d_blocks start) (d_mem s') (d_blocks s')
  | _ => False
  end.
Proof.
  pose proof (pb_decode_noinit_merges firestore_table firestore_table_ok no_types no_decode no_ext
    value_desc enough 16 start decoded_state (stream_of string_input) (value_ready value_input (le_n _))
    decoded_state_run string_ok both_fit string_fuel) as X. exact X.
Defined.

(** ** Encoding it again *)

Definition no_encode (f : Z) (field : pb_field_t) (arg : Z) : prog (pb_ostream_t unit) unit := stuck.
Definition no_ext_encode (f ext : Z) : prog (pb_ostream_t unit) unit := stuck.

Abbreviation encode m fuel md :=
  (pb_encode (St:=unit) m (descs_of firestore_table) no_types no_encode no_ext_encode fuel (md_fields md)).

Lemma descs_typed id : Forall field_typed (descs_of firestore_table id).
Proof.
  unfold descs_of. destruct (firestore_table !! id) as [md |] eqn:E; [| constructor].
  exact (proj1 (Forall_lookup _ _) firestore_typed id md E).
Qed.

Lemma value_typed : Forall field_typed (md_fields value_desc).
Proof. exact (proj1 (Forall_forall _ _) firestore_typed value_desc value_in). Qed.

Lemma value_size :
  pb_get_encoded_size (d_mem decoded_state) (descs_of firestore_table) no_types no_encode no_ext_encode enough
    (md_fields value_desc) 16 PB_OSTREAM_SIZING
  = (Done (Z.of_nat (length value_input)), PB_OSTREAM_SIZING).
Proof. by vm_compute. Qed.

Lemma value_readable :
  (encode (d_mem decoded_state) enough value_desc 16 (pb_ostream_from_buffer (Z.of_nat (length value_input)))).1
  <> Stuck.
Proof. by vm_compute. Qed.

Lemma no_types_typed t e : no_types t = Some e -> Forall field_typed (et_arg e).
Proof. done. Qed.

Lemma encoded_size_exact_witness :
  exists l, Z.of_nat (length value_input) = u64 (Z.of_nat (length l)) /\
    second_pass (encode (d_mem decoded_state) enough value_desc 16) l /\
    second_pass (pb_encode_delimited (St:=unit) (d_mem decoded_state) (descs_of firestore_table) no_types no_encode
                   no_ext_encode enough (md_fields value_desc) 16) (varint (Z.of_nat (length value_input)) ++ l).
Proof.
  pose proof (encoded_size_exact (d_mem decoded_state) (descs_of firestore_table) no_types no_encode no_ext_encode
    descs_typed no_types_typed
    (fun _ _ _ => uniform_stuck) (fun _ _ => uniform_stuck) enough (md_fields value_desc) 16
    (Z.of_nat (length value_input)) PB_OSTREAM_SIZING PB_OSTREAM_SIZING value_typed value_size value_readable) as X.
  exact X.
Defined.

(** The encoder writes the bytes that were decoded. *)
Example value_roundtrip :
  (encode (d_mem decoded_state) enough value_desc 16 (pb_ostream_from_buffer 100)).1 = Done tt /\
  o_sink (encode (d_mem decoded_state) enough value_desc 16 (pb_ostream_from_buffer 100)).2
    = BufSink value_input (100 - Z.of_nat (length value_input)).
Proof. by vm_compute. Qed.
