(* ===== verification/PbFindings.v ===== *)
(** * Where the message level goes wrong

    Descriptors outside [table_ok] and streams that fail at a bad moment: concrete runs of
    the decoder and of the encoder, evaluated; and what becomes of arrays of 4 GiB. *)

From stdpp Require Import gmap strings.
From S2P Require Import Prelude PbStream PbWire PbMem PbIter PbEncode PbDecode PbOwned PbFirestore.

Definition run_decode (descs : nat -> list pb_field_t) (fields : list pb_field_t) (size : nat) (input : list byte)
    : outcome unit * dstate unit :=
  pb_decode descs no_types no_decode no_ext 10 fields 16
    (mk_dstate (stream_of input) (put ∅ 16 (repeat xbb size)) ∅ 0).

(** ** Static arrays of submessages with pointers *)

(** A submessage with a [bytes] pointer, and a message with a static array of two of
    them: [pb_size_t items_count; Item items[2];]. *)
Definition item_fields : list pb_field_t :=
  [mk_field 1 (PB_ATYPE_POINTER .| PB_HTYPE_OPTIONAL .| PB_LTYPE_BYTES) 0 0 8 0 PtrNull].
Definition items_fields : list pb_field_t :=
  [mk_field 1 (PB_ATYPE_STATIC .| PB_HTYPE_REPEATED .| PB_LTYPE_SUBMESSAGE) 8 (-8) 8 2 (PtrFields 0)].
Definition items_descs (id : nat) : list pb_field_t := item_fields.

(** On an input that ends after the length of an entry [pb_decode] frees a pointer that was
    never set: the entry is counted before it is initialised, and the release after the
    failure frees what the struct happened to hold. *)
Example static_array_frees_garbage :
  (run_decode items_descs items_fields 24 [x0a; x05]).1 = Stuck.
Proof. by vm_compute. Qed.

(** With the entry there, all is well. *)
Example static_array_decodes :
  (run_decode items_descs items_fields 24 [x0a; x03; x0a; x01; x61]).1 = Done tt.
Proof. by vm_compute. Qed.

(** ** Arrays of 4 GiB *)

(** [data_size * ( *size)] is a product of two 32-bit numbers: the entry that is added to a
    pointer array of 4 GiB or more is written into entries that are in use, and
    not after them. *)
Lemma item_at_wraps data f c :
  0 <= c -> 0 < f_data_size f < 2 ^ 32 -> 2 ^ 32 <= f_data_size f * c ->
  let item := item_at data f c in
  item < data + f_data_size f * c /\
  exists k, 0 <= k < c /\ data + f_data_size f * k <= item < data + f_data_size f * (k + 1).
Proof.
  intros Hc Hds Hbig. unfold item_at, u32. cbv zeta.
  pose proof (Z.mod_pos_bound (f_data_size f * c) (2 ^ 32) ltac:(lia)) as Hm.
  set (o := (f_data_size f * c) mod 2 ^ 32) in *. split; [lia |]. exists (o / f_data_size f).
  pose proof (Z.div_mod o (f_data_size f) ltac:(lia)) as Hd.
  pose proof (Z.mod_pos_bound o (f_data_size f) ltac:(lia)).
  pose proof (Z.div_pos o (f_data_size f) ltac:(lia) ltac:(lia)). nia.
Qed.

(** ** Fixed-count arrays *)

(** [bool flags[2];] at the end of a struct, without a count. *)
Definition flags_fields : list pb_field_t :=
  [mk_field 1 (PB_ATYPE_STATIC .| PB_HTYPE_REPEATED .| PB_LTYPE_BOOL) 0 0 1 2 PtrNull].

(** [pb_field_set_to_default] clears a count of four bytes where the array is: beyond the
    end of an array of two bytes. *)
Lemma fixed_count_default_overflows : (run_decode (fun _ => []) flags_fields 2 []).1 = Stuck.
Proof. by vm_compute. Qed.

(** ** Messages without fields *)

(** The iterator finds the tag 0 at the terminator of the descriptors, and a [bool] is
    decoded into the struct. *)
Lemma empty_message_decodes_tag_0 :
  (run_decode (fun _ => []) [] 1 [x01; x05]).1 = Done tt /\
  load (d_mem (run_decode (fun _ => []) [] 1 [x01; x05]).2) 16 1 = Some [x01].
Proof. by vm_compute. Qed.

(** ** A delimited message on a stream that breaks off *)

(** A stream of bytes that fails when they are used up. *)
#[local] Instance read_list : ReadCallback (list byte).
Proof.
  refine {| user_read l n := if Nat.leb n (length l) then (Some (take n l), drop n l) else (None, l) |}.
  intros l n k l'. destruct (Nat.leb_spec n (length l)); [| done]. intros [= <- <-].
  rewrite length_take. lia.
Defined.

Definition broken_stream : pb_istream_t (list byte) :=
  mk_istream (CbSrc [x06; x0a; x01; x61; x00]) 100 None.
Definition delimited_run : outcome unit * dstate (list byte) :=
  pb_decode_delimited items_descs no_types (fun _ _ _ => stuck) (fun _ _ _ _ => stuck) 10 item_fields 16
    (mk_dstate broken_stream (put ∅ 16 (repeat xbb 8)) ∅ 0).

(** [pb_decode_delimited] fails when the rest of the message after a null tag cannot be
    read, and does not release what it has decoded. *)
Lemma delimited_failure_leaks :
  delimited_run.1 = Failed /\ d_blocks delimited_run.2 = {[4096 := 5]}.
Proof. by vm_compute. Qed.

(** ** Default values of pointers *)

(** A submessage with a pointer to a [bool], in a proto3 message. *)
Definition flag_fields : list pb_field_t :=
  [mk_field 1 (PB_ATYPE_POINTER .| PB_HTYPE_OPTIONAL .| PB_LTYPE_BOOL) 0 0 1 0 PtrNull].
Definition outer_fields : list pb_field_t :=
  [mk_field 1 (PB_ATYPE_STATIC .| PB_HTYPE_OPTIONAL .| PB_LTYPE_SUBMESSAGE) 0 0 8 0 (PtrFields 0)].

(** The submessage at 16 points to a [true] at [p]. *)
Definition flag_at (p : Z) : memory := put (put ∅ 16 (ptr_bytes p)) p [x01].
Definition encode_flag (p : Z) : outcome unit * pb_ostream_t unit :=
  pb_encode (flag_at p) (fun _ => flag_fields) no_types no_encode no_ext_encode 10 outer_fields 16
    (pb_ostream_from_buffer 100).

(** [pb_check_proto3_default_value] looks at [data_size] bytes of the pointer, one here:
    the submessage is left out when its pointer is a multiple of 256. *)
Lemma pointer_default_by_address :
  o_sink (encode_flag 4096).2 = BufSink [] 100 /\
  o_sink (encode_flag 4097).2 = BufSink [x0a; x02; x08; x01] 96.
Proof. by vm_compute. Qed.
