(* ===== verification/Crypto.v ===== *)
(** * Shared helpers of BoringSSL's libcrypto

    The constant-time word operations of [crypto/internal.h] and the memory and
    string helpers of [crypto/mem.c], on a 64-bit target.  Memory is the list of
    the bytes from a pointer to the end of its object; reading past the end is
    [None].  [malloc] is outside the sources: [malloc_ok n] says whether it can
    give [n] bytes. *)

From S2P Require Import Prelude.

(** ** Constant-time words ([crypto_word_t] is [uint64_t]) *)

Definition CONSTTIME_TRUE_W : Z := 2 ^ 64 - 1.
Definition CONSTTIME_FALSE_W : Z := 0.

(** [~a] of a 64-bit word. *)
Definition not_w (a : Z) : Z := u64 (Z.lnot a).

Definition constant_time_msb_w (a : Z) : Z := u64 (0 - (a .>> 63)).
Definition constant_time_lt_w (a b : Z) : Z :=
  constant_time_msb_w (a .^ ((a .^ b) .| (u64 (a - b) .^ a))).
Definition constant_time_lt_8 (a b : Z) : Z := u8 (constant_time_lt_w a b).
Definition constant_time_ge_w (a b : Z) : Z := not_w (constant_time_lt_w a b).
Definition constant_time_ge_8 (a b : Z) : Z := u8 (constant_time_ge_w a b).
Definition constant_time_is_zero_w (a : Z) : Z :=
  constant_time_msb_w (not_w a .& u64 (a - 1)).
Definition constant_time_is_zero_8 (a : Z) : Z := u8 (constant_time_is_zero_w a).
Definition constant_time_eq_w (a b : Z) : Z := constant_time_is_zero_w (a .^ b).
Definition constant_time_eq_8 (a b : Z) : Z := u8 (constant_time_eq_w a b).

(** The argument is an [int] converted to [crypto_word_t]. *)
Definition constant_time_eq_int (a b : Z) : Z := constant_time_eq_w (u64 a) (u64 b).
Definition constant_time_eq_int_8 (a b : Z) : Z := constant_time_eq_8 (u64 a) (u64 b).

Definition constant_time_select_w (mask a b : Z) : Z := (mask .& a) .| (not_w mask .& b).
Definition constant_time_select_8 (mask a b : Z) : Z := u8 (constant_time_select_w mask a b).
Definition constant_time_select_int (mask a b : Z) : Z :=
  i32 (constant_time_select_w mask (u64 a) (u64 b)).

(** What the functions promise: a mask of ones for a condition. *)
Definition mask_w (c : bool) : Z := if c then CONSTTIME_TRUE_W else CONSTTIME_FALSE_W.
Definition mask_8 (c : bool) : Z := if c then 255 else 0.

(** ** Byte order *)

(** The targets are built with clang: [__builtin_bswap16/32/64] reverse the bytes. *)
Definition CRYPTO_bswap2 (x : Z) : Z := be_value (reverse (be_bytes 2 x)).
Definition CRYPTO_bswap4 (x : Z) : Z := be_value (reverse (be_bytes 4 x)).
Definition CRYPTO_bswap8 (x : Z) : Z := be_value (reverse (be_bytes 8 x)).

(** ** Memory and strings *)

(** The loop of [CRYPTO_memcmp] over the accumulator [x]. *)
Fixpoint memcmp_loop (len : nat) (a b : list byte) (x : Z) : option Z :=
  match len with
  | O => Some x
  | S len =>
      match a, b with
      | ai :: a, bi :: b => memcmp_loop len a b (u8 (x .| (b2z ai .^ b2z bi)))
      | _, _ => None
      end
  end.

Definition CRYPTO_memcmp (a b : list byte) (len : nat) : option Z := memcmp_loop len a b 0.

Fixpoint hash32_loop (len : nat) (inp : list byte) (h : Z) : option Z :=
  match len with
  | O => Some h
  | S len =>
      match inp with
      | [] => None
      | b :: inp => hash32_loop len inp (u32 ((h .^ b2z b) * 16777619))
      end
  end.

Definition OPENSSL_hash32 (ptr : list byte) (len : nat) : option Z :=
  hash32_loop len ptr 2166136261.

(** [strlen]: up to the first NUL, which must be there. *)
Fixpoint strlen (s : list byte) : option nat :=
  match s with
  | [] => None
  | b :: s => if b2z b =? 0 then Some O else S <$> strlen s
  end.

Definition OPENSSL_strhash (s : list byte) : option Z :=
  n ← strlen s; OPENSSL_hash32 s n.

Fixpoint OPENSSL_strnlen (s : list byte) (len : nat) : option nat :=
  match len with
  | O => Some O
  | S len =>
      match s with
      | [] => None
      | b :: s => if b2z b =? 0 then Some O else S <$> OPENSSL_strnlen s len
      end
  end.

Definition OPENSSL_tolower (c : Z) : Z :=
  if (65 <=? c) && (c <=? 90) then c + 32 else c.

(** [char] is signed on the targets. *)
Fixpoint OPENSSL_strcasecmp (a b : list byte) : option Z :=
  match a, b with
  | ai :: a, bi :: b =>
      let aa := OPENSSL_tolower (i8 (b2z ai)) in
      let bb := OPENSSL_tolower (i8 (b2z bi)) in
      if aa <? bb then Some (-1)
      else if bb <? aa then Some 1
      else if aa =? 0 then Some 0
      else OPENSSL_strcasecmp a b
  | _, _ => None
  end.

Fixpoint OPENSSL_strncasecmp (a b : list byte) (n : nat) : option Z :=
  match n with
  | O => Some 0
  | S n =>
      match a, b with
      | ai :: a, bi :: b =>
          let aa := OPENSSL_tolower (i8 (b2z ai)) in
          let bb := OPENSSL_tolower (i8 (b2z bi)) in
          if aa <? bb then Some (-1)
          else if bb <? aa then Some 1
          else if aa =? 0 then Some 0
          else OPENSSL_strncasecmp a b n
      | _, _ => None
      end
  end.

(** Copies into [dst], an object of [length dst] bytes, and returns it with the
    result; [dst_size] is what the caller claims it to be. *)
Fixpoint strlcpy_loop (dst src : list byte) (dst_size : nat) {struct src} : option (list byte * nat) :=
  match src with
  | [] => None
  | c :: src' =>
      if (Nat.ltb 1 dst_size) && negb (b2z c =? 0) then
        match dst with
        | [] => None
        | _ :: dst => '(dst, l) ← strlcpy_loop dst src' (pred dst_size); Some (c :: dst, S l)
        end
      else
        n ← strlen src;
        if Nat.eqb dst_size 0 then Some (dst, n) else
        match dst with
        | [] => None
        | _ :: dst => Some (x00 :: dst, n)
        end
  end.

Definition OPENSSL_strlcpy (dst src : list byte) (dst_size : nat) : option (list byte * nat) :=
  strlcpy_loop dst src dst_size.

(** The first loop moves [dst] to its end, within [dst_size]. *)
Fixpoint OPENSSL_strlcat (dst src : list byte) (dst_size : nat) : option (list byte * nat) :=
  match dst_size with
  | O => OPENSSL_strlcpy dst src O
  | S size =>
      match dst with
      | [] => None
      | c :: dst' =>
          if b2z c =? 0 then OPENSSL_strlcpy dst src dst_size
          else '(dst', n) ← OPENSSL_strlcat dst' src size; Some (c :: dst', S n)
      end
  end.

Section Alloc.
Variable malloc_ok : Z -> bool.

Definition OPENSSL_MALLOC_PREFIX : Z := 8.

(** Whether [OPENSSL_malloc(size)] returns a block. *)
Definition OPENSSL_malloc (size : Z) : bool :=
  if u64 (size + OPENSSL_MALLOC_PREFIX) <? size then false
  else malloc_ok (u64 (size + OPENSSL_MALLOC_PREFIX)).

(** [None] is the [NULL] pointer; the inner option is a read out of bounds. *)
Definition OPENSSL_memdup (data : list byte) (size : nat) : option (option (list byte)) :=
  if Nat.eqb size 0 then Some None else
  if negb (OPENSSL_malloc (Z.of_nat size)) then Some None else
  if Nat.leb size (length data) then Some (Some (take size data)) else None.

Definition OPENSSL_strndup (str : list byte) (size : nat) : option (option (list byte)) :=
  size ← OPENSSL_strnlen str size;
  let alloc_size := u64 (Z.of_nat size + 1) in
  if alloc_size <? Z.of_nat size then Some None else
  if negb (OPENSSL_malloc alloc_size) then Some None else
  Some (Some (take size str ++ [x00])).
End Alloc.

(** ** The masks *)

Lemma testbit_63 x : 0 <= x < 2 ^ 64 -> Z.testbit x 63 = (2 ^ 63 <=? x).
Proof.
  intros Hx. rewrite Z.testbit_eqb by lia. destruct (Z.leb_spec (2 ^ 63) x).
  - by replace (x / 2 ^ 63) with 1 by dlia.
  - by rewrite Z.div_small by lia.
Qed.

Lemma msb_w_spec x : 0 <= x < 2 ^ 64 -> constant_time_msb_w x = mask_w (Z.testbit x 63).
Proof.
  intros Hx. rewrite testbit_63 by done. unfold constant_time_msb_w.
  rewrite Z.shiftr_div_pow2 by lia. destruct (Z.leb_spec (2 ^ 63) x).
  - by replace (x / 2 ^ 63) with 1 by dlia.
  - by rewrite Z.div_small by lia.
Qed.

Lemma lxor_lt_pow2 a b n : 0 <= n -> 0 <= a < 2 ^ n -> 0 <= b < 2 ^ n -> 0 <= a .^ b < 2 ^ n.
Proof.
  intros Hn Ha Hb.
  enough (a .^ b = (a .^ b) mod 2 ^ n) as -> by (apply Z.mod_pos_bound; lia).
  apply Z.bits_inj'. intros i Hi. destruct (Z_lt_ge_dec i n).
  - by rewrite Z.mod_pow2_bits_low.
  - rewrite Z.mod_pow2_bits_high, Z.lxor_spec by lia.
    by rewrite !(testbit_small _ n) by lia.
Qed.

Lemma land_lt_pow2 a b n : 0 <= n -> 0 <= a < 2 ^ n -> 0 <= a .& b < 2 ^ n.
Proof.
  intros Hn Ha.
  enough (a .& b = (a .& b) mod 2 ^ n) as -> by (apply Z.mod_pos_bound; lia).
  apply Z.bits_inj'. intros i Hi. destruct (Z_lt_ge_dec i n).
  - by rewrite Z.mod_pow2_bits_low.
  - rewrite Z.mod_pow2_bits_high, Z.land_spec by lia.
    by rewrite (testbit_small a n) by lia.
Qed.

Lemma u64_range z : 0 <= u64 z < 2 ^ 64.
Proof. by apply wrap_range. Qed.

Lemma constant_time_lt_w_spec a b :
  0 <= a < 2 ^ 64 -> 0 <= b < 2 ^ 64 -> constant_time_lt_w a b = mask_w (a <? b).
Proof.
  intros Ha Hb. unfold constant_time_lt_w. pose proof (u64_range (a - b)).
  rewrite msb_w_spec by
    (repeat first [apply lxor_lt_pow2 | apply lor_lt_pow2]; done || lia).
  rewrite !Z.lxor_spec, Z.lor_spec, !Z.lxor_spec, !testbit_63 by done. f_equal.
  assert (u64 (a - b) = if a <? b then a - b + 2 ^ 64 else a - b) as Hs.
  { unfold wrap. case_bool.
    - symmetry. apply Z.mod_unique with (-1); lia.
    - rewrite Z.mod_small; lia. }
  rewrite Hs. destruct (Z.ltb_spec a b), (Z.leb_spec (2 ^ 63) a), (Z.leb_spec (2 ^ 63) b);
    case_bool; simpl; try done; lia.
Qed.

Lemma not_w_mask c : not_w (mask_w c) = mask_w (negb c).
Proof. by destruct c. Qed.

Lemma constant_time_ge_w_spec a b :
  0 <= a < 2 ^ 64 -> 0 <= b < 2 ^ 64 -> constant_time_ge_w a b = mask_w (b <=? a).
Proof.
  intros. unfold constant_time_ge_w. rewrite constant_time_lt_w_spec, not_w_mask by done.
  by rewrite Z.leb_antisym.
Qed.

Lemma not_w_testbit a : 0 <= a < 2 ^ 64 -> Z.testbit (not_w a) 63 = negb (Z.testbit a 63).
Proof.
  intros Ha. unfold not_w, wrap. rewrite Z.mod_pow2_bits_low by lia.
  by rewrite Z.lnot_spec by lia.
Qed.

Lemma constant_time_is_zero_w_spec a :
  0 <= a < 2 ^ 64 -> constant_time_is_zero_w a = mask_w (a =? 0).
Proof.
  intros Ha. unfold constant_time_is_zero_w.
  pose proof (u64_range (a - 1)). pose proof (u64_range (Z.lnot a)).
  rewrite msb_w_spec by by apply land_lt_pow2.
  rewrite Z.land_spec, not_w_testbit, !testbit_63 by done. f_equal.
  destruct (Z.eqb_spec a 0) as [-> |]; [done |]. rewrite (wrap_small 64 (a - 1)) by lia.
  destruct (Z.leb_spec (2 ^ 63) a), (Z.leb_spec (2 ^ 63) (a - 1)); simpl; (done || lia).
Qed.

Lemma constant_time_eq_w_spec a b :
  0 <= a < 2 ^ 64 -> 0 <= b < 2 ^ 64 -> constant_time_eq_w a b = mask_w (a =? b).
Proof.
  intros. unfold constant_time_eq_w.
  rewrite constant_time_is_zero_w_spec by by apply lxor_lt_pow2.
  f_equal. destruct (Z.eqb_spec a b) as [-> | Hne]; [by rewrite Z.lxor_nilpotent |].
  apply Z.eqb_neq. by rewrite Z.lxor_eq_0_iff.
Qed.

Lemma u8_mask_w c : u8 (mask_w c) = mask_8 c.
Proof. by destruct c. Qed.

Lemma constant_time_select_w_spec c a b :
  0 <= a < 2 ^ 64 -> 0 <= b < 2 ^ 64 ->
  constant_time_select_w (mask_w c) a b = if c then a else b.
Proof.
  intros Ha Hb. unfold constant_time_select_w. rewrite not_w_mask. destruct c; simpl;
    unfold CONSTTIME_TRUE_W, CONSTTIME_FALSE_W;
    rewrite Z.land_0_l, Z.land_comm, (land_mod _ 64), Z.mod_small by done;
    [apply Z.lor_0_r | apply Z.lor_0_l].
Qed.

(** An 8-bit mask is promoted to [crypto_word_t]: its complement has the high bits
    set, which the conversion of the result to [uint8_t] drops. *)
Lemma constant_time_select_8_spec c a b :
  0 <= a < 256 -> 0 <= b < 256 ->
  constant_time_select_8 (mask_8 c) a b = if c then a else b.
Proof.
  intros Ha Hb. unfold constant_time_select_8, constant_time_select_w. destruct c; simpl.
  - rewrite (Z.land_comm 255), land_ff, (Z.mod_small a) by lia.
    change (not_w 255) with ((2 ^ 56 - 1) .<< 8). rewrite <- (Z.mod_small b 256) by lia.
    rewrite <- land_ff, <- (Z.land_comm 255), Z.land_assoc.
    change (((2 ^ 56 - 1) .<< 8) .& 255) with 0. rewrite Z.land_0_l, Z.lor_0_r.
    by apply wrap_small.
  - change (not_w 0) with (2 ^ 64 - 1).
    rewrite Z.land_0_l, Z.lor_0_l, Z.land_comm, (land_mod _ 64), !wrap_small; try done;
      rewrite ?Z.mod_small; lia.
Qed.


(** ** Comparison and copying *)

Lemma lor_eq_0 a b : a .| b = 0 <-> a = 0 /\ b = 0.
Proof. apply Z.lor_eq_0_iff. Qed.

Lemma memcmp_loop_spec len a b x :
  (len <= length a)%nat -> (len <= length b)%nat -> 0 <= x < 256 ->
  exists y, memcmp_loop len a b x = Some y /\ 0 <= y < 256 /\
    (y = 0 <-> x = 0 /\ take len a = take len b).
Proof.
  revert a b x. induction len as [| len IH]; intros a b x Ha Hb Hx.
  { exists x. split_and!; [done | lia | lia |]. rewrite !take_0. tauto. }
  destruct a as [| ai a], b as [| bi b]; simpl in Ha, Hb; try lia.
  assert (0 <= b2z ai .^ b2z bi < 2 ^ 8) as Hxor by (apply lxor_lt_pow2; blia).
  assert (0 <= x .| (b2z ai .^ b2z bi) < 2 ^ 8) as Hor by (apply lor_lt_pow2; lia).
  destruct (IH a b (x .| (b2z ai .^ b2z bi))) as (y & Hy & Hr & Hz); [lia.. |].
  exists y. cbn [memcmp_loop]. rewrite wrap_small by done. split_and!; [done | lia.. |].
  rewrite Hz, lor_eq_0, Z.lxor_eq_0_iff. cbn [take]. split.
  - intros [[-> ->%b2z_inj] ->]. done.
  - by intros [-> [= -> ->]].
Qed.

Lemma strlen_nul s rest :
  Forall (fun b => b2z b <> 0) s -> strlen (s ++ x00 :: rest) = Some (length s).
Proof.
  induction 1 as [| b s Hb Hs IH]; [done |]. simpl. rewrite (proj2 (Z.eqb_neq _ _) Hb).
  by rewrite IH.
Qed.

Lemma strnlen_nul s rest n :
  Forall (fun b => b2z b <> 0) s ->
  OPENSSL_strnlen (s ++ x00 :: rest) n = Some (Nat.min n (length s)).
Proof.
  intros Hs. revert n. induction Hs as [| b s Hb Hs IH]; intros [| n]; try done.
  simpl. rewrite (proj2 (Z.eqb_neq _ _) Hb), IH. done.
Qed.

Lemma strlcpy_loop_spec s rest dst n :
  Forall (fun b => b2z b <> 0) s -> (n <= length dst)%nat ->
  strlcpy_loop dst (s ++ x00 :: rest) n
  = Some (match n with
          | O => dst
          | S k => take k s ++ x00 :: drop (S (Nat.min k (length s))) dst
          end, length s).
Proof.
  intros Hs. revert dst n. induction Hs as [| b s Hb Hs IH]; intros dst n Hn.
  - cbn [app strlcpy_loop strlen]. change (b2z x00 =? 0) with true. cbn [negb].
    rewrite andb_false_r. destruct n as [| k]; [done |]. destruct dst as [| d dst]; [simpl in Hn; lia |].
    simpl. by rewrite take_nil, Nat.min_0_r, drop_0.
  - cbn [app strlcpy_loop]. rewrite (proj2 (Z.eqb_neq _ _) Hb), andb_true_r.
    destruct n as [| [| k]].
    + simpl. rewrite (proj2 (Z.eqb_neq _ _) Hb), strlen_nul by done. done.
    + simpl. rewrite (proj2 (Z.eqb_neq _ _) Hb), strlen_nul by done. simpl.
      destruct dst as [| d dst]; [simpl in Hn; lia |]. simpl. by rewrite drop_0.
    + simpl. destruct dst as [| d dst]; [simpl in Hn; lia |].
      rewrite IH by (simpl in Hn; lia). done.
Qed.

(** ** Properties *)

(** C37: the constant-time operations compute what they stand for, without a branch: for
    any two words, [constant_time_lt_w], [_ge_w], [_eq_w] and [_is_zero_w] are the
    all-ones or all-zeros mask of the comparison, [constant_time_select_w] on such
    a mask picks one of its arguments, and so does [constant_time_select_8]
    through the promotion of its 8-bit mask. *)
Theorem constant_time_correct (a b : Z) (c : bool) :
  0 <= a < 2 ^ 64 -> 0 <= b < 2 ^ 64 ->
  constant_time_lt_w a b = mask_w (a <? b) /\
  constant_time_ge_w a b = mask_w (b <=? a) /\
  constant_time_eq_w a b = mask_w (a =? b) /\
  constant_time_is_zero_w a = mask_w (a =? 0) /\
  constant_time_select_w (mask_w c) a b = (if c then a else b) /\
  constant_time_select_8 (mask_8 c) (a mod 256) (b mod 256) = (if c then a else b) mod 256 /\
  constant_time_eq_8 a b = mask_8 (a =? b) /\ constant_time_ge_8 a b = mask_8 (b <=? a).
Proof.
  intros Ha Hb. unfold constant_time_eq_8, constant_time_ge_8.
  rewrite constant_time_lt_w_spec, constant_time_ge_w_spec, constant_time_eq_w_spec,
    constant_time_is_zero_w_spec, constant_time_select_w_spec, constant_time_select_8_spec,
    !u8_mask_w by (done || dlia).
  split_and!; try done. by destruct c.
Qed.

Lemma constant_time_correct_witness :
  constant_time_lt_w 3 (2 ^ 63) = mask_w true /\
  constant_time_select_8 (mask_8 false) (3 mod 256) (2 ^ 63 mod 256) = 2 ^ 63 mod 256.
Proof.
  pose proof (constant_time_correct 3 (2 ^ 63) false) as H.
  destruct H as (H1 & _ & _ & _ & _ & H2 & _); [lia.. |]. by split.
Defined.

(** [CRYPTO_memcmp] reads exactly [len] bytes of each buffer, whatever they hold,
    and returns zero exactly when they agree. *)
Theorem CRYPTO_memcmp_spec (a b : list byte) (len : nat) :
  (len <= length a)%nat -> (len <= length b)%nat ->
  exists x, CRYPTO_memcmp a b len = Some x /\ (x = 0 <-> take len a = take len b).
Proof.
  intros Ha Hb. destruct (memcmp_loop_spec len a b 0 Ha Hb) as (x & Hx & _ & Hz); [lia |].
  exists x. split; [done |]. rewrite Hz. tauto.
Qed.

Lemma CRYPTO_memcmp_spec_witness :
  exists x, CRYPTO_memcmp [x01; x02; x03] [x01; x02; x04] 2 = Some x /\
    (x = 0 <-> take 2 [x01; x02; x03] = take 2 [x01; x02; x04]).
Proof. apply CRYPTO_memcmp_spec; simpl; lia. Defined.

(** [OPENSSL_strlcpy] never writes beyond [dst_size] bytes of [dst], always leaves a
    NUL-terminated prefix of the source there (when [dst_size] is not 0), keeps the
    bytes behind it, and returns the length of the source, so that the caller can
    see a truncation. *)
Theorem OPENSSL_strlcpy_spec (s rest dst : list byte) (dst_size : nat) :
  Forall (fun b => b2z b <> 0) s -> (dst_size <= length dst)%nat ->
  exists dst', OPENSSL_strlcpy dst (s ++ x00 :: rest) dst_size = Some (dst', length s) /\
    length dst' = length dst /\ drop dst_size dst' = drop dst_size dst /\
    (dst_size <> O -> exists tail, dst' = take (dst_size - 1) s ++ x00 :: tail).
Proof.
  intros Hs Hd. unfold OPENSSL_strlcpy. rewrite strlcpy_loop_spec by done.
  eexists. split; [done |]. destruct dst_size as [| k]; [done |].
  assert (length (take k s ++ [x00]) = S (Nat.min k (length s))) as Hlen.
  { rewrite length_app, length_take. simpl. lia. }
  replace (take k s ++ x00 :: drop (S (Nat.min k (length s))) dst)
    with ((take k s ++ [x00]) ++ drop (S (Nat.min k (length s))) dst)
    by by rewrite <- app_assoc.
  split_and!.
  - rewrite length_app, length_drop, Hlen. lia.
  - rewrite drop_app_ge, Hlen, drop_drop by lia. f_equal. lia.
  - intros _. eexists. rewrite <- app_assoc. simpl. rewrite Nat.sub_0_r. done.
Qed.

Lemma OPENSSL_strlcpy_spec_witness :
  exists dst', OPENSSL_strlcpy [x01; x01; x01] ([x41; x42; x43] ++ x00 :: []) 3
               = Some (dst', 3%nat) /\
    length dst' = 3%nat /\ drop 3 dst' = drop 3 [x01; x01; x01] /\
    (3%nat <> O -> exists tail, dst' = take (3 - 1) [x41; x42; x43] ++ x00 :: tail).
Proof. apply (OPENSSL_strlcpy_spec [x41; x42; x43] []); [by repeat constructor | simpl; lia]. Defined.
