(* ===== verification/Cbs.v ===== *)
(** * CBS: the byte-string parser of BoringSSL

    [crypto/bytestring/cbs.c], the part that does not know about ASN.1.  A [CBS]
    is a pointer and a length; it is modelled by the bytes it covers, so that an
    operation is a program ([prog]) whose state is the list of the bytes left.
    A failing C function may have consumed input: the state is kept.

    The central notion is [Inverts m enc ok]: the parser [m] accepts exactly the
    encodings [enc a] of the values [a] with [ok a].  It says at once that [m]
    reads back what an encoder writes, that it accepts nothing else, and that it
    consumes exactly the encoding. *)

From S2P Require Import Prelude Crypto.

Abbreviation CBS := (list byte).
Abbreviation parser A := (prog CBS A).

Definition lenZ (s : CBS) : Z := Z.of_nat (length s).

(** ** Operations *)

Definition CBS_init (data : list byte) (len : nat) : CBS := take len data.
Definition CBS_data (cbs : CBS) : list byte := cbs.
Definition CBS_len (cbs : CBS) : Z := lenZ cbs.

Definition cbs_get (n : Z) : parser (list byte) :=
  cbs ← getS;
  if CBS_len cbs <? n then fail else
  _ ← modifyS (drop (Z.to_nat n));
  mret (take (Z.to_nat n) cbs).

Definition CBS_skip (len : Z) : parser unit := _ ← cbs_get len; mret tt.

(** [None]: the allocation failed; [Some None]: a [NULL] pointer of length 0. *)
Definition CBS_stow (malloc_ok : Z -> bool) (cbs : CBS) : option (option (list byte)) :=
  if CBS_len cbs =? 0 then Some None else
  match OPENSSL_memdup malloc_ok (CBS_data cbs) (length cbs) with
  | Some (Some p) => Some (Some p)
  | _ => None
  end.

Definition CBS_strdup (malloc_ok : Z -> bool) (cbs : CBS) : option (list byte) :=
  match OPENSSL_strndup malloc_ok cbs (length cbs) with
  | Some (Some p) => Some p
  | _ => None
  end.

(** [memchr]: the offset of the first [c]. *)
Fixpoint memchr (s : list byte) (c : Z) : option nat :=
  match s with
  | [] => None
  | b :: s => if b2z b =? c then Some O else S <$> memchr s c
  end.

Definition CBS_contains_zero_byte (cbs : CBS) : bool :=
  match memchr (CBS_data cbs) 0 with Some _ => true | None => false end.

(** [data] points to at least [len] bytes. *)
Definition CBS_mem_equal (cbs : CBS) (data : list byte) (len : Z) : option bool :=
  if negb (len =? CBS_len cbs) then Some false else
  x ← CRYPTO_memcmp (CBS_data cbs) data (Z.to_nat len);
  Some (x =? 0).

Definition cbs_get_u (len : Z) : parser Z :=
  data ← cbs_get len;
  mret (fold_left (fun result b => u64 (result .<< 8) .| b2z b) data 0).

Definition CBS_get_u8 : parser Z :=
  v ← cbs_get 1;
  match v with b :: _ => mret (b2z b) | [] => stuck end.

Definition CBS_get_u16 : parser Z := v ← cbs_get_u 2; mret (u16 v).
Definition CBS_get_u16le : parser Z := out ← CBS_get_u16; mret (CRYPTO_bswap2 out).
Definition CBS_get_u24 : parser Z := v ← cbs_get_u 3; mret (u32 v).
Definition CBS_get_u32 : parser Z := v ← cbs_get_u 4; mret (u32 v).
Definition CBS_get_u32le : parser Z := out ← CBS_get_u32; mret (CRYPTO_bswap4 out).
Definition CBS_get_u64 : parser Z := cbs_get_u 8.
Definition CBS_get_u64le : parser Z := out ← cbs_get_u 8; mret (CRYPTO_bswap8 out).

Definition CBS_get_last_u8 : parser Z :=
  cbs ← getS;
  if CBS_len cbs =? 0 then fail else
  match last cbs with
  | None => stuck
  | Some b => _ ← modifyS (take (length cbs - 1)); mret (b2z b)
  end.

Definition CBS_get_bytes (len : Z) : parser CBS := cbs_get len.

Definition CBS_copy_bytes (len : Z) : parser (list byte) := cbs_get len.

Definition cbs_get_length_prefixed (len_len : Z) : parser CBS :=
  len ← cbs_get_u len_len;
  CBS_get_bytes len.

Definition CBS_get_u8_length_prefixed : parser CBS := cbs_get_length_prefixed 1.
Definition CBS_get_u16_length_prefixed : parser CBS := cbs_get_length_prefixed 2.
Definition CBS_get_u24_length_prefixed : parser CBS := cbs_get_length_prefixed 3.

Definition CBS_get_until_first (c : Z) : parser CBS :=
  cbs ← getS;
  match memchr (CBS_data cbs) c with
  | None => fail
  | Some split => CBS_get_bytes (Z.of_nat split)
  end.

(** A local copy of the state, as in [CBS copy = *cbs]. *)
Definition on_copy {A} (m : parser A) : parser A := fun s => ((m s).1, s).

(** Runs [m] on another [CBS], which is returned with the result. *)
Definition on {A} (other : CBS) (m : parser A) : parser (A * CBS) := fun s =>
  match m other with
  | (Done a, other) => (Done (a, other), s)
  | (Failed, _) => (Failed, s)
  | (Stuck, _) => (Stuck, s)
  | (NoFuel, _) => (NoFuel, s)
  end.

(** ** Exact inverses *)

Class Inverts {A} (m : parser A) (enc : A -> list byte) (ok : A -> Prop) : Prop :=
  inverts : forall s a s', m s = (Done a, s') <-> ok a /\ s = enc a ++ s'.

Lemma inverts_run {A} (m : parser A) enc ok `{!Inverts m enc ok} a s :
  ok a -> m (enc a ++ s) = (Done a, s).
Proof. intros Ha. by apply inverts. Qed.

(** An inverted encoding is prefix-free, hence injective. *)
Lemma inverts_unique {A} (m : parser A) enc ok `{!Inverts m enc ok} a b s t :
  ok a -> ok b -> enc a ++ s = enc b ++ t -> a = b /\ s = t.
Proof.
  intros Ha Hb E. pose proof (inverts_run m enc ok a s Ha) as H1.
  rewrite E, (inverts_run m enc ok b t Hb) in H1. by injection H1.
Qed.

Lemma prog_bind_inv {S A B} (m : prog S A) (f : A -> prog S B) s b s' :
  (m ≫= f) s = (Done b, s') -> exists a s1, m s = (Done a, s1) /\ f a s1 = (Done b, s').
Proof.
  unfold mbind, prog_bind. destruct (m s) as [[a | | |] s1]; try done. by exists a, s1.
Qed.

Lemma prog_bind_iff {S A B} (m : prog S A) (f : A -> prog S B) s b s' :
  (m ≫= f) s = (Done b, s') <-> exists a s1, m s = (Done a, s1) /\ f a s1 = (Done b, s').
Proof.
  split; [apply prog_bind_inv |]. intros (a & s1 & Ha & Hf). by erewrite prog_bind_done.
Qed.

Section Inverts.
Context {A B : Type}.

(** After [m] has read [a], the continuation reads the rest of the values whose
    first part is [a]. *)
Lemma inverts_bind (m : parser A) enc ok (f : A -> parser B) (g : B -> A) enc' ok' :
  Inverts m enc ok ->
  (forall a s b s', ok a ->
     f a s = (Done b, s') <-> (g b = a /\ ok' b) /\ s = enc' b ++ s') ->
  Inverts (m ≫= f) (fun b => enc (g b) ++ enc' b) (fun b => ok (g b) /\ ok' b).
Proof.
  intros Hm Hf s b s'. rewrite prog_bind_iff. split.
  - intros (a & s1 & [Ha ->]%Hm & Hb). apply Hf in Hb as [[<- Hb] ->]; [| done].
    by rewrite app_assoc.
  - intros [[Ha Hb] ->]. rewrite <- app_assoc. exists (g b), (enc' b ++ s').
    split; [by apply Hm | by apply Hf].
Qed.

(** The result of [m] up to a bijection. *)
Lemma inverts_map (m : parser A) enc ok (h : A -> B) (g : B -> A) :
  Inverts m enc ok -> (forall a, ok a -> g (h a) = a) ->
  Inverts (a ← m; mret (h a)) (fun b => enc (g b)) (fun b => ok (g b) /\ h (g b) = b).
Proof.
  intros Hm Hg s b s'. rewrite prog_bind_iff. split.
  - intros (a & s1 & [Ha ->]%Hm & [= <- <-]). by rewrite Hg.
  - intros [[Ha Hb] ->]. exists (g b), s'. split; [by apply Hm | by rewrite <- Hb at 2].
Qed.

Lemma inverts_ext (m : parser A) enc ok enc' ok' :
  Inverts m enc ok -> (forall a, ok a <-> ok' a) -> (forall a, ok' a -> enc a = enc' a) ->
  Inverts m enc' ok'.
Proof.
  intros Hm Hok Henc s a s'. rewrite (Hm s a s'), Hok.
  split; intros [Ha ->]; (split; [done |]); by rewrite Henc.
Qed.
End Inverts.

(** ** Fixed-width integers and byte strings *)

Lemma cbs_get_inverts n : 0 <= n -> Inverts (cbs_get n) id (fun l => lenZ l = n).
Proof.
  intros Hn s l s'. unfold cbs_get, CBS_len, lenZ, mbind, prog_bind, getS. simpl.
  destruct (Z.ltb_spec (Z.of_nat (length s)) n) as [Hlt | Hge].
  - split; [done |]. intros [<- ->]. rewrite length_app in Hlt. lia.
  - unfold modifyS, mret, prog_ret; simpl. split.
    + intros [= <- <-]. rewrite length_take, take_drop. split; [lia | done].
    + intros [<- ->]. by rewrite Nat2Z.id, take_app_length, drop_app_length.
Qed.

Lemma cbs_get_run n s : 0 <= n <= lenZ s ->
  cbs_get n s = (Done (take (Z.to_nat n) s), drop (Z.to_nat n) s).
Proof.
  intros Hn. unfold cbs_get, CBS_len, mbind, prog_bind, getS.
  by rewrite (proj2 (Z.ltb_ge _ _)) by lia.
Qed.

Lemma cbs_get_fail n s : lenZ s < n -> cbs_get n s = (Failed, s).
Proof.
  intros Hn. unfold cbs_get, CBS_len, mbind, prog_bind, getS.
  by rewrite (proj2 (Z.ltb_lt _ _)) by lia.
Qed.

Lemma be_fold_value l :
  (length l <= 8)%nat ->
  fold_left (fun result b => u64 (result .<< 8) .| b2z b) l 0 = be_value l.
Proof.
  induction l as [| b l IH] using rev_ind; [done |]. rewrite length_app. simpl. intros Hl.
  rewrite fold_left_app, be_value_snoc, IH by lia. simpl.
  pose proof (be_value_range l) as Hr.
  assert (256 ^ Z.of_nat (length l) <= 256 ^ 7) by (apply Z.pow_le_mono_r; lia).
  rewrite Z.shiftl_mul_pow2, wrap_small by lia.
  rewrite <- Z.shiftl_mul_pow2, lor_shl by blia. done.
Qed.

#[export] Instance cbs_get_u_inverts (k : nat) :
  TCEq (Nat.leb k 8) true ->
  Inverts (cbs_get_u (Z.of_nat k)) (be_bytes k) (fun v => 0 <= v < 256 ^ Z.of_nat k).
Proof.
  intros Hk%TCEq_eq%Nat.leb_le.
  pose proof (cbs_get_inverts (Z.of_nat k) ltac:(lia)) as Hg.
  intros s v s'. unfold cbs_get_u. rewrite prog_bind_iff. split.
  - intros (l & s1 & [Hl ->]%Hg & [= <- <-]). unfold lenZ in Hl.
    assert (length l = k) as <- by lia. rewrite be_fold_value, be_bytes_be_value by done.
    split; [apply be_value_range | done].
  - intros [Hv ->]. exists (be_bytes k v), s'. split.
    + apply Hg. unfold lenZ. by rewrite length_be_bytes.
    + rewrite be_fold_value by by rewrite length_be_bytes.
      by rewrite be_value_be_bytes, Z.mod_small.
Qed.

Lemma be_bytes_reverse k v :
  be_bytes k (be_value (reverse (be_bytes k v))) = reverse (be_bytes k v).
Proof.
  rewrite <- (length_be_bytes k v) at 1. rewrite <- length_reverse. apply be_bytes_be_value.
Qed.

Lemma bswap_bswap k v :
  0 <= v < 256 ^ Z.of_nat k ->
  be_value (reverse (be_bytes k (be_value (reverse (be_bytes k v))))) = v.
Proof.
  intros Hv. by rewrite be_bytes_reverse, reverse_involutive, be_value_be_bytes, Z.mod_small.
Qed.

Lemma bswap_range k v : 0 <= be_value (reverse (be_bytes k v)) < 256 ^ Z.of_nat k.
Proof.
  pose proof (be_value_range (reverse (be_bytes k v))) as Hr.
  by rewrite length_reverse, length_be_bytes in Hr.
Qed.

(** The C integer types hold what was read; the little-endian variants swap it. *)
Lemma inverts_fits k (m : parser Z) w :
  Inverts m (be_bytes k) (fun v => 0 <= v < 256 ^ Z.of_nat k) -> 256 ^ Z.of_nat k <= 2 ^ w ->
  Inverts (v ← m; mret (wrap w v)) (be_bytes k) (fun v => 0 <= v < 256 ^ Z.of_nat k).
Proof.
  intros Hm Hw s v s'. rewrite <- (Hm s v s'), prog_bind_iff. split.
  - intros (a & s1 & Ha & [= <- <-]). assert (Ha' := Ha). apply Hm in Ha' as [? _].
    by rewrite wrap_small by lia.
  - intros Ha. assert (Ha' := Ha). apply Hm in Ha' as [? _]. exists v, s'. split; [done |].
    by rewrite wrap_small by lia.
Qed.

Lemma inverts_bswap k (m : parser Z) :
  Inverts m (be_bytes k) (fun v => 0 <= v < 256 ^ Z.of_nat k) ->
  Inverts (v ← m; mret (be_value (reverse (be_bytes k v)))) (fun v => reverse (be_bytes k v))
    (fun v => 0 <= v < 256 ^ Z.of_nat k).
Proof.
  intros Hm. eapply inverts_ext.
  - apply (inverts_map _ _ _ _ (fun v => be_value (reverse (be_bytes k v))) Hm).
    intros v Hv. by apply bswap_bswap.
  - intros v. simpl. split.
    + intros [_ <-]. apply bswap_range.
    + intros Hv. split; [apply bswap_range | by apply bswap_bswap].
  - intros v _. apply be_bytes_reverse.
Qed.

#[export] Instance CBS_get_u8_inverts :
  Inverts CBS_get_u8 (be_bytes 1) (fun v => 0 <= v < 256).
Proof.
  pose proof (cbs_get_inverts 1 ltac:(lia)) as Hg.
  intros s v s'. unfold CBS_get_u8. rewrite prog_bind_iff. split.
  - intros (l & s1 & [Hl ->]%Hg & E). unfold lenZ in Hl.
    destruct l as [| b [| ? ?]]; simpl in Hl; try lia. injection E as <- <-. split; [apply b2z_range |]. simpl. by rewrite Z.div_1_r, z2b_b2z.
  - intros [Hv ->]. exists (be_bytes 1 v), s'. split; [by apply Hg |].
    simpl. by rewrite Z.div_1_r, b2z_z2b_small.
Qed.

#[export] Instance CBS_get_u16_inverts :
  Inverts CBS_get_u16 (be_bytes 2) (fun v => 0 <= v < 256 ^ 2).
Proof. by apply (inverts_fits 2 _ 16 (cbs_get_u_inverts 2 ltac:(done))). Qed.
#[export] Instance CBS_get_u24_inverts :
  Inverts CBS_get_u24 (be_bytes 3) (fun v => 0 <= v < 256 ^ 3).
Proof. by apply (inverts_fits 3 _ 32 (cbs_get_u_inverts 3 ltac:(done))). Qed.
#[export] Instance CBS_get_u32_inverts :
  Inverts CBS_get_u32 (be_bytes 4) (fun v => 0 <= v < 256 ^ 4).
Proof. by apply (inverts_fits 4 _ 32 (cbs_get_u_inverts 4 ltac:(done))). Qed.
#[export] Instance CBS_get_u64_inverts :
  Inverts CBS_get_u64 (be_bytes 8) (fun v => 0 <= v < 256 ^ 8).
Proof. apply (cbs_get_u_inverts 8 ltac:(done)). Qed.
#[export] Instance CBS_get_u16le_inverts :
  Inverts CBS_get_u16le (fun v => reverse (be_bytes 2 v)) (fun v => 0 <= v < 256 ^ 2).
Proof. apply (inverts_bswap 2), _. Qed.
#[export] Instance CBS_get_u32le_inverts :
  Inverts CBS_get_u32le (fun v => reverse (be_bytes 4 v)) (fun v => 0 <= v < 256 ^ 4).
Proof. apply (inverts_bswap 4), _. Qed.
#[export] Instance CBS_get_u64le_inverts :
  Inverts CBS_get_u64le (fun v => reverse (be_bytes 8 v)) (fun v => 0 <= v < 256 ^ 8).
Proof. apply (inverts_bswap 8), CBS_get_u64_inverts. Qed.

(** A length of [k] bytes, then that many bytes. *)
Lemma cbs_get_length_prefixed_inverts (k : nat) :
  TCEq (Nat.leb k 8) true ->
  Inverts (cbs_get_length_prefixed (Z.of_nat k)) (fun l => be_bytes k (lenZ l) ++ l)
    (fun l => lenZ l < 256 ^ Z.of_nat k).
Proof.
  intros Hk. eapply inverts_ext.
  - apply (inverts_bind _ _ _ _ (fun l => lenZ l) id (fun _ => True) (cbs_get_u_inverts k Hk)).
    intros n s l s' Hn. unfold CBS_get_bytes. pose proof (cbs_get_inverts n ltac:(lia)) as Hg.
    rewrite (Hg s l s'). tauto.
  - intros l. simpl. unfold lenZ. split; [lia | split; [lia | done]].
  - done.
Qed.

#[export] Instance CBS_get_u8_length_prefixed_inverts :
  Inverts CBS_get_u8_length_prefixed (fun l => be_bytes 1 (lenZ l) ++ l) (fun l => lenZ l < 256 ^ 1).
Proof. by apply (cbs_get_length_prefixed_inverts 1). Qed.
#[export] Instance CBS_get_u16_length_prefixed_inverts :
  Inverts CBS_get_u16_length_prefixed (fun l => be_bytes 2 (lenZ l) ++ l) (fun l => lenZ l < 256 ^ 2).
Proof. by apply (cbs_get_length_prefixed_inverts 2). Qed.
#[export] Instance CBS_get_u24_length_prefixed_inverts :
  Inverts CBS_get_u24_length_prefixed (fun l => be_bytes 3 (lenZ l) ++ l) (fun l => lenZ l < 256 ^ 3).
Proof. by apply (cbs_get_length_prefixed_inverts 3). Qed.

(** ** Searching *)

Lemma memchr_spec s c :
  match memchr s c with
  | None => Forall (fun b => b2z b <> c) s
  | Some n => exists b, s !! n = Some b /\ b2z b = c /\ Forall (fun b => b2z b <> c) (take n s)
  end.
Proof.
  induction s as [| b s IH]; [constructor |]. simpl.
  destruct (Z.eqb_spec (b2z b) c) as [E | E]; [by exists b |].
  destruct (memchr s c) as [n |]; simpl; [| by constructor].
  destruct IH as (x & ? & ? & ?). exists x. by repeat constructor.
Qed.

(** ** Every operation returns *)

(** Nothing to keep: only that [m] returns or fails. *)
Abbreviation Total m := (Safe (fun _ => True) m).

#[export] Instance cbs_get_total n : Total (cbs_get n).
Proof.
  intros s _. unfold cbs_get, mbind, prog_bind, getS. by destruct (CBS_len s <? n).
Qed.

#[export] Instance cbs_get_u_total n : Total (cbs_get_u n).
Proof. apply _. Qed.

#[export] Instance CBS_get_u8_total : Total CBS_get_u8.
Proof.
  apply (safe_bind_runs _ (fun l => l <> [])); [| by intros []].
  intros s _. unfold cbs_get, CBS_len, lenZ, mbind, prog_bind, getS.
  destruct (Z.ltb_spec (Z.of_nat (length s)) 1); [done |].
  destruct s; [simpl in *; lia | done].
Qed.

(** *** Properties *)

(** The integer readers are exact.  Each of [CBS_get_u8/u16/u24/u32/u64] accepts
    exactly the big-endian bytes, and the [le] variants the little-endian bytes, of
    the values of its width, and the length-prefixed readers exactly a length that
    fits followed by that many bytes: what is read is determined by the bytes
    consumed, nothing else is consumed, and no other input is accepted. *)
Theorem CBS_readers_exact :
  Inverts CBS_get_u8 (be_bytes 1) (fun v => 0 <= v < 256) /\
  Inverts CBS_get_u16 (be_bytes 2) (fun v => 0 <= v < 256 ^ 2) /\
  Inverts CBS_get_u24 (be_bytes 3) (fun v => 0 <= v < 256 ^ 3) /\
  Inverts CBS_get_u32 (be_bytes 4) (fun v => 0 <= v < 256 ^ 4) /\
  Inverts CBS_get_u64 (be_bytes 8) (fun v => 0 <= v < 256 ^ 8) /\
  Inverts CBS_get_u16le (reverse ∘ be_bytes 2) (fun v => 0 <= v < 256 ^ 2) /\
  Inverts CBS_get_u32le (reverse ∘ be_bytes 4) (fun v => 0 <= v < 256 ^ 4) /\
  Inverts CBS_get_u64le (reverse ∘ be_bytes 8) (fun v => 0 <= v < 256 ^ 8) /\
  Inverts CBS_get_u8_length_prefixed (fun l => be_bytes 1 (lenZ l) ++ l) (fun l => lenZ l < 2 ^ 8) /\
  Inverts CBS_get_u16_length_prefixed (fun l => be_bytes 2 (lenZ l) ++ l) (fun l => lenZ l < 2 ^ 16) /\
  Inverts CBS_get_u24_length_prefixed (fun l => be_bytes 3 (lenZ l) ++ l) (fun l => lenZ l < 2 ^ 24).
Proof. split_and!; apply _. Qed.

(** Searching and comparing.  [CBS_get_until_first] returns the bytes before the
    first [c] and leaves [c] in place, or fails without consuming anything when
    there is no [c]; [CBS_contains_zero_byte] tells whether there is a NUL;
    [CBS_mem_equal] is equality of the contents. *)
Theorem CBS_search_spec (cbs : CBS) (c : Z) (data : list byte) :
  (match CBS_get_until_first c cbs with
   | (Done out, rest) => cbs = out ++ rest /\ Forall (fun b => b2z b <> c) out /\
                         exists b rest', rest = b :: rest' /\ b2z b = c
   | (Failed, rest) => rest = cbs /\ Forall (fun b => b2z b <> c) cbs
   | _ => False
   end) /\
  (CBS_contains_zero_byte cbs = true <-> Exists (fun b => b2z b = 0) cbs) /\
  (exists r, CBS_mem_equal cbs data (lenZ data) = Some r /\ (r = true <-> cbs = data)).
Proof.
  split_and!.
  - unfold CBS_get_until_first, CBS_data, mbind, prog_bind, getS.
    pose proof (memchr_spec cbs c) as Hm. destruct (memchr cbs c) as [n |]; [| done].
    destruct Hm as (b & Hb & Hc & Hall). pose proof (lookup_lt_Some _ _ _ Hb) as Hlt.
    unfold CBS_get_bytes. rewrite cbs_get_run by (unfold lenZ; lia). rewrite Nat2Z.id.
    split_and!; [by rewrite take_drop | done |].
    exists b, (drop (S n) cbs). split; [by apply drop_S | done].
  - unfold CBS_contains_zero_byte, CBS_data. pose proof (memchr_spec cbs 0) as Hm.
    destruct (memchr cbs 0) as [n |].
    + destruct Hm as (b & Hb & Hz & _). split; [intros _ | done].
      apply Exists_exists. exists b. split; [| done]. by eapply list_elem_of_lookup_2.
    + split; [done |]. intros [b [Hin Hz]]%Exists_exists.
      by destruct (proj1 (Forall_forall _ _) Hm b Hin).
  - unfold CBS_mem_equal, CBS_len, lenZ. destruct (Z.eqb_spec (Z.of_nat (length data)) (Z.of_nat (length cbs)))
      as [E | E]; cbn [negb].
    + rewrite Nat2Z.id. destruct (memcmp_loop_spec (length data) cbs data 0) as (x & Hx & _ & Hz);
        [lia.. |]. unfold CRYPTO_memcmp, CBS_data. rewrite Hx. cbn [mbind option_bind].
      eexists. split; [done |]. rewrite Z.eqb_eq, Hz, !take_ge by lia. tauto.
    + eexists. split; [done |]. split; [done |]. intros ->. lia.
Qed.
