(* ===== verification/CbsAsn1.v ===== *)
(** * CBS: the DER parser of BoringSSL

    The ASN.1 half of [crypto/bytestring/cbs.c]: tags, lengths, elements, INTEGER,
    BOOLEAN, BIT STRING and the optional elements.  [der] is the distinguished
    encoding of an element; the parser is shown to accept exactly it, so that an
    element has one encoding and the parser no other reading of it. *)

From S2P Require Import Prelude Crypto Cbs.

(** ** Tags: class and constructed bits at 29, the number below *)

Definition CBS_ASN1_TAG_SHIFT : Z := 24.
Definition CBS_ASN1_CONSTRUCTED : Z := 32 .<< CBS_ASN1_TAG_SHIFT.
Definition CBS_ASN1_TAG_NUMBER_MASK : Z := (1 .<< (5 + CBS_ASN1_TAG_SHIFT)) - 1.
Definition CBS_ASN1_BOOLEAN : Z := 1.
Definition CBS_ASN1_INTEGER : Z := 2.
Definition CBS_ASN1_BITSTRING : Z := 3.
Definition CBS_ASN1_OCTETSTRING : Z := 4.

(** The loop of [parse_base128_integer] over [v]. *)
Fixpoint base128_loop (fuel : nat) (v : Z) : parser Z :=
  match fuel with
  | O => nofuel
  | S fuel =>
      b ← CBS_get_u8;
      if negb (v .>> (64 - 7) =? 0) then fail else
      if (v =? 0) && (b =? 128) then fail else
      let v := u64 (v .<< 7) .| (b .& 127) in
      if negb (b .& 128 =? 0) then base128_loop fuel v else mret v
  end.

(** Each round reads a byte. *)
Definition parse_base128_integer : parser Z :=
  cbs ← getS; base128_loop (S (length cbs)) 0.

Definition parse_asn1_tag : parser Z :=
  tag_byte ← CBS_get_u8;
  let tag := u32 ((tag_byte .& 224) .<< CBS_ASN1_TAG_SHIFT) in
  let tag_number := tag_byte .& 31 in
  tag_number ←
    (if tag_number =? 31 then
       v ← parse_base128_integer;
       if (CBS_ASN1_TAG_NUMBER_MASK <? v) || (v <? 31) then fail else mret (u32 v)
     else mret tag_number);
  mret (tag .| tag_number).

(** ** Elements *)

(** What the header says: the tag, the length of the whole element, the length of
    the header, and whether a BER form was found. *)
Record asn1_header := mk_header {
  h_tag : Z;
  h_len : Z;
  h_header_len : Z;
  h_ber_found : bool;
}.

(** The body of [cbs_get_any_asn1_element] up to the final [CBS_get_bytes], which
    works on the copy [header] of the [CBS] of [cbs_len] bytes. *)
Definition asn1_header_parse (ber_ok : bool) (cbs_len : Z) : parser asn1_header :=
  tag ← parse_asn1_tag;
  length_byte ← CBS_get_u8;
  header ← getS;
  let header_len := u64 (cbs_len - CBS_len header) in
  if length_byte .& 128 =? 0 then
    mret (mk_header tag (u64 (length_byte + header_len)) header_len false)
  else
    let num_bytes := length_byte .& 127 in
    if ber_ok && negb (tag .& CBS_ASN1_CONSTRUCTED =? 0) && (num_bytes =? 0) then
      mret (mk_header tag header_len header_len true)
    else
    if (num_bytes =? 0) || (4 <? num_bytes) then fail else
    len64 ← cbs_get_u num_bytes;
    if (len64 <? 128) && negb ber_ok then fail else
    if (len64 .>> ((num_bytes - 1) * 8) =? 0) && negb ber_ok then fail else
    let ber_found := (len64 <? 128) || (len64 .>> ((num_bytes - 1) * 8) =? 0) in
    let len := len64 in
    if u64 (len + header_len + num_bytes) <? len then fail else
    mret (mk_header tag (u64 (len + header_len + num_bytes)) (u64 (header_len + num_bytes)) ber_found).

Definition cbs_get_any_asn1_element (ber_ok : bool) : parser (CBS * asn1_header) :=
  cbs ← getS;
  h ← on_copy (asn1_header_parse ber_ok (CBS_len cbs));
  out ← CBS_get_bytes (h_len h);
  mret (out, h).

(** [*out], [*out_tag] and [*out_header_len]. *)
Definition CBS_get_any_asn1_element : parser (CBS * Z * Z) :=
  r ← cbs_get_any_asn1_element false;
  mret (r.1, h_tag r.2, h_header_len r.2).

Definition CBS_get_any_ber_asn1_element : parser (CBS * Z * Z * bool) :=
  r ← cbs_get_any_asn1_element true;
  mret (r.1, h_tag r.2, h_header_len r.2, h_ber_found r.2).

Definition CBS_get_any_asn1 : parser (CBS * Z) :=
  r ← CBS_get_any_asn1_element;
  let '(out, tag, header_len) := r in
  o ← on out (CBS_skip header_len);
  mret (o.2, tag).

Definition cbs_get_asn1 (tag_value : Z) (skip_header : bool) : parser CBS :=
  r ← CBS_get_any_asn1_element;
  let '(out, tag, header_len) := r in
  if negb (tag =? tag_value) then fail else
  if skip_header then o ← on out (CBS_skip header_len); mret o.2 else mret out.

Definition CBS_get_asn1 (tag_value : Z) : parser CBS := cbs_get_asn1 tag_value true.
Definition CBS_get_asn1_element (tag_value : Z) : parser CBS := cbs_get_asn1 tag_value false.

Definition CBS_peek_asn1_tag (cbs : CBS) (tag_value : Z) : bool :=
  if CBS_len cbs <? 1 then false else
  match (parse_asn1_tag cbs).1 with
  | Done actual_tag => tag_value =? actual_tag
  | _ => false
  end.

(** ** INTEGER *)

(** [None]: not a valid INTEGER; otherwise [*out_is_negative]. *)
Definition CBS_is_valid_asn1_integer (cbs : CBS) : option bool :=
  match CBS_get_u8 cbs with
  | (Done first_byte, copy) =>
      let is_negative := negb (first_byte .& 128 =? 0) in
      match CBS_get_u8 copy with
      | (Done second_byte, _) =>
          if ((first_byte =? 0) && (second_byte .& 128 =? 0))
             || ((first_byte =? 255) && negb (second_byte .& 128 =? 0))
          then None else Some is_negative
      | _ => Some is_negative
      end
  | _ => None
  end.

Definition CBS_is_unsigned_asn1_integer (cbs : CBS) : bool :=
  match CBS_is_valid_asn1_integer cbs with Some is_negative => negb is_negative | None => false end.

(** The loop of [CBS_get_asn1_uint64] over [*out]. *)
Fixpoint uint64_loop (data : list byte) (out : Z) : parser Z :=
  match data with
  | [] => mret out
  | b :: data =>
      if negb (out .>> 56 =? 0) then fail
      else uint64_loop data (u64 (out .<< 8) .| b2z b)
  end.

Definition CBS_get_asn1_uint64 : parser Z :=
  bytes ← CBS_get_asn1 CBS_ASN1_INTEGER;
  if negb (CBS_is_unsigned_asn1_integer bytes) then fail else uint64_loop (CBS_data bytes) 0.

(** The eight bytes of [u], little endian: [data] from its end, over the sign. *)
Definition int64_bytes (is_negative : bool) (data : list byte) : list byte :=
  reverse data ++ repeat (if is_negative then xff else x00) (8 - length data).

Definition CBS_get_asn1_int64 : parser Z :=
  bytes ← CBS_get_asn1 CBS_ASN1_INTEGER;
  match CBS_is_valid_asn1_integer bytes with
  | None => fail
  | Some is_negative =>
      if 8 <? CBS_len bytes then fail
      else mret (i64 (be_value (reverse (int64_bytes is_negative (CBS_data bytes)))))
  end.

(** ** BOOLEAN and the optional elements *)

Definition CBS_get_asn1_bool : parser bool :=
  bytes ← CBS_get_asn1 CBS_ASN1_BOOLEAN;
  if negb (CBS_len bytes =? 1) then fail else
  match CBS_data bytes with
  | [] => stuck
  | value :: _ =>
      if negb (b2z value =? 0) && negb (b2z value =? 255) then fail
      else mret (negb (b2z value =? 0))
  end.

(** [None]: [*out_present] is 0. *)
Definition CBS_get_optional_asn1 (tag : Z) : parser (option CBS) :=
  cbs ← getS;
  if CBS_peek_asn1_tag cbs tag then out ← CBS_get_asn1 tag; mret (Some out) else mret None.

(** Runs [m] on the child, which has to be read up. *)
Definition on_child {A} (child : CBS) (m : parser A) : parser A :=
  r ← on child m;
  if negb (CBS_len r.2 =? 0) then fail else mret r.1.

Definition CBS_get_optional_asn1_octet_string (tag : Z) : parser (CBS * bool) :=
  child ← CBS_get_optional_asn1 tag;
  match child with
  | Some child => out ← on_child child (CBS_get_asn1 CBS_ASN1_OCTETSTRING); mret (out, true)
  | None => mret ([], false)
  end.

Definition CBS_get_optional_asn1_uint64 (tag default_value : Z) : parser Z :=
  child ← CBS_get_optional_asn1 tag;
  match child with
  | Some child => on_child child CBS_get_asn1_uint64
  | None => mret default_value
  end.

(** [*out] is an [int]. *)
Definition CBS_get_optional_asn1_bool (tag default_value : Z) : parser Z :=
  child ← CBS_get_optional_asn1 tag;
  match child with
  | Some child =>
      r ← on child (CBS_get_asn1 CBS_ASN1_BOOLEAN);
      let '(child2, child) := r in
      if negb (CBS_len child2 =? 1) || negb (CBS_len child =? 0) then fail else
      match CBS_data child2 with
      | [] => stuck
      | boolean :: _ =>
          if b2z boolean =? 0 then mret 0
          else if b2z boolean =? 255 then mret 1
          else fail
      end
  | None => mret default_value
  end.

(** ** BIT STRING *)

Definition CBS_is_valid_asn1_bitstring (cbs : CBS) : bool :=
  match CBS_get_u8 cbs with
  | (Done num_unused_bits, inp) =>
      if 7 <? num_unused_bits then false
      else if num_unused_bits =? 0 then true
      else match CBS_get_last_u8 inp with
           | (Done last, _) => last .& ((1 .<< num_unused_bits) - 1) =? 0
           | _ => false
           end
  | _ => false
  end.

(** [None] is a read outside the [CBS]. *)
Definition CBS_asn1_bitstring_has_bit (cbs : CBS) (bit : Z) : option bool :=
  if negb (CBS_is_valid_asn1_bitstring cbs) then Some false else
  let byte_num := u32 ((bit .>> 3) + 1) in
  let bit_num := u32 (7 - (bit .& 7)) in
  if byte_num <? CBS_len cbs then
    b ← CBS_data cbs !! Z.to_nat byte_num;
    Some (negb (b2z b .& (1 .<< bit_num) =? 0))
  else Some false.

(** ** The distinguished encoding *)

(** [k] groups of 7 bits of [v], most significant first, and how many it needs. *)
Fixpoint b128 (k : nat) (v : Z) : list byte :=
  match k with
  | O => []
  | S j => z2b ((v / 128 ^ Z.of_nat j) mod 128 + (if Nat.eqb j 0 then 0 else 128)) :: b128 j v
  end.

(** Digits of [v] in base [2 ^ w], at least one. *)
Fixpoint digits (fuel : nat) (w v : Z) : nat :=
  match fuel with
  | O => O
  | S fuel => if v / 2 ^ w <=? 0 then 1 else S (digits fuel w (v / 2 ^ w))
  end.

Definition base128 (v : Z) : list byte := b128 (digits 10 7 v) v.

Definition der_tag (tag : Z) : list byte :=
  let n := tag mod 2 ^ 29 in
  if n <? 31 then [z2b (tag / 2 ^ 29 * 32 + n)]
  else z2b (tag / 2 ^ 29 * 32 + 31) :: base128 n.

Definition der_len (n : Z) : list byte :=
  if n <? 128 then [z2b n]
  else z2b (128 + Z.of_nat (digits 4 8 n)) :: be_bytes (digits 4 8 n) n.

Definition der (tag : Z) (body : list byte) : list byte :=
  der_tag tag ++ der_len (lenZ body) ++ body.

(** The number of digits is the one that fits. *)
Lemma digits_unique fuel w v k :
  0 < w -> (1 <= k <= fuel)%nat -> 0 <= v < 2 ^ (w * Z.of_nat k) ->
  k = 1%nat \/ 2 ^ (w * (Z.of_nat k - 1)) <= v -> digits fuel w v = k.
Proof.
  intros Hw. revert v k. induction fuel as [| fuel IH]; intros v k Hk Hv Hmin; [lia |].
  simpl. assert (0 < 2 ^ w) by lia.
  destruct (decide (k = 1%nat)) as [-> | Hk1].
  - rewrite Z.mul_1_r in Hv. by rewrite Z.div_small.
  - destruct Hmin as [? | Hmin]; [done |].
    replace (w * (Z.of_nat k - 1)) with (w + w * (Z.of_nat (k - 1) - 1)) in Hmin by lia.
    replace (w * Z.of_nat k) with (w + w * Z.of_nat (k - 1)) in Hv by lia.
    rewrite Z.pow_add_r in Hv, Hmin by nia.
    assert (2 ^ (w * (Z.of_nat (k - 1) - 1)) <= v / 2 ^ w) by (apply Z.div_le_lower_bound; lia).
    assert (v / 2 ^ w < 2 ^ (w * Z.of_nat (k - 1))) by (apply Z.div_lt_upper_bound; lia).
    assert (0 < 2 ^ (w * (Z.of_nat (k - 1) - 1))) by (apply Z.pow_pos_nonneg; nia).
    rewrite (proj2 (Z.leb_gt _ 0)) by lia.
    rewrite (IH _ (k - 1)%nat); [lia | lia | lia |]. by right.
Qed.

Lemma digits_spec fuel w v :
  0 < w -> (0 < fuel)%nat -> 0 <= v < 2 ^ (w * Z.of_nat fuel) ->
  exists k, digits fuel w v = k /\ (1 <= k <= fuel)%nat /\ v < 2 ^ (w * Z.of_nat k) /\
    (k = 1%nat \/ 2 ^ (w * (Z.of_nat k - 1)) <= v).
Proof.
  intros Hw. revert v. induction fuel as [| fuel IH]; intros v Hf Hv; [lia |].
  simpl. assert (0 < 2 ^ w) by lia. exists (digits (S fuel) w v). split; [done |]. simpl.
  destruct (Z.leb_spec (v / 2 ^ w) 0) as [Hz | Hnz].
  - rewrite Z.mul_1_r. split_and!; [lia | lia | | by left].
    destruct (Z_lt_ge_dec v (2 ^ w)); [done |].
    assert (1 <= v / 2 ^ w) by (apply Z.div_le_lower_bound; lia). lia.
  - replace (w * Z.of_nat (S fuel)) with (w + w * Z.of_nat fuel) in Hv by lia.
    rewrite Z.pow_add_r in Hv by nia.
    destruct fuel as [| fuel].
    { rewrite Z.mul_0_r, Z.mul_1_r in Hv. rewrite Z.div_small in Hnz by lia. lia. }
    destruct (IH (v / 2 ^ w)) as (k & -> & Hk & Hlt & Hmin);
      [lia | split; [apply Z.div_pos; lia | apply Z.div_lt_upper_bound; lia] |].
    pose proof (Z.div_mod v (2 ^ w)). pose proof (Z.mod_pos_bound v (2 ^ w)).
    replace (w * Z.of_nat (S k)) with (w + w * Z.of_nat k) by lia.
    replace (w * (Z.of_nat (S k) - 1)) with (w + w * (Z.of_nat k - 1)) by lia.
    rewrite Z.pow_add_r by nia. split_and!; [lia | lia | nia |]. right.
    destruct Hmin as [-> | Hmin]; [rewrite Z.mul_0_r, Z.add_0_r; nia |].
    destruct (decide (k = 1%nat)) as [-> | ?]; [rewrite Z.mul_0_r, Z.add_0_r; nia |].
    rewrite Z.pow_add_r by nia. nia.
Qed.

(** *** Base 128 *)

Lemma length_b128 k v : length (b128 k v) = k.
Proof. induction k as [| k IH]; simpl; [done | by rewrite IH]. Qed.

Lemma base128_step v b :
  0 <= v < 2 ^ 57 -> 0 <= b < 256 -> u64 (v .<< 7) .| (b .& 127) = v * 128 + b mod 128.
Proof.
  intros Hv Hb. rewrite land_7f. unfold wrap. rewrite Z.mod_small.
  - rewrite lor_shl by dlia. done.
  - rewrite Z.shiftl_mul_pow2; lia.
Qed.

Lemma base128_guard v : 0 <= v < 2 ^ 64 -> (v .>> (64 - 7) =? 0) = (v <? 2 ^ 57).
Proof.
  intros Hv. rewrite Z.shiftr_div_pow2 by lia. change (2 ^ (64 - 7)) with (2 ^ 57).
  destruct (Z.ltb_spec v (2 ^ 57)); [by rewrite Z.div_small by lia |].
  apply Z.eqb_neq. dlia.
Qed.

Lemma pow128_S k : 128 ^ Z.of_nat (S k) = 128 * 128 ^ Z.of_nat k.
Proof. by rewrite Nat2Z.inj_succ, Z.pow_succ_r by lia. Qed.

(** What the loop accepts, entered with [v]. *)
Lemma base128_loop_sound fuel v s r s' :
  0 <= v < 2 ^ 64 -> base128_loop fuel v s = (Done r, s') ->
  exists k, (1 <= k)%nat /\ 0 <= r < 2 ^ 64 /\ r / 128 ^ Z.of_nat k = v /\
    s = b128 k r ++ s' /\ (v = 0 -> k = 1%nat \/ 128 ^ (Z.of_nat k - 1) <= r).
Proof.
  revert v s. induction fuel as [| fuel IH]; intros v s Hv; [done |]. cbn [base128_loop].
  intros (b & s1 & [Hb ->]%CBS_get_u8_inverts & E)%prog_bind_inv.
  rewrite base128_guard in E by done. destruct (Z.ltb_spec v (2 ^ 57)); [| done]. cbn [negb] in E.
  rewrite base128_step, land_80 in E by lia.
  destruct ((v =? 0) && (b =? 128)) eqn:Hmin; [done |].
  rewrite andb_false_iff, !Z.eqb_neq in Hmin.
  destruct (Z.ltb_spec b 128) as [Hlt | Hge]; cbn [Z.eqb negb] in E.
  - injection E as <- <-. exists 1%nat. rewrite (Z.mod_small b) by lia.
    split_and!; [lia | lia | lia | dlia | | by left].
    simpl. rewrite !Z.div_1_r, Z.add_0_r. do 3 f_equal. dlia.
  - apply IH in E as (k & Hk & Hr & Hdiv & -> & _); [| dlia].
    assert (0 < 128 ^ Z.of_nat k) by lia.
    exists (S k). rewrite pow128_S. split_and!; [lia | lia | lia | | |].
    + rewrite (Z.mul_comm 128), <- Z.div_div, Hdiv by lia. dlia.
    + simpl. rewrite Hdiv, Z.div_1_r. destruct (Nat.eqb_spec k 0); [lia |].
      replace ((v * 128 + b mod 128) mod 128 + 128) with b by dlia. done.
    + intros ->. right. destruct Hmin as [? | Hmin]; [done |].
      replace (Z.of_nat (S k) - 1) with (Z.of_nat k) by lia.
      assert (1 <= b mod 128) by dlia. pose proof (Z.mul_div_le r (128 ^ Z.of_nat k)). nia.
Qed.

Lemma base128_loop_complete fuel k v r s' :
  (1 <= k <= fuel)%nat -> 0 <= r < 2 ^ 64 -> r / 128 ^ Z.of_nat k = v ->
  (v = 0 -> k = 1%nat \/ 128 ^ (Z.of_nat k - 1) <= r) ->
  base128_loop fuel v (b128 k r ++ s') = (Done r, s').
Proof.
  revert k v. induction fuel as [| fuel IH]; intros k v Hk Hr Hv Hmin; [lia |].
  destruct k as [| j]; [lia |]. rewrite pow128_S in Hv. cbn [base128_loop b128 app].
  assert (0 < 128 ^ Z.of_nat j) by lia.
  set (d := r / 128 ^ Z.of_nat j).
  assert (d / 128 = v) as Hd by (subst d v; rewrite Z.div_div by lia; f_equal; lia).
  assert (0 <= d < 2 ^ 64).
  { split; [apply Z.div_pos; lia | apply Z.div_lt_upper_bound; nia]. }
  set (b := d mod 128 + (if Nat.eqb j 0 then 0 else 128)).
  assert (0 <= b < 256 /\ b mod 128 = d mod 128 /\ (b < 128 <-> j = O)) as (Hb & Hbm & Hbj).
  { subst b. destruct (Nat.eqb_spec j 0); split_and!; try split; try lia; dlia. }
  change (z2b b :: b128 j r ++ s') with ([z2b b] ++ (b128 j r ++ s')).
  assert ([z2b b] = be_bytes 1 b) as -> by (simpl; by rewrite Z.div_1_r).
  erewrite prog_bind_done by by apply CBS_get_u8_inverts.
  rewrite base128_guard, (proj2 (Z.ltb_lt v (2 ^ 57))), base128_step, land_80, Hbm by dlia.
  cbn [negb]. replace (v * 128 + d mod 128) with d by dlia.
  assert ((v =? 0) && (b =? 128) = false) as ->.
  { destruct (Z.eqb_spec v 0) as [-> |], (Z.eqb_spec b 128) as [Eb |]; try done. exfalso.
    destruct (Hmin eq_refl) as [? | Hle]; [lia |].
    replace (Z.of_nat (S j) - 1) with (Z.of_nat j) in Hle by lia.
    assert (1 <= d) by (apply Z.div_le_lower_bound; lia). dlia. }
  destruct (Z.ltb_spec b 128) as [Hlt | Hge]; cbn [Z.eqb negb].
  - assert (j = O) as -> by tauto. subst d. by rewrite Z.div_1_r.
  - assert (j <> O) by (intros ->; tauto || lia). apply IH; [lia | done | done |]. intros E.
    right. destruct (Hmin ltac:(dlia)) as [? | Hle]; [lia |].
    replace (Z.of_nat (S j) - 1) with (Z.of_nat j) in Hle by lia.
    assert (1 <= d) by (apply Z.div_le_lower_bound; lia). lia.
Qed.

Lemma pow_7_128 k : 0 <= k -> 2 ^ (7 * k) = 128 ^ k.
Proof. intros Hk. by rewrite Z.pow_mul_r. Qed.

#[export] Instance parse_base128_inverts :
  Inverts parse_base128_integer base128 (fun v => 0 <= v < 2 ^ 64).
Proof.
  intros s v s'. unfold parse_base128_integer, base128. split.
  - intros (cbs & s1 & [= <- <-] & E)%prog_bind_inv.
    apply base128_loop_sound in E as (k & Hk & Hv & Hdiv & -> & Hmin); [| lia].
    split; [done |]. rewrite (digits_unique 10 7 v k); [done | lia | | | ].
    + destruct (Hmin eq_refl) as [-> | Hle]; [lia |]. split; [done |].
      destruct (decide (k <= 10)%nat); [done | exfalso].
      assert (128 ^ 10 <= 128 ^ (Z.of_nat k - 1)) by (apply Z.pow_le_mono_r; lia).
      change (128 ^ 10) with (2 ^ 70) in *. lia.
    + rewrite pow_7_128 by lia. split; [lia |].
      apply Z.div_small_iff in Hdiv; lia.
    + rewrite pow_7_128 by lia. by apply Hmin.
  - intros [Hv ->]. unfold mbind, prog_bind, getS.
    destruct (digits_spec 10 7 v) as (k & -> & Hk & Hlt & Hmin); [lia.. |].
    rewrite pow_7_128 in Hlt, Hmin by lia.
    apply base128_loop_complete; [| done | apply Z.div_small; lia | done].
    rewrite length_app, length_b128. lia.
Qed.

(** *** Tags *)

Lemma tag_byte_bits b :
  0 <= b < 256 -> b .& 224 = b / 32 * 32 /\ u32 ((b .& 224) .<< CBS_ASN1_TAG_SHIFT) = b / 32 * 2 ^ 29.
Proof.
  intros Hb. assert (b .& 224 = b / 32 * 32) as E.
  { rewrite <- (b2z_z2b_small b Hb). generalize (z2b b). clear. intros b.
    apply Z.eqb_eq. revert b. by apply byte_forallb. }
  split; [done |]. rewrite E. unfold CBS_ASN1_TAG_SHIFT.
  rewrite Z.shiftl_mul_pow2, wrap_small by dlia. lia.
Qed.

Lemma be_bytes_1 v : be_bytes 1 v = [z2b v].
Proof. simpl. by rewrite Z.div_1_r. Qed.

Lemma get_u8_z2b v t : 0 <= v < 256 -> CBS_get_u8 (z2b v :: t) = (Done v, t).
Proof. intros Hv. pose proof (inverts_run CBS_get_u8 _ _ v t Hv) as Hr. by rewrite be_bytes_1 in Hr. Qed.

#[export] Instance parse_asn1_tag_inverts :
  Inverts parse_asn1_tag der_tag (fun tag => 0 <= tag < 2 ^ 32).
Proof.
  intros s tag s'. unfold parse_asn1_tag. rewrite prog_bind_iff. split.
  - intros (b & s1 & [Hb ->]%CBS_get_u8_inverts & E). cbv zeta in E.
    apply prog_bind_inv in E as (n & s2 & E & [= <- <-]).
    destruct (tag_byte_bits b Hb) as [_ ->]. rewrite land_1f in E.
    replace (b / 32 * 2 ^ 29) with ((b / 32) .<< 29) by (rewrite Z.shiftl_mul_pow2; lia).
    rewrite be_bytes_1. unfold der_tag. destruct (Z.eqb_spec (b mod 32) 31) as [E31 | Hne].
    + apply prog_bind_inv in E as (v & s3 & [Hv ->]%parse_base128_inverts & E).
      change CBS_ASN1_TAG_NUMBER_MASK with (2 ^ 29 - 1) in E.
      destruct (Z.ltb_spec (2 ^ 29 - 1) v); [done |].
      destruct (Z.ltb_spec v 31); [done |]. injection E as <- <-.
      rewrite wrap_small, lor_shl by lia. split; [dlia |].
      replace ((b / 32 * 2 ^ 29 + v) mod 2 ^ 29) with v by dlia.
      replace ((b / 32 * 2 ^ 29 + v) / 2 ^ 29) with (b / 32) by dlia.
      rewrite (proj2 (Z.ltb_ge v 31)) by lia. replace (b / 32 * 32 + 31) with b by dlia. done.
    + injection E as <- <-. rewrite lor_shl by dlia. split; [dlia |].
      replace ((b / 32 * 2 ^ 29 + b mod 32) mod 2 ^ 29) with (b mod 32) by dlia.
      replace ((b / 32 * 2 ^ 29 + b mod 32) / 2 ^ 29) with (b / 32) by dlia.
      rewrite (proj2 (Z.ltb_lt (b mod 32) 31)) by dlia.
      replace (b / 32 * 32 + b mod 32) with b by dlia. done.
  - intros [Htag ->]. unfold der_tag. set (n := tag mod 2 ^ 29). set (c := tag / 2 ^ 29).
    assert (0 <= n < 2 ^ 29 /\ 0 <= c < 8 /\ tag = c * 2 ^ 29 + n) as (Hn & Hc & Htag')
      by (subst n c; dlia).
    assert (forall x, 0 <= x < 32 -> forall t,
      CBS_get_u8 (z2b (c * 32 + x) :: t) = (Done (c * 32 + x), t)) as Hget.
    { intros x Hx t. change (z2b (c * 32 + x) :: t) with ([z2b (c * 32 + x)] ++ t).
      rewrite <- be_bytes_1. apply CBS_get_u8_inverts. split; [lia | done]. }
    destruct (Z.ltb_spec n 31).
    + exists (c * 32 + n), s'. split; [apply Hget; lia |]. cbv zeta.
      destruct (tag_byte_bits (c * 32 + n)) as [_ ->]; [lia |]. rewrite land_1f.
      replace ((c * 32 + n) / 32) with c by dlia. replace ((c * 32 + n) mod 32) with n by dlia.
      rewrite (proj2 (Z.eqb_neq n 31)) by lia. erewrite prog_bind_done by done.
      replace (c * 2 ^ 29) with (c .<< 29) by (rewrite Z.shiftl_mul_pow2; lia).
      rewrite lor_shl by lia. by rewrite Htag'.
    + exists (c * 32 + 31), (base128 n ++ s'). split; [apply Hget; lia |]. cbv zeta.
      destruct (tag_byte_bits (c * 32 + 31)) as [_ ->]; [lia |]. rewrite land_1f.
      replace ((c * 32 + 31) / 32) with c by dlia. replace ((c * 32 + 31) mod 32) with 31 by dlia.
      change (31 =? 31) with true. cbv iota.
      erewrite prog_bind_done.
      2: { erewrite prog_bind_done by (apply (inverts_run parse_base128_integer base128 _ n s'); lia).
           change CBS_ASN1_TAG_NUMBER_MASK with (2 ^ 29 - 1).
           rewrite (proj2 (Z.ltb_ge _ n)), (proj2 (Z.ltb_ge n 31)) by lia. done. }
      replace (c * 2 ^ 29) with (c .<< 29) by (rewrite Z.shiftl_mul_pow2; lia).
      rewrite wrap_small, lor_shl by lia. by rewrite Htag'.
Qed.

(** *** Lengths *)

Definition der_header_len (tag n : Z) : Z := lenZ (der_tag tag) + lenZ (der_len n).

Lemma der_tag_length tag : 0 <= tag < 2 ^ 32 -> 1 <= lenZ (der_tag tag) <= 11.
Proof.
  intros Ht. unfold der_tag, lenZ. destruct (_ <? 31); [done |]. unfold base128. cbn [length].
  rewrite length_b128. destruct (digits_spec 10 7 (tag mod 2 ^ 29)) as (k & -> & ? & _); [lia | lia | dlia |].
  lia.
Qed.

Lemma der_len_length n : 0 <= n < 2 ^ 32 -> 1 <= lenZ (der_len n) <= 5.
Proof.
  intros Hn. unfold der_len, lenZ. destruct (n <? 128); [done |]. cbn [length].
  rewrite length_be_bytes. destruct (digits_spec 4 8 n) as (k & -> & ? & _); lia.
Qed.

Lemma long_form_guard n k :
  0 <= n -> 1 <= k -> (n .>> ((k - 1) * 8) =? 0) = (n <? 256 ^ (k - 1)).
Proof.
  intros Hn Hk. rewrite Z.shiftr_div_pow2 by lia.
  rewrite (Z.mul_comm (k - 1)), Z.pow_mul_r by lia. change (2 ^ 8) with 256.
  destruct (Z.ltb_spec n (256 ^ (k - 1))); [by rewrite Z.div_small by lia |].
  apply Z.eqb_neq. assert (1 <= n / 256 ^ (k - 1)) by (apply Z.div_le_lower_bound; lia). lia.
Qed.

(** The long form is minimal: the number of length bytes is the one needed. *)
Lemma digits_8 n k :
  (1 <= k <= 4)%nat -> 128 <= n < 256 ^ Z.of_nat k -> 256 ^ (Z.of_nat k - 1) <= n ->
  digits 4 8 n = k.
Proof.
  intros Hk Hn Hmin. apply digits_unique; [lia | lia | |].
  - rewrite Z.pow_mul_r by lia. change (2 ^ 8) with 256. lia.
  - right. rewrite Z.pow_mul_r by lia. done.
Qed.

Lemma der_len_long n :
  128 <= n < 2 ^ 32 ->
  exists k, (1 <= k <= 4)%nat /\ der_len n = z2b (128 + Z.of_nat k) :: be_bytes k n /\
    0 <= n < 256 ^ Z.of_nat k /\ 256 ^ (Z.of_nat k - 1) <= n.
Proof.
  intros Hn. unfold der_len. rewrite (proj2 (Z.ltb_ge n 128)) by lia.
  destruct (digits_spec 4 8 n) as (k & -> & Hk & Hlt & Hmin); [lia.. |].
  rewrite !Z.pow_mul_r in * by lia. change (2 ^ 8) with 256 in *.
  exists k. split_and!; try done; try lia. destruct Hmin as [-> | ?]; [| done].
  change (256 ^ (Z.of_nat 1 - 1)) with 1. lia.
Qed.

Lemma header_parse_sound s h s1 :
  asn1_header_parse false (lenZ s) s = (Done h, s1) ->
  exists tag n, 0 <= tag < 2 ^ 32 /\ 0 <= n < 2 ^ 32 /\ s = der_tag tag ++ der_len n ++ s1 /\
    h = mk_header tag (der_header_len tag n + n) (der_header_len tag n) false.
Proof.
  unfold asn1_header_parse.
  intros (tag & s2 & [Htag ->]%parse_asn1_tag_inverts & E)%prog_bind_inv.
  apply prog_bind_inv in E as (lb & s3 & [Hlb ->]%CBS_get_u8_inverts & E).
  rewrite be_bytes_1 in E |- *.
  apply prog_bind_inv in E as (? & ? & [= <- <-] & E). cbv zeta in E.
  pose proof (der_tag_length tag Htag) as Hlt.
  assert (u64 (lenZ (der_tag tag ++ [z2b lb] ++ s3) - CBS_len s3) = lenZ (der_tag tag) + 1) as Hl.
  { unfold CBS_len, lenZ in *. rewrite !length_app. simpl length. rewrite wrap_small; lia. }
  rewrite Hl, land_80, land_7f in E by done.
  destruct (Z.ltb_spec lb 128) as [Hs | Hs]; cbn [Z.eqb andb] in E.
  - injection E as <- <-. exists tag, lb.
    assert (der_len lb = [z2b lb]) as Hd by by (unfold der_len; rewrite (proj2 (Z.ltb_lt lb 128)) by done).
    unfold der_header_len. rewrite Hd. change (lenZ [z2b lb]) with 1.
    split_and!; [lia | lia | lia | lia | done |]. f_equal. rewrite wrap_small; lia.
  - destruct (Z.eqb_spec (lb mod 128) 0) as [? | Hnz]; [done |]. cbn [orb] in E.
    destruct (Z.ltb_spec 4 (lb mod 128)) as [? | H4]; [done |].
    set (k := Z.to_nat (lb mod 128)).
    assert (lb mod 128 = Z.of_nat k /\ (1 <= k <= 4)%nat) as [Hk Hk14] by (subst k; dlia).
    rewrite Hk in E. apply prog_bind_inv in E as (n & s4 & En & E).
    assert (TCEq (Nat.leb k 8) true) as Hk8 by by (apply TCEq_eq, Nat.leb_le; lia).
    apply (cbs_get_u_inverts k Hk8) in En as [Hn ->].
    destruct (Z.ltb_spec n 128); [done |]. cbn [andb negb orb] in E.
    rewrite long_form_guard in E by lia.
    destruct (Z.ltb_spec n (256 ^ (Z.of_nat k - 1))); [done |]. cbn [andb negb orb] in E.
    assert (256 ^ Z.of_nat k <= 2 ^ 32) by (change (2 ^ 32) with (256 ^ 4); apply Z.pow_le_mono_r; lia).
    rewrite !(wrap_small 64) in E by lia. rewrite (proj2 (Z.ltb_ge _ n)) in E by lia.
    injection E as <- <-. exists tag, n.
    assert (der_len n = z2b lb :: be_bytes k n) as Hd.
    { unfold der_len. rewrite (proj2 (Z.ltb_ge n 128)), (digits_8 n k) by lia.
      do 2 f_equal. dlia. }
    assert (lenZ (der_len n) = 1 + Z.of_nat k) as Hdl.
    { rewrite Hd. unfold lenZ. cbn [length]. rewrite length_be_bytes. lia. }
    unfold der_header_len. rewrite Hdl, Hd.
    split_and!; [lia | lia | lia | lia | done |]. f_equal; lia.
Qed.

Lemma header_parse_complete tag n s1 :
  0 <= tag < 2 ^ 32 -> 0 <= n < 2 ^ 32 ->
  asn1_header_parse false (lenZ (der_tag tag ++ der_len n ++ s1)) (der_tag tag ++ der_len n ++ s1)
  = (Done (mk_header tag (der_header_len tag n + n) (der_header_len tag n) false), s1).
Proof.
  intros Htag Hn. unfold asn1_header_parse.
  erewrite prog_bind_done by apply (inverts_run parse_asn1_tag der_tag _ tag _ Htag).
  pose proof (der_tag_length tag Htag) as Hlt.
  assert (forall lb t, 0 <= lb < 256 -> CBS_get_u8 (z2b lb :: t) = (Done lb, t)) as Hget.
  { intros lb t Hlb. pose proof (inverts_run CBS_get_u8 _ _ lb t Hlb) as Hr.
    by rewrite be_bytes_1 in Hr. }
  assert (forall b t, u64 (lenZ (der_tag tag ++ b :: t) - CBS_len t) = lenZ (der_tag tag) + 1) as Hl.
  { intros b t. unfold CBS_len, lenZ in *. rewrite !length_app. cbn [length].
    rewrite wrap_small; lia. }
  destruct (Z_lt_ge_dec n 128) as [Hs | Hs].
  - assert (der_len n = [z2b n]) as Hd by by (unfold der_len; rewrite (proj2 (Z.ltb_lt n 128)) by done).
    unfold der_header_len. rewrite Hd. cbn [app].
    erewrite prog_bind_done by (apply Hget; lia). erewrite prog_bind_done by done. cbv zeta.
    rewrite Hl, land_80, (proj2 (Z.ltb_lt n 128)) by lia.
    unfold mret, prog_ret. change (lenZ [z2b n]) with 1. cbn [Z.eqb].
    do 3 f_equal. rewrite wrap_small; lia.
  - destruct (der_len_long n) as (k & Hk & Hd & Hnk & Hmin); [lia |].
    assert (lenZ (der_len n) = 1 + Z.of_nat k) as Hdl.
    { rewrite Hd. unfold lenZ. cbn [length]. rewrite length_be_bytes. lia. }
    unfold der_header_len. rewrite Hdl, Hd.
    cbn [app]. erewrite prog_bind_done by (apply Hget; lia). erewrite prog_bind_done by done. cbv zeta.
    rewrite Hl, land_80, land_7f, (proj2 (Z.ltb_ge (128 + Z.of_nat k) 128)) by lia. cbn [Z.eqb andb].
    replace ((128 + Z.of_nat k) mod 128) with (Z.of_nat k) by dlia.
    rewrite (proj2 (Z.eqb_neq (Z.of_nat k) 0)), (proj2 (Z.ltb_ge 4 (Z.of_nat k))) by lia. cbn [orb].
    assert (TCEq (Nat.leb k 8) true) as Hk8 by by (apply TCEq_eq, Nat.leb_le; lia).
    erewrite prog_bind_done by (by apply (inverts_run (cbs_get_u (Z.of_nat k)) (be_bytes k) _ n s1)).
    rewrite (proj2 (Z.ltb_ge n 128)) by lia. cbn [andb negb orb].
    rewrite long_form_guard, (proj2 (Z.ltb_ge n _)) by lia. cbn [andb negb orb].
    rewrite !(wrap_small 64) by lia. rewrite (proj2 (Z.ltb_ge _ n)) by lia.
    unfold mret, prog_ret. do 3 f_equal; lia.
Qed.

(** *** Elements *)

Lemma lenZ_app (l1 l2 : list byte) : lenZ (l1 ++ l2) = lenZ l1 + lenZ l2.
Proof. unfold lenZ. rewrite length_app. lia. Qed.

Lemma lenZ_der tag body : lenZ (der tag body) = der_header_len tag (lenZ body) + lenZ body.
Proof. unfold der, der_header_len. rewrite !lenZ_app. lia. Qed.

Definition der_ok (tag : Z) (body : list byte) : Prop := 0 <= tag < 2 ^ 32 /\ lenZ body < 2 ^ 32.

Definition der_header (tag : Z) (body : list byte) : asn1_header :=
  mk_header tag (lenZ (der tag body)) (der_header_len tag (lenZ body)) false.

Lemma any_element_iff s out h s' :
  cbs_get_any_asn1_element false s = (Done (out, h), s') <->
  exists tag body, der_ok tag body /\ s = der tag body ++ s' /\ out = der tag body /\
                   h = der_header tag body.
Proof.
  unfold cbs_get_any_asn1_element. split.
  - intros (? & ? & [= <- <-] & E)%prog_bind_inv.
    apply prog_bind_inv in E as (h' & s1 & Eh & E).
    unfold on_copy in Eh. destruct (asn1_header_parse _ _ s) as [r s2] eqn:Ep.
    cbn [fst] in Eh. injection Eh as -> <-.
    apply header_parse_sound in Ep as (tag & n & Htag & Hn & -> & ->).
    apply prog_bind_inv in E as (o & s3 & Eo & E). injection E as -> <- <-.
    unfold CBS_get_bytes in Eo. cbn [h_len] in Eo.
    apply cbs_get_inverts in Eo as [Hlen Es].
    2: { unfold der_header_len, lenZ. lia. }
    assert (exists body, s2 = body ++ s3 /\ out = der_tag tag ++ der_len n ++ body /\ lenZ body = n)
      as (body & -> & -> & <-).
    { unfold id in *. rewrite app_assoc in Es. unfold der_header_len in Hlen.
      apply app_eq_inv in Es as [(k & E1 & E2) | (k & E1 & E2)];
        pose proof (f_equal lenZ E1) as E3; rewrite !lenZ_app in E3.
      - unfold lenZ in *. assert (k = []) as -> by (destruct k; [done | simpl in *; lia]).
        rewrite app_nil_r in *. exists []. rewrite app_nil_r. simpl in *.
        split_and!; [done | done | lia].
      - exists k. rewrite app_assoc. split_and!; [done | done | lia]. }
    exists tag, body. split_and!; [split; [done | lia] | unfold der; by rewrite <- !app_assoc | done |].
    unfold der_header. by rewrite lenZ_der.
  - intros (tag & body & [Htag Hb] & -> & -> & ->).
    erewrite prog_bind_done by done. unfold der. rewrite <- !app_assoc.
    erewrite prog_bind_done.
    2: { unfold on_copy, CBS_len. rewrite header_parse_complete by (unfold lenZ in *; lia). done. }
    pose proof (lenZ_der tag body) as Hl. unfold der in Hl. cbn [h_len].
    rewrite <- Hl. erewrite prog_bind_done.
    2: { apply cbs_get_inverts; [unfold lenZ; lia |]. split; [done |]. unfold id. by rewrite <- !app_assoc. }
    unfold mret, prog_ret, der_header, der. by do 3 f_equal.
Qed.

(** A header that was just parsed is skipped. *)
Lemma skip_header_run tag body s :
  on (der tag body) (CBS_skip (der_header_len tag (lenZ body))) s = (Done (tt, body), s).
Proof.
  assert (0 <= der_header_len tag (lenZ body)) as H0 by (unfold der_header_len, lenZ; lia).
  unfold on, CBS_skip. erewrite prog_bind_done; [done |].
  apply (cbs_get_inverts _ H0 _ (der_tag tag ++ der_len (lenZ body)) body).
  unfold der_header_len. rewrite lenZ_app. split; [done |].
  unfold id, der. by rewrite <- app_assoc.
Qed.

Lemma any_element_pub_iff s out tag hl s' :
  CBS_get_any_asn1_element s = (Done (out, tag, hl), s') <->
  exists body, der_ok tag body /\ s = der tag body ++ s' /\ out = der tag body /\
               hl = der_header_len tag (lenZ body).
Proof.
  unfold CBS_get_any_asn1_element. rewrite prog_bind_iff. split.
  - intros ([o h] & s1 & (t & body & Hok & -> & -> & ->)%any_element_iff & [= <- <- <- <-]).
    by exists body.
  - intros (body & Hok & -> & -> & ->). eexists (_, _), s'. split.
    + apply any_element_iff. by exists tag, body.
    + done.
Qed.

#[export] Instance CBS_get_any_asn1_inverts :
  Inverts CBS_get_any_asn1 (fun r => der r.2 r.1) (fun r => der_ok r.2 r.1).
Proof.
  intros s [body tag] s'. unfold CBS_get_any_asn1. rewrite prog_bind_iff. cbn [fst snd]. split.
  - intros ([[o t] hl] & s1 & (b & Hok & -> & -> & ->)%any_element_pub_iff & E).
    erewrite prog_bind_done in E by apply skip_header_run. by injection E as <- <- <-.
  - intros [Hok ->]. eexists (_, _, _), s'. split.
    + apply any_element_pub_iff. by exists body.
    + cbv beta iota. erewrite prog_bind_done by apply skip_header_run. done.
Qed.

#[export] Instance CBS_get_asn1_inverts tag :
  Inverts (CBS_get_asn1 tag) (der tag) (der_ok tag).
Proof.
  intros s body s'. unfold CBS_get_asn1, cbs_get_asn1. rewrite prog_bind_iff. split.
  - intros ([[o t] hl] & s1 & (b & Hok & -> & -> & ->)%any_element_pub_iff & E).
    destruct (Z.eqb_spec t tag) as [-> |]; [| done]. cbn [negb] in E.
    erewrite prog_bind_done in E by apply skip_header_run. by injection E as <- <-.
  - intros [Hok ->]. eexists (_, _, _), s'. split.
    + apply any_element_pub_iff. by exists body.
    + cbv beta iota. rewrite Z.eqb_refl. cbn [negb].
      erewrite prog_bind_done by apply skip_header_run. done.
Qed.

#[export] Instance CBS_get_asn1_element_inverts tag :
  Inverts (CBS_get_asn1_element tag) id (fun e => exists body, der_ok tag body /\ e = der tag body).
Proof.
  intros s e s'. unfold CBS_get_asn1_element, cbs_get_asn1. rewrite prog_bind_iff. split.
  - intros ([[o t] hl] & s1 & (b & Hok & -> & -> & ->)%any_element_pub_iff & E).
    destruct (Z.eqb_spec t tag) as [-> |]; [| done]. injection E as <- <-. by split; [exists b |].
  - intros [(body & Hok & ->) ->]. eexists (_, _, _), s'. split.
    + apply any_element_pub_iff. by exists body.
    + cbv beta iota. by rewrite Z.eqb_refl.
Qed.

(** ** Integers

    The contents of an INTEGER are its two's complement bytes without redundant
    leading ones: [strip] removes those from a sign-extended word. *)

Definition redundant (b1 b2 : byte) : bool :=
  ((b2z b1 =? 0) && (b2z b2 <? 128)) || ((b2z b1 =? 255) && (128 <=? b2z b2)).

Fixpoint strip (l : list byte) : list byte :=
  match l with
  | b1 :: (b2 :: _) as t => if redundant b1 b2 then strip t else l
  | _ => l
  end.

Definition is_negative (l : list byte) : bool :=
  match l with b :: _ => 128 <=? b2z b | [] => false end.

Definition sign_byte (neg : bool) : byte := if neg then xff else x00.

(** Minimal and not empty. *)
Definition int_valid (l : list byte) : Prop := l <> [] /\ strip l = l.

Lemma strip_cons b1 b2 t :
  strip (b1 :: b2 :: t) = if redundant b1 b2 then strip (b2 :: t) else b1 :: b2 :: t.
Proof. done. Qed.

Lemma sign_bit b : negb (b2z b .& 128 =? 0) = (128 <=? b2z b).
Proof.
  rewrite land_80 by apply b2z_range. destruct (Z.ltb_spec (b2z b) 128).
  - by rewrite (proj2 (Z.leb_gt _ _)) by lia.
  - by rewrite (proj2 (Z.leb_le _ _)) by lia.
Qed.

Lemma get_u8_cons b t : CBS_get_u8 (b :: t) = (Done (b2z b), t).
Proof.
  pose proof (inverts_run CBS_get_u8 _ _ (b2z b) t (b2z_range b)) as Hr.
  by rewrite be_bytes_1, z2b_b2z in Hr.
Qed.

Lemma length_strip l : (length (strip l) <= length l)%nat.
Proof.
  induction l as [| b1 [| b2 t] IH]; [done.. |]. rewrite strip_cons.
  destruct (redundant b1 b2); [| done]. simpl length in *. lia.
Qed.

Lemma valid_integer_spec l :
  CBS_is_valid_asn1_integer l
  = if decide (int_valid l) then Some (is_negative l) else None.
Proof.
  unfold CBS_is_valid_asn1_integer, int_valid. destruct l as [| b1 [| b2 t]].
  - rewrite decide_False by (by intros [? _]). done.
  - rewrite get_u8_cons. change (CBS_get_u8 []) with (@Failed Z, @nil byte).
    cbn [is_negative]. rewrite sign_bit. by rewrite decide_True.
  - rewrite !get_u8_cons. rewrite strip_cons. cbn [is_negative]. rewrite !sign_bit.
    assert ((b2z b2 .& 128 =? 0) = (b2z b2 <? 128)) as ->.
    { rewrite <- (negb_involutive (_ =? 0)), sign_bit. by rewrite Z.leb_antisym, negb_involutive. }
    fold (redundant b1 b2). destruct (redundant b1 b2).
    + case_decide as Hd; [exfalso | done]. destruct Hd as [_ Hs].
      apply (f_equal length) in Hs. pose proof (length_strip (b2 :: t)). cbn [length] in *. lia.
    + by rewrite decide_True.
Qed.

(** Stripping keeps the sign, and sign extension undoes it. *)
Lemma strip_ext l :
  l <> [] ->
  int_valid (strip l) /\ is_negative (strip l) = is_negative l /\
  l = repeat (sign_byte (is_negative l)) (length l - length (strip l)) ++ strip l.
Proof.
  induction l as [| b1 [| b2 t] IH]; intros Hne; [done | |].
  - simpl. by unfold int_valid.
  - rewrite strip_cons. destruct (redundant b1 b2) eqn:Er.
    + destruct IH as (Hv & Hs & Hl); [done |].
      pose proof (length_strip (b2 :: t)) as Hlen.
      assert (is_negative (b1 :: b2 :: t) = is_negative (b2 :: t) /\
              b1 = sign_byte (is_negative (b2 :: t))) as [E1 E2].
      { unfold redundant in Er. cbn [is_negative]. apply orb_true_iff in Er.
        rewrite !andb_true_iff, !Z.eqb_eq, Z.ltb_lt, Z.leb_le in Er.
        destruct Er as [[Eb Hb] | [Eb Hb]].
        - rewrite (proj2 (Z.leb_gt 128 (b2z b1))), (proj2 (Z.leb_gt 128 (b2z b2))) by lia.
          split; [done |]. by apply b2z_inj.
        - rewrite (proj2 (Z.leb_le 128 (b2z b1))), (proj2 (Z.leb_le 128 (b2z b2))) by lia.
          split; [done |]. by apply b2z_inj. }
      split_and!; [done | congruence |]. rewrite E1.
      replace (length (b1 :: b2 :: t) - length (strip (b2 :: t)))%nat
        with (S (length (b2 :: t) - length (strip (b2 :: t)))) by (cbn [length] in *; lia).
      cbn [repeat app]. by rewrite <- Hl, <- E2.
    + split_and!; [| done |].
      * split; [done |]. by rewrite strip_cons, Er.
      * by rewrite Nat.sub_diag.
Qed.

(** Conversely a minimal contents is what remains of its sign extension. *)
Lemma strip_sign_extend l n :
  int_valid l -> strip (repeat (sign_byte (is_negative l)) n ++ l) = l.
Proof.
  intros [Hne Hs]. induction n as [| n IH]; [done |].
  assert (exists b t, repeat (sign_byte (is_negative l)) n ++ l = b :: t /\
                      (128 <=? b2z b) = is_negative l) as (b & t & E & Hb).
  { destruct n as [| n]; simpl.
    - destruct l as [| b t]; [done |]. by exists b, t.
    - eexists _, _. split; [done |]. by destruct (is_negative l). }
  cbn [repeat app]. rewrite E in *. rewrite strip_cons.
  assert (redundant (sign_byte (is_negative l)) b = true) as ->; [| done].
  unfold redundant. rewrite <- Hb. destruct (Z.leb_spec 128 (b2z b)); simpl; [done |].
  by rewrite (proj2 (Z.ltb_lt (b2z b) 128)) by done.
Qed.

Lemma be_value_zeros n l : be_value (repeat x00 n ++ l) = be_value l.
Proof.
  induction n as [| n IH]; [done |]. simpl. rewrite be_value_cons, IH. done.
Qed.

(** *** Unsigned *)

(** Contents of the INTEGER [v]: a zero byte keeps the value positive. *)
Definition uint64_body (v : Z) : list byte := strip (x00 :: be_bytes 8 v).

Lemma uint64_loop_spec data out s :
  0 <= out < 2 ^ 64 ->
  uint64_loop data out s
  = (if decide (out * 256 ^ lenZ data + be_value data < 2 ^ 64)
     then Done (out * 256 ^ lenZ data + be_value data) else Failed, s).
Proof.
  unfold lenZ. revert out. induction data as [| b data IH]; intros out Hout.
  - simpl. rewrite Z.mul_1_r. change (be_value []) with 0. rewrite Z.add_0_r.
    by rewrite decide_True by lia.
  - cbn [uint64_loop length]. rewrite be_value_cons, Nat2Z.inj_succ, Z.pow_succ_r by lia.
    set (p := 256 ^ Z.of_nat (length data)) in *. assert (0 < p) by (subst p; lia).
    pose proof (be_value_range data) as Hr. fold p in Hr.
    rewrite Z.shiftr_div_pow2 by lia. destruct (Z.eqb_spec (out / 2 ^ 56) 0) as [E | E]; cbn [negb].
    + assert (out < 2 ^ 56) by (apply Z.div_small_iff in E; lia).
      assert (u64 (out .<< 8) .| b2z b = out * 256 + b2z b) as ->.
      { unfold wrap. rewrite Z.mod_small by (rewrite Z.shiftl_mul_pow2; lia).
        rewrite lor_shl by blia. done. }
      rewrite IH by blia.
      by replace (out * (256 * p) + (b2z b * p + be_value data))
        with ((out * 256 + b2z b) * p + be_value data) by lia.
    + assert (2 ^ 56 <= out).
      { destruct (Z_lt_ge_dec out (2 ^ 56)) as [Hlt |]; [| lia]. by rewrite Z.div_small in E by lia. }
      rewrite decide_False; [done |]. pose proof (b2z_range b). nia.
Qed.

Lemma be_value_pos_length l b k :
  l !! 0%nat = Some b -> (S k <= length l)%nat -> 1 <= b2z b -> 256 ^ Z.of_nat k <= be_value l.
Proof.
  intros Hl Hk Hb. destruct l as [| c l]; [done |]. injection Hl as ->. rewrite be_value_cons.
  pose proof (be_value_range l). simpl in Hk.
  assert (256 ^ Z.of_nat k <= 256 ^ Z.of_nat (length l)) by (apply Z.pow_le_mono_r; lia). nia.
Qed.

Lemma uint64_body_unique l :
  int_valid l -> is_negative l = false -> be_value l < 2 ^ 64 -> l = uint64_body (be_value l).
Proof.
  intros Hv Hn Hlt.
  assert (length l <= 9)%nat as Hlen.
  { destruct (decide (length l <= 9)%nat) as [| Hgt]; [done | exfalso].
    destruct l as [| b1 [| b2 t]]; simpl in Hgt; try lia.
    pose proof (b2z_range b1). destruct (Z_lt_ge_dec 0 (b2z b1)) as [Hpos | Hz].
    - pose proof (be_value_pos_length (b1 :: b2 :: t) b1 9 eq_refl ltac:(simpl; lia) ltac:(lia)).
      change (256 ^ Z.of_nat 9) with (2 ^ 72) in *. lia.
    - destruct Hv as [_ Hs]. rewrite strip_cons in Hs. destruct (redundant b1 b2) eqn:Er.
      { apply (f_equal length) in Hs. pose proof (length_strip (b2 :: t)). cbn [length] in *. lia. }
      unfold redundant in Er. rewrite (proj2 (Z.eqb_eq (b2z b1) 0)) in Er by lia.
      destruct (Z.ltb_spec (b2z b2) 128); [done |].
      rewrite be_value_cons in Hlt. replace (b2z b1) with 0 in Hlt by lia.
      pose proof (be_value_pos_length (b2 :: t) b2 8 eq_refl ltac:(simpl; lia) ltac:(lia)).
      rewrite be_value_cons in Hlt. pose proof (be_value_range t).
      assert (256 ^ 8 <= 256 ^ Z.of_nat (length t)) by (apply Z.pow_le_mono_r; lia). lia. }
  unfold uint64_body. rewrite <- (strip_sign_extend l (9 - length l) Hv) at 1.
  rewrite Hn. f_equal. simpl sign_byte.
  rewrite <- (be_value_zeros (9 - length l) l) in Hlt |- *.
  set (e := repeat x00 (9 - length l) ++ l) in *.
  assert (length e = 9%nat) as He.
  { subst e. rewrite length_app, repeat_length. lia. }
  rewrite <- (be_bytes_be_value e) at 1. rewrite He. cbn [be_bytes].
  pose proof (be_value_range e). rewrite Z.div_small by (change (256 ^ Z.of_nat 8) with (2 ^ 64); lia).
  done.
Qed.

Lemma uint64_body_spec v :
  0 <= v < 2 ^ 64 ->
  int_valid (uint64_body v) /\ is_negative (uint64_body v) = false /\ be_value (uint64_body v) = v.
Proof.
  intros Hv. destruct (strip_ext (x00 :: be_bytes 8 v)) as (H1 & H2 & H3); [done |].
  fold (uint64_body v) in *. split_and!; [done | by rewrite H2 |].
  apply (f_equal be_value) in H3. change (is_negative (x00 :: be_bytes 8 v)) with false in H3.
  simpl sign_byte in H3. rewrite be_value_zeros, be_value_cons, be_value_be_bytes in H3.
  rewrite Z.mod_small in H3 by (change (256 ^ Z.of_nat 8) with (2 ^ 64); lia).
  rewrite <- H3. done.
Qed.

Lemma length_uint64_body v : (length (uint64_body v) <= 9)%nat.
Proof. exact (length_strip (x00 :: be_bytes 8 v)). Qed.

#[export] Instance CBS_get_asn1_uint64_inverts :
  Inverts CBS_get_asn1_uint64 (fun v => der CBS_ASN1_INTEGER (uint64_body v)) (fun v => 0 <= v < 2 ^ 64).
Proof.
  intros s v s'. unfold CBS_get_asn1_uint64. rewrite prog_bind_iff. split.
  - intros (l & s1 & [Hok ->]%CBS_get_asn1_inverts & E).
    unfold CBS_is_unsigned_asn1_integer in E. rewrite valid_integer_spec in E.
    destruct (decide (int_valid l)) as [Hv |]; [| done].
    destruct (is_negative l) eqn:En; [done |]. cbn [negb] in E.
    rewrite uint64_loop_spec in E by lia. unfold CBS_data in E. rewrite Z.mul_0_l, Z.add_0_l in E.
    case_decide as Hlt; [| done]. injection E as <- <-.
    split; [pose proof (be_value_range l); lia |]. by rewrite <- uint64_body_unique.
  - intros [Hv ->]. destruct (uint64_body_spec v Hv) as (H1 & H2 & H3).
    exists (uint64_body v), s'. split.
    + apply (inverts_run (CBS_get_asn1 _) (der _) _ (uint64_body v) s').
      split; [done |]. pose proof (length_uint64_body v). unfold lenZ. lia.
    + unfold CBS_is_unsigned_asn1_integer.
      rewrite valid_integer_spec, decide_True, H2 by done. cbn [negb].
      rewrite uint64_loop_spec by lia. unfold CBS_data.
      rewrite Z.mul_0_l, Z.add_0_l, H3, decide_True by lia. done.
Qed.

(** *** Signed *)

Definition int64_body (v : Z) : list byte := strip (be_bytes 8 v).

Lemma reverse_repeat {A} (x : A) n : reverse (repeat x n) = repeat x n.
Proof.
  induction n as [| n IH]; [done |]. cbn [repeat]. by rewrite reverse_cons, IH, <- repeat_cons.
Qed.

(** The eight bytes of the union, most significant first: [data] sign-extended. *)
Lemma reverse_int64_bytes neg data :
  reverse (int64_bytes neg data) = repeat (sign_byte neg) (8 - length data) ++ data.
Proof. unfold int64_bytes. by rewrite reverse_app, reverse_involutive, reverse_repeat. Qed.

Lemma i64_mod z : i64 z mod 2 ^ 64 = z mod 2 ^ 64.
Proof. unfold swrap. rewrite Zminus_mod_idemp_l. f_equal. lia. Qed.

Lemma i64_range z : - 2 ^ 63 <= i64 z < 2 ^ 63.
Proof. unfold swrap. pose proof (Z.mod_pos_bound (z + 2 ^ (64 - 1)) (2 ^ 64)). lia. Qed.

Lemma i64_mod_64 v : - 2 ^ 63 <= v < 2 ^ 63 -> i64 (v mod 2 ^ 64) = v.
Proof.
  intros Hv. unfold swrap. rewrite Z.add_mod_idemp_l by lia. rewrite Z.mod_small; lia.
Qed.

Lemma int64_body_unique l :
  int_valid l -> (length l <= 8)%nat ->
  l = int64_body (i64 (be_value (reverse (int64_bytes (is_negative l) l)))).
Proof.
  intros Hv Hl. rewrite reverse_int64_bytes. unfold int64_body.
  set (e := repeat _ _ ++ l). assert (length e = 8%nat) as He.
  { subst e. rewrite length_app, repeat_length. lia. }
  rewrite (be_bytes_mod_ext 8 _ (be_value e)) by apply i64_mod.
  rewrite <- He, be_bytes_be_value. symmetry. by apply strip_sign_extend.
Qed.

Lemma int64_body_spec v :
  - 2 ^ 63 <= v < 2 ^ 63 ->
  int_valid (int64_body v) /\ (length (int64_body v) <= 8)%nat /\
  i64 (be_value (reverse (int64_bytes (is_negative (int64_body v)) (int64_body v)))) = v.
Proof.
  intros Hv. destruct (strip_ext (be_bytes 8 v)) as (H1 & H2 & H3); [done |].
  fold (int64_body v) in *. split_and!; [done | exact (length_strip (be_bytes 8 v)) |].
  rewrite reverse_int64_bytes, H2. rewrite length_be_bytes in H3. rewrite <- H3.
  rewrite be_value_be_bytes. by apply i64_mod_64.
Qed.

#[export] Instance CBS_get_asn1_int64_inverts :
  Inverts CBS_get_asn1_int64 (fun v => der CBS_ASN1_INTEGER (int64_body v))
    (fun v => - 2 ^ 63 <= v < 2 ^ 63).
Proof.
  intros s v s'. unfold CBS_get_asn1_int64. rewrite prog_bind_iff. split.
  - intros (l & s1 & [Hok ->]%CBS_get_asn1_inverts & E). rewrite valid_integer_spec in E.
    destruct (decide (int_valid l)) as [Hv |]; [| done].
    unfold CBS_len, CBS_data, lenZ in E. destruct (Z.ltb_spec 8 (Z.of_nat (length l))); [done |].
    injection E as <- <-. split; [apply i64_range |]. by rewrite <- int64_body_unique by (done || lia).
  - intros [Hv ->]. destruct (int64_body_spec v Hv) as (H1 & H2 & H3).
    exists (int64_body v), s'. split.
    + apply (inverts_run (CBS_get_asn1 _) (der _) _ (int64_body v) s').
      split; [done |]. unfold lenZ. lia.
    + rewrite valid_integer_spec, decide_True by done. unfold CBS_len, CBS_data, lenZ.
      rewrite (proj2 (Z.ltb_ge _ _)), H3 by lia. done.
Qed.

(** ** BOOLEAN *)

#[export] Instance CBS_get_asn1_bool_inverts :
  Inverts CBS_get_asn1_bool (fun b : bool => der CBS_ASN1_BOOLEAN [if b then xff else x00])
    (fun _ => True).
Proof.
  intros s v s'. unfold CBS_get_asn1_bool. rewrite prog_bind_iff. split.
  - intros (l & s1 & [Hok ->]%CBS_get_asn1_inverts & E). split; [done |].
    unfold CBS_len, lenZ, CBS_data in E. destruct l as [| b [| ? ?]]; cbn [length] in E; [done | |].
    + change (negb (Z.of_nat 1 =? 1)) with false in E. cbv iota in E.
      destruct (Z.eqb_spec (b2z b) 0) as [E0 |], (Z.eqb_spec (b2z b) 255) as [E1 |];
        try done; injection E as <- <-; do 3 f_equal; by apply b2z_inj.
    + by rewrite (proj2 (Z.eqb_neq _ 1)) in E by lia.
  - intros [_ ->]. eexists _, s'. split.
    + by apply (inverts_run (CBS_get_asn1 _) (der _) _ [if v then xff else x00] s').
    + by destruct v.
Qed.

(** ** Optional elements *)

Lemma peek_spec s tag :
  0 <= tag < 2 ^ 32 ->
  CBS_peek_asn1_tag s tag = true <-> exists t, s = der_tag tag ++ t.
Proof.
  intros Htag. unfold CBS_peek_asn1_tag, CBS_len, lenZ. split.
  - destruct (_ <? 1); [done |]. destruct (parse_asn1_tag s) as [[t | | |] s1] eqn:E; try done.
    cbn [fst]. intros <-%Z.eqb_eq. apply parse_asn1_tag_inverts in E as [_ ->]. by exists s1.
  - intros [t ->]. pose proof (der_tag_length tag Htag) as Hl. unfold lenZ in Hl.
    rewrite length_app, (proj2 (Z.ltb_ge _ 1)) by lia.
    rewrite (inverts_run parse_asn1_tag der_tag _ tag t Htag). by apply Z.eqb_eq.
Qed.

Lemma optional_asn1_spec tag s r s' :
  0 <= tag < 2 ^ 32 ->
  CBS_get_optional_asn1 tag s = (Done r, s') <->
  match r with
  | Some body => der_ok tag body /\ s = der tag body ++ s'
  | None => s' = s /\ ~ exists t, s = der_tag tag ++ t
  end.
Proof.
  intros Htag. unfold CBS_get_optional_asn1. rewrite prog_bind_iff.
  pose proof (peek_spec s tag Htag) as Hp. split.
  - intros (? & ? & [= <- <-] & E). destruct (CBS_peek_asn1_tag s tag).
    + apply prog_bind_inv in E as (b & s1 & Eb & [= <- <-]). by apply CBS_get_asn1_inverts.
    + injection E as <- <-. split; [done |]. intros Hx. by apply Hp in Hx.
  - intros Hr. exists s, s. split; [done |]. destruct r as [body |].
    + destruct Hr as [Hok ->]. rewrite (proj2 Hp).
      2: { unfold der. eexists. by rewrite <- app_assoc. }
      erewrite prog_bind_done by apply (inverts_run (CBS_get_asn1 tag) (der tag) _ body s' Hok). done.
    + destruct Hr as [-> Hn]. destruct (CBS_peek_asn1_tag s tag) eqn:Ep; [| done].
      destruct Hn. by apply Hp.
Qed.

(** A child that [m] reads up holds exactly one encoding. *)
Lemma on_child_iff {A} (m : parser A) enc ok `{!Inverts m enc ok} child s a s' :
  on_child child m s = (Done a, s') <-> ok a /\ child = enc a /\ s' = s.
Proof.
  unfold on_child. rewrite prog_bind_iff. split.
  - intros ([a' c] & s1 & E & E2). unfold on in E.
    destruct (m child) as [[x | | |] o] eqn:Em; try done. injection E as -> -> <-.
    apply inverts in Em as [Ha ->]. unfold CBS_len, lenZ in E2. cbn [fst snd] in E2.
    destruct c; [| done]. injection E2 as <- <-. by rewrite app_nil_r.
  - intros (Ha & -> & ->). exists (a, []), s. split; [| done]. unfold on.
    rewrite <- (app_nil_r (enc a)). by rewrite (inverts_run m enc ok a [] Ha).
Qed.

Lemma optional_uint64_spec tag default s v s' :
  0 <= tag < 2 ^ 32 ->
  CBS_get_optional_asn1_uint64 tag default s = (Done v, s') <->
  (0 <= v < 2 ^ 64 /\ s = der tag (der CBS_ASN1_INTEGER (uint64_body v)) ++ s') \/
  (v = default /\ s' = s /\ ~ exists t, s = der_tag tag ++ t).
Proof.
  intros Htag. unfold CBS_get_optional_asn1_uint64. rewrite prog_bind_iff. split.
  - intros ([child |] & s1 & E & E2); apply (optional_asn1_spec tag s _ s1 Htag) in E.
    + destruct E as [_ ->].
      apply (on_child_iff CBS_get_asn1_uint64 _ _) in E2 as (Hv & -> & ->). by left.
    + injection E2 as <- <-. destruct E as [-> ?]. by right.
  - intros [[Hv ->] | (-> & -> & Hn)].
    + eexists (Some _), s'. split.
      * apply optional_asn1_spec; [done |]. split; [| done]. split; [done |].
        rewrite lenZ_der. pose proof (length_uint64_body v).
        unfold der_header_len. pose proof (der_tag_length CBS_ASN1_INTEGER ltac:(done)).
        pose proof (der_len_length (lenZ (uint64_body v))). unfold lenZ in *. lia.
      * apply (on_child_iff CBS_get_asn1_uint64 _ _). done.
    + exists None, s. split; [| done]. by apply optional_asn1_spec.
Qed.

(** ** BER *)

(** Not a BER form: then the strict parser takes the same header. *)
Lemma header_parse_ber cbs_len s h s1 :
  asn1_header_parse false cbs_len s = (Done h, s1) <->
  asn1_header_parse true cbs_len s = (Done h, s1) /\ h_ber_found h = false.
Proof.
  unfold asn1_header_parse. rewrite !prog_bind_iff.
  split.
  - intros (tag & s2 & Et & E). apply prog_bind_inv in E as (lb & s3 & El & E).
    apply prog_bind_inv in E as (? & ? & [= <- <-] & E). cbv zeta in E.
    destruct (lb .& 128 =? 0) eqn:E1.
    + injection E as <- <-. split; [| done]. exists tag, s2. split; [done |].
      erewrite prog_bind_done by done. erewrite prog_bind_done by done. cbv zeta. by rewrite E1.
    + cbn [andb negb] in E. destruct ((lb .& 127 =? 0) || (4 <? lb .& 127)) eqn:E2; [done |].
      apply prog_bind_inv in E as (n & s4 & En & E).
      destruct (n <? 128) eqn:E3; [done |]. destruct (n .>> _ =? 0) eqn:E4; [done |].
      cbn [andb orb negb] in E. destruct (_ <? n) eqn:E5; [done |]. injection E as <- <-.
      split; [| done]. exists tag, s2. split; [done |].
      erewrite prog_bind_done by done. erewrite prog_bind_done by done. cbv zeta.
      assert ((lb .& 127 =? 0) = false) as E6 by by destruct (lb .& 127 =? 0).
      rewrite E1, E6, andb_false_r. rewrite E6 in E2. rewrite E2.
      erewrite prog_bind_done by done. by rewrite E3, E4, E5.
  - intros [(tag & s2 & Et & E) Hb]. apply prog_bind_inv in E as (lb & s3 & El & E).
    apply prog_bind_inv in E as (? & ? & [= <- <-] & E). cbv zeta in E.
    exists tag, s2. split; [done |].
    erewrite prog_bind_done by done. erewrite prog_bind_done by done. cbv zeta.
    destruct (lb .& 128 =? 0); [done |]. cbn [andb negb].
    destruct (_ && (lb .& 127 =? 0)) eqn:E1; [by injection E as <- _ |].
    destruct ((lb .& 127 =? 0) || (4 <? lb .& 127)); [done |].
    apply prog_bind_inv in E as (n & s4 & En & E). erewrite prog_bind_done by done.
    rewrite !andb_false_r in E. destruct (_ <? n); [done |]. injection E as <- <-.
    cbn [h_ber_found] in Hb. apply orb_false_iff in Hb as [-> ->]. done.
Qed.

(** ** Every parser returns *)

Lemma base128_loop_total fuel v s :
  (length s < fuel)%nat -> (base128_loop fuel v s).1 <> Stuck /\ (base128_loop fuel v s).1 <> NoFuel.
Proof.
  revert v s. induction fuel as [| fuel IH]; intros v s Hs; [lia |]. cbn [base128_loop].
  destruct s as [| b t].
  - done.
  - erewrite prog_bind_done by apply get_u8_cons.
    destruct (negb (v .>> _ =? 0)); [done |]. destruct (_ && _); [done |].
    destruct (negb (b2z b .& 128 =? 0)); [| done]. apply IH. simpl in Hs. lia.
Qed.

#[export] Instance parse_base128_total : Total parse_base128_integer.
Proof.
  intros s _. unfold parse_base128_integer, mbind, prog_bind, getS.
  destruct (base128_loop_total (S (length s)) 0 s) as [H1 H2]; [lia | done].
Qed.

#[export] Instance parse_asn1_tag_total : Total parse_asn1_tag.
Proof.
  apply safe_bind; [apply _ |]. intros b. cbv zeta. apply safe_bind; [apply safe_if; apply _ |].
  intros n. apply _.
Qed.

#[export] Instance asn1_header_parse_total ber_ok n : Total (asn1_header_parse ber_ok n).
Proof.
  apply safe_bind; [apply _ |]. intros tag. apply safe_bind; [apply _ |]. intros lb.
  apply safe_bind; [apply _ |]. intros header. cbv zeta. apply safe_if; [apply _ |].
  apply safe_if; [apply _ |]. apply safe_if; [apply _ |].
  apply safe_bind; [apply _ |]. intros len64. apply _.
Qed.

#[export] Instance on_copy_total {A} (m : parser A) : Total m -> Total (on_copy m).
Proof. intros Hm s Hs. destruct (Hm s Hs) as (H1 & H2 & _). done. Qed.

#[export] Instance on_total {A} other (m : parser A) : Total m -> Total (on other m).
Proof.
  intros Hm s Hs. destruct (Hm other Hs) as (H1 & H2 & _). unfold on.
  by destruct (m other) as [[] ?].
Qed.

#[export] Instance any_element_total ber_ok : Total (cbs_get_any_asn1_element ber_ok).
Proof. apply _. Qed.

#[export] Instance CBS_get_any_asn1_total : Total CBS_get_any_asn1.
Proof. apply safe_bind; [apply _ |]. intros [[out tag] hl]. apply _. Qed.

#[export] Instance CBS_get_asn1_total tag : Total (CBS_get_asn1 tag).
Proof. apply safe_bind; [apply _ |]. intros [[out t] hl]. apply _. Qed.

#[export] Instance uint64_loop_total data out : Total (uint64_loop data out).
Proof.
  revert out. induction data as [| b data IH]; intros out; cbn [uint64_loop]; [apply _ |].
  apply safe_if; [apply _ | apply IH].
Qed.

#[export] Instance CBS_get_asn1_uint64_total : Total CBS_get_asn1_uint64.
Proof. apply _. Qed.

#[export] Instance CBS_get_asn1_int64_total : Total CBS_get_asn1_int64.
Proof.
  apply safe_bind; [apply _ |]. intros bytes. destruct (CBS_is_valid_asn1_integer bytes); apply _.
Qed.

#[export] Instance CBS_get_asn1_bool_total : Total CBS_get_asn1_bool.
Proof.
  apply safe_bind; [apply _ |]. intros [| b l]; [intros s _; done | apply _].
Qed.

(** ** Bit strings *)

Lemma land_bit z i : 0 <= i -> (z .& (1 .<< i) =? 0) = negb (Z.testbit z i).
Proof.
  intros Hi. rewrite Z.shiftl_mul_pow2, Z.mul_1_l by done.
  destruct (Z.testbit z i) eqn:E; cbn [negb].
  - apply Z.eqb_neq. intros Hz. apply (f_equal (fun x => Z.testbit x i)) in Hz.
    by rewrite Z.land_spec, Z.pow2_bits_true, E, Z.bits_0 in Hz by done.
  - apply Z.eqb_eq, Z.bits_inj'. intros j Hj.
    rewrite Z.land_spec, Z.bits_0, Z.pow2_bits_eqb by done.
    destruct (Z.eqb_spec i j) as [<- |]; [by rewrite E | apply andb_false_r].
Qed.

(** The contents of a DER bit string: the number of unused bits, and bytes whose
    unused bits are there and zero. *)
Definition bitstring_ok (l : list byte) : Prop :=
  exists n bytes, l = n :: bytes /\ b2z n <= 7 /\
    (b2z n = 0 \/ exists b, last bytes = Some b /\ b2z b mod 2 ^ b2z n = 0).

Lemma valid_bitstring_spec l : CBS_is_valid_asn1_bitstring l = true <-> bitstring_ok l.
Proof.
  unfold CBS_is_valid_asn1_bitstring, bitstring_ok.
  destruct l as [| n bytes]; [split; [done | by intros (? & ? & ? & _)] |].
  rewrite get_u8_cons. destruct (Z.ltb_spec 7 (b2z n)).
  { split; [done |]. intros (n' & b' & [= <- <-] & ? & _). lia. }
  destruct (Z.eqb_spec (b2z n) 0) as [E0 | E0].
  { split; [| done]. intros _. exists n, bytes. split_and!; [done | lia | by left]. }
  rewrite Z.shiftl_mul_pow2, Z.mul_1_l by blia.
  unfold CBS_get_last_u8, CBS_len, lenZ, mbind, prog_bind, getS.
  destruct (Z.eqb_spec (Z.of_nat (length bytes)) 0) as [El | El].
  - destruct bytes; [| simpl in El; lia]. cbn. split; [done |].
    intros (n' & b' & [= <- <-] & _ & [? | (b & ? & _)]); done.
  - destruct (last bytes) as [b |] eqn:Eb; [| by apply last_None in Eb as ->].
    cbn. rewrite (land_mod _ (b2z n)), Z.eqb_eq by (blia || done). split.
    + intros Hb. exists n, bytes. split_and!; [done | lia |]. right. by exists b.
    + intros (n' & b' & [= <- <-] & _ & [? | (b'' & Eb' & ?)]); [done |].
      by simplify_eq.
Qed.

(** ** Properties *)

(** C15: DER elements are parsed exactly.  For every tag (any class, any number up to 29
    bits) and every contents shorter than 2^32 bytes, [CBS_get_any_asn1] accepts its
    distinguished encoding [der tag body] and returns the tag and the contents; it
    accepts nothing else (no long form where the short one or a shorter one would
    do, no padded tag number), consumes nothing more, and always returns. *)
Theorem CBS_get_any_asn1_exact (s body s' : list byte) (tag : Z) :
  (CBS_get_any_asn1 s = (Done (body, tag), s') <->
     (0 <= tag < 2 ^ 32 /\ lenZ body < 2 ^ 32) /\ s = der tag body ++ s') /\
  (CBS_get_any_asn1 s).1 <> Stuck /\ (CBS_get_any_asn1 s).1 <> NoFuel.
Proof.
  split; [apply CBS_get_any_asn1_inverts |].
  destruct (CBS_get_any_asn1_total s) as (H1 & H2 & _); done.
Qed.

(** C20: an INTEGER has one encoding and one reading.  [CBS_get_asn1_uint64] and
    [CBS_get_asn1_int64] accept exactly the DER encodings of the values of their
    types, with minimal two's complement contents, and [CBS_get_asn1_bool] exactly
    the bytes 0x00 and 0xff. *)
Theorem CBS_get_asn1_integers_exact :
  Inverts CBS_get_asn1_uint64 (fun v => der CBS_ASN1_INTEGER (uint64_body v))
    (fun v => 0 <= v < 2 ^ 64) /\
  Inverts CBS_get_asn1_int64 (fun v => der CBS_ASN1_INTEGER (int64_body v))
    (fun v => - 2 ^ 63 <= v < 2 ^ 63) /\
  Inverts CBS_get_asn1_bool (fun b : bool => der CBS_ASN1_BOOLEAN [if b then xff else x00])
    (fun _ => True) /\
  Total CBS_get_asn1_uint64 /\ Total CBS_get_asn1_int64 /\ Total CBS_get_asn1_bool.
Proof. split_and!; apply _. Qed.

(** An optional element is present or absent, never half read.  The optional
    uint64 parser succeeds in exactly two cases: the input starts with the
    explicitly tagged INTEGER, which is consumed whole, or it does not start with
    the tag at all, and the default is returned with the input untouched. *)
Theorem CBS_get_optional_asn1_uint64_spec (tag default : Z) (s s' : list byte) (v : Z) :
  0 <= tag < 2 ^ 32 ->
  CBS_get_optional_asn1_uint64 tag default s = (Done v, s') <->
  (0 <= v < 2 ^ 64 /\ s = der tag (der CBS_ASN1_INTEGER (uint64_body v)) ++ s') \/
  (v = default /\ s' = s /\ ~ exists t, s = der_tag tag ++ t).
Proof. apply optional_uint64_spec. Qed.

Lemma CBS_get_optional_asn1_uint64_spec_witness :
  CBS_get_optional_asn1_uint64 (160 .<< 24) 7 [xa0; x03; x02; x01; x05; xff] = (Done 5, [xff]) /\
  CBS_get_optional_asn1_uint64 (160 .<< 24) 7 [x30; x00] = (Done 7, [x30; x00]).
Proof.
  split; apply (CBS_get_optional_asn1_uint64_spec (160 .<< 24) 7); [done | by left | done |].
  right. split_and!; [done | done |]. by intros [t [=]].
Defined.

(** The BER parser is an extension of the DER parser, and reports it.  An element
    is taken by [cbs_get_any_asn1_element] in DER mode exactly when it is taken in
    BER mode with no BER form found, with the same result and the same rest. *)
Theorem ber_extends_der (s out s' : list byte) (h : asn1_header) :
  cbs_get_any_asn1_element false s = (Done (out, h), s') <->
  cbs_get_any_asn1_element true s = (Done (out, h), s') /\ h_ber_found h = false.
Proof.
  unfold cbs_get_any_asn1_element. split.
  - intros (? & ? & [= <- <-] & E)%prog_bind_inv.
    apply prog_bind_inv in E as (h' & s1 & Eh & E). unfold on_copy in Eh.
    destruct (asn1_header_parse false _ s) as [r s2] eqn:Ep.
    cbn [fst] in Eh. injection Eh as -> <-. apply header_parse_ber in Ep as [Ep Hb].
    erewrite prog_bind_done by done. unfold on_copy.
    erewrite prog_bind_done by by rewrite Ep. split; [done |].
    by apply prog_bind_inv in E as (o & s3 & _ & [= _ <- _]).
  - intros [(? & ? & [= <- <-] & E)%prog_bind_inv Hb].
    apply prog_bind_inv in E as (h' & s1 & Eh & E). unfold on_copy in Eh.
    destruct (asn1_header_parse true _ s) as [r s2] eqn:Ep.
    cbn [fst] in Eh. injection Eh as -> <-.
    assert (h' = h) as -> by by apply prog_bind_inv in E as (o & s3 & _ & [= _ <- _]).
    assert (asn1_header_parse false (CBS_len s) s = (Done h, s2)) as Ep'
      by by apply header_parse_ber.
    erewrite prog_bind_done by done. unfold on_copy. by erewrite prog_bind_done by by rewrite Ep'.
Qed.

(** Bits of a BIT STRING.  For any contents and any bit number of an [unsigned],
    [CBS_asn1_bitstring_has_bit] reads no byte outside the contents, and is true
    exactly when the bit string is valid and the bit (numbered from the most
    significant bit of the first byte) is there and set. *)
Theorem CBS_asn1_bitstring_has_bit_spec (cbs : list byte) (bit : Z) :
  0 <= bit < 2 ^ 32 ->
  exists r, CBS_asn1_bitstring_has_bit cbs bit = Some r /\
    (r = true <->
       bitstring_ok cbs /\
       exists b, cbs !! Z.to_nat (bit / 8 + 1) = Some b /\ Z.testbit (b2z b) (7 - bit mod 8) = true).
Proof.
  intros Hbit. unfold CBS_asn1_bitstring_has_bit.
  destruct (CBS_is_valid_asn1_bitstring cbs) eqn:Ev; cbn [negb].
  2: { exists false. split; [done |]. split; [done |]. intros [Hok _].
       by apply valid_bitstring_spec in Hok; rewrite Hok in Ev. }
  apply valid_bitstring_spec in Ev. rewrite land_07, Z.shiftr_div_pow2 by lia.
  change (2 ^ 3) with 8. rewrite !(wrap_small 32) by dlia.
  unfold CBS_len, lenZ, CBS_data. destruct (Z.ltb_spec (bit / 8 + 1) (Z.of_nat (length cbs))).
  - destruct (lookup_lt_is_Some_2 cbs (Z.to_nat (bit / 8 + 1))) as [b Hb]; [dlia |].
    rewrite Hb. cbn [mbind option_bind]. rewrite land_bit, negb_involutive by dlia.
    eexists. split; [done |]. split; [intros Ht; split; [done | by exists b] | intros [_ (b' & Hb' & ?)]; by simplify_eq].
  - exists false. split; [done |]. split; [done |].
    intros [_ (b & Hb & _)]. apply lookup_lt_Some in Hb. dlia.
Qed.

Lemma CBS_asn1_bitstring_has_bit_spec_witness :
  exists r, CBS_asn1_bitstring_has_bit [x04; xa0; xf0] 2 = Some r /\
    (r = true <->
       bitstring_ok [x04; xa0; xf0] /\
       exists b, [x04; xa0; xf0] !! Z.to_nat (2 / 8 + 1) = Some b /\
                 Z.testbit (b2z b) (7 - 2 mod 8) = true).
Proof. apply (CBS_asn1_bitstring_has_bit_spec [x04; xa0; xf0] 2). lia. Defined.
