(* ===== verification/Cbb.v ===== *)
(** * CBB: the byte-string builder of BoringSSL

    [crypto/bytestring/cbb.c].  A [CBB] writes to a growable buffer shared by a
    chain of CBBs: the root, its pending child, the child of that one, and so on.
    Each has at most one child, so the chain is a stack of frames, kept here with
    the innermost first; a CBB is named by its depth (0 is the root), and one
    whose depth is not on the stack any more has been flushed ([base == NULL]).

    [malloc_ok] says which allocations succeed and [uninit] is the contents of
    fresh memory: both are outside the sources. *)

From S2P Require Import Prelude Crypto Cbs CbsAsn1.

(** ** State *)

(** [struct cbb_buffer_st]; [buf] is the whole block, of [cap] bytes. *)
Record cbb_buffer_st := mk_buffer {
  buf : list byte;
  len : Z;
  cap : Z;
  can_resize : bool;
  error : bool;
}.

(** The members of a [CBB] other than [base] and [child]. *)
Record frame := mk_frame {
  offset : Z;
  pending_len_len : Z;
  pending_is_asn1 : bool;
}.

Record cbb_st := mk_cbb {
  base : cbb_buffer_st;
  chain : list frame;
}.

Definition set_base (b : cbb_buffer_st) (s : cbb_st) : cbb_st := mk_cbb b (chain s).
Definition set_chain (c : list frame) (s : cbb_st) : cbb_st := mk_cbb (base s) c.
Definition set_buf (l : list byte) (s : cbb_st) : cbb_st :=
  set_base (mk_buffer l (len (base s)) (cap (base s)) (can_resize (base s)) (error (base s))) s.
Definition set_len (n : Z) (s : cbb_st) : cbb_st :=
  set_base (mk_buffer (buf (base s)) n (cap (base s)) (can_resize (base s)) (error (base s))) s.
Definition set_error (s : cbb_st) : cbb_st :=
  set_base (mk_buffer (buf (base s)) (len (base s)) (cap (base s)) (can_resize (base s)) true) s.

Abbreviation builder A := (prog cbb_st A).

(** [goto err]. *)
Definition err {A} : builder A := _ ← modifyS set_error; fail.

(** [buf[pos] = v], [memcpy] to and [memmove] inside the buffer. *)
Definition write_bytes (pos : Z) (l : list byte) : builder unit :=
  s ← getS;
  let b := buf (base s) in
  if (pos <? 0) || (lenZ b <? pos + lenZ l) then stuck else
  modifyS (set_buf (take (Z.to_nat pos) b ++ l ++ drop (Z.to_nat (pos + lenZ l)) b)).

Definition buf_memmove (dst src n : Z) : builder unit :=
  s ← getS;
  let b := buf (base s) in
  if (src <? 0) || (lenZ b <? src + n) then stuck else
  write_bytes dst (take (Z.to_nat n) (drop (Z.to_nat src) b)).

(** The loops [for (i = n - 1; i < n; i--) { p[i] = v; v >>= 8; }], of which there
    are two; the result is what is left of [v]. *)
Fixpoint write_be (start : Z) (n : nat) (v : Z) : builder Z :=
  match n with
  | O => mret v
  | S i => _ ← write_bytes (start + Z.of_nat i) [z2b v]; write_be start i (v .>> 8)
  end.

(** A CBS that is a variable of the caller of a parser. *)
Definition in_cbs {A} (m : parser A) (cbs : CBS) : builder (A * CBS) := fun s =>
  match m cbs with
  | (Done x, cbs) => (Done (x, cbs), s)
  | (Failed, _) => (Failed, s)
  | (Stuck, _) => (Stuck, s)
  | (NoFuel, _) => (NoFuel, s)
  end.

Section Cbb.
Variable malloc_ok : Z -> bool.
Variable uninit : byte.

(** ** The buffer *)

(** [OPENSSL_realloc] copies the old block into a fresh one. *)
Definition buf_realloc (newcap : Z) : builder unit :=
  s ← getS;
  if negb (OPENSSL_malloc malloc_ok newcap) then err else
  let old := take (Z.to_nat newcap) (buf (base s)) in
  let newbuf := old ++ repeat uninit (Z.to_nat newcap - length old) in
  modifyS (set_base (mk_buffer newbuf (len (base s)) newcap (can_resize (base s)) (error (base s)))).

(** [*out] is the offset [base->len]. *)
Definition cbb_buffer_reserve (n : Z) : builder Z :=
  s ← getS;
  let newlen := u64 (len (base s) + n) in
  if newlen <? len (base s) then err else
  _ ← (if cap (base s) <? newlen then
         let newcap := u64 (cap (base s) * 2) in
         if negb (can_resize (base s)) then err else
         buf_realloc (if (newcap <? cap (base s)) || (newcap <? newlen) then newlen else newcap)
       else mret tt);
  mret (len (base s)).

Definition cbb_buffer_add (n : Z) : builder Z :=
  out ← cbb_buffer_reserve n;
  _ ← modifyS (fun s => set_len (u64 (len (base s) + n)) s);
  mret out.

Definition cbb_buffer_add_u (v : Z) (len_len : nat) : builder unit :=
  if Nat.eqb len_len 0 then mret tt else
  out ← cbb_buffer_add (Z.of_nat len_len);
  v ← write_be out len_len v;
  if negb (v =? 0) then err else mret tt.

(** ** Construction *)

Definition root_frame : frame := mk_frame 0 0 false.

(** [None]: an allocation failed.  [sizeof(struct cbb_buffer_st)] is 32. *)
Definition cbb_init (b : list byte) (capacity : Z) : option cbb_st :=
  if negb (OPENSSL_malloc malloc_ok 32) then None else
  Some (mk_cbb (mk_buffer b 0 capacity true false) [root_frame]).

Definition CBB_init (initial_capacity : Z) : option cbb_st :=
  let ok := OPENSSL_malloc malloc_ok initial_capacity in
  if (0 <? initial_capacity) && negb ok then None else
  cbb_init (if ok then repeat uninit (Z.to_nat initial_capacity) else []) initial_capacity.

Definition CBB_init_fixed (b : list byte) : option cbb_st :=
  s ← cbb_init b (lenZ b);
  Some (set_base (mk_buffer (buf (base s)) (len (base s)) (cap (base s)) false (error (base s))) s).

(** ** Flushing *)

(** The length bytes of an ASN.1 length: how many, the first one, and what is
    left to write of [len]; [None] is "too large". *)
Definition asn1_len_bytes (n : Z) : option (Z * Z * Z) :=
  if 4294967294 <? n then None
  else if 16777215 <? n then Some (5, 132, n)
  else if 65535 <? n then Some (4, 131, n)
  else if 255 <? n then Some (3, 130, n)
  else if 127 <? n then Some (2, 129, n)
  else Some (1, u8 n, 0).

(** "We need to move the contents along in order to make space." *)
Definition move_contents (child_start n extra_bytes : Z) : builder unit :=
  if extra_bytes =? 0 then mret tt else
  r ← try_ (cbb_buffer_add extra_bytes);
  match r with
  | None => err
  | Some _ => buf_memmove (child_start + extra_bytes) child_start n
  end.

(** Writes the pending prefix of [child], whose contents end at [base->len]. *)
Definition write_prefix (child : frame) (child_start : Z) : builder unit :=
  s ← getS;
  let n := len (base s) - child_start in
  r ← (if pending_is_asn1 child then
         match asn1_len_bytes n with
         | None => err
         | Some (len_len, initial_length_byte, n') =>
             _ ← move_contents child_start n (len_len - 1);
             _ ← write_bytes (offset child) [z2b initial_length_byte];
             mret (offset child + 1, len_len - 1, n')
         end
       else mret (offset child, pending_len_len child, n));
  let '(off, k, n) := r in
  rest ← write_be off (Z.to_nat k) n;
  if negb (rest =? 0) then err else mret tt.

(** The recursive part of [CBB_flush] for a CBB with [n] descendants: its child is
    the [n]-th frame of the stack, and the first once its own are flushed. *)
Fixpoint flush_descendants (n : nat) : builder unit :=
  match n with
  | O => mret tt
  | S n =>
      s ← getS;
      match chain s !! n with
      | None => stuck
      | Some child =>
          if pending_len_len child =? 0 then mret tt else
          let child_start := u64 (offset child + pending_len_len child) in
          r ← try_ (flush_descendants n);
          s ← getS;
          match r with
          | None => err
          | Some _ =>
              if (child_start <? offset child) || (len (base s) <? child_start) then err else
              _ ← write_prefix child child_start;
              modifyS (fun s => set_chain (tail (chain s)) s)
          end
      end
  end.

(** On the CBB at depth [d]. *)
Definition CBB_flush (d : nat) : builder unit :=
  s ← getS;
  if Nat.leb (length (chain s)) d || error (base s) then fail else
  flush_descendants (length (chain s) - 1 - d).

(** ** Adding *)

Definition CBB_add_space (d : nat) (n : Z) : builder Z :=
  _ ← CBB_flush d; cbb_buffer_add n.

Definition CBB_add_bytes (d : nat) (data : list byte) : builder unit :=
  _ ← CBB_flush d;
  dest ← cbb_buffer_add (lenZ data);
  write_bytes dest data.

Definition CBB_add_zeros (d : nat) (n : Z) : builder unit :=
  out ← CBB_add_space d n;
  write_bytes out (repeat x00 (Z.to_nat n)).

Definition CBB_reserve (d : nat) (n : Z) : builder Z :=
  _ ← CBB_flush d; cbb_buffer_reserve n.

Definition CBB_did_write (d : nat) (n : Z) : builder unit :=
  s ← getS;
  let newlen := u64 (len (base s) + n) in
  if negb (Nat.eqb (length (chain s)) (S d)) || (newlen <? len (base s))
     || (cap (base s) <? newlen)
  then fail else modifyS (set_len newlen).

Definition CBB_add_u (d : nat) (k : nat) (value : Z) : builder unit :=
  _ ← CBB_flush d; cbb_buffer_add_u value k.

Definition CBB_add_u8 (d : nat) (value : Z) : builder unit := CBB_add_u d 1 value.
Definition CBB_add_u16 (d : nat) (value : Z) : builder unit := CBB_add_u d 2 value.
Definition CBB_add_u16le (d : nat) (value : Z) : builder unit := CBB_add_u16 d (CRYPTO_bswap2 value).
Definition CBB_add_u24 (d : nat) (value : Z) : builder unit := CBB_add_u d 3 value.
Definition CBB_add_u32 (d : nat) (value : Z) : builder unit := CBB_add_u d 4 value.
Definition CBB_add_u32le (d : nat) (value : Z) : builder unit := CBB_add_u32 d (CRYPTO_bswap4 value).
Definition CBB_add_u64 (d : nat) (value : Z) : builder unit := CBB_add_u d 8 value.
Definition CBB_add_u64le (d : nat) (value : Z) : builder unit := CBB_add_u64 d (CRYPTO_bswap8 value).

(** ** Children *)

Definition cbb_add_length_prefixed (d : nat) (len_len : nat) : builder unit :=
  _ ← CBB_flush d;
  off ← cbb_buffer_add (Z.of_nat len_len);
  _ ← write_bytes off (repeat x00 len_len);
  modifyS (fun s => set_chain (mk_frame off (Z.of_nat len_len) false :: chain s) s).

Definition CBB_add_u8_length_prefixed (d : nat) : builder unit := cbb_add_length_prefixed d 1.
Definition CBB_add_u16_length_prefixed (d : nat) : builder unit := cbb_add_length_prefixed d 2.
Definition CBB_add_u24_length_prefixed (d : nat) : builder unit := cbb_add_length_prefixed d 3.

(** [while (copy > 0) { len_len++; copy >>= 7; }] on a 64-bit [copy]. *)
Fixpoint count_7bit (fuel : nat) (copy : Z) : nat :=
  match fuel with
  | O => O
  | S fuel => if 0 <? copy then S (count_7bit fuel (copy .>> 7)) else O
  end.

Fixpoint base128_bytes_loop (d : nat) (i : nat) (v : Z) : builder unit :=
  match i with
  | O => mret tt
  | S i =>
      let byte := u8 ((v .>> (7 * Z.of_nat i)) .& 127) in
      let byte := if Nat.eqb i 0 then byte else byte .| 128 in
      _ ← CBB_add_u8 d byte;
      base128_bytes_loop d i v
  end.

Definition add_base128_integer (d : nat) (v : Z) : builder unit :=
  let len_len := count_7bit 10 v in
  let len_len := if Nat.eqb len_len 0 then 1%nat else len_len in
  base128_bytes_loop d len_len v.

Definition CBB_add_asn1 (d : nat) (tag : Z) : builder unit :=
  _ ← CBB_flush d;
  let tag_bits := u8 ((tag .>> CBS_ASN1_TAG_SHIFT) .& 224) in
  let tag_number := tag .& CBS_ASN1_TAG_NUMBER_MASK in
  _ ← (if 31 <=? tag_number
       then _ ← CBB_add_u8 d (tag_bits .| 31); add_base128_integer d tag_number
       else CBB_add_u8 d (u8 (tag_bits .| tag_number)));
  s ← getS;
  let off := len (base s) in
  _ ← CBB_add_u8 d 0;
  modifyS (fun s => set_chain (mk_frame off 1 true :: chain s) s).

(** A child that has a child of its own must not be discarded: the grandchild would go on
    writing to the buffer while it is on no chain, and the stack has no place for it. *)
Definition CBB_discard_child (d : nat) : builder unit :=
  s ← getS;
  match chain s with
  | child :: cs =>
      if Nat.leb (length cs) d then mret tt else
      if negb (Nat.eqb (length cs) (S d)) then stuck else
      _ ← modifyS (set_len (offset child));
      modifyS (set_chain cs)
  | [] => mret tt
  end.

(** [CBB_data] and [CBB_len], of a CBB without a child. *)
Definition CBB_len (d : nat) (s : cbb_st) : Z :=
  match chain s !! (length (chain s) - 1 - d)%nat with
  | Some f => u64 (len (base s) - offset f - pending_len_len f)
  | None => 0
  end.

Definition CBB_data (d : nat) (s : cbb_st) : list byte :=
  match chain s !! (length (chain s) - 1 - d)%nat with
  | Some f => drop (Z.to_nat (offset f + pending_len_len f)) (buf (base s))
  | None => []
  end.

(** Hands over the buffer, to [out_data] and [out_len] which are not [NULL]; the CBB
    is cleaned up. *)
Definition CBB_finish (d : nat) : builder (list byte * Z) :=
  if negb (Nat.eqb d 0) then fail else
  _ ← CBB_flush d;
  s ← getS;
  mret (buf (base s), len (base s)).

(** The root gives up its buffer; a child must not be cleaned up. *)
Definition CBB_cleanup (d : nat) : builder unit :=
  if negb (Nat.eqb d 0) then stuck else modifyS (set_chain []).

(** ** ASN.1 values *)

(** The loop of [CBB_add_asn1_uint64] on the child, over [i] and [started]. *)
Fixpoint uint64_bytes_loop (d : nat) (i : nat) (started : bool) (value : Z) : builder bool :=
  match i with
  | O => mret started
  | S j =>
      let byte := (value .>> (8 * Z.of_nat j)) .& 255 in
      if negb started && (byte =? 0) then uint64_bytes_loop d j started value else
      _ ← (if negb started && negb (byte .& 128 =? 0) then CBB_add_u8 d 0 else mret tt);
      _ ← CBB_add_u8 d byte;
      uint64_bytes_loop d j true value
  end.

Definition CBB_add_asn1_uint64 (d : nat) (value : Z) : builder unit :=
  _ ← CBB_add_asn1 d CBS_ASN1_INTEGER;
  started ← uint64_bytes_loop (S d) 8 false value;
  _ ← (if negb started then CBB_add_u8 (S d) 0 else mret tt);
  CBB_flush d.

(** [u.bytes[i]] of the 64-bit [value]. *)
Definition int64_byte (value : Z) (i : nat) : Z := (u64 value .>> (8 * Z.of_nat i)) .& 255.

Fixpoint int64_start (start : nat) (value : Z) : nat :=
  match start with
  | O => O
  | S i => if (int64_byte value start =? 255) && negb (int64_byte value i .& 128 =? 0)
           then int64_start i value else start
  end.

Fixpoint int64_bytes_loop (d : nat) (i : nat) (value : Z) : builder unit :=
  _ ← CBB_add_u8 d (int64_byte value i);
  match i with O => mret tt | S i => int64_bytes_loop d i value end.

Definition CBB_add_asn1_int64 (d : nat) (value : Z) : builder unit :=
  if 0 <=? value then CBB_add_asn1_uint64 d value else
  let start := int64_start 7 value in
  _ ← CBB_add_asn1 d CBS_ASN1_INTEGER;
  _ ← int64_bytes_loop (S d) start value;
  CBB_flush d.

Definition CBB_add_asn1_octet_string (d : nat) (data : list byte) : builder unit :=
  _ ← CBB_add_asn1 d CBS_ASN1_OCTETSTRING;
  _ ← CBB_add_bytes (S d) data;
  CBB_flush d.

Definition CBB_add_asn1_bool (d : nat) (value : bool) : builder unit :=
  _ ← CBB_add_asn1 d CBS_ASN1_BOOLEAN;
  _ ← CBB_add_u8 (S d) (if value then 255 else 0);
  CBB_flush d.
End Cbb.
