(* ===== verification/CbbSpec.v ===== *)
(** * What the CBB builder promises

    The abstract view of a chain of CBBs is a stack of open contents: for each
    CBB, the kind of length prefix that is pending and the bytes written into it
    so far.  Flushing closes the innermost contents into the one around it, with
    its prefix; adding bytes appends to the innermost.  [Implements] says that an
    operation of [Cbb] refines such an operation on stacks: it never leaves the
    buffer; if it succeeds, the buffer holds what the stack says; if it fails,
    the error flag is set and either the contents did not fit its length prefix or
    the buffer could not grow. *)

From S2P Require Import Prelude Crypto Cbs CbsAsn1 Cbb.

(** ** The abstract builder *)

Inductive kind : Type := KRoot | KLen (k : nat) | KAsn1.

(** Innermost first. *)
Abbreviation contents := (list (kind * list byte)).

Definition plen (k : kind) : Z :=
  match k with KRoot => 0 | KLen n => Z.of_nat n | KAsn1 => 1 end.

Definition is_asn1 (k : kind) : bool := match k with KAsn1 => true | _ => false end.

(** The prefix of finished contents. *)
Definition prefix (k : kind) (body : list byte) : option (list byte) :=
  match k with
  | KRoot => None
  | KLen n => if lenZ body <? 256 ^ Z.of_nat n then Some (be_bytes n (lenZ body)) else None
  | KAsn1 => if lenZ body <=? 4294967294 then Some (der_len (lenZ body)) else None
  end.

Definition close (a : contents) : option contents :=
  match a with
  | (k, body) :: (k', body') :: a =>
      p ← prefix k body; Some ((k', body' ++ p ++ body) :: a)
  | _ => None
  end.

Fixpoint close_n (n : nat) (a : contents) : option contents :=
  match n with
  | O => Some a
  | S n => close_n n a ≫= close
  end.

Definition flush (d : nat) (a : contents) : option contents := close_n (length a - 1 - d) a.

Definition append (l : list byte) (a : contents) : option contents :=
  match a with (k, body) :: a => Some ((k, body ++ l) :: a) | [] => None end.

Definition open_child (k : kind) (a : contents) : option contents := Some ((k, []) :: a).

(** Bytes in the buffer, with the pending prefixes. *)
Fixpoint size (a : contents) : Z :=
  match a with [] => 0 | (k, body) :: a => size a + plen k + lenZ body end.

(** ** Representation *)

Fixpoint frames (a : contents) : list frame :=
  match a with
  | [] => []
  | (k, _) :: a => mk_frame (size a) (plen k) (is_asn1 k) :: frames a
  end.

(** The bytes of the buffer: the space of a pending prefix holds anything. *)
Inductive layout : contents -> list byte -> Prop :=
  | layout_root body : layout [(KRoot, body)] body
  | layout_child k body a outer ph :
      layout a outer -> k <> KRoot -> 1 <= plen k <= 8 -> lenZ ph = plen k ->
      layout ((k, body) :: a) (outer ++ ph ++ body).

Definition data (s : cbb_st) : list byte := take (Z.to_nat (len (base s))) (buf (base s)).

Record Rep (s : cbb_st) (a : contents) : Prop := {
  rep_error : error (base s) = false;
  rep_cap : cap (base s) = lenZ (buf (base s));
  rep_len : 0 <= len (base s) <= cap (base s);
  rep_word : cap (base s) < 2 ^ 64;
  rep_chain : chain s = frames a;
  rep_layout : layout a (data s);
}.

Lemma layout_size a l : layout a l -> lenZ l = size a.
Proof.
  induction 1 as [body | k body a outer ph Ha IH Hk Hp Hph]; simpl; [lia |].
  rewrite !lenZ_app. lia.
Qed.

Lemma size_nonneg a : 0 <= size a.
Proof.
  induction a as [| [k body] a IH]; simpl; [lia |]. unfold plen, lenZ. destruct k; lia.
Qed.

Lemma length_frames a : length (frames a) = length a.
Proof. induction a as [| [k body] a IH]; simpl; [done | by rewrite IH]. Qed.

Lemma layout_nil l : ~ layout [] l.
Proof. by inversion 1. Qed.

Lemma rep_size s a : Rep s a -> len (base s) = size a.
Proof.
  intros Hr. destruct Hr. rewrite <- (layout_size a (data s)) by done.
  unfold data, lenZ in *. rewrite length_take. lia.
Qed.

(** The outcome of the run in the goal. *)
Ltac run_cases s :=
  match goal with |- let (_, _) := ?X in _ => destruct X as [[? | | |] s] end.

(** ** The simulation relation between programs and operations on contents *)

Section Refinement.
Variable malloc_ok : Z -> bool.
Variable uninit : byte.

(** The buffer takes [n] bytes: it has them, or it can grow and memory suffices. *)
Definition room (s : cbb_st) (n : Z) : Prop :=
  n <= cap (base s) \/
  (can_resize (base s) = true /\ (forall k, 0 <= k < 2 ^ 63 -> malloc_ok k = true) /\ n < 2 ^ 61).

(** All of memory can be had. *)
Definition memory : Prop := forall k, 0 <= k < 2 ^ 63 -> malloc_ok k = true.

Definition grows (s s' : cbb_st) : Prop :=
  can_resize (base s') = can_resize (base s) /\ cap (base s) <= cap (base s').

Lemma room_grows s s' n : grows s s' -> room s n -> room s' n.
Proof.
  intros [Hr Hc] [Hn | (H1 & H2 & H3)]; [left; lia |]. right. by rewrite Hr.
Qed.

Lemma room_le s n m : n <= m -> room s m -> room s n.
Proof.
  intros Hn [Hm | (H1 & H2 & H3)]; [left; lia | right]. split_and!; (done || lia).
Qed.

Lemma grows_refl s : grows s s.
Proof. split; [done | lia]. Qed.

Lemma grows_trans s1 s2 s3 : grows s1 s2 -> grows s2 s3 -> grows s1 s3.
Proof. intros [H1 H2] [H3 H4]. split; [congruence | lia]. Qed.

(** [Implements P m f]: on contents satisfying [P], [m] does [f]. *)
Class Implements {A} (P : contents -> Prop) (m : builder A) (f : contents -> option contents) :=
  implements : forall s a, Rep s a -> P a ->
    match m s with
    | (Done _, s') => exists a', f a = Some a' /\ Rep s' a' /\ grows s s'
    | (Failed, s') =>
        error (base s') = true /\
        (f a = None \/ exists a', f a = Some a' /\ ~ room s (size a'))
    | _ => False
    end.

Definition monotone (f : contents -> option contents) : Prop :=
  forall a a', f a = Some a' -> size a <= size a'.

Lemma implements_bind {A B} P Q (m : builder A) (k : A -> builder B) f g :
  Implements P m f -> (forall x, Implements Q (k x) g) -> monotone g ->
  (forall a a', P a -> f a = Some a' -> Q a') ->
  Implements P (m ≫= k) (fun a => f a ≫= g).
Proof.
  intros Hm Hk Hg HQ s a Hs Ha. specialize (Hm s a Hs Ha).
  unfold mbind at 1, prog_bind. destruct (m s) as [[x | | |] s1]; try done.
  - destruct Hm as (a1 & Hf & Hs1 & Hgr). specialize (Hk x s1 a1 Hs1 (HQ a a1 Ha Hf)).
    rewrite Hf. cbn [mbind option_bind]. destruct (k x s1) as [[y | | |] s2]; try done.
    + destruct Hk as (a2 & ? & ? & ?). exists a2. split_and!; try done. by eapply grows_trans.
    + destruct Hk as [He [Hn | (a2 & Hn & Hr)]]; split; try done; [by left | right].
      exists a2. split; [done |]. intros Hr'. by apply Hr, (room_grows s).
  - destruct Hm as [He [-> | (a1 & -> & Hr)]]; (split; [done |]); [by left |].
    cbn [mbind option_bind]. destruct (g a1) as [a2 |] eqn:Eg; [| by left]. right.
    exists a2. split; [done |]. intros Hr'. apply Hr. eapply room_le; [| done]. by apply Hg.
Qed.

Lemma implements_ext {A} P (m : builder A) f g :
  Implements P m f -> (forall a, P a -> f a = g a) -> Implements P m g.
Proof. intros Hm Hf s a Hs Ha. rewrite <- (Hf a Ha). by apply Hm. Qed.

(** Equal runs. *)
Lemma implements_eq {A} P (m m' : builder A) f :
  Implements P m f -> (forall s, m s = m' s) -> Implements P m' f.
Proof. intros Hm Heq s a Hs Ha. rewrite <- Heq. by apply Hm. Qed.

Lemma implements_weaken {A} (P Q : contents -> Prop) (m : builder A) f :
  Implements Q m f -> (forall a, P a -> Q a) -> Implements P m f.
Proof. intros Hm HP s a Hs Ha. apply Hm; [done | by apply HP]. Qed.

Lemma implements_ret {A} P (x : A) : Implements P (mret x) Some.
Proof. intros s a Hs Ha. exists a. split_and!; [done | done | apply grows_refl]. Qed.

(** A step that only looks at the state. *)
Lemma implements_get {A} P (k : cbb_st -> builder A) f :
  (forall s0, Implements (fun a => P a /\ chain s0 = frames a) (k s0) f) ->
  Implements P (s ← getS; k s) f.
Proof.
  intros Hk s a Hs Ha. apply (Hk s s a Hs). split; [done | apply Hs].
Qed.

Lemma monotone_bind f g : monotone f -> monotone g -> monotone (fun a => f a ≫= g).
Proof.
  intros Hf Hg a a2 H. destruct (f a) as [a1 |] eqn:E; [| done].
  etransitivity; [by apply Hf | by apply Hg].
Qed.

Lemma monotone_append l : monotone (append l).
Proof.
  intros [| [k body] a] a' [= <-]. simpl. rewrite lenZ_app. unfold lenZ. lia.
Qed.

Lemma monotone_open k : monotone (open_child k).
Proof. intros a a' [= <-]. simpl. unfold plen, lenZ. destruct k; simpl; lia. Qed.

Lemma prefix_length k body p : prefix k body = Some p -> plen k <= lenZ p.
Proof.
  destruct k as [| n |]; simpl; [done | |].
  - case_bool; [| done]. intros [= <-]. unfold lenZ. rewrite length_be_bytes. lia.
  - case_bool; [| done]. intros [= <-]. apply der_len_length. unfold lenZ in *. lia.
Qed.

Lemma monotone_close : monotone close.
Proof.
  intros a a'. destruct a as [| [k body] [| [k' body'] a]]; simpl; try done.
  destruct (prefix k body) as [p |] eqn:E; simpl; [| done]. intros [= <-].
  apply prefix_length in E. simpl. rewrite !lenZ_app. lia.
Qed.

Lemma monotone_close_n n : monotone (close_n n).
Proof.
  induction n as [| n IH]; [by intros a a' [= <-] |].
  apply (monotone_bind (close_n n) close IH monotone_close).
Qed.

Lemma monotone_flush d : monotone (flush d).
Proof. intros a a'. apply monotone_close_n. Qed.

(** ** The buffer *)

Lemma write_bytes_run pre mid post l n c r e ch :
  lenZ l = lenZ mid ->
  write_bytes (lenZ pre) l (mk_cbb (mk_buffer (pre ++ mid ++ post) n c r e) ch)
  = (Done tt, mk_cbb (mk_buffer (pre ++ l ++ post) n c r e) ch).
Proof.
  intros Hl. unfold lenZ in Hl. unfold write_bytes, mbind, prog_bind, getS. simpl.
  rewrite !lenZ_app. unfold lenZ. rewrite (proj2 (Z.ltb_ge _ 0)) by lia.
  rewrite (proj2 (Z.ltb_ge _ _)) by lia. simpl. unfold modifyS, set_buf, set_base. simpl.
  rewrite Nat2Z.id, take_app_length.
  replace (Z.to_nat (Z.of_nat (length pre) + Z.of_nat (length l)))
    with (length pre + length mid)%nat by lia.
  by rewrite <- drop_drop, drop_app_length, drop_app_length.
Qed.

Lemma write_be_run n v pre mid post m c r e ch :
  0 <= v -> length mid = n ->
  write_be (lenZ pre) n v (mk_cbb (mk_buffer (pre ++ mid ++ post) m c r e) ch)
  = (Done (v / 256 ^ Z.of_nat n),
     mk_cbb (mk_buffer (pre ++ be_bytes n v ++ post) m c r e) ch).
Proof.
  revert v mid post. induction n as [| n IH]; intros v mid post Hv Hl.
  - destruct mid; [| done]. cbn. by rewrite Z.div_1_r.
  - cbn [write_be]. destruct (nil_or_length_pos mid) as [-> | Hpos]; [done |].
    destruct mid as [| x mid _] using rev_ind; [done |].
    rewrite length_app in Hl. simpl in Hl. assert (length mid = n) as Hn by lia.
    erewrite prog_bind_done.
    2: { replace (lenZ pre + Z.of_nat n) with (lenZ (pre ++ mid)) by (rewrite lenZ_app; unfold lenZ; lia).
         replace (pre ++ (mid ++ [x]) ++ post) with ((pre ++ mid) ++ [x] ++ post)
           by by rewrite <- !app_assoc.
         by apply write_bytes_run. }
    rewrite <- app_assoc, IH by (try done; rewrite Z.shiftr_div_pow2 by lia; apply Z.div_pos; lia).
    rewrite Z.shiftr_div_pow2 by lia. change (2 ^ 8) with 256.
    rewrite pow256_S, Z.div_div by lia. do 4 f_equal.
    by rewrite be_bytes_snoc, <- app_assoc.
Qed.

(** The state whose buffer holds [pre], of which all counts. *)
Definition st (pre post : list byte) (c : Z) (r : bool) (ch : list frame) : cbb_st :=
  mk_cbb (mk_buffer (pre ++ post) (lenZ pre) c r false) ch.

Lemma rep_st s a :
  Rep s a -> exists post, s = st (data s) post (cap (base s)) (can_resize (base s)) (frames a) /\
    cap (base s) = lenZ (data s ++ post) /\ cap (base s) < 2 ^ 64.
Proof.
  intros [He Hc Hl Hw Hch Hlay]. exists (drop (Z.to_nat (len (base s))) (buf (base s))).
  unfold st, data in *. rewrite take_drop. split_and!; [| done | done].
  destruct s as [[b n c r e] ch]. simpl in *. subst. f_equal. f_equal.
  unfold lenZ in *. rewrite length_take. lia.
Qed.

Lemma st_rep pre post c r a :
  c = lenZ (pre ++ post) -> c < 2 ^ 64 -> layout a pre -> Rep (st pre post c r (frames a)) a.
Proof.
  intros Hc Hw Hlay. unfold st. split; simpl; try done.
  - rewrite Hc, lenZ_app. unfold lenZ. lia.
  - unfold data, lenZ. simpl. by rewrite Nat2Z.id, take_app_length.
Qed.

Lemma buffer_add_run pre post c r ch n :
  c = lenZ (pre ++ post) -> c < 2 ^ 64 -> 0 <= n < 2 ^ 64 ->
  match cbb_buffer_add malloc_ok uninit n (st pre post c r ch) with
  | (Done out, s') =>
      out = lenZ pre /\ exists g post' c', lenZ g = n /\ s' = st (pre ++ g) post' c' r ch /\
        c' = lenZ ((pre ++ g) ++ post') /\ c' < 2 ^ 64 /\ c <= c'
  | (Failed, s') => error (base s') = true /\ ~ room (st pre post c r ch) (lenZ pre + n)
  | _ => False
  end.
Proof.
  intros Hc Hw Hn. unfold cbb_buffer_add, cbb_buffer_reserve, mbind, prog_bind, getS.
  cbn [base len cap can_resize st]. assert (lenZ pre <= c /\ lenZ pre + lenZ post = c) as [Hp Hpp].
  { rewrite Hc, lenZ_app. unfold lenZ. lia. }
  assert (0 <= lenZ pre) by (unfold lenZ; lia).
  destruct (wrap_add_cases 64 (lenZ pre) n) as [[E Hlt] | [E Hge]]; [lia.. | |]; rewrite E.
  2: { rewrite (proj2 (Z.ltb_lt _ _)) by lia. split; [done |].
       intros [Hr | (_ & _ & Hr)]; simpl in Hr; lia. }
  rewrite (proj2 (Z.ltb_ge _ (lenZ pre))) by lia.
  destruct (Z.ltb_spec c (lenZ pre + n)) as [Hgrow | Hfit].
  - destruct r; simpl.
    2: { split; [done |]. intros [Hr | (Hr & _)]; simpl in Hr; [lia | done]. }
    set (newcap := if (_ <? c) || _ then _ else _).
    assert (lenZ pre + n <= newcap < 2 ^ 64 /\ (c < 2 ^ 61 -> lenZ pre + n < 2 ^ 61 -> newcap < 2 ^ 63 - 8))
      as [Hcap Hsmall].
    { subst newcap. pose proof (wrap_range 64 (c * 2)).
      destruct (Z.ltb_spec (u64 (c * 2)) c); cbn [orb]; [lia |].
      destruct (Z.ltb_spec (u64 (c * 2)) (lenZ pre + n)); cbn [orb]; [lia |].
      split; [lia |]. intros. rewrite wrap_small; lia. }
    unfold buf_realloc, mbind, prog_bind, getS. simpl.
    destruct (OPENSSL_malloc malloc_ok newcap) eqn:Em; simpl.
    + split; [done |]. set (old := take _ (pre ++ post)).
      assert (old = pre ++ post) as ->.
      { subst old. apply take_ge. unfold lenZ in *. lia. }
      set (z := repeat uninit _).
      assert (lenZ (post ++ z) = newcap - lenZ pre) as Hz.
      { subst z. rewrite lenZ_app. unfold lenZ in *. rewrite repeat_length, length_app. lia. }
      exists (take (Z.to_nat n) (post ++ z)), (drop (Z.to_nat n) (post ++ z)), newcap.
      assert (lenZ (take (Z.to_nat n) (post ++ z)) = n) as Hg.
      { unfold lenZ in *. rewrite length_take. lia. }
      split_and!; [done | | | lia | lia].
      * unfold set_len, set_base, st. simpl. rewrite E, lenZ_app, Hg.
        by rewrite <- !app_assoc, take_drop.
      * rewrite <- app_assoc, take_drop, lenZ_app. lia.
    + split; [done |]. intros [Hr | (_ & Hr & Hs)]; simpl in *; [lia |].
      unfold OPENSSL_malloc, OPENSSL_MALLOC_PREFIX in Em.
      rewrite wrap_small, (proj2 (Z.ltb_ge _ newcap)), Hr in Em by lia. done.
  - simpl. split; [done |].
    exists (take (Z.to_nat n) post), (drop (Z.to_nat n) post), c.
    assert (lenZ (take (Z.to_nat n) post) = n) as Hg.
    { unfold lenZ in *. rewrite length_take. lia. }
    split_and!; [done | | | done | done].
    + unfold set_len, set_base, st. simpl. rewrite E, lenZ_app, Hg.
      by rewrite <- app_assoc, take_drop.
    + by rewrite <- app_assoc, take_drop.
Qed.

(** Adding [l] and filling it in, at once. *)
Lemma buffer_append_run pre post c r ch l :
  c = lenZ (pre ++ post) -> c < 2 ^ 64 -> lenZ l < 2 ^ 64 ->
  match (dest ← cbb_buffer_add malloc_ok uninit (lenZ l); write_bytes dest l) (st pre post c r ch) with
  | (Done _, s') => exists post' c', s' = st (pre ++ l) post' c' r ch /\
      c' = lenZ ((pre ++ l) ++ post') /\ c' < 2 ^ 64 /\ c <= c'
  | (Failed, s') => error (base s') = true /\ ~ room (st pre post c r ch) (lenZ pre + lenZ l)
  | _ => False
  end.
Proof.
  intros Hc Hw Hl. pose proof (buffer_add_run pre post c r ch (lenZ l) Hc Hw) as Ha.
  assert (0 <= lenZ l) by (unfold lenZ; lia).
  unfold mbind, prog_bind. destruct (cbb_buffer_add _ _ _ _) as [[out | | |] s1]; [| | by apply Ha; lia ..].
  - destruct Ha as (-> & g & post' & c' & Hg & -> & Hc' & Hw' & Hle); [lia |].
    unfold st. rewrite <- app_assoc, (write_bytes_run pre g post' l) by done.
    exists post', c'. rewrite !lenZ_app in *. split_and!; [| lia | lia | lia].
    f_equal. f_equal; [by rewrite app_assoc | lia].
  - apply Ha. lia.
Qed.

Lemma layout_append a a' pre l : layout a pre -> append l a = Some a' -> layout a' (pre ++ l).
Proof.
  intros Ha. inversion Ha as [body | k body a0 outer ph H1 H2 H3 H4]; subst; intros [= <-].
  - constructor.
  - rewrite <- !app_assoc. by constructor.
Qed.

Lemma frames_append a a' l : append l a = Some a' -> frames a' = frames a.
Proof. by destruct a as [| [k body] a]; intros [= <-]. Qed.

Lemma size_append a a' l : append l a = Some a' -> size a' = size a + lenZ l.
Proof. destruct a as [| [k body] a]; intros [= <-]. simpl. rewrite lenZ_app. lia. Qed.

Lemma rep_append s a l : Rep s a -> exists a', append l a = Some a'.
Proof.
  intros Hs. destruct a as [| [k body] a]; [| by eexists].
  by destruct (layout_nil (data s)); apply Hs.
Qed.

(** Runs from the representation of [a] and ends in one of [a']. *)
Lemma implements_st {A} P (m : builder A) f :
  (forall a pre post c r, layout a pre -> c = lenZ (pre ++ post) -> c < 2 ^ 64 -> P a ->
     match m (st pre post c r (frames a)) with
     | (Done _, s') => exists a' pre' post' c', f a = Some a' /\ layout a' pre' /\
          s' = st pre' post' c' r (frames a') /\ c' = lenZ (pre' ++ post') /\ c' < 2 ^ 64 /\ c <= c'
     | (Failed, s') => error (base s') = true /\
          (f a = None \/ exists a', f a = Some a' /\ ~ room (st pre post c r (frames a)) (size a'))
     | _ => False
     end) -> Implements P m f.
Proof.
  intros Hm s a Hs Ha. destruct (rep_st s a Hs) as (post & Est & Hc & Hw).
  specialize (Hm a (data s) post (cap (base s)) (can_resize (base s)) (rep_layout _ _ Hs) Hc Hw Ha).
  rewrite <- Est in Hm. destruct (m s) as [[x | | |] s']; try done.
  destruct Hm as (a' & pre' & post' & c' & Hf & Hlay & -> & Hc' & Hw' & Hle).
  exists a'. split_and!; [done | by apply st_rep | by split].
Qed.

#[export] Instance implements_buffer_append l :
  Implements (fun _ => lenZ l < 2 ^ 64)
    (dest ← cbb_buffer_add malloc_ok uninit (lenZ l); write_bytes dest l) (append l).
Proof.
  apply implements_st. intros a pre post c r Hlay Hc Hw Hl.
  pose proof (buffer_append_run pre post c r (frames a) l Hc Hw Hl) as Hrun.
  assert (exists a', append l a = Some a') as [a' Ha'].
  { destruct a as [| [k body] a]; [by destruct (layout_nil pre) | by eexists]. }
  run_cases s'; try done.
  - destruct Hrun as (post' & c' & -> & Hc' & Hw' & Hle).
    exists a', (pre ++ l), post', c'. rewrite (frames_append _ _ _ Ha').
    split_and!; try done. by eapply layout_append.
  - destruct Hrun as [He Hr]. split; [done |]. right. exists a'. split; [done |].
    by rewrite (size_append _ _ _ Ha'), <- (layout_size _ _ Hlay).
Qed.

(** A value of [k] bytes, or an error when it does not fit. *)
Definition append_u (k : nat) (v : Z) (a : contents) : option contents :=
  if v <? 256 ^ Z.of_nat k then append (be_bytes k v) a else None.

Lemma buffer_add_u_run pre post c r ch v k :
  c = lenZ (pre ++ post) -> c < 2 ^ 64 -> 0 <= v -> (1 <= k <= 8)%nat ->
  match cbb_buffer_add_u malloc_ok uninit v k (st pre post c r ch) with
  | (Done _, s') => v < 256 ^ Z.of_nat k /\ exists post' c', s' = st (pre ++ be_bytes k v) post' c' r ch /\
      c' = lenZ ((pre ++ be_bytes k v) ++ post') /\ c' < 2 ^ 64 /\ c <= c'
  | (Failed, s') => error (base s') = true /\
      (256 ^ Z.of_nat k <= v \/ ~ room (st pre post c r ch) (lenZ pre + Z.of_nat k))
  | _ => False
  end.
Proof.
  intros Hc Hw Hv Hk. unfold cbb_buffer_add_u. destruct (Nat.eqb_spec k 0); [lia |].
  pose proof (buffer_add_run pre post c r ch (Z.of_nat k) Hc Hw ltac:(lia)) as Ha.
  unfold mbind, prog_bind. destruct (cbb_buffer_add _ _ _ _) as [[out | | |] s1]; try done.
  2: { destruct Ha; by split; [| right]. }
  destruct Ha as (-> & g & post' & c' & Hg & -> & Hc' & Hw' & Hle).
  unfold st. rewrite <- app_assoc, (write_be_run k v pre g post') by (unfold lenZ in Hg; lia).
  destruct (Z.eqb_spec (v / 256 ^ Z.of_nat k) 0) as [E | E]; cbn [negb].
  - apply Z.div_small_iff in E; [| lia]. cbn. split; [lia |]. exists post', c'.
    rewrite !lenZ_app in *. replace (lenZ (be_bytes k v)) with (Z.of_nat k)
      by (unfold lenZ; by rewrite length_be_bytes).
    split_and!; [| lia | lia | lia]. unfold st. by rewrite <- app_assoc, Hg.
  - cbn. split; [done |]. left. destruct (Z_lt_ge_dec v (256 ^ Z.of_nat k)); [| lia].
    by rewrite Z.div_small in E by lia.
Qed.

Lemma implements_buffer_add_u v k :
  0 <= v -> (1 <= k <= 8)%nat ->
  Implements (fun _ => True) (cbb_buffer_add_u malloc_ok uninit v k) (append_u k v).
Proof.
  intros Hv Hk. apply implements_st. intros a pre post c r Hlay Hc Hw _.
  pose proof (buffer_add_u_run pre post c r (frames a) v k Hc Hw Hv Hk) as Hrun.
  assert (exists a', append (be_bytes k v) a = Some a') as [a' Ha'].
  { destruct a as [| [k' body] a]; [by destruct (layout_nil pre) | by eexists]. }
  unfold append_u. destruct (cbb_buffer_add_u _ _ _ _ _) as [[x | | |] s']; try done.
  - destruct Hrun as (Hlt & post' & c' & -> & Hc' & Hw' & Hle).
    rewrite (proj2 (Z.ltb_lt _ _)) by done.
    exists a', (pre ++ be_bytes k v), post', c'. rewrite (frames_append _ _ _ Ha').
    split_and!; try done. by eapply layout_append.
  - destruct Hrun as [He Hr]. split; [done |].
    destruct (Z.ltb_spec v (256 ^ Z.of_nat k)); [| by left]. right. exists a'. split; [done |].
    destruct Hr as [? | Hr]; [lia |].
    rewrite (size_append _ _ _ Ha'), <- (layout_size _ _ Hlay).
    unfold lenZ at 2. by rewrite length_be_bytes.
Qed.

Lemma monotone_append_u k v : monotone (append_u k v).
Proof. intros a a'. unfold append_u. case_bool; [apply monotone_append | done]. Qed.

(** ** Flushing *)

Lemma asn1_len_bytes_spec n :
  0 <= n ->
  match asn1_len_bytes n with
  | None => 4294967294 < n
  | Some (len_len, first, n') =>
      n <= 4294967294 /\ exists j, len_len = 1 + Z.of_nat j /\ (j <= 4)%nat /\
        der_len n = z2b first :: be_bytes j n' /\ 0 <= n' < 256 ^ Z.of_nat j
  end.
Proof.
  intros Hn. unfold asn1_len_bytes, der_len.
  destruct (Z.ltb_spec 4294967294 n); [done |].
  assert (forall k, (1 <= k <= 4)%nat -> 128 <= n < 256 ^ Z.of_nat k ->
    256 ^ (Z.of_nat k - 1) <= n -> digits 4 8 n = k) as Hd by (intros; by apply digits_8).
  destruct (Z.ltb_spec 16777215 n).
  { rewrite (proj2 (Z.ltb_ge n 128)), (Hd 4%nat) by (try split; lia).
    split; [lia |]. exists 4%nat. split_and!; [done | lia | done | lia | lia]. }
  destruct (Z.ltb_spec 65535 n).
  { rewrite (proj2 (Z.ltb_ge n 128)), (Hd 3%nat) by (try split; lia).
    split; [lia |]. exists 3%nat. split_and!; [done | lia | done | lia | lia]. }
  destruct (Z.ltb_spec 255 n).
  { rewrite (proj2 (Z.ltb_ge n 128)), (Hd 2%nat) by (try split; lia).
    split; [lia |]. exists 2%nat. split_and!; [done | lia | done | lia | lia]. }
  destruct (Z.ltb_spec 127 n).
  { rewrite (proj2 (Z.ltb_ge n 128)), (Hd 1%nat) by (try split; lia).
    split; [lia |]. exists 1%nat. split_and!; [done | lia | done | lia | lia]. }
  rewrite (proj2 (Z.ltb_lt n 128)) by lia. split; [lia |]. exists 0%nat.
  split_and!; [done | lia | by rewrite z2b_wrap8 | lia | lia].
Qed.

Lemma buf_memmove_run pre mid body post n c r e ch k :
  k = lenZ mid ->
  buf_memmove (lenZ pre + k) (lenZ pre) (lenZ body)
    (mk_cbb (mk_buffer (pre ++ body ++ mid ++ post) n c r e) ch)
  = (Done tt, mk_cbb (mk_buffer (pre ++ take (length mid) (body ++ mid) ++ body ++ post) n c r e) ch).
Proof.
  intros ->. unfold buf_memmove. erewrite prog_bind_done by done. cbn [base buf].
  assert (0 <= lenZ pre /\ 0 <= lenZ body /\ 0 <= lenZ mid /\ 0 <= lenZ post) by (unfold lenZ; lia).
  rewrite (proj2 (Z.ltb_ge _ 0)) by lia.
  rewrite (proj2 (Z.ltb_ge _ _)) by (rewrite !lenZ_app; lia). cbn [orb].
  replace (Z.to_nat (lenZ pre)) with (length pre) by (unfold lenZ; lia).
  replace (Z.to_nat (lenZ body)) with (length body) by (unfold lenZ; lia).
  rewrite drop_app_length, take_app_length.
  set (x := take (length mid) (body ++ mid)). set (y := drop (length mid) (body ++ mid)).
  assert (pre ++ body ++ mid ++ post = (pre ++ x) ++ y ++ post) as ->.
  { subst x y. rewrite <- app_assoc. f_equal. by rewrite !app_assoc, take_drop. }
  assert (lenZ (pre ++ x) = lenZ pre + lenZ mid) as <-.
  { subst x. rewrite lenZ_app. unfold lenZ. rewrite length_take, length_app. lia. }
  rewrite write_bytes_run.
  - by rewrite <- app_assoc.
  - subst y. unfold lenZ. rewrite length_drop, length_app. lia.
Qed.

(** Where the contents of the innermost CBB start. *)
Abbreviation start outer k := (lenZ outer + plen k).

Lemma write_prefix_len_run outer ph body post c r ch k :
  lenZ ph = Z.of_nat k ->
  match write_prefix malloc_ok uninit (mk_frame (lenZ outer) (Z.of_nat k) false)
          (lenZ outer + Z.of_nat k) (st (outer ++ ph ++ body) post c r ch) with
  | (Done _, s') => exists p, prefix (KLen k) body = Some p /\ lenZ p = lenZ ph /\
                      s' = st (outer ++ p ++ body) post c r ch
  | (Failed, s') => error (base s') = true /\ prefix (KLen k) body = None
  | _ => False
  end.
Proof.
  intros Hph. unfold write_prefix. erewrite prog_bind_done by done.
  cbn [base len st pending_is_asn1 offset pending_len_len].
  assert (lenZ (outer ++ ph ++ body) - (lenZ outer + Z.of_nat k) = lenZ body) as ->
    by (rewrite !lenZ_app; lia).
  erewrite prog_bind_done by done. cbv beta iota. rewrite Nat2Z.id.
  assert (lenZ (be_bytes k (lenZ body)) = lenZ ph) as Hl
    by (rewrite Hph; unfold lenZ at 1; by rewrite length_be_bytes).
  unfold st at 1. rewrite <- !app_assoc.
  erewrite prog_bind_done by (apply write_be_run; unfold lenZ in *; lia).
  cbn [prefix]. destruct (Z.ltb_spec (lenZ body) (256 ^ Z.of_nat k)) as [Hlt | Hge].
  - rewrite Z.div_small by (unfold lenZ in *; lia). cbn. eexists. split_and!; [done | done |].
    unfold st. rewrite <- !app_assoc. do 2 f_equal. rewrite !lenZ_app. lia.
  - destruct (Z.eqb_spec (lenZ body / 256 ^ Z.of_nat k) 0) as [E |]; [| done].
    apply Z.div_small_iff in E; unfold lenZ in *; lia.
Qed.

Lemma move_contents_run pre body post c r ch j :
  c = lenZ ((pre ++ body) ++ post) -> c < 2 ^ 64 -> 0 <= j < 2 ^ 64 ->
  match move_contents malloc_ok uninit (lenZ pre) (lenZ body) j (st (pre ++ body) post c r ch) with
  | (Done _, s') => exists g post' c', lenZ g = j /\ s' = st (pre ++ g ++ body) post' c' r ch /\
      c' = lenZ ((pre ++ g ++ body) ++ post') /\ c' < 2 ^ 64 /\ c <= c'
  | (Failed, s') => error (base s') = true /\
      ~ room (st (pre ++ body) post c r ch) (lenZ (pre ++ body) + j)
  | _ => False
  end.
Proof.
  intros Hc Hw Hj. unfold move_contents. destruct (Z.eqb_spec j 0) as [-> | Hj0].
  { exists [], post, c. by split_and!. }
  pose proof (buffer_add_run (pre ++ body) post c r ch j Hc Hw Hj) as Ha.
  unfold mbind at 1, prog_bind at 1, try_.
  destruct (cbb_buffer_add _ _ _ _) as [[out | | |] s1]; try done; [| by destruct Ha].
  destruct Ha as (-> & g & post' & c' & Hg & -> & Hc' & Hw' & Hle).
  unfold st. rewrite <- !app_assoc, buf_memmove_run by done.
  set (h := take (length g) (body ++ g)). assert (lenZ h = j) as Hh.
  { subst h. unfold lenZ in *. rewrite length_take, length_app. lia. }
  exists h, post', c'. split_and!; [done | | | done | done].
  - unfold st. rewrite <- !app_assoc. do 2 f_equal. rewrite !lenZ_app. lia.
  - rewrite Hc', !lenZ_app. lia.
Qed.

Lemma write_prefix_asn1_run outer ph body post c r ch :
  lenZ ph = 1 -> c = lenZ ((outer ++ ph ++ body) ++ post) -> c < 2 ^ 64 ->
  match write_prefix malloc_ok uninit (mk_frame (lenZ outer) 1 true)
          (lenZ outer + 1) (st (outer ++ ph ++ body) post c r ch) with
  | (Done _, s') => exists p post' c', prefix KAsn1 body = Some p /\
      s' = st (outer ++ p ++ body) post' c' r ch /\
      c' = lenZ ((outer ++ p ++ body) ++ post') /\ c' < 2 ^ 64 /\ c <= c'
  | (Failed, s') => error (base s') = true /\
      (prefix KAsn1 body = None \/ exists p, prefix KAsn1 body = Some p /\
         ~ room (st (outer ++ ph ++ body) post c r ch) (lenZ (outer ++ p ++ body)))
  | _ => False
  end.
Proof.
  intros Hph Hc Hw. unfold write_prefix. erewrite prog_bind_done by done.
  cbn [base len st pending_is_asn1 offset pending_len_len].
  assert (lenZ (outer ++ ph ++ body) - (lenZ outer + 1) = lenZ body) as ->
    by (rewrite !lenZ_app; lia).
  pose proof (asn1_len_bytes_spec (lenZ body) ltac:(unfold lenZ; lia)) as Hlb.
  cbn [prefix]. destruct (asn1_len_bytes (lenZ body)) as [[[ll first] n'] |].
  2: { rewrite (proj2 (Z.leb_gt _ _)) by done. cbn. split; [done | by left]. }
  destruct Hlb as (Hmax & j & -> & Hj & Hder & Hn'). rewrite (proj2 (Z.leb_le _ _)) by done.
  replace (1 + Z.of_nat j - 1) with (Z.of_nat j) by lia.
  assert (lenZ (der_len (lenZ body)) = 1 + Z.of_nat j) as Hdl.
  { rewrite Hder. unfold lenZ. cbn [length]. rewrite length_be_bytes. lia. }
  pose proof (move_contents_run (outer ++ ph) body post c r ch (Z.of_nat j)) as Hmv.
  assert ((outer ++ ph) ++ body = outer ++ ph ++ body) as Eb by by rewrite <- app_assoc.
  assert (lenZ (outer ++ ph) = lenZ outer + 1) as Eo by (rewrite lenZ_app, Hph; done).
  rewrite Eb, Eo in Hmv. specialize (Hmv Hc Hw ltac:(lia)).
  rewrite !prog_bind_assoc. unfold mbind at 1, prog_bind at 1.
  destruct (move_contents _ _ _ _ _ _) as [[[] | | |] s1]; try done.
  2: { destruct Hmv as [He Hr]. split; [done |]. right. eexists. split; [done |].
       rewrite !lenZ_app in *. rewrite Hdl. intros Hr'. apply Hr. eapply room_le; [| done]. lia. }
  destruct Hmv as (g & post' & c' & Hg & -> & Hc' & Hw' & Hle).
  rewrite prog_bind_assoc. unfold st at 1. rewrite <- !app_assoc.
  erewrite prog_bind_done by by apply write_bytes_run.
  erewrite prog_bind_done by done. cbv beta iota. rewrite Nat2Z.id.
  replace (lenZ outer + 1) with (lenZ (outer ++ [z2b first])) by (rewrite lenZ_app; done).
  rewrite app_assoc. erewrite prog_bind_done by (apply write_be_run; unfold lenZ in Hg; lia).
  rewrite Z.div_small by done. cbn [Z.eqb negb]. unfold mret, prog_ret.
  exists (der_len (lenZ body)), post', c'.
  split_and!; [done | | rewrite Hc', !lenZ_app, Hdl; lia | done | done].
  unfold st. rewrite Hder, <- !app_assoc. do 2 f_equal.
  rewrite <- Hder, !lenZ_app, Hdl. lia.
Qed.

(** The innermost CBB, once its own children are flushed. *)
Definition close_top (child : frame) : builder unit :=
  s ← getS;
  let child_start := u64 (offset child + pending_len_len child) in
  if (child_start <? offset child) || (len (base s) <? child_start) then err else
  _ ← write_prefix malloc_ok uninit child child_start;
  modifyS (fun s => set_chain (tail (chain s)) s).

Lemma close_top_run k body k' body' a outer ph post c r :
  layout ((k', body') :: a) outer -> k <> KRoot -> 1 <= plen k <= 8 -> lenZ ph = plen k ->
  c = lenZ ((outer ++ ph ++ body) ++ post) -> c < 2 ^ 64 ->
  let s := st (outer ++ ph ++ body) post c r (frames ((k, body) :: (k', body') :: a)) in
  match close_top (mk_frame (lenZ outer) (plen k) (is_asn1 k)) s with
  | (Done _, s') => exists p post' c', prefix k body = Some p /\
      s' = st (outer ++ p ++ body) post' c' r (frames ((k', body' ++ p ++ body) :: a)) /\
      c' = lenZ ((outer ++ p ++ body) ++ post') /\ c' < 2 ^ 64 /\ c <= c'
  | (Failed, s') => error (base s') = true /\
      (prefix k body = None \/ exists p, prefix k body = Some p /\ ~ room s (lenZ (outer ++ p ++ body)))
  | _ => False
  end.
Proof.
  intros Hlay Hk Hp Hph Hc Hw s. unfold close_top. erewrite prog_bind_done by done. cbv zeta.
  assert (0 <= lenZ outer /\ 0 <= lenZ body /\ 0 <= lenZ post) by (unfold lenZ; lia).
  assert (lenZ outer + plen k <= c) by (rewrite Hc, !lenZ_app; lia).
  cbn [offset pending_len_len]. rewrite wrap_small by lia. subst s. cbn [base len st].
  rewrite (proj2 (Z.ltb_ge _ (lenZ outer))), (proj2 (Z.ltb_ge _ _)) by (rewrite ?lenZ_app; lia).
  cbn [orb]. unfold mbind, prog_bind. destruct k as [| n |]; [done | |].
  - pose proof (write_prefix_len_run outer ph body post c r
      (frames ((KLen n, body) :: (k', body') :: a)) n Hph) as Hwp.
    cbn [plen is_asn1] in *. destruct (write_prefix _ _ _ _ _) as [[[] | | |] s1]; try done.
    + destruct Hwp as (p & Hpre & Hlp & ->). exists p, post, c.
      split_and!; [done | done | | done | lia]. rewrite Hc, !lenZ_app. lia.
    + destruct Hwp as [He Hn]. split; [done | by left].
  - pose proof (write_prefix_asn1_run outer ph body post c r
      (frames ((KAsn1, body) :: (k', body') :: a)) Hph Hc Hw) as Hwp.
    cbn [plen is_asn1] in *. destruct (write_prefix _ _ _ _ _) as [[[] | | |] s1]; try done.
    destruct Hwp as (p & post' & c' & Hpre & -> & Hc' & Hw' & Hle).
    by exists p, post', c'.
Qed.

Lemma layout_close body k' body' a outer p :
  layout ((k', body') :: a) outer ->
  layout ((k', body' ++ p ++ body) :: a) (outer ++ p ++ body).
Proof. intros Hlay. by apply (layout_append _ _ _ (p ++ body) Hlay). Qed.

Lemma implements_close_top child :
  Implements (fun a => (2 <= length a)%nat /\ head (frames a) = Some child)
    (close_top child) close.
Proof.
  apply implements_st. intros a pre post c r Hlay Hc Hw [Ha Hchild].
  inversion Hlay as [body | k body a0 outer ph Houter Hk Hp Hph]; subst a pre; [simpl in Ha; lia |].
  destruct a0 as [| [k' body'] a]; [simpl in Ha; lia |].
  injection Hchild as <-. change (size a + plen k' + lenZ body') with (size ((k', body') :: a)).
  rewrite <- (layout_size _ _ Houter).
  pose proof (close_top_run k body k' body' a outer ph post c r Houter Hk Hp Hph Hc Hw) as Hrun.
  cbv zeta in Hrun. cbn [close].
  run_cases s'; try done.
  - destruct Hrun as (p & post' & c' & Hpre & -> & Hc' & Hw' & Hle). rewrite Hpre. cbn [mbind option_bind].
    eexists _, _, post', c'. split_and!; [done | by apply layout_close | done | done | done | done].
  - destruct Hrun as [He Hr]. split; [done |]. destruct Hr as [-> | (p & -> & Hr)]; [by left | right].
    cbn [mbind option_bind]. eexists. split; [done |].
    rewrite <- (layout_size _ (outer ++ p ++ body)); [done | by apply layout_close].
Qed.

(** *** The frames of a stack whose innermost CBBs are closed *)

Lemma close_frames a a' :
  close a = Some a' -> frames a' = tail (frames a) /\ length a = S (length a').
Proof.
  destruct a as [| [k body] [| [k' body'] a]]; simpl; try done.
  destruct (prefix k body); simpl; [| done]. by intros [= <-].
Qed.

Lemma close_n_frames n a a' :
  close_n n a = Some a' -> frames a' = drop n (frames a) /\ length a = (n + length a')%nat.
Proof.
  revert a'. induction n as [| n IH]; intros a'; simpl; [by intros [= ->] |].
  destruct (close_n n a) as [a1 |]; [| done]. simpl. intros Hc.
  destruct (IH a1 eq_refl) as [E1 L1]. destruct (close_frames _ _ Hc) as [-> L2].
  assert (forall l : list frame, tail l = drop 1 l) as Ht by by intros [| ? ?].
  rewrite E1, Ht, drop_drop. split; [f_equal |]; lia.
Qed.

Lemma layout_pending a l n child :
  layout a l -> frames a !! n = Some child -> (S n < length a)%nat ->
  1 <= pending_len_len child <= 8.
Proof.
  intros Ha. revert n. induction Ha as [body | k body a outer ph Ha IH Hk Hp Hph]; intros n Hn Hl.
  - simpl in Hl. lia.
  - destruct n as [| n]; simpl in Hn; [by injection Hn as <- |]. apply (IH n Hn). simpl in Hl. lia.
Qed.

Lemma implements_flush_descendants n :
  Implements (fun a => (n < length a)%nat) (flush_descendants malloc_ok uninit n) (close_n n).
Proof.
  induction n as [| n IH]; cbn [flush_descendants]; [apply implements_ret |].
  intros s a Hs Ha. erewrite prog_bind_done by done. rewrite (rep_chain s a Hs).
  destruct (lookup_lt_is_Some_2 (frames a) n) as [child Hchild].
  { rewrite length_frames. lia. }
  rewrite Hchild.
  pose proof (layout_pending a (data s) n child (rep_layout _ _ Hs) Hchild Ha) as Hp.
  rewrite (proj2 (Z.eqb_neq _ 0)) by lia.
  specialize (IH s a Hs ltac:(cbv beta; lia)). cbn [close_n].
  unfold mbind at 1, prog_bind at 1, try_ at 1.
  destruct (flush_descendants malloc_ok uninit n s) as [[[] | | |] s1]; try done.
  - destruct IH as (a1 & Ha1 & Hs1 & Hg). destruct (close_n_frames n a a1 Ha1) as [Hf1 Hl1].
    erewrite prog_bind_done by done. rewrite Ha1. cbn [mbind option_bind].
    assert (head (frames a1) = Some child) as Hhead by by rewrite Hf1, head_lookup, lookup_drop, Nat.add_0_r.
    pose proof (implements_close_top child s1 a1 Hs1 ltac:(split; [lia | done])) as Hc.
    unfold close_top in Hc. erewrite prog_bind_done in Hc by done. cbv zeta in Hc |- *.
    run_cases s2; try done.
    + destruct Hc as (a2 & ? & ? & ?). exists a2. split_and!; try done. by eapply grows_trans.
    + destruct Hc as [He [Hn | (a2 & Hn & Hr)]]; (split; [done |]); [by left | right].
      exists a2. split; [done |]. intros Hr'. by apply Hr, (room_grows s).
  - destruct IH as [He Hr]. split; [done |].
    destruct Hr as [-> | (a1 & -> & Hr)]; [by left |]. cbn [mbind option_bind].
    destruct (close a1) as [a2 |] eqn:Ec; [| by left]. right. exists a2. split; [done |].
    intros Hr'. apply Hr. eapply room_le; [| done]. by apply monotone_close.
Qed.

#[export] Instance implements_flush d :
  Implements (fun a => (d < length a)%nat) (CBB_flush malloc_ok uninit d) (flush d).
Proof.
  intros s a Hs Ha. unfold CBB_flush, flush. erewrite prog_bind_done by done.
  rewrite (rep_chain s a Hs), length_frames, (rep_error s a Hs).
  destruct (Nat.leb_spec (length a) d); [lia |]. cbn [orb].
  apply (implements_flush_descendants _ s a Hs). lia.
Qed.

Lemma flush_length d a a' :
  (d < length a)%nat -> flush d a = Some a' -> length a' = S d.
Proof. intros Hd Hf. apply close_n_frames in Hf as [_ Hl]. lia. Qed.

(** ** Adding to a CBB *)

Definition Live (d : nat) (a : contents) : Prop := (d < length a)%nat.
Definition Top (d : nat) (a : contents) : Prop := length a = S d.

Lemma flush_top d s a : Rep s a -> Top d a -> CBB_flush malloc_ok uninit d s = (Done tt, s).
Proof.
  intros Hs Ha. unfold CBB_flush. erewrite prog_bind_done by done.
  rewrite (rep_chain s a Hs), length_frames, (rep_error s a Hs), Ha.
  destruct (Nat.leb_spec (S d) d); [lia |]. cbn [orb].
  by replace (S d - 1 - d)%nat with 0%nat by lia.
Qed.

Lemma flush_top_eq d a : Top d a -> flush d a = Some a.
Proof. intros Ha. unfold flush. by replace (length a - 1 - d)%nat with 0%nat by (unfold Top in Ha; lia). Qed.

(** An operation that starts by flushing, on any live CBB or on the innermost. *)
Lemma implements_after_flush {A} d (m : builder A) f :
  Implements (Top d) m f -> monotone f ->
  Implements (Live d) (_ ← CBB_flush malloc_ok uninit d; m) (fun a => flush d a ≫= f).
Proof.
  intros Hm Hf. apply (implements_bind _ (Top d)); [apply implements_flush | done | done |].
  intros a a' Ha Hfl. by eapply flush_length.
Qed.

Lemma implements_at_top {A} d (m : builder A) f :
  Implements (Live d) m (fun a => flush d a ≫= f) -> Implements (Top d) m f.
Proof.
  intros Hm. eapply implements_ext.
  - eapply implements_weaken; [apply Hm |]. unfold Live, Top. lia.
  - intros a Ha. simpl. by rewrite flush_top_eq.
Qed.

Lemma append_top d l a a' : Top d a -> append l a = Some a' -> Top d a'.
Proof. unfold Top. by destruct a as [| [k body] a]; intros Ha [= <-]. Qed.

Lemma append_append l1 l2 a : append l1 a ≫= append l2 = append (l1 ++ l2) a.
Proof. destruct a as [| [k body] a]; [done |]. simpl. by rewrite app_assoc. Qed.

Lemma append_nil a : a <> [] -> append [] a = Some a.
Proof. destruct a as [| [k body] a]; [done |]. simpl. by rewrite app_nil_r. Qed.

Lemma top_not_nil d a : Top d a -> a <> [].
Proof. by intros Ha ->. Qed.

#[export] Instance implements_add_bytes d l :
  lenZ l < 2 ^ 64 ->
  Implements (Live d) (CBB_add_bytes malloc_ok uninit d l) (fun a => flush d a ≫= append l).
Proof.
  intros Hl. apply implements_after_flush; [| apply monotone_append].
  eapply implements_weaken; [apply implements_buffer_append | done].
Qed.

#[export] Instance implements_add_u d k v :
  0 <= v -> (1 <= k <= 8)%nat ->
  Implements (Live d) (CBB_add_u malloc_ok uninit d k v) (fun a => flush d a ≫= append_u k v).
Proof.
  intros Hv Hk. apply implements_after_flush; [| apply monotone_append_u].
  eapply implements_weaken; [by apply implements_buffer_add_u | done].
Qed.

Lemma implements_add_u8_top d v :
  0 <= v < 256 -> Implements (Top d) (CBB_add_u8 malloc_ok uninit d v) (append [z2b v]).
Proof.
  intros Hv. eapply implements_ext; [apply implements_at_top, implements_add_u; lia |].
  intros a _. unfold append_u. rewrite (proj2 (Z.ltb_lt _ _)) by lia. by rewrite be_bytes_1.
Qed.

(** Sequences of additions to the innermost CBB. *)
Lemma implements_append_seq {A B} d (m1 : builder A) (m2 : A -> builder B) l1 l2 :
  Implements (Top d) m1 (append l1) -> (forall x, Implements (Top d) (m2 x) (append l2)) ->
  Implements (Top d) (m1 ≫= m2) (append (l1 ++ l2)).
Proof.
  intros H1 H2. eapply implements_ext.
  - apply (implements_bind _ (Top d)); [apply H1 | apply H2 | apply monotone_append |].
    intros a a'. apply append_top.
  - intros a _. apply append_append.
Qed.

Lemma implements_append_ret {A} d (x : A) : Implements (Top d) (mret x) (append []).
Proof.
  eapply implements_ext; [apply implements_ret |]. intros a Ha.
  by rewrite append_nil by by eapply top_not_nil.
Qed.

(** *** Children *)

Lemma implements_open d k :
  (1 <= k <= 8)%nat ->
  Implements (Top d)
    (off ← cbb_buffer_add malloc_ok uninit (Z.of_nat k);
     _ ← write_bytes off (repeat x00 k);
     modifyS (fun s => set_chain (mk_frame off (Z.of_nat k) false :: chain s) s))
    (open_child (KLen k)).
Proof.
  intros Hk. apply implements_st. intros a pre post c r Hlay Hc Hw Ha.
  pose proof (buffer_add_run pre post c r (frames a) (Z.of_nat k) Hc Hw ltac:(lia)) as Hadd.
  unfold mbind at 1, prog_bind at 1. destruct (cbb_buffer_add _ _ _ _) as [[out | | |] s1]; try done.
  - destruct Hadd as (-> & g & post' & c' & Hg & -> & Hc' & Hw' & Hle).
    assert (lenZ (repeat x00 k) = lenZ g) as Hz by (rewrite Hg; unfold lenZ; by rewrite repeat_length).
    unfold st. rewrite <- app_assoc. erewrite prog_bind_done by by apply write_bytes_run.
    cbn. eexists _, (pre ++ repeat x00 k ++ []), post', c'. split_and!; [done | | | | done | done].
    + apply layout_child; [done | done | simpl; lia | by rewrite Hz].
    + unfold st, set_chain. rewrite app_nil_r, <- app_assoc. cbn [base chain frames].
      by rewrite !lenZ_app, Hz, (layout_size _ _ Hlay).
    + rewrite app_nil_r, Hc', !lenZ_app. lia.
  - destruct Hadd as [He Hr]. split; [done | right]. eexists. split; [done |].
    simpl. rewrite <- (layout_size _ _ Hlay). by rewrite Z.add_0_r.
Qed.

#[export] Instance implements_add_length_prefixed d k :
  (1 <= k <= 8)%nat ->
  Implements (Live d) (cbb_add_length_prefixed malloc_ok uninit d k)
    (fun a => flush d a ≫= open_child (KLen k)).
Proof. intros Hk. apply implements_after_flush; [by apply implements_open | apply monotone_open]. Qed.

Lemma count_7bit_digits fuel v : 0 < v -> count_7bit fuel v = digits fuel 7 v.
Proof.
  revert v. induction fuel as [| fuel IH]; intros v Hv; [done |]. cbn [count_7bit digits].
  rewrite (proj2 (Z.ltb_lt 0 v)), Z.shiftr_div_pow2 by lia. destruct (Z.leb_spec (v / 2 ^ 7) 0).
  - destruct fuel as [| fuel]; [done |]. cbn [count_7bit].
    by rewrite (proj2 (Z.ltb_ge 0 _)) by lia.
  - by rewrite IH by lia.
Qed.

Lemma implements_base128_loop d i v :
  0 <= v -> Implements (Top d) (base128_bytes_loop malloc_ok uninit d i v) (append (b128 i v)).
Proof.
  intros Hv. induction i as [| i IH]; cbn [base128_bytes_loop b128]; [apply implements_append_ret |].
  change (?x :: b128 i v) with ([x] ++ b128 i v).
  rewrite land_7f, Z.shiftr_div_pow2, Z.pow_mul_r by lia. change (2 ^ 7) with 128.
  rewrite wrap_small by dlia.
  assert (0 <= (v / 128 ^ Z.of_nat i) mod 128 < 128) by dlia.
  apply implements_append_seq; [| done].
  destruct (Nat.eqb i 0); [rewrite Z.add_0_r | rewrite lor_80 by done];
    apply implements_add_u8_top; lia.
Qed.

Lemma implements_add_base128 d v :
  0 <= v -> Implements (Top d) (add_base128_integer malloc_ok uninit d v) (append (base128 v)).
Proof.
  intros Hv. unfold add_base128_integer, base128.
  assert ((if Nat.eqb (count_7bit 10 v) 0 then 1%nat else count_7bit 10 v) = digits 10 7 v) as ->.
  { destruct (Z.eqb_spec v 0) as [-> |]; [done |]. rewrite count_7bit_digits by lia.
    cbn [digits]. by destruct (v / 2 ^ 7 <=? 0). }
  by apply implements_base128_loop.
Qed.

Lemma tag_parts tag :
  0 <= tag < 2 ^ 32 ->
  u8 ((tag .>> CBS_ASN1_TAG_SHIFT) .& 224) = tag / 2 ^ 29 * 32 /\
  tag .& CBS_ASN1_TAG_NUMBER_MASK = tag mod 2 ^ 29 /\ 0 <= tag / 2 ^ 29 < 8.
Proof.
  intros Htag. unfold CBS_ASN1_TAG_SHIFT, CBS_ASN1_TAG_NUMBER_MASK.
  rewrite Z.shiftr_div_pow2 by lia. assert (0 <= tag / 2 ^ 24 < 256) as Hb by dlia.
  destruct (tag_byte_bits _ Hb) as [-> _]. rewrite wrap_small by dlia.
  split_and!; [f_equal; dlia | | dlia | dlia]. by apply (land_mod tag 29).
Qed.

Lemma lor_tag_byte c n : 0 <= c < 8 -> 0 <= n < 32 -> (c * 32) .| n = c * 32 + n.
Proof.
  intros Hc Hn. pose proof (lor_shl c n 5) as E. rewrite Z.shiftl_mul_pow2 in E by lia.
  apply E; lia.
Qed.

Lemma implements_tag d tag :
  0 <= tag < 2 ^ 32 ->
  Implements (Top d)
    (if 31 <=? tag .& CBS_ASN1_TAG_NUMBER_MASK
     then _ ← CBB_add_u8 malloc_ok uninit d (u8 ((tag .>> CBS_ASN1_TAG_SHIFT) .& 224) .| 31);
          add_base128_integer malloc_ok uninit d (tag .& CBS_ASN1_TAG_NUMBER_MASK)
     else CBB_add_u8 malloc_ok uninit d
            (u8 (u8 ((tag .>> CBS_ASN1_TAG_SHIFT) .& 224) .| (tag .& CBS_ASN1_TAG_NUMBER_MASK))))
    (append (der_tag tag)).
Proof.
  intros Htag. destruct (tag_parts tag Htag) as (-> & -> & Hc). unfold der_tag.
  assert (0 <= tag mod 2 ^ 29 < 2 ^ 29) by dlia.
  rewrite Z.leb_antisym. destruct (Z.ltb_spec (tag mod 2 ^ 29) 31); cbn [negb].
  - rewrite lor_tag_byte, wrap_small by lia. apply implements_add_u8_top. lia.
  - change (?x :: base128 ?y) with ([x] ++ base128 y). rewrite lor_tag_byte by lia.
    apply implements_append_seq; [apply implements_add_u8_top; lia |].
    intros _. apply implements_add_base128. lia.
Qed.

Lemma implements_open_asn1 d :
  Implements (Top d)
    (s ← getS;
     _ ← CBB_add_u8 malloc_ok uninit d 0;
     modifyS (fun s' => set_chain (mk_frame (len (base s)) 1 true :: chain s') s'))
    (open_child KAsn1).
Proof.
  apply implements_st. intros a pre post c r Hlay Hc Hw Ha. erewrite prog_bind_done by done.
  unfold CBB_add_u8, CBB_add_u. rewrite prog_bind_assoc.
  erewrite prog_bind_done by (by eapply flush_top; [apply st_rep |]).
  pose proof (buffer_add_u_run pre post c r (frames a) 0 1 Hc Hw ltac:(lia) ltac:(lia)) as Hadd.
  unfold mbind, prog_bind. destruct (cbb_buffer_add_u _ _ _ _ _) as [[x | | |] s1]; try done.
  - destruct Hadd as (_ & post' & c' & -> & Hc' & Hw' & Hle).
    eexists _, (pre ++ be_bytes 1 0 ++ []), post', c'.
    split_and!; [done | by apply layout_child | | | done | done].
    + rewrite app_nil_r. unfold st, set_chain. cbn [base chain frames plen is_asn1].
      by rewrite (layout_size _ _ Hlay).
    + by rewrite app_nil_r.
  - destruct Hadd as [He [Hr | Hr]]; [simpl in Hr; lia |]. split; [done | right]. eexists.
    split; [done |]. simpl. rewrite <- (layout_size _ _ Hlay). by rewrite Z.add_0_r.
Qed.

#[export] Instance implements_add_asn1 d tag :
  0 <= tag < 2 ^ 32 ->
  Implements (Live d) (CBB_add_asn1 malloc_ok uninit d tag)
    (fun a => flush d a ≫= fun a => append (der_tag tag) a ≫= open_child KAsn1).
Proof.
  intros Htag. apply implements_after_flush.
  - apply (implements_bind _ (Top d)); [by apply implements_tag | | apply monotone_open |].
    + intros _. apply implements_open_asn1.
    + intros a a'. apply append_top.
  - apply (monotone_bind _ _ (monotone_append _) (monotone_open _)).
Qed.

(** *** ASN.1 values *)

(** What a value leaves in its parent: the whole element. *)
Lemma close_asn1 d tag b a a1 :
  Top d a1 -> lenZ b <= 4294967294 ->
  append (der_tag tag) a1 ≫= open_child KAsn1 = Some a ->
  append b a ≫= flush d = append (der tag b) a1.
Proof.
  intros Ha1 Hb Ha. destruct a1 as [| [k body] a1]; [done |]. injection Ha as <-.
  cbn [append mbind option_bind app]. unfold flush, Top in *. cbn [length] in *.
  replace (S (S (length a1)) - 1 - d)%nat with 1%nat by lia. cbn.
  rewrite (proj2 (Z.leb_le _ _)) by done. cbn. unfold der. by rewrite <- !app_assoc.
Qed.

Lemma implements_asn1_value {A} d tag (m : builder A) b :
  0 <= tag < 2 ^ 32 -> lenZ b <= 4294967294 -> Implements (Top (S d)) m (append b) ->
  Implements (Live d)
    (_ ← CBB_add_asn1 malloc_ok uninit d tag; _ ← m; CBB_flush malloc_ok uninit d)
    (fun a => flush d a ≫= append (der tag b)).
Proof.
  intros Htag Hb Hm.
  assert (forall a a1, Top d a -> append (der_tag tag) a ≫= open_child KAsn1 = Some a1 -> Top (S d) a1) as Htop.
  { intros a a1 Ha E. destruct (append _ a) as [a0 |] eqn:E0; [| done].
    apply (append_top d) in E0; [| done]. injection E as <-. unfold Top in *. simpl. lia. }
  eapply implements_ext.
  - eapply (implements_bind _ (Top (S d)) _ _ _ (fun a => append b a ≫= flush d)).
    + by apply implements_add_asn1.
    + intros _. eapply (implements_bind _ (Live d)); [apply Hm | intros _; apply implements_flush | apply monotone_flush |].
      intros a a' Ha Happ. apply (append_top _ _ _ _ Ha) in Happ. unfold Top, Live in *. lia.
    + apply (monotone_bind _ _ (monotone_append b) (monotone_flush d)).
    + intros a a' Ha E. cbv beta in E. destruct (flush d a) as [a0 |] eqn:E0; [| done].
      apply (Htop a0); [by eapply flush_length | done].
  - intros a Ha. simpl. destruct (flush d a) as [a1 |] eqn:E1; [| done]. cbn [mbind option_bind].
    assert (Top d a1) as Ha1 by by eapply flush_length.
    destruct (append (der_tag tag) a1 ≫= open_child KAsn1) as [a2 |] eqn:E2.
    + exact (close_asn1 d tag b a2 a1 Ha1 Hb E2).
    + by destruct a1 as [| [k body] a1].
Qed.

Lemma implements_assoc {A B C} P (m : builder A) (f : A -> builder B) (g : B -> builder C) h :
  Implements P (m ≫= fun x => f x ≫= g) h -> Implements P ((m ≫= f) ≫= g) h.
Proof. intros Hm s a Hs Ha. rewrite prog_bind_assoc. by apply Hm. Qed.

Lemma byte_of_value v j :
  0 <= v -> (v .>> (8 * Z.of_nat j)) .& 255 = (v / 256 ^ Z.of_nat j) mod 256.
Proof.
  intros Hv. rewrite land_ff, Z.shiftr_div_pow2, Z.pow_mul_r by lia. done.
Qed.

Lemma z2b_mod_256 z : z2b (z mod 256) = z2b z.
Proof. apply z2b_mod. Qed.

(** The bytes the loop adds, from position [i] on. *)
Lemma strip_leading i v :
  strip (x00 :: be_bytes (S i) v)
  = (if (v / 256 ^ Z.of_nat i) mod 256 =? 0 then strip (x00 :: be_bytes i v)
     else (if 128 <=? (v / 256 ^ Z.of_nat i) mod 256 then [x00] else []) ++ be_bytes (S i) v).
Proof.
  cbn [be_bytes]. rewrite strip_cons. set (q := v / 256 ^ Z.of_nat i).
  assert (0 <= q mod 256 < 256) as Hq by dlia. unfold redundant. rewrite b2z_z2b.
  change (b2z x00) with 0. cbn [Z.eqb andb]. rewrite orb_false_r.
  destruct (Z.eqb_spec (q mod 256) 0) as [E | E].
  - rewrite E. cbn [Z.ltb]. assert (z2b q = x00) as -> by by rewrite <- z2b_mod, E. done.
  - rewrite Z.leb_antisym. destruct (Z.ltb_spec (q mod 256) 128); cbn [negb]; [| done].
    destruct (be_bytes i v) as [| c t]; [done |]. rewrite strip_cons.
    unfold redundant. rewrite b2z_z2b, (proj2 (Z.eqb_neq _ 0)), (proj2 (Z.eqb_neq _ 255)) by lia.
    done.
Qed.

Lemma implements_uint64_loop d i started v :
  0 <= v ->
  Implements (Top d)
    (started' ← uint64_bytes_loop malloc_ok uninit d i started v;
     if negb started' then CBB_add_u8 malloc_ok uninit d 0 else mret tt)
    (append (if started then be_bytes i v else strip (x00 :: be_bytes i v))).
Proof.
  intros Hv. revert started. induction i as [| i IH]; intros started; cbn [uint64_bytes_loop].
  - destruct started; cbn.
    + apply (implements_ext _ _ (append [])); [apply implements_append_ret | done].
    + by apply implements_add_u8_top.
  - rewrite byte_of_value by done. rewrite strip_leading.
    set (q := v / 256 ^ Z.of_nat i). assert (0 <= q mod 256 < 256) as Hq by dlia.
    assert (Implements (Top d)
      (_ ← CBB_add_u8 malloc_ok uninit d (q mod 256);
       started' ← uint64_bytes_loop malloc_ok uninit d i true v;
       if negb started' then CBB_add_u8 malloc_ok uninit d 0 else mret tt)
      (append (be_bytes (S i) v))) as Hbyte.
    { cbn [be_bytes]. fold q. rewrite <- z2b_mod. change (?x :: be_bytes i v) with ([x] ++ be_bytes i v).
      apply implements_append_seq; [by apply implements_add_u8_top |]. intros _. apply (IH true). }
    destruct started; cbn [negb andb].
    + apply implements_assoc, (implements_append_seq d _ _ []); [apply implements_append_ret |].
      intros _. by apply implements_assoc.
    + destruct (Z.eqb_spec (q mod 256) 0) as [E | E]; [apply (IH false) |].
      apply implements_assoc, implements_append_seq.
      * rewrite land_80 by done. destruct (Z.ltb_spec (q mod 256) 128) as [Hlt | Hge]; cbn [Z.eqb negb].
        -- rewrite (proj2 (Z.leb_gt _ _)) by done. apply implements_append_ret.
        -- rewrite (proj2 (Z.leb_le _ _)) by done. by apply implements_add_u8_top.
      * intros _. by apply implements_assoc.
Qed.

#[export] Instance implements_add_asn1_uint64 d v :
  0 <= v < 2 ^ 64 ->
  Implements (Live d) (CBB_add_asn1_uint64 malloc_ok uninit d v)
    (fun a => flush d a ≫= append (der CBS_ASN1_INTEGER (uint64_body v))).
Proof.
  intros Hv. assert (lenZ (uint64_body v) <= 4294967294) as Hl.
  { pose proof (length_uint64_body v). unfold lenZ. lia. }
  pose proof (implements_asn1_value d CBS_ASN1_INTEGER _ (uint64_body v) ltac:(done)
    Hl (implements_uint64_loop (S d) 8 false v ltac:(lia))) as Hi.
  eapply implements_eq; [exact Hi |]. intros s. unfold CBB_add_asn1_uint64.
  apply prog_bind_ext. intros [] s'. by rewrite prog_bind_assoc.
Qed.

#[export] Instance implements_add_asn1_octet_string d l :
  lenZ l <= 4294967294 ->
  Implements (Live d) (CBB_add_asn1_octet_string malloc_ok uninit d l)
    (fun a => flush d a ≫= append (der CBS_ASN1_OCTETSTRING l)).
Proof.
  intros Hl. apply implements_asn1_value; [done | done |].
  apply implements_at_top, implements_add_bytes. lia.
Qed.

#[export] Instance implements_add_asn1_bool d (b : bool) :
  Implements (Live d) (CBB_add_asn1_bool malloc_ok uninit d b)
    (fun a => flush d a ≫= append (der CBS_ASN1_BOOLEAN [if b then xff else x00])).
Proof.
  apply implements_asn1_value; [done | by destruct b |].
  replace [if b then xff else x00] with [z2b (if b then 255 else 0)] by by destruct b.
  apply implements_add_u8_top. by destruct b.
Qed.

(** *** Negative integers *)

Lemma implements_int64_loop d i v :
  Implements (Top d) (int64_bytes_loop malloc_ok uninit d i v) (append (be_bytes (S i) (u64 v))).
Proof.
  assert (0 <= u64 v) as Hv by by apply wrap_range.
  assert (forall j, 0 <= int64_byte v j < 256 /\ z2b (int64_byte v j) = z2b (u64 v / 256 ^ Z.of_nat j)) as Hj.
  { intros j. unfold int64_byte. rewrite byte_of_value by done. split; [dlia | apply z2b_mod]. }
  induction i as [| i IH]; cbn [int64_bytes_loop].
  - destruct (Hj 0%nat) as [H0 E0]. change (be_bytes 1 (u64 v)) with ([z2b (u64 v / 256 ^ Z.of_nat 0)] ++ []).
    rewrite <- E0. apply implements_append_seq; [by apply implements_add_u8_top |].
    intros _. apply implements_append_ret.
  - destruct (Hj (S i)) as [H0 E0].
    change (be_bytes (S (S i)) (u64 v)) with ([z2b (u64 v / 256 ^ Z.of_nat (S i))] ++ be_bytes (S i) (u64 v)).
    rewrite <- E0. apply implements_append_seq; [by apply implements_add_u8_top | done].
Qed.

Lemma int64_start_strip i v :
  128 <= int64_byte v i ->
  be_bytes (S (int64_start i v)) (u64 v) = strip (be_bytes (S i) (u64 v)).
Proof.
  assert (0 <= u64 v) as Hv by by apply wrap_range.
  assert (forall j, 0 <= int64_byte v j < 256 /\ b2z (z2b (u64 v / 256 ^ Z.of_nat j)) = int64_byte v j) as Hj.
  { intros j. unfold int64_byte. rewrite byte_of_value, b2z_z2b by done. split; [dlia | done]. }
  induction i as [| i IH]; intros Hi; cbn [int64_start]; [done |].
  destruct (Hj (S i)) as [Hr Eb]. destruct (Hj i) as [Hr' Eb'].
  change (be_bytes (S (S i)) (u64 v))
    with (z2b (u64 v / 256 ^ Z.of_nat (S i)) :: z2b (u64 v / 256 ^ Z.of_nat i) :: be_bytes i (u64 v)).
  rewrite strip_cons. unfold redundant. rewrite Eb, Eb'.
  rewrite (proj2 (Z.eqb_neq (int64_byte v (S i)) 0)) by lia. cbn [andb orb].
  rewrite land_80 by done.
  destruct (Z.eqb_spec (int64_byte v (S i)) 255); cbn [andb]; [| done].
  destruct (Z.ltb_spec (int64_byte v i) 128) as [Hlt | Hge]; cbn [Z.eqb negb].
  - by rewrite (proj2 (Z.leb_gt _ _)) by done.
  - rewrite (proj2 (Z.leb_le _ _)) by done. by apply IH.
Qed.

#[export] Instance implements_add_asn1_int64 d v :
  - 2 ^ 63 <= v < 2 ^ 63 ->
  Implements (Live d) (CBB_add_asn1_int64 malloc_ok uninit d v)
    (fun a => flush d a ≫= append (der CBS_ASN1_INTEGER (int64_body v))).
Proof.
  intros Hv. unfold CBB_add_asn1_int64. destruct (Z.leb_spec 0 v) as [Hpos | Hneg].
  - assert (int64_body v = uint64_body v) as ->; [| apply implements_add_asn1_uint64; lia].
    unfold int64_body, uint64_body. change (be_bytes 8 v) with (z2b (v / 256 ^ Z.of_nat 7) :: be_bytes 7 v).
    rewrite (strip_cons x00). unfold redundant. rewrite b2z_z2b. change (b2z x00) with 0.
    change (256 ^ Z.of_nat 7) with (2 ^ 56). by rewrite (proj2 (Z.ltb_lt _ 128)) by dlia.
  - assert (u64 v = 2 ^ 64 + v) as Hu by (symmetry; apply Z.mod_unique with (-1); lia).
    assert (int64_body v = be_bytes (S (int64_start 7 v)) (u64 v)) as ->.
    { rewrite int64_start_strip.
      - unfold int64_body. f_equal. apply be_bytes_mod_ext.
        unfold wrap. change (256 ^ Z.of_nat 8) with (2 ^ 64). by rewrite Z.mod_mod.
      - unfold int64_byte. rewrite byte_of_value, Hu by (rewrite ?Hu; lia).
        change (256 ^ Z.of_nat 7) with (2 ^ 56). dlia. }
    apply implements_asn1_value; [done | | apply implements_int64_loop].
    unfold lenZ. rewrite length_be_bytes.
    assert (forall i, (int64_start i v <= i)%nat) as Hs.
    { induction i as [| i IH]; cbn [int64_start]; [done |]. destruct (_ && _); lia. }
    specialize (Hs 7%nat). lia.
Qed.
End Refinement.
