(* ===== verification/CbbProps.v ===== *)
(** * Properties of the CBB builder

    Any sequence of calls on a fresh CBB, the stickiness of errors, and the round
    trip of a DER structure through the builder and the parser. *)

From S2P Require Import Prelude Crypto Cbs CbsAsn1 Cbb CbbSpec.

(** ** Programs over a CBB *)

(** A call, on the CBB at depth [d]. *)
Inductive cbb_op : Type :=
  | OpFlush (d : nat)
  | OpBytes (d : nat) (l : list byte)
  | OpU8 (d : nat) (v : Z)
  | OpU16 (d : nat) (v : Z)
  | OpU24 (d : nat) (v : Z)
  | OpU32 (d : nat) (v : Z)
  | OpU64 (d : nat) (v : Z)
  | OpU8Prefixed (d : nat)
  | OpU16Prefixed (d : nat)
  | OpU24Prefixed (d : nat)
  | OpAsn1 (d : nat) (tag : Z)
  | OpUint64 (d : nat) (v : Z)
  | OpInt64 (d : nat) (v : Z)
  | OpOctetString (d : nat) (l : list byte)
  | OpBool (d : nat) (b : bool)
  | OpDiscard (d : nat).

Definition op_depth (op : cbb_op) : nat :=
  match op with
  | OpFlush d | OpBytes d _ | OpU8 d _ | OpU16 d _ | OpU24 d _ | OpU32 d _ | OpU64 d _
  | OpU8Prefixed d | OpU16Prefixed d | OpU24Prefixed d | OpAsn1 d _ | OpUint64 d _ | OpInt64 d _
  | OpOctetString d _ | OpBool d _ | OpDiscard d => d
  end.

(** The arguments are values of their C types; a [uint32_t] is passed where 24 bits
    are written. *)
Definition op_ok (op : cbb_op) : Prop :=
  match op with
  | OpBytes _ l => lenZ l < 2 ^ 64
  | OpOctetString _ l => lenZ l <= 4294967294
  | OpU8 _ v => 0 <= v < 2 ^ 8
  | OpU16 _ v => 0 <= v < 2 ^ 16
  | OpU24 _ v | OpU32 _ v | OpAsn1 _ v => 0 <= v < 2 ^ 32
  | OpU64 _ v | OpUint64 _ v => 0 <= v < 2 ^ 64
  | OpInt64 _ v => - 2 ^ 63 <= v < 2 ^ 63
  | _ => True
  end.

(** What the call does on the stack of open contents. *)
Definition op_effect (op : cbb_op) : contents -> option contents :=
  match op with
  | OpFlush _ => Some
  | OpBytes _ l => append l
  | OpU8 _ v => append_u 1 v
  | OpU16 _ v => append_u 2 v
  | OpU24 _ v => append_u 3 v
  | OpU32 _ v => append_u 4 v
  | OpU64 _ v => append_u 8 v
  | OpU8Prefixed _ => open_child (KLen 1)
  | OpU16Prefixed _ => open_child (KLen 2)
  | OpU24Prefixed _ => open_child (KLen 3)
  | OpAsn1 _ tag => fun a => append (der_tag tag) a ≫= open_child KAsn1
  | OpUint64 _ v => append (der CBS_ASN1_INTEGER (uint64_body v))
  | OpInt64 _ v => append (der CBS_ASN1_INTEGER (int64_body v))
  | OpOctetString _ l => append (der CBS_ASN1_OCTETSTRING l)
  | OpBool _ b => append (der CBS_ASN1_BOOLEAN [if b then xff else x00])
  | OpDiscard _ => Some
  end.

(** Every call but the discarding of a child flushes first. *)
Definition abs_op (op : cbb_op) (a : contents) : option contents :=
  match op with
  | OpDiscard d => Some (if Nat.ltb (S d) (length a) then drop (length a - 1 - d) a else a)
  | _ => if Nat.ltb (op_depth op) (length a) then flush (op_depth op) a ≫= op_effect op else None
  end.

Fixpoint abs_ops (ops : list cbb_op) (a : contents) : option contents :=
  match ops with
  | [] => Some a
  | op :: ops => abs_op op a ≫= abs_ops ops
  end.

Definition is_discard (op : cbb_op) : bool := match op with OpDiscard _ => true | _ => false end.

Lemma abs_op_calls op a :
  is_discard op = false ->
  abs_op op a = if Nat.ltb (op_depth op) (length a) then flush (op_depth op) a ≫= op_effect op else None.
Proof. by destruct op. Qed.

(** The child that is discarded has no child of its own. *)
Definition tidy_op (op : cbb_op) (a : contents) : Prop :=
  match op with OpDiscard d => (length a <= S (S d))%nat | _ => True end.

Fixpoint tidy (ops : list cbb_op) (a : contents) : Prop :=
  match ops with
  | [] => True
  | op :: ops => tidy_op op a /\ match abs_op op a with Some a' => tidy ops a' | None => True end
  end.

(** The most space that the contents take on the way. *)
Fixpoint peak (ops : list cbb_op) (a : contents) : Z :=
  match ops with
  | [] => size a
  | op :: ops => Z.max (size a) (match abs_op op a with Some a' => peak ops a' | None => 0 end)
  end.

(** A call, other than a discard, on a CBB that was flushed or discarded. *)
Definition dead_op (op : cbb_op) (a : contents) : Prop :=
  match op with OpDiscard _ => False | _ => (length a <= op_depth op)%nat end.

Fixpoint uses_flushed (ops : list cbb_op) (a : contents) : Prop :=
  match ops with
  | [] => False
  | op :: ops => dead_op op a \/ match abs_op op a with Some a' => uses_flushed ops a' | None => False end
  end.

Lemma peak_size ops a : size a <= peak ops a.
Proof. destruct ops; simpl; lia. Qed.

Section Programs.
Variable malloc_ok : Z -> bool.
Variable uninit : byte.

Definition run_op (op : cbb_op) : builder unit :=
  match op with
  | OpFlush d => CBB_flush malloc_ok uninit d
  | OpBytes d l => CBB_add_bytes malloc_ok uninit d l
  | OpU8 d v => CBB_add_u8 malloc_ok uninit d v
  | OpU16 d v => CBB_add_u16 malloc_ok uninit d v
  | OpU24 d v => CBB_add_u24 malloc_ok uninit d v
  | OpU32 d v => CBB_add_u32 malloc_ok uninit d v
  | OpU64 d v => CBB_add_u64 malloc_ok uninit d v
  | OpU8Prefixed d => CBB_add_u8_length_prefixed malloc_ok uninit d
  | OpU16Prefixed d => CBB_add_u16_length_prefixed malloc_ok uninit d
  | OpU24Prefixed d => CBB_add_u24_length_prefixed malloc_ok uninit d
  | OpAsn1 d tag => CBB_add_asn1 malloc_ok uninit d tag
  | OpUint64 d v => CBB_add_asn1_uint64 malloc_ok uninit d v
  | OpInt64 d v => CBB_add_asn1_int64 malloc_ok uninit d v
  | OpOctetString d l => CBB_add_asn1_octet_string malloc_ok uninit d l
  | OpBool d b => CBB_add_asn1_bool malloc_ok uninit d b
  | OpDiscard d => CBB_discard_child d
  end.

(** The caller stops at the first failure. *)
Fixpoint run_ops (ops : list cbb_op) : builder unit :=
  match ops with
  | [] => mret tt
  | op :: ops => _ ← run_op op; run_ops ops
  end.

Lemma run_op_implements op :
  op_ok op -> is_discard op = false ->
  Implements malloc_ok (Live (op_depth op)) (run_op op)
    (fun a => flush (op_depth op) a ≫= op_effect op).
Proof.
  destruct op; cbn [op_ok op_depth run_op op_effect is_discard]; intros Hok Hd; try done;
    try (by apply implements_add_u; lia); try (by apply implements_add_length_prefixed; lia).
  - eapply implements_ext; [apply implements_flush |]. intros a _. by destruct (flush d a).
  - by apply implements_add_bytes.
  - by apply implements_add_asn1.
  - by apply implements_add_asn1_uint64.
  - by apply implements_add_asn1_int64.
  - by apply implements_add_asn1_octet_string.
  - apply implements_add_asn1_bool.
Qed.

(** A call on a CBB that was flushed fails and changes nothing. *)
Lemma flush_dead d s :
  (length (chain s) <= d)%nat \/ error (base s) = true ->
  CBB_flush malloc_ok uninit d s = (Failed, s).
Proof.
  intros Hd. unfold CBB_flush. erewrite prog_bind_done by done.
  destruct Hd as [Hd | ->]; [| by rewrite orb_true_r].
  by rewrite (proj2 (Nat.leb_le _ _) Hd).
Qed.

Lemma op_dead op s :
  is_discard op = false -> (length (chain s) <= op_depth op)%nat \/ error (base s) = true ->
  run_op op s = (Failed, s).
Proof.
  intros Hc Hd. apply flush_dead in Hd. destruct op; cbn [run_op op_depth] in *; try done;
    try (by apply prog_bind_failed).
  - apply prog_bind_failed. by apply prog_bind_failed.
  - unfold CBB_add_asn1_int64. destruct (0 <=? v).
    + apply prog_bind_failed. by apply prog_bind_failed.
    + apply prog_bind_failed. by apply prog_bind_failed.
  - apply prog_bind_failed. by apply prog_bind_failed.
  - apply prog_bind_failed. by apply prog_bind_failed.
Qed.

(** Discarding the child of a CBB, which has no child of its own, returns the contents to
    what they were before the child was added. *)
Lemma discard_run d s a :
  Rep s a -> (length a <= S (S d))%nat ->
  exists s', CBB_discard_child d s = (Done tt, s') /\ grows s s' /\
    Rep s' (if Nat.ltb (S d) (length a) then drop (length a - 1 - d) a else a).
Proof.
  intros Hs Hd. pose proof (rep_size s a Hs) as Hsize. pose proof Hs as [H1 H2 H3 H4 H5 H6].
  unfold CBB_discard_child. erewrite prog_bind_done by done. rewrite H5.
  inversion H6 as [body Ea El | k body a0 outer ph Ho Hk Hp Hph Ea El]; subst a; cbn [frames length] in *.
  - exists s. rewrite <- El. split_and!; [done | apply grows_refl | done].
  - rewrite length_frames. destruct (Nat.leb_spec (length a0) d) as [Hle | Hlt].
    { exists s. rewrite (proj2 (Nat.ltb_ge _ _)) by lia. split_and!; [done | apply grows_refl | done]. }
    assert (length a0 = S d) as Ha0 by lia. rewrite Ha0, Nat.eqb_refl. cbn [negb].
    eexists. split; [done |]. split; [by split |]. rewrite (proj2 (Nat.ltb_lt _ _)) by lia.
    replace (S (S d) - 1 - d)%nat with 1%nat by lia. cbn [drop].
    pose proof (layout_size _ _ Ho) as Houter. cbn [size] in Hsize.
    assert (lenZ (data s) = len (base s)) as Hdl by (unfold data, lenZ in *; rewrite length_take; lia).
    rewrite <- El, !lenZ_app in Hdl. unfold lenZ in *.
    split; cbn [base chain set_chain set_len set_base error cap buf len offset]; try done; [lia |].
    replace (data _) with outer; [done |]. unfold data in *. cbn [base set_chain set_len set_base buf len offset].
    rewrite <- Houter, Nat2Z.id.
    transitivity (take (length outer) (take (Z.to_nat (len (base s))) (buf (base s)))).
    + by rewrite <- El, take_app_length.
    + rewrite take_take. f_equal. lia.
Qed.

Lemma op_spec op s a :
  op_ok op -> Rep s a -> tidy_op op a ->
  match run_op op s with
  | (Done _, s') => exists a', abs_op op a = Some a' /\ Rep s' a' /\ grows s s'
  | (Failed, s') =>
      (abs_op op a = None \/ exists a', abs_op op a = Some a' /\ ~ room malloc_ok s (size a')) /\
      (dead_op op a \/ error (base s') = true)
  | _ => False
  end.
Proof.
  intros Hop Hs Ht. destruct (is_discard op) eqn:Ed.
  { destruct op; try done. cbn [run_op abs_op]. destruct (discard_run d s a Hs Ht) as (s' & -> & Hg & Hs').
    eexists. by split_and!. }
  rewrite abs_op_calls by done. destruct (Nat.ltb_spec (op_depth op) (length a)) as [Hlive | Hdead].
  - pose proof (run_op_implements op Hop Ed s a Hs Hlive) as Hrun.
    destruct (run_op op s) as [[x | | |] s1]; try done. destruct Hrun as [He Hrun]. split; [done | by right].
  - rewrite op_dead; [| done | left; by rewrite (rep_chain s a Hs), length_frames].
    split; [by left | left]. by destruct op.
Qed.

Lemma run_ops_spec ops s a :
  Forall op_ok ops -> tidy ops a -> Rep s a ->
  match run_ops ops s with
  | (Done _, s') => exists a', abs_ops ops a = Some a' /\ Rep s' a' /\ grows s s'
  | (Failed, s') =>
      (abs_ops ops a = None \/ exists a', abs_ops ops a = Some a' /\ ~ room malloc_ok s (peak ops a)) /\
      (uses_flushed ops a \/ error (base s') = true)
  | _ => False
  end.
Proof.
  intros Hok. revert s a. induction Hok as [| op ops Hop Hok IH]; intros s a Ht Hs.
  { exists a. split_and!; [done | done | apply grows_refl]. }
  destruct Ht as [Ht Hts]. cbn [run_ops abs_ops peak uses_flushed]. unfold mbind at 1, prog_bind.
  pose proof (op_spec op s a Hop Hs Ht) as Hrun.
  destruct (run_op op s) as [[x | | |] s1]; try done.
  - destruct Hrun as (a1 & E1 & Hs1 & Hg). rewrite E1 in Hts |- *. specialize (IH s1 a1 Hts Hs1).
    cbn [mbind option_bind]. run_cases s2; try done.
    + destruct IH as (a2 & ? & ? & ?). exists a2. split_and!; try done. by eapply grows_trans.
    + destruct IH as [IH Hst]. split; [| destruct Hst; [left; by right | by right]].
      destruct IH as [Hn | (a2 & Hn & Hr)]; [by left | right]. exists a2. split; [done |].
      intros Hr'. apply Hr, (room_grows malloc_ok s); [done |]. eapply room_le; [| done]. lia.
  - destruct Hrun as [Hrun Hst]. split; [| destruct Hst; [left; by left | by right]].
    destruct Hrun as [-> | (a1 & -> & Hr)]; [by left |]. cbn [mbind option_bind].
    destruct (abs_ops ops a1) as [a2 |] eqn:E2; [right | by left].
    exists a2. split; [done |]. intros Hr'. apply Hr. eapply room_le; [| done].
    pose proof (peak_size ops a1). lia.
Qed.

(** ** A fresh CBB *)

Lemma init_rep b capacity s :
  cbb_init malloc_ok b capacity = Some s -> capacity = lenZ b -> capacity < 2 ^ 64 ->
  Rep s [(KRoot, [])].
Proof.
  unfold cbb_init. destruct (negb _); [done |]. intros [= <-] -> Hw. split; simpl; try done.
  - unfold lenZ. lia.
  - constructor.
Qed.

Lemma CBB_init_rep capacity s :
  0 <= capacity < 2 ^ 64 -> CBB_init malloc_ok uninit capacity = Some s ->
  Rep s [(KRoot, [])] /\ can_resize (base s) = true.
Proof.
  intros Hc. unfold CBB_init.
  assert (forall b, cbb_init malloc_ok b capacity = Some s -> can_resize (base s) = true) as Hr.
  { intros b. unfold cbb_init. destruct (negb _); [done |]. by intros [= <-]. }
  destruct (_ && _) eqn:Eg; [done |]. intros Hi. split; [| by eapply Hr].
  eapply init_rep; [done | | lia].
  destruct (OPENSSL_malloc malloc_ok capacity); unfold lenZ; simpl.
  - rewrite repeat_length. lia.
  - rewrite andb_true_r in Eg. apply Z.ltb_ge in Eg. lia.
Qed.

(** The program, then [CBB_finish]: the bytes handed to the caller. *)
Definition build (ops : list cbb_op) : builder (list byte) :=
  _ ← run_ops ops;
  r ← CBB_finish malloc_ok uninit 0;
  mret (take (Z.to_nat r.2) r.1).

Definition abs_build (ops : list cbb_op) : option (list byte) :=
  a ← abs_ops ops [(KRoot, [])];
  a ← flush 0 a;
  match a with [(KRoot, body)] => Some body | _ => None end.

Lemma flush_0 a a' l : layout a' l -> flush 0 a = Some a' -> a <> [] -> a' = [(KRoot, l)].
Proof.
  intros Hlay Hf Hne. apply flush_length in Hf; [| destruct a; simpl; [done | lia]].
  inversion Hlay as [body | k body a0 outer ph Ha]; subst; [done |].
  destruct a0; [by destruct (layout_nil outer) | done].
Qed.

(** What is left after a failure: unless a CBB was used that was flushed, every further call
    fails and leaves the whole state alone. *)
Definition failed_for_good (s : cbb_st) : Prop :=
  forall op, is_discard op = false -> run_op op s = (Failed, s).

Lemma error_sticky s : error (base s) = true -> failed_for_good s.
Proof. intros He op Hd. apply op_dead; [done | by right]. Qed.

Lemma build_spec ops s :
  Forall op_ok ops -> tidy ops [(KRoot, [])] -> Rep s [(KRoot, [])] ->
  match build ops s with
  | (Done out, _) => abs_build ops = Some out
  | (Failed, s') =>
      (abs_build ops = None \/
       exists out, abs_build ops = Some out /\
         ~ room malloc_ok s (Z.max (peak ops [(KRoot, [])]) (lenZ out))) /\
      (uses_flushed ops [(KRoot, [])] \/ failed_for_good s')
  | _ => False
  end.
Proof.
  intros Hok Ht Hs. pose proof (run_ops_spec ops s _ Hok Ht Hs) as Hrun.
  unfold build, abs_build, mbind at 1, prog_bind at 1.
  destruct (run_ops ops s) as [[x | | |] s1]; try done.
  - destruct Hrun as (a1 & -> & Hs1 & Hg). cbn [mbind option_bind].
    assert (a1 <> []) as Hne by (intros ->; by destruct (layout_nil (data s1)); apply Hs1).
    unfold CBB_finish. cbn [Nat.eqb negb]. rewrite prog_bind_assoc.
    pose proof (implements_flush malloc_ok uninit 0 s1 a1 Hs1 ltac:(destruct a1; [done | cbn; lia])) as Hf.
    unfold mbind at 1, prog_bind at 1.
    destruct (CBB_flush malloc_ok uninit 0 s1) as [[y | | |] s2]; try done.
    + destruct Hf as (a2 & E2 & Hs2 & Hg2). rewrite E2. cbn [mbind option_bind].
      rewrite (flush_0 a1 a2 (data s2) (rep_layout _ _ Hs2) E2 Hne). done.
    + destruct Hf as [He Hf]. split; [| right; by apply error_sticky].
      destruct Hf as [E2 | (a2 & E2 & Hr)]; rewrite E2; [by left |]. cbn [mbind option_bind].
      destruct a2 as [| [[] body] []]; try (by left). right. eexists. split; [done |].
      intros Hr'. apply Hr, (room_grows malloc_ok s); [done |]. eapply room_le; [| done]. simpl. lia.
  - destruct Hrun as [Hrun Hst]. split; [| destruct Hst; [by left | right; by apply error_sticky]].
    destruct Hrun as [-> | (a1 & -> & Hr)]; [by left |]. cbn [mbind option_bind].
    destruct (flush 0 a1) as [a2 |] eqn:E2; [| by left]. cbn [mbind option_bind].
    destruct a2 as [| [[] body] []]; try (by left). right. eexists. split; [done |].
    intros Hr'. apply Hr. eapply room_le; [| done]. lia.
Qed.

(** ** Properties *)

(** C10: CBB is a faithful, memory-safe builder of nested structures.  For any sequence of
    calls on any of the CBBs of a chain (bytes, integers, length-prefixed and ASN.1
    children, ASN.1 values, and [CBB_discard_child] of a child without a child of its own),
    starting from [CBB_init] or [CBB_init_fixed] with any capacity: no call writes outside
    the buffer; if the calls and [CBB_finish] succeed, the result is exactly the nested
    contents, without what was discarded, with their final length prefixes; they fail only
    if the program itself is wrong (a value or contents too large for its width, a CBB used
    after it was flushed) or the fixed buffer, or memory, does not suffice for the contents
    at their largest; and a failure is sticky: unless a flushed CBB was used, every further
    call but a discard fails and leaves the state alone. *)
Theorem CBB_programs_refine (ops : list cbb_op) (capacity : Z) (fixed : list byte) (s : cbb_st) :
  Forall op_ok ops -> tidy ops [(KRoot, [])] -> 0 <= capacity < 2 ^ 64 -> lenZ fixed < 2 ^ 64 ->
  CBB_init malloc_ok uninit capacity = Some s \/ CBB_init_fixed malloc_ok fixed = Some s ->
  match build ops s with
  | (Done out, _) => abs_build ops = Some out
  | (Failed, s') =>
      (abs_build ops = None \/
       exists out, abs_build ops = Some out /\
         ~ room malloc_ok s (Z.max (peak ops [(KRoot, [])]) (lenZ out))) /\
      (uses_flushed ops [(KRoot, [])] \/ failed_for_good s')
  | _ => False
  end.
Proof.
  intros Hok Ht Hc Hf Hinit. apply build_spec; [done | done |]. destruct Hinit as [Hi | Hi].
  - by apply (CBB_init_rep capacity s Hc).
  - unfold CBB_init_fixed in Hi. destruct (cbb_init _ _ _) as [s0 |] eqn:E; [| done].
    apply init_rep in E as [H1 H2 H3 H4 H5 H6]; [| done | done].
    cbn [mbind option_bind] in Hi. injection Hi as <-. by split.
Qed.

Lemma tidy_without_discards ops a : Forall (fun op => is_discard op = false) ops -> tidy ops a.
Proof.
  intros Hd. revert a. induction Hd as [| op ops Hop Hd IH]; intros a; [done |].
  split; [by destruct op |]. by destruct (abs_op op a).
Qed.

(** Without discards the contents only grow: they are at their largest in the end. *)
Lemma abs_op_grows op a a' : is_discard op = false -> abs_op op a = Some a' -> size a <= size a'.
Proof.
  intros Hd. rewrite abs_op_calls by done. destruct (Nat.ltb _ _); [| done].
  apply (monotone_bind _ (op_effect op) (monotone_flush _)). clear.
  destruct op; cbn [op_effect]; try apply monotone_append_u; try apply monotone_append;
    try apply monotone_open; try (by intros a a' [= ->]).
  apply (monotone_bind _ _ (monotone_append _) (monotone_open _)).
Qed.

Lemma peak_without_discards ops a a' :
  Forall (fun op => is_discard op = false) ops -> abs_ops ops a = Some a' -> peak ops a = size a'.
Proof.
  intros Hd. revert a. induction Hd as [| op ops Hop Hd IH]; intros a; [by intros [= ->] |].
  cbn [abs_ops peak]. destruct (abs_op op a) as [a1 |] eqn:E; [| done]. cbn [mbind option_bind].
  intros Ha. rewrite (IH _ Ha). apply abs_op_grows in E; [| done].
  pose proof (peak_size ops a1). rewrite (IH _ Ha) in *. lia.
Qed.

Lemma build_peak ops out :
  Forall (fun op => is_discard op = false) ops -> abs_build ops = Some out ->
  peak ops [(KRoot, [])] <= lenZ out.
Proof.
  intros Hd. unfold abs_build. destruct (abs_ops ops _) as [a |] eqn:Ea; [| done]. cbn [mbind option_bind].
  rewrite (peak_without_discards ops _ a Hd Ea).
  destruct (flush 0 a) as [a2 |] eqn:E2; [| done]. cbn [mbind option_bind].
  destruct a2 as [| [[] body] []]; try done. intros [= <-].
  apply monotone_flush in E2. simpl in E2. lia.
Qed.
End Programs.

(** ** Through the builder and back through the parser *)

Definition CBS_ASN1_SEQUENCE : Z := 16 .| CBS_ASN1_CONSTRUCTED.

(** A SEQUENCE of INTEGERs. *)
Definition sequence_ops (vs : list Z) : list cbb_op :=
  OpAsn1 0 CBS_ASN1_SEQUENCE :: map (OpUint64 1) vs.

(** [while (CBS_len(&cbs) != 0) CBS_get_asn1_uint64(&cbs, &v)], as the users of CBS read
    such a sequence. *)
Fixpoint read_integers (fuel : nat) : parser (list Z) :=
  match fuel with
  | O => nofuel
  | S fuel =>
      cbs ← getS;
      if CBS_len cbs =? 0 then mret [] else
      v ← CBS_get_asn1_uint64;
      vs ← read_integers fuel;
      mret (v :: vs)
  end.

Definition read_sequence : parser (list Z) :=
  body ← CBS_get_asn1 CBS_ASN1_SEQUENCE;
  on_child body (read_integers (S (length body))).

Definition integers (vs : list Z) : list byte :=
  flat_map (fun v => der CBS_ASN1_INTEGER (uint64_body v)) vs.

Lemma integer_length v :
  0 <= v < 2 ^ 64 -> 3 <= lenZ (der CBS_ASN1_INTEGER (uint64_body v)) <= 11.
Proof.
  intros Hv. rewrite lenZ_der. pose proof (length_uint64_body v) as Hl.
  destruct (uint64_body_spec v Hv) as ([Hne _] & _).
  assert (1 <= lenZ (uint64_body v) <= 9) as Hb.
  { unfold lenZ. destruct (uint64_body v); simpl in *; [done | lia]. }
  unfold der_header_len, der_len. rewrite (proj2 (Z.ltb_lt _ 128)) by lia.
  change (lenZ (der_tag CBS_ASN1_INTEGER)) with 1. change (lenZ [z2b (lenZ (uint64_body v))]) with 1. lia.
Qed.

Lemma integers_length vs :
  Forall (fun v => 0 <= v < 2 ^ 64) vs ->
  3 * Z.of_nat (length vs) <= lenZ (integers vs) <= 11 * Z.of_nat (length vs).
Proof.
  induction 1 as [| v vs Hv Hvs IH]; [done |]. unfold integers in *. cbn [flat_map length].
  rewrite lenZ_app. pose proof (integer_length v Hv). lia.
Qed.

Lemma abs_integers vs k b t :
  abs_ops (map (OpUint64 1) vs) [(k, b); (KRoot, t)] = Some [(k, b ++ integers vs); (KRoot, t)].
Proof.
  revert b. induction vs as [| v vs IH]; intros b; cbn [map abs_ops].
  - by rewrite app_nil_r.
  - change (abs_op (OpUint64 1 v) [(k, b); (KRoot, t)])
      with (Some [(k, b ++ der CBS_ASN1_INTEGER (uint64_body v)); (KRoot, t)]).
    cbn [mbind option_bind]. by rewrite IH, <- app_assoc.
Qed.

Lemma abs_sequence vs :
  lenZ (integers vs) <= 4294967294 ->
  abs_build (sequence_ops vs) = Some (der CBS_ASN1_SEQUENCE (integers vs)).
Proof.
  intros Hl. unfold abs_build, sequence_ops. cbn [abs_ops].
  change (abs_op (OpAsn1 0 CBS_ASN1_SEQUENCE) [(KRoot, [])])
    with (Some [(KAsn1, []); (KRoot, der_tag CBS_ASN1_SEQUENCE)]).
  cbn [mbind option_bind]. rewrite abs_integers. cbn [mbind option_bind].
  unfold flush. cbn. by rewrite (proj2 (Z.leb_le _ _)) by done.
Qed.

Lemma read_integers_run vs fuel s :
  Forall (fun v => 0 <= v < 2 ^ 64) vs -> (length vs < fuel)%nat ->
  s = [] -> read_integers fuel (integers vs ++ s) = (Done vs, s).
Proof.
  intros Hvs. revert fuel. induction Hvs as [| v vs Hv Hvs IH]; intros [| fuel] Hf ->;
    try (simpl in Hf; lia); [done |].
  cbn [read_integers]. erewrite prog_bind_done by done.
  unfold integers in *. cbn [flat_map]. rewrite <- app_assoc.
  pose proof (integer_length v Hv) as Hl. unfold CBS_len.
  rewrite (proj2 (Z.eqb_neq _ 0)) by (rewrite lenZ_app; unfold lenZ in *; lia).
  erewrite prog_bind_done.
  2: { apply (inverts_run CBS_get_asn1_uint64 (fun v => der CBS_ASN1_INTEGER (uint64_body v)) _ v). done. }
  erewrite prog_bind_done by (apply IH; [simpl in Hf; lia | done]). done.
Qed.

(** C16: what the builder writes, the parser reads.  For any list of unsigned 64-bit
    integers (up to 2^28 of them), when memory does not run out: building a SEQUENCE
    of them with CBB succeeds, and reading the result with CBS (a SEQUENCE, then
    INTEGERs until it is used up) gives the same list, with nothing left over. *)
Theorem cbb_cbs_sequence_roundtrip (malloc_ok : Z -> bool) (uninit : byte) (capacity : Z)
    (vs : list Z) (s : cbb_st) :
  (forall k, 0 <= k < 2 ^ 63 -> malloc_ok k = true) -> 0 <= capacity < 2 ^ 32 ->
  Forall (fun v => 0 <= v < 2 ^ 64) vs -> Z.of_nat (length vs) < 2 ^ 28 ->
  CBB_init malloc_ok uninit capacity = Some s ->
  exists out s', build malloc_ok uninit (sequence_ops vs) s = (Done out, s') /\
    read_sequence out = (Done vs, []).
Proof.
  intros Hmem Hc Hvs Hn Hinit. pose proof (integers_length vs Hvs) as Hl.
  destruct (CBB_init_rep _ _ capacity s ltac:(lia) Hinit) as [Hrep Hresize].
  assert (Forall op_ok (sequence_ops vs)) as Hok.
  { constructor; [done |]. by apply Forall_map. }
  assert (Forall (fun op => is_discard op = false) (sequence_ops vs)) as Hplain.
  { constructor; [done |]. apply Forall_map, Forall_true. done. }
  pose proof (tidy_without_discards (sequence_ops vs) [(KRoot, [])] Hplain) as Htidy.
  pose proof (build_spec malloc_ok uninit (sequence_ops vs) s Hok Htidy Hrep) as Hb.
  pose proof (build_peak (sequence_ops vs) _ Hplain (abs_sequence vs ltac:(lia))) as Hpeak.
  rewrite abs_sequence in Hb by lia.
  assert (der_ok CBS_ASN1_SEQUENCE (integers vs)) as Hdok by (split; [done | lia]).
  destruct (build _ _ _ s) as [[out | | |] s']; try done.
  - injection Hb as <-. eexists _, s'. split; [done |]. unfold read_sequence.
    erewrite prog_bind_done.
    2: { rewrite <- (app_nil_r (der _ _)). by apply (inverts_run (CBS_get_asn1 _) (der _) _ (integers vs) []). }
    assert (read_integers (S (length (integers vs))) (integers vs) = (Done vs, [])) as Hr.
    { rewrite <- (app_nil_r (integers vs)) at 2.
      apply read_integers_run; [done | unfold lenZ in Hl; lia | done]. }
    unfold on_child, on, mbind, prog_bind. by rewrite Hr.
  - destruct Hb as [[? | (out & [= <-] & Hr)] _]; [done |]. destruct Hr. rewrite Z.max_r by done. right.
    split_and!; [done | done |]. rewrite lenZ_der. unfold der_header_len.
    pose proof (der_tag_length CBS_ASN1_SEQUENCE ltac:(done)).
    pose proof (der_len_length (lenZ (integers vs))). unfold lenZ in *. lia.
Qed.

Lemma cbb_cbs_sequence_roundtrip_witness :
  exists s out s', CBB_init (fun _ => true) x00 4 = Some s /\
    build (fun _ => true) x00 (sequence_ops [0; 127; 128; 2 ^ 64 - 1]) s = (Done out, s') /\
    read_sequence out = (Done [0; 127; 128; 2 ^ 64 - 1], []).
Proof.
  destruct (CBB_init (fun _ => true) x00 4) as [s |] eqn:E; [| discriminate E].
  destruct (cbb_cbs_sequence_roundtrip (fun _ => true) x00 4 [0; 127; 128; 2 ^ 64 - 1] s
    ltac:(done) ltac:(lia) ltac:(repeat constructor; lia) ltac:(done) E) as (out & s' & H1 & H2).
  exists s, out, s'. split; [reflexivity | split; assumption].
Defined.

(** A fixed buffer of five bytes: a child with a 16-bit length prefix that is discarded, and
    another one, flushed. *)
Definition small_ops : list cbb_op :=
  [OpU16Prefixed 0; OpBytes 1 [x07; x07; x07]; OpDiscard 0; OpU16Prefixed 0; OpU8 1 7; OpFlush 0].

Lemma CBB_programs_refine_witness :
  exists s, CBB_init_fixed (fun _ => true) [x00; x00; x00; x00; x00] = Some s /\
    match build (fun _ => true) x00 small_ops s with
    | (Done out, _) => abs_build small_ops = Some out
    | (Failed, s') =>
        (abs_build small_ops = None \/
         exists out, abs_build small_ops = Some out /\
           ~ room (fun _ => true) s (Z.max (peak small_ops [(KRoot, [])]) (lenZ out))) /\
        (uses_flushed small_ops [(KRoot, [])] \/ failed_for_good (fun _ => true) x00 s')
    | _ => False
    end.
Proof.
  eexists. split; [reflexivity |].
  apply (CBB_programs_refine (fun _ => true) x00 small_ops 0 [x00; x00; x00; x00; x00]);
    [unfold small_ops; repeat (apply Forall_cons; split; [cbn; (done || lia) |]); by apply Forall_nil | vm_compute; repeat split; lia | lia | done | by right].
Defined.

Example small_ops_result :
  (fun s => (build (fun _ => true) x00 small_ops s).1) <$> CBB_init_fixed (fun _ => true) (repeat xff 5)
  = Some (Done [x00; x01; x07]).
Proof. vm_compute. reflexivity. Qed.
