(* ===== verification/Digits.v ===== *)
(** * Numbers in text

    What the conversions [%u] and [%x] of the C library print, and that the digits are
    read back. *)

From S2P Require Import Prelude.

(** The digit [d], in lower case. *)
Definition digit_char (d : Z) : byte := z2b (if d <? 10 then 48 + d else 87 + d).

(** The digits of [v] in base [b], most significant first; 64 are enough for a word. *)
Fixpoint utoa_loop (fuel : nat) (b v : Z) (acc : list byte) : list byte :=
  match fuel with
  | O => acc
  | S fuel => let acc := digit_char (v mod b) :: acc in if v / b =? 0 then acc else utoa_loop fuel b (v / b) acc
  end.

Definition utoa (b v : Z) : list byte := utoa_loop 64 b v [].

Lemma utoa_loop_S fuel b v acc :
  utoa_loop (S fuel) b v acc =
  let acc := digit_char (v mod b) :: acc in if v / b =? 0 then acc else utoa_loop fuel b (v / b) acc.
Proof. done. Qed.

Lemma utoa_loop_acc fuel b v acc : utoa_loop fuel b v acc = utoa_loop fuel b v [] ++ acc.
Proof.
  revert v acc. induction fuel as [| fuel IH]; intros v acc; [done |]. rewrite !utoa_loop_S. cbv zeta.
  destruct (v / b =? 0); [done |]. rewrite (IH _ (_ :: acc)), (IH _ [_]), <- app_assoc. done.
Qed.

Lemma utoa_loop_enough fuel fuel' b v :
  2 <= b -> 0 <= v < 2 ^ Z.of_nat fuel -> 0 <= v < 2 ^ Z.of_nat fuel' -> (1 <= fuel)%nat -> (1 <= fuel')%nat ->
  utoa_loop fuel b v [] = utoa_loop fuel' b v [].
Proof.
  intros Hb. revert fuel' v. induction fuel as [| fuel IH]; intros fuel' v Hv Hv' Hf Hf'; [lia |].
  destruct fuel' as [| fuel']; [lia |]. rewrite !utoa_loop_S. cbv zeta. destruct (Z.eqb_spec (v / b) 0) as [E | Hne]; [done |].
  rewrite Nat2Z.inj_succ, Z.pow_succ_r in Hv, Hv' by lia. assert (0 <= v / b) by (apply Z.div_pos; lia).
  assert (v / b <= v / 2) by (apply Z.div_le_compat_l; lia).
  rewrite (utoa_loop_acc fuel), (utoa_loop_acc fuel'). f_equal.
  apply IH; [dlia | dlia | destruct fuel; [dlia | lia] | destruct fuel'; [dlia | lia]].
Qed.

(** The last digit, and the others. *)
Lemma utoa_step b v :
  2 <= b -> 0 <= v < 2 ^ 64 -> utoa b v = (if v / b =? 0 then [] else utoa b (v / b)) ++ [digit_char (v mod b)].
Proof.
  intros Hb Hv. unfold utoa at 1. rewrite (utoa_loop_S 63). cbv zeta.
  destruct (Z.eqb_spec (v / b) 0) as [E | Hne]; [done |]. rewrite utoa_loop_acc. unfold utoa. apply (f_equal (fun l => l ++ _)).
  assert (0 <= v / b) by (apply Z.div_pos; lia). assert (v / b <= v / 2) by (apply Z.div_le_compat_l; lia).
  apply utoa_loop_enough; try lia; dlia.
Qed.

(** Induction on the digits. *)
Lemma utoa_ind b (P : Z -> list byte -> Prop) :
  2 <= b ->
  (forall d, 0 <= d < b -> P d [digit_char d]) ->
  (forall v d l, 1 <= v -> 0 <= d < b -> v * b + d < 2 ^ 64 -> P v l -> P (v * b + d) (l ++ [digit_char d])) ->
  forall v, 0 <= v < 2 ^ 64 -> P v (utoa b v).
Proof.
  intros Hb H0 HS v Hv. remember (Z.to_nat v) as n eqn:En. revert v Hv En. induction n as [n IH] using lt_wf_ind. intros v Hv ->.
  rewrite utoa_step by done. pose proof (Z.mod_pos_bound v b ltac:(lia)) as Hm. pose proof (Z.div_mod v b ltac:(lia)) as Hd.
  assert (0 <= v / b) by (apply Z.div_pos; lia). destruct (Z.eqb_spec (v / b) 0) as [E | Hne].
  - rewrite E in Hd. replace (v mod b) with v in * by lia. by apply H0.
  - assert (v / b < v) by (apply Z.div_lt; lia).
    replace v with (v / b * b + v mod b) at 1 by lia. apply HS; [lia | done | lia |]. apply (IH (Z.to_nat (v / b))); lia.
Qed.

Lemma utoa_not_nil b v : 2 <= b -> 0 <= v < 2 ^ 64 -> utoa b v <> [].
Proof. intros Hb Hv. rewrite utoa_step by done. by destruct (_ =? 0), (utoa b (v / b)). Qed.

Lemma utoa_length b k v : 2 <= b -> 0 <= v < b ^ Z.of_nat k -> v < 2 ^ 64 -> (1 <= k)%nat -> (length (utoa b v) <= k)%nat.
Proof.
  intros Hb Hv Hw Hk. revert v Hv Hw. induction k as [| k IH]; intros v Hv Hw; [lia |]. rewrite utoa_step, length_app by lia.
  cbn [length]. destruct (Z.eqb_spec (v / b) 0); cbn [length]; [lia |]. rewrite Nat2Z.inj_succ, Z.pow_succ_r in Hv by lia.
  assert (0 <= v / b) by (apply Z.div_pos; lia). assert (v / b < b ^ Z.of_nat k) by (apply Z.div_lt_upper_bound; lia).
  assert (v / b <= v) by (apply Z.div_le_upper_bound; nia).
  destruct k as [| k]; [change (b ^ Z.of_nat 0) with 1 in *; lia |]. specialize (IH ltac:(lia) (v / b)). lia.
Qed.

Lemma utoa_digits b v : 2 <= b -> 0 <= v < 2 ^ 64 -> Forall (fun c => exists d, 0 <= d < b /\ c = digit_char d) (utoa b v).
Proof.
  intros Hb Hv. apply (utoa_ind b (fun _ l => Forall _ l)); try done.
  - intros d Hd. repeat constructor. by exists d.
  - intros u d l _ Hd _ Hl. apply Forall_app. split; [done |]. repeat constructor. by exists d.
Qed.

Lemma utoa_digit b d : 2 <= b <= 16 -> 0 <= d < b -> utoa b d = [digit_char d].
Proof. intros Hb Hd. rewrite utoa_step by lia. rewrite Z.div_small, Z.mod_small by lia. done. Qed.

Lemma utoa_snoc b v d : 2 <= b <= 16 -> 1 <= v -> 0 <= d < b -> v * b + d < 2 ^ 64 -> utoa b (v * b + d) = utoa b v ++ [digit_char d].
Proof.
  intros Hb Hv Hd Hw. rewrite utoa_step by nia. rewrite Z.div_add_l, (Z.div_small d), Z.add_0_r by lia.
  rewrite Z.add_comm, Z.mod_add, Z.mod_small by lia. destruct (Z.eqb_spec v 0); [lia | done].
Qed.

#[global] Arguments utoa : simpl never.
