(* ===== verification/Oid.v ===== *)
(** * Object identifiers as text

    [CBB_add_asn1_oid_from_text] of [crypto/bytestring/cbb.c] and [CBS_asn1_oid_to_text]
    of [crypto/bytestring/cbs.c], on the builder and the parser. *)

From S2P Require Import Prelude Crypto Cbs CbsAsn1 Cbb Digits.

(** ** From text *)

(** The loop, over [*out] and [seen_digit]; each round reads a byte, or ends. *)
Fixpoint dotted_loop (fuel : nat) (out : Z) (seen_digit : bool) : parser Z :=
  match fuel with
  | O => nofuel
  | S fuel =>
      u ← try_ CBS_get_u8;
      cbs ← getS;
      match u with
      | None => if seen_digit then mret out else fail
      | Some u =>
          if (u =? 46) && (0 <? CBS_len cbs) then (if seen_digit then mret out else fail) else
          if (u <? 48) || (57 <? u)
             || (seen_digit && (out =? 0))
             || (UINT64_MAX / 10 <? out)
             || (UINT64_MAX - (u - 48) <? u64 (out * 10))
          then fail
          else dotted_loop fuel (u64 (u64 (out * 10) + (u - 48))) true
      end
  end.

(** The component, and the dot after it. *)
Definition parse_dotted_decimal : parser Z :=
  cbs ← getS; dotted_loop (S (length cbs)) 0 false.

(** [DECIMAL_SIZE(uint64_t)]. *)
Definition DECIMAL_SIZE : Z := (8 * 8 + 2) / 3 + 1.

Section Oid.
Variable malloc_ok : Z -> bool.
Variable uninit : byte.

(** The remaining components; each has a byte at least. *)
Fixpoint oid_arcs_loop (fuel : nat) (d : nat) (cbs : CBS) : builder unit :=
  if CBS_len cbs =? 0 then mret tt else
  match fuel with
  | O => nofuel
  | S fuel =>
      r ← in_cbs parse_dotted_decimal cbs;
      _ ← add_base128_integer malloc_ok uninit d r.1;
      oid_arcs_loop fuel d r.2
  end.

Definition CBB_add_asn1_oid_from_text (d : nat) (text : list byte) : builder unit :=
  _ ← CBB_flush malloc_ok uninit d;
  let cbs := CBS_init text (length text) in
  r ← in_cbs parse_dotted_decimal cbs;
  let '(a, cbs) := r in
  r ← in_cbs parse_dotted_decimal cbs;
  let '(b, cbs) := r in
  if (2 <? a) || ((a <? 2) && (39 <? b)) || (UINT64_MAX - 80 <? b) then fail else
  _ ← add_base128_integer malloc_ok uninit d (u64 (40 * a + b));
  oid_arcs_loop (length cbs) d cbs.

(** ** To text *)

(** [BIO_snprintf] cuts what does not fit in [buf]. *)
Definition add_decimal (d : nat) (v : Z) : builder unit :=
  let buf := take (Z.to_nat DECIMAL_SIZE) (utoa 10 v) in
  CBB_add_bytes malloc_ok uninit d buf.

Fixpoint oid_text_loop (fuel : nat) (d : nat) (copy : CBS) : builder unit :=
  if CBS_len copy =? 0 then mret tt else
  match fuel with
  | O => nofuel
  | S fuel =>
      r ← in_cbs parse_base128_integer copy;
      let '(v, copy) := r in
      _ ← CBB_add_u8 malloc_ok uninit d 46;
      _ ← add_decimal d v;
      oid_text_loop fuel d copy
  end.

(** The text, into the CBB. *)
Definition oid_text_body (copy : CBS) : builder unit :=
  r ← in_cbs parse_base128_integer copy;
  let '(v, copy) := r in
  _ ← (if 80 <=? v then
         _ ← CBB_add_bytes malloc_ok uninit 0 [x32; x2e];
         add_decimal 0 (v - 80)
       else
         _ ← add_decimal 0 (v / 40);
         _ ← CBB_add_u8 malloc_ok uninit 0 46;
         add_decimal 0 (v mod 40));
  oid_text_loop (length copy) 0 copy.

(** The string with its NUL, or [Failed] for [NULL]. *)
Definition CBS_asn1_oid_to_text (cbs : CBS) : outcome (list byte) :=
  match CBB_init malloc_ok uninit 32 with
  | None => Failed
  | Some cbb =>
      ((_ ← oid_text_body cbs;
       _ ← CBB_add_u8 malloc_ok uninit 0 0;
       r ← CBB_finish malloc_ok uninit 0;
       mret (take (Z.to_nat r.2) r.1)) cbb).1
  end.
End Oid.
