(* ===== verification/OidSpec.v ===== *)
(** * What the text of object identifiers promises

    The decimal components of a text, the components of an encoding, and the two
    functions as translations of one list of components. *)

From S2P Require Import Prelude Crypto Cbs CbsAsn1 Cbb CbbSpec CbbProps Digits Oid.

(** ** Components in text *)

Definition u64_ok (v : Z) : Prop := 0 <= v < 2 ^ 64.

(** A dot before what follows. *)
Definition sep_tail (s : list byte) : list byte := match s with [] => [] | _ => x2e :: s end.

Fixpoint arcs_text (arcs : list Z) : list byte :=
  match arcs with
  | [] => []
  | v :: arcs => utoa 10 v ++ sep_tail (arcs_text arcs)
  end.

Lemma dotted_loop_S fuel out seen s :
  dotted_loop (S fuel) out seen s =
  match s with
  | [] => if seen then (Done out, []) else (Failed, [])
  | c :: s =>
      let u := b2z c in
      if (u =? 46) && (0 <? lenZ s) then (if seen then (Done out, s) else (Failed, s)) else
      if (u <? 48) || (57 <? u) || (seen && (out =? 0)) || (UINT64_MAX / 10 <? out) || (UINT64_MAX - (u - 48) <? u64 (out * 10))
      then (Failed, s)
      else dotted_loop fuel (u64 (u64 (out * 10) + (u - 48))) true s
  end.
Proof.
  cbn [dotted_loop]. destruct s as [| c s].
  - erewrite prog_bind_done by (done). by destruct seen.
  - erewrite prog_bind_done by (unfold try_; rewrite get_u8_cons; reflexivity). erewrite prog_bind_done by done. cbv zeta.
    unfold CBS_len. destruct (_ && (0 <? _)); [by destruct seen |]. by destruct (_ || _).
Qed.

Lemma digit_value d : 0 <= d < 10 -> b2z (digit_char d) = 48 + d.
Proof. intros Hd. unfold digit_char. destruct (Z.ltb_spec d 10); [| lia]. apply b2z_z2b_small. lia. Qed.

Lemma digit_of_value c : 48 <= b2z c <= 57 -> c = digit_char (b2z c - 48).
Proof. intros Hc. apply b2z_inj. rewrite digit_value by lia. lia. Qed.

(** A digit is added to the component. *)
Lemma dotted_loop_digit fuel out seen d s :
  u64_ok out -> 0 <= d < 10 -> (seen = true -> out <> 0) -> out * 10 + d < 2 ^ 64 ->
  dotted_loop (S fuel) out seen (digit_char d :: s) = dotted_loop fuel (out * 10 + d) true s.
Proof.
  intros [Ho _] Hd Hs Hv. rewrite dotted_loop_S. cbv zeta. rewrite digit_value by done. unfold UINT64_MAX, wrap.
  rewrite !Z.mod_small by lia. destruct (Z.eqb_spec (48 + d) 46); [lia |]. cbn [andb].
  destruct (Z.ltb_spec (48 + d) 48); [lia |]. destruct (Z.ltb_spec 57 (48 + d)); [lia |].
  assert (seen && (out =? 0) = false) as -> by (destruct seen, (Z.eqb_spec out 0); try done; by destruct Hs).
  destruct (Z.ltb_spec ((2 ^ 64 - 1) / 10) out); [dlia |]. destruct (Z.ltb_spec (2 ^ 64 - 1 - (48 + d - 48)) (out * 10)); [lia |].
  cbn [orb]. f_equal. lia.
Qed.

Lemma dotted_loop_sound fuel out (seen : bool) s v s' done_ :
  u64_ok out -> (if seen then done_ = utoa 10 out else done_ = [] /\ out = 0) ->
  dotted_loop fuel out seen s = (Done v, s') -> u64_ok v /\ done_ ++ s = utoa 10 v ++ sep_tail s'.
Proof.
  revert out seen s done_. induction fuel as [| fuel IH]; intros out seen s done_ Ho Hdone; [done |]. rewrite dotted_loop_S.
  destruct s as [| c s]; [destruct seen; [intros [= <- <-]; by subst | done] |]. cbv zeta.
  destruct ((b2z c =? 46) && (0 <? lenZ s)) eqn:Edot.
  { apply andb_prop in Edot as [Ec%Z.eqb_eq Hl%Z.ltb_lt]. destruct seen; [| done]. intros [= <- <-]. split; [done |]. subst done_. f_equal.
    destruct s; [done |]. cbn [sep_tail]. f_equal. by apply b2z_inj. }
  destruct (_ || _) eqn:Ebad; [done |]. rewrite !orb_false_iff, !Z.ltb_ge in Ebad. destruct Ebad as ((((H1 & H2) & H3) & H4) & H5).
  destruct Ho as [Ho Ho']. unfold UINT64_MAX in *. assert (c = digit_char (b2z c - 48)) as Ec by (apply digit_of_value; lia).
  set (d := b2z c - 48) in *. rewrite Ec. clear Ec.
  assert (u64 (out * 10) = out * 10) as Eo by (unfold wrap; rewrite Z.mod_small; [done | dlia]). rewrite Eo in *.
  assert (u64 (out * 10 + d) = out * 10 + d) as -> by (unfold wrap; rewrite Z.mod_small; lia).
  intros E. apply (IH _ _ _ (done_ ++ [digit_char d])) in E as [Hv E]; [| unfold u64_ok; lia |].
  - rewrite <- app_assoc in E. done.
  - destruct seen; [| by destruct Hdone as [-> ->]; rewrite utoa_digit by lia].
    subst done_. apply Z.eqb_neq in H3. by rewrite utoa_snoc by lia.
Qed.

(** A component is read. *)
Lemma dotted_loop_number fuel v s :
  u64_ok v -> dotted_loop (length (utoa 10 v) + fuel) 0 false (utoa 10 v ++ s) = dotted_loop fuel v true s.
Proof.
  intros Hv. revert fuel s. apply (utoa_ind 10 (fun v l => forall fuel s,
    dotted_loop (length l + fuel) 0 false (l ++ s) = dotted_loop fuel v true s)); [lia | | | done].
  - intros d Hd fuel s. cbn [length app Nat.add]. rewrite dotted_loop_digit; [done | by split | done | done | lia].
  - intros u d l Hu Hd Hw IH fuel s. rewrite length_app, <- app_assoc. cbn [length app].
    replace (length l + 1 + fuel)%nat with (length l + S fuel)%nat by lia. rewrite IH.
    rewrite dotted_loop_digit; [done | unfold u64_ok; lia | done | lia | done].
Qed.

Lemma dotted_loop_total fuel out seen s :
  (length s < fuel)%nat -> (dotted_loop fuel out seen s).1 <> Stuck /\ (dotted_loop fuel out seen s).1 <> NoFuel.
Proof.
  revert out seen s. induction fuel as [| fuel IH]; intros out seen s Hs; [lia |]. rewrite dotted_loop_S.
  destruct s as [| c s]; [by destruct seen |]. cbv zeta. destruct (_ && (0 <? _)); [by destruct seen |].
  destruct (_ || _); [done |]. apply IH. cbn [length] in Hs. lia.
Qed.

(** [parse_dotted_decimal] reads a component and the dot after it. *)
Lemma parse_dotted_iff s v s' :
  parse_dotted_decimal s = (Done v, s') <-> u64_ok v /\ s = utoa 10 v ++ sep_tail s'.
Proof.
  unfold parse_dotted_decimal. erewrite prog_bind_done by done. split.
  - intros E. by apply (dotted_loop_sound _ _ _ _ _ _ []) in E.
  - intros [Hv ->]. rewrite length_app. replace (S (length (utoa 10 v) + length (sep_tail s')))%nat
      with (length (utoa 10 v) + S (length (sep_tail s')))%nat by lia.
    rewrite dotted_loop_number, dotted_loop_S by done. destruct s' as [| c s']; [done |]. cbn [sep_tail]. cbv zeta.
    change (b2z x2e =? 46) with true. unfold lenZ. cbn [length]. destruct (Z.ltb_spec 0 (Z.of_nat (S (length s')))); [done | lia].
Qed.

#[export] Instance parse_dotted_total : Total parse_dotted_decimal.
Proof.
  intros s _. unfold parse_dotted_decimal. erewrite prog_bind_done by done.
  destruct (dotted_loop_total (S (length s)) 0 false s) as [H1 H2]; [lia | done].
Qed.

(** ** Translating a list of components *)

Section Translate.
Variable malloc_ok : Z -> bool.
Variable uninit : byte.

(** A run that reads something and writes [l] for it, for one of the [l] in [P]; it fails
    when there is none, or no room. *)
Definition translates (r : outcome unit * cbb_st) (s : cbb_st) (a : contents) (P : list byte -> Prop) : Prop :=
  match r with
  | (Done _, s') => exists l a', P l /\ append l a = Some a' /\ Rep s' a' /\ grows s s'
  | (Failed, _) => forall l, P l -> exists a', append l a = Some a' /\ ~ room malloc_ok s (size a')
  | _ => False
  end.

Lemma append_some l a : a <> [] -> exists a', append l a = Some a'.
Proof. destruct a as [| [k b] a]; [done |]. intros _. by eexists. Qed.

(** Writes one piece, and goes on. *)
Lemma translates_write {A} d (w : builder A) (k : A -> builder unit) l1 s a (P : list byte -> Prop) :
  Rep s a -> Top d a -> Implements malloc_ok (Top d) w (append l1) ->
  (forall x s1 a1, Rep s1 a1 -> Top d a1 -> translates (k x s1) s1 a1 P) ->
  translates ((w ≫= k) s) s a (fun l => exists l2, P l2 /\ l = l1 ++ l2).
Proof.
  intros Hs Ha Hw Hk. specialize (Hw s a Hs Ha). unfold mbind, prog_bind. destruct (w s) as [[x | | |] s1]; try done.
  - destruct Hw as (a1 & E1 & Hs1 & Hg). assert (Top d a1) as Ha1 by (by eapply append_top).
    specialize (Hk x s1 a1 Hs1 Ha1). destruct (k x s1) as [[y | | |] s2]; try done; cbn [translates] in *.
    + destruct Hk as (l2 & a2 & Hl & E2 & Hs2 & Hg2). exists (l1 ++ l2), a2. split; [by exists l2 |].
      split; [by rewrite <- append_append, E1 |]. split; [done | by eapply grows_trans].
    + intros l (l2 & Hl & ->). destruct (Hk l2 Hl) as (a2 & E2 & Hr). exists a2. split; [by rewrite <- append_append, E1 |].
      intros Hr'. by apply Hr, (room_grows malloc_ok s).
  - destruct Hw as [_ [E1 | (a1 & E1 & Hr)]]; intros l (l2 & Hl & ->).
    + by destruct (append_some l1 a (top_not_nil _ _ Ha)) as [? E]; rewrite E in E1.
    + destruct (append_some (l1 ++ l2) a (top_not_nil _ _ Ha)) as [a2 E2]. exists a2. split; [done |]. intros Hr'. apply Hr.
      eapply room_le; [| done]. apply size_append in E1, E2. rewrite lenZ_app in E2. unfold lenZ in *. lia.
Qed.

Lemma translates_ext r s a (P Q : list byte -> Prop) : translates r s a P -> (forall l, P l <-> Q l) -> translates r s a Q.
Proof.
  intros Hr Hpq. unfold translates in *. destruct r as [[x | | |] s']; try done.
  - destruct Hr as (l & a' & Hl & Hr). exists l, a'. split; [by apply Hpq | done].
  - intros l Hl. apply Hr. by apply Hpq.
Qed.

(** Nothing is read. *)
Lemma translates_fail s s' a (P : list byte -> Prop) : (forall l, ~ P l) -> translates (Failed, s') s a P.
Proof. intros HP l Hl. by destruct (HP l). Qed.

Lemma translates_ret d s a : Rep s a -> Top d a -> translates ((mret tt : builder unit) s) s a (fun l => l = []).
Proof.
  intros Hs Ha. exists [], a. split; [done |]. split; [by eapply append_nil, top_not_nil |]. split; [done | apply grows_refl].
Qed.

(** A component is read by [m], or nothing can be. *)
Lemma translates_read {A} (m : parser A) (k : A * CBS -> builder unit) cbs s a P :
  Total m -> (forall x cbs', m cbs = (Done x, cbs') -> translates (k (x, cbs') s) s a P) ->
  ((forall x cbs', m cbs <> (Done x, cbs')) -> forall l, ~ P l) ->
  translates ((in_cbs m cbs ≫= k) s) s a P.
Proof.
  intros Hm Hk Hno. destruct (Hm cbs I) as (H1 & H2 & _). unfold mbind, prog_bind, in_cbs.
  destruct (m cbs) as [[x | | |] cbs'] eqn:E; cbn [fst] in *; try done; [by apply Hk |]. apply translates_fail. apply Hno. done.
Qed.

(** ** The loops *)

Section Loop.
Variables (m : parser Z) (enc : Z -> list byte -> list byte) (w : Z -> builder unit) (wr : Z -> list byte) (d : nat).
Hypothesis m_total : Total m.
Hypothesis m_iff : forall s v s', m s = (Done v, s') <-> u64_ok v /\ s = enc v s'.
Hypothesis enc_shorter : forall v s, u64_ok v -> (length s < length (enc v s))%nat.
Hypothesis w_writes : forall v, u64_ok v -> Implements malloc_ok (Top d) (w v) (append (wr v)).

Fixpoint trans_loop (fuel : nat) (cbs : CBS) : builder unit :=
  if CBS_len cbs =? 0 then mret tt else
  match fuel with
  | O => nofuel
  | S fuel =>
      r ← in_cbs m cbs;
      _ ← w r.1;
      trans_loop fuel r.2
  end.

Definition stream (cs : list Z) : list byte := fold_right enc [] cs.

Definition translation (cbs l : list byte) : Prop :=
  exists cs, Forall u64_ok cs /\ cbs = stream cs /\ l = flat_map wr cs.

Lemma translation_nil l : translation [] l <-> l = [].
Proof.
  split; [| intros ->; by exists []]. intros (cs & Hcs & E & ->). destruct Hcs as [| v cs Hv _]; [done |].
  pose proof (enc_shorter v (stream cs) Hv) as Hl. change (stream (v :: cs)) with (enc v (stream cs)) in E. rewrite <- E in Hl. cbn in Hl. lia.
Qed.

Lemma translation_read cbs v cbs' l :
  m cbs = (Done v, cbs') -> (exists l2, translation cbs' l2 /\ l = wr v ++ l2) <-> translation cbs l.
Proof.
  intros E. split.
  - intros (l2 & (cs & Hcs & -> & ->) & ->). apply m_iff in E as [Hv ->]. exists (v :: cs). split; [by constructor | done].
  - intros (cs & Hcs & Ec & ->). destruct Hcs as [| v' cs Hv' Hcs]; cbn in Ec; subst cbs.
    + apply m_iff in E as [Hv Enil]. pose proof (enc_shorter v cbs' Hv) as Hl. rewrite <- Enil in Hl. cbn in Hl. lia.
    + assert (m (enc v' (stream cs)) = (Done v', stream cs)) as E' by (by apply m_iff).
      change (fold_right enc [] cs) with (stream cs) in E. rewrite E' in E. injection E as <- <-.
      exists (flat_map wr cs). split; [by exists cs | done].
Qed.

Lemma trans_loop_translates fuel cbs s a :
  (length cbs <= fuel)%nat -> Rep s a -> Top d a -> translates (trans_loop fuel cbs s) s a (translation cbs).
Proof.
  revert cbs s a. induction fuel as [| fuel IH]; intros cbs s a Hf Hs Ha.
  { destruct cbs; [| cbn in Hf; lia]. eapply translates_ext; [by apply (translates_ret d) |]. intros l. by rewrite translation_nil. }
  cbn [trans_loop]. unfold CBS_len, lenZ. destruct (Z.eqb_spec (Z.of_nat (length cbs)) 0) as [E0 | Hne].
  { destruct cbs; [| cbn in E0; lia]. eapply translates_ext; [by apply (translates_ret d) |]. intros l. by rewrite translation_nil. }
  apply translates_read; [done | |].
  - intros v cbs' E. cbn [fst snd]. pose proof E as [Hv Ec]%m_iff. eapply translates_ext; [| intros l; by apply translation_read].
    apply (translates_write d); [done | done | by apply w_writes |]. intros _ s1 a1 Hs1 Ha1. apply IH; [| done | done].
    pose proof (enc_shorter v cbs' Hv). rewrite <- Ec in *. lia.
  - intros Hno l (cs & Hcs & -> & ->). destruct Hcs as [| v cs Hv Hcs]; [done | by apply (Hno v (stream cs)), m_iff].
Qed.
End Loop.

(** ** Object identifiers *)

(** The two first components share a number: the first is 0, 1 or 2, and the second below 40
    unless the first is 2. *)
Definition oid_ok (arcs : list Z) : Prop :=
  match arcs with
  | a :: b :: rest => 0 <= a <= 2 /\ 0 <= b <= UINT64_MAX - 80 /\ (a < 2 -> b <= 39) /\ Forall u64_ok rest
  | _ => False
  end.

Definition oid_body (arcs : list Z) : list byte :=
  match arcs with
  | a :: b :: rest => base128 (40 * a + b) ++ flat_map base128 rest
  | _ => []
  end.

Definition enc_text (v : Z) (s : list byte) : list byte := utoa 10 v ++ sep_tail s.

Lemma enc_text_shorter v s : u64_ok v -> (length s < length (enc_text v s))%nat.
Proof.
  intros Hv. pose proof (utoa_not_nil 10 v ltac:(lia) Hv) as Hne. unfold enc_text. rewrite length_app.
  destruct (utoa 10 v); [done |]. destruct s; cbn; lia.
Qed.

Lemma stream_text cs : stream enc_text cs = arcs_text cs.
Proof. induction cs as [| v cs IH]; [done |]. cbn [stream fold_right arcs_text]. by rewrite <- IH. Qed.

Lemma parse_arc v cs : u64_ok v -> parse_dotted_decimal (arcs_text (v :: cs)) = (Done v, arcs_text cs).
Proof. intros Hv. by apply parse_dotted_iff. Qed.

Lemma oid_arcs_loop_eq fuel d cbs s :
  oid_arcs_loop malloc_ok uninit fuel d cbs s = trans_loop parse_dotted_decimal (add_base128_integer malloc_ok uninit d) fuel cbs s.
Proof.
  revert cbs s. induction fuel as [| fuel IH]; intros cbs s; [done |]. cbn [oid_arcs_loop trans_loop]. destruct (CBS_len cbs =? 0); [done |].
  apply prog_bind_ext. intros r s1. apply prog_bind_ext. intros [] s2. apply IH.
Qed.

Lemma oid_arcs_translates d cbs s a :
  Rep s a -> Top d a ->
  translates (oid_arcs_loop malloc_ok uninit (length cbs) d cbs s) s a
    (fun l => exists cs, Forall u64_ok cs /\ cbs = arcs_text cs /\ l = flat_map base128 cs).
Proof.
  intros Hs Ha. rewrite oid_arcs_loop_eq. eapply translates_ext.
  - apply (trans_loop_translates _ enc_text _ base128 d); try done; [apply _ | apply parse_dotted_iff | apply enc_text_shorter |].
    intros v [Hv _]. by apply implements_add_base128.
  - intros l. unfold translation. by setoid_rewrite stream_text.
Qed.

Lemma oid_ok_inv arcs : oid_ok arcs -> exists a b rest, arcs = a :: b :: rest /\ u64_ok a /\ u64_ok b /\ Forall u64_ok rest.
Proof.
  destruct arcs as [| a [| b rest]]; try done. intros (Ha & Hb & _ & Hr). unfold UINT64_MAX in Hb.
  exists a, b, rest. unfold u64_ok. repeat split; try lia. done.
Qed.

(** The function without its flush. *)
Lemma oid_from_text_translates d text s a :
  Rep s a -> Top d a ->
  translates
    ((r ← in_cbs parse_dotted_decimal text;
      let '(a, cbs) := r in
      r ← in_cbs parse_dotted_decimal cbs;
      let '(b, cbs) := r in
      if (2 <? a) || ((a <? 2) && (39 <? b)) || (UINT64_MAX - 80 <? b) then fail else
      _ ← add_base128_integer malloc_ok uninit d (u64 (40 * a + b));
      oid_arcs_loop malloc_ok uninit (length cbs) d cbs) s) s a
    (fun l => exists arcs, oid_ok arcs /\ text = arcs_text arcs /\ l = oid_body arcs).
Proof.
  intros Hs Ha. apply translates_read; [apply _ | |].
  2: { intros Hno l (arcs & Hok & -> & _). destruct (oid_ok_inv arcs Hok) as (x & y & rest & -> & Hx & _). by eapply Hno, parse_arc. }
  intros x c1 E1. apply translates_read; [apply _ | |].
  2: { intros Hno l (arcs & Hok & -> & _). destruct (oid_ok_inv arcs Hok) as (x' & y & rest & -> & Hx & Hy & _).
       rewrite parse_arc in E1 by done. injection E1 as <- <-. by eapply Hno, parse_arc. }
  intros y c2 E2.
  assert (forall arcs, oid_ok arcs -> text = arcs_text arcs -> exists rest, arcs = x :: y :: rest /\ c2 = arcs_text rest) as Hdet.
  { intros arcs Hok ->. destruct (oid_ok_inv arcs Hok) as (x' & y' & rest & -> & Hx & Hy & _).
    rewrite parse_arc in E1 by done. injection E1 as <- <-. pose proof (parse_arc y' rest Hy) as E3. cbn [arcs_text] in E3.
    rewrite E3 in E2. injection E2 as <- <-. by exists rest. }
  pose proof E1 as [Hx Et]%parse_dotted_iff. pose proof E2 as [Hy Ec]%parse_dotted_iff.
  destruct (_ || _) eqn:Echeck.
  - apply translates_fail. intros l (arcs & Hok & Et' & _). destruct (Hdet arcs Hok Et') as (rest & -> & _).
    destruct Hok as (H1 & H2 & H3 & _). rewrite !orb_true_iff, andb_true_iff, !Z.ltb_lt in Echeck. lia.
  - rewrite !orb_false_iff, andb_false_iff, !Z.ltb_ge in Echeck. destruct Echeck as [[H1 H2] H3].
    destruct Hx as [Hx _], Hy as [Hy _]. unfold UINT64_MAX in H3.
    assert (u64 (40 * x + y) = 40 * x + y) as Ev by (unfold wrap; rewrite Z.mod_small; lia). rewrite Ev.
    eapply translates_ext.
    + apply (translates_write d); [done | done | apply implements_add_base128; lia |].
      intros _ s1 a1 Hs1 Ha1. by apply oid_arcs_translates.
    + intros l. split.
      * intros (l2 & (cs & Hcs & -> & ->) & ->). exists (x :: y :: cs). split; [unfold oid_ok, UINT64_MAX; split_and!; try done; lia |].
        split; [| done]. cbn [arcs_text]. by rewrite Et, Ec.
      * intros (arcs & Hok & Et' & ->). destruct (Hdet arcs Hok Et') as (rest & -> & ->). destruct Hok as (_ & _ & _ & Hr).
        exists (flat_map base128 rest). split; [by exists rest | done].
Qed.

Lemma oid_from_text_run d text s a :
  Rep s a -> Live d a ->
  match CBB_add_asn1_oid_from_text malloc_ok uninit d text s with
  | (Done _, s') =>
      exists arcs a', oid_ok arcs /\ text = arcs_text arcs /\ flush d a ≫= append (oid_body arcs) = Some a' /\ Rep s' a'
  | (Failed, _) =>
      forall arcs, oid_ok arcs -> text = arcs_text arcs ->
      flush d a = None \/ exists a', flush d a ≫= append (oid_body arcs) = Some a' /\ ~ room malloc_ok s (size a')
  | _ => False
  end.
Proof.
  intros Hs Ha. unfold CBB_add_asn1_oid_from_text. cbv zeta.
  assert (CBS_init text (length text) = text) as -> by (by apply take_ge).
  pose proof (implements_flush malloc_ok uninit d s a Hs Ha) as Hf. unfold mbind at 1, prog_bind at 1.
  destruct (CBB_flush malloc_ok uninit d s) as [[x | | |] s1]; try done.
  - destruct Hf as (a1 & E1 & Hs1 & Hg). assert (Top d a1) as Ha1 by (by eapply flush_length).
    pose proof (oid_from_text_translates d text s1 a1 Hs1 Ha1) as Ht. rewrite E1. cbn [mbind option_bind].
    match type of Ht with translates ?X _ _ _ => destruct X as [[y | | |] s2] end; try done; cbn [translates] in Ht.
    + destruct Ht as (l & a2 & (arcs & Hok & Et & ->) & E2 & Hs2 & _). by exists arcs, a2.
    + intros arcs Hok Et. right. destruct (Ht (oid_body arcs)) as (a2 & E2 & Hr); [by exists arcs |]. exists a2. split; [done |].
      intros Hr'. by apply Hr, (room_grows malloc_ok s).
  - intros arcs Hok Et. destruct Hf as [_ [E1 | (a1 & E1 & Hr)]]; [by left | right]. rewrite E1. cbn [mbind option_bind].
    destruct (append_some (oid_body arcs) a1) as [a2 E2]; [intros ->; by apply flush_length in E1 |].
    exists a2. split; [done |]. intros Hr'. apply Hr. eapply room_le; [| done]. apply size_append in E2. unfold lenZ in E2. lia.
Qed.

(** ** To text *)

Lemma utoa10_length v : u64_ok v -> (length (utoa 10 v) <= 20)%nat.
Proof. intros [Hv Hv']. apply utoa_length; [lia | | lia | lia]. change (10 ^ Z.of_nat 20) with 100000000000000000000. lia. Qed.

Lemma implements_add_decimal d v : u64_ok v -> Implements malloc_ok (Top d) (add_decimal malloc_ok uninit d v) (append (utoa 10 v)).
Proof.
  intros Hv. pose proof (utoa10_length v Hv) as Hl. unfold add_decimal. cbv zeta.
  rewrite take_ge by (change (Z.to_nat DECIMAL_SIZE) with 23%nat; lia).
  apply implements_at_top, implements_add_bytes. unfold lenZ. lia.
Qed.

Definition dot_decimal (v : Z) : list byte := x2e :: utoa 10 v.

Lemma implements_dot_decimal d v :
  u64_ok v ->
  Implements malloc_ok (Top d) (_ ← CBB_add_u8 malloc_ok uninit d 46; add_decimal malloc_ok uninit d v) (append (dot_decimal v)).
Proof.
  intros Hv. change (dot_decimal v) with ([z2b 46] ++ utoa 10 v).
  apply implements_append_seq; [by apply implements_add_u8_top | intros _; by apply implements_add_decimal].
Qed.

Lemma arcs_text_flat v cs : Forall u64_ok cs -> arcs_text (v :: cs) = utoa 10 v ++ flat_map dot_decimal cs.
Proof.
  intros Hcs. revert v. induction Hcs as [| c cs Hc _ IH]; intros v; [done |].
  change (arcs_text (v :: c :: cs)) with (utoa 10 v ++ sep_tail (arcs_text (c :: cs))). rewrite IH. cbn [flat_map]. f_equal.
  unfold dot_decimal at 2. cbn [app]. pose proof (utoa_not_nil 10 c ltac:(lia) Hc). by destruct (utoa 10 c).
Qed.

Lemma oid_text_loop_eq fuel d cbs s :
  oid_text_loop malloc_ok uninit fuel d cbs s =
  trans_loop parse_base128_integer (fun v => _ ← CBB_add_u8 malloc_ok uninit d 46; add_decimal malloc_ok uninit d v) fuel cbs s.
Proof.
  revert cbs s. induction fuel as [| fuel IH]; intros cbs s; [done |]. cbn [oid_text_loop trans_loop]. destruct (CBS_len cbs =? 0); [done |].
  apply prog_bind_ext. intros [v c] s1. cbn [fst snd]. rewrite prog_bind_assoc. apply prog_bind_ext. intros [] s2.
  apply prog_bind_ext. intros [] s3. apply IH.
Qed.

Definition enc_128 (v : Z) (s : list byte) : list byte := base128 v ++ s.

Lemma base128_length v : u64_ok v -> (1 <= length (base128 v))%nat.
Proof.
  intros [Hv Hv']. unfold base128. rewrite length_b128. destruct (digits_spec 10 7 v) as (k & -> & Hk & _); [lia | lia | | lia].
  change (2 ^ (7 * Z.of_nat 10)) with (2 ^ 70). lia.
Qed.

Lemma stream_128 cs : stream enc_128 cs = flat_map base128 cs.
Proof. induction cs as [| v cs IH]; [done |]. cbn [stream fold_right flat_map]. by rewrite <- IH. Qed.

Lemma oid_text_loop_translates d cbs s a :
  Rep s a -> Top d a ->
  translates (oid_text_loop malloc_ok uninit (length cbs) d cbs s) s a
    (fun l => exists cs, Forall u64_ok cs /\ cbs = flat_map base128 cs /\ l = flat_map dot_decimal cs).
Proof.
  intros Hs Ha. rewrite oid_text_loop_eq. eapply translates_ext.
  - apply (trans_loop_translates _ enc_128 _ dot_decimal d); try done; [apply _ | apply parse_base128_inverts | |].
    + intros v s0 Hv. unfold enc_128. rewrite length_app. pose proof (base128_length v Hv). lia.
    + intros v Hv. by apply implements_dot_decimal.
  - intros l. unfold translation. by setoid_rewrite stream_128.
Qed.

(** The two components of the first number. *)
Definition first_arcs (v : Z) : Z * Z := if 80 <=? v then (2, v - 80) else (v / 40, v mod 40).

Lemma first_arcs_ok v :
  u64_ok v -> let '(a, b) := first_arcs v in
  0 <= a <= 2 /\ 0 <= b <= UINT64_MAX - 80 /\ (a < 2 -> b <= 39) /\ 40 * a + b = v /\ u64_ok a /\ u64_ok b.
Proof.
  intros [Hv Hv']. unfold first_arcs, UINT64_MAX, u64_ok. destruct (Z.leb_spec 80 v); [lia |].
  assert (0 <= v / 40 < 2) by dlia. assert (0 <= v mod 40 < 40) by dlia. assert (v = 40 * (v / 40) + v mod 40) by dlia. lia.
Qed.

Lemma first_arcs_unique a b : 0 <= a <= 2 -> 0 <= b -> (a < 2 -> b <= 39) -> first_arcs (40 * a + b) = (a, b).
Proof.
  intros Ha Hb Hab. unfold first_arcs. destruct (Z.leb_spec 80 (40 * a + b)).
  - assert (a = 2) by lia. subst. f_equal. lia.
  - assert (a < 2) as Ha2 by lia. specialize (Hab Ha2). rewrite Z.mul_comm, Z.div_add_l, (Z.div_small b), (Z.add_comm (a * 40)), Z.mod_add, Z.mod_small by lia.
    f_equal. lia.
Qed.

Lemma oid_text_body_translates copy s a :
  Rep s a -> Top 0 a ->
  translates (oid_text_body malloc_ok uninit copy s) s a
    (fun l => exists arcs, oid_ok arcs /\ copy = oid_body arcs /\ l = arcs_text arcs).
Proof.
  intros Hs Ha. unfold oid_text_body.
  assert (forall arcs, oid_ok arcs -> copy = oid_body arcs -> exists x y rest, arcs = x :: y :: rest /\ u64_ok (40 * x + y) /\
    first_arcs (40 * x + y) = (x, y) /\ Forall u64_ok rest /\ parse_base128_integer copy = (Done (40 * x + y), flat_map base128 rest)) as Hinv.
  { intros arcs Hok ->. destruct arcs as [| x [| y rest]]; try done. destruct Hok as (H1 & H2 & H3 & Hr). unfold UINT64_MAX in *.
    assert (u64_ok (40 * x + y)) as Hv by (unfold u64_ok; lia).
    exists x, y, rest. split; [done |]. split; [done |]. split; [apply first_arcs_unique; lia || done |]. split; [done |].
    by apply parse_base128_inverts. }
  apply translates_read; [apply _ | |].
  2: { intros Hno l (arcs & Hok & E & _). destruct (Hinv arcs Hok E) as (x & y & rest & _ & _ & _ & _ & Ep). by eapply Hno. }
  intros v c1 E. pose proof E as [Hv Ec]%parse_base128_inverts. pose proof (first_arcs_ok v Hv) as Hf.
  destruct (first_arcs v) as [x y] eqn:Ef. destruct Hf as (Hx & Hy & Hxy & Hsum & Hxo & Hyo).
  eapply translates_ext.
  - apply (translates_write 0 _ _ (utoa 10 x ++ dot_decimal y)); [done | done | |].
    + unfold first_arcs in Ef. destruct (Z.leb_spec 80 v); injection Ef as <- <-.
      * change (utoa 10 2 ++ dot_decimal (v - 80)) with ([x32; x2e] ++ utoa 10 (v - 80)).
        apply implements_append_seq; [apply implements_at_top, implements_add_bytes; done | intros _; by apply implements_add_decimal].
      * apply implements_append_seq; [by apply implements_add_decimal | intros _; by apply implements_dot_decimal].
    + intros _ s1 a1 Hs1 Ha1. by apply oid_text_loop_translates.
  - intros l. split.
    + intros (l2 & (cs & Hcs & -> & ->) & ->). exists (x :: y :: cs).
      split; [unfold oid_ok; by repeat split; try apply Hx; try apply Hy |]. cbn [oid_body]. rewrite Hsum. split; [done |]. rewrite arcs_text_flat by (by constructor). cbn [flat_map]. by rewrite <- app_assoc.
    + intros (arcs & Hok & Eb & ->). destruct (Hinv arcs Hok Eb) as (x' & y' & rest & -> & _ & Ef' & Hr & Ep).
      rewrite Ep in E. injection E as Ev Erest. rewrite <- Ev, Ef' in Ef. injection Ef as -> ->.
      exists (flat_map dot_decimal rest). split; [by exists rest |].
      rewrite arcs_text_flat by (by constructor). cbn [flat_map]. by rewrite <- app_assoc.
Qed.

Lemma arcs_text_length arcs : oid_ok arcs -> lenZ (arcs_text arcs) <= 43 * lenZ (oid_body arcs).
Proof.
  intros Hok. destruct (oid_ok_inv arcs Hok) as (x & y & rest & -> & Hx & Hy & Hr). destruct Hok as (H1 & H2 & _ & _). cbn [oid_body].
  rewrite arcs_text_flat by (by constructor). cbn [flat_map]. rewrite !lenZ_app.
  assert (lenZ (flat_map dot_decimal rest) <= 43 * lenZ (flat_map base128 rest)) as Hrest.
  { clear -Hr. induction Hr as [| v rest Hv _ IH]; [done |]. cbn [flat_map]. rewrite !lenZ_app.
    pose proof (utoa10_length v Hv). pose proof (base128_length v Hv). unfold dot_decimal at 1. unfold lenZ in *. cbn [length]. lia. }
  pose proof (utoa10_length x Hx). pose proof (utoa10_length y Hy). unfold UINT64_MAX in *.
  pose proof (base128_length (40 * x + y) ltac:(unfold u64_ok; lia)). unfold dot_decimal at 1. unfold lenZ in *. cbn [length]. lia.
Qed.

Lemma oid_to_text_run cbs :
  lenZ cbs < 2 ^ 50 ->
  match CBS_asn1_oid_to_text malloc_ok uninit cbs with
  | Done txt => exists arcs, oid_ok arcs /\ cbs = oid_body arcs /\ txt = arcs_text arcs ++ [x00]
  | Failed => memory malloc_ok -> forall arcs, oid_ok arcs -> cbs <> oid_body arcs
  | _ => False
  end.
Proof.
  intros Hlen. unfold CBS_asn1_oid_to_text. destruct (CBB_init malloc_ok uninit 32) as [cbb |] eqn:Ei.
  2: { intros Hm. exfalso. revert Ei. unfold CBB_init, cbb_init, OPENSSL_malloc, OPENSSL_MALLOC_PREFIX.
       rewrite !Hm by (vm_compute; split; congruence). vm_compute. congruence. }
  destruct (CBB_init_rep malloc_ok uninit 32 cbb ltac:(lia) Ei) as [Hs Hres].
  assert (forall a' arcs s1, memory malloc_ok -> oid_ok arcs -> cbs = oid_body arcs -> grows cbb s1 ->
    append (arcs_text arcs) [(KRoot, [])] ≫= append [x00] = Some a' -> room malloc_ok s1 (size a')) as Hroom.
  { intros a' arcs s1 Hm Hok -> [Hg _] Ea. right. split; [congruence |]. split; [exact Hm |]. rewrite append_append in Ea.
    apply size_append in Ea. rewrite lenZ_app in Ea. pose proof (arcs_text_length arcs Hok). change (size [(KRoot, [])]) with 0 in Ea.
    change (lenZ [x00]) with 1 in Ea. lia. }
  pose proof (oid_text_body_translates cbs cbb [(KRoot, [])] Hs eq_refl) as Ht. unfold mbind at 1, prog_bind at 1.
  destruct (oid_text_body _ _ _ _) as [[x | | |] s1]; try done; cbn [translates] in Ht.
  2: { intros Hm arcs Hok E. destruct (Ht (arcs_text arcs)) as (a' & Ea & Hr); [by exists arcs |]. apply Hr.
       destruct (append_some [x00] a') as [a2 Ea2]; [by injection Ea as <- |].
       apply (room_le malloc_ok cbb _ (size a2)); [| apply (Hroom a2 arcs cbb); [done.. | apply grows_refl | by rewrite Ea]].
       apply size_append in Ea2. unfold lenZ in Ea2. lia. }
  destruct Ht as (l & a1 & (arcs & Hok & Eb & ->) & Ea1 & Hs1 & Hg1). pose proof (append_top 0 (arcs_text arcs) [(KRoot, [])] a1 eq_refl Ea1) as Ha1.
  pose proof (implements_add_u8_top malloc_ok uninit 0 0 ltac:(lia) s1 a1 Hs1 Ha1) as Hu. unfold mbind at 1, prog_bind at 1.
  destruct (CBB_add_u8 _ _ _ _ _) as [[y | | |] s2]; try done.
  2: { intros Hm arcs' Hok' E. destruct Hu as [_ [En | (a2 & Ea2 & Hr)]].
       - destruct (append_some [z2b 0] a1 (top_not_nil _ _ Ha1)) as [? E']. by rewrite E' in En.
       - apply Hr. apply (Hroom a2 arcs s1); try done. by rewrite Ea1. }
  destruct Hu as (a2 & Ea2 & Hs2 & _). assert (Top 0 a2) as Ha2 by (by eapply append_top).
  unfold CBB_finish. cbn [Nat.eqb negb]. rewrite prog_bind_assoc. erewrite prog_bind_done by (by eapply flush_top).
  erewrite prog_bind_done by done. cbn [fst snd]. exists arcs. split; [done |]. split; [done |].
  pose proof (rep_layout _ _ Hs2) as Hlay. injection Ea1 as <-. injection Ea2 as <-. inversion Hlay as [body E | k body a0 outer ph Ho Hk]; [done | by destruct Hk].
Qed.
End Translate.

(** ** Properties *)

(** C32: object identifiers are read from text exactly.  On any CBB of a chain,
    [CBB_add_asn1_oid_from_text] succeeds only for the decimal components, separated by
    dots and without leading zeros, of a valid identifier (at least two components, each
    in 64 bits, the first 0, 1 or 2 and the second below 40 unless the first is 2), and
    then has added its DER contents.  It refuses such a text only when the children
    of the CBB cannot be flushed or the buffer cannot grow, and always returns. *)
Theorem oid_from_text_exact (malloc_ok : Z -> bool) (uninit : byte) (d : nat) (text : list byte) (s : cbb_st) (a : contents) :
  Rep s a -> Live d a ->
  match CBB_add_asn1_oid_from_text malloc_ok uninit d text s with
  | (Done _, s') =>
      exists arcs a', oid_ok arcs /\ text = arcs_text arcs /\ flush d a ≫= append (oid_body arcs) = Some a' /\ Rep s' a'
  | (Failed, _) =>
      forall arcs, oid_ok arcs -> text = arcs_text arcs ->
      flush d a = None \/ exists a', flush d a ≫= append (oid_body arcs) = Some a' /\ ~ room malloc_ok s (size a')
  | _ => False
  end.
Proof. apply oid_from_text_run. Qed.

(** "1.2.840", and a CBB. *)
Definition sample_oid : list byte := [x31; x2e; x32; x2e; x38; x34; x30].
Definition sample_cbb : cbb_st := mk_cbb (mk_buffer (repeat x00 16) 0 16 true false) [root_frame].

Lemma oid_from_text_exact_witness :
  arcs_text [1; 2; 840] = sample_oid /\ oid_body [1; 2; 840] = [x2a; x86; x48] /\
  match CBB_add_asn1_oid_from_text (fun _ => true) x00 0 sample_oid sample_cbb with
  | (Done _, s') =>
      exists arcs a', oid_ok arcs /\ sample_oid = arcs_text arcs /\
        flush 0 [(KRoot, [])] ≫= append (oid_body arcs) = Some a' /\ Rep s' a'
  | (Failed, _) =>
      forall arcs, oid_ok arcs -> sample_oid = arcs_text arcs ->
      flush 0 [(KRoot, [])] = None \/ exists a', flush 0 [(KRoot, [])] ≫= append (oid_body arcs) = Some a' /\
        ~ room (fun _ => true) sample_cbb (size a')
  | _ => False
  end.
Proof.
  split; [by vm_compute |]. split; [by vm_compute |].
  apply (oid_from_text_exact (fun _ => true) x00 0 sample_oid sample_cbb [(KRoot, [])]); [| unfold Live; cbn; lia].
  apply (CBB_init_rep (fun _ => true) x00 16 sample_cbb); [lia | by vm_compute].
Defined.

(** C33: object identifiers are printed exactly.  [CBS_asn1_oid_to_text] returns the text of
    the components that the bytes encode in base 128, with a NUL; it returns [NULL] only
    when the bytes encode no identifier (an unfinished or padded component, one of more
    than 64 bits, no bytes at all) or memory is short, and it always returns.  So the text
    of [oid_from_text_exact] comes back. *)
Theorem oid_to_text_exact (malloc_ok : Z -> bool) (uninit : byte) (cbs : CBS) :
  lenZ cbs < 2 ^ 50 ->
  match CBS_asn1_oid_to_text malloc_ok uninit cbs with
  | Done txt => exists arcs, oid_ok arcs /\ cbs = oid_body arcs /\ txt = arcs_text arcs ++ [x00]
  | Failed => memory malloc_ok -> forall arcs, oid_ok arcs -> cbs <> oid_body arcs
  | _ => False
  end.
Proof. apply oid_to_text_run. Qed.

Lemma oid_to_text_exact_witness :
  CBS_asn1_oid_to_text (fun _ => true) x00 [x2a; x86; x48] = Done (sample_oid ++ [x00]) /\
  match CBS_asn1_oid_to_text (fun _ => true) x00 [x2a; x86; x48] with
  | Done txt => exists arcs, oid_ok arcs /\ [x2a; x86; x48] = oid_body arcs /\ txt = arcs_text arcs ++ [x00]
  | Failed => memory (fun _ => true) -> forall arcs, oid_ok arcs -> [x2a; x86; x48] <> oid_body arcs
  | _ => False
  end.
Proof. split; [by vm_compute |]. apply (oid_to_text_exact (fun _ => true) x00 [x2a; x86; x48]). by vm_compute. Defined.
