(* ===== verification/SetOf.v ===== *)
(** * Sorting a SET OF

    [CBB_flush_asn1_set_of] of [crypto/bytestring/cbb.c]: the elements of a CBB are put in
    the order of DER, in place. *)

From S2P Require Import Prelude Crypto Cbs CbsAsn1 Cbb.

(** [memcmp] on [n] bytes that both have: the difference of the first bytes that differ. *)
Fixpoint OPENSSL_memcmp (n : nat) (s1 s2 : list byte) : Z :=
  match n, s1, s2 with
  | S n, b1 :: s1, b2 :: s2 => if b2z b1 =? b2z b2 then OPENSSL_memcmp n s1 s2 else b2z b1 - b2z b2
  | _, _, _ => 0
  end.

Definition compare_set_of_element (a b : CBS) : Z :=
  let a_len := CBS_len a in
  let b_len := CBS_len b in
  let min_len := if a_len <? b_len then a_len else b_len in
  let ret := OPENSSL_memcmp (Z.to_nat min_len) (CBS_data a) (CBS_data b) in
  if negb (ret =? 0) then ret else
  if a_len =? b_len then 0 else
  if a_len <? b_len then -1 else 1.

(** The loop that counts the elements. *)
Fixpoint count_children (fuel : nat) (num_children : Z) : parser Z :=
  cbs ← getS;
  if CBS_len cbs =? 0 then mret num_children else
  match fuel with
  | O => nofuel
  | S fuel => _ ← CBS_get_any_asn1_element; count_children fuel (u64 (num_children + 1))
  end.

(** The loop that parses them into [children]. *)
Fixpoint read_children (n : nat) : parser (list CBS) :=
  match n with
  | O => mret []
  | S n =>
      r ← CBS_get_any_asn1_element;
      children ← read_children n;
      mret (r.1.1 :: children)
  end.

Definition sizeof_CBS : Z := 16.

Section SetOf.
Variable malloc_ok : Z -> bool.
Variable uninit : byte.

(** The C library's [qsort]. *)
Variable qsort : (CBS -> CBS -> Z) -> list CBS -> list CBS.

(** The loop that writes them back. *)
Fixpoint add_children (d : nat) (children : list CBS) : builder unit :=
  match children with
  | [] => mret tt
  | c :: children => _ ← CBB_add_bytes malloc_ok uninit d (CBS_data c); add_children d children
  end.

Definition CBB_flush_asn1_set_of (d : nat) : builder unit :=
  _ ← CBB_flush malloc_ok uninit d;
  s ← getS;
  let cbs := CBS_init (CBB_data d s) (Z.to_nat (CBB_len d s)) in
  r ← in_cbs (count_children (length cbs) 0) cbs;
  let num_children := r.1 in
  if num_children <? 2 then mret tt else
  if UINT64_MAX / sizeof_CBS <? num_children then fail else
  let buf_len := CBB_len d s in
  match OPENSSL_memdup malloc_ok (CBB_data d s) (Z.to_nat buf_len) with
  | None => stuck
  | Some buf =>
      let children := OPENSSL_malloc malloc_ok (num_children * sizeof_CBS) in
      match buf with
      | Some buf =>
          if negb children then fail else
          r ← in_cbs (read_children (Z.to_nat num_children)) (CBS_init buf (Z.to_nat buf_len));
          let children := qsort compare_set_of_element r.1 in
          match chain s !! (length (chain s) - 1 - d)%nat with
          | None => stuck
          | Some f =>
              _ ← modifyS (set_len (u64 (offset f + pending_len_len f)));
              _ ← add_children d children;
              s ← getS;
              if CBB_len d s =? buf_len then mret tt else stuck
          end
      | None => fail
      end
  end.
End SetOf.
