(* ===== verification/SetOfSpec.v ===== *)
(** * What sorting a SET OF promises

    The order of the elements, the elements of contents, and the sort in place. *)

From stdpp Require Import sorting.
From S2P Require Import Prelude Crypto Cbs CbsAsn1 Cbb CbbSpec CbbProps SetOf.

(** ** The order *)

(** Bytes in dictionary order. *)
Fixpoint lex_le (a b : list byte) : bool :=
  match a, b with
  | [], _ => true
  | _ :: _, [] => false
  | x :: a, y :: b => (b2z x <? b2z y) || ((b2z x =? b2z y) && lex_le a b)
  end.

Lemma compare_cons x a y b :
  compare_set_of_element (x :: a) (y :: b) = if b2z x =? b2z y then compare_set_of_element a b else b2z x - b2z y.
Proof.
  unfold compare_set_of_element, CBS_len, CBS_data, lenZ. cbn [length]. rewrite !Nat2Z.inj_succ.
  assert ((Z.succ (Z.of_nat (length a)) <? Z.succ (Z.of_nat (length b))) = (Z.of_nat (length a) <? Z.of_nat (length b))) as ->.
  { repeat case_bool; (done || lia). }
  assert ((Z.succ (Z.of_nat (length a)) =? Z.succ (Z.of_nat (length b))) = (Z.of_nat (length a) =? Z.of_nat (length b))) as ->.
  { repeat case_bool; (done || lia). }
  cbv zeta. set (c := Z.of_nat (length a) <? Z.of_nat (length b)).
  assert (Z.to_nat (if c then Z.succ (Z.of_nat (length a)) else Z.succ (Z.of_nat (length b))) =
    S (Z.to_nat (if c then Z.of_nat (length a) else Z.of_nat (length b)))) as -> by (destruct c; lia).
  cbn [OPENSSL_memcmp]. destruct (Z.eqb_spec (b2z x) (b2z y)); [done |].
  destruct (Z.eqb_spec (b2z x - b2z y) 0); [lia | done].
Qed.

Lemma compare_nil_l b : compare_set_of_element [] b = match b with [] => 0 | _ => -1 end.
Proof. by destruct b. Qed.

Lemma compare_nil_r a : compare_set_of_element a [] = match a with [] => 0 | _ => 1 end.
Proof. by destruct a. Qed.

Lemma compare_le a b : (compare_set_of_element a b <=? 0) = lex_le a b.
Proof.
  revert b. induction a as [| x a IH]; intros [| y b]; try done. rewrite compare_cons. cbn [lex_le].
  destruct (Z.eqb_spec (b2z x) (b2z y)) as [E |]; [rewrite IH, E, Z.ltb_irrefl; done |].
  cbn [andb]. rewrite orb_false_r. repeat case_bool; (done || lia).
Qed.

Lemma compare_sign a b : 0 < compare_set_of_element a b <-> compare_set_of_element b a < 0.
Proof.
  revert b. induction a as [| x a IH]; intros [| y b]; try done. rewrite !compare_cons, (Z.eqb_sym (b2z y)).
  destruct (Z.eqb_spec (b2z x) (b2z y)); [apply IH | lia].
Qed.

Lemma lex_le_trans a b c : lex_le a b = true -> lex_le b c = true -> lex_le a c = true.
Proof.
  revert b c. induction a as [| x a IH]; intros [| y b] [| z c]; try done. cbn [lex_le].
  rewrite !orb_true_iff, !andb_true_iff, !Z.ltb_lt, !Z.eqb_eq. intros [H1 | [H1 H2]] [H3 | [H3 H4]]; [left; lia | left; lia | left; lia |].
  right. split; [lia | by eapply IH].
Qed.

(** What [qsort] requires of the function it is given: negative, zero or positive as a total order. *)
Definition consistent (cmp : CBS -> CBS -> Z) : Prop :=
  (forall a b, 0 < cmp a b <-> cmp b a < 0) /\ (forall a b c, cmp a b <= 0 -> cmp b c <= 0 -> cmp a c <= 0).

Lemma compare_consistent : consistent compare_set_of_element.
Proof.
  split; [apply compare_sign |]. intros a b c. rewrite <- !Z.leb_le, !compare_le. apply lex_le_trans.
Qed.

(** And what it does then. *)
Definition qsort_spec (qsort : (CBS -> CBS -> Z) -> list CBS -> list CBS) : Prop :=
  forall cmp l, consistent cmp -> qsort cmp l ≡ₚ l /\ Sorted (fun a b => cmp a b <= 0) (qsort cmp l).

(** ** Elements *)

Definition is_element (e : list byte) : Prop := exists tag body, der_ok tag body /\ e = der tag body.

Lemma element_length e : is_element e -> (1 <= length e)%nat.
Proof.
  intros (tag & body & _ & ->). unfold der. rewrite length_app. unfold der_tag. destruct (_ <? 31); cbn [length]; lia.
Qed.

Lemma get_element_iff s r s' :
  CBS_get_any_asn1_element s = (Done r, s') -> is_element r.1.1 /\ s = r.1.1 ++ s'.
Proof. destruct r as [[e tag] hl]. intros (body & Hok & -> & -> & _)%any_element_pub_iff. split; [by exists tag, body | done]. Qed.

Lemma get_element_run e s : is_element e -> exists tag hl, CBS_get_any_asn1_element (e ++ s) = (Done (e, tag, hl), s).
Proof. intros (tag & body & Hok & ->). do 2 eexists. apply any_element_pub_iff. eauto. Qed.

#[export] Instance get_element_total : Total CBS_get_any_asn1_element.
Proof. unfold CBS_get_any_asn1_element. apply _. Qed.

Lemma no_elements es : Forall is_element es -> [] = concat es -> es = [].
Proof. intros Hes E. destruct Hes as [| e es He _]; [done |]. pose proof (element_length e He). by destruct e; [cbn in *; lia |]. Qed.

(** Counting succeeds on a sequence of elements, and on nothing else. *)
Lemma count_children_iff fuel n s r s' :
  (length s <= fuel)%nat -> 0 <= n -> n + lenZ s < 2 ^ 64 ->
  count_children fuel n s = (Done r, s') <->
  exists es, Forall is_element es /\ s = concat es /\ s' = [] /\ r = n + Z.of_nat (length es).
Proof.
  assert (forall n, ((mret n : parser Z) [] = (Done r, s')) <->
    exists es, Forall is_element es /\ [] = concat es /\ s' = [] /\ r = n + Z.of_nat (length es)) as Hnil.
  { intros m. split; [intros [= <- <-]; exists []; cbn; repeat split; [constructor | lia] |].
    intros (es & Hes & E & -> & ->). rewrite (no_elements es Hes E). cbn. by rewrite Z.add_0_r. }
  revert n s. induction fuel as [| fuel IH]; intros n s Hf Hn Hs; [destruct s; [exact (Hnil n) | cbn in Hf; lia] |].
  cbn [count_children]. erewrite prog_bind_done by done. unfold CBS_len.
  destruct (Z.eqb_spec (lenZ s) 0) as [E0 | Hne]; [unfold lenZ in E0; destruct s; [exact (Hnil n) | cbn in E0; lia] |].
  rewrite prog_bind_iff. split.
  - intros (x & s1 & [He ->]%get_element_iff & E). pose proof (element_length _ He). rewrite length_app in Hf. rewrite lenZ_app in Hs.
    unfold lenZ in *. unfold wrap in E. rewrite Z.mod_small in E by lia. apply IH in E as (es & Hes & -> & -> & ->); [| lia | lia | unfold lenZ; lia].
    exists (x.1.1 :: es). repeat split; [by constructor | cbn [length]; lia].
  - intros (es & Hes & -> & -> & ->). destruct Hes as [| e es He Hes]; [done |]. cbn [concat] in *.
    destruct (get_element_run e (concat es) He) as (tag & hl & E). exists (e, tag, hl), (concat es). split; [exact E |].
    pose proof (element_length _ He). rewrite length_app in Hf. rewrite lenZ_app in Hs. unfold lenZ in *.
    unfold wrap. rewrite Z.mod_small by lia. apply IH; [lia | lia | unfold lenZ; lia |]. exists es. repeat split; [done |]. cbn [length]. lia.
Qed.

Lemma count_children_total fuel n : forall s, (length s <= fuel)%nat ->
  (count_children fuel n s).1 <> Stuck /\ (count_children fuel n s).1 <> NoFuel.
Proof.
  revert n. induction fuel as [| fuel IH]; intros n s Hf; cbn [count_children]; erewrite prog_bind_done by done; unfold CBS_len.
  { by destruct s; [| cbn in Hf; lia]. }
  destruct (lenZ s =? 0); [done |]. destruct (get_element_total s I) as (H1 & H2 & _). unfold mbind, prog_bind.
  destruct (CBS_get_any_asn1_element s) as [[x | | |] s1] eqn:E; try done. apply get_element_iff in E as [He ->].
  pose proof (element_length _ He). rewrite length_app in Hf. apply IH. lia.
Qed.

Lemma read_children_run es s : Forall is_element es -> read_children (length es) (concat es ++ s) = (Done es, s).
Proof.
  induction 1 as [| e es He _ IH]; [done |]. cbn [length read_children concat]. rewrite <- app_assoc.
  destruct (get_element_run e (concat es ++ s) He) as (tag & hl & E). erewrite prog_bind_done by exact E.
  by erewrite prog_bind_done by exact IH.
Qed.

Lemma concat_length es : Forall is_element es -> Z.of_nat (length es) <= lenZ (concat es).
Proof.
  induction 1 as [| e es He _ IH]; [done |]. cbn [concat length]. rewrite lenZ_app. pose proof (element_length e He). unfold lenZ in *. lia.
Qed.

(** ** The contents of the innermost CBB *)

Lemma layout_split k body a0 l :
  layout ((k, body) :: a0) l ->
  exists pre, l = pre ++ body /\ lenZ pre = size a0 + plen k /\ layout ((k, []) :: a0) pre.
Proof.
  intros Hl. inversion Hl as [b | k' b a outer ph Ho Hk Hp Hph]; subst.
  - exists []. split; [done |]. split; [done |]. constructor.
  - exists (outer ++ ph). rewrite <- app_assoc. split; [done |]. rewrite lenZ_app, (layout_size _ _ Ho), Hph. split; [done |].
    pose proof (layout_child k [] a0 outer ph Ho Hk Hp Hph) as Hc. by rewrite app_nil_r in Hc.
Qed.

(** The bytes of the innermost CBB, and the CBB without them. *)
Lemma rep_top s k body a0 :
  Rep s ((k, body) :: a0) ->
  chain s !! (length (chain s) - 1 - length a0)%nat = Some (mk_frame (size a0) (plen k) (is_asn1 k)) /\
  CBB_len (length a0) s = lenZ body /\ take (length body) (CBB_data (length a0) s) = body /\
  Rep (set_len (u64 (size a0 + plen k)) s) ((k, []) :: a0).
Proof.
  intros Hs. pose proof Hs as [He Hc Hl Hw Hch Hlay]. destruct (layout_split _ _ _ _ Hlay) as (pre & Ed & Hpre & Hlay').
  assert (chain s !! (length (chain s) - 1 - length a0)%nat = Some (mk_frame (size a0) (plen k) (is_asn1 k))) as Hf.
  { rewrite Hch. cbn [frames length]. rewrite length_frames. by replace (S (length a0) - 1 - length a0)%nat with 0%nat by lia. }
  assert (lenZ (data s) = len (base s)) as Hdl by (unfold data, lenZ in *; rewrite length_take; lia).
  rewrite Ed, lenZ_app in Hdl. assert (0 <= lenZ pre /\ 0 <= lenZ body) as [Hp0 Hb0] by (unfold lenZ; lia).
  assert (buf (base s) = pre ++ body ++ drop (Z.to_nat (len (base s))) (buf (base s))) as Hbuf.
  { rewrite app_assoc, <- Ed. unfold data. by rewrite take_drop. }
  split; [exact Hf |]. unfold CBB_len, CBB_data. rewrite Hf. cbn [offset pending_len_len]. rewrite <- Hpre. split; [| split].
  - replace (len (base s) - size a0 - plen k) with (lenZ body) by lia. unfold wrap. rewrite Z.mod_small; lia.
  - rewrite Hbuf. rewrite (drop_app_length' pre) by (unfold lenZ; lia). by rewrite take_app_length.
  - assert (u64 (lenZ pre) = lenZ pre) as -> by (unfold wrap; rewrite Z.mod_small; lia).
    split; cbn [base error cap len chain set_len set_base]; try done; [lia | ].
    unfold data. cbn [base len buf set_len set_base]. rewrite Hbuf, take_app_length' by (unfold lenZ; lia). exact Hlay'.
Qed.

Section Sort.
Variable malloc_ok : Z -> bool.
Variable uninit : byte.

Lemma implements_add_children d l :
  Forall (fun c => lenZ c < 2 ^ 64) l ->
  Implements malloc_ok (Top d) (add_children malloc_ok uninit d l) (append (concat l)).
Proof.
  induction 1 as [| c l Hc _ IH]; cbn [add_children concat]; [apply implements_append_ret |].
  apply implements_append_seq; [by apply implements_at_top, implements_add_bytes | intros _; exact IH].
Qed.

Variable qsort : (CBS -> CBS -> Z) -> list CBS -> list CBS.
Hypothesis qsort_sorts : qsort_spec qsort.

Lemma qsort_elements es :
  qsort compare_set_of_element es ≡ₚ es /\ Sorted (fun a b => lex_le a b = true) (qsort compare_set_of_element es).
Proof.
  destruct (qsort_sorts compare_set_of_element es compare_consistent) as [Hp Hs]. split; [done |].
  clear Hp. induction Hs as [| e l _ IH Hh]; constructor; [done |].
  destruct Hh as [| e' l Hle]; constructor. rewrite <- compare_le. by apply Z.leb_le.
Qed.

Lemma concat_lenZ_perm (es es' : list CBS) : es' ≡ₚ es -> lenZ (concat es') = lenZ (concat es).
Proof.
  induction 1 as [| e es es' _ IH | e1 e2 es | es1 es2 es3 _ IH1 _ IH2]; cbn [concat]; rewrite ?lenZ_app; lia.
Qed.

Lemma concat_le e (es : list CBS) : e ∈ es -> lenZ e <= lenZ (concat es).
Proof.
  induction 1 as [es | e e' es _ IH]; cbn [concat]; rewrite lenZ_app; unfold lenZ in *; lia.
Qed.

(** The sort, without the flush. *)
Lemma set_of_run s k body a0 :
  Rep s ((k, body) :: a0) ->
  match (CBB_flush_asn1_set_of malloc_ok uninit qsort (length a0)) s with
  | (Done _, s') =>
      exists es es', body = concat es /\ Forall is_element es /\ es' ≡ₚ es /\ Sorted (fun a b => lex_le a b = true) es' /\
        Rep s' ((k, concat es') :: a0)
  | (Failed, s') =>
      s' = s /\ forall es, body = concat es -> Forall is_element es -> lenZ body < 2 ^ 58 -> ~ memory malloc_ok
  | _ => False
  end.
Proof.
  intros Hs. unfold CBB_flush_asn1_set_of. erewrite prog_bind_done by (by eapply flush_top). erewrite prog_bind_done by done. cbv zeta.
  destruct (rep_top s k body a0 Hs) as (Hf & Hlen & Hdata & Hrew). rewrite Hlen.
  assert (Z.to_nat (lenZ body) = length body) as El by (unfold lenZ; lia). rewrite !El. unfold CBS_init. rewrite !Hdata. pose proof (rep_size s _ Hs) as Hsz. cbn [size] in Hsz. pose proof (size_nonneg a0) as Hs0.
  assert (0 <= plen k) as Hpk by (unfold plen; destruct k; lia).
  assert (lenZ body < 2 ^ 64) as Hb by (pose proof (rep_len _ _ Hs); pose proof (rep_word _ _ Hs); lia).
  destruct (count_children_total (length body) 0 body) as [Hc1 Hc2]; [lia |].
  assert (forall r s', count_children (length body) 0 body = (Done r, s') <->
    exists es, Forall is_element es /\ body = concat es /\ s' = [] /\ r = 0 + Z.of_nat (length es)) as Hiff.
  { intros r s'. apply count_children_iff; [lia | lia | lia]. }
  unfold mbind at 1, prog_bind at 1, in_cbs at 1. destruct (count_children (length body) 0 body) as [[n | | |] s'] eqn:Ec; cbn [fst] in *; try done.
  2: { split; [done |]. intros es E Hes. exfalso. destruct (Hiff (0 + Z.of_nat (length es)) []) as [_ Hr].
       discriminate Hr. by exists es. }
  destruct (proj1 (Hiff n s') eq_refl) as (es & Hes & -> & -> & ->). rewrite Z.add_0_l in *. clear Hiff Hc1 Hc2 Ec.
  destruct (Z.ltb_spec (Z.of_nat (length es)) 2) as [Hn2 | Hn2].
  { exists es, es. split; [done |]. split; [done |]. split; [done |]. split; [| done].
    destruct es as [| e1 [| e2 es]]; cbn [length] in Hn2; [constructor | by repeat constructor | lia]. }
  pose proof (concat_length es Hes) as Hcl.
  destruct (Z.ltb_spec (UINT64_MAX / sizeof_CBS) (Z.of_nat (length es))) as [Hbig |].
  { split; [done |]. intros es' _ _ Hsmall. exfalso. unfold UINT64_MAX, sizeof_CBS in Hbig.
    change ((2 ^ 64 - 1) / 16) with (2 ^ 60 - 1) in Hbig. lia. }
  pose proof (rep_len _ _ Hs) as Hbase. pose proof (rep_word _ _ Hs) as Hword.
  assert (0 < length (concat es))%nat as Hpos by (unfold lenZ in Hcl; lia).
  assert (length (concat es) <= length (CBB_data (length a0) s))%nat as Hdl.
  { rewrite <- Hdata at 1. rewrite length_take. lia. }
  assert (OPENSSL_memdup malloc_ok (CBB_data (length a0) s) (length (concat es)) =
    if negb (OPENSSL_malloc malloc_ok (lenZ (concat es))) then Some None else Some (Some (concat es))) as ->.
  { unfold OPENSSL_memdup. destruct (Nat.eqb_spec (length (concat es)) 0); [lia |]. unfold lenZ at 1.
    destruct (negb _); [done |]. rewrite (proj2 (Nat.leb_le _ _)) by done. by rewrite Hdata. }
  assert (memory malloc_ok -> lenZ (concat es) < 2 ^ 58 ->
    OPENSSL_malloc malloc_ok (lenZ (concat es)) = true /\ OPENSSL_malloc malloc_ok (Z.of_nat (length es) * sizeof_CBS) = true) as Hmalloc.
  { intros Hm Hsmall. assert (forall n, 0 <= n < 2 ^ 62 -> OPENSSL_malloc malloc_ok n = true) as Hn.
    { intros n Hn. unfold OPENSSL_malloc, OPENSSL_MALLOC_PREFIX, wrap. rewrite Z.mod_small by lia.
      destruct (Z.ltb_spec (n + 8) n); [lia |]. apply Hm. lia. }
    split; apply Hn; unfold sizeof_CBS, lenZ in *; lia. }
  destruct (OPENSSL_malloc malloc_ok (lenZ (concat es))); cbn [negb].
  2: { split; [done |]. intros es' _ _ Hsmall Hm. by destruct (Hmalloc Hm Hsmall). }
  destruct (OPENSSL_malloc malloc_ok (Z.of_nat (length es) * sizeof_CBS)); cbn [negb].
  2: { split; [done |]. intros es' _ _ Hsmall Hm. by destruct (Hmalloc Hm Hsmall). }
  rewrite Nat2Z.id, take_ge by lia.
  pose proof (read_children_run es [] Hes) as Hread. rewrite app_nil_r in Hread.
  erewrite prog_bind_done by (unfold in_cbs; rewrite Hread; reflexivity). cbn [fst]. rewrite Hf. cbn [offset pending_len_len].
  erewrite prog_bind_done by done. destruct (qsort_elements es) as [Hperm Hsorted]. set (es' := qsort compare_set_of_element es) in *.
  pose proof (concat_lenZ_perm es es' Hperm) as Hcz.
  assert (Forall (fun c => lenZ c < 2 ^ 64) es') as Hsmall.
  { apply Forall_forall. intros e He. assert (lenZ e <= lenZ (concat es')) by (by apply concat_le). lia. }
  pose proof (implements_add_children (length a0) es' Hsmall _ _ Hrew eq_refl) as Hadd. unfold mbind at 1, prog_bind at 1.
  assert (forall a', append (concat es') ((k, []) :: a0) = Some a' -> a' = (k, concat es') :: a0) as Happ by (by intros a' [= <-]).
  destruct (add_children _ _ _ _ _) as [[x | | |] s2]; try done.
  - destruct Hadd as (a' & ->%Happ & Hs2 & _). erewrite prog_bind_done by done.
    destruct (rep_top s2 k (concat es') a0 Hs2) as (_ & -> & _). rewrite Hcz, Z.eqb_refl. exists es, es'. done.
  - exfalso. destruct Hadd as [_ [E | (a' & ->%Happ & Hr)]]; [done |]. apply Hr. left. cbn [base cap set_len set_base]. cbn [size]. lia.
Qed.
End Sort.

(** ** Properties *)

(** C31: [CBB_flush_asn1_set_of] sorts a SET OF in place.  After the children of any CBB of
    a chain are flushed, its contents, if they are a sequence of DER elements, become
    the same elements in dictionary order (the order of DER), in the same bytes of the
    buffer, and nothing else changes.  The comparison it gives to [qsort] is a total
    order, as [qsort] requires.  It fails only when the flush fails, the contents are not DER
    elements, or memory is short, and then leaves the contents as they were. *)
Theorem set_of_sorted (malloc_ok : Z -> bool) (uninit : byte) (qsort : (CBS -> CBS -> Z) -> list CBS -> list CBS)
    (d : nat) (s : cbb_st) (a : contents) :
  qsort_spec qsort -> Rep s a -> Live d a ->
  match CBB_flush_asn1_set_of malloc_ok uninit qsort d s with
  | (Done _, s') =>
      exists k a0 es es', flush d a = Some ((k, concat es) :: a0) /\ Forall is_element es /\ es' ≡ₚ es /\
        Sorted (fun e1 e2 => lex_le e1 e2 = true) es' /\ Rep s' ((k, concat es') :: a0)
  | (Failed, s') =>
      (flush d a = None \/ exists a', flush d a = Some a' /\ (~ room malloc_ok s (size a') \/ Rep s' a')) /\
      forall k a0 es, flush d a = Some ((k, concat es) :: a0) -> Forall is_element es ->
        memory malloc_ok -> can_resize (base s) = true -> size ((k, concat es) :: a0) < 2 ^ 58 -> False
  | _ => False
  end.
Proof.
  intros Hq Hs Ha. pose proof (implements_flush malloc_ok uninit d s a Hs Ha) as Hf.
  assert (forall A (m : builder A), (_ ← CBB_flush malloc_ok uninit d; m) s =
    match CBB_flush malloc_ok uninit d s with
    | (Done _, s1) => m s1 | (Failed, s1) => (Failed, s1) | (Stuck, s1) => (Stuck, s1) | (NoFuel, s1) => (NoFuel, s1)
    end) as Hbind by done.
  destruct (CBB_flush malloc_ok uninit d s) as [[x | | |] s1] eqn:E; try done.
  - destruct Hf as (a1 & E1 & Hs1 & Hg). assert (Top d a1) as Ha1 by (by eapply flush_length).
    assert (CBB_flush_asn1_set_of malloc_ok uninit qsort d s = CBB_flush_asn1_set_of malloc_ok uninit qsort d s1) as ->.
    { unfold CBB_flush_asn1_set_of. rewrite Hbind. symmetry. by erewrite prog_bind_done by (by eapply flush_top). }
    destruct a1 as [| [k body] a0]; [done |]. assert (d = length a0) as -> by (unfold Top in Ha1; cbn in Ha1; lia).
    pose proof (set_of_run malloc_ok uninit qsort Hq s1 k body a0 Hs1) as Hrun. rewrite E1.
    destruct (CBB_flush_asn1_set_of _ _ _ _ _) as [[y | | |] s2]; try done.
    + destruct Hrun as (es & es' & -> & Hes & Hp & Hso & Hs2). exists k, a0, es, es'. done.
    + destruct Hrun as [-> Hno]. split; [right; eexists; split; [done | by right] |].
      intros k' a0' es [= <- -> <-] Hes Hm _ Hsz. apply (Hno es); [done | done | | done].
      cbn [size] in Hsz. pose proof (size_nonneg a0). assert (0 <= plen k) by (unfold plen; destruct k; lia). lia.
  - assert (CBB_flush_asn1_set_of malloc_ok uninit qsort d s = (Failed, s1)) as ->.
    { unfold CBB_flush_asn1_set_of. by rewrite Hbind. }
    destruct Hf as [_ [E1 | (a1 & E1 & Hr)]]; rewrite E1; (split; [| intros k a0 es Ea Hes Hm Hc Hsz]).
    + by left.
    + done.
    + right. exists a1. split; [done | by left].
    + injection Ea as ->. apply Hr. right. split_and!; [done | done | lia].
Qed.

(** A sort that does what [qsort] must. *)
Definition below (cmp : CBS -> CBS -> Z) (a b : CBS) : Prop := cmp a b <= 0.

#[export] Instance below_dec cmp a b : Decision (below cmp a b).
Proof. unfold below. apply _. Defined.

Definition sort_by (cmp : CBS -> CBS -> Z) (l : list CBS) : list CBS := merge_sort (below cmp) l.

Lemma sort_by_spec : qsort_spec sort_by.
Proof.
  intros cmp l [Hsign Htrans]. split; [apply merge_sort_Permutation |]. assert (base.Total (below cmp)) as Htotal; [| by apply (Sorted_merge_sort (below cmp))].
  intros a b. unfold below. destruct (Z_le_gt_dec (cmp a b) 0); [by left | right]. assert (0 < cmp a b) as H%Hsign by lia. lia.
Qed.

(** A SET OF with INTEGERs 2 and 1, in a CBB. *)
Definition sample_set : cbb_st :=
  mk_cbb (mk_buffer ([x02; x01; x02; x02; x01; x01] ++ repeat x00 10) 6 16 true false) [root_frame].

Lemma set_of_sorted_witness :
  (CBB_flush_asn1_set_of (fun _ => true) x00 sort_by 0 sample_set).1 = Done tt /\
  take 6 (buf (base (CBB_flush_asn1_set_of (fun _ => true) x00 sort_by 0 sample_set).2)) = [x02; x01; x01; x02; x01; x02] /\
  match CBB_flush_asn1_set_of (fun _ => true) x00 sort_by 0 sample_set with
  | (Done _, s') =>
      exists k a0 es es', flush 0 [(KRoot, [x02; x01; x02; x02; x01; x01])] = Some ((k, concat es) :: a0) /\
        Forall is_element es /\ es' ≡ₚ es /\ Sorted (fun e1 e2 => lex_le e1 e2 = true) es' /\ Rep s' ((k, concat es') :: a0)
  | (Failed, s') =>
      (flush 0 [(KRoot, [x02; x01; x02; x02; x01; x01])] = None \/
       exists a', flush 0 [(KRoot, [x02; x01; x02; x02; x01; x01])] = Some a' /\
         (~ room (fun _ => true) sample_set (size a') \/ Rep s' a')) /\
      forall k a0 es, flush 0 [(KRoot, [x02; x01; x02; x02; x01; x01])] = Some ((k, concat es) :: a0) -> Forall is_element es ->
        memory (fun _ => true) -> can_resize (base sample_set) = true -> size ((k, concat es) :: a0) < 2 ^ 58 -> False
  | _ => False
  end.
Proof.
  split; [by vm_compute |]. split; [by vm_compute |].
  apply (set_of_sorted (fun _ => true) x00 sort_by 0 sample_set [(KRoot, [x02; x01; x02; x02; x01; x01])]).
  - apply sort_by_spec.
  - split; [done | by vm_compute | by vm_compute | by vm_compute | done |]. apply layout_root.
  - unfold Live. cbn. lia.
Defined.
