(* ===== verification/Ber.v ===== *)
(** * BER to DER

    [crypto/bytestring/ber.c]: the search for BER forms, the conversion of a BER
    structure to DER through a CBB, and implicitly-tagged strings.  The conversion
    reads a [CBS] and writes a [CBB]: its state has both. *)

From S2P Require Import Prelude Crypto Cbs CbsAsn1 Cbb CbbSpec CbbProps.

Definition CBS_ASN1_UTF8STRING : Z := 12.
Definition CBS_ASN1_NUMERICSTRING : Z := 18.
Definition CBS_ASN1_PRINTABLESTRING : Z := 19.
Definition CBS_ASN1_T61STRING : Z := 20.
Definition CBS_ASN1_VIDEOTEXSTRING : Z := 21.
Definition CBS_ASN1_IA5STRING : Z := 22.
Definition CBS_ASN1_GRAPHICSTRING : Z := 25.
Definition CBS_ASN1_VISIBLESTRING : Z := 26.
Definition CBS_ASN1_GENERALSTRING : Z := 27.
Definition CBS_ASN1_UNIVERSALSTRING : Z := 28.
Definition CBS_ASN1_BMPSTRING : Z := 30.

Definition kMaxDepth : Z := 2048.

Definition is_constructed (tag : Z) : bool := negb (tag .& CBS_ASN1_CONSTRUCTED =? 0).

(** [tag & ~CBS_ASN1_CONSTRUCTED]. *)
Definition primitive (tag : Z) : Z := Z.ldiff tag CBS_ASN1_CONSTRUCTED.

Definition is_string_type (tag : Z) : bool :=
  bool_decide (primitive tag ∈
    [CBS_ASN1_OCTETSTRING; CBS_ASN1_UTF8STRING; CBS_ASN1_NUMERICSTRING; CBS_ASN1_PRINTABLESTRING;
     CBS_ASN1_T61STRING; CBS_ASN1_VIDEOTEXSTRING; CBS_ASN1_IA5STRING; CBS_ASN1_GRAPHICSTRING;
     CBS_ASN1_VISIBLESTRING; CBS_ASN1_GENERALSTRING; CBS_ASN1_UNIVERSALSTRING; CBS_ASN1_BMPSTRING]).

(** ** The search *)

(** The state is the copy [in]; the result is [*ber_found].  [found] is its value when
    the [while] loop is tested. *)
Fixpoint find_ber_loop (fuel : nat) (found : bool) (depth : Z) : parser bool :=
  cbs ← getS;
  if CBS_len cbs =? 0 then mret found else
  match fuel with
  | O => nofuel
  | S fuel =>
      r ← CBS_get_any_ber_asn1_element;
      let '(contents, tag, header_len, found) := r in
      if found : bool then mret true else
      if is_constructed tag then
        if is_string_type tag then mret true else
        c ← on contents (CBS_skip header_len);
        if kMaxDepth <? depth + 1 then fail else
        r ← on c.2 (find_ber_loop fuel false (depth + 1));
        find_ber_loop fuel r.1 depth
      else find_ber_loop fuel false depth
  end.

Definition cbs_find_ber (orig_in : CBS) (depth : Z) : parser bool :=
  if kMaxDepth <? depth then fail else
  r ← on (CBS_init (CBS_data orig_in) (length orig_in)) (find_ber_loop (length orig_in) false depth);
  mret r.1.

Definition is_eoc (header_len : Z) (contents : CBS) : bool :=
  (header_len =? 2) && (CBS_len contents =? 2) && bool_decide (CBS_data contents = [x00; x00]).

(** ** The conversion *)

(** [*in] and the CBB. *)
Record conv := mk_conv { c_in : CBS; c_out : cbb_st }.

Abbreviation converter A := (prog conv A).

Definition on_in {A} (m : parser A) : converter A := fun c =>
  let '(r, i) := m (c_in c) in (r, mk_conv i (c_out c)).
Definition on_out {A} (m : builder A) : converter A := fun c =>
  let '(r, o) := m (c_out c) in (r, mk_conv (c_in c) o).

(** [m] reads [contents] instead. *)
Definition with_in {A} (contents : CBS) (m : converter A) : converter A := fun c =>
  let '(r, c') := m (mk_conv contents (c_out c)) in (r, mk_conv (c_in c) (c_out c')).

Section Convert.
Variable malloc_ok : Z -> bool.
Variable uninit : byte.

Section Element.
(** The recursive calls. *)
Variable cbs_convert_ber : nat -> Z -> bool -> Z -> converter unit.

(** The contents of an element, written to the CBB at depth [out_contents]. *)
Definition convert_contents (out_contents : nat) (child_string_tag depth : Z) (contents : CBS) (tag header_len : Z)
    : converter unit :=
  if (CBS_len contents =? header_len) && (0 <? header_len)
     && bool_decide (b2z <$> CBS_data contents !! Z.to_nat (header_len - 1) = Some 128)
  then cbs_convert_ber out_contents child_string_tag true (depth + 1)
  else
    body ← on_in (on contents (CBS_skip header_len));
    if is_constructed tag
    then with_in body.2 (cbs_convert_ber out_contents child_string_tag false (depth + 1))
    else on_out (CBB_add_bytes malloc_ok uninit out_contents (CBS_data body.2)).

(** An element, written to the CBB at depth [d]. *)
Definition convert_element (d : nat) (string_tag depth : Z) (contents : CBS) (tag header_len : Z) : converter unit :=
  if negb (string_tag =? 0) then
    if negb (primitive tag =? string_tag) then fail else
    _ ← convert_contents d string_tag depth contents tag header_len;
    on_out (CBB_flush malloc_ok uninit d)
  else
    let constructed_string := is_constructed tag && is_string_type tag in
    let out_tag := if constructed_string then primitive tag else tag in
    let child_string_tag := if constructed_string then out_tag else string_tag in
    _ ← on_out (CBB_add_asn1 malloc_ok uninit d out_tag);
    _ ← convert_contents (S d) child_string_tag depth contents tag header_len;
    on_out (CBB_flush malloc_ok uninit d).
End Element.

(** The [while] loop of [cbs_convert_ber], where [out] is the CBB at depth [d]. *)
Fixpoint convert_loop (fuel : nat) (d : nat) (string_tag : Z) (looking_for_eoc : bool) (depth : Z) : converter unit :=
  c ← getS;
  if CBS_len (c_in c) =? 0 then (if looking_for_eoc then fail else mret tt) else
  match fuel with
  | O => nofuel
  | S fuel =>
      let cbs_convert_ber d string_tag looking_for_eoc depth :=
        if is_constructed string_tag then stuck else
        if kMaxDepth <? depth then fail else convert_loop fuel d string_tag looking_for_eoc depth in
      r ← on_in CBS_get_any_ber_asn1_element;
      let '(contents, tag, header_len, _) := r in
      if is_eoc header_len contents then (if looking_for_eoc then mret tt else fail) else
      _ ← convert_element cbs_convert_ber d string_tag depth contents tag header_len;
      convert_loop fuel d string_tag looking_for_eoc depth
  end.

Definition cbs_convert_ber (d : nat) (string_tag : Z) (looking_for_eoc : bool) (depth : Z) : converter unit :=
  c ← getS;
  if is_constructed string_tag then stuck else
  if kMaxDepth <? depth then fail else
  convert_loop (length (c_in c)) d string_tag looking_for_eoc depth.

(** Runs [m] on the input with a fresh CBB, and hands over what was written. *)
Definition finish_into (m : converter unit) (cbb : cbb_st) : parser CBS := fun cbs =>
  match (_ ← m; on_out (CBB_finish malloc_ok uninit 0)) (mk_conv cbs cbb) with
  | (Done (data, len), c) => (Done (take (Z.to_nat len) data), c_in c)
  | (Failed, c) => (Failed, c_in c)
  | (Stuck, c) => (Stuck, c_in c)
  | (NoFuel, c) => (NoFuel, c_in c)
  end.

(** On [*in]; the result is [*out] and whether [*out_storage] is set. *)
Definition CBS_asn1_ber_to_der : parser (CBS * bool) :=
  cbs ← getS;
  conversion_needed ← cbs_find_ber cbs 0;
  if negb conversion_needed then
    r ← CBS_get_any_asn1_element;
    mret (r.1.1, false)
  else
    match CBB_init malloc_ok uninit (CBS_len cbs) with
    | None => fail
    | Some cbb => out ← finish_into (cbs_convert_ber 0 0 false 0) cbb; mret (out, true)
    end.

(** [while (CBS_len(&child) > 0)] of [CBS_get_asn1_implicit_string]. *)
Fixpoint implicit_loop (fuel : nat) (inner_tag : Z) : converter unit :=
  c ← getS;
  if CBS_len (c_in c) =? 0 then mret tt else
  match fuel with
  | O => nofuel
  | S fuel =>
      chunk ← on_in (CBS_get_asn1 inner_tag);
      _ ← on_out (CBB_add_bytes malloc_ok uninit 0 (CBS_data chunk));
      implicit_loop fuel inner_tag
  end.

Definition CBS_get_asn1_implicit_string (outer_tag inner_tag : Z) : parser (CBS * bool) :=
  if is_constructed outer_tag || is_constructed inner_tag || negb (is_string_type inner_tag) then stuck else
  cbs ← getS;
  if CBS_peek_asn1_tag cbs outer_tag then out ← CBS_get_asn1 outer_tag; mret (out, false) else
  match CBB_init malloc_ok uninit (CBS_len cbs) with
  | None => fail
  | Some result =>
      child ← CBS_get_asn1 (outer_tag .| CBS_ASN1_CONSTRUCTED);
      out ← on child (finish_into (implicit_loop (length child) inner_tag) result);
      mret (out.1, true)
  end.
End Convert.
