(* ===== verification/BerProps.v ===== *)
(** * BER to DER: correctness of the conversion

    A BER value is a tree ([ber]) with the choices its encoding made: the form of each
    length, definite or not, and how strings are cut in pieces.  [enc] is its encoding
    and [der_of] the DER encoding of the same value. *)

From S2P Require Import Prelude Crypto Cbs CbsAsn1 Cbb CbbSpec CbbProps Ber.

(** ** BER values *)

(** A length in one byte, or in [k] bytes after a count. *)
Inductive len_form : Type :=
  | Short
  | Long (k : nat).

(** The length of a constructed value is definite, or ([None]) an end mark follows. *)
Inductive ber : Type :=
  | Prim (tag : Z) (f : len_form) (body : list byte)
  | Cons (tag : Z) (f : option len_form) (children : list ber).

Definition ber_len (f : len_form) (n : Z) : list byte :=
  match f with Short => [z2b n] | Long k => z2b (128 + Z.of_nat k) :: be_bytes k n end.

Definition len_ok (f : len_form) (n : Z) : bool :=
  match f with
  | Short => n <? 128
  | Long k => (Nat.leb 1 k && Nat.leb k 4) && (n <? 256 ^ Z.of_nat k)
  end.

(** The form DER uses. *)
Definition minimal (f : len_form) (n : Z) : bool :=
  match f with Short => true | Long k => (128 <=? n) && (256 ^ (Z.of_nat k - 1) <=? n) end.

Definition EOC : list byte := [x00; x00].

Fixpoint enc (t : ber) : list byte :=
  match t with
  | Prim tag f body => der_tag tag ++ ber_len f (lenZ body) ++ body
  | Cons tag (Some f) l => der_tag tag ++ ber_len f (lenZ (flat_map enc l)) ++ flat_map enc l
  | Cons tag None l => der_tag tag ++ [x80] ++ flat_map enc l ++ EOC
  end.

(** The tag of the pieces of a string, 0 outside strings. *)
Definition child_string (string_tag tag : Z) : Z :=
  if string_tag =? 0 then if is_string_type tag then primitive tag else 0 else string_tag.

Definition tag_ok (string_tag tag : Z) : bool :=
  ((0 <=? tag) && (tag <? 2 ^ 32)) && ((string_tag =? 0) || (primitive tag =? string_tag)).

(** Values that have an encoding: tags are 32-bit, with the constructed bit where it
    belongs, lengths have the form they say, the pieces of a string have its tag, and
    no primitive value looks like an end mark. *)
Fixpoint wf (string_tag : Z) (t : ber) : bool :=
  match t with
  | Prim tag f body =>
      tag_ok string_tag tag && negb (is_constructed tag) && len_ok f (lenZ body) && negb (bool_decide (enc t = EOC))
  | Cons tag f l =>
      tag_ok string_tag tag && is_constructed tag
      && match f with Some f => len_ok f (lenZ (flat_map enc l)) | None => true end
      && forallb (wf (child_string string_tag tag)) l
  end.

Fixpoint height (t : ber) : nat :=
  match t with
  | Prim _ _ _ => 0
  | Cons _ _ l => S (list_max (map height l))
  end.

Fixpoint der_of (string_tag : Z) (t : ber) : list byte :=
  match t with
  | Prim tag _ body => if string_tag =? 0 then der tag body else body
  | Cons tag _ l =>
      let body := flat_map (der_of (child_string string_tag tag)) l in
      if string_tag =? 0 then der (if is_string_type tag then primitive tag else tag) body else body
  end.

(** ** Reading an element *)

Lemma lenZ_cons b (l : list byte) : lenZ (b :: l) = 1 + lenZ l.
Proof. unfold lenZ. cbn [length]. lia. Qed.

Lemma lenZ_ber_len f n : len_ok f n = true -> 1 <= lenZ (ber_len f n) <= 5.
Proof.
  destruct f as [| k]; cbn [len_ok ber_len]; [done |].
  rewrite !andb_true_iff, !Nat.leb_le. intros [[? ?] _]. rewrite lenZ_cons. unfold lenZ. rewrite length_be_bytes. lia.
Qed.

Lemma len_ok_word f n : len_ok f n = true -> n < 2 ^ 32.
Proof.
  destruct f as [| k]; cbn [len_ok].
  - rewrite Z.ltb_lt. lia.
  - rewrite !andb_true_iff, !Nat.leb_le, Z.ltb_lt. intros [[H1 H2] H3]. eapply Z.lt_le_trans; [exact H3 |].
    change (2 ^ 32) with (256 ^ 4). apply Z.pow_le_mono_r; lia.
Qed.

Lemma header_len_word tag b t :
  0 <= tag < 2 ^ 32 -> u64 (lenZ (der_tag tag ++ b :: t) - CBS_len t) = lenZ (der_tag tag) + 1.
Proof.
  intros Ht. pose proof (der_tag_length tag Ht). unfold CBS_len. rewrite lenZ_app, lenZ_cons, wrap_small; lia.
Qed.

Lemma ber_header_run tag f n s1 :
  0 <= tag < 2 ^ 32 -> 0 <= n -> len_ok f n = true ->
  let hl := lenZ (der_tag tag) + lenZ (ber_len f n) in
  asn1_header_parse true (lenZ (der_tag tag ++ ber_len f n ++ s1)) (der_tag tag ++ ber_len f n ++ s1)
  = (Done (mk_header tag (hl + n) hl (negb (minimal f n))), s1).
Proof.
  intros Htag Hn Hf hl. pose proof (der_tag_length tag Htag) as Hlt. pose proof (len_ok_word _ _ Hf) as Hw.
  unfold hl, asn1_header_parse. erewrite prog_bind_done by apply (inverts_run parse_asn1_tag der_tag _ tag _ Htag).
  destruct f as [| k]; cbn [ber_len len_ok minimal negb] in *.
  - apply Z.ltb_lt in Hf. cbn [app]. erewrite prog_bind_done by (apply get_u8_z2b; lia).
    erewrite prog_bind_done by done. cbv zeta. rewrite header_len_word, land_80, (proj2 (Z.ltb_lt n 128)) by lia.
    unfold mret, prog_ret. change (lenZ [z2b n]) with 1. cbn [Z.eqb]. do 3 f_equal. rewrite wrap_small; lia.
  - rewrite !andb_true_iff, !Nat.leb_le, Z.ltb_lt in Hf. destruct Hf as [Hk Hnk].
    rewrite lenZ_cons. assert (lenZ (be_bytes k n) = Z.of_nat k) as -> by (unfold lenZ; by rewrite length_be_bytes).
    cbn [app]. erewrite prog_bind_done by (apply get_u8_z2b; lia). erewrite prog_bind_done by done. cbv zeta.
    rewrite header_len_word, land_80, land_7f, (proj2 (Z.ltb_ge (128 + Z.of_nat k) 128)) by lia. cbn [Z.eqb].
    replace ((128 + Z.of_nat k) mod 128) with (Z.of_nat k) by dlia.
    rewrite (proj2 (Z.eqb_neq (Z.of_nat k) 0)), (proj2 (Z.ltb_ge 4 (Z.of_nat k))), andb_false_r by lia. cbn [orb].
    assert (TCEq (Nat.leb k 8) true) as Hk8 by by (apply TCEq_eq, Nat.leb_le; lia).
    erewrite prog_bind_done by (by apply (inverts_run (cbs_get_u (Z.of_nat k)) (be_bytes k) _ n s1)).
    rewrite !andb_false_r, long_form_guard by lia. rewrite !(wrap_small 64) by lia.
    rewrite (proj2 (Z.ltb_ge _ n)) by lia. unfold mret, prog_ret. do 2 f_equal.
    rewrite negb_andb, <- Z.ltb_antisym, <- Z.ltb_antisym. f_equal; lia.
Qed.

Lemma indefinite_header_run tag s1 :
  0 <= tag < 2 ^ 32 -> is_constructed tag = true ->
  let hl := lenZ (der_tag tag) + 1 in
  asn1_header_parse true (lenZ (der_tag tag ++ x80 :: s1)) (der_tag tag ++ x80 :: s1) = (Done (mk_header tag hl hl true), s1).
Proof.
  intros Htag Hc hl. unfold asn1_header_parse.
  erewrite prog_bind_done by apply (inverts_run parse_asn1_tag der_tag _ tag _ Htag).
  change x80 with (z2b 128). erewrite prog_bind_done by (apply get_u8_z2b; lia).
  erewrite prog_bind_done by done. cbv zeta. rewrite header_len_word by done. unfold is_constructed in Hc.
  change (128 .& 128 =? 0) with false. change (128 .& 127) with 0. by rewrite Hc.
Qed.

(** An element of definite length, and the header of one that is not. *)
Lemma ber_element_run tag f body rest :
  0 <= tag < 2 ^ 32 -> len_ok f (lenZ body) = true ->
  let hd := der_tag tag ++ ber_len f (lenZ body) in
  CBS_get_any_ber_asn1_element (der_tag tag ++ ber_len f (lenZ body) ++ body ++ rest)
  = (Done (hd ++ body, tag, lenZ hd, negb (minimal f (lenZ body))), rest).
Proof.
  intros Htag Hf hd. unfold CBS_get_any_ber_asn1_element, cbs_get_any_asn1_element.
  assert (0 <= lenZ body) as H0 by (unfold lenZ; lia).
  rewrite prog_bind_assoc. erewrite prog_bind_done by done. rewrite prog_bind_assoc. erewrite prog_bind_done.
  2: { unfold on_copy, CBS_len. by rewrite (ber_header_run tag f (lenZ body) (body ++ rest) Htag H0 Hf). }
  cbn [h_len]. rewrite prog_bind_assoc, <- lenZ_app, <- lenZ_app. fold hd. erewrite prog_bind_done.
  2: { apply (cbs_get_inverts (lenZ (hd ++ body))); [unfold lenZ; lia |]. split; [done |]. unfold hd, id.
       by rewrite <- !app_assoc. }
  done.
Qed.

Lemma indefinite_element_run tag rest :
  0 <= tag < 2 ^ 32 -> is_constructed tag = true ->
  let hd := der_tag tag ++ [x80] in
  CBS_get_any_ber_asn1_element (der_tag tag ++ x80 :: rest) = (Done (hd, tag, lenZ hd, true), rest).
Proof.
  intros Htag Hc hd. unfold CBS_get_any_ber_asn1_element, cbs_get_any_asn1_element.
  rewrite prog_bind_assoc. erewrite prog_bind_done by done. rewrite prog_bind_assoc. erewrite prog_bind_done.
  2: { unfold on_copy, CBS_len. by rewrite (indefinite_header_run tag rest Htag Hc). }
  cbn [h_len]. assert (lenZ (der_tag tag) + 1 = lenZ hd) as -> by (unfold hd; by rewrite lenZ_app).
  rewrite prog_bind_assoc. erewrite prog_bind_done.
  2: { apply (cbs_get_inverts (lenZ hd)); [unfold lenZ; lia |]. split; [done |]. unfold hd, id. by rewrite <- app_assoc. }
  done.
Qed.

(** ** The search *)

(** The element itself is not as DER would write it. *)
Definition head_ber (t : ber) : bool :=
  match t with
  | Prim _ f body => negb (minimal f (lenZ body))
  | Cons _ None _ => true
  | Cons tag (Some f) l => negb (minimal f (lenZ (flat_map enc l))) || is_string_type tag
  end.

(** Some element is. *)
Fixpoint has_ber (t : ber) : bool :=
  head_ber t || match t with Prim _ _ _ => false | Cons _ _ l => existsb has_ber l end.

(** What the loop of [cbs_find_ber] answers on a list, where [nested] answers for what
    is inside an element. *)
Definition search (nested : ber -> bool) : bool -> list ber -> bool :=
  fix go found l :=
    match l with
    | [] => found
    | t :: l => if head_ber t then true else go (nested t) l
    end.

Fixpoint nested (t : ber) : bool :=
  match t with
  | Prim _ _ _ => false
  | Cons _ _ l => search nested false l
  end.

Lemma tag_ok_spec st tag :
  tag_ok st tag = true <-> 0 <= tag < 2 ^ 32 /\ (st = 0 \/ primitive tag = st).
Proof. unfold tag_ok. rewrite !andb_true_iff, orb_true_iff, Z.leb_le, Z.ltb_lt, !Z.eqb_eq. lia. Qed.

Lemma wf_prim st tag f body :
  wf st (Prim tag f body) = true -> 0 <= tag < 2 ^ 32 /\ (st = 0 \/ primitive tag = st) /\
    is_constructed tag = false /\ len_ok f (lenZ body) = true /\ enc (Prim tag f body) <> EOC.
Proof.
  cbn [wf]. rewrite !andb_true_iff, tag_ok_spec, !negb_true_iff, bool_decide_eq_false. tauto.
Qed.

Lemma wf_cons st tag f l :
  wf st (Cons tag f l) = true -> 0 <= tag < 2 ^ 32 /\ (st = 0 \/ primitive tag = st) /\ is_constructed tag = true /\
    (forall f', f = Some f' -> len_ok f' (lenZ (flat_map enc l)) = true) /\
    forallb (wf (child_string st tag)) l = true.
Proof.
  cbn [wf]. rewrite !andb_true_iff, tag_ok_spec. intros [[[[? ?] ?] Hf] ?].
  do 4 (split; [first [done | by intros f' ->] |]). done.
Qed.

Definition heights (l : list ber) : Z := Z.of_nat (list_max (map height l)).

Lemma heights_cons t l : heights (t :: l) = Z.max (Z.of_nat (height t)) (heights l).
Proof. unfold heights. cbn [map list_max foldr]. unfold list_max at 1. cbn [foldr]. fold (list_max (map height l)). lia. Qed.

Lemma heights_nonneg l : 0 <= heights l.
Proof. unfold heights. lia. Qed.

Lemma height_children tag f l : Z.of_nat (height (Cons tag f l)) = 1 + heights l.
Proof. unfold heights. cbn [height]. lia. Qed.

(** The encoding of a value of definite length. *)
Lemma enc_definite t st :
  wf st t = true -> match t with Cons _ None _ => False | _ => True end ->
  exists tag f body, 0 <= tag < 2 ^ 32 /\ len_ok f (lenZ body) = true /\ enc t = der_tag tag ++ ber_len f (lenZ body) ++ body /\
    match t with
    | Prim tag' f' body' => tag' = tag /\ f' = f /\ body' = body
    | Cons tag' f' l => tag' = tag /\ f' = Some f /\ body = flat_map enc l
    end.
Proof.
  destruct t as [tag f body | tag [f |] l]; intros Hw Hd; [| | done].
  - apply wf_prim in Hw as (? & _ & _ & ? & _). by exists tag, f, body.
  - apply wf_cons in Hw as (? & _ & _ & Hf & _). exists tag, f, (flat_map enc l). split; [done |].
    split; [by apply Hf | done].
Qed.

Lemma skip_run (hd body : CBS) s : on (hd ++ body) (CBS_skip (lenZ hd)) s = (Done (tt, body), s).
Proof.
  unfold on, CBS_skip. erewrite prog_bind_done; [done |].
  apply (cbs_get_inverts (lenZ hd)); [unfold lenZ; lia | by split].
Qed.

Lemma enc_length t st : wf st t = true -> 2 <= lenZ (enc t).
Proof.
  intros Hw. assert (match t with Cons tag None _ => 0 <= tag < 2 ^ 32 | _ => True end) as Ht
    by (destruct t as [| tag [|] l]; [done | done | by apply wf_cons in Hw as [? _]]).
  destruct t as [tag f body | tag [f |] l].
  3: { cbn [enc]. rewrite !lenZ_app. pose proof (der_tag_length tag Ht). change (lenZ [x80]) with 1.
       change (lenZ EOC) with 2. unfold lenZ. lia. }
  all: destruct (enc_definite _ st Hw I) as (tag' & f' & b & Hr & Hf & -> & _); rewrite !lenZ_app;
    pose proof (der_tag_length tag' Hr); pose proof (lenZ_ber_len _ _ Hf); unfold lenZ in *; lia.
Qed.

Lemma find_ber_run fuel l prev depth :
  forallb (wf 0) l = true -> (length (flat_map enc l) <= fuel)%nat -> depth + heights l <= kMaxDepth ->
  exists s', find_ber_loop fuel prev depth (flat_map enc l) = (Done (search nested prev l), s').
Proof.
  revert l prev depth. induction fuel as [| fuel IH]; intros l prev depth Hw Hf Hd;
    (destruct l as [| t l]; [by exists [] |]); cbn [forallb] in Hw; apply andb_true_iff in Hw as [Ht Hw];
    pose proof (enc_length t 0 Ht) as Hlen; cbn [flat_map] in *; rewrite length_app in Hf;
    [unfold lenZ in Hlen; lia |].
  cbn [find_ber_loop search]. erewrite prog_bind_done by done. unfold CBS_len. rewrite lenZ_app.
  rewrite (proj2 (Z.eqb_neq _ 0)) by (unfold lenZ in *; lia). rewrite heights_cons in Hd.
  assert (length (flat_map enc l) <= fuel)%nat as Hfl by (unfold lenZ in Hlen; lia).
  destruct t as [tag f body | tag [f |] ch].
  - apply wf_prim in Ht as (Htag & _ & Hc & Hlok & _). cbn [enc head_ber nested] in *. rewrite <- !app_assoc.
    rewrite (prog_bind_done _ _ _ _ _ (ber_element_run tag f body _ Htag Hlok)). cbv beta iota.
    destruct (negb _); [by eexists |]. rewrite Hc. apply IH; [done | done | lia].
  - apply wf_cons in Ht as (Htag & _ & Hc & Hlok & Hch). specialize (Hlok f eq_refl). cbn [enc head_ber nested] in *.
    rewrite <- !app_assoc. rewrite (prog_bind_done _ _ _ _ _ (ber_element_run tag f _ _ Htag Hlok)). cbv beta iota.
    destruct (negb _); [by eexists |]. rewrite Hc. cbn [orb]. destruct (is_string_type tag) eqn:Es; [by eexists |].
    rewrite (prog_bind_done _ _ _ _ _ (skip_run _ _ _)). cbn [snd]. rewrite height_children in Hd.
    unfold child_string in Hch. cbn [Z.eqb] in Hch. rewrite Es in Hch. pose proof (heights_nonneg ch).
    rewrite (proj2 (Z.ltb_ge kMaxDepth _)) by lia.
    destruct (IH ch false (depth + 1) Hch) as [s' E]; [rewrite !length_app in *; unfold lenZ in *| lia |].
    { pose proof (der_tag_length tag Htag). unfold lenZ in *. lia. }
    assert (on (flat_map enc ch) (find_ber_loop fuel false (depth + 1)) (flat_map enc l)
      = (Done (search nested false ch, s'), flat_map enc l)) as E'; [unfold on; by rewrite E |].
    rewrite (prog_bind_done _ _ _ _ _ E'). cbn [fst]. apply IH; [done | done | lia].
  - apply wf_cons in Ht as (Htag & _ & Hc & _). cbn [enc head_ber] in *. rewrite <- !app_assoc. cbn [app].
    rewrite (prog_bind_done _ _ _ _ _ (indefinite_element_run tag _ Htag Hc)). by eexists.
Qed.

(** ** The conversion *)

Section Convert.
Variable malloc_ok : Z -> bool.
Variable uninit : byte.

Abbreviation Implements := (Implements malloc_ok).
Abbreviation room := (room malloc_ok).

(** On the innermost CBB, [m] reads [i] up to [i'] and adds the bytes [l], if there is
    room for them. *)
Definition Appends {A} (d : nat) (m : converter A) (i i' : CBS) (l : list byte) : Prop :=
  forall s a, Rep s a -> Top d a ->
    match m (mk_conv i s) with
    | (Done _, c) => c_in c = i' /\ (exists a', append l a = Some a' /\ Rep (c_out c) a') /\ grows s (c_out c)
    | (Failed, _) => ~ room s (size a + lenZ l)
    | _ => False
    end.

Lemma append_size l a a' : append l a = Some a' -> size a' = size a + lenZ l.
Proof. destruct a as [| [k body] a]; [done |]. intros [= <-]. cbn [size]. rewrite lenZ_app. lia. Qed.

Lemma appends_bind {A B} d (m : converter A) (k : A -> converter B) i i1 i2 l1 l2 :
  Appends d m i i1 l1 -> (forall x, Appends d (k x) i1 i2 l2) -> Appends d (m ≫= k) i i2 (l1 ++ l2).
Proof.
  intros Hm Hk s a Hs Ha. specialize (Hm s a Hs Ha). unfold mbind at 1, prog_bind. rewrite lenZ_app.
  destruct (m _) as [[x | | |] c1]; try done.
  - destruct c1 as [i1' s1], Hm as (Ei & (a1 & E1 & Hs1) & Hg). cbn in Ei, Hs1, Hg. subst i1'.
    specialize (Hk x s1 a1 Hs1 (append_top _ _ _ _ Ha E1)). rewrite (append_size _ _ _ E1) in Hk.
    destruct (k x _) as [[y | | |] c2]; try done.
    + destruct Hk as (Ei2 & (a2 & E2 & Hs2) & Hg2). split; [done |]. split; [| by eapply grows_trans].
      exists a2. split; [| done]. rewrite <- append_append, E1. exact E2.
    + intros Hr. apply Hk. eapply room_grows; [done |]. eapply room_le; [| done]. lia.
  - intros Hr. apply Hm. eapply room_le; [| done]. unfold lenZ. lia.
Qed.

(** Reading only. *)
Lemma appends_in {A B} d (m : parser A) x (k : A -> converter B) i i1 i2 l :
  m i = (Done x, i1) -> Appends d (k x) i1 i2 l -> Appends d (on_in m ≫= k) i i2 l.
Proof.
  intros Hm Hk s a Hs Ha. rewrite (prog_bind_done _ _ _ x (mk_conv i1 s)); [by apply Hk |].
  unfold on_in. cbn. by rewrite Hm.
Qed.

Lemma appends_ret {A} d (x : A) i : Appends d (mret x) i i [].
Proof.
  intros s a Hs Ha. split; [done |]. split; [| apply grows_refl]. exists a.
  split; [apply append_nil; by eapply top_not_nil | done].
Qed.

Lemma appends_ext {A} d (m : converter A) i i' l l' : Appends d m i i' l -> l = l' -> Appends d m i i' l'.
Proof. by intros ? <-. Qed.

(** A builder that appends. *)
Lemma appends_out {A} d (m : builder A) i l : Implements (Top d) m (append l) -> Appends d (on_out m) i i l.
Proof.
  intros Hm s a Hs Ha. specialize (Hm s a Hs Ha). unfold on_out. cbn. destruct (m s) as [[x | | |] s1]; try done.
  - destruct Hm as (a1 & E & Hs1 & Hg). split; [done |]. split; [by exists a1 | done].
  - destruct (rep_append s a l Hs) as [a1 E]. destruct Hm as [_ [Hn | (a2 & E2 & Hr)]]; [by rewrite E in Hn |].
    by rewrite (append_size _ _ _ E2) in Hr.
Qed.

Lemma appends_bytes d i l : lenZ l < 2 ^ 64 -> Appends d (on_out (CBB_add_bytes malloc_ok uninit d l)) i i l.
Proof. intros Hl. apply appends_out, implements_at_top. by apply implements_add_bytes. Qed.

Lemma appends_flush d i : Appends d (on_out (CBB_flush malloc_ok uninit d)) i i [].
Proof.
  intros s a Hs Ha. unfold on_out. cbn. rewrite (flush_top malloc_ok uninit d s a Hs Ha).
  exact (appends_ret d tt i s a Hs Ha).
Qed.

(** Other contents are read, to their end. *)
Lemma appends_with_in {A} d (m : converter A) contents i l :
  Appends d m contents [] l -> Appends d (with_in contents m) i i l.
Proof.
  intros Hm s a Hs Ha. specialize (Hm s a Hs Ha). unfold with_in. cbn.
  destruct (m _) as [[x | | |] c]; try done. by destruct Hm as (_ & ? & ?).
Qed.

(** A child element: [m] writes its body. *)
Lemma appends_child {A} d tag (m : converter A) i i' body :
  0 <= tag < 2 ^ 32 -> lenZ body <= 4294967294 -> Appends (S d) m i i' body ->
  Appends d (_ ← on_out (CBB_add_asn1 malloc_ok uninit d tag); _ ← m; on_out (CBB_flush malloc_ok uninit d)) i i' (der tag body).
Proof.
  intros Htag Hb Hm s a Hs Ha. rewrite lenZ_der. unfold der_header_len.
  assert (1 <= lenZ (der_len (lenZ body))) as Hdl by (apply der_len_length; unfold lenZ in *; lia).
  pose proof (implements_add_asn1 malloc_ok uninit d tag Htag s a Hs) as Hadd. unfold Live in Hadd. rewrite Ha in Hadd.
  specialize (Hadd ltac:(lia)). cbn beta in Hadd. rewrite (flush_top_eq d a Ha) in Hadd. cbn [mbind option_bind] in Hadd.
  destruct (rep_append s a (der_tag tag) Hs) as [a1 E1]. rewrite E1 in Hadd. cbn [mbind option_bind open_child] in Hadd.
  pose proof (append_size _ _ _ E1) as Hsz1. unfold mbind at 1, prog_bind. unfold on_out at 1. cbn [c_out c_in].
  destruct (CBB_add_asn1 _ _ _ _ s) as [[x | | |] s1]; try done.
  2: { destruct Hadd as [_ [? | (a2 & [= <-] & Hr)]]; [done |]. intros Hr'. apply Hr. eapply room_le; [| done].
       cbn [size plen]. unfold lenZ in *. cbn [length]. lia. }
  destruct Hadd as (a2 & [= <-] & Hs1 & Hg1). pose proof (append_top _ _ _ _ Ha E1) as Ha1.
  specialize (Hm s1 _ Hs1 (f_equal S Ha1)). cbn [size plen] in Hm. unfold mbind at 1, prog_bind.
  destruct (m _) as [[y | | |] c2]; try done.
  2: { intros Hr. apply Hm. eapply room_grows; [done |]. eapply room_le; [| done]. unfold lenZ in *. cbn [length]. lia. }
  destruct Hm as (Ei & (a2 & [= <-] & Hs2) & Hg2). cbn [app] in Hs2. unfold on_out.
  pose proof (implements_flush malloc_ok uninit d (c_out c2) _ Hs2) as Hfl. cbn [length] in Hfl. rewrite Ha1 in Hfl.
  specialize (Hfl ltac:(lia)). unfold flush in Hfl. cbn [length] in Hfl. rewrite Ha1 in Hfl.
  replace (S (S d) - 1 - d)%nat with 1%nat in Hfl by lia. cbn [close_n mbind option_bind] in Hfl.
  destruct a1 as [| [k b] a1]; [done |]. cbn [close prefix] in Hfl. rewrite (proj2 (Z.leb_le _ _) Hb) in Hfl.
  cbn [mbind option_bind] in Hfl. assert (append (der tag body) a = Some ((k, b ++ der_len (lenZ body) ++ body) :: a1)) as Ea.
  { unfold der. rewrite <- append_append, E1. done. }
  destruct (CBB_flush _ _ _ (c_out c2)) as [[z | | |] s3]; try done.
  - destruct Hfl as (a3 & [= <-] & Hs3 & Hg3). cbn [c_in c_out]. split; [done |].
    split; [eexists; by split | eapply grows_trans; [done |]; by eapply grows_trans].
  - destruct Hfl as [_ [? | (a3 & [= <-] & Hr)]]; [done |]. intros Hr'. apply Hr.
    apply append_size in Ea. rewrite lenZ_der in Ea. unfold der_header_len in Ea.
    eapply room_le; [| eapply room_grows; [| exact Hr']]; [rewrite Ea; lia | by eapply grows_trans].
Qed.

Lemma appends_eq {A} d (m m' : converter A) i i' l :
  (forall s, m (mk_conv i s) = m' (mk_conv i s)) -> Appends d m' i i' l -> Appends d m i i' l.
Proof. intros E Hm s a Hs Ha. rewrite E. by apply Hm. Qed.

Lemma primitive_not_constructed tag : is_constructed (primitive tag) = false.
Proof. unfold is_constructed, primitive. by rewrite Z.land_ldiff. Qed.

Lemma string_type_range tag : is_string_type tag = true -> 0 < primitive tag < 31.
Proof.
  unfold is_string_type. rewrite bool_decide_eq_true, !elem_of_cons. 
  intros Hin. repeat (destruct Hin as [-> | Hin]; [done |]). by apply not_elem_of_nil in Hin.
Qed.

Lemma child_string_ok st tag : is_constructed st = false -> is_constructed (child_string st tag) = false.
Proof.
  intros Hst. unfold child_string. destruct (st =? 0); [| done]. destruct (is_string_type tag); [| done].
  apply primitive_not_constructed.
Qed.

Lemma constructed_high tag : 0 <= tag -> is_constructed tag = true -> 2 ^ 29 <= tag.
Proof.
  intros H0 Hc. destruct (Z.le_gt_cases (2 ^ 29) tag); [done |]. exfalso. unfold is_constructed in Hc.
  apply negb_true_iff, Z.eqb_neq in Hc. apply Hc. apply Z.bits_inj'. intros n Hn. rewrite Z.bits_0, Z.land_spec.
  change CBS_ASN1_CONSTRUCTED with (2 ^ 29). rewrite Z.pow2_bits_eqb by lia. destruct (Z.eqb_spec 29 n) as [<- |]; [| by rewrite andb_false_r].
  rewrite andb_true_r. apply Z.testbit_false; [lia |]. rewrite Z.div_small by lia. done.
Qed.

(** A constructed value does not start like an end mark. *)
Lemma constructed_tag_byte tag :
  0 <= tag < 2 ^ 32 -> is_constructed tag = true -> exists b l, der_tag tag = b :: l /\ b <> x00.
Proof.
  intros Ht Hc. pose proof (constructed_high tag (proj1 Ht) Hc) as Hh.
  assert (forall z, 32 <= z < 256 -> z2b z <> x00) as Hz.
  { intros z Hz E. apply (f_equal b2z) in E. rewrite b2z_z2b_small in E by lia. change (b2z x00) with 0 in E. lia. }
  unfold der_tag. assert (1 <= tag / 2 ^ 29 < 8) by (split; [by apply Z.div_le_lower_bound; lia | apply Z.div_lt_upper_bound; lia]).
  destruct (Z.ltb_spec (tag mod 2 ^ 29) 31).
  - eexists _, _. split; [done |]. apply Hz. dlia.
  - eexists _, _. split; [done |]. apply Hz. lia.
Qed.

Lemma is_eoc_false hl contents : contents <> EOC -> is_eoc hl contents = false.
Proof. intros Hne. unfold is_eoc, CBS_data. rewrite (bool_decide_eq_false_2 _ Hne). by rewrite andb_false_r. Qed.

Lemma constructed_not_eoc tag l :
  0 <= tag < 2 ^ 32 -> is_constructed tag = true -> der_tag tag ++ l <> EOC.
Proof. intros Ht Hc. destruct (constructed_tag_byte tag Ht Hc) as (b & l' & -> & Hb). unfold EOC. cbn. congruence. Qed.

(** The last byte of the header of an empty element. *)
Lemma definite_header_end tag f :
  let hd := der_tag tag ++ ber_len f 0 in
  len_ok f 0 = true -> hd !! Z.to_nat (lenZ hd - 1) = Some x00.
Proof.
  intros hd Hf. assert (exists l, hd = l ++ [x00]) as [l ->].
  { unfold hd. destruct f as [| k]; cbn [ber_len len_ok] in *; [by eexists |].
    rewrite !andb_true_iff, !Nat.leb_le in Hf. destruct k as [| k]; [lia |]. rewrite be_bytes_snoc.
    exists (der_tag tag ++ z2b (128 + Z.of_nat (S k)) :: be_bytes k (0 / 256)). by rewrite <- app_assoc. }
  rewrite lenZ_app. change (lenZ [x00]) with 1. replace (Z.to_nat (lenZ l + 1 - 1)) with (length l) by (unfold lenZ; lia).
  by rewrite lookup_app_r, Nat.sub_diag by lia.
Qed.

Lemma indefinite_header_end tag : let hd := der_tag tag ++ [x80] in hd !! Z.to_nat (lenZ hd - 1) = Some x80.
Proof.
  intros hd. unfold hd. rewrite lenZ_app. change (lenZ [x80]) with 1.
  replace (Z.to_nat (lenZ (der_tag tag) + 1 - 1)) with (length (der_tag tag)) by (unfold lenZ; lia).
  by rewrite lookup_app_r, Nat.sub_diag by lia.
Qed.

Lemma indefinite_cond hd :
  let contents := der_tag hd ++ [x80] in
  (CBS_len contents =? lenZ contents) && (0 <? lenZ contents)
  && bool_decide (b2z <$> CBS_data contents !! Z.to_nat (lenZ contents - 1) = Some 128) = true.
Proof.
  intros contents. unfold CBS_len, CBS_data, contents. rewrite Z.eqb_refl, (indefinite_header_end hd).
  rewrite lenZ_app. change (lenZ [x80]) with 1. rewrite (proj2 (Z.ltb_lt _ _)) by (unfold lenZ; lia). done.
Qed.

Lemma definite_cond tag f body :
  len_ok f (lenZ body) = true ->
  let hd := der_tag tag ++ ber_len f (lenZ body) in
  (CBS_len (hd ++ body) =? lenZ hd) && (0 <? lenZ hd)
  && bool_decide (b2z <$> CBS_data (hd ++ body) !! Z.to_nat (lenZ hd - 1) = Some 128) = false.
Proof.
  intros Hf hd. unfold CBS_len, CBS_data. rewrite lenZ_app. destruct body as [| b body].
  - rewrite app_nil_r. unfold hd. change (lenZ []) with 0 in *. rewrite (definite_header_end tag f Hf). by rewrite andb_false_r.
  - rewrite lenZ_cons, (proj2 (Z.eqb_neq _ _)) by (unfold lenZ; lia). done.
Qed.

Section Contents.
Variable convert : nat -> Z -> bool -> Z -> converter unit.

(** The three kinds of contents. *)
Lemma contents_prim d st depth tag f body i :
  is_constructed tag = false -> len_ok f (lenZ body) = true ->
  let hd := der_tag tag ++ ber_len f (lenZ body) in
  Appends d (convert_contents malloc_ok uninit convert d st depth (hd ++ body) tag (lenZ hd)) i i body.
Proof.
  intros Hc Hf hd. unfold convert_contents, hd. rewrite (definite_cond tag f body Hf), Hc.
  apply (appends_in _ _ (tt, body) _ _ i); [apply skip_run |]. apply appends_bytes.
  apply len_ok_word in Hf. lia.
Qed.

Lemma contents_definite d st depth tag f body i out :
  is_constructed tag = true -> len_ok f (lenZ body) = true ->
  Appends d (convert d st false (depth + 1)) body [] out ->
  let hd := der_tag tag ++ ber_len f (lenZ body) in
  Appends d (convert_contents malloc_ok uninit convert d st depth (hd ++ body) tag (lenZ hd)) i i out.
Proof.
  intros Hc Hf Hm hd. unfold convert_contents, hd. rewrite (definite_cond tag f body Hf), Hc.
  apply (appends_in _ _ (tt, body) _ _ i); [apply skip_run |]. by apply appends_with_in.
Qed.

Lemma contents_indefinite d st depth tag i i' out :
  Appends d (convert d st true (depth + 1)) i i' out ->
  let hd := der_tag tag ++ [x80] in
  Appends d (convert_contents malloc_ok uninit convert d st depth hd tag (lenZ hd)) i i' out.
Proof. intros Hm hd. unfold convert_contents, hd. by rewrite (indefinite_cond tag). Qed.

(** An element around its contents. *)
Lemma element_appends d st depth contents tag hl i i' out :
  0 <= tag < 2 ^ 32 -> (st = 0 \/ primitive tag = st) ->
  (st = 0 -> lenZ out <= 4294967294) ->
  let cst := if is_constructed tag then child_string st tag else st in
  Appends (if st =? 0 then S d else d)
    (convert_contents malloc_ok uninit convert (if st =? 0 then S d else d) cst depth contents tag hl) i i' out ->
  Appends d (convert_element malloc_ok uninit convert d st depth contents tag hl) i i'
    (if st =? 0 then der (if is_constructed tag && is_string_type tag then primitive tag else tag) out else out).
Proof.
  intros Htag Hst Hout cst. unfold convert_element, cst, child_string. destruct (Z.eqb_spec st 0) as [-> | Hne]; cbn [negb].
  - intros Hm. cbv zeta. apply appends_child; [| by apply Hout |].
    + destruct (is_constructed tag); [| done]. cbn [andb]. destruct (is_string_type tag) eqn:Es; [| done].
      apply string_type_range in Es. lia.
    + by destruct (is_constructed tag); [destruct (is_string_type tag) |].
  - destruct Hst as [? | <-]; [done |]. rewrite Z.eqb_refl. cbn [negb]. intros Hm.
    apply (appends_ext _ _ _ _ (out ++ [])); [| by rewrite app_nil_r].
    apply (appends_bind d _ _ _ i'); [by destruct (is_constructed tag) | intros _; apply appends_flush].
Qed.
End Contents.

Lemma lenZ_der_le tag body : lenZ body <= lenZ (der tag body).
Proof. rewrite lenZ_der. unfold der_header_len, lenZ. lia. Qed.

(** The body of the output of one value. *)
Definition body_of (st : Z) (t : ber) : list byte :=
  match t with
  | Prim _ _ body => body
  | Cons tag _ l => flat_map (der_of (child_string st tag)) l
  end.

Lemma body_of_le st t : lenZ (body_of st t) <= lenZ (der_of st t).
Proof. destruct t; cbn [body_of der_of]; (destruct (st =? 0); [apply lenZ_der_le | lia]). Qed.

(** The recursive call of the loop. *)
Definition convert_call (fuel : nat) (d : nat) (st : Z) (eoc : bool) (depth : Z) : converter unit :=
  if is_constructed st then stuck else
  if kMaxDepth <? depth then fail else convert_loop malloc_ok uninit fuel d st eoc depth.

Lemma convert_call_appends fuel d st eoc depth i i' out :
  is_constructed st = false -> depth <= kMaxDepth ->
  Appends d (convert_loop malloc_ok uninit fuel d st eoc depth) i i' out -> Appends d (convert_call fuel d st eoc depth) i i' out.
Proof. intros Hst Hd. unfold convert_call. by rewrite Hst, (proj2 (Z.ltb_ge _ _)). Qed.

Lemma convert_step fuel d st eoc depth i i1 i2 i' contents tag hl found out out' :
  i <> [] -> CBS_get_any_ber_asn1_element i = (Done (contents, tag, hl, found), i1) -> contents <> EOC ->
  Appends d (convert_element malloc_ok uninit (convert_call fuel) d st depth contents tag hl) i1 i2 out ->
  Appends d (convert_loop malloc_ok uninit fuel d st eoc depth) i2 i' out' ->
  Appends d (convert_loop malloc_ok uninit (S fuel) d st eoc depth) i i' (out ++ out').
Proof.
  intros Hi Hget Heoc Hel Hloop. eapply appends_eq.
  { intros s. cbn [convert_loop]. erewrite prog_bind_done by done. cbn [c_in]. unfold CBS_len.
    rewrite (proj2 (Z.eqb_neq _ 0)) by (destruct i; [done | rewrite lenZ_cons; unfold lenZ; lia]). reflexivity. }
  cbv zeta. apply (appends_in d _ _ _ _ _ _ _ Hget). cbv beta iota. rewrite is_eoc_false by done.
  apply (appends_bind d _ _ _ i2); [exact Hel | done].
Qed.

Lemma der_of_prim st tag f body :
  is_constructed tag = false ->
  der_of st (Prim tag f body)
  = if st =? 0 then der (if is_constructed tag && is_string_type tag then primitive tag else tag) body else body.
Proof. intros Hc. cbn [der_of]. by rewrite Hc. Qed.

Lemma der_of_cons st tag f l :
  is_constructed tag = true ->
  der_of st (Cons tag f l)
  = if st =? 0
    then der (if is_constructed tag && is_string_type tag then primitive tag else tag) (body_of st (Cons tag f l))
    else body_of st (Cons tag f l).
Proof. intros Hc. cbn [der_of body_of]. by rewrite Hc. Qed.

Lemma convert_eoc fuel d st depth rest :
  Appends d (convert_loop malloc_ok uninit (S fuel) d st true depth) (EOC ++ rest) rest [].
Proof.
  eapply appends_eq.
  { intros s. cbn [convert_loop]. erewrite prog_bind_done by done. cbn [c_in]. unfold CBS_len.
    rewrite (proj2 (Z.eqb_neq _ 0)) by (cbn [EOC app]; rewrite !lenZ_cons; unfold lenZ; lia). reflexivity. }
  cbv zeta.
  apply (appends_in d _ (EOC, 0, 2, false) _ _ rest); [by apply (ber_element_run 0 Short [] rest) |].
  cbv beta iota. apply appends_ret.
Qed.

(** The loop writes the DER encodings of the values it reads. *)
Lemma convert_run fuel l d st (eoc : bool) depth rest :
  let tail := if eoc then EOC ++ rest else [] in
  forallb (wf st) l = true -> is_constructed st = false -> depth + heights l <= kMaxDepth ->
  (length (flat_map enc l ++ tail) <= fuel)%nat -> lenZ (flat_map (der_of st) l) <= 4294967294 ->
  Appends d (convert_loop malloc_ok uninit fuel d st eoc depth) (flat_map enc l ++ tail) (if eoc then rest else [])
    (flat_map (der_of st) l).
Proof.
  revert l d st eoc depth rest. induction fuel as [| fuel IH]; intros l d st eoc depth rest tail Hw Hst Hd Hf Hout;
    (destruct l as [| t l]; [destruct eoc; [| intros s a Hs Ha; exact (appends_ret d tt [] s a Hs Ha)] |]).
  { cbn in Hf. lia. }
  { exfalso. cbn [forallb flat_map] in *. apply andb_true_iff in Hw as [Ht _]. pose proof (enc_length t st Ht).
    rewrite !length_app in Hf. unfold lenZ in *. lia. }
  { apply convert_eoc. }
  cbn [forallb flat_map] in *. apply andb_true_iff in Hw as [Ht Hw]. pose proof (enc_length t st Ht) as Hlen.
  rewrite heights_cons in Hd. rewrite lenZ_app in Hout. rewrite <- app_assoc in *. rewrite length_app in Hf.
  pose proof (body_of_le st t) as Hble.
  assert (Appends d (convert_loop malloc_ok uninit fuel d st eoc depth) (flat_map enc l ++ tail)
    (if eoc then rest else []) (flat_map (der_of st) l)) as Hloop
    by (apply IH; [done | done | lia | fold tail; unfold lenZ in *; lia | unfold lenZ in *; lia]).
  assert (st = 0 -> lenZ (body_of st t) <= 4294967294) as Hbody by (intros _; unfold lenZ in *; lia).
  assert (enc t ++ flat_map enc l ++ tail <> []) as Hne by (destruct (enc t); [unfold lenZ in *; cbn in Hlen; lia | done]).
  assert (forall tag f ch, t = Cons tag f ch -> forall i0 i1 (eoc' : bool) d',
    is_constructed tag = true -> forallb (wf (child_string st tag)) ch = true ->
    i0 = flat_map enc ch ++ (if eoc' then EOC ++ i1 else []) -> (length i0 <= fuel)%nat ->
    Appends d' (convert_call fuel d' (child_string st tag) eoc' (depth + 1)) i0 (if eoc' then i1 else []) (body_of st t)) as Hch.
  { intros tag f ch -> i0 i1 eoc' d' Hc Hwch -> Hl. rewrite height_children in Hd. pose proof (heights_nonneg ch).
    apply convert_call_appends; [by apply child_string_ok | lia |].
    apply IH; [done | by apply child_string_ok | lia | done | cbn [body_of] in Hble; unfold lenZ in *; lia]. }
  destruct t as [tag f body | tag [f |] ch].
  - apply wf_prim in Ht as (Htag & Hsttag & Hc & Hlok & Heoc). rewrite der_of_prim by done. cbn [enc] in *.
    rewrite <- !app_assoc in *.
    eapply convert_step; [done | by apply ber_element_run | by rewrite <- app_assoc | | exact Hloop].
    apply element_appends; [done | done | exact Hbody |]. rewrite Hc. by apply contents_prim.
  - apply wf_cons in Ht as (Htag & Hsttag & Hc & Hlok & Hwch). specialize (Hlok f eq_refl).
    rewrite (der_of_cons st tag (Some f) ch Hc). cbn [enc] in *. rewrite <- !app_assoc in *.
    eapply convert_step; [done | by apply ber_element_run | rewrite <- app_assoc; by apply constructed_not_eoc | | exact Hloop].
    apply element_appends; [done | done | exact Hbody |]. rewrite Hc. apply contents_definite; [done | done |].
    apply (Hch tag (Some f) ch eq_refl _ [] false); [done | done | by rewrite app_nil_r |].
    pose proof (der_tag_length tag Htag). rewrite !length_app in Hf. unfold lenZ in *. lia.
  - apply wf_cons in Ht as (Htag & Hsttag & Hc & _ & Hwch). rewrite (der_of_cons st tag None ch Hc).
    cbn [enc] in *. rewrite <- !app_assoc in *. cbn [app] in *.
    eapply convert_step; [done | by apply indefinite_element_run | by apply constructed_not_eoc | | exact Hloop].
    apply element_appends; [done | done | exact Hbody |]. rewrite Hc. apply contents_indefinite.
    apply (Hch tag None ch eq_refl _ _ true); [done | done | by rewrite <- ?app_assoc |].
    pose proof (der_tag_length tag Htag). rewrite !length_app in *. cbn [length] in Hf. rewrite !length_app in Hf. unfold lenZ in *. lia.
Qed.

End Convert.
