(* ===== verification/BerSpec.v ===== *)
(** * BER to DER: the public functions

    What [CBS_asn1_ber_to_der] returns on the encoding of BER values, which values its
    search misses, and that it returns, and writes nothing outside its CBB, on any
    input; then the strings of [CBS_get_asn1_implicit_string]. *)

From S2P Require Import Prelude Crypto Cbs CbsAsn1 Cbb CbbSpec CbbProps Ber BerProps.

(** ** Values that DER writes the same way *)

Lemma minimal_der_len f n : 0 <= n -> len_ok f n = true -> minimal f n = true -> ber_len f n = der_len n.
Proof.
  intros Hn Hok Hm. unfold der_len. destruct f as [| k]; cbn [len_ok minimal ber_len] in *; [by rewrite Hok |].
  rewrite !andb_true_iff, !Nat.leb_le, Z.ltb_lt, !Z.leb_le in *. destruct Hok as [Hk Hlt], Hm as [H128 Hmin].
  by rewrite (proj2 (Z.ltb_ge n 128)), (digits_8 n k) by lia.
Qed.

(** The search stops at such a value, whose own form is DER's. *)
Lemma head_der st t :
  wf st t = true -> head_ber t = false ->
  exists tag body, 0 <= tag < 2 ^ 32 /\ lenZ body < 2 ^ 32 /\ enc t = der tag body /\
    match t with
    | Prim tag' _ body' => tag' = tag /\ body' = body
    | Cons tag' _ l => tag' = tag /\ body = flat_map enc l /\ is_string_type tag = false
    end.
Proof.
  intros Hw Hh. assert (match t with Cons _ None _ => False | _ => True end) as Hd by by destruct t as [| ? [|]].
  destruct (enc_definite t st Hw Hd) as (tag & f & body & Htag & Hf & He & Ht). exists tag, body.
  split; [done |]. split; [by eapply len_ok_word |].
  assert (minimal f (lenZ body) = true /\
    match t with Prim _ _ _ => True | Cons tag _ _ => is_string_type tag = false end) as [Hm Hs].
  { destruct t as [tag' f' body' | tag' [f' |] l]; [| | done]; cbn [head_ber] in Hh; destruct Ht as (-> & E & ->).
    - subst f'. by rewrite negb_false_iff in Hh.
    - injection E as ->. by rewrite orb_false_iff, negb_false_iff in Hh. }
  rewrite He. unfold der. rewrite minimal_der_len by (done || unfold lenZ; lia). split; [done |].
  destruct t as [tag' f' body' | tag' f' l]; [by destruct Ht as (-> & _ & ->) |].
  destruct Ht as (-> & _ & ->). done.
Qed.

Lemma no_ber_der t : wf 0 t = true -> has_ber t = false -> enc t = der_of 0 t.
Proof.
  revert t. fix no_ber_der 1. intros t Hw Hb. assert (head_ber t = false) as Hh by (destruct t; cbn [has_ber] in Hb; by apply orb_false_iff in Hb as [? _]).
  destruct (head_der 0 t Hw Hh) as (tag & body & _ & _ & -> & Ht). destruct t as [tag' f body' | tag' f l].
  - by destruct Ht as [-> ->].
  - destruct Ht as (-> & -> & Hs). apply wf_cons in Hw as (_ & _ & _ & _ & Hch). cbn [has_ber] in Hb.
    apply orb_false_iff in Hb as [_ Hb]. unfold child_string in Hch. cbn [Z.eqb] in Hch. rewrite Hs in Hch.
    cbn [der_of Z.eqb]. unfold child_string. cbn [Z.eqb]. rewrite Hs. f_equal. clear tag f Hh Hs.
    induction l as [| t l IH]; [done |]. cbn [forallb existsb flat_map] in *.
    apply andb_true_iff in Hch as [? ?]. apply orb_false_iff in Hb as [? ?]. f_equal; [by apply no_ber_der | by apply IH].
Qed.

(** ** The whole function *)

Section Spec.
Variable malloc_ok : Z -> bool.
Variable uninit : byte.

Lemma malloc_total n : (forall k, 0 <= k < 2 ^ 63 -> malloc_ok k = true) -> 0 <= n < 2 ^ 62 -> OPENSSL_malloc malloc_ok n = true.
Proof.
  intros Hm Hn. unfold OPENSSL_malloc. change OPENSSL_MALLOC_PREFIX with 8. rewrite wrap_small by lia.
  rewrite (proj2 (Z.ltb_ge _ _)) by lia. apply Hm. lia.
Qed.

Lemma CBB_init_total n :
  (forall k, 0 <= k < 2 ^ 63 -> malloc_ok k = true) -> 0 <= n < 2 ^ 62 -> exists s, CBB_init malloc_ok uninit n = Some s.
Proof.
  intros Hm Hn. unfold CBB_init, cbb_init. rewrite !malloc_total by (done || lia). cbn [negb]. rewrite andb_false_r. by eexists.
Qed.

(** What [finish_into] hands over. *)
Lemma finish_into_run (m : converter unit) cbb i i' l :
  Rep cbb [(KRoot, [])] -> can_resize (base cbb) = true -> (forall k, 0 <= k < 2 ^ 63 -> malloc_ok k = true) ->
  lenZ l < 2 ^ 61 -> Appends malloc_ok 0 m i i' l -> finish_into malloc_ok uninit m cbb i = (Done l, i').
Proof.
  intros Hs Hr Hmem Hl Hm. specialize (Hm cbb _ Hs eq_refl). unfold finish_into. unfold mbind, prog_bind.
  destruct (m (mk_conv i cbb)) as [[x | | |] c].
  - destruct Hm as (<- & (a & [= <-] & Hc) & _). unfold on_out, CBB_finish. cbn [Nat.eqb negb c_out].
    rewrite (prog_bind_done _ _ _ _ _ (flush_top malloc_ok uninit 0 _ _ Hc eq_refl)). cbn [app] in Hc.
    pose proof (rep_layout _ _ Hc) as Hlay. by inversion Hlay; subst.
  - destruct Hm. right. split; [done |]. split; [done |]. cbn. unfold lenZ in *. cbn. lia.
  - done.
  - done.
Qed.

Lemma flat_map_enc_length l : forallb (wf 0) l = true -> 2 * Z.of_nat (length l) <= lenZ (flat_map enc l).
Proof.
  induction l as [| t l IH]; intros Hw; [done |]. cbn [forallb flat_map length] in *. apply andb_true_iff in Hw as [Ht Hw].
  pose proof (enc_length t 0 Ht). rewrite lenZ_app. specialize (IH Hw). lia.
Qed.

(** The search answers [search], and the first element is a DER one if it finds nothing. *)
Lemma find_ber_answer l s :
  forallb (wf 0) l = true -> heights l <= kMaxDepth ->
  cbs_find_ber (flat_map enc l) 0 s = (Done (search nested false l), s).
Proof.
  intros Hw Hh. destruct (find_ber_run (length (flat_map enc l)) l false 0 Hw) as [s' E]; [done | lia |].
  unfold cbs_find_ber. change (kMaxDepth <? 0) with false. cbv iota.
  assert (CBS_init (CBS_data (flat_map enc l)) (length (flat_map enc l)) = flat_map enc l) as ->
    by (unfold CBS_init, CBS_data; apply firstn_all).
  erewrite prog_bind_done; [| unfold on; rewrite E; reflexivity]. done.
Qed.

Lemma search_false_head prev t l : search nested prev (t :: l) = false -> head_ber t = false.
Proof. cbn [search]. by destruct (head_ber t). Qed.

Lemma ber_to_der_run t l :
  (forall k, 0 <= k < 2 ^ 63 -> malloc_ok k = true) ->
  forallb (wf 0) (t :: l) = true -> heights (t :: l) <= kMaxDepth ->
  lenZ (flat_map enc (t :: l)) < 2 ^ 62 -> lenZ (flat_map (der_of 0) (t :: l)) <= 4294967294 ->
  CBS_asn1_ber_to_der malloc_ok uninit (flat_map enc (t :: l))
  = if search nested false (t :: l) then (Done (flat_map (der_of 0) (t :: l), true), [])
    else (Done (enc t, false), flat_map enc l).
Proof.
  intros Hmem Hw Hh Hlen Hout. unfold CBS_asn1_ber_to_der. erewrite prog_bind_done by done.
  rewrite (prog_bind_done _ _ _ _ _ (find_ber_answer _ _ Hw Hh)).
  destruct (search nested false (t :: l)) eqn:Es; cbn [negb].
  - destruct (CBB_init_total (CBS_len (flat_map enc (t :: l))) Hmem) as [cbb Ei]; [unfold CBS_len, lenZ in *; lia |].
    rewrite Ei. apply CBB_init_rep in Ei as [Hs Hr]; [| unfold CBS_len, lenZ in *; lia].
    erewrite prog_bind_done; [done |]. eapply finish_into_run; [done | done | done | lia |].
    apply (appends_eq _ _ _ (convert_loop malloc_ok uninit (length (flat_map enc (t :: l))) 0 0 false 0)); [done |].
    pose proof (convert_run malloc_ok uninit (length (flat_map enc (t :: l))) (t :: l) 0 0 false 0 []) as Hrun.
    cbv zeta in Hrun. rewrite !app_nil_r in Hrun. apply Hrun; [done | done | lia | done | done].
  - apply search_false_head in Es. cbn [forallb] in Hw. apply andb_true_iff in Hw as [Ht _].
    destruct (head_der 0 t Ht Es) as (tag & body & Htag & Hb & He & _). cbn [flat_map]. rewrite He.
    erewrite prog_bind_done; [| apply any_element_pub_iff; exists body; split; [by split | done]]. cbn. by rewrite He.
Qed.

(** ** Any input *)

(** An element is a prefix of the input, of two bytes at least, and so is its header. *)
Lemma ber_element_inv s contents tag hl found s' :
  CBS_get_any_ber_asn1_element s = (Done (contents, tag, hl, found), s') ->
  s = contents ++ s' /\ 0 <= tag < 2 ^ 32 /\ 2 <= hl <= lenZ contents.
Proof.
  unfold CBS_get_any_ber_asn1_element, cbs_get_any_asn1_element. intros ([o h] & s1 & E & [= <- <- <- _ <-])%prog_bind_inv.
  apply prog_bind_inv in E as (? & ? & [= <- <-] & E). apply prog_bind_inv in E as (h' & s2 & Eh & E).
  unfold on_copy in Eh. destruct (asn1_header_parse _ _ _) as [r s3] eqn:Ep. injection Eh as -> <-.
  apply prog_bind_inv in E as (o' & s4 & Eo & [= <- <- <-]). cbn [fst snd].
  assert (0 <= h_tag h' < 2 ^ 32 /\ 2 <= h_header_len h' <= h_len h') as [Ht Hl].
  { unfold asn1_header_parse in Ep. apply prog_bind_inv in Ep as (t & s5 & [Ht ->]%parse_asn1_tag_inverts & E).
    apply prog_bind_inv in E as (lb & s6 & [Hlb ->]%CBS_get_u8_inverts & E).
    apply prog_bind_inv in E as (? & ? & [= <- <-] & E). rewrite be_bytes_1 in E. cbn [app] in E. cbv zeta in E.
    rewrite header_len_word in E by done. pose proof (der_tag_length t Ht) as Hlt.
    destruct (lb .& 128 =? 0). { injection E as <- _. cbn. rewrite wrap_small; lia. }
    destruct (_ && _ && _). { injection E as <- _. cbn. lia. }
    destruct ((_ =? 0) || _) eqn:En; [done |]. apply orb_false_iff in En as [En1%Z.eqb_neq En2%Z.ltb_ge].
    assert (0 <= lb .& 127) by (apply Z.land_nonneg; lia). assert (Z.of_nat (Z.to_nat (lb .& 127)) = lb .& 127) as Ek by lia.
    rewrite <- Ek in E. assert (TCEq (Nat.leb (Z.to_nat (lb .& 127)) 8) true) as Hk8 by by (apply TCEq_eq, Nat.leb_le; lia).
    apply prog_bind_inv in E as (n & s7 & [Hn ->]%(@inverts _ _ _ _ _) & E).
    assert (n < 2 ^ 32) as Hn'. { eapply Z.lt_le_trans; [apply Hn |]. change (2 ^ 32) with (256 ^ 4). apply Z.pow_le_mono_r; lia. }
    destruct (_ && _); [done |]. destruct (_ && _); [done |]. destruct (_ <? n); [done |].
    injection E as <- _. cbn. rewrite !wrap_small; lia. }
  unfold CBS_get_bytes in Eo. apply cbs_get_inverts in Eo as [Hlen ->]; [| lia]. split; [done |]. split; [done |]. lia.
Qed.

(** Whatever is left on failure. *)
Abbreviation runs P m Q := (Prelude.runs P m Q (fun _ => True)).

Lemma total_runs {A} (P : CBS -> Prop) (m : parser A) : Total m -> runs P m (fun _ _ => True).
Proof. intros Hm. eapply runs_weaken; [by apply runs_safe | done | done]. Qed.

Lemma runs_get {S A} (P : S -> Prop) (f : S -> prog S A) Q :
  (forall s, P s -> runs (eq s) (f s) Q) -> runs P (getS ≫= f) Q.
Proof. intros Hf s Hs. exact (Hf s Hs s eq_refl). Qed.

Lemma runs_assume {S A} (P : S -> Prop) (phi : Prop) (m : prog S A) Q :
  (forall s, P s -> phi) -> (phi -> runs P m Q) -> runs P m Q.
Proof. intros Hp Hm s Hs. exact (Hm (Hp s Hs) s Hs). Qed.

Lemma ber_element_runs n :
  runs (fun s => length s <= n)%nat CBS_get_any_ber_asn1_element
    (fun r s' => let '(contents, tag, hl, _) := r in
       (length contents + length s' <= n)%nat /\ 0 <= tag < 2 ^ 32 /\ 2 <= hl <= lenZ contents).
Proof.
  intros s Hs. assert (Total CBS_get_any_ber_asn1_element) as Ht by (apply safe_bind; apply _).
  destruct (Ht s I) as (H1 & H2 & _).
  destruct (CBS_get_any_ber_asn1_element s) as [[[[[contents tag] hl] fd] | | |] s1] eqn:E; try done.
  apply ber_element_inv in E as (-> & Htag & Hhl). rewrite length_app in Hs. done.
Qed.

Lemma on_runs {A} (other : CBS) (m : parser A) (P R : CBS -> Prop) Q :
  P other -> runs P m Q -> runs R (on other m) (fun p s => R s /\ Q p.1 p.2).
Proof. intros Ho Hm s Hs. specialize (Hm other Ho). unfold on. by destruct (m other) as [[] ?]. Qed.

Lemma skip_runs contents hl (R : CBS -> Prop) :
  0 <= hl -> runs R (on contents (CBS_skip hl)) (fun p s => R s /\ (length p.2 + Z.to_nat hl = length contents)%nat).
Proof.
  intros Hl. eapply runs_weaken; [apply (on_runs contents _ (eq contents)); [done |] | done |].
  - intros ? <-. pose proof (cbs_get_inverts hl Hl) as Hi. unfold CBS_skip, mbind, prog_bind.
    destruct (cbs_get_total hl contents I) as (Hstuck & Hfuel & _).
    destruct (cbs_get hl contents) as [[x | | |] c] eqn:E; try done. apply Hi in E as [Hx E].
    apply (f_equal length) in E. unfold id in E. rewrite length_app in E.
    instantiate (1 := fun _ s => (length s + Z.to_nat hl = length contents)%nat). unfold lenZ in Hx. cbn. lia.
  - by intros [[] body] s.
Qed.

Lemma find_ber_runs fuel found depth :
  runs (fun s => length s <= fuel)%nat (find_ber_loop fuel found depth) (fun _ _ => True).
Proof.
  revert found depth. induction fuel as [| fuel IH]; intros found depth; cbn [find_ber_loop].
  { intros [|] Hs; [done | cbn in Hs; lia]. }
  intros s Hs. erewrite prog_bind_done by done. destruct (CBS_len s =? 0); [done |]. revert s Hs.
  eapply runs_bind; [apply ber_element_runs |]. intros [[[contents tag] hl] fd]. destruct fd; [done |].
  assert (runs (fun s' => (length contents + length s' <= S fuel)%nat /\ 0 <= tag < 2 ^ 32 /\ 2 <= hl <= lenZ contents)
    (find_ber_loop fuel false depth) (fun _ _ => True)) as Hnext
    by (eapply runs_weaken; [apply IH | intros s; unfold lenZ; lia | done]).
  apply runs_if; [| exact Hnext]. apply runs_if; [done |].
  intros s (Hs & Htag & Hhl). unfold lenZ in Hhl. revert s Hs.
  eapply runs_bind; [apply skip_runs; lia |]. intros [[] body]. apply runs_if; [done |]. cbn [snd].
  intros s [Hs Hb]. assert (length body <= fuel)%nat as Hbody by lia. revert s Hs.
  eapply runs_bind; [apply (on_runs body _ (fun s => length s <= fuel)%nat); [done | apply IH] |].
  intros [r other]. eapply runs_weaken; [apply IH | intros s; cbn; lia | done].
Qed.
(** The input satisfies [R], and the CBB at depth [d] is the innermost one. *)
Definition Ready (d : nat) (R : CBS -> Prop) (c : conv) : Prop :=
  R (c_in c) /\ exists a, Rep (c_out c) a /\ Top d a.

Abbreviation Shorter n := (fun i : CBS => (length i <= n)%nat).

Lemma on_in_runs {A} d (m : parser A) (P : CBS -> Prop) Q :
  runs P m Q -> runs (Ready d P) (on_in m) (fun x => Ready d (Q x)).
Proof. intros Hm [i o] [Hi Ho]. specialize (Hm i Hi). unfold on_in. cbn. by destruct (m i) as [[] ?]. Qed.

Lemma on_out_runs {A} d d' R P (m : builder A) f :
  Implements malloc_ok P m f -> (forall a, Top d a -> P a) -> (forall a a', Top d a -> f a = Some a' -> Top d' a') ->
  runs (Ready d R) (on_out m) (fun _ => Ready d' R).
Proof.
  intros Hm HP Hf [i o] [Hi (a & Ho & Ha)]. specialize (Hm o a Ho (HP a Ha)). unfold on_out. cbn in *.
  destruct (m o) as [[] o']; try done. destruct Hm as (a' & E & Ho' & _). split; [done |].
  exists a'. split; [done | by eapply Hf].
Qed.

Lemma flush_runs d d' R : (d <= d')%nat -> runs (Ready d' R) (on_out (CBB_flush malloc_ok uninit d)) (fun _ => Ready d R).
Proof.
  intros Hd. eapply on_out_runs; [apply implements_flush | unfold Top; intros a; cbv beta; lia |].
  unfold Top. intros a a' Ha. apply flush_length. lia.
Qed.

Lemma add_asn1_runs d tag R :
  0 <= tag < 2 ^ 32 -> runs (Ready d R) (on_out (CBB_add_asn1 malloc_ok uninit d tag)) (fun _ => Ready (S d) R).
Proof.
  intros Htag. eapply on_out_runs; [by apply implements_add_asn1 | unfold Live, Top; lia |].
  intros a a' Ha E. cbv beta in E. rewrite (flush_top_eq d a Ha) in E. cbn [mbind option_bind] in E.
  destruct (append (der_tag tag) a) as [a1 |] eqn:E1; [| done]. injection E as <-.
  apply (f_equal S). by apply (append_top _ _ _ _ Ha E1).
Qed.

Lemma add_bytes_runs d l R :
  lenZ l < 2 ^ 64 -> runs (Ready d R) (on_out (CBB_add_bytes malloc_ok uninit d l)) (fun _ => Ready d R).
Proof.
  intros Hl. eapply on_out_runs; [apply implements_at_top; by apply implements_add_bytes | done |].
  intros a a'. apply append_top.
Qed.

Lemma with_in_runs {A} d contents (m : converter A) (P R : CBS -> Prop) Q :
  P contents -> runs (Ready d P) m (fun _ => Ready d Q) -> runs (Ready d R) (with_in contents m) (fun _ => Ready d R).
Proof.
  intros Hc Hm [i o] [Hi Ho]. specialize (Hm (mk_conv contents o) (conj Hc Ho)). unfold with_in. cbn in *.
  destruct (m _) as [[] c]; try done. by destruct Hm.
Qed.

Section Calls.
Variable convert : nat -> Z -> bool -> Z -> converter unit.
Variable n : nat.
Hypothesis convert_runs : forall d st eoc depth m,
  (m <= n)%nat -> is_constructed st = false ->
  runs (Ready d (Shorter m)) (convert d st eoc depth) (fun _ => Ready d (Shorter m)).
Hypothesis n_word : Z.of_nat n < 2 ^ 63.

Lemma convert_contents_runs d st depth contents tag hl m :
  is_constructed st = false -> 2 <= hl <= lenZ contents -> (length contents + m <= S n)%nat ->
  runs (Ready d (Shorter m)) (convert_contents malloc_ok uninit convert d st depth contents tag hl)
    (fun _ => Ready d (Shorter m)).
Proof.
  intros Hst Hhl Hm. unfold lenZ in Hhl. unfold convert_contents. apply runs_if; [apply convert_runs; [lia | done] |].
  eapply runs_bind; [apply on_in_runs, skip_runs; lia |]. intros [[] body]. cbn [snd].
  intros c [[Hc Hb] Ha]. assert (Ready d (Shorter m) c) as Hready by by split. clear Hc Ha. revert c Hready.
  apply runs_if.
  - apply (with_in_runs _ _ _ (Shorter (length body)) _ (Shorter (length body))); [done |]. apply convert_runs; [lia | done].
  - apply add_bytes_runs. unfold CBS_data, lenZ. lia.
Qed.

Lemma convert_element_runs d st depth contents tag hl m :
  is_constructed st = false -> 0 <= tag < 2 ^ 32 -> 2 <= hl <= lenZ contents -> (length contents + m <= S n)%nat ->
  runs (Ready d (Shorter m)) (convert_element malloc_ok uninit convert d st depth contents tag hl)
    (fun _ => Ready d (Shorter m)).
Proof.
  intros Hst Htag Hhl Hm. unfold convert_element. apply runs_if.
  - apply runs_if; [done |]. eapply runs_bind; [by apply convert_contents_runs |]. intros []. by apply flush_runs.
  - cbv zeta. assert (0 <= (if is_constructed tag && is_string_type tag then primitive tag else tag) < 2 ^ 32) as Hp.
    { destruct (is_constructed tag); [| done]. destruct (is_string_type tag) eqn:Es; [| done].
      apply string_type_range in Es. cbn [andb]. lia. }
    eapply runs_bind; [by apply add_asn1_runs |]. intros [].
    eapply runs_bind; [apply convert_contents_runs; [| done..] | intros []; apply flush_runs; lia].
    destruct (_ && _); [apply primitive_not_constructed | done].
Qed.
End Calls.

Lemma convert_loop_runs fuel d st eoc depth m :
  Z.of_nat fuel < 2 ^ 63 -> (m <= fuel)%nat -> is_constructed st = false ->
  runs (Ready d (Shorter m)) (convert_loop malloc_ok uninit fuel d st eoc depth) (fun _ => Ready d (Shorter m)).
Proof.
  revert d st eoc depth m. induction fuel as [| fuel IH]; intros d st eoc depth m Hw Hm Hst; cbn [convert_loop];
    intros c Hc; (erewrite prog_bind_done by done).
  { destruct c as [[| b i] o]; [by destruct eoc | destruct Hc as [Hc _]; cbn in Hc; lia]. }
  destruct (CBS_len (c_in c) =? 0); [by destruct eoc |]. cbv zeta. revert c Hc.
  eapply runs_bind; [apply on_in_runs; apply ber_element_runs |]. intros [[[contents tag] hl] fd]. cbv beta iota.
  intros c [(Hlen & Htag & Hhl) Ha]. assert (Ready d (Shorter (length (c_in c))) c) as Hc by by split.
  remember (length (c_in c)) as k eqn:Ek. unfold lenZ in Hhl.
  assert (forall x, Ready d (Shorter k) x -> Ready d (Shorter m) x) as Hk by (intros x [Hx ?]; split; [lia | done]).
  clear Ek Ha. revert c Hc. apply runs_if; [by apply runs_if; [eapply runs_ret |] |].
  eapply runs_bind; [apply (convert_element_runs _ fuel) | intros []; eapply runs_weaken; [apply (IH _ _ _ _ k) | done | done]];
    try done; try lia.
  intros d' st' eoc' depth' m' Hm' Hst'. rewrite Hst'. apply runs_if; [done |]. apply IH; [lia | done | done].
Qed.

(** A conversion into a fresh CBB returns. *)
Lemma finish_into_runs (m : converter unit) cbb n Q :
  Rep cbb [(KRoot, [])] -> runs (Ready 0 (Shorter n)) m (fun _ => Ready 0 Q) ->
  runs (Shorter n) (finish_into malloc_ok uninit m cbb) (fun _ => Q).
Proof.
  intros Hs Hm i Hi. assert (Ready 0 (Shorter n) (mk_conv i cbb)) as Hr by (split; [done | by eexists]).
  specialize (Hm _ Hr). unfold finish_into. unfold mbind, prog_bind. destruct (m (mk_conv i cbb)) as [[x | | |] c]; try done.
  destruct Hm as (Hq & a & Hc & Ha). unfold on_out, CBB_finish. cbn [Nat.eqb negb].
  by rewrite (prog_bind_done _ _ _ _ _ (flush_top malloc_ok uninit 0 _ _ Hc Ha)).
Qed.

Lemma implicit_loop_runs fuel inner :
  Z.of_nat fuel < 2 ^ 63 -> runs (Ready 0 (Shorter fuel)) (implicit_loop malloc_ok uninit fuel inner) (fun _ => Ready 0 (fun _ => True)).
Proof.
  induction fuel as [| fuel IH]; intros Hw; cbn [implicit_loop]; intros c Hc; (erewrite prog_bind_done by done).
  { destruct c as [[| b i] o]; [by destruct Hc as [_ ?] | destruct Hc as [Hc _]; cbn in Hc; lia]. }
  destruct (CBS_len (c_in c) =? 0); [by destruct Hc as [_ ?] |]. revert c Hc.
  eapply (runs_bind _ _ (fun chunk => Ready 0 (fun i => (length chunk + length i <= fuel)%nat))).
  - apply on_in_runs. intros s Hs. destruct (CBS_get_asn1_total inner s I) as (H1 & H2 & _).
    destruct (CBS_get_asn1 inner s) as [[body | | |] s1] eqn:E; try done. apply CBS_get_asn1_inverts in E as [Hok ->].
    pose proof (der_tag_length inner (proj1 Hok)). pose proof (lenZ_der inner body) as Hl. rewrite length_app in Hs.
    unfold der_header_len, lenZ in *. lia.
  - intros chunk. eapply (runs_bind _ _ (fun _ => Ready 0 (Shorter fuel))); [| intros []; apply IH; lia].
    intros c Hc. pose proof (add_bytes_runs 0 (CBS_data chunk) (Shorter fuel)) as Hadd. unfold Prelude.runs in Hadd.
    destruct Hc as [Hc Ha]. apply Hadd; [unfold CBS_data, lenZ; lia | split; [lia | done]].
Qed.

Lemma cbb_init_rep n cbb : 0 <= n < 2 ^ 63 -> CBB_init malloc_ok uninit n = Some cbb -> Rep cbb [(KRoot, [])].
Proof. intros Hn E. apply CBB_init_rep in E as [? _]; [done | lia]. Qed.

Lemma ber_to_der_runs n : Z.of_nat n < 2 ^ 63 -> runs (Shorter n) (CBS_asn1_ber_to_der malloc_ok uninit) (fun _ _ => True).
Proof.
  intros Hn. apply runs_get. intros cbs Hcbs.
  assert (runs (eq cbs) (cbs_find_ber cbs 0) (fun _ => eq cbs)) as Hfind.
  { unfold cbs_find_ber. apply runs_if; [done |]. eapply runs_bind; [| intros x; by apply runs_ret; intros s; exact id].
    eapply runs_weaken; [apply (on_runs _ _ (Shorter (length cbs)) (eq cbs)); [| apply find_ber_runs] | done | by intros ? ? [-> _]].
    unfold CBS_init, CBS_data. rewrite firstn_all. done. }
  eapply runs_bind; [exact Hfind |]. intros needed. apply runs_if.
  - apply total_runs. apply _.
  - destruct (CBB_init _ _ _) as [cbb |] eqn:Ei; [| done]. apply cbb_init_rep in Ei; [| unfold CBS_len, lenZ; lia].
    eapply runs_bind; [| done]. intros s <-. apply (finish_into_runs _ cbb n (Shorter n) Ei); [| done].
    intros c Hc. unfold cbs_convert_ber. erewrite prog_bind_done by done. change (is_constructed 0) with false.
    change (kMaxDepth <? 0) with false. cbv iota. assert (length (c_in c) <= n)%nat as Hlen by apply Hc.
    assert (Ready 0 (Shorter (length (c_in c))) c) as Hc' by (split; [lia | apply Hc]).
    pose proof (convert_loop_runs (length (c_in c)) 0 0 false 0 (length (c_in c)) ltac:(lia) ltac:(lia) eq_refl c Hc') as Hrun.
    destruct (convert_loop _ _ _ _ _ _ _ c) as [[] c']; try done. destruct Hrun as [Hl Ha]. split; [lia | done].
Qed.

Lemma implicit_string_runs n outer inner :
  Z.of_nat n < 2 ^ 63 -> is_constructed outer = false -> is_constructed inner = false -> is_string_type inner = true ->
  runs (Shorter n) (CBS_get_asn1_implicit_string malloc_ok uninit outer inner) (fun _ _ => True).
Proof.
  intros Hn Ho Hi Hs. unfold CBS_get_asn1_implicit_string. rewrite Ho, Hi, Hs. cbn [orb negb].
  apply runs_get. intros cbs Hcbs. apply runs_if; [apply total_runs; apply safe_bind; apply _ |].
  destruct (CBB_init _ _ _) as [cbb |] eqn:Ei; [| done]. apply cbb_init_rep in Ei; [| unfold CBS_len, lenZ; lia].
  eapply (runs_bind _ _ (fun child _ => (length child <= n)%nat)).
  - intros s <-. destruct (CBS_get_asn1_total (outer .| CBS_ASN1_CONSTRUCTED) cbs I) as (H1 & H2 & _).
    destruct (CBS_get_asn1 _ cbs) as [[child | | |] s1] eqn:E; try done. apply CBS_get_asn1_inverts in E as [_ ->].
    unfold der in Hcbs. rewrite !length_app in Hcbs. lia.
  - intros child. apply (runs_assume _ (length child <= n)%nat); [done | intros Hc].
    eapply runs_bind; [| done]. apply (on_runs child _ (Shorter (length child)) _ (fun _ _ => True)); [done |].
    apply (finish_into_runs _ cbb _ (fun _ => True) Ei). apply implicit_loop_runs. lia.
Qed.

(** *** Strings in pieces *)

Lemma implicit_run fuel inner pieces :
  0 <= inner < 2 ^ 32 -> Forall (fun p => lenZ p < 2 ^ 32) pieces -> (length (flat_map (der inner) pieces) <= fuel)%nat ->
  Appends malloc_ok 0 (implicit_loop malloc_ok uninit fuel inner) (flat_map (der inner) pieces) [] (concat pieces).
Proof.
  intros Hi. revert fuel. induction pieces as [| p pieces IH]; intros fuel Hp Hf.
  { eapply appends_eq; [| apply appends_ret]. intros s. by destruct fuel. }
  cbn [flat_map concat] in *. apply Forall_cons in Hp as [Hp1 Hp]. rewrite length_app in Hf.
  pose proof (der_tag_length inner Hi) as Hlt. pose proof (lenZ_der inner p) as Hl. unfold der_header_len in Hl.
  assert (0 < lenZ (der inner p)) as Hpos by (unfold lenZ in *; lia).
  destruct fuel as [| fuel]; [unfold lenZ in *; lia |]. eapply appends_eq.
  { intros s. cbn [implicit_loop]. erewrite prog_bind_done by done. cbn [c_in]. unfold CBS_len. rewrite lenZ_app.
    rewrite (proj2 (Z.eqb_neq _ 0)) by (unfold lenZ in *; lia). reflexivity. }
  apply (appends_in _ _ _ p _ _ (flat_map (der inner) pieces)); [by apply (CBS_get_asn1_inverts inner); split |].
  eapply appends_bind; [apply appends_bytes; unfold CBS_data; lia | intros []; apply IH; [done | unfold lenZ in *; lia]].
Qed.

Lemma pieces_length inner pieces : lenZ (concat pieces) <= lenZ (flat_map (der inner) pieces).
Proof.
  induction pieces as [| p pieces IH]; [done |]. cbn [concat flat_map]. rewrite !lenZ_app.
  pose proof (lenZ_der_le inner p). lia.
Qed.

Lemma piece_length inner p pieces : In p pieces -> lenZ p <= lenZ (flat_map (der inner) pieces).
Proof.
  induction pieces as [| q pieces IH]; [done |]. cbn [flat_map]. rewrite lenZ_app. pose proof (lenZ_der_le inner q).
  intros [<- | Hin]; [unfold lenZ in *; lia |]. specialize (IH Hin). unfold lenZ in *. lia.
Qed.

Lemma constructed_tag_neq outer :
  0 <= outer < 2 ^ 32 -> is_constructed outer = false ->
  0 <= outer .| CBS_ASN1_CONSTRUCTED < 2 ^ 32 /\ outer <> outer .| CBS_ASN1_CONSTRUCTED.
Proof.
  intros Ho Hc. unfold is_constructed in Hc. apply negb_false_iff, Z.eqb_eq in Hc.
  split; [by apply lor_lt_pow2 |]. rewrite <- Z.add_nocarry_lor by done. change CBS_ASN1_CONSTRUCTED with (2 ^ 29). lia.
Qed.

(** ** Properties *)

(** C30: BER is converted to DER.  On the encoding of any sequence of BER values (any mix
    of definite and indefinite lengths, of minimal and padded length forms, and of
    strings cut in nested pieces, up to the depth bound) [CBS_asn1_ber_to_der] runs
    through: if the search reports a BER form it consumes all of the input and returns
    the DER encodings of the same values, strings put together and lengths minimal;
    otherwise it returns the first element as it stands and leaves the rest.  A value
    without any BER form is already its DER encoding. *)
Theorem ber_to_der_converts (t : ber) (l : list ber) :
  (forall k, 0 <= k < 2 ^ 63 -> malloc_ok k = true) ->
  forallb (wf 0) (t :: l) = true -> heights (t :: l) <= kMaxDepth ->
  lenZ (flat_map enc (t :: l)) < 2 ^ 62 -> lenZ (flat_map (der_of 0) (t :: l)) <= 4294967294 ->
  CBS_asn1_ber_to_der malloc_ok uninit (flat_map enc (t :: l))
  = (if search nested false (t :: l) then (Done (flat_map (der_of 0) (t :: l), true), [])
     else (Done (enc t, false), flat_map enc l)) /\
  (has_ber t = false -> enc t = der_of 0 t).
Proof.
  intros Hm Hw Hh He Hd. split; [by apply ber_to_der_run |]. apply no_ber_der. cbn [forallb] in Hw. by apply andb_true_iff in Hw as [? _].
Qed.

(** It succeeded or failed. *)
Definition returns {A} (o : outcome A) : Prop := o <> Stuck /\ o <> NoFuel.

(** C36: reading BER always ends, inside its buffers.  On any input below 2^63 bytes, well
    formed or not, with memory that may run out at any point, [CBS_asn1_ber_to_der]
    and, for a string tag, [CBS_get_asn1_implicit_string] return or fail: they do not
    read outside the input, do not write outside the CBB, trip no assertion and make
    no more rounds and nested calls than the input has bytes. *)
Theorem ber_reading_terminates (cbs : CBS) (outer inner : Z) :
  lenZ cbs < 2 ^ 63 -> is_constructed outer = false -> is_constructed inner = false -> is_string_type inner = true ->
  returns (CBS_asn1_ber_to_der malloc_ok uninit cbs).1 /\
  returns (CBS_get_asn1_implicit_string malloc_ok uninit outer inner cbs).1.
Proof.
  intros Hl Ho Hi Hs. unfold lenZ in Hl. split.
  - pose proof (ber_to_der_runs (length cbs) Hl cbs (le_n _)) as Hr. by destruct (CBS_asn1_ber_to_der _ _ cbs) as [[] ?].
  - pose proof (implicit_string_runs (length cbs) outer inner Hl Ho Hi Hs cbs (le_n _)) as Hr.
    by destruct (CBS_get_asn1_implicit_string _ _ _ _ cbs) as [[] ?].
Qed.

(** An implicitly-tagged string is read whole, in one piece or in several.  A
    primitive element with the outer tag gives its contents, without a copy; a
    constructed one, whose contents are elements with the inner tag, the concatenation
    of theirs, in new storage; what follows the element is left. *)
Theorem implicit_string_concat (outer inner : Z) (body rest : list byte) (pieces : list (list byte)) :
  (forall k, 0 <= k < 2 ^ 63 -> malloc_ok k = true) ->
  0 <= outer < 2 ^ 32 -> 0 <= inner < 2 ^ 32 ->
  is_constructed outer = false -> is_constructed inner = false -> is_string_type inner = true ->
  lenZ body < 2 ^ 32 -> lenZ (flat_map (der inner) pieces) < 2 ^ 32 -> lenZ rest < 2 ^ 61 ->
  CBS_get_asn1_implicit_string malloc_ok uninit outer inner (der outer body ++ rest) = (Done (body, false), rest) /\
  CBS_get_asn1_implicit_string malloc_ok uninit outer inner
    (der (outer .| CBS_ASN1_CONSTRUCTED) (flat_map (der inner) pieces) ++ rest) = (Done (concat pieces, true), rest).
Proof.
  intros Hm Hou Hin Ho Hi Hs Hb Hp Hr. unfold CBS_get_asn1_implicit_string. rewrite Ho, Hi, Hs. cbn [orb negb].
  destruct (constructed_tag_neq outer Hou Ho) as [Hc Hne]. split; (erewrite prog_bind_done by done).
  - rewrite (proj2 (peek_spec _ outer Hou)) by (unfold der; rewrite <- !app_assoc; by eexists).
    by rewrite (prog_bind_done _ _ _ body rest (proj2 (CBS_get_asn1_inverts outer _ _ _) (conj (conj Hou Hb) eq_refl))).
  - destruct (CBS_peek_asn1_tag _ outer) eqn:Epeek.
    { exfalso. apply Hne. apply (peek_spec _ outer Hou) in Epeek as [u E]. unfold der in E. rewrite <- !app_assoc in E.
      pose proof (inverts_run parse_asn1_tag der_tag _ outer u Hou) as E1. rewrite <- E in E1.
      rewrite (inverts_run parse_asn1_tag der_tag _ _ _ Hc) in E1. by injection E1 as E1 _. }
    assert (0 <= CBS_len (der (outer .| CBS_ASN1_CONSTRUCTED) (flat_map (der inner) pieces) ++ rest) < 2 ^ 62) as Hlen.
    { unfold CBS_len. rewrite lenZ_app, lenZ_der. unfold der_header_len. pose proof (der_tag_length _ Hc).
      pose proof (der_len_length (lenZ (flat_map (der inner) pieces))). unfold lenZ in *. lia. }
    destruct (CBB_init_total _ Hm Hlen) as [cbb Ei]. rewrite Ei. apply CBB_init_rep in Ei as [Hrep Hres]; [| lia].
    rewrite (prog_bind_done _ _ _ _ rest (proj2 (CBS_get_asn1_inverts _ _ _ _) (conj (conj Hc Hp) eq_refl))).
    pose proof (pieces_length inner pieces) as Hcat.
    rewrite (prog_bind_done _ _ _ (concat pieces, []) rest); [done |]. unfold on.
    rewrite (finish_into_run _ cbb _ [] (concat pieces) Hrep Hres Hm); [done | lia |].
    apply implicit_run; [done | | done]. apply List.Forall_forall. intros p Hp'. pose proof (piece_length inner p pieces Hp'). lia.
Qed.

End Spec.

(** The conversion at work: a SEQUENCE of indefinite length, whose OCTET STRING is cut in
    two pieces and whose INTEGER has a padded length. *)
Definition ber_value : ber :=
  Cons 536870928 None
    [Cons 536870916 (Some Short) [Prim 4 Short [x01; x02]; Prim 4 (Long 2) [x03]]; Prim 2 (Long 1) [x05]].

Lemma ber_to_der_converts_witness :
  enc ber_value = [x30; x80; x24; x09; x04; x02; x01; x02; x04; x82; x00; x01; x03; x02; x81; x01; x05; x00; x00] /\
  CBS_asn1_ber_to_der (fun _ => true) x00 (flat_map enc [ber_value])
  = (Done ([x30; x08; x04; x03; x01; x02; x03; x02; x01; x05], true), []).
Proof.
  split; [by vm_compute |].
  refine (eq_trans (proj1 (ber_to_der_converts (fun _ => true) x00 ber_value [] _ _ _ _ _)) _); [done | by vm_compute ..].
Defined.

Lemma ber_reading_terminates_witness :
  returns (CBS_asn1_ber_to_der (fun n => n <? 20) x00 [x30; x80; x02; x81; x01; x05]).1 /\
  returns (CBS_get_asn1_implicit_string (fun n => n <? 20) x00 2147483648 4 [x30; x80; x02; x81; x01; x05]).1.
Proof. apply (ber_reading_terminates (fun n => n <? 20) x00 [x30; x80; x02; x81; x01; x05] 2147483648 4); by vm_compute. Defined.

Lemma implicit_string_concat_witness :
  CBS_get_asn1_implicit_string (fun _ => true) x00 2147483648 4 (der 2147483648 [x01] ++ [x05]) = (Done ([x01], false), [x05]) /\
  CBS_get_asn1_implicit_string (fun _ => true) x00 2147483648 4
    (der (2147483648 .| CBS_ASN1_CONSTRUCTED) (flat_map (der 4) [[x01]; []; [x02; x03]]) ++ [x05])
  = (Done ([x01; x02; x03], true), [x05]).
Proof.
  apply (implicit_string_concat (fun _ => true) x00 2147483648 4 [x01] [x05] [[x01]; []; [x02; x03]]);
    solve [done | by vm_compute].
Defined.

(** *** What the search misses *)

(** The elements whose own form the search looks at: those of the list, and those that it
    sees in the last one, if that is constructed. *)
Inductive seen : list ber -> ber -> Prop :=
  | seen_here l t : In t l -> seen l t
  | seen_last l tag f ch t : seen ch t -> seen (l ++ [Cons tag f ch]) t.

Lemma search_snoc found l t : search nested found (l ++ [t]) = existsb head_ber l || (head_ber t || nested t).
Proof.
  revert found. induction l as [| u l IH]; intros found; cbn [app search existsb]; [by destruct (head_ber t) |].
  by destruct (head_ber u); [| rewrite IH].
Qed.

Lemma seen_search l t : seen l t -> head_ber t = true -> search nested false l = true.
Proof.
  intros Hs Ht. induction Hs as [l t Hin | l tag f ch t Hs IH].
  - generalize false. induction l as [| u l IH]; intros found; [done |]. cbn [search].
    destruct Hin as [-> | Hin]; [by rewrite Ht |]. by destruct (head_ber u); [| apply IH].
  - rewrite search_snoc. cbn [nested]. by rewrite IH, !orb_true_r.
Qed.

Lemma search_seen n l :
  heights l <= Z.of_nat n -> search nested false l = true -> exists t, seen l t /\ head_ber t = true.
Proof.
  revert l. induction n as [| n IH]; intros l Hn; (destruct l as [| t l] using rev_ind; [done |]);
    rewrite search_snoc, !orb_true_iff, existsb_exists; (intros [(u & Hu & Hh) | [Hh | Hh]];
      [exists u; split; [apply seen_here, in_or_app; by left | done] | exists t; split; [apply seen_here, in_or_app; right; by left | done] |]);
    (destruct t as [| tag f ch]; [done |]); cbn [nested] in Hh;
    assert (Z.of_nat (height (Cons tag f ch)) <= heights (l ++ [Cons tag f ch])) as Hl
      by (clear; induction l as [| u l IH]; cbn [app]; rewrite heights_cons; lia);
    rewrite height_children in Hl; pose proof (heights_nonneg ch); [lia |].
  destruct (IH ch ltac:(lia) Hh) as (u & Hu & Hhu). exists u. split; [by apply seen_last | done].
Qed.

(** A DER element, read as BER. *)
Lemma der_element_run tag body rest :
  0 <= tag < 2 ^ 32 -> lenZ body < 2 ^ 32 ->
  CBS_get_any_ber_asn1_element (der tag body ++ rest)
  = (Done (der tag body, tag, lenZ (der_tag tag ++ der_len (lenZ body)), false), rest).
Proof.
  intros Ht Hb. assert (0 <= lenZ body) as H0 by (unfold lenZ; lia).
  assert (exists f, len_ok f (lenZ body) = true /\ minimal f (lenZ body) = true) as (f & Hf & Hm).
  { destruct (Z.ltb_spec (lenZ body) 128) as [Hlt | Hge]; [exists Short; cbn; by rewrite (proj2 (Z.ltb_lt _ _)) |].
    destruct (der_len_long (lenZ body)) as (k & Hk & _ & Hn & Hmin); [lia |]. exists (Long k). cbn [len_ok minimal].
    rewrite !andb_true_iff, !Nat.leb_le, Z.ltb_lt, !Z.leb_le. lia. }
  unfold der. rewrite <- !app_assoc, <- (minimal_der_len f) by done. rewrite ber_element_run by done.
  by rewrite Hm, <- app_assoc.
Qed.

(** Only a value without a BER form is written as DER writes it. *)
Lemma der_no_ber t :
  wf 0 t = true -> lenZ (der_of 0 t) < 2 ^ 32 -> forall r r', enc t ++ r = der_of 0 t ++ r' -> has_ber t = false /\ r = r'.
Proof.
  revert t. fix der_no_ber 1. intros t Hw Hl r r' E. apply (f_equal CBS_get_any_ber_asn1_element) in E.
  destruct t as [tag f body | tag [f |] l].
  - apply wf_prim in Hw as (Ht & _ & _ & Hf & _). cbn [enc der_of Z.eqb has_ber head_ber] in *.
    pose proof (len_ok_word _ _ Hf). rewrite <- !app_assoc, ber_element_run, der_element_run in E by done. injection E as _ _ E ->. by rewrite E.
  - apply wf_cons in Hw as (Ht & _ & Hc & Hf & Hch). specialize (Hf f eq_refl).
    cbn [enc der_of Z.eqb has_ber head_ber] in *. rewrite lenZ_der in Hl. unfold der_header_len in Hl.
    set (tag' := if is_string_type tag then primitive tag else tag) in *.
    set (body' := flat_map (der_of (child_string 0 tag)) l) in *.
    assert (0 <= tag' < 2 ^ 32) as Ht' by (subst tag'; destruct (is_string_type tag) eqn:Es; [apply string_type_range in Es; lia | done]).
    assert (lenZ body' < 2 ^ 32) as Hb' by (unfold lenZ in *; lia).
    rewrite <- !app_assoc, ber_element_run, der_element_run in E by done. injection E as Eb Et El Em Er.
    destruct (is_string_type tag) eqn:Es; subst tag'.
    { rewrite Et, primitive_not_constructed in Hc. done. }
    unfold child_string in *. cbn [Z.eqb] in *. rewrite Es in *. rewrite Em. cbn [orb]. split; [| done].
    assert (flat_map enc l = body') as Ech.
    { unfold der in Eb. rewrite app_assoc in Eb.
      apply app_inj_1 in Eb as [_ ?]; [done |]. apply Nat2Z.inj. exact El. }
    subst body'. rewrite Es in Hb', Ech. clear Eb El Em Er Hf Hc Es Ht Ht' Hl.
    assert (lenZ (flat_map (der_of 0) l) < 2 ^ 32) as Hlen by exact Hb'. clear Hb'.
    assert (exists r, flat_map enc l ++ r = flat_map (der_of 0) l ++ r) as [r2 E2] by (exists []; by rewrite Ech).
    clear Ech. induction l as [| t l IH]; [done |]. cbn [forallb existsb flat_map] in *.
    apply andb_true_iff in Hch as [Hwt Hwl]. rewrite lenZ_app in Hlen. rewrite <- !app_assoc in E2.
    destruct (der_no_ber t Hwt) with (r := flat_map enc l ++ r2) (r' := flat_map (der_of 0) l ++ r2) as [-> E3];
      [unfold lenZ in *; lia | done |]. apply IH; [done | unfold lenZ in *; lia | done].
  - apply wf_cons in Hw as (Ht & _ & Hc & _). cbn [enc der_of Z.eqb] in *. rewrite lenZ_der in Hl. unfold der_header_len in Hl.
    rewrite <- !app_assoc in E. cbn [app] in E. rewrite indefinite_element_run, der_element_run in E; [done | | | done | done].
    + destruct (is_string_type tag) eqn:Es; [apply string_type_range in Es; lia | done].
    + unfold lenZ in *; lia.
Qed.

(** C38: the search forgets.  [cbs_find_ber] is to find out whether there is a BER form ("[*ber_found] to one or
    zero, depending on whether an indefinite length element or constructed string was
    found"), but the result of a nested call is overwritten by the element that follows.
    On the encoding of any sequence of BER values [CBS_asn1_ber_to_der] hands out the
    first one as it stands exactly when no element that the search sees ([seen]: the
    ones of the list, then those inside the last one of each list) has a BER form of
    its own; and what it hands out is DER exactly when no element has, seen or not. *)
Theorem find_ber_forgets (malloc_ok : Z -> bool) (uninit : byte) (t : ber) (l : list ber) :
  (forall k, 0 <= k < 2 ^ 63 -> malloc_ok k = true) ->
  forallb (wf 0) (t :: l) = true -> heights (t :: l) <= kMaxDepth ->
  lenZ (flat_map enc (t :: l)) < 2 ^ 62 -> lenZ (flat_map (der_of 0) (t :: l)) <= 4294967294 ->
  (CBS_asn1_ber_to_der malloc_ok uninit (flat_map enc (t :: l)) = (Done (enc t, false), flat_map enc l)
   <-> forall u, seen (t :: l) u -> head_ber u = false) /\
  (enc t = der_of 0 t <-> has_ber t = false).
Proof.
  intros Hm Hw Hh He Hd. split.
  - rewrite ber_to_der_run by done. destruct (search nested false (t :: l)) eqn:Es.
    + split; [done |]. intros Hall. destruct (search_seen (Z.to_nat (heights (t :: l))) (t :: l)) as (u & Hu & Hhu); [lia | done |].
      by rewrite (Hall u Hu) in Hhu.
    + split; [| done]. intros _ u Hu. destruct (head_ber u) eqn:Eu; [| done]. by rewrite (seen_search _ _ Hu Eu) in Es.
  - cbn [forallb flat_map] in Hw, Hd. apply andb_true_iff in Hw as [Hw _]. rewrite lenZ_app in Hd. split; [| by apply no_ber_der].
    intros E. apply (der_no_ber t Hw) with (r := []) (r' := []); [unfold lenZ in *; lia | by rewrite E].
Qed.

(** A SEQUENCE of a SEQUENCE of an OCTET STRING in two pieces of indefinite length, with
    an INTEGER before the inner SEQUENCE or after it. *)
Definition ber_inside : ber := Cons 536870928 (Some Short) [Cons 536870916 None [Prim 4 Short [xaa]; Prim 4 Short [xbb]]].
Definition ber_last : ber := Cons 536870928 (Some Short) [Prim 2 Short [x00]; ber_inside].
Definition ber_first : ber := Cons 536870928 (Some Short) [ber_inside; Prim 2 Short [x00]].

Lemma find_ber_forgets_witness :
  (CBS_asn1_ber_to_der (fun _ => true) x00 (flat_map enc [ber_first]) = (Done (enc ber_first, false), [])
   <-> forall u, seen [ber_first] u -> head_ber u = false) /\
  (enc ber_first = der_of 0 ber_first <-> has_ber ber_first = false).
Proof. apply (find_ber_forgets (fun _ => true) x00 ber_first []); solve [done | by vm_compute]. Defined.

(** The OCTET STRING is found in the one, and handed out as it is in the other. *)
Example ber_found_or_not :
  CBS_asn1_ber_to_der (fun _ => true) x00 (enc ber_last) = (Done (der_of 0 ber_last, true), []) /\
  CBS_asn1_ber_to_der (fun _ => true) x00 (enc ber_first) = (Done (enc ber_first, false), []) /\
  has_ber ber_first = true.
Proof. by vm_compute. Qed.
