(* ===== verification/Unicode.v ===== *)
(** * Character sets of ASN.1 strings

    [crypto/bytestring/unicode.c]: UTF-8, Latin-1, UCS-2 and UTF-32 code points
    read from a [CBS] and added to a [CBB].  The UTF-8 decoder is shown to accept
    exactly what the encoder writes: no overlong form, no surrogate, no value out
    of range. *)

From S2P Require Import Prelude Crypto Cbs CbsAsn1 Cbb CbbSpec.

(** ** Definitions *)

Definition is_valid_code_point (v : Z) : bool :=
  negb ((1114111 <? v)
        || (v .& 65534 =? 65534)
        || ((64976 <=? v) && (v <=? 65007))
        || ((55296 <=? v) && (v <=? 57343))).

Definition BOTTOM_BITS (n : Z) : Z := u8 ((1 .<< n) - 1).
Definition TOP_BITS (n : Z) : Z := u8 (Z.lnot (BOTTOM_BITS (8 - n))).

(** The loop over the continuation bytes. *)
Fixpoint utf8_loop (n : nat) (v : Z) : parser Z :=
  match n with
  | O => mret v
  | S n =>
      c ← CBS_get_u8;
      if negb (c .& TOP_BITS 2 =? TOP_BITS 1) then fail else
      utf8_loop n (u32 (v .<< 6) .| (c .& BOTTOM_BITS 6))
  end.

Definition cbs_get_utf8 : parser Z :=
  c ← CBS_get_u8;
  if c <=? 127 then mret c else
  let finish (n : nat) (v lower_bound : Z) : parser Z :=
    v ← utf8_loop n v;
    if negb (is_valid_code_point v) || (v <? lower_bound) then fail else mret v in
  if c .& TOP_BITS 3 =? TOP_BITS 2 then finish 1%nat (c .& BOTTOM_BITS 5) 128
  else if c .& TOP_BITS 4 =? TOP_BITS 3 then finish 2%nat (c .& BOTTOM_BITS 4) 2048
  else if c .& TOP_BITS 5 =? TOP_BITS 4 then finish 3%nat (c .& BOTTOM_BITS 3) 65536
  else fail.

Definition cbs_get_latin1 : parser Z := CBS_get_u8.

Definition cbs_get_ucs2_be : parser Z :=
  c ← CBS_get_u16; if negb (is_valid_code_point c) then fail else mret c.

Definition cbs_get_utf32_be : parser Z :=
  v ← CBS_get_u32; if is_valid_code_point v then mret v else fail.

Definition cbb_get_utf8_len (u : Z) : Z :=
  if u <=? 127 then 1 else if u <=? 2047 then 2 else if u <=? 65535 then 3 else 4.

Section Cbb.
Variable malloc_ok : Z -> bool.
Variable uninit : byte.
Abbreviation add_u8 d v := (CBB_add_u8 malloc_ok uninit d v).

(** [CBB_add_u8] takes a [uint8_t]. *)
Definition cbb_add_utf8 (d : nat) (u : Z) : builder unit :=
  if negb (is_valid_code_point u) then fail
  else if u <=? 127 then add_u8 d (u8 u)
  else if u <=? 2047 then
    _ ← add_u8 d (u8 (TOP_BITS 2 .| (u .>> 6)));
    add_u8 d (u8 (TOP_BITS 1 .| (u .& BOTTOM_BITS 6)))
  else if u <=? 65535 then
    _ ← add_u8 d (u8 (TOP_BITS 3 .| (u .>> 12)));
    _ ← add_u8 d (u8 (TOP_BITS 1 .| ((u .>> 6) .& BOTTOM_BITS 6)));
    add_u8 d (u8 (TOP_BITS 1 .| (u .& BOTTOM_BITS 6)))
  else if u <=? 1114111 then
    _ ← add_u8 d (u8 (TOP_BITS 4 .| (u .>> 18)));
    _ ← add_u8 d (u8 (TOP_BITS 1 .| ((u .>> 12) .& BOTTOM_BITS 6)));
    _ ← add_u8 d (u8 (TOP_BITS 1 .| ((u .>> 6) .& BOTTOM_BITS 6)));
    add_u8 d (u8 (TOP_BITS 1 .| (u .& BOTTOM_BITS 6)))
  else fail.

Definition cbb_add_latin1 (d : nat) (u : Z) : builder unit :=
  if u <=? 255 then add_u8 d (u8 u) else fail.

Definition cbb_add_ucs2_be (d : nat) (u : Z) : builder unit :=
  if (u <=? 65535) && is_valid_code_point u then CBB_add_u16 malloc_ok uninit d (u16 u) else fail.

Definition cbb_add_utf32_be (d : nat) (u : Z) : builder unit :=
  if is_valid_code_point u then CBB_add_u32 malloc_ok uninit d u else fail.
End Cbb.

(** ** The UTF-8 form *)

(** [n] continuation bytes of [u], most significant first. *)
Fixpoint conts (n : nat) (u : Z) : list byte :=
  match n with
  | O => []
  | S j => z2b (128 + (u / 64 ^ Z.of_nat j) mod 64) :: conts j u
  end.

Definition utf8 (u : Z) : list byte :=
  if u <? 128 then [z2b u]
  else if u <? 2048 then z2b (192 + u / 64) :: conts 1 u
  else if u <? 65536 then z2b (224 + u / 4096) :: conts 2 u
  else z2b (240 + u / 262144) :: conts 3 u.

Definition valid_cp (u : Z) : Prop := 0 <= u /\ is_valid_code_point u = true.

Lemma valid_cp_range u : valid_cp u -> 0 <= u <= 1114111.
Proof.
  intros [Hu Hv]. split; [done |]. unfold is_valid_code_point in Hv.
  destruct (Z.ltb_spec 1114111 u); [done | lia].
Qed.

(** Classes of bytes. *)
Lemma byte_classes c :
  0 <= c < 256 ->
  (c .& TOP_BITS 2 =? TOP_BITS 1) = ((128 <=? c) && (c <? 192)) /\
  (c .& TOP_BITS 3 =? TOP_BITS 2) = ((192 <=? c) && (c <? 224)) /\
  (c .& TOP_BITS 4 =? TOP_BITS 3) = ((224 <=? c) && (c <? 240)) /\
  (c .& TOP_BITS 5 =? TOP_BITS 4) = ((240 <=? c) && (c <? 248)).
Proof.
  intros Hc. rewrite <- (b2z_z2b_small c Hc). generalize (z2b c). clear. intros b.
  split_and!; apply eqb_prop; revert b; by apply byte_forallb.
Qed.

Lemma bottom_bits z :
  z .& BOTTOM_BITS 6 = z mod 64 /\ z .& BOTTOM_BITS 5 = z mod 32 /\
  z .& BOTTOM_BITS 4 = z mod 16 /\ z .& BOTTOM_BITS 3 = z mod 8.
Proof.
  split_and!; [apply land_3f | apply land_1f | by apply (land_mod z 4) | apply land_07].
Qed.

Lemma pow64_S k : 64 ^ Z.of_nat (S k) = 64 * 64 ^ Z.of_nat k.
Proof. by rewrite Nat2Z.inj_succ, Z.pow_succ_r by lia. Qed.

(** The loop accepts exactly the continuation bytes of the numbers above [v]. *)
Lemma utf8_loop_iff n v s r s' :
  0 <= v -> (v + 1) * 64 ^ Z.of_nat n <= 2 ^ 32 ->
  utf8_loop n v s = (Done r, s') <-> (0 <= r /\ r / 64 ^ Z.of_nat n = v) /\ s = conts n r ++ s'.
Proof.
  revert v s. induction n as [| n IH]; intros v s Hv Hb; cbn [utf8_loop conts app].
  - rewrite Z.div_1_r. split; [by intros [= <- <-] |]. by intros [[_ ->] ->].
  - rewrite pow64_S in *. assert (0 < 64 ^ Z.of_nat n) by lia.
    assert (forall c, 128 <= c < 192 -> u32 (v .<< 6) .| (c .& BOTTOM_BITS 6) = v * 64 + (c - 128)) as Hstep.
    { intros c Hc. destruct (bottom_bits c) as [-> _].
      rewrite wrap_small by (rewrite Z.shiftl_mul_pow2 by lia; nia).
      rewrite lor_shl by dlia. dlia. }
    rewrite prog_bind_iff. split.
    + intros (c & s1 & [Hc ->]%CBS_get_u8_inverts & E). destruct (byte_classes c Hc) as [Ec _].
      rewrite Ec in E. clear Ec.
      destruct (Z.leb_spec 128 c), (Z.ltb_spec c 192); try done. cbn [andb negb] in E.
      rewrite Hstep in E by lia. apply IH in E as [[Hr Hd] ->]; [| lia | nia].
      split; [split; [done |] |].
      * rewrite (Z.mul_comm 64), <- Z.div_div, Hd by lia. dlia.
      * rewrite be_bytes_1, Hd. cbn [app]. do 2 f_equal. dlia.
    + intros [[Hr Hd] ->]. set (d := r / 64 ^ Z.of_nat n).
      assert (0 <= d) by (apply Z.div_pos; lia).
      assert (d / 64 = v) as Hd' by (subst d; rewrite Z.div_div, (Z.mul_comm _ 64) by lia; done).
      exists (128 + d mod 64), (conts n r ++ s'). split.
      * change (z2b (128 + d mod 64) :: conts n r ++ s') with ([z2b (128 + d mod 64)] ++ (conts n r ++ s')).
        rewrite <- be_bytes_1. apply CBS_get_u8_inverts. split; [dlia | done].
      * destruct (byte_classes (128 + d mod 64)) as [-> _]; [dlia |].
        rewrite (proj2 (Z.leb_le _ _)), (proj2 (Z.ltb_lt _ _)) by dlia. cbn [andb negb].
        rewrite Hstep by dlia. replace (v * 64 + (128 + d mod 64 - 128)) with d by dlia.
        assert (d + 1 <= (v + 1) * 64) by dlia. apply IH; [lia | nia | done].
Qed.

Lemma length_conts n u : length (conts n u) = n.
Proof. induction n as [| n IH]; simpl; [done | by rewrite IH]. Qed.

(** The tail of the decoder: [n] continuation bytes after a first byte that gives
    the bits [v]. *)
Lemma utf8_finish_iff n v lower s u s' :
  0 <= v -> (v + 1) * 64 ^ Z.of_nat n <= 2 ^ 32 ->
  (v' ← utf8_loop n v; if negb (is_valid_code_point v') || (v' <? lower) then fail else mret v') s
  = (Done u, s') <->
  valid_cp u /\ lower <= u /\ u / 64 ^ Z.of_nat n = v /\ s = conts n u ++ s'.
Proof.
  intros Hv Hb. rewrite prog_bind_iff. split.
  - intros (v' & s1 & E & E2). apply utf8_loop_iff in E as [[Hr Hd] ->]; [| done..].
    destruct (is_valid_code_point v') eqn:Ev; [| done]. cbn [negb orb] in E2.
    destruct (Z.ltb_spec v' lower); [done |]. injection E2 as <- <-. done.
  - intros ([Hu Hv'] & Hl & Hd & ->). exists u, s'. split; [by apply utf8_loop_iff |].
    rewrite Hv', (proj2 (Z.ltb_ge _ _)) by done. done.
Qed.

#[export] Instance cbs_get_utf8_inverts : Inverts cbs_get_utf8 utf8 valid_cp.
Proof.
  intros s u s'. unfold cbs_get_utf8, utf8. rewrite prog_bind_iff.
  assert (forall c, c .& BOTTOM_BITS 5 = c mod 32 /\ c .& BOTTOM_BITS 4 = c mod 16 /\
                    c .& BOTTOM_BITS 3 = c mod 8) as Hbits.
  { intros c. destruct (bottom_bits c) as (_ & ? & ? & ?). done. }
  split.
  - intros (c & s1 & [Hc ->]%CBS_get_u8_inverts & E). cbv zeta in E. rewrite be_bytes_1.
    destruct (Z.leb_spec c 127).
    { injection E as <- <-. rewrite (proj2 (Z.ltb_lt c 128)) by lia. split; [| done].
      split; [lia |]. unfold is_valid_code_point.
      rewrite (proj2 (Z.ltb_ge _ c)), (proj2 (Z.leb_gt 64976 c)), (proj2 (Z.leb_gt 55296 c)) by lia.
      rewrite (proj2 (Z.eqb_neq (c .& 65534) 65534)); [done |].
      rewrite Z.land_comm. pose proof (land_lt_pow2 c 65534 7 ltac:(lia)) as Hl.
      rewrite Z.land_comm. specialize (Hl ltac:(lia)). lia. }
    destruct (byte_classes c Hc) as (_ & E2 & E3 & E4). destruct (Hbits c) as (B5 & B4 & B3).
    rewrite E2, E3, E4, B5, B4, B3 in E. clear E2 E3 E4 B5 B4 B3.
    destruct (Z.leb_spec 192 c), (Z.ltb_spec c 224); cbn [andb] in E; try lia.
    + apply utf8_finish_iff in E as (Hu & Hlow & Hd & ->); [| dlia..].
      change (64 ^ Z.of_nat 1) with 64 in Hd. pose proof (valid_cp_range u Hu).
      split; [done |]. rewrite (proj2 (Z.ltb_ge u 128)), (proj2 (Z.ltb_lt u 2048)) by dlia.
      cbn [app]. do 2 f_equal. dlia.
    + destruct (Z.leb_spec 224 c), (Z.ltb_spec c 240); cbn [andb] in E; try lia.
      * apply utf8_finish_iff in E as (Hu & Hlow & Hd & ->); [| dlia..].
        change (64 ^ Z.of_nat 2) with 4096 in Hd. pose proof (valid_cp_range u Hu).
        split; [done |]. rewrite (proj2 (Z.ltb_ge u 128)), (proj2 (Z.ltb_ge u 2048)),
          (proj2 (Z.ltb_lt u 65536)) by dlia.
        cbn [app]. do 2 f_equal. dlia.
      * destruct (Z.leb_spec 240 c), (Z.ltb_spec c 248); cbn [andb] in E; try lia; [| done].
        apply utf8_finish_iff in E as (Hu & Hlow & Hd & ->); [| dlia..].
        change (64 ^ Z.of_nat 3) with 262144 in Hd. pose proof (valid_cp_range u Hu).
        split; [done |]. rewrite (proj2 (Z.ltb_ge u 128)), (proj2 (Z.ltb_ge u 2048)),
          (proj2 (Z.ltb_ge u 65536)) by dlia.
        cbn [app]. do 2 f_equal. dlia.
    + destruct (Z.leb_spec 224 c), (Z.ltb_spec c 240); cbn [andb] in E; try lia.
      destruct (Z.leb_spec 240 c), (Z.ltb_spec c 248); cbn [andb] in E; try lia. done.
  - intros [Hu ->]. pose proof (valid_cp_range u Hu) as Hr.
    destruct (Z.ltb_spec u 128).
    { exists u, s'. split; [apply get_u8_z2b; lia |]. cbv zeta.
      by rewrite (proj2 (Z.leb_le u 127)) by lia. }
    destruct (Z.ltb_spec u 2048); [| destruct (Z.ltb_spec u 65536)].
    + eexists _, (conts 1 u ++ s'). split; [apply get_u8_z2b; dlia |]. cbv zeta.
      rewrite (proj2 (Z.leb_gt _ 127)) by dlia.
      destruct (byte_classes (192 + u / 64)) as (_ & -> & -> & ->); [dlia |].
      rewrite (proj2 (Z.leb_le 192 _)), (proj2 (Z.ltb_lt _ 224)) by dlia. cbn [andb].
      destruct (Hbits (192 + u / 64)) as (-> & _ & _). apply utf8_finish_iff; [dlia | dlia |].
      split_and!; [done | done | change (64 ^ Z.of_nat 1) with 64; dlia | done].
    + eexists _, (conts 2 u ++ s'). split; [apply get_u8_z2b; dlia |]. cbv zeta.
      rewrite (proj2 (Z.leb_gt _ 127)) by dlia.
      destruct (byte_classes (224 + u / 4096)) as (_ & -> & -> & ->); [dlia |].
      rewrite (proj2 (Z.ltb_ge _ 224)), andb_false_r by dlia.
      rewrite (proj2 (Z.leb_le 224 _)), (proj2 (Z.ltb_lt _ 240)) by dlia. cbn [andb].
      destruct (Hbits (224 + u / 4096)) as (_ & -> & _). apply utf8_finish_iff; [dlia | dlia |].
      split_and!; [done | done | change (64 ^ Z.of_nat 2) with 4096; dlia | done].
    + eexists _, (conts 3 u ++ s'). split; [apply get_u8_z2b; dlia |]. cbv zeta.
      rewrite (proj2 (Z.leb_gt _ 127)) by dlia.
      destruct (byte_classes (240 + u / 262144)) as (_ & -> & -> & ->); [dlia |].
      rewrite (proj2 (Z.ltb_ge _ 224)), andb_false_r by dlia.
      rewrite (proj2 (Z.ltb_ge _ 240)), andb_false_r by dlia.
      rewrite (proj2 (Z.leb_le 240 _)), (proj2 (Z.ltb_lt _ 248)) by dlia. cbn [andb].
      destruct (Hbits (240 + u / 262144)) as (_ & _ & ->). apply utf8_finish_iff; [dlia | dlia |].
      split_and!; [done | done | change (64 ^ Z.of_nat 3) with 262144; dlia | done].
Qed.

(** A fixed-width code unit, restricted to the valid code points. *)
Lemma inverts_filter (m : parser Z) enc ok (p : Z -> bool) :
  Inverts m enc ok ->
  Inverts (v ← m; if p v then mret v else fail) enc (fun v => ok v /\ p v = true).
Proof.
  intros Hm s v s'. rewrite prog_bind_iff. split.
  - intros (v' & s1 & [Hok ->]%Hm & E). destruct (p v') eqn:Ep; [| done]. by injection E as <- <-.
  - intros [[Hok Hp] ->]. exists v, s'. split; [by apply Hm | by rewrite Hp].
Qed.

#[export] Instance cbs_get_ucs2_be_inverts :
  Inverts cbs_get_ucs2_be (be_bytes 2)
    (fun v => 0 <= v < 256 ^ 2 /\ is_valid_code_point v = true).
Proof.
  intros s v s'. rewrite <- (inverts_filter _ _ _ _ CBS_get_u16_inverts s v s').
  unfold cbs_get_ucs2_be. rewrite !prog_bind_iff.
  split; intros (c & s1 & Hc & E); exists c, s1; (split; [done |]);
    by destruct (is_valid_code_point c).
Qed.

#[export] Instance cbs_get_utf32_be_inverts :
  Inverts cbs_get_utf32_be (be_bytes 4)
    (fun v => 0 <= v < 256 ^ 4 /\ is_valid_code_point v = true).
Proof. apply (inverts_filter _ _ _ _ CBS_get_u32_inverts). Qed.

Section Encode.
Variable malloc_ok : Z -> bool.
Variable uninit : byte.
Abbreviation Impl := (Implements malloc_ok).

(** A first call on a live CBB, then calls on what is now the innermost one. *)
Lemma live_seq {A B} d (m1 : builder A) (m2 : builder B) l1 l2 :
  Impl (Live d) m1 (fun a => flush d a ≫= append l1) -> Impl (Top d) m2 (append l2) ->
  Impl (Live d) (_ ← m1; m2) (fun a => flush d a ≫= append (l1 ++ l2)).
Proof.
  intros H1 H2. eapply implements_ext.
  - apply (implements_bind _ _ (Top d)); [apply H1 | intros _; apply H2 | apply monotone_append |].
    intros a a' Ha E. cbv beta in E. destruct (flush d a) as [a1 |] eqn:Ef; [| done].
    eapply append_top; [| done]. by eapply flush_length.
  - intros a _. cbv beta. destruct (flush d a); [| done]. apply append_append.
Qed.

Lemma add_u8_live d c :
  0 <= c < 256 ->
  Impl (Live d) (CBB_add_u8 malloc_ok uninit d c) (fun a => flush d a ≫= append [z2b c]).
Proof.
  intros Hc. eapply implements_ext; [apply implements_add_u; lia |].
  intros a _. cbv beta. destruct (flush d a) as [a1 |]; [| done]. cbn [mbind option_bind].
  unfold append_u. by rewrite (proj2 (Z.ltb_lt _ _)), be_bytes_1 by lia.
Qed.

(** The bytes the encoder computes. *)
Lemma cont_byte x :
  0 <= x -> u8 (TOP_BITS 1 .| (x .& BOTTOM_BITS 6)) = 128 + x mod 64.
Proof.
  intros Hx. destruct (bottom_bits x) as [-> _]. change (TOP_BITS 1) with (2 .<< 6).
  rewrite lor_shl, wrap_small by dlia. lia.
Qed.

Lemma lead_byte n x :
  (n = 2 /\ 0 <= x < 32) \/ (n = 3 /\ 0 <= x < 16) \/ (n = 4 /\ 0 <= x < 8) ->
  u8 (TOP_BITS n .| x) = 256 - 2 ^ (8 - n) + x.
Proof.
  intros [[-> Hx] | [[-> Hx] | [-> Hx]]].
  - change (TOP_BITS 2) with (6 .<< 5). rewrite lor_shl, wrap_small by lia. lia.
  - change (TOP_BITS 3) with (14 .<< 4). rewrite lor_shl, wrap_small by lia. lia.
  - change (TOP_BITS 4) with (30 .<< 3). rewrite lor_shl, wrap_small by lia. lia.
Qed.

Lemma cont_cons n u : conts (S n) u = [z2b (128 + (u / 64 ^ Z.of_nat n) mod 64)] ++ conts n u.
Proof. done. Qed.

Lemma cbb_add_utf8_implements d u :
  valid_cp u ->
  Impl (Live d) (cbb_add_utf8 malloc_ok uninit d u) (fun a => flush d a ≫= append (utf8 u)).
Proof.
  intros Hu. pose proof (valid_cp_range u Hu) as Hr. destruct Hu as [_ Hv].
  unfold cbb_add_utf8, utf8. rewrite Hv. cbn [negb].
  rewrite !Z.shiftr_div_pow2 by lia. change (2 ^ 6) with 64. change (2 ^ 12) with 4096.
  change (2 ^ 18) with 262144.
  assert (forall x, 0 <= x -> 0 <= 128 + x mod 64 < 256) as Hc by (intros; dlia).
  destruct (Z.leb_spec u 127).
  { rewrite (proj2 (Z.ltb_lt u 128)), wrap_small by lia. apply add_u8_live. lia. }
  rewrite (proj2 (Z.ltb_ge u 128)) by lia.
  destruct (Z.leb_spec u 2047); [| destruct (Z.leb_spec u 65535)].
  - rewrite (proj2 (Z.ltb_lt u 2048)) by lia.
    rewrite cont_byte by lia. rewrite lead_byte by (left; dlia). change (256 - 2 ^ (8 - 2)) with 192.
    apply (live_seq _ _ _ [_]); [apply add_u8_live; dlia |].
    rewrite cont_cons, Z.div_1_r. cbn [conts]. rewrite app_nil_r.
    apply implements_add_u8_top. by apply Hc; lia.
  - rewrite (proj2 (Z.ltb_ge u 2048)), (proj2 (Z.ltb_lt u 65536)) by lia.
    rewrite !cont_byte by dlia. rewrite lead_byte by (right; left; dlia). change (256 - 2 ^ (8 - 3)) with 224.
    apply (live_seq _ _ _ [_]); [apply add_u8_live; dlia |].
    rewrite !cont_cons, Z.div_1_r. cbn [conts]. rewrite app_nil_r. change (64 ^ Z.of_nat 1) with 64.
    apply implements_append_seq; [| intros _]; apply implements_add_u8_top, Hc; dlia.
  - rewrite (proj2 (Z.leb_le u 1114111)), (proj2 (Z.ltb_ge u 2048)), (proj2 (Z.ltb_ge u 65536)) by lia.
    rewrite !cont_byte by dlia. rewrite lead_byte by (right; right; dlia). change (256 - 2 ^ (8 - 4)) with 240.
    apply (live_seq _ _ _ [_]); [apply add_u8_live; dlia |].
    rewrite !cont_cons, Z.div_1_r. cbn [conts]. rewrite app_nil_r.
    change (64 ^ Z.of_nat 1) with 64. change (64 ^ Z.of_nat 2) with 4096.
    apply implements_append_seq; [| intros _; apply implements_append_seq; [| intros _]];
      apply implements_add_u8_top, Hc; dlia.
Qed.
End Encode.

(** ** Properties *)

(** C26: UTF-8 is exact.  [cbs_get_utf8] accepts exactly the shortest form of the valid
    code points (no surrogate, no noncharacter, at most 0x10ffff), so that a code
    point has one encoding, and [cbb_get_utf8_len] is its length; the UCS-2 and UTF-32
    readers accept exactly the fixed-width forms of valid code points. *)
Theorem utf8_exact :
  Inverts cbs_get_utf8 utf8 valid_cp /\
  (forall u, valid_cp u -> lenZ (utf8 u) = cbb_get_utf8_len u) /\
  Inverts cbs_get_ucs2_be (be_bytes 2) (fun v => 0 <= v < 2 ^ 16 /\ is_valid_code_point v = true) /\
  Inverts cbs_get_utf32_be (be_bytes 4) (fun v => 0 <= v < 2 ^ 32 /\ is_valid_code_point v = true).
Proof.
  split_and!; try apply _. intros u Hu. pose proof (valid_cp_range u Hu).
  unfold utf8, cbb_get_utf8_len, lenZ.
  destruct (Z.ltb_spec u 128); [by rewrite (proj2 (Z.leb_le u 127)) by lia |].
  rewrite (proj2 (Z.leb_gt u 127)) by lia.
  destruct (Z.ltb_spec u 2048); [by rewrite (proj2 (Z.leb_le u 2047)) by lia |].
  rewrite (proj2 (Z.leb_gt u 2047)) by lia.
  destruct (Z.ltb_spec u 65536); [by rewrite (proj2 (Z.leb_le u 65535)) by lia |].
  by rewrite (proj2 (Z.leb_gt u 65535)) by lia.
Qed.

(** [cbb_add_utf8] writes the UTF-8 form of a valid code point (the bytes its
    decoder reads back) or fails for want of room, and refuses any other value
    without touching the builder. *)
Theorem cbb_add_utf8_spec (malloc_ok : Z -> bool) (uninit : byte) (d : nat) (u : Z)
    (s : cbb_st) (a : contents) :
  0 <= u < 2 ^ 32 -> Rep s a -> (d < length a)%nat ->
  match cbb_add_utf8 malloc_ok uninit d u s with
  | (Done _, s') => exists a', valid_cp u /\ flush d a ≫= append (utf8 u) = Some a' /\ Rep s' a'
  | (Failed, s') => (is_valid_code_point u = false /\ s' = s) \/ error (base s') = true
  | _ => False
  end.
Proof.
  intros Hu Hs Ha. destruct (is_valid_code_point u) eqn:Ev.
  - assert (valid_cp u) as Hv by (split; [lia | done]).
    pose proof (cbb_add_utf8_implements malloc_ok uninit d u Hv s a Hs Ha) as Hi.
    run_cases s'; try done.
    + destruct Hi as (a' & ? & ? & _). by exists a'.
    + destruct Hi as [? _]. by right.
  - unfold cbb_add_utf8. rewrite Ev. cbn. by left.
Qed.

Lemma cbb_add_utf8_spec_witness :
  let s := mk_cbb (mk_buffer [x00; x00; x00; x00] 0 4 true false) [root_frame] in
  match cbb_add_utf8 (fun _ => true) x00 0 8364 s with
  | (Done _, s') => exists a', valid_cp 8364 /\
      flush 0 [(KRoot, [])] ≫= append (utf8 8364) = Some a' /\ Rep s' a'
  | (Failed, s') => (is_valid_code_point 8364 = false /\ s' = s) \/ error (base s') = true
  | _ => False
  end.
Proof.
  apply (cbb_add_utf8_spec (fun _ => true) x00 0 8364 _ [(KRoot, [])]); [lia | | simpl; lia].
  split; simpl; try done. constructor.
Defined.
