(* ===== verification/Base64.v ===== *)
(** * Base64

    [crypto/base64/base64.c]: the constant-time conversions, whole blocks, and
    the incremental encoder and decoder over [EVP_ENCODE_CTX].  What a function
    writes through its [out] pointer is the list it returns. *)

From S2P Require Import Prelude Crypto.

(** ** Characters *)

Definition constant_time_lt_args_8 (a b : Z) : Z := u8 (constant_time_msb_w (u64 (a - b))).

Definition constant_time_in_range_8 (a min max : Z) : Z :=
  constant_time_lt_args_8 (u8 (a - min)) (u8 (max - min + 1)).

Definition conv_bin2ascii (a : Z) : Z :=
  let a := a .& 63 in
  let ret := constant_time_select_8 (constant_time_eq_8 a 62) 43 47 in
  let ret := constant_time_select_8 (constant_time_lt_args_8 a 62) (u8 (a - 52 + 48)) ret in
  let ret := constant_time_select_8 (constant_time_lt_args_8 a 52) (u8 (a - 26 + 97)) ret in
  constant_time_select_8 (constant_time_lt_args_8 a 26) (u8 (a + 65)) ret.

Definition base64_ascii_to_bin (a : Z) : Z :=
  let is_upper := constant_time_in_range_8 a 65 90 in
  let is_lower := constant_time_in_range_8 a 97 122 in
  let is_digit := constant_time_in_range_8 a 48 57 in
  let is_plus := constant_time_eq_8 a 43 in
  let is_slash := constant_time_eq_8 a 47 in
  let is_equals := constant_time_eq_8 a 61 in
  let ret := 0 in
  let ret := u8 (ret .| (is_upper .& (a - 65))) in
  let ret := u8 (ret .| (is_lower .& (a - 97 + 26))) in
  let ret := u8 (ret .| (is_digit .& (a - 48 + 52))) in
  let ret := u8 (ret .| (is_plus .& 62)) in
  let ret := u8 (ret .| (is_slash .& 63)) in
  let is_valid := is_upper .| is_lower .| is_digit .| is_plus .| is_slash .| is_equals in
  u8 (ret .| Z.lnot is_valid).

(** ** Encoding *)

(** [None]: the length does not fit in a [size_t]. *)
Definition EVP_EncodedLength (len : Z) : option Z :=
  if u64 (len + 2) <? len then None else
  let len := u64 (len + 2) / 3 in
  if negb ((u64 (len .<< 2)) .>> 2 =? len) then None else
  let len := u64 (len .<< 2) in
  if u64 (len + 1) <? len then None else Some (u64 (len + 1)).

(** A character of [l]: the argument of [conv_bin2ascii] is a [uint8_t]. *)
Definition conv (l : Z) : byte := z2b (conv_bin2ascii (u8 l)).

(** The loop of [EVP_EncodeBlock]. *)
Fixpoint encode_loop (src : list byte) : list byte :=
  match src with
  | [] => []
  | a :: b :: c :: src =>
      let l := (b2z a .<< 16) .| (b2z b .<< 8) .| b2z c in
      conv (l .>> 18) :: conv (l .>> 12) :: conv (l .>> 6) :: conv l :: encode_loop src
  | a :: rest =>
      let l := b2z a .<< 16 in
      let l := match rest with b :: _ => l .| (b2z b .<< 8) | [] => l end in
      [conv (l .>> 18); conv (l .>> 12);
       match rest with [] => z2b 61 | _ => conv (l .>> 6) end; z2b 61]
  end.

(** What is written to [dst], the terminator included, and the result. *)
Definition EVP_EncodeBlock (src : list byte) : list byte * Z :=
  let out := encode_loop src in (out ++ [x00], Z.of_nat (length out)).

Record EVP_ENCODE_CTX := mk_ctx {
  data_used : Z;
  data : list byte;
  eof_seen : bool;
  error_encountered : bool;
}.

(** [sizeof(ctx->data)]. *)
Definition data_size : Z := 48.

Definition EVP_EncodeInit : EVP_ENCODE_CTX := mk_ctx 0 (repeat x00 48) false false.

(** [memcpy(&ctx->data[pos], l, ...)]; [None] is a write beyond the array. *)
Definition ctx_copy (ctx : EVP_ENCODE_CTX) (pos : Z) (l : list byte) : option (list byte) :=
  if pos + Z.of_nat (length l) <=? data_size
  then Some (take (Z.to_nat pos) (data ctx) ++ l ++ drop (Z.to_nat pos + length l) (data ctx))
  else None.

(** A block, then a newline; the terminator is overwritten by what follows. *)
Definition encode_line (src : list byte) : list byte * Z :=
  let '(dst, encoded) := EVP_EncodeBlock src in (take (Z.to_nat encoded) dst ++ [x0a], encoded).

(** The loop [while (in_len >= sizeof(ctx->data))]: what it writes, then the rest of
    the input and [total], or [None] when [total] overflows. *)
Fixpoint encode_lines (fuel : nat) (inp out : list byte) (total : Z)
    : option (list byte * option (list byte * Z)) :=
  if Z.of_nat (length inp) <? data_size then Some (out, Some (inp, total)) else
  match fuel with
  | O => None
  | S fuel =>
      let '(line, encoded) := encode_line (take 48 inp) in
      if u64 (total + encoded + 1) <? total then Some (out ++ line, None) else
      encode_lines fuel (drop 48 inp) (out ++ line) (u64 (total + (encoded + 1)))
  end.

(** The new context, the bytes written to [out] (without the final NUL), and
    [*out_len]; [None] is a failed assertion or a write beyond [ctx->data]. *)
Definition EVP_EncodeUpdate (ctx : EVP_ENCODE_CTX) (inp : list byte)
    : option (EVP_ENCODE_CTX * list byte * Z) :=
  let in_len := Z.of_nat (length inp) in
  if in_len =? 0 then Some (ctx, [], 0) else
  if negb (data_used ctx <? data_size) then None else
  if in_len <? data_size - data_used ctx then
    d ← ctx_copy ctx (data_used ctx) inp;
    Some (mk_ctx (data_used ctx + in_len) d (eof_seen ctx) (error_encountered ctx), [], 0)
  else
    '(d, inp, out, total) ←
      (if negb (data_used ctx =? 0) then
         let todo := Z.to_nat (data_size - data_used ctx) in
         d ← ctx_copy ctx (data_used ctx) (take todo inp);
         let '(line, encoded) := encode_line d in
         Some (d, drop todo inp, line, encoded + 1)
       else Some (data ctx, inp, [], 0));
    '(out, r) ← encode_lines (length inp) inp out total;
    match r with
    | None => Some (mk_ctx 0 d (eof_seen ctx) (error_encountered ctx), out, 0)
    | Some (inp, total) =>
        d ← ctx_copy (mk_ctx 0 d (eof_seen ctx) (error_encountered ctx)) 0 inp;
        Some (mk_ctx (Z.of_nat (length inp)) d (eof_seen ctx) (error_encountered ctx), out,
              if INT_MAX <? total then 0 else total)
    end.

Definition EVP_EncodeFinal (ctx : EVP_ENCODE_CTX) : EVP_ENCODE_CTX * list byte * Z :=
  if data_used ctx =? 0 then (ctx, [], 0) else
  let '(line, encoded) := encode_line (take (Z.to_nat (data_used ctx)) (data ctx)) in
  (mk_ctx 0 (data ctx) (eof_seen ctx) (error_encountered ctx), line, encoded + 1).

(** ** Decoding *)

Definition EVP_DecodedLength (len : Z) : option Z :=
  if negb (len mod 4 =? 0) then None else Some (u64 (len / 4 * 3)).

Definition EVP_DecodeInit : EVP_ENCODE_CTX := EVP_EncodeInit.

(** The bytes written for a quad; [None] is an error. *)
Definition base64_decode_quad (in0 in1 in2 in3 : byte) : option (list byte) :=
  let a := base64_ascii_to_bin (b2z in0) in
  let b := base64_ascii_to_bin (b2z in1) in
  let c := base64_ascii_to_bin (b2z in2) in
  let d := base64_ascii_to_bin (b2z in3) in
  if (a =? 255) || (b =? 255) || (c =? 255) || (d =? 255) then None else
  let v := (a .<< 18) .| (b .<< 12) .| (c .<< 6) .| d in
  let eq (x : byte) : Z := if b2z x =? 61 then 1 else 0 in
  let padding_pattern := (eq in0 .<< 3) .| (eq in1 .<< 2) .| (eq in2 .<< 1) .| eq in3 in
  if padding_pattern =? 0 then Some [z2b (v .>> 16); z2b (v .>> 8); z2b v]
  else if padding_pattern =? 1 then Some [z2b (v .>> 16); z2b (v .>> 8)]
  else if padding_pattern =? 3 then Some [z2b (v .>> 16)]
  else None.

Definition is_space (c : byte) : bool :=
  (b2z c =? 32) || (b2z c =? 9) || (b2z c =? 13) || (b2z c =? 10).

Definition set_error (ctx : EVP_ENCODE_CTX) : EVP_ENCODE_CTX :=
  mk_ctx (data_used ctx) (data ctx) (eof_seen ctx) true.

(** One round of the loop of [EVP_DecodeUpdate]: the context and what is written,
    and whether it goes on; [None] is a write beyond [ctx->data]. *)
Definition decode_char (ctx : EVP_ENCODE_CTX) (c : byte) : option (EVP_ENCODE_CTX * list byte * bool) :=
  if is_space c then Some (ctx, [], true) else
  if eof_seen ctx then Some (set_error ctx, [], false) else
  d ← ctx_copy ctx (data_used ctx) [c];
  let ctx := mk_ctx (data_used ctx + 1) d (eof_seen ctx) (error_encountered ctx) in
  if data_used ctx =? 4 then
    match d with
    | in0 :: in1 :: in2 :: in3 :: _ =>
        match base64_decode_quad in0 in1 in2 in3 with
        | None => Some (set_error ctx, [], false)
        | Some bytes =>
            Some (mk_ctx 0 d (eof_seen ctx || (Z.of_nat (length bytes) <? 3)) (error_encountered ctx),
                  bytes, true)
        end
    | _ => None
    end
  else Some (ctx, [], true).

Fixpoint decode_loop (ctx : EVP_ENCODE_CTX) (inp out : list byte)
    : option (EVP_ENCODE_CTX * list byte * bool) :=
  match inp with
  | [] => Some (ctx, out, true)
  | c :: inp =>
      '(ctx, bytes, go) ← decode_char ctx c;
      if go : bool then decode_loop ctx inp (out ++ bytes) else Some (ctx, out ++ bytes, false)
  end.

(** The context, the bytes written, [*out_len], and the result. *)
Definition EVP_DecodeUpdate (ctx : EVP_ENCODE_CTX) (inp : list byte)
    : option (EVP_ENCODE_CTX * list byte * Z * Z) :=
  if error_encountered ctx then Some (ctx, [], 0, -1) else
  '(ctx, out, ok) ← decode_loop ctx inp [];
  if negb ok then Some (ctx, out, 0, -1) else
  let bytes_out := Z.of_nat (length out) in
  if INT_MAX <? bytes_out then Some (set_error ctx, out, 0, -1)
  else Some (ctx, out, bytes_out, if eof_seen ctx then 0 else 1).

Definition EVP_DecodeFinal (ctx : EVP_ENCODE_CTX) : Z :=
  if error_encountered ctx || negb (data_used ctx =? 0) then -1 else 1.

(** The loop of [EVP_DecodeBase64] on quads. *)
Fixpoint decode_quads (inp : list byte) : option (list byte) :=
  match inp with
  | [] => Some []
  | in0 :: in1 :: in2 :: in3 :: rest =>
      bytes ← base64_decode_quad in0 in1 in2 in3;
      if negb (Z.of_nat (length bytes) =? 3) && negb (Nat.eqb (length rest) 0) then None else
      out ← decode_quads rest;
      Some (bytes ++ out)
  | _ => None
  end.

Definition EVP_DecodeBase64 (max_out : Z) (inp : list byte) : option (list byte) :=
  let in_len := Z.of_nat (length inp) in
  if negb (in_len mod 4 =? 0) then None else
  max_len ← EVP_DecodedLength in_len;
  if max_out <? max_len then None else decode_quads inp.

(** The two trimming loops of [EVP_DecodeBlock]. *)
Fixpoint trim_front (src : list byte) : list byte :=
  match src with
  | c :: rest => if (b2z c =? 32) || (b2z c =? 9) then trim_front rest else src
  | [] => []
  end.

Fixpoint trim_spaces (src : list byte) : list byte :=
  match src with
  | c :: rest => if is_space c then trim_spaces rest else src
  | [] => []
  end.

Definition trim_back (src : list byte) : list byte := reverse (trim_spaces (reverse src)).

(** What is written to [dst], of which the length is the result; [None] is -1. *)
Definition EVP_DecodeBlock (src : list byte) : option (list byte) :=
  let src := trim_back (trim_front src) in
  dst_len ← EVP_DecodedLength (Z.of_nat (length src));
  if INT_MAX <? dst_len then None else
  out ← EVP_DecodeBase64 dst_len src;
  Some (out ++ repeat x00 (Z.to_nat (- Z.of_nat (length out) mod 3))).

(** ** The alphabet *)

Definition b64_char (i : Z) : Z :=
  if i <? 26 then i + 65
  else if i <? 52 then i - 26 + 97
  else if i <? 62 then i - 52 + 48
  else if i =? 62 then 43 else 47.

(** The value of a character; the padding character counts as zero. *)
Definition b64_value (c : Z) : option Z :=
  if (65 <=? c) && (c <=? 90) then Some (c - 65)
  else if (97 <=? c) && (c <=? 122) then Some (c - 97 + 26)
  else if (48 <=? c) && (c <=? 57) then Some (c - 48 + 52)
  else if c =? 43 then Some 62
  else if c =? 47 then Some 63
  else if c =? 61 then Some 0
  else None.

(** The constant-time conversions are the tables, on all 256 bytes. *)
Lemma conv_bin2ascii_spec a : 0 <= a < 256 -> conv_bin2ascii a = b64_char (a mod 64).
Proof.
  intros Ha. rewrite <- (b2z_z2b_small a Ha). generalize (z2b a). intros b.
  apply Z.eqb_eq. revert b. apply byte_forallb. by vm_compute.
Qed.

Lemma base64_ascii_to_bin_spec c :
  0 <= c < 256 -> base64_ascii_to_bin c = match b64_value c with Some i => i | None => 255 end.
Proof.
  intros Hc. rewrite <- (b2z_z2b_small c Hc). generalize (z2b c). intros b.
  apply Z.eqb_eq. revert b. apply byte_forallb. by vm_compute.
Qed.

Lemma b64_char_range i : 0 <= i < 64 -> 0 <= b64_char i < 128 /\ b64_char i <> 61.
Proof. intros Hi. unfold b64_char. repeat case_bool; lia. Qed.

Lemma b64_value_char i : 0 <= i < 64 -> b64_value (b64_char i) = Some i.
Proof.
  intros Hi. unfold b64_char.
  destruct (Z.ltb_spec i 26); [| destruct (Z.ltb_spec i 52); [| destruct (Z.ltb_spec i 62);
    [| destruct (Z.eqb_spec i 62)]]]; unfold b64_value; repeat case_bool; cbn [andb]; try lia;
    f_equal; lia.
Qed.

Lemma conv_spec l : 0 <= l -> conv l = z2b (b64_char (l mod 64)).
Proof.
  intros Hl. unfold conv. rewrite conv_bin2ascii_spec by by apply wrap_range.
  do 2 f_equal. unfold wrap. change (2 ^ 8) with 256. dlia.
Qed.

Lemma conv_value l :
  0 <= l -> base64_ascii_to_bin (b2z (conv l)) = l mod 64 /\ (b2z (conv l) =? 61) = false /\
            is_space (conv l) = false.
Proof.
  intros Hl. rewrite conv_spec by done. assert (0 <= l mod 64 < 64) as Hm by dlia.
  destruct (b64_char_range _ Hm) as [Hr Hne].
  rewrite base64_ascii_to_bin_spec by apply b2z_range. unfold is_space.
  rewrite b2z_z2b_small by lia. rewrite b64_value_char by done. split_and!; [done | |].
  - by apply Z.eqb_neq.
  - unfold b64_char in *. repeat case_bool; simpl; lia || done.
Qed.

(** ** Quads *)

Lemma triple_value a b c :
  (b2z a .<< 16) .| (b2z b .<< 8) .| b2z c = b2z a * 65536 + b2z b * 256 + b2z c.
Proof.
  rewrite (lor_shl (b2z a)) by (rewrite ?Z.shiftl_mul_pow2; blia).
  replace (b2z a * 2 ^ 16 + (b2z b .<< 8)) with ((b2z a * 256 + b2z b) .<< 8)
    by (rewrite !Z.shiftl_mul_pow2; lia).
  rewrite lor_shl by blia. lia.
Qed.

Lemma double_value a b : (b2z a .<< 16) .| (b2z b .<< 8) = b2z a * 65536 + b2z b * 256.
Proof. rewrite lor_shl by (rewrite ?Z.shiftl_mul_pow2; blia). rewrite Z.shiftl_mul_pow2; lia. Qed.

Lemma quad_value a b c d :
  0 <= a < 64 -> 0 <= b < 64 -> 0 <= c < 64 -> 0 <= d < 64 ->
  (a .<< 18) .| (b .<< 12) .| (c .<< 6) .| d = a * 262144 + b * 4096 + c * 64 + d.
Proof.
  intros Ha Hb Hc Hd.
  rewrite (lor_shl a) by (rewrite ?Z.shiftl_mul_pow2; lia).
  replace (a * 2 ^ 18 + (b .<< 12)) with ((a * 64 + b) .<< 12) by (rewrite !Z.shiftl_mul_pow2; lia).
  rewrite (lor_shl (a * 64 + b)) by (rewrite ?Z.shiftl_mul_pow2; lia).
  replace ((a * 64 + b) * 2 ^ 12 + (c .<< 6)) with ((a * 4096 + b * 64 + c) .<< 6)
    by (rewrite !Z.shiftl_mul_pow2; lia).
  rewrite lor_shl by lia. lia.
Qed.

Lemma byte_of l b : l mod 256 = b2z b -> z2b l = b.
Proof. intros E. by rewrite <- z2b_mod, E, z2b_b2z. Qed.

Lemma equals_char : base64_ascii_to_bin (b2z (z2b 61)) = 0 /\ (b2z (z2b 61) =? 61) = true.
Proof. by vm_compute. Qed.

(** Four characters of the alphabet. *)
Lemma decode_quad_conv x y z w :
  0 <= x -> 0 <= y -> 0 <= z -> 0 <= w ->
  let v := x mod 64 * 262144 + y mod 64 * 4096 + z mod 64 * 64 + w mod 64 in
  base64_decode_quad (conv x) (conv y) (conv z) (conv w)
  = Some [z2b (v .>> 16); z2b (v .>> 8); z2b v].
Proof.
  intros Hx Hy Hz Hw v. unfold base64_decode_quad.
  destruct (conv_value x Hx) as (-> & -> & _). destruct (conv_value y Hy) as (-> & -> & _).
  destruct (conv_value z Hz) as (-> & -> & _). destruct (conv_value w Hw) as (-> & -> & _).
  rewrite !(proj2 (Z.eqb_neq _ 255)) by dlia. cbn [orb]. rewrite quad_value by dlia. done.
Qed.

Lemma decode_quad_conv3 x y z :
  0 <= x -> 0 <= y -> 0 <= z ->
  let v := x mod 64 * 262144 + y mod 64 * 4096 + z mod 64 * 64 in
  base64_decode_quad (conv x) (conv y) (conv z) (z2b 61) = Some [z2b (v .>> 16); z2b (v .>> 8)].
Proof.
  intros Hx Hy Hz v. unfold base64_decode_quad.
  destruct (conv_value x Hx) as (-> & -> & _). destruct (conv_value y Hy) as (-> & -> & _).
  destruct (conv_value z Hz) as (-> & -> & _). destruct equals_char as [-> ->].
  rewrite !(proj2 (Z.eqb_neq _ 255)) by dlia. cbn [orb]. rewrite quad_value by dlia.
  by rewrite Z.add_0_r.
Qed.

Lemma decode_quad_conv2 x y :
  0 <= x -> 0 <= y ->
  let v := x mod 64 * 262144 + y mod 64 * 4096 in
  base64_decode_quad (conv x) (conv y) (z2b 61) (z2b 61) = Some [z2b (v .>> 16)].
Proof.
  intros Hx Hy v. unfold base64_decode_quad.
  destruct (conv_value x Hx) as (-> & -> & _). destruct (conv_value y Hy) as (-> & -> & _).
  destruct equals_char as [-> ->].
  rewrite !(proj2 (Z.eqb_neq _ 255)) by dlia. cbn [orb]. rewrite quad_value by dlia.
  rewrite Z.mul_0_l, !Z.add_0_r. done.
Qed.

(** What a group of one to three bytes becomes, and back. *)
Lemma decode_group3 a b c :
  let l := (b2z a .<< 16) .| (b2z b .<< 8) .| b2z c in
  base64_decode_quad (conv (l .>> 18)) (conv (l .>> 12)) (conv (l .>> 6)) (conv l) = Some [a; b; c].
Proof.
  intros l. subst l. rewrite triple_value, !Z.shiftr_div_pow2 by lia.
  rewrite decode_quad_conv by dlia.
  set (v := _ + _). assert (v = b2z a * 65536 + b2z b * 256 + b2z c) as -> by (subst v; dlia).
  rewrite !Z.shiftr_div_pow2 by lia. f_equal.
  f_equal; [| f_equal; [| f_equal]]; apply byte_of; dlia.
Qed.

Lemma decode_group2 a b :
  let l := (b2z a .<< 16) .| (b2z b .<< 8) in
  base64_decode_quad (conv (l .>> 18)) (conv (l .>> 12)) (conv (l .>> 6)) (z2b 61) = Some [a; b].
Proof.
  intros l. subst l. rewrite double_value, !Z.shiftr_div_pow2 by lia.
  rewrite decode_quad_conv3 by dlia.
  set (v := _ + _). assert (v = b2z a * 65536 + b2z b * 256) as -> by (subst v; dlia).
  rewrite !Z.shiftr_div_pow2 by lia. f_equal.
  f_equal; [| f_equal]; apply byte_of; dlia.
Qed.

Lemma decode_group1 a :
  let l := b2z a .<< 16 in
  base64_decode_quad (conv (l .>> 18)) (conv (l .>> 12)) (z2b 61) (z2b 61) = Some [a].
Proof.
  intros l. subst l. rewrite !Z.shiftr_div_pow2, Z.shiftl_mul_pow2 by lia.
  rewrite decode_quad_conv2 by dlia.
  set (v := _ + _). assert (v = b2z a * 65536) as -> by (subst v; dlia).
  rewrite !Z.shiftr_div_pow2 by lia. do 2 f_equal. apply byte_of. dlia.
Qed.

(** ** Whole blocks *)

(** Induction by groups of three. *)
Lemma list_ind3 {A} (P : list A -> Prop) :
  P [] -> (forall a, P [a]) -> (forall a b, P [a; b]) ->
  (forall a b c l, P l -> P (a :: b :: c :: l)) -> forall l, P l.
Proof.
  intros H0 H1 H2 H3. fix IH 1. intros [| a [| b [| c l]]]; [done.. |]. apply H3, IH.
Qed.

Lemma encode_loop_length src :
  Z.of_nat (length (encode_loop src)) = (Z.of_nat (length src) + 2) / 3 * 4.
Proof.
  induction src as [| a | a b | a b c src IH] using list_ind3; [done.. |].
  cbn [encode_loop length]. rewrite !Nat2Z.inj_succ, IH.
  replace (Z.succ (Z.succ (Z.succ (Z.of_nat (length src)))) + 2)
    with (Z.of_nat (length src) + 2 + 1 * 3) by lia.
  rewrite Z.div_add by lia. lia.
Qed.

Lemma decode_encode_loop src : decode_quads (encode_loop src) = Some src.
Proof.
  induction src as [| a | a b | a b c src IH] using list_ind3.
  - done.
  - cbn [encode_loop decode_quads]. by rewrite decode_group1.
  - cbn [encode_loop decode_quads]. by rewrite decode_group2.
  - cbn [encode_loop decode_quads]. rewrite decode_group3. cbn [mbind option_bind].
    rewrite IH. done.
Qed.

(** Encoding a block writes as many bytes as [EVP_EncodedLength] announces, the
    terminator included, and decoding what it wrote, with room for it, gives the data
    back. *)
Theorem EVP_block_roundtrip src max_out :
  Z.of_nat (length src) < 2 ^ 60 -> Z.of_nat (length src) + 2 <= max_out ->
  let '(dst, n) := EVP_EncodeBlock src in
  EVP_EncodedLength (Z.of_nat (length src)) = Some (Z.of_nat (length dst)) /\
  Z.of_nat (length dst) = n + 1 /\
  EVP_DecodeBase64 max_out (take (Z.to_nat n) dst) = Some src.
Proof.
  intros Hlen Hmax. unfold EVP_EncodeBlock. rewrite length_app, Nat2Z.inj_add.
  pose proof (encode_loop_length src) as He. set (L := Z.of_nat (length src)) in *.
  assert (0 <= L) by lia. split_and!.
  - unfold EVP_EncodedLength. rewrite (wrap_small _ (L + 2)) by lia.
    rewrite Z.shiftl_mul_pow2 by lia. change (2 ^ 2) with 4.
    rewrite (wrap_small _ ((L + 2) / 3 * 4)) by dlia. rewrite Z.shiftr_div_pow2 by lia.
    change (2 ^ 2) with 4. rewrite Z.div_mul by lia. rewrite Z.eqb_refl. cbn [negb].
    rewrite (wrap_small _ ((L + 2) / 3 * 4 + 1)) by dlia.
    destruct (Z.ltb_spec (L + 2) L); [lia |].
    destruct (Z.ltb_spec ((L + 2) / 3 * 4 + 1) ((L + 2) / 3 * 4)); [lia |]. f_equal. simpl; lia.
  - simpl; lia.
  - rewrite Nat2Z.id, take_app_length. unfold EVP_DecodeBase64, EVP_DecodedLength.
    rewrite He, Z.mod_mul by lia. cbn [negb]. rewrite Z.eqb_refl. cbn [negb].
    cbn [mbind option_bind]. rewrite Z.div_mul by lia. rewrite wrap_small by dlia.
    destruct (Z.ltb_spec max_out ((L + 2) / 3 * 3)); [dlia |]. apply decode_encode_loop.
Qed.

Lemma EVP_block_roundtrip_witness :
  let src := z2b <$> [77; 97; 110; 33] in
  Z.of_nat (length src) < 2 ^ 60 /\
  EVP_DecodeBase64 6 (take 8 (EVP_EncodeBlock src).1) = Some src.
Proof.
  intros src. split; [by vm_compute |].
  refine (proj2 (proj2 (EVP_block_roundtrip src 6 _ _))); by vm_compute.
Defined.

(** ** The incremental encoder *)

(** What the encoder writes in the end: a line for each 48 bytes, and one for the rest. *)
Fixpoint lines_fuel (fuel : nat) (src : list byte) : list byte :=
  match fuel, src with
  | S fuel, _ :: _ => encode_loop (take 48 src) ++ [x0a] ++ lines_fuel fuel (drop 48 src)
  | _, _ => []
  end.

Definition lines (src : list byte) : list byte := lines_fuel (length src) src.

Lemma lines_fuel_enough n m src :
  (length src <= n)%nat -> (length src <= m)%nat -> lines_fuel n src = lines_fuel m src.
Proof.
  revert m src. induction n as [| n IH]; intros m [| b src] Hn Hm; try (by destruct m); [simpl in Hn; lia |].
  destruct m as [| m]; [simpl in Hm; lia |]. cbn [lines_fuel]. do 2 f_equal. simpl in Hn, Hm.
  apply IH; rewrite length_drop; simpl; lia.
Qed.

Lemma lines_step src :
  src <> [] -> lines src = encode_loop (take 48 src) ++ [x0a] ++ lines (drop 48 src).
Proof.
  intros Hne. unfold lines. destruct src as [| b src]; [done |].
  change (length (b :: src)) with (S (length src)). cbn [lines_fuel]. do 2 f_equal.
  apply lines_fuel_enough; rewrite length_drop; simpl; lia.
Qed.

Lemma lines_line a rest : length a = 48%nat -> lines (a ++ rest) = encode_loop a ++ [x0a] ++ lines rest.
Proof.
  intros Ha. rewrite lines_step by (by destruct a).
  by rewrite (take_app_length' a), (drop_app_length' a).
Qed.

(** The line written for [src], with its length. *)
Lemma encode_line_spec src :
  encode_line src = (encode_loop src ++ [x0a], Z.of_nat (length (encode_loop src))).
Proof. unfold encode_line, EVP_EncodeBlock. by rewrite Nat2Z.id, take_app_length. Qed.

Lemma encode_line_48 src : length src = 48%nat -> length (encode_loop src) = 64%nat.
Proof. intros H. pose proof (encode_loop_length src) as E. rewrite H in E. apply Nat2Z.inj. by rewrite E. Qed.

(** The state after the data [done], of which [out] has been written. *)
Definition encoding (ctx : EVP_ENCODE_CTX) (done out : list byte) : Prop :=
  exists full part,
    done = full ++ part /\ out = lines full /\ (forall rest, lines (full ++ rest) = out ++ lines rest) /\
    length (data ctx) = 48%nat /\ data_used ctx = Z.of_nat (length part) /\ (length part < 48)%nat /\
    take (length part) (data ctx) = part.

Lemma ctx_copy_spec ctx used l :
  length (data ctx) = 48%nat -> (used + length l <= 48)%nat ->
  ctx_copy ctx (Z.of_nat used) l
  = Some (take used (data ctx) ++ l ++ drop (used + length l) (data ctx)).
Proof.
  intros Hd Hl. unfold ctx_copy, data_size. rewrite Nat2Z.id.
  destruct (Z.leb_spec (Z.of_nat used + Z.of_nat (length l)) 48); [done | lia].
Qed.

Lemma length_copied {A} (d l : list A) used :
  length d = 48%nat -> (used + length l <= 48)%nat ->
  length (take used d ++ l ++ drop (used + length l) d) = 48%nat.
Proof. intros Hd Hl. rewrite !length_app, length_take, length_drop. lia. Qed.

Lemma encode_lines_spec fuel inp out total :
  (length inp <= fuel)%nat -> 0 <= total -> total + 65 * (Z.of_nat (length inp) / 48) < 2 ^ 64 ->
  exists full part,
    inp = full ++ part /\ (length part < 48)%nat /\
    Z.of_nat (length (lines full)) = 65 * (Z.of_nat (length inp) / 48) /\
    (forall rest, lines (full ++ rest) = lines full ++ lines rest) /\
    encode_lines fuel inp out total
    = Some (out ++ lines full, Some (part, total + Z.of_nat (length (lines full)))).
Proof.
  revert inp out total. induction fuel as [| fuel IH]; intros inp out total Hf Ht Hb.
  - destruct inp; [| simpl in Hf; lia]. exists [], []. split_and!; try (done || simpl; lia).
    cbn. by rewrite app_nil_r, Z.add_0_r.
  - cbn [encode_lines]. unfold data_size. destruct (Z.ltb_spec (Z.of_nat (length inp)) 48) as [Hs | Hs].
    + exists [], inp. split_and!; try done; [lia | simpl length; rewrite Z.div_small; lia |].
      cbn. by rewrite app_nil_r, Z.add_0_r.
    + assert (length (take 48 inp) = 48%nat) as H48 by (rewrite length_take; lia).
      rewrite encode_line_spec, (encode_line_48 _ H48). change (Z.of_nat 64) with 64.
      assert (Z.of_nat (length inp) / 48 = Z.of_nat (length (drop 48 inp)) / 48 + 1) as Hdiv
        by (rewrite length_drop; dlia).
      rewrite !wrap_small by dlia. destruct (Z.ltb_spec (total + 64 + 1) total); [lia |].
      destruct (IH (drop 48 inp) (out ++ encode_loop (take 48 inp) ++ [x0a]) (total + (64 + 1)))
        as (full & part & E & Hp & Hl & Hr & ->); [rewrite length_drop; lia | lia | lia |].
      exists (take 48 inp ++ full), part. rewrite <- app_assoc, <- E, take_drop.
      rewrite (lines_line _ full H48), Hdiv. split_and!; try done.
      * rewrite !length_app, (encode_line_48 _ H48). simpl length. lia.
      * intros rest. rewrite <- app_assoc, (lines_line _ _ H48), Hr, <- !app_assoc. done.
      * do 2 f_equal; [by rewrite <- !app_assoc |]. do 2 f_equal.
        rewrite !length_app, (encode_line_48 _ H48). simpl length. lia.
Qed.

(** The loop of a call and what follows it, after the lines [out] of [full]. *)
Lemma encode_rest_spec ctx full L inp out :
  (forall rest, lines (full ++ rest) = (L ++ out) ++ lines rest) -> length (data ctx) = 48%nat ->
  Z.of_nat (length out) <= 65 -> Z.of_nat (length inp) < 2 ^ 30 ->
  exists ctx' out',
    ('(out, r) ← encode_lines (length inp) inp out (Z.of_nat (length out));
     match r with
     | None => Some (mk_ctx 0 (data ctx) (eof_seen ctx) (error_encountered ctx), out, 0)
     | Some (inp, total) =>
         d ← ctx_copy (mk_ctx 0 (data ctx) (eof_seen ctx) (error_encountered ctx)) 0 inp;
         Some (mk_ctx (Z.of_nat (length inp)) d (eof_seen ctx) (error_encountered ctx), out,
               if INT_MAX <? total then 0 else total)
     end) = Some (ctx', out', Z.of_nat (length out')) /\
    encoding ctx' (full ++ inp) (L ++ out').
Proof.
  intros Hfull Hd Ho Hin.
  destruct (encode_lines_spec (length inp) inp out (Z.of_nat (length out)))
    as (full' & part & -> & Hp & Hl & Hr & ->); [lia.. | dlia |].
  cbn [mbind option_bind]. rewrite (ctx_copy_spec _ 0) by (done || (simpl; lia)). cbn [mbind option_bind].
  rewrite <- Nat2Z.inj_add, <- length_app. unfold INT_MAX.
  destruct (Z.ltb_spec (2 ^ 31 - 1) (Z.of_nat (length (out ++ lines full'))));
    [rewrite length_app in *; dlia |].
  eexists _, _. split; [done |]. exists (full ++ full'), part. cbn [data data_used].
  split_and!; try done.
  - by rewrite app_assoc.
  - by rewrite Hfull, app_assoc.
  - intros rest. by rewrite <- app_assoc, Hfull, Hr, !app_assoc.
  - rewrite length_copied; [done.. | lia].
  - rewrite take_0, app_nil_l. by apply take_app_length'.
Qed.

(** One call: it leaves no byte out, and [*out_len] is what it wrote. *)
Lemma EVP_EncodeUpdate_spec ctx done out inp :
  encoding ctx done out -> Z.of_nat (length inp) < 2 ^ 30 ->
  exists ctx' out',
    EVP_EncodeUpdate ctx inp = Some (ctx', out', Z.of_nat (length out')) /\
    encoding ctx' (done ++ inp) (out ++ out').
Proof.
  intros (full & part & -> & -> & Hrest & Hd & Hu & Hp & Htake) Hin. unfold EVP_EncodeUpdate, data_size.
  rewrite Hu. destruct (Z.eqb_spec (Z.of_nat (length inp)) 0) as [E0 | E0].
  { destruct inp; [| simpl in E0; lia]. eexists _, []. split; [done |]. rewrite !app_nil_r.
    by exists full, part. }
  destruct (Z.ltb_spec (Z.of_nat (length part)) 48); [cbn [negb] | lia].
  destruct (Z.ltb_spec (Z.of_nat (length inp)) (48 - Z.of_nat (length part))) as [Hlt | Hge].
  { rewrite ctx_copy_spec by (done || lia). cbn [mbind option_bind]. eexists _, []. split; [done |].
    rewrite app_nil_r. exists full, (part ++ inp). cbn [data data_used].
    split_and!; [by rewrite app_assoc | done | done | | rewrite length_app; lia | rewrite length_app; lia |].
    - rewrite length_copied; [done.. | lia].
    - rewrite Htake, app_assoc. by apply take_app_length'. }
  destruct (Z.eqb_spec (Z.of_nat (length part)) 0) as [Ep | Ep]; cbn [negb].
  - destruct part; [| simpl in Ep; lia]. rewrite app_nil_r. cbn [mbind option_bind].
    apply (encode_rest_spec ctx full (lines full) inp []); [| done..]. intros rest.
    by rewrite Hrest, app_nil_r.
  - set (todo := (48 - length part)%nat).
    replace (Z.to_nat (48 - Z.of_nat (length part))) with todo by lia.
    assert (length (take todo inp) = todo) as Ht by (rewrite length_take; lia).
    rewrite ctx_copy_spec by (done || lia). cbn [mbind option_bind].
    replace (length part + length (take todo inp))%nat with 48%nat by lia.
    rewrite (drop_ge (data ctx)), app_nil_r, Htake, encode_line_spec by lia.
    assert (length (part ++ take todo inp) = 48%nat) as H48 by (rewrite length_app; lia).
    rewrite (encode_line_48 _ H48). cbn [mbind option_bind].
    set (line := encode_loop (part ++ take todo inp) ++ [x0a]).
    assert (length line = 65%nat) as Hline.
    { unfold line. by rewrite length_app, (encode_line_48 _ H48). }
    replace (Z.of_nat 64 + 1) with (Z.of_nat (length line)) by by rewrite Hline.
    destruct (encode_rest_spec (mk_ctx 0 (part ++ take todo inp) (eof_seen ctx) (error_encountered ctx))
      (full ++ part ++ take todo inp) (lines full) (drop todo inp) line) as (ctx' & out' & E & Henc);
      [| done | lia | rewrite length_drop; lia |].
    + intros rest. rewrite <- (app_assoc full), Hrest, (lines_line _ _ H48). unfold line.
      by rewrite !app_assoc.
    + cbn [data eof_seen error_encountered] in E. rewrite E. eexists _, _. split; [done |].
      by rewrite <- !app_assoc, take_drop in Henc; rewrite <- app_assoc.
Qed.

(** A call for each chunk, then the end: what was written and the sum of the [*out_len]. *)
Fixpoint encode_all (ctx : EVP_ENCODE_CTX) (chunks : list (list byte)) : option (list byte * Z) :=
  match chunks with
  | [] => let '(_, out, n) := EVP_EncodeFinal ctx in Some (out, n)
  | c :: chunks =>
      '(ctx, out, n) ← EVP_EncodeUpdate ctx c;
      '(out', n') ← encode_all ctx chunks;
      Some (out ++ out', n + n')
  end.

Lemma EVP_EncodeFinal_spec ctx done out :
  encoding ctx done out ->
  exists out',
    EVP_EncodeFinal ctx = (mk_ctx 0 (data ctx) (eof_seen ctx) (error_encountered ctx), out',
                           Z.of_nat (length out')) /\ out ++ out' = lines done.
Proof.
  intros (full & part & -> & -> & Hrest & Hd & Hu & Hp & Htake). unfold EVP_EncodeFinal. rewrite Hrest, Hu.
  destruct (Z.eqb_spec (Z.of_nat (length part)) 0) as [E0 | E0].
  - destruct part; [| simpl in E0; lia]. exists []. split; [| done]. destruct ctx; simpl in *; by subst.
  - rewrite Nat2Z.id, Htake, encode_line_spec. eexists. split.
    + do 2 f_equal. rewrite length_app. simpl length. lia.
    + rewrite (lines_step part) by (by intros ->). rewrite take_ge, drop_ge by lia. by rewrite app_nil_r.
Qed.

Lemma encode_all_spec chunks ctx done out :
  encoding ctx done out -> Forall (fun c => Z.of_nat (length c) < 2 ^ 30) chunks ->
  exists out', encode_all ctx chunks = Some (out', Z.of_nat (length out')) /\
               out ++ out' = lines (done ++ concat chunks).
Proof.
  revert ctx done out. induction chunks as [| c chunks IH]; intros ctx done out Henc Hc.
  - destruct (EVP_EncodeFinal_spec _ _ _ Henc) as (out' & E & Hl). exists out'. cbn [encode_all].
    rewrite E. split; [done |]. by rewrite app_nil_r.
  - apply Forall_cons in Hc as [Hc Hcs].
    destruct (EVP_EncodeUpdate_spec _ _ _ _ Henc Hc) as (ctx' & out1 & E1 & Henc1).
    destruct (IH _ _ _ Henc1 Hcs) as (out2 & E2 & Hl). exists (out1 ++ out2). cbn [encode_all].
    rewrite E1. cbn [mbind option_bind]. rewrite E2. cbn [mbind option_bind].
    rewrite length_app, Nat2Z.inj_add. split; [done |].
    cbn [concat]. by rewrite !app_assoc in *.
Qed.

Lemma encoding_init : encoding EVP_EncodeInit [] [].
Proof. exists [], []. split_and!; try done. simpl; lia. Qed.

(** C19: however the data is cut into calls, the incremental encoder stays within
    [ctx->data] and writes the lines of the whole data, and the lengths it reports are
    those of what it wrote. *)
Theorem EVP_Encode_chunks chunks :
  Forall (fun c => Z.of_nat (length c) < 2 ^ 30) chunks ->
  encode_all EVP_EncodeInit chunks
  = Some (lines (concat chunks), Z.of_nat (length (lines (concat chunks)))).
Proof.
  intros Hc. destruct (encode_all_spec chunks _ _ _ encoding_init Hc) as (out & E & Hl).
  rewrite E. cbn [app] in Hl. by rewrite Hl.
Qed.

Lemma EVP_Encode_chunks_witness :
  encode_all EVP_EncodeInit [repeat x41 40; repeat x42 70; []; [x43]]
  = Some (lines (repeat x41 40 ++ repeat x42 70 ++ [x43]), 151).
Proof.
  refine (EVP_Encode_chunks [repeat x41 40; repeat x42 70; []; [x43]] _).
  repeat (apply Forall_cons; split; [by vm_compute |]). by apply Forall_nil.
Defined.

(** ** The incremental decoder *)

(** What is already written plays no part. *)
Lemma decode_loop_out ctx inp out :
  decode_loop ctx inp out = '(ctx', out', ok) ← decode_loop ctx inp []; Some (ctx', out ++ out', ok).
Proof.
  revert ctx out. induction inp as [| c inp IH]; intros ctx out.
  - cbn. by rewrite app_nil_r.
  - cbn [decode_loop]. destruct (decode_char ctx c) as [[[ctx1 bytes] go] |]; [| done].
    cbn [mbind option_bind]. destruct go; [| done]. rewrite IH, (IH _ ([] ++ bytes)).
    destruct (decode_loop ctx1 inp []) as [[[ctx2 out2] ok] |]; [| done].
    cbn [mbind option_bind app]. by rewrite app_assoc.
Qed.

(** A run over [a ++ b] that goes to the end is a run over [a], then one over [b]. *)
Lemma decode_loop_app ctx a b ctx2 out :
  decode_loop ctx (a ++ b) [] = Some (ctx2, out, true) ->
  exists ctx1 out1 out2, decode_loop ctx a [] = Some (ctx1, out1, true) /\
    decode_loop ctx1 b [] = Some (ctx2, out2, true) /\ out = out1 ++ out2.
Proof.
  revert ctx out. induction a as [| c a IH]; intros ctx out H; [by eexists _, [], out |].
  cbn [app decode_loop] in *. destruct (decode_char ctx c) as [[[ctx3 bytes] []] |]; [| done..].
  cbn [mbind option_bind app] in *. rewrite decode_loop_out in H. rewrite decode_loop_out.
  destruct (decode_loop ctx3 (a ++ b) []) as [[[ctx4 out4] ok] |] eqn:E; [| done].
  cbn [mbind option_bind] in H. injection H as -> <- ->.
  destruct (IH _ _ E) as (ctx1 & out1 & out2 & -> & H2 & ->).
  eexists _, _, _. split; [done |]. split; [done |]. by rewrite app_assoc.
Qed.

(** A run that goes to the end leaves the error flag alone. *)
Lemma decode_loop_error ctx inp ctx' out :
  decode_loop ctx inp [] = Some (ctx', out, true) -> error_encountered ctx' = error_encountered ctx.
Proof.
  revert ctx out. induction inp as [| c inp IH]; intros ctx out H; [by injection H as -> _ |].
  cbn [decode_loop] in H. destruct (decode_char ctx c) as [[[ctx1 bytes] []] |] eqn:Ec; [| done..].
  cbn [mbind option_bind] in H. rewrite decode_loop_out in H.
  destruct (decode_loop ctx1 inp []) as [[[ctx2 out2] ok] |] eqn:E; [| done].
  injection H as -> _ ->. rewrite (IH _ _ E). clear -Ec. unfold decode_char in Ec.
  destruct (is_space c); [by injection Ec as -> _ |]. destruct (eof_seen ctx); [done |].
  destruct (ctx_copy _ _ _) as [d |]; [| done]. cbn [mbind option_bind] in Ec.
  destruct (_ =? 4); [| by injection Ec as <- _].
  destruct d as [| c0 [| c1 [| c2 [| c3 d]]]]; try done.
  destruct (base64_decode_quad _ _ _ _); [by injection Ec as <- _ | done].
Qed.

(** Between two quads. *)
Definition ready (ctx : EVP_ENCODE_CTX) (eof : bool) : Prop :=
  data_used ctx = 0 /\ length (data ctx) = 48%nat /\ eof_seen ctx = eof /\ error_encountered ctx = false.

Lemma decode_char_space ctx : decode_char ctx x0a = Some (ctx, [], true).
Proof. done. Qed.

Lemma ctx_store ctx u c :
  0 <= u < 48 -> length (data ctx) = 48%nat ->
  ctx_copy ctx u [c] = Some (<[Z.to_nat u := c]> (data ctx)).
Proof.
  intros Hu Hd. rewrite <- (Z2Nat.id u) at 1 by lia.
  rewrite ctx_copy_spec by (done || (simpl; lia)). rewrite insert_take_drop by lia.
  simpl length. by rewrite Nat.add_1_r.
Qed.

Lemma decode_char_store u d c :
  is_space c = false -> 0 <= u < 3 -> length d = 48%nat ->
  decode_char (mk_ctx u d false false) c
  = Some (mk_ctx (u + 1) (<[Z.to_nat u := c]> d) false false, [], true).
Proof.
  intros Hs Hu Hd. unfold decode_char. rewrite Hs. cbn [eof_seen data_used error_encountered].
  rewrite ctx_store by (done || lia). cbn [mbind option_bind data_used].
  by destruct (Z.eqb_spec (u + 1) 4); [lia |].
Qed.

Lemma decode_char_quad c0 c1 c2 c3 x d bytes :
  is_space c3 = false -> length (c0 :: c1 :: c2 :: x :: d) = 48%nat ->
  base64_decode_quad c0 c1 c2 c3 = Some bytes ->
  decode_char (mk_ctx 3 (c0 :: c1 :: c2 :: x :: d) false false) c3
  = Some (mk_ctx 0 (c0 :: c1 :: c2 :: c3 :: d) (Z.of_nat (length bytes) <? 3) false, bytes, true).
Proof.
  intros Hs Hd Hq. unfold decode_char. rewrite Hs. cbn [eof_seen data_used error_encountered].
  rewrite ctx_store by (done || lia). cbn [mbind option_bind data_used data].
  change (3 + 1 =? 4) with true. change (Z.to_nat 3) with 3%nat. cbn [insert list_insert].
  by rewrite Hq.
Qed.

Lemma decode_quad_step ctx c0 c1 c2 c3 bytes :
  ready ctx false -> base64_decode_quad c0 c1 c2 c3 = Some bytes ->
  is_space c0 = false -> is_space c1 = false -> is_space c2 = false -> is_space c3 = false ->
  exists ctx', ready ctx' (Z.of_nat (length bytes) <? 3) /\
    forall rest out, decode_loop ctx (c0 :: c1 :: c2 :: c3 :: rest) out
                     = decode_loop ctx' rest (out ++ bytes).
Proof.
  intros (Hu & Hd & He & Hr) Hq H0 H1 H2 H3. destruct ctx as [u d e r]. cbn [data_used data eof_seen
    error_encountered] in *. subst u e r.
  destruct d as [| d0 [| d1 [| d2 [| d3 d]]]]; try done.
  exists (mk_ctx 0 (c0 :: c1 :: c2 :: c3 :: d) (Z.of_nat (length bytes) <? 3) false).
  split; [done |]. intros rest out. cbn [decode_loop].
  rewrite decode_char_store by (done || lia). cbn [mbind option_bind].
  rewrite decode_char_store by (done || lia). cbn [mbind option_bind].
  rewrite decode_char_store by (done || lia). cbn [mbind option_bind].
  change (0 + 1 + 1 + 1) with 3. change (Z.to_nat 0) with 0%nat. change (Z.to_nat (0 + 1)) with 1%nat.
  change (Z.to_nat (0 + 1 + 1)) with 2%nat. cbn [insert list_insert].
  rewrite (decode_char_quad c0 c1 c2 c3 d3 d _ H3 Hd Hq). cbn [mbind option_bind].
  by rewrite !app_nil_r.
Qed.

Lemma conv_space l : 0 <= l -> is_space (conv l) = false.
Proof. intros Hl. by destruct (conv_value l Hl) as (_ & _ & ->). Qed.

Lemma decode_encoded src ctx :
  ready ctx false ->
  exists ctx', ready ctx' (negb (Z.of_nat (length src) mod 3 =? 0)) /\
    forall rest out, decode_loop ctx (encode_loop src ++ rest) out = decode_loop ctx' rest (out ++ src).
Proof.
  revert ctx. induction src as [| a | a b | a b c src IH] using list_ind3; intros ctx Hc.
  - exists ctx. split; [done |]. intros rest out. by rewrite app_nil_r.
  - destruct (decode_quad_step ctx _ _ _ _ _ Hc (decode_group1 a)) as (ctx' & Hc' & Hs);
      [try done; apply conv_space; rewrite !Z.shiftr_div_pow2, Z.shiftl_mul_pow2 by lia; dlia.. |].
    by exists ctx'.
  - destruct (decode_quad_step ctx _ _ _ _ _ Hc (decode_group2 a b)) as (ctx' & Hc' & Hs);
      [try done; apply conv_space; rewrite double_value, !Z.shiftr_div_pow2 by lia; dlia.. |].
    by exists ctx'.
  - destruct (decode_quad_step ctx _ _ _ _ _ Hc (decode_group3 a b c)) as (ctx1 & Hc1 & Hs);
      [try done; apply conv_space; rewrite triple_value, ?Z.shiftr_div_pow2 by lia; dlia.. |].
    destruct (IH ctx1 Hc1) as (ctx' & Hc' & Hr). exists ctx'.
    replace (Z.of_nat (length (a :: b :: c :: src)) mod 3) with (Z.of_nat (length src) mod 3)
      by (simpl length; dlia).
    split; [done |]. intros rest out. cbn [encode_loop app]. rewrite Hs, Hr, <- app_assoc. done.
Qed.

Lemma decode_lines n src ctx out :
  (length src <= n)%nat -> ready ctx false ->
  exists ctx', decode_loop ctx (lines_fuel n src) out = Some (ctx', out ++ src, true) /\
               data_used ctx' = 0 /\ error_encountered ctx' = false.
Proof.
  revert src ctx out. induction n as [| n IH]; intros [| b src] ctx out Hn Hc;
    try (exists ctx; rewrite app_nil_r; split; [done | by destruct Hc as (? & ? & ? & ?)]);
    [simpl in Hn; lia |].
  cbn [lines_fuel]. set (s := b :: src) in *.
  destruct (decode_encoded (take 48 s) ctx Hc) as (ctx1 & Hc1 & ->).
  cbn [app decode_loop]. rewrite decode_char_space. cbn [mbind option_bind]. rewrite app_nil_r.
  destruct (Nat.le_gt_cases (length s) 48) as [Hs | Hs].
  - rewrite drop_ge, take_ge by done. exists ctx1.
    destruct Hc1 as (? & ? & ? & ?). by destruct n.
  - rewrite length_take, Nat.min_l in Hc1 by lia.
    destruct (IH (drop 48 s) ctx1 (out ++ take 48 s)) as (ctx' & -> & H').
    { rewrite length_drop. lia. } { exact Hc1. }
    exists ctx'. by rewrite <- app_assoc, take_drop.
Qed.

(** A call for each chunk; [None] also when one of them returns an error. *)
Fixpoint decode_all (ctx : EVP_ENCODE_CTX) (chunks : list (list byte))
    : option (EVP_ENCODE_CTX * list byte * Z) :=
  match chunks with
  | [] => Some (ctx, [], 0)
  | c :: chunks =>
      '(ctx, out, n, r) ← EVP_DecodeUpdate ctx c;
      if r =? -1 then None else
      '(ctx, out', n') ← decode_all ctx chunks;
      Some (ctx, out ++ out', n + n')
  end.

Lemma decode_all_spec chunks ctx ctx' out :
  error_encountered ctx = false -> Z.of_nat (length out) <= INT_MAX ->
  decode_loop ctx (concat chunks) [] = Some (ctx', out, true) ->
  decode_all ctx chunks = Some (ctx', out, Z.of_nat (length out)).
Proof.
  revert ctx out. induction chunks as [| c chunks IH]; intros ctx out He Hm H.
  - by injection H as -> <-.
  - cbn [concat] in H. destruct (decode_loop_app _ _ _ _ _ H) as (ctx1 & o1 & o2 & H1 & H2 & ->).
    rewrite length_app, Nat2Z.inj_add in *. cbn [decode_all]. unfold EVP_DecodeUpdate.
    rewrite He, H1. cbn [mbind option_bind negb].
    destruct (Z.ltb_spec INT_MAX (Z.of_nat (length o1))); [lia |].
    cbn [mbind option_bind].
    replace ((if eof_seen ctx1 then 0 else 1) =? -1) with false by by destruct (eof_seen ctx1).
    rewrite (IH ctx1 o2); [done | | lia | done]. by rewrite (decode_loop_error _ _ _ _ H1).
Qed.

(** C18: what the incremental encoder writes, cut in any way into calls of the
    incremental decoder, is decoded to the data; no call reports an error, the
    reported lengths are those of what is written, and so is the end. *)
Theorem EVP_Decode_chunks_roundtrip data chunks :
  Z.of_nat (length data) <= INT_MAX -> concat chunks = lines data ->
  exists ctx,
    decode_all EVP_DecodeInit chunks = Some (ctx, data, Z.of_nat (length data)) /\
    EVP_DecodeFinal ctx = 1.
Proof.
  intros Hm Hc. destruct (decode_lines (length data) data EVP_DecodeInit []) as (ctx & H & Hu & He);
    [done.. |]. exists ctx. split.
  - apply decode_all_spec; [done.. | by rewrite Hc].
  - unfold EVP_DecodeFinal. by rewrite He, Hu.
Qed.

Lemma EVP_Decode_chunks_roundtrip_witness :
  let data := repeat x41 70 in
  let text := lines data in
  Z.of_nat (length data) <= INT_MAX /\
  exists ctx,
    decode_all EVP_DecodeInit [take 7 text; take 60 (drop 7 text); drop 67 text]
    = Some (ctx, data, 70) /\ EVP_DecodeFinal ctx = 1.
Proof.
  intros data text. split; [by vm_compute |].
  refine (EVP_Decode_chunks_roundtrip data [take 7 text; take 60 (drop 7 text); drop 67 text] _ _);
    by vm_compute.
Defined.

(** The decoder's state, between calls, whatever the text. *)
Definition decoder_wf (ctx : EVP_ENCODE_CTX) : Prop :=
  length (data ctx) = 48%nat /\ 0 <= data_used ctx <= 4 /\
  (data_used ctx < 4 \/ error_encountered ctx = true).

Lemma decode_quad_length c0 c1 c2 c3 bytes :
  base64_decode_quad c0 c1 c2 c3 = Some bytes -> (length bytes <= 3)%nat.
Proof.
  unfold base64_decode_quad. destruct (_ || _); [done |].
  repeat case_match; intros [= <-]; simpl; lia.
Qed.

Lemma decode_char_wf ctx c :
  length (data ctx) = 48%nat -> 0 <= data_used ctx < 4 ->
  exists ctx' bytes go,
    decode_char ctx c = Some (ctx', bytes, go) /\ decoder_wf ctx' /\
    4 * Z.of_nat (length bytes) + 3 * data_used ctx' <= 3 * (data_used ctx + 1) /\
    (if go then data_used ctx' < 4 else error_encountered ctx' = true).
Proof.
  intros Hd Hu. unfold decode_char, decoder_wf. destruct (is_space c).
  { eexists _, _, _. split; [done |]. simpl. split_and!; try done; lia. }
  destruct (eof_seen ctx).
  { eexists _, _, _. split; [done |]. simpl. split_and!; try done; lia || by right. }
  rewrite ctx_store by (done || lia). cbn [mbind option_bind data_used].
  set (d := <[_ := c]> (data ctx)). assert (length d = 48%nat) as Hl by (unfold d; by rewrite length_insert).
  destruct (Z.eqb_spec (data_used ctx + 1) 4) as [E4 | E4].
  - destruct d as [| c0 [| c1 [| c2 [| c3 d']]]]; try done.
    destruct (base64_decode_quad c0 c1 c2 c3) as [bytes |] eqn:Hq.
    + pose proof (decode_quad_length _ _ _ _ _ Hq).
      eexists _, _, _. split; [done |]. cbn [data data_used error_encountered]. split_and!; try done; lia.
    + eexists _, _, _. split; [done |]. cbn. split_and!; try done; lia || by right.
  - eexists _, _, _. split; [done |]. cbn [data data_used error_encountered length].
    split_and!; try done; lia.
Qed.

Lemma decode_loop_wf inp ctx :
  length (data ctx) = 48%nat -> 0 <= data_used ctx < 4 ->
  exists ctx' out ok,
    decode_loop ctx inp [] = Some (ctx', out, ok) /\ decoder_wf ctx' /\
    4 * Z.of_nat (length out) + 3 * data_used ctx' <= 3 * (data_used ctx + Z.of_nat (length inp)) /\
    (if ok then data_used ctx' < 4 else error_encountered ctx' = true).
Proof.
  revert ctx. induction inp as [| c inp IH]; intros ctx Hd Hu.
  { eexists _, _, _. split; [done |]. unfold decoder_wf. simpl. split_and!; try done; lia. }
  destruct (decode_char_wf ctx c Hd Hu) as (ctx1 & bytes & go & E & Hwf & Hlen & Hgo).
  cbn [decode_loop]. rewrite E. cbn [mbind option_bind app]. destruct go.
  - destruct Hwf as (Hd1 & Hu1 & _). destruct (IH ctx1 Hd1) as (ctx' & out & ok & E' & Hwf' & Hlen' & Hok);
      [lia |]. rewrite decode_loop_out, E'. eexists _, _, _. split; [done |].
    rewrite length_app. simpl length. split_and!; [by apply Hwf'.. | lia | done].
  - eexists _, _, _. split; [done |]. simpl length. split_and!; [by apply Hwf.. | lia | done].
Qed.

(** On any text a call of the incremental decoder stays within [ctx->data]; four
    characters give at most three bytes; what it reports is at most what it wrote; and
    after an error every later call is an error that writes nothing. *)
Theorem EVP_DecodeUpdate_safe ctx inp :
  decoder_wf ctx ->
  exists ctx' out n r,
    EVP_DecodeUpdate ctx inp = Some (ctx', out, n, r) /\ decoder_wf ctx' /\
    4 * Z.of_nat (length out) <= 3 * (data_used ctx + Z.of_nat (length inp)) /\
    0 <= n <= Z.of_nat (length out) /\ n <= INT_MAX /\
    (r = 0 \/ r = 1 \/
     r = -1 /\ n = 0 /\ forall inp', EVP_DecodeUpdate ctx' inp' = Some (ctx', [], 0, -1)).
Proof.
  intros (Hd & Hu & Hor). unfold EVP_DecodeUpdate at 1.
  destruct (error_encountered ctx) eqn:He.
  { eexists ctx, _, _, _. split; [done |]. simpl. split_and!; try done; try lia; [by unfold decoder_wf; auto |].
    do 2 right. split_and!; [done.. |]. intros inp'. unfold EVP_DecodeUpdate. by rewrite He. }
  destruct (decode_loop_wf inp ctx Hd) as (ctx' & out & ok & -> & Hwf & Hlen & Hok); [by destruct Hor; [lia |] |].
  cbn [mbind option_bind]. pose proof Hwf as (? & ? & ?). destruct ok; cbn [negb].
  - destruct (Z.ltb_spec INT_MAX (Z.of_nat (length out))).
    + eexists _, _, _, _. split; [done |]. split_and!; try done; try lia; [by unfold decoder_wf; simpl; auto |].
      do 2 right. split_and!; [done.. |]. intros inp'. done.
    + eexists _, _, _, _. split; [done |]. split_and!; try done; try lia. destruct (eof_seen ctx'); auto.
  - eexists _, _, _, _. split; [done |]. split_and!; try done; try lia.
    do 2 right. split_and!; [done.. |]. intros inp'. unfold EVP_DecodeUpdate. by rewrite Hok.
Qed.

Lemma EVP_DecodeUpdate_safe_witness :
  decoder_wf EVP_DecodeInit /\
  exists ctx' out n r,
    EVP_DecodeUpdate EVP_DecodeInit (z2b <$> [84; 87; 70; 117; 45; 84; 84; 84]) = Some (ctx', out, n, r) /\
    decoder_wf ctx' /\ 4 * Z.of_nat (length out) <= 3 * (0 + 8) /\
    0 <= n <= Z.of_nat (length out) /\ n <= INT_MAX /\
    (r = 0 \/ r = 1 \/
     r = -1 /\ n = 0 /\ forall inp', EVP_DecodeUpdate ctx' inp' = Some (ctx', [], 0, -1)).
Proof.
  assert (decoder_wf EVP_DecodeInit) as H by (unfold decoder_wf; simpl; split_and!; lia).
  split; [exact H |].
  exact (EVP_DecodeUpdate_safe EVP_DecodeInit (z2b <$> [84; 87; 70; 117; 45; 84; 84; 84]) H).
Defined.

(** ** The block decoder *)

Definition is_blank (c : byte) : bool := (b2z c =? 32) || (b2z c =? 9).

Lemma encode_loop_no_space src : Forall (fun c => is_space c = false) (encode_loop src).
Proof.
  induction src as [| a | a b | a b c src IH] using list_ind3; [done | ..]; cbn [encode_loop];
    repeat (apply Forall_cons; split); try done; try apply conv_space;
    rewrite ?triple_value, ?double_value, ?Z.shiftr_div_pow2, ?Z.shiftl_mul_pow2 by lia; dlia.
Qed.

Lemma trim_spaces_app a b :
  Forall (fun c => is_space c = true) a -> trim_spaces (a ++ b) = trim_spaces b.
Proof. induction 1 as [| c a Hc _ IH]; [done |]. cbn [app trim_spaces]. by rewrite Hc. Qed.

Lemma trim_spaces_id a : Forall (fun c => is_space c = false) a -> trim_spaces a = a.
Proof. intros Ha. destruct a as [| c a]; [done |]. apply Forall_cons in Ha as [Hc _]. cbn. by rewrite Hc. Qed.

Lemma trim_front_app a b : Forall (fun c => is_blank c = true) a -> trim_front (a ++ b) = trim_front b.
Proof. unfold is_blank. induction 1 as [| c a Hc _ IH]; [done |]. cbn [app trim_front]. by rewrite Hc. Qed.

(** What is left at the front is the text, or a part of the spaces. *)
Lemma trim_front_text t b :
  Forall (fun c => is_space c = false) t -> Forall (fun c => is_space c = true) b ->
  exists b', trim_front (t ++ b) = t ++ b' /\ Forall (fun c => is_space c = true) b'.
Proof.
  intros Ht Hb. destruct t as [| c t].
  - clear Ht. induction Hb as [| c b Hc Hb IH]; [by exists [] |]. cbn [app trim_front].
    destruct (_ || _); [done |]. exists (c :: b). split; [done |]. by apply Forall_cons.
  - exists b. split; [| done]. apply Forall_cons in Ht as [Hc _]. cbn [app trim_front].
    unfold is_space in Hc. by destruct (_ =? 32), (_ =? 9).
Qed.

(** A block between spaces and tabs on the left and spaces or newlines on the
    right is decoded to its data, filled with zeros to a multiple of three bytes. *)
Theorem EVP_DecodeBlock_spec front src back :
  Forall (fun c => is_blank c = true) front -> Forall (fun c => is_space c = true) back ->
  Z.of_nat (length src) < 2 ^ 30 ->
  EVP_DecodeBlock (front ++ encode_loop src ++ back)
  = Some (src ++ repeat x00 (Z.to_nat (- Z.of_nat (length src) mod 3))).
Proof.
  intros Hf Hb Hs. unfold EVP_DecodeBlock. rewrite trim_front_app by done.
  pose proof (encode_loop_no_space src) as Ht.
  destruct (trim_front_text _ _ Ht Hb) as (back' & -> & Hb'). unfold trim_back.
  rewrite reverse_app, trim_spaces_app by by apply Forall_reverse.
  rewrite trim_spaces_id by by apply Forall_reverse. rewrite reverse_involutive.
  pose proof (encode_loop_length src) as He. unfold EVP_DecodeBase64, EVP_DecodedLength, INT_MAX.
  rewrite He, Z.mod_mul by lia. rewrite Z.eqb_refl. cbn [negb mbind option_bind].
  rewrite Z.div_mul, wrap_small by dlia.
  destruct (Z.ltb_spec (2 ^ 31 - 1) ((Z.of_nat (length src) + 2) / 3 * 3)); [dlia |].
  rewrite Z.ltb_irrefl, decode_encode_loop. done.
Qed.

Lemma EVP_DecodeBlock_spec_witness :
  EVP_DecodeBlock (z2b <$> [32; 9; 84; 81; 61; 61; 13; 10]) = Some [z2b 77; x00; x00].
Proof.
  refine (EVP_DecodeBlock_spec [z2b 32; z2b 9] [z2b 77] [z2b 13; z2b 10] _ _ _);
    [repeat (apply Forall_cons; split; [by vm_compute |]); by apply Forall_nil .. | by vm_compute].
Defined.

(** The header says trailing minuses are stripped as well; they are not. *)
Example EVP_DecodeBlock_keeps_minus :
  EVP_DecodeBlock (z2b <$> [84; 87; 70; 117; 45]) = None.
Proof. reflexivity. Qed.
