(* ===== verification/UvErrno.v ===== *)
(** * Error codes of libuv

    [uv.h] and [uv/errno.h]: the negated codes of the platform, here those of Darwin. *)

From S2P Require Import Prelude.

Definition UV_E2BIG : Z := -7.
Definition UV_EINVAL : Z := -22.
Definition UV_ENOSPC : Z := -28.
Definition UV_EAFNOSUPPORT : Z := -47.
