(* ===== verification/Idna.v ===== *)
(** * Internationalized host names

    [idna.c]: the UTF-8 decoder of libuv and the conversion of a host name to its ASCII
    form (IDNA 2008), with the Punycode of each label.  The name is in a memory [mem], where
    pointers are offsets; the output is a buffer of [room] bytes, of which the code
    writes a prefix. *)

From S2P Require Import Prelude UvErrno.

(** The pointer that is moved over the name, and what was written so far. *)
Record text := mk_text { ptr : Z; out : list byte }.

Definition set_ptr (p : Z) (t : text) : text := mk_text p (out t).

(** [(unsigned) -1]. *)
Definition MINUS1 : Z := UINT32_MAX.

(** The end of one round of [foreach_codepoint]: the next round, [break] or [return]. *)
Inductive control (A : Type) : Type :=
  | Next (a : A)
  | Break (a : A)
  | Return (rc : Z).
Arguments Next {A} a.
Arguments Break {A} a.
Arguments Return {A} rc.

Definition alphabet : list byte :=
  z2b <$> [97; 98; 99; 100; 101; 102; 103; 104; 105; 106; 107; 108; 109; 110; 111; 112; 113; 114; 115; 116; 117; 118;
           119; 120; 121; 122; 48; 49; 50; 51; 52; 53; 54; 55; 56; 57].

(** Unsigned division. *)
Definition udiv (a b : Z) : prog text Z := if b =? 0 then stuck else mret (a / b).

(** The variables of the loop over the code points to insert. *)
Record puny := mk_puny { p_delta : Z; p_bias : Z; p_first : bool; p_h : Z; p_todo : Z }.

Section Idna.
Variable mem : list byte.
Variable room : nat.

(** [(unsigned char) *( *p)++]. *)
Definition next_char : prog text Z :=
  t ← getS;
  if ptr t <? 0 then stuck else
  match mem !! Z.to_nat (ptr t) with
  | Some b => _ ← modifyS (set_ptr (ptr t + 1)); mret (b2z b)
  | None => stuck
  end.

(** From the test of the continuation bytes on. *)
Definition utf8_finish (min a b c d : Z) : Z :=
  if negb (128 =? (192 .& ((b .^ c) .^ d))) then MINUS1 else
  let b := b .& 63 in
  let c := c .& 63 in
  let d := d .& 63 in
  let a := u32 (a .<< 18) .| u32 (b .<< 12) .| u32 (c .<< 6) .| d in
  if a <? min then MINUS1 else
  if 1114111 <? a then MINUS1 else
  if (55296 <=? a) && (a <=? 57343) then MINUS1 else
  a.

Definition uv__utf8_decode1_slow (pe a : Z) : prog text Z :=
  if 247 <? a then mret MINUS1 else
  t ← getS;
  let case := ptr t - pe in
  if negb (case =? 2) && negb (case =? 1) && (239 <? a) then
    b ← next_char; c ← next_char; d ← next_char;
    mret (utf8_finish 65536 (a .& 7) b c d)
  else if negb (case =? 1) && (223 <? a) then
    c ← next_char; d ← next_char;
    mret (utf8_finish 2048 0 (128 .| (a .& 15)) c d)
  else if 191 <? a then
    d ← next_char;
    mret (utf8_finish 128 0 128 (128 .| (a .& 31)) d)
  else mret MINUS1.

Definition uv__utf8_decode1 (pe : Z) : prog text Z :=
  a ← next_char;
  if a <? 128 then mret a else uv__utf8_decode1_slow pe a.

(** [foreach_codepoint(c, &s, se) body], over the variables [a] of the body. *)
Fixpoint foreach_codepoint {A} (fuel : nat) (se : Z) (body : Z -> A -> prog text (control A)) (a : A)
    : prog text (control A) :=
  match fuel with
  | O => nofuel
  | S fuel =>
      t ← getS;
      if se <? ptr t then mret (Next a) else
      c ← uv__utf8_decode1 se;
      t ← getS;
      if se <? ptr t then mret (Next a) else
      r ← body c a;
      match r with
      | Next a => foreach_codepoint fuel se body a
      | _ => mret r
      end
  end.

(** [s = ss; foreach_codepoint(c, &s, se) body]; what follows gets the variables. *)
Definition over_label {A} (ss se : Z) (body : Z -> A -> prog text (control A)) (a : A) (k : A -> prog text Z) : prog text Z :=
  _ ← modifyS (set_ptr ss);
  r ← foreach_codepoint (Z.to_nat (se - ss + 2)) se body a;
  match r with
  | Next a | Break a => k a
  | Return rc => mret rc
  end.

(** [if ( *d < de) *( *d)++ = b]. *)
Definition put (b : byte) : prog text unit :=
  modifyS (fun t => if (length (out t) <? room)%nat then mk_text (ptr t) (out t ++ [b]) else t).

(** Counts the ASCII code points and the others. *)
Definition count_body (c : Z) (a : Z * Z) : prog text (control (Z * Z)) :=
  let '(h, todo) := a in
  if c <? 128 then mret (Next (u32 (h + 1), todo))
  else if c =? MINUS1 then mret (Return UV_EINVAL)
  else mret (Next (h, u32 (todo + 1))).

(** Copies the ASCII ones. *)
Definition copy_body (h : Z) (c x : Z) : prog text (control Z) :=
  if 127 <? c then mret (Next x) else
  _ ← put (z2b c);
  let x := u32 (x + 1) in
  if x =? h then mret (Break x) else mret (Next x).

(** The least code point from [n] on. *)
Definition min_body (n : Z) (c m : Z) : prog text (control Z) :=
  if (n <=? c) && (c <? m) then mret (Next c) else mret (Next m).

(** [t] of a digit at [k]. *)
Definition threshold (k bias : Z) : Z :=
  let t := 1 in
  let t := if bias <? k then u32 (k - bias) else t in
  if 26 <? t then 26 else t.

(** [*( *d)++ = alphabet[i]] if there is room. *)
Definition put_digit (i : Z) : prog text unit :=
  match alphabet !! Z.to_nat i with
  | Some b => put b
  | None => stuck
  end.

(** The loop over [k] and [q], and the last digit; [q] is divided by ten at least. *)
Fixpoint put_varint (fuel : nat) (k q bias : Z) : prog text unit :=
  match fuel with
  | O => nofuel
  | S fuel =>
      let t := threshold k bias in
      if q <? t then put_digit q else
      let x := u32 (q - t) in
      let y := u32 (36 - t) in
      let q := x / y in
      let t := u32 (t + x mod y) in
      _ ← put_digit t;
      put_varint fuel (u32 (k + 36)) q bias
  end.

(** [for (bias = 0; delta > 35 * 26 / 2; bias += 36) delta /= 35]. *)
Fixpoint bias_loop (fuel : nat) (bias delta : Z) : prog text (Z * Z) :=
  match fuel with
  | O => nofuel
  | S fuel =>
      if 35 * 26 / 2 <? delta then bias_loop fuel (u32 (bias + 36)) (delta / 35) else mret (bias, delta)
  end.

Definition adapt (delta : Z) (first : bool) (h : Z) : prog text Z :=
  let delta := delta / 2 in
  let delta := if first then delta / 350 else delta in
  r ← udiv delta h;
  let delta := u32 (delta + r) in
  r ← bias_loop 32 0 delta;
  let '(bias, delta) := r in
  mret (u32 (bias + 36 * delta / (delta + 38))).

(** A round of the loop that inserts the code points [n]. *)
Definition insert_body (n : Z) (c : Z) (v : puny) : prog text (control puny) :=
  let delta := if c <? n then u32 (p_delta v + 1) else p_delta v in
  if (c <? n) && (delta =? 0) then mret (Return UV_E2BIG) else
  if negb (c =? n) then mret (Next (mk_puny delta (p_bias v) (p_first v) (p_h v) (p_todo v))) else
  _ ← put_varint 33 36 delta (p_bias v);
  let h := u32 (p_h v + 1) in
  bias ← adapt delta (p_first v) h;
  mret (Next (mk_puny 0 bias false h (u32 (p_todo v - 1)))).

(** [while (todo > 0)]; each round inserts one code point at least. *)
Fixpoint insert_loop (fuel : nat) (ss se n : Z) (v : puny) : prog text Z :=
  if p_todo v =? 0 then mret 0 else
  match fuel with
  | O => nofuel
  | S fuel =>
      over_label ss se (min_body n) MINUS1 (fun m =>
      let x := u32 (m - n) in
      let y := u32 (p_h v + 1) in
      q ← udiv (u32 (Z.lnot (p_delta v))) y;
      if q <? x then mret UV_E2BIG else
      let delta := u32 (p_delta v + x * y) in
      over_label ss se (insert_body m) (mk_puny delta (p_bias v) (p_first v) (p_h v) (p_todo v)) (fun v =>
      insert_loop fuel ss se (u32 (m + 1))
        (mk_puny (u32 (p_delta v + 1)) (p_bias v) (p_first v) (p_h v) (p_todo v))))
  end.

Definition uv__idna_toascii_label (s se : Z) : prog text Z :=
  let ss := s in
  over_label ss se count_body (0, 0) (fun '(h, todo) =>
  _ ← (if 0 <? todo then _ ← put x78; _ ← put x6e; _ ← put x2d; put x2d else mret tt);
  over_label ss se (copy_body h) 0 (fun _ =>
  if todo =? 0 then mret (i32 h) else
  _ ← (if 0 <? h then put x2d else mret tt);
  insert_loop (Z.to_nat todo) ss se 128 (mk_puny 0 72 true h todo))).

(** The code points that end a label. *)
Definition is_dot (c : Z) : bool := (c =? 46) || (c =? 12290) || (c =? 65294) || (c =? 65377).

(** The caller's [si] is kept while a label is converted. *)
Definition convert_label (s se : Z) : prog text Z :=
  t ← getS;
  rc ← uv__idna_toascii_label s se;
  _ ← modifyS (set_ptr (ptr t));
  mret rc.

(** The loop over [si]; the result is the start of the last label. *)
Fixpoint toascii_loop (fuel : nat) (s se : Z) : prog text (control Z) :=
  t ← getS;
  let st := ptr t in
  if negb (st <? se) then mret (Next s) else
  match fuel with
  | O => nofuel
  | S fuel =>
      c ← uv__utf8_decode1 se;
      if negb (is_dot c) then toascii_loop fuel s se else
      rc ← convert_label s st;
      if rc <? 0 then mret (Return rc) else
      _ ← put x2e;
      t ← getS;
      toascii_loop fuel (ptr t) se
  end.

Definition uv__idna_toascii (s se : Z) : prog text Z :=
  t0 ← getS;
  _ ← modifyS (set_ptr s);
  r ← toascii_loop (Z.to_nat (se - s)) s se;
  match r with
  | Return rc => mret rc
  | Next s | Break s =>
      rc ← (if s <? se then convert_label s se else mret 0);
      if rc <? 0 then mret rc else
      _ ← put x00;
      t ← getS;
      mret (Z.of_nat (length (out t)) - Z.of_nat (length (out t0)))
  end.
End Idna.

(** A name in a buffer that ends with a NUL, and an output buffer of [room] bytes. *)
Definition toascii (name : list byte) (room : nat) : outcome Z * list byte :=
  let '(r, t) := uv__idna_toascii (name ++ [x00]) room 0 (Z.of_nat (length name)) (mk_text 0 []) in
  (r, out t).
