(* ===== verification/IdnaPuny.v ===== *)
(** * Internationalized host names: the loops of a label

    What the loops over the code points of a label compute, as functions of the list of
    its code points ([Codes], [each]), and the proof that the Punycode they write is
    read back by the decoder of RFC 3492 ([puny_decode], [insert_loop_run]). *)

From S2P Require Import Prelude Crypto Cbs CbsAsn1 Cbb CbbSpec Unicode UvErrno Idna.

(** ** Reading the name *)

Section Read.
Variable mem : list byte.
Variable room : nat.

Definition byte_at (p : Z) : option Z := if p <? 0 then None else b2z <$> mem !! Z.to_nat p.

(** The code point at [p] and where the next one starts. *)
Definition decode_at (pe p : Z) : option (Z * Z) :=
  a ← byte_at p;
  if a <? 128 then Some (a, p + 1) else
  if 247 <? a then Some (MINUS1, p + 1) else
  let case := p + 1 - pe in
  if negb (case =? 2) && negb (case =? 1) && (239 <? a) then
    b ← byte_at (p + 1); c ← byte_at (p + 2); d ← byte_at (p + 3);
    Some (utf8_finish 65536 (a .& 7) b c d, p + 4)
  else if negb (case =? 1) && (223 <? a) then
    c ← byte_at (p + 1); d ← byte_at (p + 2);
    Some (utf8_finish 2048 0 (128 .| (a .& 15)) c d, p + 3)
  else if 191 <? a then
    d ← byte_at (p + 1);
    Some (utf8_finish 128 0 128 (128 .| (a .& 31)) d, p + 2)
  else Some (MINUS1, p + 1).

Lemma next_char_run p o :
  next_char mem (mk_text p o)
  = match byte_at p with Some b => (Done b, mk_text (p + 1) o) | None => (Stuck, mk_text p o) end.
Proof.
  unfold next_char, byte_at. erewrite prog_bind_done by done. cbn [ptr]. destruct (p <? 0); [done |].
  by destruct (mem !! Z.to_nat p).
Qed.

Lemma next_char_bind {A} p o (k : Z -> prog text A) :
  (next_char mem ≫= k) (mk_text p o)
  = match byte_at p with Some b => k b (mk_text (p + 1) o) | None => (Stuck, mk_text p o) end.
Proof. unfold mbind, prog_bind. rewrite next_char_run. by destruct (byte_at p). Qed.

Lemma decode1_run pe p o :
  match decode_at pe p with
  | Some (c, p') => uv__utf8_decode1 mem pe (mk_text p o) = (Done c, mk_text p' o)
  | None => exists t, uv__utf8_decode1 mem pe (mk_text p o) = (Stuck, t)
  end.
Proof.
  unfold uv__utf8_decode1, decode_at. rewrite next_char_bind.
  destruct (byte_at p) as [a |]; [| by eexists]. cbn [mbind option_bind]. destruct (a <? 128); [done |].
  unfold uv__utf8_decode1_slow. destruct (247 <? a); [done |]. erewrite prog_bind_done by done. cbn [ptr].
  destruct (_ && (239 <? a)).
  { rewrite next_char_bind. destruct (byte_at (p + 1)); [| by eexists]. cbn [mbind option_bind].
    rewrite next_char_bind. replace (p + 1 + 1) with (p + 2) by lia. destruct (byte_at (p + 2)); [| by eexists].
    cbn [mbind option_bind]. rewrite next_char_bind. replace (p + 2 + 1) with (p + 3) by lia.
    destruct (byte_at (p + 3)); [| by eexists]. cbn [mbind option_bind]. by replace (p + 3 + 1) with (p + 4) by lia. }
  destruct (_ && (223 <? a)).
  { rewrite next_char_bind. destruct (byte_at (p + 1)); [| by eexists]. cbn [mbind option_bind].
    rewrite next_char_bind. replace (p + 1 + 1) with (p + 2) by lia. destruct (byte_at (p + 2)); [| by eexists].
    cbn [mbind option_bind]. by replace (p + 2 + 1) with (p + 3) by lia. }
  destruct (191 <? a); [| done].
  rewrite next_char_bind. destruct (byte_at (p + 1)); [| by eexists]. cbn [mbind option_bind].
  by replace (p + 1 + 1) with (p + 2) by lia.
Qed.

Lemma decode_at_next pe p c p' : decode_at pe p = Some (c, p') -> p < p' <= p + 4.
Proof.
  unfold decode_at. destruct (byte_at p) as [a |]; [| done]. cbn [mbind option_bind].
  repeat (destruct (_ : bool) || destruct (byte_at _) || cbn [mbind option_bind]); intros E; try done; injection E; lia.
Qed.

(** The code points of [[p, se)]. *)
Inductive Codes (se : Z) : Z -> list Z -> Prop :=
  | codes_past p : se < p -> Codes se p []
  | codes_last p c p' : p <= se -> decode_at se p = Some (c, p') -> se < p' -> Codes se p []
  | codes_cons p c p' cs : p <= se -> decode_at se p = Some (c, p') -> p' <= se -> Codes se p' cs -> Codes se p (c :: cs).

Lemma codes_length se p cs : Codes se p cs -> Z.of_nat (length cs) <= Z.max 0 (se - p).
Proof. induction 1; cbn [length]; [lia | lia |]. pose proof (decode_at_next _ _ _ _ H0). lia. Qed.

(** A body that leaves the pointer alone and, where [P] holds of the code points to come
    and of the variables, does [f]: the next variables and the bytes to write. *)
Definition Body {A} (P : list Z -> A -> Prop) (body : Z -> A -> prog text (control A)) (f : Z -> A -> control A * list byte) :=
  forall c cs a p e, P (c :: cs) a ->
    body c a (mk_text p (take room e)) = (Done (f c a).1, mk_text p (take room (e ++ (f c a).2))) /\
    match (f c a).1 with Next a => P cs a | _ => True end.

Fixpoint each {A} (f : Z -> A -> control A * list byte) (cs : list Z) (a : A) : control A * list byte :=
  match cs with
  | [] => (Next a, [])
  | c :: cs =>
      match f c a with
      | (Next a, l) => let '(r, l') := each f cs a in (r, l ++ l')
      | r => r
      end
  end.

Lemma foreach_run {A} P (body : Z -> A -> prog text (control A)) f se p cs a e fuel :
  Body P body f -> P cs a -> Codes se p cs -> (Z.to_nat (se - p + 1) < fuel)%nat ->
  exists p', foreach_codepoint mem fuel se body a (mk_text p (take room e))
    = (Done (each f cs a).1, mk_text p' (take room (e ++ (each f cs a).2))).
Proof.
  intros Hf Ha Hcs. revert a e fuel Ha.
  induction Hcs as [p Hp | p c p' Hp Hd Hp' | p c p' cs Hp Hd Hp' Hcs IH]; intros a e fuel Ha Hfuel;
    (destruct fuel as [| fuel]; [lia |]); cbn [foreach_codepoint each]; erewrite prog_bind_done by done; cbn [ptr].
  - rewrite (proj2 (Z.ltb_lt _ _) Hp), app_nil_r. by eexists.
  - rewrite (proj2 (Z.ltb_ge _ _) Hp). pose proof (decode1_run se p (take room e)) as Hr. rewrite Hd in Hr.
    rewrite (prog_bind_done _ _ _ _ _ Hr). erewrite prog_bind_done by done. cbn [ptr].
    rewrite (proj2 (Z.ltb_lt _ _) Hp'), app_nil_r. by eexists.
  - rewrite (proj2 (Z.ltb_ge _ _) Hp). pose proof (decode1_run se p (take room e)) as Hr. rewrite Hd in Hr.
    rewrite (prog_bind_done _ _ _ _ _ Hr). erewrite prog_bind_done by done. cbn [ptr].
    rewrite (proj2 (Z.ltb_ge _ _) Hp'). destruct (Hf c cs a p' e Ha) as [E Ha']. rewrite (prog_bind_done _ _ _ _ _ E).
    pose proof (decode_at_next _ _ _ _ Hd). destruct (f c a) as [[a' | a' | rc] l]; cbn [fst snd] in *; try by eexists.
    destruct (IH a' (e ++ l) fuel Ha') as [p'' E']; [lia |]. exists p''. rewrite E', <- app_assoc.
    by destruct (each f cs a') as [r l'].
Qed.

Lemma over_label_run {A} P (body : Z -> A -> prog text (control A)) f ss se cs a (k : A -> prog text Z) p e :
  Body P body f -> P cs a -> Codes se ss cs -> ss <= se + 1 ->
  exists p', over_label mem ss se body a k (mk_text p (take room e))
    = match each f cs a with
      | (Next a, l) | (Break a, l) => k a (mk_text p' (take room (e ++ l)))
      | (Return rc, l) => (Done rc, mk_text p' (take room (e ++ l)))
      end.
Proof.
  intros Hf Ha Hcs Hs. unfold over_label. erewrite prog_bind_done by done. unfold set_ptr. cbn [out].
  destruct (foreach_run P body f se ss cs a e (Z.to_nat (se - ss + 2)) Hf Ha Hcs) as [p' E]; [lia |]. exists p'.
  rewrite (prog_bind_done _ _ _ _ _ E). by destruct (each f cs a) as [[] l].
Qed.

(** ** Writing *)

Definition Yields {A} (m : prog text A) (x : A) (l : list byte) : Prop :=
  forall p e, m (mk_text p (take room e)) = (Done x, mk_text p (take room (e ++ l))).

Lemma yields_put b : Yields (put room b) tt [b].
Proof.
  intros p e. unfold put, modifyS. cbn [out ptr]. rewrite length_take. destruct (Nat.ltb_spec (room `min` length e) room).
  - rewrite (take_ge e) by lia. rewrite (take_ge (e ++ _)) by (rewrite length_app; cbn [length]; lia). done.
  - by rewrite take_app_le by lia.
Qed.

Lemma yields_ret {A} (x : A) : Yields (mret x) x [].
Proof. intros p e. by rewrite app_nil_r. Qed.

Lemma yields_bind {A B} (m : prog text A) (k : A -> prog text B) x y l1 l2 :
  Yields m x l1 -> Yields (k x) y l2 -> Yields (m ≫= k) y (l1 ++ l2).
Proof. intros Hm Hk p e. rewrite (prog_bind_done _ _ _ _ _ (Hm p e)), Hk, <- app_assoc. done. Qed.

Lemma yields_body {A B} (m : prog text A) x l (k : A -> prog text B) p e :
  Yields m x l -> (m ≫= k) (mk_text p (take room e)) = k x (mk_text p (take room (e ++ l))).
Proof. intros Hm. by rewrite (prog_bind_done _ _ _ _ _ (Hm p e)). Qed.
End Read.

(** A loop over the label, by what its body does. *)
Ltac run_label Hbody HP Hcodes Hbounds p :=
  lazymatch goal with
  | |- context [over_label ?mem ?ss ?se ?body ?a ?k (mk_text ?p0 (take ?room ?e))] =>
      let E := fresh in
      destruct (over_label_run mem room _ body _ ss se _ a k p0 e Hbody HP Hcodes Hbounds) as [p E]; rewrite E; clear E
  end.

(** ** Punycode: the reference decoder of RFC 3492 *)

Definition puny_digit (b : byte) : option Z :=
  let c := b2z b in
  if (97 <=? c) && (c <=? 122) then Some (c - 97)
  else if (65 <=? c) && (c <=? 90) then Some (c - 65)
  else if (48 <=? c) && (c <=? 57) then Some (c - 22)
  else None.

Definition rfc_threshold (k bias : Z) : Z := Z.max 1 (Z.min 26 (k - bias)).

(** A generalized variable-length integer of weight [w], added to [i]. *)
Fixpoint decode_int (l : list byte) (i w k bias : Z) : option (Z * list byte) :=
  match l with
  | [] => None
  | b :: l =>
      d ← puny_digit b;
      let t := rfc_threshold k bias in
      if d <? t then Some (i + d * w, l) else decode_int l (i + d * w) (w * (36 - t)) (k + 36) bias
  end.

Fixpoint rfc_bias (fuel : nat) (k delta : Z) : Z :=
  match fuel with
  | O => k
  | S fuel => if 455 <? delta then rfc_bias fuel (k + 36) (delta / 35) else k + 36 * delta / (delta + 38)
  end.

Definition rfc_adapt (delta numpoints : Z) (first : bool) : Z :=
  let delta := if first then delta / 700 else delta / 2 in
  let delta := delta + delta / numpoints in
  rfc_bias (S (Z.to_nat (Z.log2 delta))) 0 delta.

(** The state of the decoder: [n], [i], [bias] and the code points so far. *)
Definition rfc_state : Type := Z * Z * Z * list Z.

Fixpoint decode_points (fuel : nat) (l : list byte) (st : rfc_state) : option (list Z) :=
  let '(n, i, bias, cs) := st in
  match l, fuel with
  | [], _ => Some cs
  | _, O => None
  | _, S fuel =>
      r ← decode_int l i 1 36 bias;
      let '(i', l) := r in
      let len := Z.of_nat (length cs) + 1 in
      let n := n + i' / len in
      let p := i' mod len in
      decode_points fuel l (n, p + 1, rfc_adapt (i' - i) len (i =? 0), take (Z.to_nat p) cs ++ n :: drop (Z.to_nat p) cs)
  end.

(** The bytes before the last hyphen, and those after it. *)
Fixpoint split_hyphen (l : list byte) : option (list byte * list byte) :=
  match l with
  | [] => None
  | b :: l =>
      match split_hyphen l with
      | Some (l1, l2) => Some (b :: l1, l2)
      | None => if b2z b =? 45 then Some ([], l) else None
      end
  end.

Definition puny_decode (l : list byte) : option (list Z) :=
  let '(basic, l) := match split_hyphen l with Some (b :: l1, l2) => (b :: l1, l2) | _ => ([], l) end in
  if forallb (fun b => b2z b <? 128) basic then decode_points (length l) l (128, 0, 72, b2z <$> basic) else None.

(** ** Integers *)

Fixpoint varint_digits (fuel : nat) (k q bias : Z) : list Z :=
  match fuel with
  | O => []
  | S fuel =>
      let t := rfc_threshold k bias in
      if q <? t then [q] else (t + (q - t) mod (36 - t)) :: varint_digits fuel (k + 36) ((q - t) / (36 - t)) bias
  end.

Lemma varint_digits_S fuel k q bias :
  varint_digits (S fuel) k q bias
  = let t := rfc_threshold k bias in
    if q <? t then [q] else (t + (q - t) mod (36 - t)) :: varint_digits fuel (k + 36) ((q - t) / (36 - t)) bias.
Proof. done. Qed.

Lemma put_varint_S room fuel k q bias :
  put_varint room (S fuel) k q bias
  = let t := threshold k bias in
    if q <? t then put_digit room q else
    let x := u32 (q - t) in
    let y := u32 (36 - t) in
    _ ← put_digit room (u32 (t + x mod y));
    put_varint room fuel (u32 (k + 36)) (x / y) bias.
Proof. done. Qed.

(** The digit [i] as it is written. *)
Definition digit (i : Z) : byte := z2b (if i <? 26 then 97 + i else 22 + i).

Lemma threshold_range k bias : 1 <= rfc_threshold k bias <= 26.
Proof. unfold rfc_threshold. lia. Qed.

Lemma threshold_rfc k bias : 0 <= k < 2 ^ 32 -> 0 <= bias < 2 ^ 32 -> threshold k bias = rfc_threshold k bias.
Proof.
  intros Hk Hb. unfold threshold, rfc_threshold. destruct (Z.ltb_spec bias k); cbv zeta.
  - rewrite wrap_small by lia. destruct (Z.ltb_spec 26 (k - bias)); lia.
  - cbn [Z.ltb Z.compare Pos.compare Pos.compare_cont]. lia.
Qed.

Lemma alphabet_digit i : 0 <= i < 36 -> alphabet !! Z.to_nat i = Some (digit i).
Proof.
  intros Hi. assert (forallb (fun i => bool_decide (alphabet !! Z.to_nat i = Some (digit i))) (seqZ 0 36) = true) as H by done.
  rewrite forallb_forall in H. specialize (H i). rewrite bool_decide_eq_true in H. apply H. apply list_elem_of_In, elem_of_seqZ. lia.
Qed.

Lemma puny_digit_digit i : 0 <= i < 36 -> puny_digit (digit i) = Some i.
Proof.
  intros Hi. assert (forallb (fun i => bool_decide (puny_digit (digit i) = Some i)) (seqZ 0 36) = true) as H by done.
  rewrite forallb_forall in H. specialize (H i). rewrite bool_decide_eq_true in H. apply H. apply list_elem_of_In, elem_of_seqZ. lia.
Qed.

Lemma yields_digit room i : 0 <= i < 36 -> Yields room (put_digit room i) tt [digit i].
Proof. intros Hi. unfold put_digit. rewrite alphabet_digit by done. apply yields_put. Qed.

Lemma varint_step t q : 1 <= t <= 26 -> t <= q -> 0 <= (q - t) / (36 - t) /\ 10 * ((q - t) / (36 - t)) < q.
Proof.
  intros Ht Hq. assert (0 <= (q - t) / (36 - t)) by (apply Z.div_pos; lia).
  pose proof (Z.mul_div_le (q - t) (36 - t)). split; [done | nia].
Qed.

Lemma yields_varint room fuel k q bias :
  0 <= q < 2 ^ Z.of_nat fuel -> q < 2 ^ 32 -> 0 <= bias < 2 ^ 32 -> 0 <= k -> k + 36 * Z.of_nat fuel < 2 ^ 32 ->
  Yields room (put_varint room (S fuel) k q bias) tt (digit <$> varint_digits (S fuel) k q bias).
Proof.
  revert k q. induction fuel as [| fuel IH]; intros k q Hq Hw Hb Hk Hf; rewrite varint_digits_S, put_varint_S; cbv zeta;
    rewrite (threshold_rfc k bias) by lia; pose proof (threshold_range k bias) as Ht; set (t := rfc_threshold k bias) in *.
  { rewrite (proj2 (Z.ltb_lt q t)) by lia. apply (yields_digit room q). lia. }
  destruct (Z.ltb_spec q t); [apply yields_digit; lia |]. pose proof (varint_step t q Ht ltac:(lia)) as Hs.
  rewrite Nat2Z.inj_succ, Z.pow_succ_r in Hq by lia. rewrite (wrap_small 32 (q - t)), (wrap_small 32 (36 - t)) by lia.
  pose proof (Z.mod_pos_bound (q - t) (36 - t) ltac:(lia)). rewrite !wrap_small by lia. rewrite fmap_cons.
  apply (yields_bind room _ _ tt tt [_]); [by apply yields_digit; lia |]. apply IH; lia.
Qed.

(** What was written is read. *)
Lemma decode_varint fuel k q bias i w rest :
  0 <= q < 2 ^ Z.of_nat fuel -> decode_int ((digit <$> varint_digits (S fuel) k q bias) ++ rest) i w k bias = Some (i + q * w, rest).
Proof.
  revert k q i w. induction fuel as [| fuel IH]; intros k q i w Hq; rewrite varint_digits_S; pose proof (threshold_range k bias) as Ht; cbv zeta.
  { rewrite (proj2 (Z.ltb_lt q _)) by lia. cbn [fmap list_fmap app decode_int]. rewrite puny_digit_digit by lia.
    cbn [mbind option_bind]. by rewrite (proj2 (Z.ltb_lt q _)) by lia. }
  destruct (Z.ltb_spec q (rfc_threshold k bias)).
  { cbn [fmap list_fmap app decode_int]. rewrite puny_digit_digit by lia. cbn [mbind option_bind].
    by rewrite (proj2 (Z.ltb_lt q _)) by lia. }
  pose proof (varint_step _ q Ht ltac:(lia)) as Hs. rewrite Nat2Z.inj_succ, Z.pow_succ_r in Hq by lia.
  rewrite fmap_cons. cbn [app decode_int]. set (t := rfc_threshold k bias) in *.
  pose proof (Z.mod_pos_bound (q - t) (36 - t) ltac:(lia)). rewrite puny_digit_digit by lia. cbn [mbind option_bind].
  rewrite (proj2 (Z.ltb_ge _ t)) by lia. rewrite IH by lia. do 2 f_equal.
  pose proof (Z.div_mod (q - t) (36 - t) ltac:(lia)). nia.
Qed.

Lemma varint_not_nil fuel k q bias : varint_digits (S fuel) k q bias <> [].
Proof. rewrite varint_digits_S. cbv zeta. by destruct (_ <? _). Qed.

Lemma varint_digits_range fuel k q bias : 0 <= q -> Forall (fun d => 0 <= d < 36) (varint_digits fuel k q bias).
Proof.
  revert k q. induction fuel as [| fuel IH]; intros k q Hq; [constructor |]. rewrite varint_digits_S.
  pose proof (threshold_range k bias) as Ht. cbv zeta. set (t := rfc_threshold k bias) in *.
  destruct (Z.ltb_spec q t); [by repeat constructor; lia |]. pose proof (Z.mod_pos_bound (q - t) (36 - t) ltac:(lia)).
  pose proof (varint_step t q Ht ltac:(lia)). constructor; [lia | apply IH; lia].
Qed.

(** ** Adapting the bias *)

Lemma bias_loop_S fuel bias delta :
  bias_loop (S fuel) bias delta
  = if 455 <? delta then bias_loop fuel (u32 (bias + 36)) (delta / 35) else mret (bias, delta).
Proof. done. Qed.

Lemma rfc_bias_S fuel k delta :
  rfc_bias (S fuel) k delta = if 455 <? delta then rfc_bias fuel (k + 36) (delta / 35) else k + 36 * delta / (delta + 38).
Proof. done. Qed.

Lemma bias_loops f g b d :
  0 <= d < 456 * 2 ^ Z.of_nat f -> d < 456 * 2 ^ Z.of_nat g -> 0 <= b -> b + 36 * Z.of_nat f < 2 ^ 31 ->
  exists b' d', (forall t, bias_loop (S f) b d t = (Done (b', d'), t)) /\ 0 <= d' <= 455 /\
    0 <= b' <= b + 36 * Z.of_nat f /\ rfc_bias (S g) b d = b' + 36 * d' / (d' + 38).
Proof.
  revert g b d. induction f as [| f IH]; intros g b d Hd Hg Hb Hf; rewrite bias_loop_S, rfc_bias_S;
    destruct (Z.ltb_spec 455 d); try (eexists b, d; repeat split; lia).
  destruct g as [| g]; [lia |]. rewrite Nat2Z.inj_succ, Z.pow_succ_r in Hd, Hg by lia. rewrite wrap_small by lia.
  pose proof (Z.mul_div_le d 35 ltac:(lia)). assert (0 <= d / 35) by (apply Z.div_pos; lia).
  destruct (IH g (b + 36) (d / 35)) as (b' & d' & E & Hd' & Hb' & Er); [lia .. |].
  exists b', d'. repeat split; try lia; done.
Qed.

Lemma yields_adapt room delta (first : bool) h :
  0 <= delta < 2 ^ 32 -> 0 < h < 2 ^ 32 -> Yields room (adapt delta first h) (rfc_adapt delta h first) [] /\
    0 <= rfc_adapt delta h first < 2 ^ 32.
Proof.
  intros Hd Hh. assert ((if first then delta / 2 / 350 else delta / 2) = (if first then delta / 700 else delta / 2)) as E2
    by (destruct first; [by rewrite Z.div_div by lia | done]).
  unfold rfc_adapt. set (d := if first then delta / 700 else delta / 2) in *.
  assert (0 <= d < 2 ^ 31) as Hdr by (subst d; destruct first; dlia).
  assert (0 <= d / h <= d) as Hq. { split; [apply Z.div_pos; lia |]. apply Z.div_le_upper_bound; [lia | nia]. }
  set (x := d + d / h). assert (0 <= x < 2 ^ 32) as Hx by lia.
  assert (x < 456 * 2 ^ Z.of_nat (Z.to_nat (Z.log2 x))) as Hlog.
  { destruct (Z.eq_dec x 0) as [-> | Hne]; [done |]. pose proof (Z.log2_spec x ltac:(lia)) as [_ Hl].
    pose proof (Z.log2_nonneg x). rewrite Z2Nat.id by done. rewrite Z.pow_succ_r in Hl by done. lia. }
  destruct (bias_loops 31 (Z.to_nat (Z.log2 x)) 0 x) as (b' & d' & E & Hd' & Hb' & Er); [lia .. |]. cbv zeta. fold x. rewrite Er.
  assert (0 <= 36 * d' / (d' + 38) <= 36) by (split; [apply Z.div_pos; lia | apply Z.div_le_upper_bound; lia]).
  split; [| lia]. intros p e. rewrite app_nil_r. unfold adapt. cbv zeta. rewrite E2. unfold udiv.
  rewrite (proj2 (Z.eqb_neq h 0)) by lia. erewrite prog_bind_done by done. rewrite wrap_small by (fold x; lia). fold x.
  rewrite (prog_bind_done _ _ _ _ _ (E _)). unfold mret, prog_ret. do 2 f_equal. apply wrap_small. lia.
Qed.

(** ** The bodies of the loops *)

Definition count_f (c : Z) (a : Z * Z) : control (Z * Z) * list byte :=
  if c <? 128 then (Next (u32 (a.1 + 1), a.2), [])
  else if c =? MINUS1 then (Return UV_EINVAL, [])
  else (Next (a.1, u32 (a.2 + 1)), []).

Definition copy_f (h c x : Z) : control Z * list byte :=
  if 127 <? c then (Next x, [])
  else (if u32 (x + 1) =? h then Break (u32 (x + 1)) else Next (u32 (x + 1)), [z2b c]).

Definition min_f (n c m : Z) : control Z * list byte := (Next (if (n <=? c) && (c <? m) then c else m), []).

Definition insert_f (n c : Z) (v : puny) : control puny * list byte :=
  let delta := if c <? n then u32 (p_delta v + 1) else p_delta v in
  if (c <? n) && (delta =? 0) then (Return UV_E2BIG, []) else
  if c =? n then
    let h := p_h v + 1 in
    (Next (mk_puny 0 (rfc_adapt delta h (p_first v)) false h (p_todo v - 1)), digit <$> varint_digits 33 36 delta (p_bias v))
  else (Next (mk_puny delta (p_bias v) (p_first v) (p_h v) (p_todo v)), []).

Abbreviation count n cs := (Z.of_nat (length (filter (eq n) cs))).

(** The variables are words, and as many code points are to be inserted as there are. *)
Definition insert_ok (n : Z) (cs : list Z) (v : puny) : Prop :=
  0 <= p_delta v < 2 ^ 32 /\ 0 <= p_bias v < 2 ^ 32 /\ 0 <= p_h v /\ count n cs <= p_todo v /\ p_h v + p_todo v < 2 ^ 31.

Section Bodies.
Variable room : nat.
Abbreviation Body := (Body room).

Lemma body_count : Body (fun _ _ => True) count_body count_f.
Proof.
  intros c cs [h todo] p e _. split; [| by destruct (count_f c (h, todo)).1]. unfold count_body, count_f. cbn [fst snd].
  destruct (c <? 128); [| destruct (c =? MINUS1)]; by rewrite app_nil_r.
Qed.

Lemma body_copy h : Body (fun _ _ => True) (copy_body room h) (copy_f h).
Proof.
  intros c cs x p e _. split; [| by destruct (copy_f h c x).1]. unfold copy_body, copy_f.
  destruct (127 <? c); [by rewrite app_nil_r |]. rewrite (yields_body room _ tt _ _ p e (yields_put room (z2b c))). cbv zeta.
  by destruct (_ =? h).
Qed.

Lemma body_min n : Body (fun _ _ => True) (min_body n) (min_f n).
Proof. intros c cs m p e _. split; [| done]. unfold min_body, min_f. rewrite app_nil_r. by destruct (_ && _). Qed.

Lemma body_insert n : Body (insert_ok n) (insert_body room n) (insert_f n).
Proof.
  intros c cs v p e (Hd & Hb & Hh & Ht & Hn). unfold insert_body, insert_f. cbv zeta. rewrite filter_cons in Ht.
  set (delta := if c <? n then u32 (p_delta v + 1) else p_delta v).
  assert (0 <= delta < 2 ^ 32) as Hdelta by (subst delta; destruct (c <? n); [apply wrap_range; lia | done]).
  destruct (_ && (delta =? 0)); [by rewrite app_nil_r |].
  destruct (Z.eqb_spec c n) as [-> | Hne]; cbn [negb fst snd].
  - rewrite decide_True in Ht by done. cbn [length] in Ht.
    destruct (yields_adapt room delta (p_first v) (p_h v + 1)) as [Ea Hbias]; [done | lia |].
    rewrite (wrap_small 32 (p_h v + 1)), (wrap_small 32 (p_todo v - 1)) by lia. split.
    + rewrite (yields_body room _ tt _ _ p e (yields_varint room 32 36 delta (p_bias v) ltac:(lia) ltac:(lia) Hb ltac:(lia) ltac:(lia))).
      rewrite (yields_body room _ _ _ _ p _ Ea). by rewrite app_nil_r.
    + unfold insert_ok. cbn [p_delta p_bias p_h p_todo]. lia.
  - rewrite decide_False in Ht by done. rewrite app_nil_r. split; [done |]. unfold insert_ok. cbn [p_delta p_bias p_h p_todo]. done.
Qed.
End Bodies.

(** ** The insertion and the decoder *)

(** The decoder takes the digits [E] from the state [st] to the state [st']. *)
Definition Reads (E : list byte) (st st' : rfc_state) : Prop :=
  Forall (fun b => b ∈ alphabet) E /\
  forall rest fuel, (length (E ++ rest) <= fuel)%nat ->
    exists fuel', (length rest <= fuel')%nat /\ decode_points fuel (E ++ rest) st = decode_points fuel' rest st'.

Lemma reads_nil st : Reads [] st st.
Proof. split; [constructor |]. intros rest fuel Hf. by exists fuel. Qed.

Lemma reads_app E1 E2 st1 st2 st3 : Reads E1 st1 st2 -> Reads E2 st2 st3 -> Reads (E1 ++ E2) st1 st3.
Proof.
  intros [Hd1 H1] [Hd2 H2]. split; [by apply Forall_app |]. intros rest fuel Hf. rewrite <- app_assoc in *. destruct (H1 _ _ Hf) as (f1 & Hf1 & ->).
  destruct (H2 _ _ Hf1) as (f2 & Hf2 & ->). by exists f2.
Qed.

Lemma reads_varint n i bias cs delta :
  0 <= delta < 2 ^ 32 ->
  let len := Z.of_nat (length cs) + 1 in
  let n' := n + (i + delta) / len in
  let p := (i + delta) mod len in
  Reads (digit <$> varint_digits 33 36 delta bias) (n, i, bias, cs)
    (n', p + 1, rfc_adapt delta len (i =? 0), take (Z.to_nat p) cs ++ n' :: drop (Z.to_nat p) cs).
Proof.
  intros Hd len n' p. split.
  { apply Forall_fmap, (Forall_impl (fun d => 0 <= d < 36)); [apply varint_digits_range; lia |].
    intros d Hd'. eapply list_elem_of_lookup_2, alphabet_digit, Hd'. }
  intros rest fuel Hf. pose proof (decode_varint 32 36 delta bias i 1 rest ltac:(lia)) as Hr.
  pose proof (varint_not_nil 32 36 delta bias) as Hne. set (E := digit <$> varint_digits 33 36 delta bias) in *.
  assert (E <> []) as HE by (unfold E; by destruct (varint_digits 33 36 delta bias)).
  rewrite length_app in Hf. destruct fuel as [| fuel]; [destruct E; [done | cbn in Hf; lia] |].
  exists fuel. split; [destruct E; [done | cbn in Hf; lia] |]. cbn [decode_points].
  destruct (E ++ rest) eqn:El; [by destruct E |]. rewrite Hr. cbn [mbind option_bind].
  rewrite Z.mul_1_r. replace (i + delta - i) with delta by lia. done.
Qed.

(** What is written when the pass for [n] is between [l1] and [l2]. *)
Definition written (n : Z) (l1 l2 : list Z) : list Z := filter (fun c => c <= n) l1 ++ filter (fun c => c < n) l2.

(** The variables of the code and the state of the decoder at that point. *)
Definition Tied (n : Z) (l1 l2 : list Z) (v : puny) (st : rfc_state) : Prop :=
  exists nd i,
    st = (nd, i, p_bias v, written n l1 l2) /\ p_h v = Z.of_nat (length (written n l1 l2)) /\
    0 <= nd <= n /\ 0 <= i /\ p_first v = (i =? 0) /\ 0 <= p_bias v < 2 ^ 32 /\ 0 <= p_delta v /\
    p_delta v + i = (n - nd) * (p_h v + 1) + Z.of_nat (length (filter (fun c => c <= n) l1)).

(** Below this many code points nothing overflows. *)
Definition MAX_LABEL : Z := 3000.

Lemma tied_bound n l1 l2 v st :
  Tied n l1 l2 v st -> n <= 1114112 -> Z.of_nat (length (l1 ++ l2)) <= MAX_LABEL -> p_delta v < 2 ^ 32 - 10000.
Proof.
  intros (nd & i & -> & Hh & Hnd & Hi & _ & _ & Hd & He) Hn Hl. unfold MAX_LABEL in Hl.
  pose proof (length_filter (fun c => c <= n) l1). rewrite length_app in Hl.
  assert (p_h v <= 3000).
  { rewrite Hh. unfold written. rewrite length_app. pose proof (length_filter (fun c => c < n) l2). lia. }
  assert ((n - nd) * (p_h v + 1) <= 1114112 * 3001) by (apply Z.mul_le_mono_nonneg; lia). lia.
Qed.

Lemma insert_step n c l1 l2 v st :
  Tied n l1 (c :: l2) v st -> n <= 1114112 -> Z.of_nat (length (l1 ++ c :: l2)) <= MAX_LABEL ->
  exists v' l st', insert_f n c v = (Next v', l) /\ Tied n (l1 ++ [c]) l2 v' st' /\ Reads l st st' /\
    p_todo v' = p_todo v - (if decide (n = c) then 1 else 0).
Proof.
  intros Ht Hn Hl. pose proof (tied_bound n l1 (c :: l2) v st Ht Hn Hl) as Hb.
  destruct Ht as (nd & i & -> & Hh & Hnd & Hi & Hf & Hbr & Hd & He). unfold insert_f.
  assert (filter (fun c => c <= n) (l1 ++ [c]) = filter (fun c => c <= n) l1 ++ (if decide (c <= n) then [c] else [])) as El1
    by (rewrite filter_app, filter_cons, filter_nil; by destruct (decide _)).
  destruct (Z.ltb_spec c n) as [Hlt | Hge]; cbn [andb].
  - rewrite wrap_small by lia. rewrite (proj2 (Z.eqb_neq _ 0)), (proj2 (Z.eqb_neq c n)) by lia.
    assert (written n (l1 ++ [c]) l2 = written n l1 (c :: l2)) as Ew.
    { unfold written. rewrite El1, filter_cons, !decide_True by lia. by rewrite <- app_assoc. }
    eexists _, _, _. split; [done |]. split; [| split; [apply reads_nil |]].
    + exists nd, i. cbn [p_bias p_h p_first p_delta]. rewrite Ew, El1, decide_True, length_app by lia. cbn [length].
      repeat split; try done; lia.
    + rewrite decide_False by lia. cbn [p_todo]. lia.
  - destruct (Z.eqb_spec c n) as [-> | Hne].
    + set (A := filter (fun c => c <= n) l1) in *. set (B := filter (fun c => c < n) l2).
      assert (written n l1 (n :: l2) = A ++ B) as Ew by (unfold written; rewrite filter_cons, decide_False by lia; done).
      assert (written n (l1 ++ [n]) l2 = A ++ n :: B) as Ew' by (unfold written; rewrite El1, decide_True, <- app_assoc by lia; done).
      rewrite Ew in *. assert (Z.of_nat (length A) <= p_h v) by (rewrite Hh, length_app; lia).
      assert (i + p_delta v = (n - nd) * (p_h v + 1) + Z.of_nat (length A)) as Es by lia.
      eexists _, _, _. split; [done |]. split; [| split; [apply (reads_varint nd i (p_bias v) (A ++ B)); lia |]].
      * rewrite <- Hh, Es. assert (((n - nd) * (p_h v + 1) + Z.of_nat (length A)) / (p_h v + 1) = n - nd) as ->
          by (rewrite Z.div_add_l, Z.div_small by lia; lia).
        assert (((n - nd) * (p_h v + 1) + Z.of_nat (length A)) mod (p_h v + 1) = Z.of_nat (length A)) as ->
          by (rewrite Z.add_comm, Z_mod_plus_full, Z.mod_small by lia; lia).
        rewrite Nat2Z.id, take_app_length, drop_app_length. replace (nd + (n - nd)) with n by lia.
        exists n, (Z.of_nat (length A) + 1). cbn [p_bias p_h p_first p_delta]. rewrite Ew', El1, decide_True, Hf, length_app by lia.
        cbn [length]. rewrite (proj2 (Z.eqb_neq (Z.of_nat (length A) + 1) 0)) by lia. rewrite length_app in *. cbn [length].
        pose proof (length_filter (fun c => c <= n) l1) as Hfa. pose proof (length_filter (fun c => c < n) l2) as Hfb.
        cbn [length] in Hl. unfold MAX_LABEL in Hl. fold A in Hfa. fold B in Hfb.
        destruct (yields_adapt 0 (p_delta v) (i =? 0) (p_h v + 1)) as [_ Hnb]; [lia | lia |].
        repeat split; try done; lia.
      * rewrite decide_True by done. done.
    + assert (written n (l1 ++ [c]) l2 = written n l1 (c :: l2)) as Ew.
      { unfold written. rewrite El1, filter_cons, !decide_False by lia. by rewrite app_nil_r. }
      eexists _, _, _. split; [done |]. split; [| split; [apply reads_nil |]].
      * exists nd, i. cbn [p_bias p_h p_first p_delta]. rewrite Ew, El1, decide_False, app_nil_r by lia.
        repeat split; try done; lia.
      * rewrite decide_False by lia. cbn [p_todo]. lia.
Qed.

Lemma insert_pass n l1 l2 v st :
  Tied n l1 l2 v st -> n <= 1114112 -> Z.of_nat (length (l1 ++ l2)) <= MAX_LABEL ->
  exists v' l st', each (insert_f n) l2 v = (Next v', l) /\ Tied n (l1 ++ l2) [] v' st' /\ Reads l st st' /\
    p_todo v' = p_todo v - count n l2.
Proof.
  revert l1 v st. induction l2 as [| c l2 IH]; intros l1 v st Ht Hn Hl.
  { exists v, [], st. rewrite app_nil_r. split; [done |]. split; [done |]. split; [apply reads_nil | cbn; lia]. }
  destruct (insert_step n c l1 l2 v st Ht Hn Hl) as (v1 & d1 & st1 & E1 & Ht1 & Hr1 & Hc1).
  destruct (IH (l1 ++ [c]) v1 st1 Ht1 Hn) as (v2 & d2 & st2 & E2 & Ht2 & Hr2 & Hc2); [by rewrite <- app_assoc |].
  rewrite <- app_assoc in Ht2. exists v2, (d1 ++ d2), st2. cbn [each]. rewrite E1, E2. split; [done |]. split; [done |].
  split; [by eapply reads_app |]. rewrite Hc2, Hc1, filter_cons. destruct (decide (n = c)); cbn [length]; lia.
Qed.

(** ** The loop *)

Lemma each_min n cs m0 :
  n <= m0 ->
  exists m, each (min_f n) cs m0 = (Next m, []) /\ n <= m <= m0 /\ (m = m0 \/ m ∈ cs) /\ forall c, c ∈ cs -> n <= c -> m <= c.
Proof.
  revert m0. induction cs as [| c cs IH]; intros m0 Hm; cbn [each min_f].
  { exists m0. split; [done |]. split; [lia |]. split; [by left |]. by intros c Hc%not_elem_of_nil. }
  set (m1 := if (n <=? c) && (c <? m0) then c else m0).
  assert (n <= m1 <= m0 /\ (m1 = m0 \/ m1 = c) /\ (n <= c -> m1 <= c)) as (Hm1 & Ho & Hle)
    by (subst m1; destruct (Z.leb_spec n c), (Z.ltb_spec c m0); cbn [andb]; lia).
  destruct (IH m1 ltac:(lia)) as (m & E & Hr & Hin & Hall). exists m. rewrite E. split; [done |]. split; [lia |].
  split; [| intros c' Hc' Hn; apply elem_of_cons in Hc' as [-> | Hc']; [lia | by apply Hall]].
  rewrite elem_of_cons. destruct Hin as [-> | Hin]; [| by auto]. destruct Ho as [-> | ->]; auto.
Qed.

Lemma filter_ext_in {A} (P Q : A -> Prop) `{!forall x, Decision (P x), !forall x, Decision (Q x)} (l : list A) :
  (forall x, x ∈ l -> P x <-> Q x) -> filter P l = filter Q l.
Proof.
  induction l as [| x l IH]; intros Hl; [done |]. rewrite !filter_cons, IH by (intros y Hy; apply Hl; by right).
  destruct (Hl x) as [? ?]; [by left |]. by repeat case_decide; auto; exfalso; auto.
Qed.

Lemma length_filter_split {A} (P Q R : A -> Prop)
    `{!forall x, Decision (P x), !forall x, Decision (Q x), !forall x, Decision (R x)} (l : list A) :
  (forall x, P x <-> Q x \/ R x) -> (forall x, Q x -> ~ R x) -> length (filter P l) = (length (filter Q l) + length (filter R l))%nat.
Proof.
  intros HP Hd. induction l as [| x l IH]; [done |]. rewrite !filter_cons. specialize (HP x). specialize (Hd x).
  repeat case_decide; cbn [length]; try lia; exfalso; tauto.
Qed.

Lemma filter_none n (cs : list Z) : length (filter (Z.le n) cs) = 0%nat -> filter (fun c => c < n) cs = cs.
Proof.
  induction cs as [| c cs IH]; [done |]. rewrite !filter_cons. destruct (decide (n <= c)); [done |].
  intros Hn. rewrite decide_True, IH by (done || lia). done.
Qed.

(** The code point the second loop finds, and how many there are. *)
Lemma min_found cs n m :
  Forall (fun c => 0 <= c <= 1114111) cs -> m = MINUS1 \/ m ∈ cs -> (forall c, c ∈ cs -> n <= c -> m <= c) -> n <= m ->
  filter (Z.le n) cs <> [] ->
  m ∈ cs /\ m <= 1114111 /\ 1 <= count m cs /\
  Z.of_nat (length (filter (Z.le n) cs)) = count m cs + Z.of_nat (length (filter (Z.le (m + 1)) cs)).
Proof.
  intros Hr Hin Hall Hnm Hne. rewrite Forall_forall in Hr. assert (m ∈ cs) as Hmcs.
  { destruct Hin as [-> | Hin]; [| done]. exfalso. destruct (filter (Z.le n) cs) as [| c l] eqn:Ef; [done |].
    assert (c ∈ filter (Z.le n) cs) as [Hc Hc']%list_elem_of_filter by (rewrite Ef; by left).
    specialize (Hall c Hc' Hc). specialize (Hr c Hc'). unfold MINUS1, UINT32_MAX in Hall. lia. }
  split; [done |]. split; [by apply Hr |]. split.
  - assert (m ∈ filter (eq m) cs) as Hmf by by apply list_elem_of_filter.
    destruct (filter (eq m) cs); [by apply not_elem_of_nil in Hmf | cbn; lia].
  - rewrite (filter_ext_in (Z.le n) (Z.le m)) by (intros c Hc; specialize (Hall c Hc); lia).
    rewrite (length_filter_split (Z.le m) (eq m) (Z.le (m + 1))) by (intros; lia). lia.
Qed.

Lemma u32_lnot z : 0 <= z < 2 ^ 32 -> u32 (Z.lnot z) = 2 ^ 32 - 1 - z.
Proof. intros Hz. unfold wrap, Z.lnot. symmetry. apply (Z.mod_unique_pos _ _ (-1)); lia. Qed.

Section Label.
Variable mem : list byte.
Variable room : nat.
Variables ss se : Z.
Variable cs : list Z.
Hypothesis cs_range : Forall (fun c => 0 <= c <= 1114111) cs.
Hypothesis cs_length : Z.of_nat (length cs) <= MAX_LABEL.
Hypothesis codes : Codes mem se ss cs.
Hypothesis bounds : ss <= se + 1.

Lemma insert_loop_run fuel n v st p e :
  Tied n [] cs v st -> n <= 1114112 -> p_todo v = Z.of_nat (length (filter (Z.le n) cs)) -> (Z.to_nat (p_todo v) <= fuel)%nat ->
  exists l p' st', insert_loop mem room fuel ss se n v (mk_text p (take room e)) = (Done 0, mk_text p' (take room (e ++ l))) /\
    Reads l st st' /\ st'.2 = cs.
Proof.
  revert n v st p e. induction fuel as [| fuel IH]; intros n v st p e Ht Hn Htodo Hfuel; cbn [insert_loop];
    (destruct (Z.eqb_spec (p_todo v) 0) as [E0 | Hne]; [| try lia]).
  1, 2: exists [], p, st; rewrite app_nil_r; split; [done |]; split; [apply reads_nil |];
    destruct Ht as (nd & i & -> & _); cbn [snd]; unfold written; rewrite filter_nil; cbn [app]; apply filter_none; lia.
  run_label (body_min room n) I codes bounds p1.
  destruct (each_min n cs MINUS1) as (m & Em & Hm & Hin & Hall); [unfold MINUS1, UINT32_MAX; lia |]. rewrite Em. cbv iota.
  rewrite app_nil_r. destruct (min_found cs n m cs_range Hin Hall ltac:(lia)) as (Hmcs & Hmr & Hone & Hsplit).
  { intros E. rewrite E in Htodo. cbn in Htodo. lia. }
  destruct Ht as (nd & i & -> & Hh & Hnd & Hi & Hf & Hbr & Hd & He). cbn [filter list_filter length] in He.
  set (v1 := mk_puny (p_delta v + (m - n) * (p_h v + 1)) (p_bias v) (p_first v) (p_h v) (p_todo v)).
  assert (written m [] cs = written n [] cs) as Ew.
  { unfold written. f_equal. apply filter_ext_in. intros c Hc. specialize (Hall c Hc). lia. }
  assert (Tied m [] cs v1 (nd, i, p_bias v, written n [] cs)) as Ht1.
  { exists nd, i. rewrite Ew. cbn [p_bias p_h p_first p_delta v1]. rewrite filter_nil. cbn [length].
    pose proof (Z.mul_nonneg_nonneg (m - n) (p_h v + 1)). repeat split; try done; lia. }
  assert (p_delta v1 < 2 ^ 32 - 10000) as Hb1 by (apply (tied_bound m [] cs v1 _ Ht1); [lia | done]).
  assert (p_h v <= 3000).
  { rewrite Hh. unfold written. rewrite length_app. pose proof (length_filter (fun c => c < n) cs). unfold MAX_LABEL in cs_length.
    rewrite filter_nil. cbn [length]. lia. }
  pose proof (Z.mul_nonneg_nonneg (m - n) (p_h v + 1) ltac:(lia) ltac:(lia)) as Hpos.
  unfold udiv. rewrite (wrap_small 32 (p_h v + 1)), (wrap_small 32 (m - n)) by lia.
  rewrite (proj2 (Z.eqb_neq (p_h v + 1) 0)) by lia. erewrite prog_bind_done by done.
  change (p_delta v1) with (p_delta v + (m - n) * (p_h v + 1)) in Hb1. rewrite u32_lnot by lia. rewrite (proj2 (Z.ltb_ge _ (m - n))).
  2: { apply Z.div_le_lower_bound; [lia |]. rewrite Z.mul_comm. lia. }
  rewrite (wrap_small 32 (p_delta v + _)) by lia. fold v1.
  pose proof (length_filter (Z.le n) cs). unfold MAX_LABEL in cs_length.
  assert (insert_ok m cs v1) as Hok by (unfold insert_ok; cbn [v1 p_delta p_bias p_h p_todo]; lia).
  run_label (body_insert room m) Hok codes bounds p2.
  destruct (insert_pass m [] cs v1 _ Ht1) as (v2 & l2 & st2 & E2 & Ht2 & Hr2 & Hc2); [lia | done |]. rewrite E2. cbv iota. cbn [app] in Ht2.
  pose proof (tied_bound m cs [] v2 st2 Ht2 ltac:(lia)) as Hb2. rewrite app_nil_r in Hb2. specialize (Hb2 cs_length).
  assert (Tied (m + 1) [] cs (mk_puny (u32 (p_delta v2 + 1)) (p_bias v2) (p_first v2) (p_h v2) (p_todo v2)) st2) as Ht3.
  { destruct Ht2 as (nd2 & i2 & -> & Hh2 & Hnd2 & Hi2 & Hf2 & Hbr2 & Hd2 & He2). rewrite wrap_small by lia.
    assert (written (m + 1) [] cs = written m cs []) as Ew2.
    { unfold written. rewrite !filter_nil, app_nil_r. cbn [app]. apply filter_ext_in. intros c _. lia. }
    assert (p_h v2 = Z.of_nat (length (filter (fun c => c <= m) cs))) as Hh2' by (rewrite Hh2; unfold written; by rewrite filter_nil, app_nil_r).
    assert ((m + 1 - nd2) * (p_h v2 + 1) = (m - nd2) * (p_h v2 + 1) + (p_h v2 + 1)) as Hmul by ring.
    exists nd2, i2. rewrite Ew2. cbn [p_bias p_h p_first p_delta]. rewrite filter_nil. cbn [length]. repeat split; try done; lia. }
  rewrite (wrap_small 32 (m + 1)) by lia. cbn [v1 p_todo] in Hc2.
  destruct (IH (m + 1) _ st2 p2 (e ++ l2) Ht3) as (l3 & p3 & st3 & E3 & Hr3 & Hs3); cbn [p_todo]; [lia .. |].
  exists (l2 ++ l3), p3, st3. rewrite E3, <- app_assoc. split; [done |]. split; [by eapply reads_app | done].
Qed.
End Label.
