(* ===== verification/IdnaSpec.v ===== *)
(** * Internationalized host names: correctness

    Names in UTF-8; what [uv__idna_toascii] writes for a name; and what it reads when
    the name is not valid UTF-8. *)

From S2P Require Import Prelude Crypto Cbs CbsAsn1 Cbb CbbSpec Unicode UvErrno Idna IdnaPuny.

(** ** UTF-8 *)

Lemma land_lxor a b c : a .& (b .^ c) = (a .& b) .^ (a .& c).
Proof.
  apply Z.bits_inj'. intros i Hi. rewrite !Z.land_spec, !Z.lxor_spec, !Z.land_spec.
  by destruct (Z.testbit a i), (Z.testbit b i), (Z.testbit c i).
Qed.

Lemma cont_bits x : 0 <= x < 64 -> 192 .& (128 + x) = 128 /\ (128 + x) .& 63 = x.
Proof.
  intros Hx. rewrite land_3f. split; [| dlia]. destruct (byte_classes (128 + x)) as (E & _); [lia |].
  rewrite (proj2 (Z.leb_le _ _)), (proj2 (Z.ltb_lt _ _)) in E by lia. apply Z.eqb_eq in E. by rewrite Z.land_comm.
Qed.

Lemma utf8_finish_run min a x y z :
  0 <= a < 8 -> 0 <= x < 64 -> 0 <= y < 64 -> 0 <= z < 64 ->
  let v := ((a * 64 + x) * 64 + y) * 64 + z in
  min <= v <= 1114111 -> ~ 55296 <= v <= 57343 -> utf8_finish min a (128 + x) (128 + y) (128 + z) = v.
Proof.
  intros Ha Hx Hy Hz v Hv Hs. unfold utf8_finish. rewrite !land_lxor.
  destruct (cont_bits x Hx) as [-> ->], (cont_bits y Hy) as [-> ->], (cont_bits z Hz) as [-> ->].
  change (128 =? 128 .^ 128 .^ 128) with true. cbn [negb].
  assert (u32 (a .<< 18) .| u32 (x .<< 12) .| u32 (y .<< 6) .| z = v) as ->.
  { rewrite !Z.shiftl_mul_pow2, !wrap_small, <- !Z.shiftl_mul_pow2 by (rewrite ?Z.shiftl_mul_pow2 by lia; lia).
    change 18 with (12 + 6). change 12 with (6 + 6) at 2. change 12 with (6 + 6).
    rewrite <- !Z.shiftl_shiftl, <- !Z.shiftl_lor by lia. rewrite !lor_shl by lia. unfold v. lia. }
  rewrite (proj2 (Z.ltb_ge v min)), (proj2 (Z.ltb_ge 1114111 v)) by lia.
  destruct (Z.leb_spec 55296 v), (Z.leb_spec v 57343); try done. lia.
Qed.

Lemma utf8_finish_range min a b c d : 0 <= a -> 0 <= b -> 0 <= c -> 0 <= d ->
  utf8_finish min a b c d = MINUS1 \/ 0 <= utf8_finish min a b c d <= 1114111.
Proof.
  intros Ha Hb Hc Hd. unfold utf8_finish. destruct (negb _); [by left |]. cbv zeta.
  set (v := u32 (a .<< 18) .| _ .| _ .| _). assert (0 <= v) as Hv.
  { subst v. repeat apply Z.lor_nonneg, conj; try apply wrap_range; try lia. apply Z.land_nonneg. lia. }
  destruct (v <? min); [by left |]. destruct (Z.ltb_spec 1114111 v); [by left |]. destruct (_ && _); [by left | right; lia].
Qed.

(** What the code converts: Unicode scalar values. *)
Definition scalar (c : Z) : bool := ((0 <=? c) && (c <=? 1114111)) && negb ((55296 <=? c) && (c <=? 57343)).

Lemma scalar_spec c : scalar c = true <-> 0 <= c <= 1114111 /\ ~ 55296 <= c <= 57343.
Proof. unfold scalar. rewrite !andb_true_iff, negb_true_iff, andb_false_iff, !Z.leb_le, !Z.leb_gt. lia. Qed.

Lemma byte_at_app pre l k : byte_at (pre ++ l) (Z.of_nat (length pre) + Z.of_nat k) = b2z <$> l !! k.
Proof.
  unfold byte_at. rewrite (proj2 (Z.ltb_ge _ 0)) by lia. replace (Z.to_nat _) with (length pre + k)%nat by lia.
  by rewrite lookup_app_r, Nat.add_comm, Nat.add_sub by lia.
Qed.

(** The bytes after [pre]. *)
Lemma bytes_after pre l :
  let p := Z.of_nat (length pre) in
  byte_at (pre ++ l) p = b2z <$> l !! 0%nat /\ byte_at (pre ++ l) (p + 1) = b2z <$> l !! 1%nat /\
  byte_at (pre ++ l) (p + 2) = b2z <$> l !! 2%nat /\ byte_at (pre ++ l) (p + 3) = b2z <$> l !! 3%nat.
Proof.
  intros p. pose proof (byte_at_app pre l 0) as H0. rewrite Z.add_0_r in H0.
  split; [done |]. split; [apply (byte_at_app pre l 1) |]. split; [apply (byte_at_app pre l 2) | apply (byte_at_app pre l 3)].
Qed.

Lemma length_utf8 u : 0 <= u -> (1 <= length (utf8 u) <= 4)%nat /\ (128 <= u -> (2 <= length (utf8 u))%nat).
Proof.
  intros Hu. unfold utf8. destruct (Z.ltb_spec u 128); [cbn; lia |]. destruct (u <? 2048), (u <? 65536); cbn [length];
    rewrite length_conts; lia.
Qed.

Lemma lor_128 x : 0 <= x < 128 -> 128 .| x = 128 + x.
Proof. intros Hx. rewrite Z.lor_comm, lor_80 by done. lia. Qed.

Lemma utf8_decode pre u post pe :
  scalar u = true -> let p := Z.of_nat (length pre) in
  p + Z.of_nat (length (utf8 u)) <= pe ->
  decode_at (pre ++ utf8 u ++ post) pe p = Some (u, p + Z.of_nat (length (utf8 u))).
Proof.
  intros [Hu Hs]%scalar_spec p Hpe. unfold decode_at. destruct (bytes_after pre (utf8 u ++ post)) as (E0 & E1 & E2 & E3).
  fold p in E0, E1, E2, E3. rewrite E0, E1, E2, E3. clear E0 E1 E2 E3.
  unfold utf8 in *. assert (forall j, 0 <= (u / 64 ^ Z.of_nat j) mod 64 < 64) as Hm by (intros; apply Z.mod_pos_bound; lia).
  pose proof (Hm 0%nat) as Hm0. pose proof (Hm 1%nat) as Hm1. pose proof (Hm 2%nat) as Hm2. clear Hm.
  destruct (Z.ltb_spec u 128); [| destruct (Z.ltb_spec u 2048); [| destruct (Z.ltb_spec u 65536)]];
    cbn [app lookup list_lookup conts fmap option_fmap option_map mbind option_bind length] in *; rewrite !b2z_z2b_small by dlia.
  - by rewrite (proj2 (Z.ltb_lt u 128)).
  - rewrite (proj2 (Z.ltb_ge _ 128)), (proj2 (Z.ltb_ge 247 _)), (proj2 (Z.ltb_ge 239 _)), (proj2 (Z.ltb_ge 223 _)) by dlia.
    rewrite !andb_false_r, (proj2 (Z.ltb_lt 191 _)) by dlia. cbn [mbind option_bind]. f_equal. f_equal.
    rewrite land_1f, lor_128 by dlia. change 128 with (128 + 0) at 2.
    rewrite (utf8_finish_run 128 0 0) by dlia. dlia.
  - rewrite (proj2 (Z.ltb_ge _ 128)), (proj2 (Z.ltb_ge 247 _)), (proj2 (Z.ltb_ge 239 _)), (proj2 (Z.ltb_lt 223 _)) by dlia.
    rewrite andb_false_r, andb_true_r, (proj2 (Z.eqb_neq (p + 1 - pe) 1)) by lia. cbn [negb mbind option_bind]. f_equal. f_equal.
    rewrite (land_mod _ 4 15), lor_128 by dlia. rewrite (utf8_finish_run 2048 0) by dlia. dlia.
  - rewrite (proj2 (Z.ltb_ge _ 128)), (proj2 (Z.ltb_ge 247 _)), (proj2 (Z.ltb_lt 239 _)) by dlia.
    rewrite andb_true_r, (proj2 (Z.eqb_neq (p + 1 - pe) 1)), (proj2 (Z.eqb_neq (p + 1 - pe) 2)) by lia.
    cbn [negb andb mbind option_bind]. f_equal. f_equal. rewrite land_07. rewrite (utf8_finish_run 65536) by dlia. dlia.
Qed.

(** At the end of a label the code reads on, within the character that is there. *)
Lemma utf8_decode_end pre u post :
  scalar u = true -> let p := Z.of_nat (length pre) in
  exists c p', decode_at (pre ++ utf8 u ++ post) p p = Some (c, p') /\ p < p'.
Proof.
  intros [Hu Hs]%scalar_spec p. unfold decode_at. destruct (bytes_after pre (utf8 u ++ post)) as (E0 & E1 & _).
  fold p in E0, E1. rewrite E0, E1. clear E0 E1. replace (p + 1 - p) with 1 by lia. cbn [Z.eqb Pos.eqb negb andb].
  unfold utf8.
  destruct (Z.ltb_spec u 128); [| destruct (Z.ltb_spec u 2048); [| destruct (Z.ltb_spec u 65536)]];
    cbn [app lookup list_lookup conts fmap option_fmap option_map mbind option_bind]; rewrite !b2z_z2b_small by dlia.
  1: rewrite (proj2 (Z.ltb_lt u 128)) by lia; eexists _, _; split; [done | lia].
  all: rewrite (proj2 (Z.ltb_ge _ 128)), (proj2 (Z.ltb_ge 247 _)), (proj2 (Z.ltb_lt 191 _)) by dlia;
    cbn [mbind option_bind]; eexists _, _; split; [done | lia].
Qed.

(** The code points of a label, before a character of the name or the final NUL. *)
Lemma utf8_codes pre cs u post :
  forallb scalar cs = true -> scalar u = true ->
  Codes (pre ++ flat_map utf8 cs ++ utf8 u ++ post) (Z.of_nat (length (pre ++ flat_map utf8 cs))) (Z.of_nat (length pre)) cs.
Proof.
  revert pre. induction cs as [| c cs IH]; intros pre Hcs Hu; cbn [flat_map app] in *.
  - rewrite app_nil_r. destruct (utf8_decode_end pre u post Hu) as (c & p' & E & Hp'). by eapply codes_last.
  - cbn [forallb] in Hcs. apply andb_true_iff in Hcs as [Hc Hcs]. destruct (length_utf8 c) as [Hl _]; [apply scalar_spec in Hc; lia |].
    rewrite <- app_assoc. eapply codes_cons.
    + rewrite !length_app. lia.
    + apply utf8_decode; [done |]. rewrite !length_app. lia.
    + rewrite !length_app. lia.
    + specialize (IH (pre ++ utf8 c) Hcs Hu). rewrite !length_app, <- !app_assoc in IH. rewrite !length_app.
      replace (Z.of_nat (length pre) + Z.of_nat (length (utf8 c))) with (Z.of_nat (length pre + length (utf8 c))) by lia.
      by replace (length pre + (length (utf8 c) + length (flat_map utf8 cs)))%nat
        with (length pre + length (utf8 c) + length (flat_map utf8 cs))%nat by lia.
Qed.

(** ** A label *)

Lemma split_hyphen_none l : Forall (fun b => b2z b <> 45) l -> split_hyphen l = None.
Proof.
  induction 1 as [| b l Hb Hl IH]; [done |]. cbn [split_hyphen]. by rewrite IH, (proj2 (Z.eqb_neq _ _) Hb).
Qed.

Lemma split_hyphen_app l1 l2 : Forall (fun b => b2z b <> 45) l2 -> split_hyphen (l1 ++ x2d :: l2) = Some (l1, l2).
Proof.
  intros Hl. induction l1 as [| b l1 IH]; cbn [app split_hyphen]; [by rewrite split_hyphen_none | by rewrite IH].
Qed.

Lemma alphabet_class b : b ∈ alphabet -> b2z b <> 45 /\ b2z b < 128.
Proof.
  intros Hb. assert (forallb (fun b => negb (b2z b =? 45) && (b2z b <? 128)) alphabet = true) as H by done.
  rewrite forallb_forall in H. specialize (H b (proj1 (list_elem_of_In _ _) Hb)). 
  rewrite andb_true_iff, negb_true_iff, Z.eqb_neq, Z.ltb_lt in H. done.
Qed.

Abbreviation ascii cs := (filter (fun c => c < 128) cs).

(** What stands for a label: its code points if they are all ASCII, or their Punycode. *)
Definition Encodes (cs : list Z) (l : list byte) : Prop :=
  if forallb (fun c => c <? 128) cs then l = z2b <$> cs
  else exists l', l = [x78; x6e; x2d; x2d] ++ l' /\ Forall (fun b => b2z b < 128) l' /\ puny_decode l' = Some cs.

Lemma each_count cs h todo :
  Forall (fun c => 0 <= c <= 1114111) cs -> 0 <= h -> 0 <= todo -> h + todo + Z.of_nat (length cs) < 2 ^ 31 ->
  each count_f cs (h, todo)
  = (Next (h + Z.of_nat (length (ascii cs)), todo + Z.of_nat (length (filter (Z.le 128) cs))), []).
Proof.
  revert h todo. induction cs as [| c cs IH]; intros h todo Hr Hh Ht Hl; cbn [each]; [by rewrite !Z.add_0_r |].
  apply Forall_cons in Hr as [Hc Hr]. cbn [length] in Hl. rewrite !filter_cons. unfold count_f at 1. cbn [fst snd].
  destruct (Z.ltb_spec c 128).
  - rewrite wrap_small, IH, decide_True, decide_False by (lia || done). cbn [length app]. do 3 f_equal; lia.
  - rewrite (proj2 (Z.eqb_neq _ _)) by (unfold MINUS1, UINT32_MAX; lia).
    rewrite wrap_small, IH, decide_False, decide_True by (lia || done). cbn [length app]. do 3 f_equal; lia.
Qed.

Lemma each_copy h cs x :
  Forall (fun c => 0 <= c <= 1114111) cs -> 0 <= x -> x + Z.of_nat (length (ascii cs)) = h -> h < 2 ^ 31 ->
  exists x' (b : bool), each (copy_f h) cs x = ((if b then Next x' else Break x'), z2b <$> ascii cs).
Proof.
  revert x. induction cs as [| c cs IH]; intros x Hr Hx Hh Hb; cbn [each]; [by exists x, true |].
  apply Forall_cons in Hr as [Hc Hr]. rewrite filter_cons in *. unfold copy_f at 1. destruct (Z.ltb_spec 127 c).
  - rewrite decide_False in * by lia. destruct (IH x Hr Hx Hh Hb) as (x' & b & ->). by exists x', b.
  - rewrite decide_True in * by lia. cbn [length] in Hh. rewrite wrap_small by lia. rewrite fmap_cons.
    destruct (Z.eqb_spec (x + 1) h) as [E | Hne].
    + assert (ascii cs = []) as -> by (destruct (ascii cs); [done | cbn [length] in Hh; lia]). by exists (x + 1), false.
    + destruct (IH (x + 1) Hr ltac:(lia) ltac:(lia) Hb) as (x' & b & ->). by exists x', b.
Qed.

(** The prefix of a label in Punycode. *)
Definition xn_prefix (todo : Z) : list byte := if 0 <? todo then [x78; x6e; x2d; x2d] else [].

Lemma yields_prefix room todo :
  Yields room (if 0 <? todo then _ ← put room x78; _ ← put room x6e; _ ← put room x2d; put room x2d else mret tt) tt (xn_prefix todo).
Proof.
  unfold xn_prefix. destruct (0 <? todo); [| apply yields_ret]. apply (yields_bind _ _ _ tt tt [x78]); [apply yields_put |].
  apply (yields_bind _ _ _ tt tt [x6e]); [apply yields_put |]. apply (yields_bind _ _ _ tt tt [x2d]); apply yields_put.
Qed.

Lemma yields_separator room h : Yields room (if 0 <? h then put room x2d else mret tt) tt (if 0 <? h then [x2d] else []).
Proof. destruct (0 <? h); [apply yields_put | apply yields_ret]. Qed.

Lemma all_ascii cs : length (filter (Z.le 128) cs) = 0%nat <-> forallb (fun c => c <? 128) cs = true.
Proof.
  induction cs as [| c cs IH]; [done |]. rewrite filter_cons. cbn [forallb]. destruct (decide (128 <= c)); cbn [length].
  - rewrite (proj2 (Z.ltb_ge c 128)) by lia. done.
  - rewrite (proj2 (Z.ltb_lt c 128)) by lia. done.
Qed.

Lemma ascii_bytes cs : Forall (fun c => 0 <= c <= 1114111) cs -> b2z <$> (z2b <$> ascii cs) = ascii cs.
Proof.
  induction 1 as [| c cs Hc Hcs IH]; [done |]. rewrite filter_cons. destruct (decide _); [| done].
  rewrite !fmap_cons, IH, b2z_z2b_small by lia. done.
Qed.

Lemma ascii_written cs : Forall (fun c => 0 <= c <= 1114111) cs -> Forall (fun b => b2z b < 128) (z2b <$> ascii cs).
Proof.
  intros Hr. apply Forall_fmap, Forall_forall. intros c [Hc Hin]%list_elem_of_filter.
  rewrite Forall_forall in Hr. specialize (Hr c Hin). cbn. rewrite b2z_z2b_small; lia.
Qed.

Section Label.
Variable mem : list byte.
Variable room : nat.
Variables ss se : Z.
Variable cs : list Z.
Hypothesis cs_range : Forall (fun c => 0 <= c <= 1114111) cs.
Hypothesis cs_length : Z.of_nat (length cs) <= MAX_LABEL.
Hypothesis codes : Codes mem se ss cs.
Hypothesis bounds : ss <= se + 1.

(** The Punycode of the label is read back. *)
Lemma puny_decode_written l st' :
  Reads l (128, 0, 72, ascii cs) st' -> st'.2 = cs ->
  let basic := z2b <$> ascii cs in
  puny_decode (basic ++ (if 0 <? Z.of_nat (length (ascii cs)) then [x2d] else []) ++ l) = Some cs.
Proof.
  intros [Hal Hr] Hs basic. assert (Forall (fun b => b2z b <> 45) l) as Hh
    by (eapply Forall_impl; [exact Hal | intros b Hb; by apply alphabet_class]).
  assert (forallb (fun b => b2z b <? 128) basic = true) as Hb.
  { apply forallb_forall. intros b Hin. apply list_elem_of_In, list_elem_of_fmap in Hin as (c & -> & Hc).
    apply list_elem_of_filter in Hc as [Hlt Hc]. rewrite Forall_forall in cs_range. specialize (cs_range c Hc).
    rewrite b2z_z2b_small by lia. by apply Z.ltb_lt. }
  assert (decode_points (length l) l (128, 0, 72, b2z <$> basic) = Some cs) as Hd.
  { unfold basic. rewrite ascii_bytes by done. destruct (Hr [] (length l)) as (fuel & _ & E); [by rewrite app_nil_r |].
    rewrite app_nil_r in E. rewrite E. destruct st' as [[[? ?] ?] cs']. cbn [snd] in Hs. subst cs'. by destruct fuel. }
  unfold puny_decode. destruct (ascii cs) as [| c0 l0] eqn:Ea.
  - cbn [length Z.of_nat Z.ltb Z.compare app fmap list_fmap] in *. subst basic. cbn [fmap list_fmap app] in *.
    by rewrite split_hyphen_none.
  - rewrite (proj2 (Z.ltb_lt 0 _)) by (cbn [length]; lia). cbn [app]. rewrite split_hyphen_app by done.
    unfold basic in *. rewrite fmap_cons in *. by rewrite Hb.
Qed.

(** After the ASCII code points. *)
Lemma tail_run p e :
  let h := Z.of_nat (length (ascii cs)) in
  let todo := Z.of_nat (length (filter (Z.le 128) cs)) in
  exists rc p' l,
    (if todo =? 0 then mret (i32 h) else
     _ ← (if 0 <? h then put room x2d else mret tt);
     insert_loop mem room (Z.to_nat todo) ss se 128 (mk_puny 0 72 true h todo)) (mk_text p (take room e))
    = (Done rc, mk_text p' (take room (e ++ l))) /\ 0 <= rc /\ Forall (fun b => b2z b < 128) l /\
    if todo =? 0 then l = [] else puny_decode ((z2b <$> ascii cs) ++ l) = Some cs.
Proof.
  intros h todo. unfold MAX_LABEL in cs_length. pose proof (length_filter (fun c => c < 128) cs) as Hla.
  pose proof (length_filter (Z.le 128) cs) as Hln. destruct (Z.eqb_spec todo 0) as [E0 | Hne].
  - exists h, p, []. rewrite app_nil_r, swrap_small by lia. split; [done |]. split; [lia |]. by split; [constructor |].
  - rewrite (yields_body _ _ _ _ _ _ _ (yields_separator room h)).
    destruct (insert_loop_run mem room ss se cs cs_range cs_length codes bounds (Z.to_nat todo) 128 (mk_puny 0 72 true h todo)
      (128, 0, 72, ascii cs) p (e ++ (if 0 <? h then [x2d] else []))) as (l & p' & st' & E & Hr & Hs).
    + exists 128, 0. cbn [p_bias p_h p_first p_delta]. unfold written. rewrite filter_nil. cbn [app length].
      by repeat split; try lia.
    + lia.
    + done.
    + done.
    + rewrite E, <- app_assoc. eexists _, _, _. split; [done |]. split; [lia |]. split; [| by apply (puny_decode_written l st')].
      apply Forall_app. split; [destruct (0 <? h); by repeat constructor |].
      eapply Forall_impl; [apply Hr | intros b Hb; by apply alphabet_class].
Qed.

Lemma label_run p e :
  exists rc p' l, uv__idna_toascii_label mem room ss se (mk_text p (take room e)) = (Done rc, mk_text p' (take room (e ++ l))) /\
    0 <= rc /\ Encodes cs l.
Proof.
  unfold MAX_LABEL in cs_length. pose proof (length_filter (fun c => c < 128) cs) as Hla.
  pose proof (length_filter (Z.le 128) cs) as Hln. unfold uv__idna_toascii_label.
  run_label (body_count room) I codes bounds p1. rewrite each_count by (done || lia). cbv iota. rewrite !Z.add_0_l, app_nil_r.
  set (h := Z.of_nat (length (ascii cs))). set (todo := Z.of_nat (length (filter (Z.le 128) cs))).
  set (prefix := xn_prefix todo). rewrite (yields_body _ _ _ _ _ _ _ (yields_prefix room todo)). fold prefix. run_label (body_copy room h) I codes bounds p2.
  destruct (each_copy h cs 0 cs_range) as (x & b & ->); [lia | done | lia |].
  destruct (tail_run p2 ((e ++ prefix) ++ (z2b <$> ascii cs))) as (rc & p' & l & E & Hrc & Hl & Ht).
  fold h todo in E, Ht. exists rc, p', (prefix ++ (z2b <$> ascii cs) ++ l). rewrite !app_assoc.
  split; [by destruct b |]. split; [done |]. unfold Encodes. destruct (Z.eqb_spec todo 0) as [E0 | Hne].
  - rewrite (proj1 (all_ascii cs)) by lia. subst prefix l. unfold xn_prefix. rewrite (proj2 (Z.ltb_ge 0 todo)), app_nil_r by lia. cbn [app].
    f_equal. assert (forallb (fun c => c <? 128) cs = true) as Hall by (apply all_ascii; lia).
    clear -Hall. induction cs as [| c l IH]; [done |]. cbn [forallb] in Hall. apply andb_true_iff in Hall as [Hc Hall].
    rewrite filter_cons, decide_True, IH by (done || by apply Z.ltb_lt). done.
  - assert (forallb (fun c => c <? 128) cs = false) as -> by (apply not_true_iff_false; rewrite <- all_ascii; lia).
    subst prefix. unfold xn_prefix. rewrite (proj2 (Z.ltb_lt 0 todo)) by lia. rewrite <- app_assoc. eexists. split; [done |]. split; [| done].
    apply Forall_app. by split; [apply ascii_written |].
Qed.
End Label.

(** ** A name *)

(** The labels that end with a dot, and what follows the last dot; [cur] is the label
    that was begun. *)
Fixpoint labels (cur name : list Z) : list (list Z) * list Z :=
  match name with
  | [] => ([], cur)
  | c :: name =>
      if is_dot c then let '(ls, last) := labels [] name in (cur :: ls, last) else labels (cur ++ [c]) name
  end.

Definition label_ok (l : list Z) : Prop := forallb scalar l = true /\ Z.of_nat (length l) <= MAX_LABEL.

Lemma scalars_range l : forallb scalar l = true -> Forall (fun c => 0 <= c <= 1114111) l.
Proof.
  intros H. apply List.Forall_forall. intros c Hc. rewrite forallb_forall in H. by apply scalar_spec, H.
Qed.

Lemma labels_suffix cur name : exists pre, cur ++ name = pre ++ (labels cur name).2.
Proof.
  revert cur. induction name as [| c name IH]; intros cur; cbn [labels]; [exists []; by rewrite app_nil_r |].
  destruct (is_dot c).
  - destruct (IH []) as [pre E]. destruct (labels [] name) as [ls last]. exists (cur ++ c :: pre). cbn [snd app] in *.
    by rewrite E, <- app_assoc.
  - destruct (IH (cur ++ [c])) as [pre E]. exists pre. by rewrite <- E, <- app_assoc.
Qed.

Lemma flat_map_utf8_length l : forallb scalar l = true -> (length l <= length (flat_map utf8 l))%nat.
Proof.
  induction l as [| c l IH]; [done |]. cbn [forallb flat_map length]. intros [Hc Hl]%andb_true_iff. specialize (IH Hl).
  destruct (length_utf8 c) as [? _]; [apply scalar_spec in Hc; lia |]. rewrite length_app. lia.
Qed.

Section Name.
Variable room : nat.

Lemma convert_label_run pre cs u post p e :
  label_ok cs -> scalar u = true ->
  let mem := pre ++ flat_map utf8 cs ++ utf8 u ++ post in
  exists rc l,
    convert_label mem room (Z.of_nat (length pre)) (Z.of_nat (length (pre ++ flat_map utf8 cs))) (mk_text p (take room e))
    = (Done rc, mk_text p (take room (e ++ l))) /\ 0 <= rc /\ Encodes cs l.
Proof.
  intros [Hcs Hl] Hu mem. unfold convert_label. erewrite prog_bind_done by done.
  destruct (label_run mem room (Z.of_nat (length pre)) (Z.of_nat (length (pre ++ flat_map utf8 cs))) cs
    (scalars_range cs Hcs) Hl (utf8_codes pre cs u post Hcs Hu)) with (p := p) (e := e) as (rc & p' & l & E & Hrc & Hen).
  { rewrite length_app. lia. }
  exists rc, l. rewrite (prog_bind_done _ _ _ _ _ E). done.
Qed.

(** The loop up to a place in the name, with what follows not read yet. *)
Lemma toascii_loop_steps fuel pre cur rest post se e :
  forallb scalar rest = true -> Forall label_ok (labels cur rest).1 -> (length (flat_map utf8 rest) <= fuel)%nat ->
  let head := pre ++ flat_map utf8 cur in
  let mem := head ++ flat_map utf8 rest ++ post in
  let en := Z.of_nat (length (head ++ flat_map utf8 rest)) in
  en <= se ->
  exists outs fuel', (fuel <= fuel' + length (flat_map utf8 rest))%nat /\
    toascii_loop mem room fuel (Z.of_nat (length pre)) se (mk_text (Z.of_nat (length head)) (take room e))
    = toascii_loop mem room fuel' (en - Z.of_nat (length (flat_map utf8 (labels cur rest).2))) se
        (mk_text en (take room (e ++ flat_map (fun l => l ++ [x2e]) outs))) /\
    Forall2 Encodes (labels cur rest).1 outs.
Proof.
  revert fuel pre cur e. induction rest as [| c rest IH]; intros fuel pre cur e Hsc Hok Hf head mem en Hen.
  - exists [], fuel. cbn [labels fst snd flat_map] in *. rewrite app_nil_r. split; [cbn [length]; lia |].
    subst en mem head. rewrite !app_nil_r. split; [| done]. f_equal. rewrite length_app. lia.
  - cbn [forallb] in Hsc. apply andb_true_iff in Hsc as [Hc Hsc]. destruct (length_utf8 c) as [Hlc _]; [apply scalar_spec in Hc; lia |].
    cbn [flat_map] in *. rewrite length_app in Hf. destruct fuel as [| fuel]; [lia |]. cbn [toascii_loop].
    erewrite prog_bind_done by done. cbn [ptr]. assert (Z.of_nat (length head) + Z.of_nat (length (utf8 c)) <= se) as Hse
      by (subst en; rewrite !length_app in Hen; lia).
    rewrite (proj2 (Z.ltb_lt _ _)) by lia. cbn [negb]. subst mem. rewrite <- app_assoc.
    pose proof (decode1_run (head ++ utf8 c ++ flat_map utf8 rest ++ post) se (Z.of_nat (length head)) (take room e)) as Hd.
    rewrite utf8_decode in Hd by done. rewrite (prog_bind_done _ _ _ _ _ Hd). clear Hd.
    assert (Z.of_nat (length head) + Z.of_nat (length (utf8 c)) = Z.of_nat (length (head ++ utf8 c))) as -> by (rewrite length_app; lia).
    assert (en = Z.of_nat (length ((head ++ utf8 c) ++ flat_map utf8 rest))) as Een by (subst en; by rewrite <- app_assoc).
    cbn [labels] in *. destruct (is_dot c) eqn:Edot; cbn [negb].
    + destruct (labels [] rest) as [ls last] eqn:El. cbn [fst snd] in *.
      apply Forall_cons in Hok as [Hcur Hok]. subst head. rewrite <- (app_assoc pre).
      destruct (convert_label_run pre cur c (flat_map utf8 rest ++ post) (Z.of_nat (length ((pre ++ flat_map utf8 cur) ++ utf8 c))) e
        Hcur Hc) as (rc & l & E & Hrc & Hen'). rewrite (prog_bind_done _ _ _ _ _ E). clear E.
      rewrite (proj2 (Z.ltb_ge rc 0)) by lia. rewrite (yields_body _ _ _ _ _ _ _ (yields_put room x2e)). erewrite prog_bind_done by done.
      cbn [ptr]. destruct (IH fuel ((pre ++ flat_map utf8 cur) ++ utf8 c) [] ((e ++ l) ++ [x2e]) Hsc) as (outs & fuel' & Hf' & E & Houts).
      { by rewrite El. }
      { lia. }
      { cbn [flat_map]. rewrite app_nil_r, <- Een. lia. }
      rewrite El in E, Houts. cbn [fst snd flat_map] in E, Houts. rewrite app_nil_r in E. rewrite <- Een in E.
      exists (l :: outs), fuel'. rewrite length_app. split; [lia |].
      rewrite <- !app_assoc in *. rewrite E. cbn [flat_map]. rewrite <- !app_assoc. by split; [| constructor].
    + destruct (IH fuel pre (cur ++ [c]) e Hsc Hok) as (outs & fuel' & Hf' & E & Houts); [lia | |].
      { rewrite flat_map_app. cbn [flat_map]. rewrite app_nil_r, (app_assoc pre). fold head. rewrite <- Een. lia. }
      rewrite flat_map_app in E. cbn [flat_map] in E. rewrite app_nil_r, (app_assoc pre) in E. fold head in E. rewrite <- Een in E.
      exists outs, fuel'. rewrite length_app. split; [lia |]. rewrite <- !app_assoc in *. by split.
Qed.

Lemma toascii_loop_run fuel name :
  forallb scalar name = true -> Forall label_ok (labels [] name).1 -> (length (flat_map utf8 name) <= fuel)%nat ->
  let se := Z.of_nat (length (flat_map utf8 name)) in
  exists outs,
    toascii_loop (flat_map utf8 name ++ [x00]) room fuel 0 se (mk_text 0 [])
    = (Done (Next (se - Z.of_nat (length (flat_map utf8 (labels [] name).2)))),
       mk_text se (take room (flat_map (fun l => l ++ [x2e]) outs))) /\
    Forall2 Encodes (labels [] name).1 outs.
Proof.
  intros Hsc Hok Hf se.
  destruct (toascii_loop_steps fuel [] [] name [x00] se [] Hsc Hok Hf) as (outs & fuel' & _ & E & Houts); [cbn; lia |].
  cbn [flat_map app] in E. rewrite take_nil in E. fold se in E. exists outs. split; [| done].
  etrans; [exact E |]. destruct fuel'; cbn [toascii_loop]; (erewrite prog_bind_done by done); cbn [ptr];
    by rewrite (proj2 (Z.ltb_ge se se)) by lia.
Qed.

(** Any room for the output: what does not fit is cut off. *)
Lemma toascii_run name :
  forallb scalar name = true -> Forall label_ok ((labels [] name).2 :: (labels [] name).1) ->
  exists outs last,
    Forall2 Encodes (labels [] name).1 outs /\ Encodes (labels [] name).2 last /\
    let res := take room (flat_map (fun l => l ++ [x2e]) outs ++ last ++ [x00]) in
    toascii (flat_map utf8 name) room = (Done (Z.of_nat (length res)), res).
Proof.
  intros Hsc Hok. destruct (labels [] name) as [ls lst] eqn:El. cbn [fst snd] in *.
  apply Forall_cons in Hok as [Hlast Hok].
  destruct (toascii_loop_run (length (flat_map utf8 name)) name Hsc) as (outs & E & Houts); [by rewrite El | done |].
  rewrite El in E, Houts. cbn [fst snd] in E, Houts.
  destruct (labels_suffix [] name) as [pre Epre]. rewrite El in Epre. cbn [app snd] in Epre.
  set (se := Z.of_nat (length (flat_map utf8 name))) in *. set (e := flat_map (fun l => l ++ [x2e]) outs) in *.
  assert (se - Z.of_nat (length (flat_map utf8 lst)) = Z.of_nat (length (flat_map utf8 pre))) as Es
    by (subst se; rewrite Epre, flat_map_app, length_app; lia).
  assert (exists rc last, (let s := se - Z.of_nat (length (flat_map utf8 lst)) in
      if s <? se then convert_label (flat_map utf8 name ++ [x00]) room s se else mret 0) (mk_text se (take room e))
    = (Done rc, mk_text se (take room (e ++ last))) /\ 0 <= rc /\ Encodes lst last) as (rc & last & Elast & Hrc & Hen).
  { cbv zeta. rewrite Es. destruct (Z.ltb_spec (Z.of_nat (length (flat_map utf8 pre))) se) as [Hlt | Hge].
    - destruct (convert_label_run (flat_map utf8 pre) lst 0 [] se e Hlast eq_refl) as (rc & l & E' & Hrc & Hen).
      exists rc, l. rewrite app_nil_r in E'. change (utf8 0) with [x00] in E'. rewrite app_assoc, <- flat_map_app, <- Epre in E'.
      by fold se in E'.
    - exists 0, []. rewrite app_nil_r. split; [done |]. split; [done |].
      pose proof (flat_map_utf8_length lst (proj1 Hlast)) as Hl. assert (lst = []) as -> by (destruct lst; [done | cbn [length] in Hl; lia]).
      done. }
  exists outs, last. split; [done |]. split; [done |]. cbv zeta. unfold toascii, uv__idna_toascii.
  erewrite prog_bind_done by done. erewrite prog_bind_done by done. unfold set_ptr at 1. cbn [out].
  fold se. replace (Z.to_nat (se - 0)) with (length (flat_map utf8 name)) by lia.
  rewrite (prog_bind_done _ _ _ _ _ E). cbv zeta in Elast. rewrite (prog_bind_done _ _ _ _ _ Elast).
  rewrite (proj2 (Z.ltb_ge rc 0)) by lia. rewrite (yields_body _ _ _ _ _ _ _ (yields_put room x00)).
  erewrite prog_bind_done by done. cbn [out length]. rewrite <- app_assoc. unfold mret, prog_ret.
  fold e. f_equal. f_equal. cbn. lia.
Qed.
End Name.

(** ** Any bytes *)

Abbreviation ascii_only := (Forall (fun b => b2z b < 128)).

Lemma digits_ascii l : Forall (fun b => b ∈ alphabet) l -> ascii_only l.
Proof. intros H. eapply Forall_impl; [exact H | intros b Hb; by apply alphabet_class]. Qed.

Section Any.
Variable mem : list byte.
Variable room : nat.

(** The decoder reads three bytes past a character's first one at most. *)
Lemma decode_total pe p :
  0 <= p <= pe -> pe + 3 <= Z.of_nat (length mem) ->
  exists c p', decode_at mem pe p = Some (c, p') /\ (c = MINUS1 \/ 0 <= c <= 1114111).
Proof.
  intros Hp Hpe. assert (forall i, 0 <= i < Z.of_nat (length mem) -> exists b, byte_at mem i = Some b /\ 0 <= b) as Hb.
  { intros i Hi. unfold byte_at. rewrite (proj2 (Z.ltb_ge i 0)) by lia.
    destruct (lookup_lt_is_Some_2 mem (Z.to_nat i)) as [b ->]; [lia |]. exists (b2z b). split; [done | apply b2z_range]. }
  unfold decode_at. destruct (Hb p) as (a & -> & Ha); [lia |]. cbn [mbind option_bind].
  destruct (Z.ltb_spec a 128); [eexists _, _; split; [done | right; lia] |].
  destruct (247 <? a); [eexists _, _; split; [done | by left] |].
  destruct (Hb (p + 1)) as (b & -> & Hb1); [lia |]. cbn [mbind option_bind]. destruct (Hb (p + 2)) as (c & -> & Hb2); [lia |].
  cbn [mbind option_bind]. destruct (negb (p + 1 - pe =? 2) && negb (p + 1 - pe =? 1) && (239 <? a)) eqn:E4.
  { destruct (Hb (p + 3)) as (d & -> & Hb3).
    { rewrite !andb_true_iff, !negb_true_iff, !Z.eqb_neq in E4. lia. }
    cbn [mbind option_bind]. eexists _, _. split; [done |]. apply utf8_finish_range; try done. apply Z.land_nonneg. lia. }
  destruct (negb (p + 1 - pe =? 1) && (223 <? a)).
  { eexists _, _. split; [done |]. apply utf8_finish_range; try done. apply Z.lor_nonneg. rewrite Z.land_nonneg. lia. }
  destruct (191 <? a); [| eexists _, _; split; [done | by left]].
  eexists _, _. split; [done |]. apply utf8_finish_range; try done. apply Z.lor_nonneg. rewrite Z.land_nonneg. lia.
Qed.

Lemma codes_total pe p :
  0 <= p -> pe + 3 <= Z.of_nat (length mem) ->
  exists cs, Codes mem pe p cs /\ Forall (fun c => c = MINUS1 \/ 0 <= c <= 1114111) cs.
Proof.
  intros Hp Hpe. remember (Z.to_nat (pe + 1 - p)) as n eqn:En. revert p Hp En.
  induction n as [n IH] using lt_wf_ind. intros p Hp ->. destruct (Z.lt_ge_cases pe p) as [Hgt | Hle].
  { exists []. split; [by apply codes_past | constructor]. }
  destruct (decode_total pe p) as (c & p' & E & Hc); [lia | done |]. pose proof (decode_at_next mem _ _ _ _ E) as Hn.
  destruct (Z.lt_ge_cases pe p') as [Hgt | Hle'].
  { exists []. split; [by eapply codes_last | constructor]. }
  destruct (IH (Z.to_nat (pe + 1 - p'))) with (p := p') as (cs & Hcs & Hall); [lia | lia | done |].
  exists (c :: cs). split; [by eapply codes_cons | by constructor].
Qed.

(** *** A label *)

Section Label.
Variables ss se : Z.
Variable cs : list Z.
Hypothesis cs_length : Z.of_nat (length cs) < 2 ^ 30.
Hypothesis codes : Codes mem se ss cs.
Hypothesis bounds : ss <= se + 1.

(** The run returned, with ASCII added to [e]. *)
Definition Ends (r : outcome Z * text) (e : list byte) : Prop :=
  exists rc l p, r = (Done rc, mk_text p (take room (e ++ l))) /\ ascii_only l.

Lemma ends_app r e l : ascii_only l -> Ends r (e ++ l) -> Ends r e.
Proof.
  intros Hl (rc & l' & p & -> & Hl'). exists rc, (l ++ l'), p. rewrite <- app_assoc. split; [done | by apply Forall_app].
Qed.

Lemma ends_ret rc p e : Ends ((mret rc : prog text Z) (mk_text p (take room e))) e.
Proof. exists rc, [], p. rewrite app_nil_r. by split. Qed.

Lemma each_insert n l v :
  insert_ok n l v ->
  match each (insert_f n) l v with
  | (Next v', e) => insert_ok n [] v' /\ p_h v' + p_todo v' = p_h v + p_todo v /\ p_todo v' = p_todo v - count n l /\ ascii_only e
  | (Break _, _) => False
  | (Return _, e) => ascii_only e
  end.
Proof.
  revert v. induction l as [| c l IH]; intros v Hv; cbn [each].
  { split; [done |]. split; [done |]. split; [cbn; lia | constructor]. }
  destruct (body_insert room n c l v 0 [] Hv) as [_ Hnext].
  assert (match insert_f n c v with
    | (Next v1, e1) => p_h v1 + p_todo v1 = p_h v + p_todo v /\ p_todo v1 = p_todo v - (if decide (n = c) then 1 else 0) /\ ascii_only e1
    | (Return _, e1) => e1 = []
    | (Break _, _) => False
    end) as Hstep.
  { unfold insert_f. cbv zeta. destruct (_ && _); [done |]. destruct (Z.eqb_spec c n) as [-> | Hne]; cbn [p_h p_todo].
    - rewrite decide_True by done. split; [lia |]. split; [lia |]. apply digits_ascii, Forall_fmap.
      eapply Forall_impl; [apply varint_digits_range; destruct (n <? n); [apply wrap_range; lia | apply Hv] |].
      intros d Hd. eapply list_elem_of_lookup_2, alphabet_digit, Hd.
    - rewrite decide_False by done. split; [lia |]. split; [lia | constructor]. }
  destruct (insert_f n c v) as [[v1 | v1 | rc] e1]; [| done | by subst e1]. cbn [fst] in Hnext.
  destruct Hstep as (Hs & Ht & He). specialize (IH v1 Hnext). destruct (each (insert_f n) l v1) as [[v2 | v2 | rc] e2];
    [| done | by apply Forall_app].
  destruct IH as (Hok & Hs2 & Ht2 & He2). rewrite filter_cons. split; [done |]. split; [lia |].
  split; [destruct (decide (n = c)); cbn [length]; lia | by apply Forall_app].
Qed.

Lemma insert_loop_ends fuel n v p e :
  Forall (fun c => 0 <= c <= 1114111) cs -> 0 <= n <= 1114112 -> 0 <= p_delta v < 2 ^ 32 -> 0 <= p_bias v < 2 ^ 32 -> 0 <= p_h v ->
  p_h v + p_todo v < 2 ^ 31 -> p_todo v = Z.of_nat (length (filter (Z.le n) cs)) -> (Z.to_nat (p_todo v) <= fuel)%nat ->
  Ends (insert_loop mem room fuel ss se n v (mk_text p (take room e))) e.
Proof.
  intros Hr. revert n v p e. induction fuel as [| fuel IH]; intros n v p e Hn Hd Hb Hh Hht Htodo Hfuel; cbn [insert_loop];
    (destruct (Z.eqb_spec (p_todo v) 0) as [E0 | Hne]; [apply ends_ret | try lia]).
  run_label (body_min room n) I codes bounds p1.
  destruct (each_min n cs MINUS1) as (m & Em & Hm & Hin & Hall); [unfold MINUS1, UINT32_MAX; lia |]. rewrite Em. cbv iota. rewrite app_nil_r.
  destruct (min_found cs n m Hr Hin Hall ltac:(lia)) as (Hmcs & Hmr & Hone & Hsplit).
  { intros E. rewrite E in Htodo. cbn in Htodo. lia. }
  unfold udiv. rewrite (wrap_small 32 (p_h v + 1)), (wrap_small 32 (m - n)) by lia.
  rewrite (proj2 (Z.eqb_neq (p_h v + 1) 0)) by lia. erewrite prog_bind_done by done. destruct (_ <? m - n); [apply ends_ret |].
  set (v1 := mk_puny _ (p_bias v) (p_first v) (p_h v) (p_todo v)).
  assert (insert_ok m cs v1) as Hok.
  { unfold insert_ok. cbn [v1 p_delta p_bias p_h p_todo]. split; [apply wrap_range; lia |]. repeat split; lia. }
  run_label (body_insert room m) Hok codes bounds p2. pose proof (each_insert m cs v1 Hok) as He.
  destruct (each (insert_f m) cs v1) as [[v2 | v2 | rc] l2]; [| done | apply (ends_app _ _ l2); [done | apply ends_ret]].
  destruct He as ((Hd2 & Hb2 & Hh2 & Ht2 & Hht2) & Hs2 & Htodo2 & Hl2). cbn [v1 p_h p_todo] in Hs2, Htodo2.
  apply (ends_app _ _ l2); [done |]. rewrite (wrap_small 32 (m + 1)) by lia.
  apply IH; cbn [p_delta p_bias p_h p_todo]; try lia; try done. apply wrap_range. lia.
Qed.

Lemma count_invalid l h todo :
  Forall (fun c => c = MINUS1 \/ 0 <= c <= 1114111) l ->
  each count_f l (h, todo) = (Return UV_EINVAL, []) \/ Forall (fun c => 0 <= c <= 1114111) l.
Proof.
  intros Hl. revert h todo. induction Hl as [| c l Hc Hl IH]; intros h todo; [by right |]. cbn [each].
  destruct Hc as [-> | Hc]; [by left |]. unfold count_f at 1. cbn [fst snd].
  rewrite (proj2 (Z.eqb_neq c MINUS1)) by (unfold MINUS1, UINT32_MAX; lia).
  destruct (c <? 128); (edestruct IH as [E | Hall]; [left; by rewrite E | right; by constructor]).
Qed.

Lemma tail_ends p e :
  Forall (fun c => 0 <= c <= 1114111) cs ->
  let h := Z.of_nat (length (ascii cs)) in
  let todo := Z.of_nat (length (filter (Z.le 128) cs)) in
  Ends ((if todo =? 0 then mret (i32 h) else
         _ ← (if 0 <? h then put room x2d else mret tt);
         insert_loop mem room (Z.to_nat todo) ss se 128 (mk_puny 0 72 true h todo)) (mk_text p (take room e))) e.
Proof.
  intros Hr h todo. pose proof (length_filter (fun c => c < 128) cs) as Hla. pose proof (length_filter (Z.le 128) cs) as Hln.
  destruct (todo =? 0); [apply ends_ret |]. rewrite (yields_body _ _ _ _ _ _ _ (yields_separator room h)).
  apply (ends_app _ _ (if 0 <? h then [x2d] else [])); [destruct (0 <? h); by repeat constructor |].
  by apply insert_loop_ends; cbn [p_delta p_bias p_h p_todo]; try lia.
Qed.

Lemma label_ends p e :
  Forall (fun c => c = MINUS1 \/ 0 <= c <= 1114111) cs ->
  Ends (uv__idna_toascii_label mem room ss se (mk_text p (take room e))) e.
Proof.
  intros Hcs. pose proof (length_filter (fun c => c < 128) cs) as Hla. pose proof (length_filter (Z.le 128) cs) as Hln.
  unfold uv__idna_toascii_label. run_label (body_count room) I codes bounds p1.
  destruct (count_invalid cs 0 0 Hcs) as [E | Hr]; [rewrite E; cbv iota; rewrite app_nil_r; apply ends_ret |].
  rewrite each_count by (done || lia). cbv iota. rewrite !Z.add_0_l, app_nil_r.
  set (h := Z.of_nat (length (ascii cs))). set (todo := Z.of_nat (length (filter (Z.le 128) cs))).
  rewrite (yields_body _ _ _ _ _ _ _ (yields_prefix room todo)). apply (ends_app _ _ (xn_prefix todo)).
  { unfold xn_prefix. destruct (0 <? todo); by repeat constructor. }
  run_label (body_copy room h) I codes bounds p2. destruct (each_copy h cs 0 Hr) as (x & b & ->); [lia | done | lia |].
  apply (ends_app _ _ (z2b <$> ascii cs)); [by apply ascii_written |]. destruct b; by apply tail_ends.
Qed.
End Label.

(** *** A name *)

Lemma convert_label_ends s se p e :
  0 <= s <= se -> se < 2 ^ 30 -> se + 3 <= Z.of_nat (length mem) ->
  exists rc l, convert_label mem room s se (mk_text p (take room e)) = (Done rc, mk_text p (take room (e ++ l))) /\ ascii_only l.
Proof.
  intros Hs Hse Hmem. destruct (codes_total se s) as (cs & Hcs & Hall); [lia | done |].
  pose proof (codes_length _ _ _ _ Hcs) as Hl. unfold convert_label. erewrite prog_bind_done by done.
  destruct (label_ends s se cs ltac:(lia) Hcs ltac:(lia) p e Hall) as (rc & l & p' & E & Ha).
  exists rc, l. rewrite (prog_bind_done _ _ _ _ _ E). done.
Qed.

Lemma toascii_loop_ends fuel s se p e :
  0 <= s <= p -> se < 2 ^ 30 -> se + 3 <= Z.of_nat (length mem) -> (Z.to_nat (se - p) <= fuel)%nat ->
  exists r l p', toascii_loop mem room fuel s se (mk_text p (take room e)) = (Done r, mk_text p' (take room (e ++ l))) /\
    ascii_only l /\ match r with Next s | Break s => 0 <= s | Return _ => True end.
Proof.
  intros Hs Hse Hmem. revert s p e Hs. induction fuel as [| fuel IH]; intros s p e Hs Hf; cbn [toascii_loop];
    (erewrite prog_bind_done by done); cbn [ptr]; destruct (Z.ltb_spec p se); cbn [negb]; try lia.
  1, 3: exists (Next s), [], p; rewrite app_nil_r; split; [done |]; split; [constructor | lia].
  destruct (decode_total se p) as (c & p' & E & _); [lia | done |]. pose proof (decode_at_next mem _ _ _ _ E) as Hn.
  pose proof (decode1_run mem se p (take room e)) as Hd. rewrite E in Hd. rewrite (prog_bind_done _ _ _ _ _ Hd).
  destruct (negb (is_dot c)); [apply IH; lia |].
  destruct (convert_label_ends s p p' e) as (rc & l & El & Ha); [lia .. |]. rewrite (prog_bind_done _ _ _ _ _ El).
  destruct (rc <? 0); [exists (Return rc), l, p'; done |].
  rewrite (yields_body _ _ _ _ _ _ _ (yields_put room x2e)). erewrite prog_bind_done by done. cbn [ptr].
  destruct (IH p' p' ((e ++ l) ++ [x2e])) as (r & l' & p2 & E' & Ha' & Hr); [lia | lia |].
  exists r, (l ++ [x2e] ++ l'), p2. rewrite E', <- !app_assoc. split; [done |]. split; [| done].
  apply Forall_app. split; [done |]. apply Forall_app. split; [by repeat constructor | done].
Qed.

Lemma toascii_ends se :
  0 <= se < 2 ^ 30 -> se + 3 <= Z.of_nat (length mem) -> Ends (uv__idna_toascii mem room 0 se (mk_text 0 [])) [].
Proof.
  intros Hse Hmem. unfold uv__idna_toascii. erewrite prog_bind_done by done. erewrite prog_bind_done by done.
  unfold set_ptr at 1. cbn [out].
  destruct (toascii_loop_ends (Z.to_nat (se - 0)) 0 se 0 []) as (r & l & p & E & Ha & Hr); [lia .. |].
  rewrite take_nil in E. rewrite (prog_bind_done _ _ _ _ _ E). cbn [app] in *.
  assert (forall s, 0 <= s -> exists rc l', (if s <? se then convert_label mem room s se else mret 0) (mk_text p (take room l))
    = (Done rc, mk_text p (take room (l ++ l'))) /\ ascii_only l') as Hlast.
  { intros s Hs. destruct (Z.ltb_spec s se); [apply convert_label_ends; lia |]. exists 0, []. by rewrite app_nil_r. }
  assert (forall s, 0 <= s -> Ends ((rc ← (if s <? se then convert_label mem room s se else mret 0);
    if rc <? 0 then mret rc else _ ← put room x00; t ← getS; mret (Z.of_nat (length (out t)) - Z.of_nat (length (@nil byte))))
    (mk_text p (take room l))) []) as Hend.
  { intros s Hs. destruct (Hlast s Hs) as (rc & l' & El & Ha'). rewrite (prog_bind_done _ _ _ _ _ El).
    apply (ends_app _ _ (l ++ l')); [by apply Forall_app |]. destruct (rc <? 0); [apply ends_ret |].
    rewrite (yields_body _ _ _ _ _ _ _ (yields_put room x00)). erewrite prog_bind_done by done.
    apply (ends_app _ _ [x00]); [by repeat constructor | apply ends_ret]. }
  destruct r as [s | s | rc]; [by apply Hend .. |]. apply (ends_app _ _ l); [done | apply ends_ret].
Qed.
End Any.

(** ** Properties *)

(** C14: host names are converted faithfully.  Of any name of Unicode scalar values with
    labels of at most [MAX_LABEL] code points, in UTF-8 and ended by a NUL, each label
    (up to any of the four dots of IDNA) is written as it is if it is ASCII and
    otherwise as [xn--] and a Punycode from which the decoder of RFC 3492 gives the
    label back, with an ASCII dot after each label that had one and a NUL at the end.
    The result is the number of bytes written; what the output buffer has no room for
    is cut off, and nothing is written past it. *)
Theorem idna_toascii_roundtrip (name : list Z) (room : nat) :
  forallb scalar name = true -> Forall label_ok ((labels [] name).2 :: (labels [] name).1) ->
  exists outs last,
    Forall2 Encodes (labels [] name).1 outs /\ Encodes (labels [] name).2 last /\
    let res := take room (flat_map (fun l => l ++ [x2e]) outs ++ last ++ [x00]) in
    toascii (flat_map utf8 name) room = (Done (Z.of_nat (length res)), res).
Proof. apply toascii_run. Qed.

(** "b\u00fccher", the ideographic full stop, "de". *)
Definition sample_name : list Z := [98; 252; 99; 104; 101; 114; 12290; 100; 101].

Lemma idna_toascii_roundtrip_witness :
  Forall2 (fun l o => l = o) (labels [] sample_name).1 [[98; 252; 99; 104; 101; 114]] /\
  exists outs last,
    Forall2 Encodes (labels [] sample_name).1 outs /\ Encodes (labels [] sample_name).2 last /\
    let res := take 64 (flat_map (fun l => l ++ [x2e]) outs ++ last ++ [x00]) in
    toascii (flat_map utf8 sample_name) 64 = (Done (Z.of_nat (length res)), res).
Proof.
  split; [by repeat constructor |]. apply (idna_toascii_roundtrip sample_name 64); [done |].
  repeat constructor; by vm_compute.
Defined.

(** C40: The output is ASCII and the conversion ends, whatever the bytes of the name,
    provided two bytes can be read after its terminating NUL: [uv__idna_toascii] returns
    a length or an error, its output fits the buffer, and every byte of it is below 128. *)
Theorem idna_toascii_ascii (name slack : list byte) (room : nat) :
  Z.of_nat (length name) < 2 ^ 30 -> (2 <= length slack)%nat ->
  exists rc t,
    uv__idna_toascii (name ++ [x00] ++ slack) room 0 (Z.of_nat (length name)) (mk_text 0 []) = (Done rc, t) /\
    (length (out t) <= room)%nat /\ Forall (fun b => b2z b < 128) (out t).
Proof.
  intros Hn Hs. destruct (toascii_ends (name ++ [x00] ++ slack) room (Z.of_nat (length name))) as (rc & l & p & E & Hl).
  { lia. }
  { rewrite !length_app. cbn [length]. lia. }
  exists rc, (mk_text p (take room ([] ++ l))). split; [exact E |]. cbn [out app]. rewrite length_take. split; [lia |].
  by apply Forall_take.
Qed.

Lemma idna_toascii_ascii_witness :
  exists rc t,
    uv__idna_toascii ([x61; xf0] ++ [x00] ++ [xff; x80]) 64 0 2 (mk_text 0 []) = (Done rc, t) /\
    (length (out t) <= 64)%nat /\ Forall (fun b => b2z b < 128) (out t).
Proof. apply (idna_toascii_ascii [x61; xf0] [xff; x80] 64); cbn; lia. Defined.

(** Bytes of a name that end inside a character: the first byte of a character of three
    or four bytes alone, or that of one of four bytes with a byte after it. *)
Definition cut_short (tail : list byte) : bool :=
  match tail with
  | [a] => (224 <=? b2z a) && (b2z a <=? 247)
  | [a; _] => (240 <=? b2z a) && (b2z a <=? 247)
  | _ => false
  end.

Lemma decode_cut_short pre tail :
  cut_short tail = true ->
  decode_at (pre ++ tail ++ [x00]) (Z.of_nat (length (pre ++ tail))) (Z.of_nat (length pre)) = None.
Proof.
  intros Hcut. destruct (bytes_after pre (tail ++ [x00])) as (E0 & E1 & E2 & E3).
  set (p := Z.of_nat (length pre)) in *. unfold decode_at. rewrite E0, E1, E2, E3. clear E0 E1 E2 E3.
  destruct tail as [| a [| b [| ? ?]]]; try done; cbn [cut_short] in Hcut;
    apply andb_true_iff in Hcut as [Ha%Z.leb_le Ha'%Z.leb_le];
    cbn [app lookup list_lookup fmap option_fmap option_map mbind option_bind];
    rewrite (proj2 (Z.ltb_ge _ 128)), (proj2 (Z.ltb_ge 247 _)) by lia;
    rewrite length_app; cbn [length];
    rewrite (proj2 (Z.eqb_neq (p + 1 - _) 2)), (proj2 (Z.eqb_neq (p + 1 - _) 1)) by lia; cbn [negb andb].
  - destruct (239 <? b2z a); [done |]. by rewrite (proj2 (Z.ltb_lt 223 _)) by lia.
  - by rewrite (proj2 (Z.ltb_lt 239 _)) by lia.
Qed.

(** C39: the decoder reads past the end of the name.  [uv__utf8_decode1_slow] decides by
    [*p - pe], which is never positive inside the name, how many bytes are left.  Every
    name that starts with scalar values (finished labels of at most [MAX_LABEL] code
    points) and ends inside a character with two of its bytes or more missing is
    therefore read beyond its terminating NUL, whatever the room for the output. *)
Theorem idna_reads_past_end (name : list Z) (tail : list byte) (room : nat) :
  forallb scalar name = true -> Forall label_ok (labels [] name).1 -> cut_short tail = true ->
  (toascii (flat_map utf8 name ++ tail) room).1 = Stuck.
Proof.
  intros Hsc Hok Hcut. unfold toascii, uv__idna_toascii. set (se := Z.of_nat (length (flat_map utf8 name ++ tail))).
  assert (length tail <> 0)%nat as Ht by (by destruct tail).
  erewrite prog_bind_done by done. erewrite prog_bind_done by done. unfold set_ptr at 1. cbn [out].
  destruct (toascii_loop_steps room (Z.to_nat (se - 0)) [] [] name (tail ++ [x00]) se [] Hsc Hok)
    as (outs & fuel & Hf & E & _); [subst se; rewrite length_app; lia | subst se; cbn; rewrite length_app; lia |].
  cbn [flat_map app] in E. change (Z.of_nat (length (@nil byte))) with 0 in E. rewrite take_nil, app_assoc in E.
  destruct fuel as [| fuel]; [subst se; rewrite length_app in Hf; lia |].
  unfold mbind at 1, prog_bind at 1. rewrite E. cbn [toascii_loop]. erewrite prog_bind_done by done. cbn [ptr].
  rewrite (proj2 (Z.ltb_lt _ se)) by (subst se; rewrite length_app; lia). cbn [negb].
  pose proof (decode1_run ((flat_map utf8 name ++ tail) ++ [x00]) se (Z.of_nat (length (flat_map utf8 name)))
    (take room (flat_map (fun l => l ++ [x2e]) outs))) as Hd.
  assert (decode_at ((flat_map utf8 name ++ tail) ++ [x00]) se (Z.of_nat (length (flat_map utf8 name))) = None) as En
    by (rewrite <- app_assoc; by apply decode_cut_short).
  rewrite En in Hd. destruct Hd as [t Hd].
  unfold mbind at 1, prog_bind at 1. by rewrite Hd.
Qed.

(** "a", a dot and the first two bytes of a character of four. *)
Lemma idna_reads_past_end_witness : (toascii (flat_map utf8 [97; 46] ++ [xf0; x90]) 64).1 = Stuck.
Proof.
  apply (idna_reads_past_end [97; 46] [xf0; x90] 64); [done | | done]. repeat constructor; by vm_compute.
Defined.

(** After a truncated character of two bytes the decoder stops at the NUL, and the name is
    converted as if the character were not there. *)
Example idna_drops_truncated (room : nat) : toascii [x61; xc3] room = toascii [x61] room.
Proof. destruct room as [| [| room]]; reflexivity. Qed.
