(* ===== verification/Inet.v ===== *)
(** * Addresses as text

    [inet.c], on [strscpy.c]: IPv4 and IPv6 addresses to text and back.  Strings are in
    memories that end with, or after, a NUL; reading or writing past the end of an
    object is [Stuck]. *)

From S2P Require Import Prelude Crypto UvErrno Digits.

(** The codes of the platform (Darwin). *)
Definition AF_INET : Z := 2.
Definition AF_INET6 : Z := 30.

Definition UV__INET_ADDRSTRLEN : Z := 16.
Definition UV__INET6_ADDRSTRLEN : Z := 46.
Definition SSIZE_MAX : Z := 2 ^ 63 - 1.

(** ** The C library *)

(** [b[i] = c], in a buffer that is the state. *)
Definition set_at (i : nat) (c : byte) : prog (list byte) unit :=
  b ← getS; if (i <? length b)%nat then modifyS (<[i := c]>) else stuck.

Definition char_at (s : list byte) (i : nat) : prog (list byte) byte :=
  match s !! i with Some c => mret c | None => stuck end.

(** The offset of [ch]; [None] is a read past the end. *)
Fixpoint strchr (s : list byte) (ch : Z) : option (option nat) :=
  match s with
  | [] => None
  | c :: s =>
      if b2z c =? ch then Some (Some 0%nat)
      else if b2z c =? 0 then Some None
      else match strchr s ch with Some r => Some (S <$> r) | None => None end
  end.

(** ** strscpy.c *)

(** The loop over [i]; [None] is its end without a NUL. *)
Fixpoint strscpy_loop (fuel i : nat) (s : list byte) : prog (list byte) (option Z) :=
  match fuel with
  | O => mret None
  | S fuel =>
      c ← char_at s i;
      _ ← set_at i c;
      if b2z c =? 0 then mret (Some (if SSIZE_MAX <? Z.of_nat i then UV_E2BIG else Z.of_nat i))
      else strscpy_loop fuel (S i) s
  end.

Definition uv__strscpy (s : list byte) (n : nat) : prog (list byte) Z :=
  r ← strscpy_loop n 0 s;
  match r with
  | Some rc => mret rc
  | None => if Nat.eqb n 0 then mret 0 else _ ← set_at (n - 1) x00; mret UV_E2BIG
  end.

(** ** To text *)

(** [snprintf(tmp, sizeof(tmp), "%u.%u.%u.%u", ...)]: what fits of the text, and its length. *)
Definition dotted (b0 b1 b2 b3 : byte) : list byte :=
  utoa 10 (b2z b0) ++ x2e :: utoa 10 (b2z b1) ++ x2e :: utoa 10 (b2z b2) ++ x2e :: utoa 10 (b2z b3).

Definition inet_ntop4 (src : list byte) (size : nat) : prog (list byte) Z :=
  b0 ← char_at src 0; b1 ← char_at src 1; b2 ← char_at src 2; b3 ← char_at src 3;
  let text := dotted b0 b1 b2 b3 in
  let tmp := take (Z.to_nat UV__INET_ADDRSTRLEN - 1) text ++ [x00] in
  let l := Z.of_nat (length text) in
  if (l <=? 0) || (Z.of_nat size <=? l) then mret UV_ENOSPC else
  _ ← uv__strscpy tmp size;
  mret 0.

(** [words], from the 16 bytes; [None] is a read past the end of [src]. *)
Fixpoint words_loop (fuel i : nat) (src : list byte) (words : list Z) : option (list Z) :=
  match fuel with
  | O => Some words
  | S fuel =>
      c ← src !! i;
      words_loop fuel (S i) src (alter (fun w => w .| (b2z c .<< ((1 - Z.of_nat i mod 2) .<< 3))) (i / 2)%nat words)
  end.

(** The runs of zeros: [base] and [len]. *)
Record zrun := mk_zrun { base : Z; len : Z }.

Definition better (best cur : zrun) : zrun :=
  if (base best =? -1) || (len best <? len cur) then cur else best.

Fixpoint runs_loop (i : Z) (words : list Z) (best cur : zrun) : zrun * zrun :=
  match words with
  | [] => (best, cur)
  | w :: words =>
      if w =? 0 then
        runs_loop (i + 1) words best (if base cur =? -1 then mk_zrun i 1 else mk_zrun (base cur) (len cur + 1))
      else if negb (base cur =? -1) then runs_loop (i + 1) words (better best cur) (mk_zrun (-1) (len cur))
      else runs_loop (i + 1) words best cur
  end.

Definition best_run (words : list Z) : zrun :=
  let '(best, cur) := runs_loop 0 words (mk_zrun (-1) 0) (mk_zrun (-1) 0) in
  let best := if negb (base cur =? -1) then better best cur else best in
  if negb (base best =? -1) && (len best <? 2) then mk_zrun (-1) (len best) else best.

(** [*tp++ = c] *)
Definition push (c : byte) (tp : nat) : prog (list byte) nat := _ ← set_at tp c; mret (S tp).

(** [tp += sprintf(tp, "%x", w)] *)
Fixpoint push_all (l : list byte) (tp : nat) : prog (list byte) nat :=
  match l with
  | [] => mret tp
  | c :: l => tp ← push c tp; push_all l tp
  end.

Definition sprintf_x (w : Z) (tp : nat) : prog (list byte) nat :=
  tp ← push_all (utoa 16 w) tp;
  _ ← set_at tp x00;
  mret tp.

(** Runs [m] on the part of the buffer from [tp] on. *)
Definition from_tp {A} (tp : nat) (m : prog (list byte) A) : prog (list byte) A := fun b =>
  let '(r, b') := m (drop tp b) in (r, take tp b ++ b').

(** The loop that formats the words from [i] on; it ends with [tp], or with an error. *)
Fixpoint format_loop (i : Z) (src : list byte) (all words : list Z) (best : zrun) (tp : nat) : prog (list byte) (nat + Z) :=
  match words with
  | [] => mret (inl tp)
  | w :: words =>
      if negb (base best =? -1) && (base best <=? i) && (i <? base best + len best) then
        tp ← (if i =? base best then push x3a tp else mret tp);
        format_loop (i + 1) src all words best tp
      else
        tp ← (if negb (i =? 0) then push x3a tp else mret tp);
        if (i =? 6) && (base best =? 0)
           && ((len best =? 6) || ((len best =? 7) && negb (bool_decide (all !! 7%nat = Some 1)))
               || ((len best =? 5) && bool_decide (all !! 5%nat = Some 65535)))
        then
          b ← getS;
          err ← from_tp tp (inet_ntop4 (drop 12 src) (Z.to_nat UV__INET6_ADDRSTRLEN - tp));
          if negb (err =? 0) then mret (inr err) else
          b ← getS;
          match strlen (drop tp b) with
          | Some n => mret (inl (tp + n)%nat)
          | None => stuck
          end
        else
          tp ← sprintf_x w tp;
          format_loop (i + 1) src all words best tp
  end.

(** The text of the 16 bytes, in [tmp]. *)
Definition format6 (src : list byte) (words : list Z) : prog (list byte) Z :=
  let best := best_run words in
  r ← format_loop 0 src words words best 0;
  match r with
  | inr err => mret err
  | inl tp =>
      tp ← (if negb (base best =? -1) && (base best + len best =? 8) then push x3a tp else mret tp);
      _ ← push x00 tp;
      mret 0
  end.

Section Ntop.
(** What the stack holds before [tmp] is written. *)
Variable junk : byte.

Definition inet_ntop6 (src : list byte) (size : nat) : prog (list byte) Z :=
  match words_loop 16 0 src (repeat 0 8) with
  | None => stuck
  | Some words =>
      match format6 src words (repeat junk (Z.to_nat UV__INET6_ADDRSTRLEN)) with
      | (Done err, tmp) =>
          if negb (err =? 0) then mret err else
          rc ← uv__strscpy tmp size;
          if rc =? UV_E2BIG then mret UV_ENOSPC else mret 0
      | (Failed, _) => fail
      | (Stuck, _) => stuck
      | (NoFuel, _) => nofuel
      end
  end.

(** On the destination, of [size] bytes at least. *)
Definition uv_inet_ntop (af : Z) (src : list byte) (size : nat) : prog (list byte) Z :=
  if af =? AF_INET then inet_ntop4 src size
  else if af =? AF_INET6 then inet_ntop6 src size
  else mret UV_EAFNOSUPPORT.
End Ntop.

(** ** From text *)

Definition digits : list byte := [x30; x31; x32; x33; x34; x35; x36; x37; x38; x39; x00].
Definition xdigits_l : list byte :=
  [x30; x31; x32; x33; x34; x35; x36; x37; x38; x39; x61; x62; x63; x64; x65; x66; x00].
Definition xdigits_u : list byte :=
  [x30; x31; x32; x33; x34; x35; x36; x37; x38; x39; x41; x42; x43; x44; x45; x46; x00].

(** The offset of [ch] in one of these. *)
Definition digit_of (table : list byte) (ch : byte) : option Z :=
  match strchr table (b2z ch) with Some (Some i) => Some (Z.of_nat i) | _ => None end.

(** The loop of [inet_pton4] on [tmp], where [tp] is an index; [inr] is an error. *)
Fixpoint pton4_loop (src : list byte) (saw_digit : bool) (octets : Z) (tp : nat) : prog (list byte) (Z + Z) :=
  match src with
  | [] => stuck
  | ch :: src =>
      if b2z ch =? 0 then mret (inl octets) else
      match digit_of digits ch with
      | Some d =>
          b ← getS;
          cur ← char_at b tp;
          let nw := b2z cur * 10 + d in
          if saw_digit && (b2z cur =? 0) then mret (inr UV_EINVAL) else
          if 255 <? nw then mret (inr UV_EINVAL) else
          _ ← set_at tp (z2b nw);
          if saw_digit then pton4_loop src true octets tp
          else if 4 <? octets + 1 then mret (inr UV_EINVAL)
          else pton4_loop src true (octets + 1) tp
      | None =>
          if (b2z ch =? 46) && saw_digit then
            if octets =? 4 then mret (inr UV_EINVAL) else
            _ ← set_at (S tp) x00;
            pton4_loop src false octets (S tp)
          else mret (inr UV_EINVAL)
      end
  end.

(** [memcpy(dst, tmp, n)] from the start of [dst]. *)
Fixpoint memcpy (i : nat) (tmp : list byte) : prog (list byte) unit :=
  match tmp with
  | [] => mret tt
  | c :: tmp => _ ← set_at i c; memcpy (S i) tmp
  end.

Section Pton.
Variable junk : byte.

Definition inet_pton4 (src : list byte) : prog (list byte) Z := fun dst =>
  match (_ ← set_at 0 x00; pton4_loop src false 0 0) (repeat junk 4) with
  | (Done (inl octets), tmp) =>
      if octets <? 4 then (Done UV_EINVAL, dst) else (_ ← memcpy 0 tmp; mret 0) dst
  | (Done (inr err), _) => (Done err, dst)
  | (Failed, _) => (Failed, dst)
  | (Stuck, _) => (Stuck, dst)
  | (NoFuel, _) => (NoFuel, dst)
  end.

(** The variables of [inet_pton6]; [tmp] is the state, and [curtok] the text from there. *)
Record pton6 := mk_pton6 { p6_tp : nat; p6_colonp : option nat; p6_curtok : list byte; p6_seen : Z; p6_val : Z }.

(** [*tp++ = (val >> 8) & 0xff; *tp++ = val & 0xff] *)
Definition put_word (val : Z) (tp : nat) : prog (list byte) nat :=
  tp ← push (z2b ((val .>> 8) .& 255)) tp;
  push (z2b (val .& 255)) tp.

Definition xdigit (ch : byte) : option Z :=
  match digit_of xdigits_l ch with Some d => Some d | None => digit_of xdigits_u ch end.

Fixpoint pton6_loop (src : list byte) (v : pton6) : prog (list byte) (pton6 + Z) :=
  match src with
  | [] => stuck
  | ch :: src =>
      if b2z ch =? 0 then mret (inl v) else
      match xdigit ch with
      | Some d =>
          let val := u32 (p6_val v .<< 4) .| d in
          if 4 <? p6_seen v + 1 then mret (inr UV_EINVAL)
          else pton6_loop src (mk_pton6 (p6_tp v) (p6_colonp v) (p6_curtok v) (p6_seen v + 1) val)
      | None =>
          if b2z ch =? 58 then
            if p6_seen v =? 0 then
              match p6_colonp v with
              | Some _ => mret (inr UV_EINVAL)
              | None => pton6_loop src (mk_pton6 (p6_tp v) (Some (p6_tp v)) src 0 (p6_val v))
              end
            else
              c ← char_at src 0;
              if b2z c =? 0 then mret (inr UV_EINVAL) else
              if (16 <? p6_tp v + 2)%nat then mret (inr UV_EINVAL) else
              tp ← put_word (p6_val v) (p6_tp v);
              pton6_loop src (mk_pton6 tp (p6_colonp v) src 0 0)
          else if (b2z ch =? 46) && (p6_tp v + 4 <=? 16)%nat then
            err ← from_tp (p6_tp v) (inet_pton4 (p6_curtok v));
            if err =? 0 then mret (inl (mk_pton6 (p6_tp v + 4) (p6_colonp v) (p6_curtok v) 0 (p6_val v)))
            else mret (inr UV_EINVAL)
          else mret (inr UV_EINVAL)
      end
  end.

(** [for (i = 1; i <= n; i++) { endp[-i] = colonp[n - i]; colonp[n - i] = 0; }] *)
Fixpoint shift_loop (fuel i n colonp : nat) : prog (list byte) unit :=
  match fuel with
  | O => mret tt
  | S fuel =>
      b ← getS;
      c ← char_at b (colonp + (n - i));
      _ ← set_at (16 - i) c;
      _ ← set_at (colonp + (n - i)) x00;
      shift_loop fuel (S i) n colonp
  end.

(** Makes room for the zeros of a double colon; [tmp] must be full without one. *)
Definition close6 (colonp : option nat) (tp : nat) : prog (list byte) Z :=
  match colonp with
  | Some colonp =>
      let n := (tp - colonp)%nat in
      if Nat.eqb tp 16 then mret UV_EINVAL else
      _ ← shift_loop n 1 n colonp;
      mret 0
  | None => if negb (Nat.eqb tp 16) then mret UV_EINVAL else mret 0
  end.

(** After the loop: the last word. *)
Definition finish6 (v : pton6) : prog (list byte) Z :=
  if negb (p6_seen v =? 0) && (16 <? p6_tp v + 2)%nat then mret UV_EINVAL else
  tp ← (if negb (p6_seen v =? 0) then put_word (p6_val v) (p6_tp v) else mret (p6_tp v));
  close6 (p6_colonp v) tp.

(** On [tmp], from the text after a first colon of two. *)
Definition parse6 (src : list byte) : prog (list byte) Z :=
  r ← pton6_loop src (mk_pton6 0 None src 0 0);
  match r with
  | inr err => mret err
  | inl v => finish6 v
  end.

Definition inet_pton6 (src : list byte) : prog (list byte) Z := fun dst =>
  let start : option (option (list byte)) :=
    match src with
    | [] => None
    | c :: src' =>
        if b2z c =? 58 then
          match src' with
          | [] => None
          | c' :: _ => if b2z c' =? 58 then Some (Some src') else Some None
          end
        else Some (Some src)
    end in
  match start with
  | None => (Stuck, dst)
  | Some None => (Done UV_EINVAL, dst)
  | Some (Some src) =>
      match parse6 src (repeat x00 16) with
      | (Done err, tmp) => if negb (err =? 0) then (Done err, dst) else (_ ← memcpy 0 tmp; mret 0) dst
      | (Failed, _) => (Failed, dst)
      | (Stuck, _) => (Stuck, dst)
      | (NoFuel, _) => (NoFuel, dst)
      end
  end.

(** [src] is not [NULL]; on [*dst]. *)
Definition uv_inet_pton (af : Z) (src : list byte) : prog (list byte) Z :=
  if af =? AF_INET then inet_pton4 src
  else if af =? AF_INET6 then
    match strchr src 37 with
    | None => stuck
    | Some None => inet_pton6 src
    | Some (Some len) =>
        if UV__INET6_ADDRSTRLEN - 1 <? Z.of_nat len then mret UV_EINVAL
        else inet_pton6 (take len src ++ [x00])
    end
  else mret UV_EAFNOSUPPORT.
End Pton.
