(* ===== verification/InetProps.v ===== *)
(** * Facts about the address conversions

    Buffers as the text written so far and the rest; [uv__strscpy]; the digits read
    back; IPv4 addresses. *)

From S2P Require Import Prelude Crypto UvErrno Digits Inet.

(** ** Buffers *)

Lemma set_at_mid i c T x R : i = length T -> set_at i c (T ++ x :: R) = (Done tt, T ++ c :: R).
Proof.
  intros ->. unfold set_at. erewrite prog_bind_done by done. rewrite length_app. cbn [length].
  destruct (Nat.ltb_spec (length T) (length T + S (length R))); [| lia]. unfold modifyS. f_equal.
  rewrite insert_app_r_alt, Nat.sub_diag by lia. done.
Qed.

Lemma char_at_mid i s c R (b : list byte) : i = length s -> char_at (s ++ c :: R) i b = (Done c, b).
Proof. intros ->. unfold char_at. by rewrite list_lookup_middle. Qed.

Lemma push_run c tp T x R : tp = length T -> push c tp (T ++ x :: R) = (Done (length (T ++ [c])), (T ++ [c]) ++ R).
Proof.
  intros ->. unfold push. erewrite prog_bind_done by (by apply set_at_mid). rewrite length_app, Nat.add_1_r. cbn [length].
  by rewrite <- app_assoc.
Qed.

Lemma push_all_run l tp T R :
  tp = length T -> (length l <= length R)%nat ->
  push_all l tp (T ++ R) = (Done (length (T ++ l)), (T ++ l) ++ drop (length l) R).
Proof.
  revert tp T R. induction l as [| c l IH]; intros tp T R -> Hl; cbn [push_all length] in *.
  { by rewrite app_nil_r. }
  destruct R as [| x R]; cbn [length] in *; [lia |]. erewrite prog_bind_done by (by apply push_run). cbn [drop].
  rewrite IH by (done || lia). by rewrite <- app_assoc.
Qed.

Lemma sprintf_x_run w tp T R :
  tp = length T -> (length (utoa 16 w) < length R)%nat ->
  exists R', sprintf_x w tp (T ++ R) = (Done (length (T ++ utoa 16 w)), (T ++ utoa 16 w) ++ R') /\
    (length (utoa 16 w) + length R' = length R)%nat.
Proof.
  intros -> Hl. unfold sprintf_x. erewrite prog_bind_done by (apply push_all_run; [done | lia]).
  pose proof (length_drop R (length (utoa 16 w))) as Hd. destruct (drop _ R) as [| x R'] eqn:E; [cbn [length] in Hd; lia |].
  erewrite prog_bind_done by (by apply set_at_mid). exists (x00 :: R'). split; [done |]. cbn [length] in *. lia.
Qed.

Lemma memcpy_run tmp T R :
  (length tmp <= length R)%nat -> memcpy (length T) tmp (T ++ R) = (Done tt, T ++ tmp ++ drop (length tmp) R).
Proof.
  revert T R. induction tmp as [| c tmp IH]; intros T R Hl; cbn [memcpy length app] in *; [done |].
  destruct R as [| x R]; cbn [length] in *; [lia |]. erewrite prog_bind_done by (by apply set_at_mid). cbn [drop].
  specialize (IH (T ++ [c]) R ltac:(lia)). rewrite length_app, Nat.add_1_r, <- !app_assoc in IH. exact IH.
Qed.

Lemma memcpy_start tmp dst :
  (length tmp <= length dst)%nat -> memcpy 0 tmp dst = (Done tt, tmp ++ drop (length tmp) dst).
Proof. apply (memcpy_run tmp []). Qed.

(** ** Text *)

(** No NUL in it. *)
Definition no_nul (l : list byte) : Prop := Forall (fun c => b2z c <> 0) l.

#[global] Typeclasses Opaque no_nul.

Lemma b2z_nul : b2z x00 = 0. Proof. done. Qed.

Lemma strlen_text l R : no_nul l -> strlen (l ++ x00 :: R) = Some (length l).
Proof.
  induction 1 as [| c l Hc _ IH]; [done |]. cbn [strlen app length]. rewrite IH.
  destruct (Z.eqb_spec (b2z c) 0); done.
Qed.

Lemma strchr_none l R ch :
  no_nul l -> Forall (fun c => b2z c <> ch) l -> ch <> 0 -> strchr (l ++ x00 :: R) ch = Some None.
Proof.
  intros Hl Hc Hch. induction Hl as [| c l Hn _ IH]; cbn [strchr app].
  - rewrite b2z_nul. destruct (Z.eqb_spec 0 ch); [lia | done].
  - inversion Hc; subst. destruct (Z.eqb_spec (b2z c) ch); [done |]. destruct (Z.eqb_spec (b2z c) 0); [done |]. by rewrite IH.
Qed.

(** ** strscpy.c *)

Lemma strscpy_loop_fits fuel i s T l R b :
  s = T ++ l ++ x00 :: R -> i = length T -> no_nul l -> (length l < fuel)%nat -> (length l < length b)%nat ->
  Z.of_nat (length T + length l) <= SSIZE_MAX ->
  strscpy_loop fuel i s (T ++ b) =
    (Done (Some (Z.of_nat (length T + length l))), T ++ l ++ x00 :: drop (S (length l)) b).
Proof.
  intros -> -> Hl. revert fuel T b. induction Hl as [| c l Hc _ IH]; intros fuel T b Hf Hb Hm; destruct fuel as [| fuel]; try lia;
    destruct b as [| x b]; cbn [length] in *; try lia; cbn [strscpy_loop app].
  - erewrite prog_bind_done by (by apply char_at_mid). erewrite prog_bind_done by (by apply set_at_mid).
    rewrite b2z_nul. cbn [Z.eqb]. rewrite Nat.add_0_r in *. destruct (Z.ltb_spec SSIZE_MAX (Z.of_nat (length T))); [lia | done].
  - erewrite prog_bind_done by (by apply char_at_mid). erewrite prog_bind_done by (by apply set_at_mid).
    destruct (Z.eqb_spec (b2z c) 0); [done |]. specialize (IH fuel (T ++ [c]) b). rewrite length_app in IH. cbn [length] in IH.
    rewrite Nat.add_1_r, <- !app_assoc in IH. cbn [app] in IH. rewrite IH by lia. cbn [drop]. do 3 f_equal. lia.
Qed.

Lemma strscpy_loop_cut fuel i s T l R b :
  s = T ++ l ++ R -> i = length T -> no_nul l -> (fuel <= length l)%nat -> (fuel <= length b)%nat ->
  strscpy_loop fuel i s (T ++ b) = (Done None, T ++ take fuel l ++ drop fuel b).
Proof.
  intros -> -> Hl. revert fuel T b. induction Hl as [| c l Hc _ IH]; intros fuel T b Hf Hb; destruct fuel as [| fuel];
    cbn [length] in *; try lia; try done.
  destruct b as [| x b]; cbn [length] in *; [lia |]. cbn [strscpy_loop app take drop].
  erewrite prog_bind_done by (by apply char_at_mid). erewrite prog_bind_done by (by apply set_at_mid).
  destruct (Z.eqb_spec (b2z c) 0); [done |]. specialize (IH fuel (T ++ [c]) b). rewrite length_app in IH. cbn [length] in IH.
  rewrite Nat.add_1_r, <- !app_assoc in IH. cbn [app] in IH. by rewrite IH by lia.
Qed.

(** What [uv__strscpy] returns and leaves. *)
Definition strscpy_result (l : list byte) (n : nat) (dst : list byte) : outcome Z * list byte :=
  if Nat.eqb n 0 then (Done 0, dst)
  else if (length l <? n)%nat then (Done (Z.of_nat (length l)), l ++ x00 :: drop (S (length l)) dst)
  else (Done UV_E2BIG, take (n - 1) l ++ x00 :: drop n dst).

Lemma strscpy_run l R n dst :
  no_nul l -> Z.of_nat (length l) <= SSIZE_MAX -> (n <= length dst)%nat ->
  uv__strscpy (l ++ x00 :: R) n dst = strscpy_result l n dst.
Proof.
  intros Hl Hm Hn. unfold uv__strscpy, strscpy_result. destruct (Nat.ltb_spec (length l) n) as [Hlt | Hge].
  - erewrite prog_bind_done by (apply (strscpy_loop_fits n 0 _ [] l R dst); cbn [length]; (done || lia)).
    destruct (Nat.eqb_spec n 0); [lia | done].
  - erewrite prog_bind_done by (apply (strscpy_loop_cut n 0 _ [] l (x00 :: R) dst); cbn [length]; (done || lia)).
    destruct (Nat.eqb_spec n 0) as [-> | Hn0]; [done |]. cbn [app].
    destruct (lookup_lt_is_Some_2 l (n - 1)) as [c Hc]; [lia |].
    assert (take n l = take (n - 1) l ++ [c]) as -> by (rewrite <- (take_S_r l (n - 1) c) by done; f_equal; lia).
    rewrite <- app_assoc. cbn [app].
    erewrite prog_bind_done by (apply set_at_mid; rewrite length_take; lia). done.
Qed.

(** ** Digits *)

(** A statement about the digits below [n], by trying them all. *)
Lemma digit_cases (n : nat) (P : Z -> Prop) `{forall d, Decision (P d)} d :
  forallb (fun d => bool_decide (P (Z.of_nat d))) (seq 0 n) = true -> 0 <= d < Z.of_nat n -> P d.
Proof.
  intros Hall Hd. rewrite forallb_forall in Hall. specialize (Hall (Z.to_nat d)). rewrite Z2Nat.id in Hall by lia.
  eapply bool_decide_eq_true_1, Hall, in_seq. lia.
Qed.

Lemma digit_of_char d : 0 <= d < 10 -> digit_of digits (digit_char d) = Some d.
Proof. by apply (digit_cases 10 (fun d => digit_of digits (digit_char d) = Some d)). Qed.

Lemma digit_of_inv ch d : b2z ch <> 0 -> digit_of digits ch = Some d -> 0 <= d < 10 /\ ch = digit_char d.
Proof. intros Hch. destruct ch; try done; vm_compute; intros [= <-]; by split. Qed.

Lemma digit_nonzero d : 0 <= d < 16 -> b2z (digit_char d) <> 0.
Proof. apply (digit_cases 16 (fun d => b2z (digit_char d) <> 0)). by vm_compute. Qed.

Lemma xdigit_char d : 0 <= d < 16 -> xdigit (digit_char d) = Some d.
Proof. by apply (digit_cases 16 (fun d => xdigit (digit_char d) = Some d)). Qed.

(** Text of digits. *)
Lemma utoa_forall b v (P : byte -> Prop) :
  2 <= b -> 0 <= v < 2 ^ 64 -> (forall d, 0 <= d < b -> P (digit_char d)) -> Forall P (utoa b v).
Proof.
  intros Hb Hv HP. eapply Forall_impl; [by apply utoa_digits |]. intros c (d & Hd & ->). by apply HP.
Qed.

Lemma utoa_no_nul b v : 2 <= b <= 16 -> 0 <= v < 2 ^ 64 -> no_nul (utoa b v).
Proof. intros Hb Hv. apply utoa_forall; [lia | done |]. intros d Hd. apply digit_nonzero. lia. Qed.

(** ** IPv4 *)

Lemma octet_length b : (length (utoa 10 (b2z b)) <= 3)%nat.
Proof. apply utoa_length; blia. Qed.

Lemma dotted_length b0 b1 b2 b3 : (7 <= length (dotted b0 b1 b2 b3) <= 15)%nat.
Proof.
  unfold dotted. repeat (rewrite length_app; cbn [length]).
  assert (forall b, (1 <= length (utoa 10 (b2z b)))%nat) as Hpos.
  { intros b. pose proof (utoa_not_nil 10 (b2z b) ltac:(lia) ltac:(blia)). destruct (utoa 10 (b2z b)); [done | cbn [length]; lia]. }
  pose proof (octet_length b0). pose proof (octet_length b1). pose proof (octet_length b2). pose proof (octet_length b3).
  pose proof (Hpos b0). pose proof (Hpos b1). pose proof (Hpos b2). pose proof (Hpos b3). lia.
Qed.

Lemma dotted_forall (P : byte -> Prop) b0 b1 b2 b3 :
  (forall d, 0 <= d < 10 -> P (digit_char d)) -> P x2e -> Forall P (dotted b0 b1 b2 b3).
Proof.
  intros Hd Hdot. unfold dotted. assert (forall b, Forall P (utoa 10 (b2z b))) as Ho.
  { intros b. apply utoa_forall; [lia | blia | done]. }
  repeat (apply Forall_app; split; [apply Ho | constructor; [done |]]). apply Ho.
Qed.

Lemma dotted_no_nul b0 b1 b2 b3 : no_nul (dotted b0 b1 b2 b3).
Proof. apply dotted_forall; [| done]. intros d Hd. apply digit_nonzero. lia. Qed.

(** [inet_ntop4] writes the whole address or nothing. *)
Lemma inet_ntop4_run b0 b1 b2 b3 more size dst :
  (size <= length dst)%nat ->
  inet_ntop4 (b0 :: b1 :: b2 :: b3 :: more) size dst =
    let text := dotted b0 b1 b2 b3 in
    if (length text <? size)%nat then (Done 0, text ++ x00 :: drop (S (length text)) dst) else (Done UV_ENOSPC, dst).
Proof.
  intros Hsize. unfold inet_ntop4. do 4 (erewrite prog_bind_done by done). cbv zeta.
  pose proof (dotted_length b0 b1 b2 b3) as Hl. set (text := dotted b0 b1 b2 b3) in *.
  destruct (Z.leb_spec (Z.of_nat (length text)) 0); [lia |]. cbn [orb].
  destruct (Z.leb_spec (Z.of_nat size) (Z.of_nat (length text))), (Nat.ltb_spec (length text) size); try lia; [done |].
  rewrite take_ge by (change (Z.to_nat UV__INET_ADDRSTRLEN) with 16%nat; lia).
  erewrite prog_bind_done; [reflexivity |]. etransitivity; [apply (strscpy_run text []) |].
  - apply dotted_no_nul.
  - unfold SSIZE_MAX. lia.
  - lia.
  - unfold strscpy_result. destruct (Nat.eqb_spec size 0); [lia |]. destruct (Nat.ltb_spec (length text) size); [done | lia].
Qed.

(** The text of the octets before the current one. *)
Definition octets_text (os : list byte) : list byte := flat_map (fun b => utoa 10 (b2z b) ++ [x2e]) os.

(** What [inet_pton4] has read, when [os] are complete and [cur] is at [tp]. *)
Definition read4 (saw : bool) (os : list byte) (cur : byte) (text : list byte) : Prop :=
  text = octets_text os ++ (if saw then utoa 10 (b2z cur) else []) /\ (saw = false -> cur = x00).

Lemma read4_digit saw os cur text d :
  read4 saw os cur text -> 0 <= d < 10 -> saw && (b2z cur =? 0) = false -> b2z cur * 10 + d <= 255 ->
  read4 true os (z2b (b2z cur * 10 + d)) (text ++ [digit_char d]).
Proof.
  intros [-> Hcur] Hd Hz Hv. split; [| done]. rewrite b2z_z2b_small by blia. rewrite <- app_assoc. f_equal.
  destruct saw; cbn [andb app] in *.
  - apply Z.eqb_neq in Hz. rewrite utoa_snoc by blia. done.
  - rewrite Hcur, b2z_nul by done. rewrite utoa_digit by lia. done.
Qed.

Lemma read4_dot os cur text : read4 true os cur text -> read4 false (os ++ [cur]) x00 (text ++ [x2e]).
Proof.
  intros [-> _]. split; [| done]. unfold octets_text. rewrite flat_map_app. cbn [flat_map]. by rewrite !app_nil_r, !app_assoc.
Qed.

Definition saw_z (saw : bool) : Z := if saw then 1 else 0.

(** The loop keeps [read4], or refuses the text. *)
Lemma pton4_loop_reads text R saw os cur rest done_ :
  no_nul text -> read4 saw os cur done_ -> length (os ++ cur :: rest) = 4%nat ->
  match pton4_loop (text ++ x00 :: R) saw (Z.of_nat (length os) + saw_z saw) (length os) (os ++ cur :: rest) with
  | (Done (inl n), tmp) =>
      exists saw' os' cur' rest', tmp = os' ++ cur' :: rest' /\ length tmp = 4%nat /\
        n = Z.of_nat (length os') + saw_z saw' /\ read4 saw' os' cur' (done_ ++ text)
  | (Done (inr err), _) => err = UV_EINVAL
  | _ => False
  end.
Proof.
  intros Htext. revert saw os cur rest done_. induction Htext as [| ch text Hch _ IH]; intros saw os cur rest done_ Hread Hlen;
    cbn [pton4_loop app].
  { rewrite b2z_nul. cbn [Z.eqb]. exists saw, os, cur, rest. by rewrite app_nil_r. }
  assert (forall saw' os' cur' rest' done',
    read4 saw' os' cur' done' -> done' = done_ ++ [ch] -> length (os' ++ cur' :: rest') = 4%nat ->
    match pton4_loop (text ++ x00 :: R) saw' (Z.of_nat (length os') + saw_z saw') (length os') (os' ++ cur' :: rest') with
    | (Done (inl n), tmp) =>
        exists saw' os' cur' rest', tmp = os' ++ cur' :: rest' /\ length tmp = 4%nat /\
          n = Z.of_nat (length os') + saw_z saw' /\ read4 saw' os' cur' (done_ ++ ch :: text)
    | (Done (inr err), _) => err = UV_EINVAL
    | _ => False
    end) as Hnext.
  { intros saw' os' cur' rest' done' Hr -> Hl. specialize (IH saw' os' cur' rest' (done_ ++ [ch]) Hr Hl).
    rewrite <- app_assoc in IH. exact IH. }
  rewrite length_app in Hlen. cbn [length] in Hlen.
  destruct (Z.eqb_spec (b2z ch) 0); [done |]. destruct (digit_of digits ch) as [d |] eqn:Ed.
  - apply digit_of_inv in Ed as [Hd ->]; [| done]. erewrite prog_bind_done by done.
    erewrite prog_bind_done by (by apply char_at_mid). cbv zeta.
    destruct (saw && (b2z cur =? 0)) eqn:Ez; [done |]. destruct (Z.ltb_spec 255 (b2z cur * 10 + d)); [done |].
    erewrite prog_bind_done by (by apply set_at_mid).
    assert (read4 true os (z2b (b2z cur * 10 + d)) (done_ ++ [digit_char d])) as Hr by (by eapply read4_digit).
    assert (length (os ++ z2b (b2z cur * 10 + d) :: rest) = 4%nat) by (rewrite length_app; cbn [length]; lia).
    destruct saw; cbn [saw_z].
    + by eapply (Hnext true).
    + destruct (Z.ltb_spec 4 (Z.of_nat (length os) + 0 + 1)); [done |].
      replace (Z.of_nat (length os) + 0 + 1) with (Z.of_nat (length os) + saw_z true) by (cbn [saw_z]; lia).
      by eapply (Hnext true).
  - destruct (b2z ch =? 46) eqn:Edot; cbn [andb]; [| done]. destruct saw; [| done]. cbn [saw_z].
    destruct (Z.eqb_spec (Z.of_nat (length os) + 1) 4); [done |]. destruct rest as [| x rest]; cbn [length] in *; [lia |].
    change (os ++ cur :: x :: rest) with (os ++ [cur] ++ x :: rest). rewrite app_assoc.
    erewrite prog_bind_done by (apply set_at_mid; rewrite length_app; cbn [length]; lia).
    assert (ch = x2e) as -> by (apply b2z_inj; by apply Z.eqb_eq in Edot).
    replace (Z.of_nat (length os) + 1) with (Z.of_nat (length (os ++ [cur])) + saw_z false) by (rewrite length_app; cbn; lia).
    replace (S (length os)) with (length (os ++ [cur])) by (rewrite length_app; cbn; lia).
    eapply (Hnext false); [by apply read4_dot | done |]. rewrite !length_app. cbn [length]. lia.
Qed.

Lemma octets_text_dotted b0 b1 b2 b3 : octets_text [b0; b1; b2] ++ utoa 10 (b2z b3) = dotted b0 b1 b2 b3.
Proof. unfold octets_text, dotted. cbn [flat_map]. rewrite app_nil_r. by rewrite <- !app_assoc. Qed.

(** Four octets were read when the text is that of an address. *)
Lemma read4_complete saw os cur rest text :
  read4 saw os cur text -> length (os ++ cur :: rest) = 4%nat -> 4 <= Z.of_nat (length os) + saw_z saw ->
  exists b0 b1 b2 b3, os ++ cur :: rest = [b0; b1; b2; b3] /\ text = dotted b0 b1 b2 b3.
Proof.
  intros [-> _] Hlen Hn. rewrite length_app in Hlen. cbn [length] in Hlen.
  assert (saw = true) as -> by (destruct saw; cbn in *; [done | lia]). cbn [saw_z] in Hn.
  destruct os as [| b0 [| b1 [| b2 [| ? os]]]]; cbn [length] in *; try lia. destruct rest; cbn [length] in *; [| lia].
  exists b0, b1, b2, cur. by rewrite octets_text_dotted.
Qed.

(** An octet is read. *)
Lemma pton4_loop_octet b tail os cur rest :
  (length os <= 3)%nat -> cur = x00 ->
  pton4_loop (utoa 10 (b2z b) ++ tail) false (Z.of_nat (length os)) (length os) (os ++ cur :: rest) =
  pton4_loop tail true (Z.of_nat (length os) + 1) (length os) (os ++ b :: rest).
Proof.
  intros Hos ->. rewrite <- (z2b_b2z b) at 2.
  apply (utoa_ind 10 (fun v l => v < 256 -> forall tail,
    pton4_loop (l ++ tail) false (Z.of_nat (length os)) (length os) (os ++ x00 :: rest) =
    pton4_loop tail true (Z.of_nat (length os) + 1) (length os) (os ++ z2b v :: rest))); [lia | | | blia | blia].
  - intros d Hd _ t. cbn [app pton4_loop]. destruct (Z.eqb_spec (b2z (digit_char d)) 0); [exfalso; eapply digit_nonzero, e; lia |].
    rewrite digit_of_char by done. erewrite prog_bind_done by done. erewrite prog_bind_done by (by apply char_at_mid).
    cbv zeta. cbn [andb]. rewrite b2z_nul. destruct (Z.ltb_spec 255 (0 * 10 + d)); [lia |].
    erewrite prog_bind_done by (by apply set_at_mid). destruct (Z.ltb_spec 4 (Z.of_nat (length os) + 1)); [lia | done].
  - intros v d l Hv Hd _ IH Hvd t. rewrite <- app_assoc, IH by lia. cbn [app pton4_loop].
    destruct (Z.eqb_spec (b2z (digit_char d)) 0); [exfalso; eapply digit_nonzero, e; lia |].
    rewrite digit_of_char by done. erewrite prog_bind_done by done. erewrite prog_bind_done by (by apply char_at_mid).
    cbv zeta. cbn [andb]. rewrite b2z_z2b_small by lia. destruct (Z.eqb_spec v 0); [lia |].
    destruct (Z.ltb_spec 255 (v * 10 + d)); [lia |]. by erewrite prog_bind_done by (by apply set_at_mid).
Qed.

(** And the dot after it. *)
Lemma pton4_loop_dot tail os cur x rest :
  (length os < 3)%nat ->
  pton4_loop (x2e :: tail) true (Z.of_nat (length os) + 1) (length os) (os ++ cur :: x :: rest) =
  pton4_loop tail false (Z.of_nat (length (os ++ [cur]))) (length (os ++ [cur])) ((os ++ [cur]) ++ x00 :: rest).
Proof.
  intros Hos. cbn [pton4_loop]. change (b2z x2e =? 0) with false. cbv iota.
  change (digit_of digits x2e) with (@None Z). cbv iota. change (b2z x2e =? 46) with true. cbn [andb].
  destruct (Z.eqb_spec (Z.of_nat (length os) + 1) 4); [lia |].
  change (os ++ cur :: x :: rest) with (os ++ [cur] ++ x :: rest). rewrite app_assoc.
  erewrite prog_bind_done by (apply set_at_mid; rewrite length_app; cbn [length]; lia).
  replace (Z.of_nat (length os) + 1) with (Z.of_nat (length (os ++ [cur]))) by (rewrite length_app; cbn; lia).
  by replace (S (length os)) with (length (os ++ [cur])) by (rewrite length_app; cbn; lia).
Qed.

Lemma pton4_loop_dotted b0 b1 b2 b3 R j1 j2 j3 :
  pton4_loop (dotted b0 b1 b2 b3 ++ x00 :: R) false 0 0 [x00; j1; j2; j3] = (Done (inl 4), [b0; b1; b2; b3]).
Proof.
  unfold dotted. repeat (rewrite <- app_assoc; cbn [app]).
  etransitivity; [apply (pton4_loop_octet b0 _ [] x00 [j1; j2; j3]); cbn; (done || lia) |].
  etransitivity; [apply (pton4_loop_dot _ [] b0 j1 [j2; j3]); cbn; lia |].
  etransitivity; [apply (pton4_loop_octet b1 _ [b0] x00 [j2; j3]); cbn; (done || lia) |].
  etransitivity; [apply (pton4_loop_dot _ [b0] b1 j2 [j3]); cbn; lia |].
  etransitivity; [apply (pton4_loop_octet b2 _ [b0; b1] x00 [j3]); cbn; (done || lia) |].
  etransitivity; [apply (pton4_loop_dot _ [b0; b1] b2 j3 []); cbn; lia |].
  etransitivity; [apply (pton4_loop_octet b3 _ [b0; b1; b2] x00 []); cbn; (done || lia) |].
  done.
Qed.

(** [inet_pton4] reads the text of an address. *)
Lemma inet_pton4_dotted junk b0 b1 b2 b3 R dst :
  (4 <= length dst)%nat ->
  inet_pton4 junk (dotted b0 b1 b2 b3 ++ x00 :: R) dst = (Done 0, [b0; b1; b2; b3] ++ drop 4 dst).
Proof.
  intros Hdst. unfold inet_pton4. cbn [repeat]. erewrite prog_bind_done by done. cbn [insert list_insert].
  rewrite pton4_loop_dotted. change (4 <? 4) with false. cbv iota.
  by erewrite prog_bind_done by (by apply memcpy_start).
Qed.

(** It reads nothing else, and then leaves [dst] alone. *)
Lemma inet_pton4_cases junk text R dst :
  no_nul text -> (4 <= length dst)%nat ->
  (exists b0 b1 b2 b3, text = dotted b0 b1 b2 b3 /\
     inet_pton4 junk (text ++ x00 :: R) dst = (Done 0, [b0; b1; b2; b3] ++ drop 4 dst)) \/
  ((forall b0 b1 b2 b3, text <> dotted b0 b1 b2 b3) /\ inet_pton4 junk (text ++ x00 :: R) dst = (Done UV_EINVAL, dst)).
Proof.
  intros Htext Hdst.
  assert (read4 false [] x00 []) as Hread by (split; [done | intros; done]).
  pose proof (pton4_loop_reads text R false [] x00 [junk; junk; junk] [] Htext Hread ltac:(done)) as Hloop.
  cbn [app length] in Hloop. change (Z.of_nat 0 + saw_z false) with 0 in Hloop.
  assert (inet_pton4 junk (text ++ x00 :: R) dst = (Done UV_EINVAL, dst) \/
    exists b0 b1 b2 b3, text = dotted b0 b1 b2 b3) as Hdisj.
  { unfold inet_pton4. cbn [repeat]. erewrite !prog_bind_done by done. cbn [insert list_insert].
    destruct (pton4_loop _ _ _ _ _) as [[[n | err] | | |] tmp]; try done; [| left; by rewrite Hloop].
    destruct Hloop as (saw & os & cur & rest & -> & Hlen & -> & Hr).
    destruct (Z.ltb_spec (Z.of_nat (length os) + saw_z saw) 4); [by left | right].
    destruct (read4_complete _ _ _ _ _ Hr Hlen) as (b0 & b1 & b2 & b3 & _ & ->); [done |]. eauto. }
  destruct Hdisj as [Hno | (b0 & b1 & b2 & b3 & ->)].
  - right. split; [| done]. intros b0 b1 b2 b3 ->. by rewrite inet_pton4_dotted in Hno.
  - left. exists b0, b1, b2, b3. split; [done |]. by apply inet_pton4_dotted.
Qed.
