(* ===== verification/Inet6.v ===== *)
(** * IPv6 addresses

    The words of an address, its longest run of zeros, its text, and the parser on
    that text. *)

From S2P Require Import Prelude Crypto UvErrno Digits Inet InetProps.

(** ** Words *)

Fixpoint words_of (src : list byte) : list Z :=
  match src with
  | hi :: lo :: src => b2z hi * 256 + b2z lo :: words_of src
  | _ => []
  end.

Definition word_bytes (w : Z) : list byte := [z2b ((w .>> 8) .& 255); z2b (w .& 255)].
Definition bytes_of (ws : list Z) : list byte := flat_map word_bytes ws.

Definition is_word (w : Z) : Prop := 0 <= w < 65536.

Lemma length_bytes_of ws : length (bytes_of ws) = (2 * length ws)%nat.
Proof. induction ws as [| w ws IH]; [done |]. unfold bytes_of in *. cbn [flat_map]. rewrite length_app, IH. cbn [length word_bytes]. lia. Qed.

Lemma bytes_of_app ws ws' : bytes_of (ws ++ ws') = bytes_of ws ++ bytes_of ws'.
Proof. apply flat_map_app. Qed.

Lemma bytes_of_zeros n : bytes_of (repeat 0 n) = repeat x00 (2 * n).
Proof.
  induction n as [| n IH]; [done |]. replace (2 * S n)%nat with (S (S (2 * n))) by lia. cbn [repeat].
  change (bytes_of (0 :: repeat 0 n)) with (word_bytes 0 ++ bytes_of (repeat 0 n)). by rewrite IH.
Qed.

Lemma words_of_facts n src :
  length src = (2 * n)%nat -> length (words_of src) = n /\ Forall is_word (words_of src) /\ bytes_of (words_of src) = src.
Proof.
  revert src. induction n as [| n IH]; intros src Hl.
  { destruct src; [done | cbn in Hl; lia]. }
  destruct src as [| hi [| lo src]]; cbn [length] in *; try lia. destruct (IH src ltac:(lia)) as (H1 & H2 & H3).
  cbn [words_of length]. split; [lia |]. split; [constructor; [unfold is_word; blia | done] |].
  change (bytes_of (?w :: ?l)) with (word_bytes w ++ bytes_of l). rewrite H3. unfold word_bytes.
  rewrite !land_ff, !z2b_mod, Z.shiftr_div_pow2 by lia. change (2 ^ 8) with 256.
  rewrite Z.div_add_l, (Z.div_small (b2z lo)), Z.add_0_r, z2b_b2z by blia.
  rewrite <- (z2b_mod (_ + _)), Z.add_comm, Z.mod_add, z2b_mod, z2b_b2z by lia. done.
Qed.

Lemma or_word hi lo : (0 .| (b2z hi .<< 8)) .| (b2z lo .<< 0) = b2z hi * 256 + b2z lo.
Proof. rewrite Z.lor_0_l, Z.shiftl_0_r, lor_shl by blia. done. Qed.

Lemma words_loop_run src more : length src = 16%nat -> words_loop 16 0 (src ++ more) (repeat 0 8) = Some (words_of src).
Proof.
  intros Hl. do 16 (destruct src as [| ? src]; [done |]). destruct src; [| done].
  cbn [words_of]. rewrite <- !or_word. reflexivity.
Qed.

(** ** The longest run of zeros *)

(** There are [l] zeros from [i] on. *)
Definition zeros_at (ws : list Z) (i l : nat) : bool :=
  (i + l <=? length ws)%nat && forallb (fun w => w =? 0) (take l (drop i ws)).

(** The first of the longest runs, and it has two words at least. *)
Definition run_ok (ws : list Z) (r : zrun) : bool :=
  if base r =? -1 then
    forallb (fun i => negb (zeros_at ws i 2)) (seq 0 (length ws))
  else
    (0 <=? base r) && (2 <=? len r) && (base r + len r <=? Z.of_nat (length ws)) &&
    zeros_at ws (Z.to_nat (base r)) (Z.to_nat (len r)) &&
    forallb (fun i => negb (zeros_at ws i (Z.to_nat (len r) + (if (Z.of_nat i <? base r) then 0 else 1)))) (seq 0 (length ws)).

Definition zero_one (w : Z) : Z := if w =? 0 then 0 else 1.

Lemma zero_one_eqb w : (zero_one w =? 0) = (w =? 0).
Proof. unfold zero_one. by destruct (w =? 0). Qed.

Lemma runs_loop_zero_one i ws b c : runs_loop i (zero_one <$> ws) b c = runs_loop i ws b c.
Proof.
  revert i b c. induction ws as [| w ws IH]; intros i b c; [done |]. cbn [fmap list_fmap runs_loop]. rewrite zero_one_eqb.
  destruct (w =? 0); [apply IH |]. destruct (negb _); apply IH.
Qed.

Lemma forallb_zero_one ws : forallb (fun w => w =? 0) (zero_one <$> ws) = forallb (fun w => w =? 0) ws.
Proof. induction ws as [| w ws IH]; [done |]. cbn [fmap list_fmap forallb]. by rewrite zero_one_eqb, <- IH. Qed.

Lemma zeros_at_zero_one ws i l : zeros_at (zero_one <$> ws) i l = zeros_at ws i l.
Proof. unfold zeros_at. by rewrite length_fmap, <- fmap_drop, <- fmap_take, forallb_zero_one. Qed.

Lemma run_ok_zero_one ws r : run_ok (zero_one <$> ws) r = run_ok ws r.
Proof.
  unfold run_ok. rewrite length_fmap, zeros_at_zero_one.
  assert (forall (f g : nat -> nat) n, forallb (fun i => negb (zeros_at (zero_one <$> ws) (f i) (g i))) n =
    forallb (fun i => negb (zeros_at ws (f i) (g i))) n) as Hf.
  { intros f g n. induction n as [| i n IH]; [done |]. cbn [forallb]. by rewrite zeros_at_zero_one, IH. }
  by rewrite (Hf id (fun _ => 2%nat)), (Hf id (fun i : nat => (Z.to_nat (len r) + (if (Z.of_nat i <? base r)%Z then 0 else 1))%nat)).
Qed.

(** All the lists of [n] zeros and ones. *)
Fixpoint patterns (n : nat) : list (list Z) :=
  match n with
  | O => [[]]
  | S n => flat_map (fun l => [0 :: l; 1 :: l]) (patterns n)
  end.

Lemma patterns_complete ws : In (zero_one <$> ws) (patterns (length ws)).
Proof.
  induction ws as [| w ws IH]; [by left |]. cbn [fmap list_fmap length patterns]. apply in_flat_map. eexists. split; [exact IH |].
  unfold zero_one. destruct (w =? 0); [by left | by right; left].
Qed.

Lemma best_run_ok ws : length ws = 8%nat -> run_ok ws (best_run ws) = true.
Proof.
  intros Hl. rewrite <- run_ok_zero_one. unfold best_run. rewrite <- (runs_loop_zero_one 0 ws).
  pose proof (patterns_complete ws) as Hin. rewrite Hl in Hin. revert Hin. generalize (zero_one <$> ws). apply forallb_forall.
  by vm_compute.
Qed.

Lemma zeros_at_le ws i l l' : (l' <= l)%nat -> zeros_at ws i l = true -> zeros_at ws i l' = true.
Proof.
  unfold zeros_at. intros Hl [H1%Nat.leb_le H2]%andb_prop. apply andb_true_intro. split; [apply Nat.leb_le; lia |].
  replace l' with (Nat.min l' l) by lia. rewrite <- take_take. revert H2. generalize (take l (drop i ws)). clear.
  induction l' as [| l' IH]; intros [| w ws]; cbn [take forallb]; try done. intros [-> H]%andb_prop. by rewrite IH.
Qed.

Lemma zeros_at_repeat ws i l : zeros_at ws i l = true -> take l (drop i ws) = repeat 0 l.
Proof.
  unfold zeros_at. intros [H1%Nat.leb_le H2]%andb_prop. assert (length (take l (drop i ws)) = l) as Hl.
  { rewrite length_take, length_drop. lia. }
  revert H2 Hl. generalize (take l (drop i ws)). clear. intros ws. revert l.
  induction ws as [| w ws IH]; intros [| l] H Hl; cbn in *; try done. apply andb_prop in H as [->%Z.eqb_eq H]. f_equal. apply IH; [done | lia].
Qed.

(** The run that the text leaves out: none when no two words in a row are zero, and otherwise
    the first of the longest. *)
Lemma best_run_facts ws :
  length ws = 8%nat ->
  (base (best_run ws) = -1 /\ forall i l, zeros_at ws i l = true -> (l <= 1)%nat) \/
  (exists b l : nat, best_run ws = mk_zrun (Z.of_nat b) (Z.of_nat l) /\ (2 <= l)%nat /\ (b + l <= 8)%nat /\
     ws = take b ws ++ repeat 0 l ++ drop (b + l) ws /\
     forall i l', zeros_at ws i l' = true -> (l' < l \/ l' = l /\ b <= i)%nat).
Proof.
  intros Hl. pose proof (best_run_ok ws Hl) as Hok. destruct (best_run ws) as [b l]. unfold run_ok in Hok. cbn [base len] in *.
  assert (forall i m, zeros_at ws i (S m) = true -> In i (seq 0 (length ws))) as Hin.
  { intros i m [H%Nat.leb_le _]%andb_prop. apply in_seq. lia. }
  destruct (Z.eqb_spec b (-1)) as [-> | Hb].
  - left. split; [done |]. intros i m Hz. destruct (decide (m <= 1)%nat) as [| Hm]; [done | exfalso].
    rewrite forallb_forall in Hok. assert (zeros_at ws i 2 = true) as Hz2 by (eapply zeros_at_le; [| done]; lia).
    specialize (Hok i (Hin _ _ Hz2)). by rewrite Hz2 in Hok.
  - right. repeat apply andb_prop in Hok as [Hok ?]. rewrite !Z.leb_le in *. exists (Z.to_nat b), (Z.to_nat l).
    rewrite !Z2Nat.id by lia. split; [done |]. split; [lia |]. split; [lia |]. split.
    + rewrite <- (zeros_at_repeat ws (Z.to_nat b) (Z.to_nat l)) by done. rewrite <- drop_drop, take_drop, take_drop. done.
    + intros i m Hz. rewrite forallb_forall in *.
      destruct (decide (m < Z.to_nat l \/ m = Z.to_nat l /\ Z.to_nat b <= i)%nat) as [| Hm]; [done | exfalso].
      assert (zeros_at ws i (Z.to_nat l + (if (Z.of_nat i <? b)%Z then 0 else 1)) = true) as Hz2.
      { eapply zeros_at_le; [| done]. destruct (Z.ltb_spec (Z.of_nat i) b); lia. }
      assert (In i (seq 0 (length ws))) as Hi.
      { apply (Hin i 0%nat). eapply zeros_at_le; [| done]. lia. }
      specialize (H i Hi). by rewrite Hz2 in H.
Qed.

(** ** To text *)

Definition colon_text (ws : list Z) : list byte := flat_map (fun w => x3a :: utoa 16 w) ws.

(** The groups, with colons between them. *)
Definition joined (ws : list Z) : list byte :=
  match ws with
  | [] => []
  | w :: ws => utoa 16 w ++ colon_text ws
  end.

Definition sep (i : Z) : list byte := if i =? 0 then [] else [x3a].

Fixpoint plain (i : Z) (ws : list Z) : list byte :=
  match ws with
  | [] => []
  | w :: ws => sep i ++ utoa 16 w ++ plain (i + 1) ws
  end.

Lemma plain_colon i ws : 0 < i -> plain i ws = colon_text ws.
Proof.
  revert i. induction ws as [| w ws IH]; intros i Hi; [done |]. cbn [plain]. unfold sep at 1. destruct (Z.eqb_spec i 0); [lia |].
  rewrite IH by lia. done.
Qed.

Lemma plain_joined ws : plain 0 ws = joined ws.
Proof. destruct ws as [| w ws]; [done |]. cbn [plain joined]. rewrite plain_colon by lia. done. Qed.

Lemma group_length w : is_word w -> (1 <= length (utoa 16 w) <= 4)%nat.
Proof.
  unfold is_word. intros Hw. split.
  - pose proof (utoa_not_nil 16 w ltac:(lia) ltac:(lia)). destruct (utoa 16 w); [done | cbn [length]; lia].
  - apply utoa_length; lia.
Qed.

Lemma plain_length i ws : Forall is_word ws -> (length (plain i ws) <= 5 * length ws)%nat.
Proof.
  intros Hws. revert i. induction Hws as [| w ws Hw _ IH]; intros i; [done |]. cbn [plain length]. rewrite !length_app.
  pose proof (group_length w Hw). specialize (IH (i + 1)). unfold sep. destruct (i =? 0); cbn [length]; lia.
Qed.

Definition inside (best : zrun) (i : Z) : bool :=
  negb (base best =? -1) && (base best <=? i) && (i <? base best + len best).

Definition v4_here (all : list Z) (best : zrun) (i : Z) : bool :=
  (i =? 6) && (base best =? 0)
  && ((len best =? 6) || ((len best =? 7) && negb (bool_decide (all !! 7%nat = Some 1)))
      || ((len best =? 5) && bool_decide (all !! 5%nat = Some 65535))).

Section Format.
Variables (src : list byte) (all : list Z) (best : zrun).

(** Words outside the run. *)
Lemma format_plain i A rest T R :
  (forall j, i <= j < i + Z.of_nat (length A) -> inside best j = false /\ v4_here all best j = false) ->
  Forall is_word A -> (5 * length A < length R)%nat ->
  exists R', format_loop i src all (A ++ rest) best (length T) (T ++ R) =
    format_loop (i + Z.of_nat (length A)) src all rest best (length (T ++ plain i A)) ((T ++ plain i A) ++ R') /\
    (length (plain i A) + length R' = length R)%nat.
Proof.
  intros Hj HA. revert i T R Hj. induction HA as [| w A Hw _ IH]; intros i T R Hj HR.
  { exists R. cbn [plain length app]. by rewrite Z.add_0_r, app_nil_r. }
  cbn [length] in *. destruct (Hj i ltac:(lia)) as [Hin Hv]. pose proof (group_length w Hw) as Hg.
  assert (exists R1, (if negb (i =? 0) then push x3a (length T) else mret (length T)) (T ++ R) =
    (Done (length (T ++ sep i)), (T ++ sep i) ++ R1) /\ (length (sep i) + length R1 = length R)%nat) as (R1 & E1 & HR1).
  { unfold sep. destruct (i =? 0); cbn [negb]; [exists R; by rewrite app_nil_r |].
    destruct R as [| x R]; [cbn in HR; lia |]. exists R. by rewrite push_run. }
  assert (length (sep i) <= 1)%nat by (unfold sep; destruct (i =? 0); cbn; lia).
  destruct (sprintf_x_run w (length (T ++ sep i)) (T ++ sep i) R1 eq_refl ltac:(lia)) as (R2 & E2 & HR2).
  destruct (IH (i + 1) ((T ++ sep i) ++ utoa 16 w) R2) as (R3 & E3 & HR3).
  { intros j Hjj. apply Hj. lia. }
  { lia. }
  exists R3. cbn [plain]. split; [| rewrite !length_app; lia].
  cbn [app format_loop]. fold (inside best i). rewrite Hin. erewrite prog_bind_done by exact E1. fold (v4_here all best i). rewrite Hv.
  erewrite prog_bind_done by exact E2. rewrite E3, <- !app_assoc.
  f_equal. lia.
Qed.

(** The rest of the run. *)
Lemma format_inside i A rest tp b :
  (forall j, i <= j < i + Z.of_nat (length A) -> inside best j = true) -> base best < i ->
  format_loop i src all (A ++ rest) best tp b = format_loop (i + Z.of_nat (length A)) src all rest best tp b.
Proof.
  revert i. induction A as [| w A IH]; intros i Hj Hi; cbn [length app] in *; [by rewrite Z.add_0_r |].
  cbn [format_loop]. fold (inside best i). rewrite Hj by lia. destruct (Z.eqb_spec i (base best)); [lia |].
  erewrite prog_bind_done by done. rewrite IH; [f_equal; lia | intros; apply Hj; lia | lia].
Qed.

(** All of it: one colon. *)
Lemma format_run A rest T x R :
  A <> [] -> 0 <= base best -> len best = Z.of_nat (length A) ->
  format_loop (base best) src all (A ++ rest) best (length T) (T ++ x :: R) =
  format_loop (base best + len best) src all rest best (length (T ++ [x3a])) ((T ++ [x3a]) ++ R).
Proof.
  intros HA Hb Hl. destruct A as [| w A]; [done |]. cbn [length] in *.
  assert (forall j, base best <= j < base best + len best -> inside best j = true) as Hin.
  { intros j Hj. unfold inside. destruct (Z.eqb_spec (base best) (-1)); [lia |]. cbn [negb andb].
    apply andb_true_intro. by rewrite Z.leb_le, Z.ltb_lt. }
  cbn [app format_loop]. fold (inside best (base best)). rewrite Hin by lia. rewrite Z.eqb_refl.
  erewrite prog_bind_done by (by apply push_run). rewrite format_inside; [f_equal; lia | | lia]. intros j Hj. apply Hin. lia.
Qed.
End Format.

(** The dotted form of the last four bytes. *)
Definition v4_text (src : list byte) : list byte :=
  match drop 12 src with
  | [b0; b1; b2; b3] => dotted b0 b1 b2 b3
  | _ => []
  end.

(** The address is an IPv4 address in six words of zeros, or in five and [ffff]. *)
Definition v4_tail (ws : list Z) (b l : nat) : bool :=
  (b =? 0)%nat && ((l =? 6)%nat || ((l =? 5)%nat && bool_decide (ws !! 5%nat = Some 65535))).

Definition tail_text (src : list byte) (ws : list Z) (b l : nat) : list byte :=
  if v4_tail ws b l then flat_map (fun w => utoa 16 w ++ [x3a]) (take (6 - l) (drop l ws)) ++ v4_text src
  else joined (drop (b + l) ws).

(** The text of an address (RFC 5952): the words in base 16, without the run. *)
Definition text6 (src : list byte) : list byte :=
  let ws := words_of src in
  let r := best_run ws in
  if base r =? -1 then joined ws
  else joined (take (Z.to_nat (base r)) ws) ++ [x3a; x3a] ++ tail_text src ws (Z.to_nat (base r)) (Z.to_nat (len r)).

Lemma v4_text_facts src : length src = 16%nat ->
  exists b0 b1 b2 b3, drop 12 src = [b0; b1; b2; b3] /\ v4_text src = dotted b0 b1 b2 b3.
Proof.
  intros Hl. do 16 (destruct src as [| ? src]; [done |]). destruct src; [| done]. unfold v4_text. cbn [drop]. eauto 10.
Qed.

Lemma format_v4 src all best w rest T R :
  length src = 16%nat -> inside best 6 = false -> v4_here all best 6 = true ->
  (17 <= length R)%nat -> (length T + length R = 46)%nat ->
  exists R', format_loop 6 src all (w :: rest) best (length T) (T ++ R) =
    (Done (inl (length (T ++ x3a :: v4_text src))), (T ++ x3a :: v4_text src) ++ x00 :: R') /\
    (length (v4_text src) + 2 + length R' = length R)%nat.
Proof.
  intros Hsrc Hin Hv HR Hlen. destruct (v4_text_facts src Hsrc) as (b0 & b1 & b2 & b3 & Hd & ->).
  destruct R as [| x R]; [cbn in HR; lia |]. cbn [length] in *. cbn [format_loop]. fold (inside best 6). rewrite Hin.
  change (negb (6 =? 0)) with true. cbv iota. erewrite prog_bind_done by (by apply push_run).
  fold (v4_here all best 6). rewrite Hv. erewrite prog_bind_done by done.
  pose proof (dotted_length b0 b1 b2 b3) as Hdl. pose proof (dotted_no_nul b0 b1 b2 b3) as Hdn.
  set (text := dotted b0 b1 b2 b3) in *. set (T1 := T ++ [x3a]).
  assert (length T1 = S (length T)) as HT1 by (unfold T1; rewrite length_app; cbn; lia).
  exists (drop (S (length text)) R). replace (T ++ x3a :: text) with (T1 ++ text) by (unfold T1; by rewrite <- app_assoc).
  erewrite prog_bind_done.
  2: { unfold from_tp. rewrite drop_app_length, take_app_length, Hd.
       rewrite inet_ntop4_run by (change (Z.to_nat UV__INET6_ADDRSTRLEN) with 46%nat; lia). cbv zeta. fold text.
       destruct (Nat.ltb_spec (length text) (Z.to_nat UV__INET6_ADDRSTRLEN - length T1)) as [_ | Hge];
         [reflexivity | change (Z.to_nat UV__INET6_ADDRSTRLEN) with 46%nat in Hge; lia]. }
  change (negb (0 =? 0)) with false. cbv iota. erewrite prog_bind_done by done.
  rewrite drop_app_length, strlen_text by done. split; [by rewrite length_app, <- app_assoc |].
  rewrite length_drop. lia.
Qed.

Lemma v4_here_tail ws b l j :
  (2 <= l)%nat -> Z.of_nat (b + l) <= j -> v4_here ws (mk_zrun (Z.of_nat b) (Z.of_nat l)) j = (j =? 6) && v4_tail ws b l.
Proof.
  intros Hl Hj. unfold v4_here, v4_tail. cbn [base len]. destruct (Z.eqb_spec j 6) as [-> |]; cbn [andb]; [| done].
  assert (forall n k : nat, (Z.of_nat n =? Z.of_nat k) = (n =? k)%nat) as He.
  { intros n k. destruct (Nat.eqb_spec n k); by case_bool; try lia. }
  change 0 with (Z.of_nat 0). change 6 with (Z.of_nat 6). change 7 with (Z.of_nat 7). change 5 with (Z.of_nat 5). rewrite !He.
  destruct (Nat.eqb_spec l 7); [lia |]. cbn [andb]. by rewrite orb_false_r.
Qed.

Lemma inside_before b l j : (2 <= l)%nat -> 0 <= j < Z.of_nat b -> inside (mk_zrun (Z.of_nat b) (Z.of_nat l)) j = false.
Proof.
  intros Hl Hj. unfold inside. cbn [base len]. destruct (Z.leb_spec (Z.of_nat b) j); [lia |]. by rewrite andb_false_r.
Qed.

Lemma inside_after b l j : Z.of_nat (b + l) <= j -> inside (mk_zrun (Z.of_nat b) (Z.of_nat l)) j = false.
Proof.
  intros Hj. unfold inside. cbn [base len]. destruct (Z.ltb_spec j (Z.of_nat b + Z.of_nat l)); [lia |]. by rewrite andb_false_r.
Qed.

(** The words after the run, and the colon of a run at the end. *)
Lemma format_tail src ws b l T R :
  length src = 16%nat -> length ws = 8%nat -> Forall is_word ws ->
  (2 <= l)%nat -> (b + l <= 8)%nat -> (length T <= 5 * b + 1)%nat -> (length T + length R = 46)%nat ->
  let best := mk_zrun (Z.of_nat b) (Z.of_nat l) in
  exists R',
    format_loop (Z.of_nat (b + l)) src ws (drop (b + l) ws) best (length T) (T ++ R) =
      (Done (inl (length (T ++ (if (b + l =? 8)%nat then [] else [x3a]) ++ tail_text src ws b l))),
       (T ++ (if (b + l =? 8)%nat then [] else [x3a]) ++ tail_text src ws b l) ++ R') /\
    (length ((if (b + l =? 8)%nat then [] else [x3a]) ++ tail_text src ws b l) + length R' = length R)%nat /\ (2 <= length R')%nat.
Proof.
  intros Hsrc Hws Hw Hl Hbl HT HR best. set (B := drop (b + l) ws).
  assert (length B = (8 - (b + l))%nat) as HB by (unfold B; rewrite length_drop; lia).
  assert (Forall is_word B) as HBw by (by apply Forall_drop).
  unfold tail_text. destruct (v4_tail ws b l) eqn:Ev.
  - assert (b = 0 /\ (l = 5 \/ l = 6))%nat as [-> Hl56].
    { unfold v4_tail in Ev. apply andb_prop in Ev as [->%Nat.eqb_eq Ev]. split; [done |].
      apply orb_prop in Ev as [Ev%Nat.eqb_eq | [Ev%Nat.eqb_eq _]%andb_prop]; lia. }
    destruct (v4_text_facts src Hsrc) as (b0 & b1 & b2 & b3 & _ & Hv4).
    pose proof (dotted_length b0 b1 b2 b3) as Hdl. rewrite <- Hv4 in Hdl. cbn [Nat.add] in *. fold B.
    destruct (Nat.eqb_spec l 8); [lia |].
    destruct Hl56 as [-> | ->]; cbn [Nat.sub] in *.
    + destruct B as [| w5 [| w6 [| w7 []]]] eqn:EB; cbn [length] in HB; try lia. cbn [take flat_map].
      inversion HBw as [| ? ? Hw5 _]; subst. pose proof (group_length w5 Hw5) as Hg.
      destruct (format_plain src ws best 5 [w5] [w6; w7] T R) as (R1 & E1 & HR1).
      { intros j Hj. cbn [length] in Hj. split; [by apply inside_after; lia |]. unfold best. rewrite v4_here_tail by lia.
        destruct (Z.eqb_spec j 6); [lia | done]. }
      { by constructor. }
      { cbn [length]. lia. }
      change (plain 5 [w5]) with (x3a :: utoa 16 w5 ++ []) in *. rewrite app_nil_r in *. cbn [length] in *.
      destruct (format_v4 src ws best w6 [w7] (T ++ x3a :: utoa 16 w5) R1) as (R2 & E2 & HR2).
      { done. }
      { by apply inside_after. }
      { unfold best. rewrite v4_here_tail by lia. done. }
      { lia. }
      { rewrite length_app. cbn [length]. lia. }
      exists (x00 :: R2). change ([w5; w6; w7]) with ([w5] ++ [w6; w7]). change (Z.of_nat 5) with 5. rewrite E1.
      change (5 + Z.of_nat 1) with 6. rewrite E2. cbn [app length].
      replace (T ++ x3a :: (utoa 16 w5 ++ [x3a]) ++ v4_text src) with ((T ++ x3a :: utoa 16 w5) ++ x3a :: v4_text src)
        by (rewrite <- !app_assoc; done).
      split; [done |]. rewrite !length_app. cbn [length]. lia.
    + destruct B as [| w6 [| w7 []]] eqn:EB; cbn [length] in HB; try lia. cbn [take flat_map app].
      destruct (format_v4 src ws best w6 [w7] T R) as (R2 & E2 & HR2); try done; try lia.
      exists (x00 :: R2). change (Z.of_nat 6) with 6. rewrite E2. split; [done |]. cbn [length]. lia.
  - pose proof (plain_length (Z.of_nat (b + l)) B HBw) as Hpl.
    destruct (format_plain src ws best (Z.of_nat (b + l)) B [] T R) as (R1 & E1 & HR1).
    { intros j Hj. split; [apply inside_after; lia |]. unfold best. rewrite v4_here_tail, Ev by lia. apply andb_false_r. }
    { done. }
    { lia. }
    fold B. rewrite app_nil_r in E1. rewrite E1. cbn [format_loop]. rewrite plain_colon in * by lia.
    assert ((if (b + l =? 8)%nat then [] else [x3a]) ++ joined B = colon_text B) as Hj.
    { destruct (Nat.eqb_spec (b + l) 8), B; cbn [length] in HB; try lia; done. }
    rewrite Hj. exists R1. split; [done |]. split; [done |]. lia.
Qed.

Lemma format6_end src best T R (colon : bool) buf :
  (2 <= length R)%nat -> colon = negb (base best =? -1) && (base best + len best =? 8) ->
  format_loop 0 src (words_of src) (words_of src) best 0 buf = (Done (inl (length T)), T ++ R) -> best = best_run (words_of src) ->
  exists R', format6 src (words_of src) buf = (Done 0, (T ++ if colon then [x3a] else []) ++ x00 :: R') /\
    (length (if colon then [x3a] else []) + 1 + length R' = length R)%nat.
Proof.
  intros HR -> E ->. unfold format6. erewrite prog_bind_done by exact E. cbv iota.
  destruct R as [| x [| y R]]; cbn [length] in *; [lia | lia |].
  destruct (negb _ && _); [erewrite prog_bind_done by (by apply push_run) | erewrite prog_bind_done by done].
  - erewrite prog_bind_done by (by apply push_run). exists R. rewrite <- !app_assoc. split; [done | cbn [length]; lia].
  - erewrite prog_bind_done by (by apply push_run). exists (y :: R). rewrite <- !app_assoc. split; [done | cbn [length]; lia].
Qed.

(** [tmp] holds the text and fits. *)
Lemma format6_run junk src :
  length src = 16%nat ->
  exists R, format6 src (words_of src) (repeat junk 46) = (Done 0, text6 src ++ x00 :: R) /\
    (length (text6 src) + 1 + length R = 46)%nat.
Proof.
  intros Hsrc. destruct (words_of_facts 8 src Hsrc) as (Hws & Hw & _). set (ws := words_of src) in *.
  unfold text6. fold ws. destruct (best_run_facts ws Hws) as [[Hb _] | (b & l & Hr & Hl & Hbl & Hsplit & _)].
  - rewrite Hb. change (-1 =? -1) with true. cbv iota.
    destruct (format_plain src ws (best_run ws) 0 ws [] [] (repeat junk 46)) as (R1 & E1 & HR1).
    { intros j Hj. unfold inside, v4_here. rewrite Hb. change (-1 =? 0) with false. by rewrite andb_false_r. }
    { done. }
    { rewrite Hws, repeat_length. lia. }
    rewrite app_nil_r in E1. cbn [length app] in E1. pose proof (plain_length 0 ws Hw) as Hpl. rewrite plain_joined in *.
    rewrite Hws in Hpl. rewrite repeat_length in HR1.
    destruct (format6_end src (best_run ws) (joined ws) R1 false (repeat junk 46)) as (R2 & E2 & HR2); try done; [lia | by rewrite Hb |].
    rewrite app_nil_r in E2. exists R2. split; [done |]. cbn [length] in HR2. lia.
  - rewrite Hr. cbn [base len]. destruct (Z.eqb_spec (Z.of_nat b) (-1)); [lia |]. rewrite !Nat2Z.id.
    set (best := mk_zrun (Z.of_nat b) (Z.of_nat l)) in *. set (A := take b ws).
    assert (length A = b) as HA by (unfold A; rewrite length_take; lia).
    destruct (format_plain src ws best 0 A (repeat 0 l ++ drop (b + l) ws) [] (repeat junk 46)) as (R1 & E1 & HR1).
    { intros j Hj. rewrite HA in Hj. split; [apply inside_before; lia |]. unfold v4_here. destruct (Z.eqb_spec j 6); [| done].
      cbn [base best]. destruct (Z.eqb_spec (Z.of_nat b) 0); [lia | done]. }
    { by apply Forall_take. }
    { rewrite HA, repeat_length. lia. }
    assert (Forall is_word A) as HAw by (by apply Forall_take).
    pose proof (plain_length 0 A HAw) as Hpl. rewrite plain_joined, HA in *. rewrite repeat_length in HR1. cbn [app length] in E1.
    destruct R1 as [| x R1]; [cbn [length] in HR1; lia |].
    pose proof (format_run src ws best (repeat 0 l) (drop (b + l) ws) (joined A) x R1) as E2.
    assert (repeat 0 l <> []) as Hne by (destruct l; [lia | done]).
    rewrite repeat_length in E2. specialize (E2 Hne ltac:(cbn; lia) eq_refl).
    change (base best) with (Z.of_nat b) in E2. change (len best) with (Z.of_nat l) in E2. rewrite <- Nat2Z.inj_add in E2.
    set (T1 := joined A ++ [x3a]) in *. assert (length T1 = S (length (joined A))) as HT1.
    { unfold T1. rewrite length_app. cbn. lia. }
    cbn [length] in HR1. destruct (format_tail src ws b l T1 R1) as (R2 & E3 & HR2 & H2); try done; [lia | lia |].
    set (c := if (b + l =? 8)%nat then [] else [x3a]) in *.
    destruct (format6_end src best (T1 ++ c ++ tail_text src ws b l) R2 (b + l =? 8)%nat (repeat junk 46)) as (R3 & E4 & HR3).
    { done. }
    { cbn [base len best]. destruct (Z.eqb_spec (Z.of_nat b) (-1)); [lia |].
      destruct (Nat.eqb_spec (b + l) 8), (Z.eqb_spec (Z.of_nat b + Z.of_nat l) 8); (done || lia). }
    { fold ws. rewrite Hsplit at 2. fold A. rewrite E1, Z.add_0_l, E2. exact E3. }
    { done. }
    fold ws in E4. exists R3. rewrite E4.
    assert ((T1 ++ c ++ tail_text src ws b l) ++ (if (b + l =? 8)%nat then [x3a] else []) =
      joined A ++ [x3a; x3a] ++ tail_text src ws b l) as ->.
    { unfold T1, c. destruct (Nat.eqb_spec (b + l) 8) as [E8 |]; rewrite <- !app_assoc; cbn [app]; [| by rewrite app_nil_r].
      unfold tail_text, v4_tail. rewrite E8. rewrite (drop_ge ws 8) by lia. cbn [joined].
      destruct (Nat.eqb_spec b 0); [| done]. destruct (Nat.eqb_spec l 6); [lia |]. destruct (Nat.eqb_spec l 5); [lia | done]. }
    split; [done |]. revert HR3 HR2. unfold T1, c in *. rewrite !length_app. cbn [length].
    destruct (Nat.eqb_spec (b + l) 8); cbn [length]; lia.
Qed.

Lemma colon_text_no_nul ws : Forall is_word ws -> no_nul (colon_text ws).
Proof.
  induction 1 as [| w ws Hw _ IH]; [constructor |]. unfold is_word in Hw. apply Forall_cons. split; [done |].
  apply Forall_app. split; [apply utoa_no_nul; lia | exact IH].
Qed.
