(* ===== verification/Inet6Parse.v ===== *)
(** * Reading IPv6 addresses

    [inet_pton6] on the text that [inet_ntop6] writes, and on any text. *)

From S2P Require Import Prelude Crypto UvErrno Digits Inet InetProps Inet6.

Section Parse.
Variable junk : byte.

(** The parser at the start of a group: [P] is written, and [R] follows. *)
Definition at_group (s : list byte) (cp : option nat) (P R : list byte) : outcome (pton6 + Z) * list byte :=
  pton6_loop junk s (mk_pton6 (length P) cp s 0 0) (P ++ R).

(** The groups of words, each with its colon. *)
Definition groups (ws : list Z) : list byte := flat_map (fun w => utoa 16 w ++ [x3a]) ws.

Lemma pton6_loop_digit d tail v :
  0 <= d < 16 -> p6_seen v + 1 <= 4 -> 0 <= p6_val v < 2 ^ 28 ->
  pton6_loop junk (digit_char d :: tail) v =
  pton6_loop junk tail (mk_pton6 (p6_tp v) (p6_colonp v) (p6_curtok v) (p6_seen v + 1) (p6_val v * 16 + d)).
Proof.
  intros Hd Hs Hv. cbn [pton6_loop]. destruct (Z.eqb_spec (b2z (digit_char d)) 0) as [E0 |]; [by apply digit_nonzero in E0 |].
  rewrite xdigit_char by done. cbv zeta. destruct (Z.ltb_spec 4 (p6_seen v + 1)); [lia |].
  rewrite Z.shiftl_mul_pow2 by lia. unfold u32, wrap. rewrite Z.mod_small by lia. rewrite <- Z.shiftl_mul_pow2, lor_shl by lia. done.
Qed.

(** A group. *)
Lemma pton6_loop_group w tail v :
  is_word w -> p6_seen v = 0 -> p6_val v = 0 ->
  pton6_loop junk (utoa 16 w ++ tail) v =
  pton6_loop junk tail (mk_pton6 (p6_tp v) (p6_colonp v) (p6_curtok v) (Z.of_nat (length (utoa 16 w))) w).
Proof.
  intros Hw Hs Hv. pose proof (group_length w Hw) as Hl. revert tail. unfold is_word in Hw.
  apply (utoa_ind 16 (fun w l => 0 <= w < 65536 -> (length l <= 4)%nat -> forall tail,
    pton6_loop junk (l ++ tail) v =
    pton6_loop junk tail (mk_pton6 (p6_tp v) (p6_colonp v) (p6_curtok v) (Z.of_nat (length l)) w))); try done; try lia.
  - intros d Hd _ _ t. cbn [app]. rewrite pton6_loop_digit by lia. rewrite Hs, Hv. do 2 f_equal; lia.
  - intros u d l Hu Hd _ IH Hw' Hl' t. rewrite length_app in *. cbn [length] in *. rewrite <- app_assoc.
    rewrite IH by lia. cbn [app]. rewrite pton6_loop_digit by (cbn; lia). cbn. do 2 f_equal; lia.
Qed.

Lemma put_word_run w P x y R :
  put_word w (length P) (P ++ x :: y :: R) = (Done (length (P ++ word_bytes w)), (P ++ word_bytes w) ++ R).
Proof.
  unfold put_word. erewrite prog_bind_done by (by apply push_run). rewrite push_run by done.
  unfold word_bytes. by rewrite <- !app_assoc.
Qed.

Lemma pton6_loop_at_colon tail v :
  pton6_loop junk (x3a :: tail) v =
  if p6_seen v =? 0 then
    match p6_colonp v with
    | Some _ => mret (inr UV_EINVAL)
    | None => pton6_loop junk tail (mk_pton6 (p6_tp v) (Some (p6_tp v)) tail 0 (p6_val v))
    end
  else
    c ← char_at tail 0;
    if b2z c =? 0 then mret (inr UV_EINVAL) else
    if (16 <? p6_tp v + 2)%nat then mret (inr UV_EINVAL) else
    tp ← put_word (p6_val v) (p6_tp v);
    pton6_loop junk tail (mk_pton6 tp (p6_colonp v) tail 0 0).
Proof. done. Qed.

(** A colon after a group. *)
Lemma pton6_loop_colon c tail cp s n w P x y R :
  n <> 0 -> b2z c <> 0 -> (length P + 2 <= 16)%nat ->
  pton6_loop junk (x3a :: c :: tail) (mk_pton6 (length P) cp s n w) (P ++ x :: y :: R) =
  at_group (c :: tail) cp (P ++ word_bytes w) R.
Proof.
  intros Hn Hc HP. rewrite pton6_loop_at_colon. cbn [p6_seen p6_tp p6_val p6_colonp]. destruct (Z.eqb_spec n 0); [done |].
  erewrite prog_bind_done by done. destruct (Z.eqb_spec (b2z c) 0); [done |].
  destruct (Nat.ltb_spec 16 (length P + 2)); [lia |]. by erewrite prog_bind_done by apply put_word_run.
Qed.

(** The second of two colons. *)
Lemma at_group_colon tail P R : at_group (x3a :: tail) None P R = at_group tail (Some (length P)) P R.
Proof. done. Qed.

Lemma group_head w tail : is_word w -> exists d t, 0 <= d < 16 /\ utoa 16 w ++ tail = digit_char d :: t.
Proof.
  intros Hw. unfold is_word in Hw. pose proof (utoa_digits 16 w ltac:(lia) ltac:(lia)) as Hd.
  pose proof (utoa_not_nil 16 w ltac:(lia) ltac:(lia)) as Hne. destruct (utoa 16 w) as [| c l]; [done |].
  inversion Hd as [| ? ? (d & Hd' & ->) _]; subst. exists d, (l ++ tail). done.
Qed.

Lemma groups_head ws c tail : Forall is_word ws -> b2z c <> 0 -> exists c' t, b2z c' <> 0 /\ groups ws ++ c :: tail = c' :: t.
Proof.
  intros Hws Hc. destruct Hws as [| w ws Hw _]; [by exists c, tail |]. unfold groups. cbn [flat_map]. rewrite <- app_assoc.
  destruct (group_head w ((x3a :: flat_map (fun w => utoa 16 w ++ [x3a]) ws) ++ c :: tail) Hw) as (d & t & Hd & E).
  exists (digit_char d), t. split; [by apply digit_nonzero |]. by rewrite <- E, <- app_assoc.
Qed.

(** Groups, before a character that is not the NUL. *)
Lemma at_group_words ws c tail cp P k :
  Forall is_word ws -> b2z c <> 0 -> (length P + 2 * length ws + k = 16)%nat ->
  at_group (groups ws ++ c :: tail) cp P (repeat x00 (2 * length ws + k)) =
  at_group (c :: tail) cp (P ++ bytes_of ws) (repeat x00 k).
Proof.
  intros Hws Hc. revert P. induction Hws as [| w ws Hw Hws IH]; intros P Hk; [cbn; by rewrite app_nil_r |].
  cbn [length] in *. unfold groups at 1. cbn [flat_map]. rewrite <- !app_assoc.
  change (flat_map (fun w => utoa 16 w ++ [x3a]) ws) with (groups ws).
  replace (2 * S (length ws) + k)%nat with (S (S (2 * length ws + k))) by lia. cbn [repeat].
  unfold at_group at 1. rewrite pton6_loop_group by done. cbn [p6_tp p6_colonp p6_curtok app].
  destruct (groups_head ws c tail Hws Hc) as (c' & t & Hc' & E). rewrite E. pose proof (group_length w Hw).
  rewrite pton6_loop_colon by (done || lia). rewrite <- E, IH.
  - by rewrite <- app_assoc.
  - rewrite length_app. cbn [length word_bytes]. lia.
Qed.

(** ** The end of the text *)

(** From here on the parser leaves [D] after [P], and goes on to [close6]. *)
Definition leads (tail D : list byte) : Prop :=
  forall cp P k, (length P + length D + k = 16)%nat ->
  exists v b, at_group tail cp P (repeat x00 (length D + k)) = (Done (inl v), b) /\
    finish6 v b = close6 cp (length (P ++ D)) ((P ++ D) ++ repeat x00 k).

Lemma leads_nil R : leads (x00 :: R) [].
Proof. intros cp P k Hk. do 2 eexists. split; [reflexivity |]. by rewrite app_nil_r. Qed.

Lemma leads_word w R : is_word w -> leads (utoa 16 w ++ x00 :: R) (word_bytes w).
Proof.
  intros Hw cp P k Hk. pose proof (group_length w Hw) as Hl. do 2 eexists. split.
  { unfold at_group. rewrite pton6_loop_group by done. reflexivity. }
  cbn [length word_bytes repeat Nat.add p6_tp p6_colonp p6_curtok] in *. unfold finish6. cbn [p6_seen p6_tp p6_val p6_colonp].
  destruct (Z.eqb_spec (Z.of_nat (length (utoa 16 w))) 0); [lia |]. cbn [negb andb].
  destruct (Nat.ltb_spec 16 (length P + 2)); [lia |]. by erewrite prog_bind_done by apply put_word_run.
Qed.

(** The first octet is read as a word in base 16, which does no harm. *)
Lemma pton6_loop_octet b tail v :
  p6_seen v = 0 -> p6_val v = 0 ->
  exists n w, pton6_loop junk (utoa 10 (b2z b) ++ tail) v =
    pton6_loop junk tail (mk_pton6 (p6_tp v) (p6_colonp v) (p6_curtok v) n w).
Proof.
  intros Hs Hv. pose proof (octet_length b) as Hl. revert tail. 
  assert (forall l, Forall (fun c => exists d, 0 <= d < 10 /\ c = digit_char d) l -> forall u, p6_seen u + Z.of_nat (length l) <= 4 ->
    0 <= p6_seen u -> 0 <= p6_val u < 16 ^ p6_seen u -> forall tail,
    exists n w, pton6_loop junk (l ++ tail) u = pton6_loop junk tail (mk_pton6 (p6_tp u) (p6_colonp u) (p6_curtok u) n w)) as Hgen.
  { intros l Hd. induction Hd as [| c l (d & Hd & ->) _ IH]; intros u Hu H0 Hw t; cbn [app length] in *.
    { exists (p6_seen u), (p6_val u). by destruct u. }
    assert (16 ^ p6_seen u <= 16 ^ 4) by (apply Z.pow_le_mono_r; lia).
    rewrite pton6_loop_digit; [| lia | lia |]. 2: { change (2 ^ 28) with 268435456. change (16 ^ 4) with 65536 in *. lia. }
    destruct (IH (mk_pton6 (p6_tp u) (p6_colonp u) (p6_curtok u) (p6_seen u + 1) (p6_val u * 16 + d))) with (tail := t)
      as (n & w & E); cbn [p6_seen p6_val p6_tp p6_colonp p6_curtok] in *; [lia | lia | rewrite Z.pow_add_r by lia; lia |].
    exists n, w. exact E. }
  intros tail. apply Hgen; [apply utoa_digits; blia | lia | lia |]. rewrite Hs, Hv. lia.
Qed.

Lemma pton6_loop_at_dot tail v :
  pton6_loop junk (x2e :: tail) v =
  if (p6_tp v + 4 <=? 16)%nat then
    err ← from_tp (p6_tp v) (inet_pton4 junk (p6_curtok v));
    if err =? 0 then mret (inl (mk_pton6 (p6_tp v + 4) (p6_colonp v) (p6_curtok v) 0 (p6_val v)))
    else mret (inr UV_EINVAL)
  else mret (inr UV_EINVAL).
Proof. done. Qed.

Lemma leads_dotted b0 b1 b2 b3 R : leads (dotted b0 b1 b2 b3 ++ x00 :: R) [b0; b1; b2; b3].
Proof.
  intros cp P k Hk. cbn [length] in Hk. unfold at_group. set (s := dotted b0 b1 b2 b3 ++ x00 :: R).
  assert (exists t, s = utoa 10 (b2z b0) ++ x2e :: t) as [t Es] by (unfold s, dotted; rewrite <- app_assoc; cbn [app]; eauto).
  destruct (pton6_loop_octet b0 (x2e :: t) (mk_pton6 (length P) cp s 0 0) eq_refl eq_refl) as (n & w & E).
  rewrite <- Es in E. exists (mk_pton6 (length P + 4) cp s 0 w). rewrite E, pton6_loop_at_dot. cbn [p6_tp p6_colonp p6_curtok p6_val].
  destruct (Nat.leb_spec (length P + 4) 16); [| lia].
  assert (from_tp (length P) (inet_pton4 junk s) (P ++ repeat x00 (4 + k)) = (Done 0, P ++ [b0; b1; b2; b3] ++ repeat x00 k)) as Ev.
  { unfold from_tp. rewrite drop_app_length, take_app_length. unfold s.
    by rewrite inet_pton4_dotted by (rewrite repeat_length; lia). }
  eexists. split; [erewrite prog_bind_done by exact Ev; reflexivity |].
  unfold finish6. cbn [p6_seen p6_tp p6_colonp]. change (negb (0 =? 0)) with false. cbn [andb]. erewrite prog_bind_done by done.
  rewrite length_app. by rewrite <- app_assoc.
Qed.

(** Groups before that. *)
Lemma leads_groups ws tail D :
  Forall is_word ws -> (exists c t, b2z c <> 0 /\ tail = c :: t) -> leads tail D -> leads (groups ws ++ tail) (bytes_of ws ++ D).
Proof.
  intros Hws (c & t & Hc & ->) Hlead cp P k Hk. rewrite length_app, length_bytes_of in *.
  destruct (Hlead cp (P ++ bytes_of ws) k) as (v & b & E1 & E2); [rewrite length_app, length_bytes_of; lia |].
  exists v, b. rewrite <- Nat.add_assoc, at_group_words by (done || lia). split; [done |]. by rewrite E2, <- app_assoc.
Qed.

Lemma joined_snoc ws w : joined (ws ++ [w]) = groups ws ++ utoa 16 w.
Proof.
  destruct ws as [| w0 ws]; [cbn; by rewrite app_nil_r |]. cbn [app joined groups flat_map]. rewrite <- !app_assoc. f_equal.
  unfold colon_text. revert w0. induction ws as [| w1 ws IH]; intros w0; cbn [app flat_map]; [by rewrite app_nil_r |].
  rewrite <- !app_assoc. cbn [app]. f_equal. f_equal. specialize (IH w1). cbn [app] in IH. exact IH.
Qed.

Lemma leads_joined ws R : Forall is_word ws -> leads (joined ws ++ x00 :: R) (bytes_of ws).
Proof.
  intros Hws. destruct ws as [| w ws] using rev_ind; [apply leads_nil |]. clear IHws.
  apply Forall_app in Hws as [Hws Hw]. inversion Hw; subst. rewrite joined_snoc, <- app_assoc, bytes_of_app.
  unfold bytes_of at 2. cbn [flat_map]. rewrite app_nil_r. apply leads_groups; [done | | by apply leads_word].
  destruct (group_head w (x00 :: R)) as (d & t & Hd & E); [done |]. exists (digit_char d), t. split; [by apply digit_nonzero | done].
Qed.

(** ** The shift *)

Lemma shift_loop_run fuel i PA PB k D :
  fuel = length PB -> i = S (length D) -> (length PA + length PB + S k + length D = 16)%nat ->
  shift_loop fuel i (length PB + length D) (length PA) (PA ++ PB ++ repeat x00 (S k) ++ D) =
  (Done tt, PA ++ repeat x00 (S k) ++ PB ++ D).
Proof.
  intros -> ->. revert D. induction PB as [| c PB IH] using rev_ind; intros D Hlen; [done |].
  rewrite length_app in *. cbn [length] in *. rewrite Nat.add_1_r. cbn [shift_loop]. erewrite prog_bind_done by done.
  replace (S (length PB) + length D - S (length D))%nat with (length PB) by lia.
  replace (PA ++ (PB ++ [c]) ++ repeat x00 (S k) ++ D) with ((PA ++ PB) ++ c :: repeat x00 k ++ x00 :: D).
  2: { cbn [repeat]. rewrite repeat_cons, <- !app_assoc. done. }
  erewrite prog_bind_done by (apply char_at_mid; rewrite length_app; lia).
  replace ((PA ++ PB) ++ c :: repeat x00 k ++ x00 :: D) with (((PA ++ PB) ++ c :: repeat x00 k) ++ x00 :: D) by (by rewrite <- app_assoc).
  erewrite prog_bind_done by (apply set_at_mid; rewrite !length_app; cbn [length]; rewrite repeat_length; lia).
  rewrite <- (app_assoc (PA ++ PB)). cbn [app]. erewrite prog_bind_done by (apply set_at_mid; rewrite length_app; lia).
  specialize (IH (c :: D)). cbn [length] in IH. cbn [Nat.add].
  replace (S (length PB + length D)) with (length PB + S (length D))%nat by lia.
  replace ((PA ++ PB) ++ x00 :: repeat x00 k ++ c :: D) with (PA ++ PB ++ repeat x00 (S k) ++ c :: D) by (by rewrite <- app_assoc).
  rewrite IH by lia. by rewrite <- (app_assoc PB).
Qed.

Lemma close6_shift PA PB k :
  (length PA + length PB + S k = 16)%nat ->
  close6 (Some (length PA)) (length (PA ++ PB)) ((PA ++ PB) ++ repeat x00 (S k)) = (Done 0, PA ++ repeat x00 (S k) ++ PB).
Proof.
  intros Hlen. unfold close6. cbv zeta. rewrite length_app. destruct (Nat.eqb_spec (length PA + length PB) 16); [lia |].
  replace (length PA + length PB - length PA)%nat with (length PB) by lia.
  pose proof (shift_loop_run (length PB) 1 PA PB k [] eq_refl eq_refl) as E. cbn [length] in E. rewrite !app_nil_r, !Nat.add_0_r in E.
  rewrite <- app_assoc. erewrite prog_bind_done by (by apply E). done.
Qed.

(** ** The whole text *)

Lemma parse6_run s :
  parse6 junk s (repeat x00 16) =
  match at_group s None [] (repeat x00 16) with
  | (Done (inl v), b) => finish6 v b
  | (Done (inr err), b) => (Done err, b)
  | (Failed, b) => (Failed, b)
  | (Stuck, b) => (Stuck, b)
  | (NoFuel, b) => (NoFuel, b)
  end.
Proof.
  unfold parse6, mbind, prog_bind, at_group. cbn [length app]. by destruct (pton6_loop _ _ _ _) as [[[v | err] | | |] b].
Qed.

(** Without a double colon. *)
Lemma parse6_full s D : leads s D -> length D = 16%nat -> parse6 junk s (repeat x00 16) = (Done 0, D).
Proof.
  intros Hlead HD. rewrite parse6_run. destruct (Hlead None [] 0%nat) as (v & b & E1 & E2); [cbn; lia |].
  rewrite Nat.add_0_r, HD in E1. rewrite E1, E2. cbn [app repeat]. rewrite app_nil_r, HD. done.
Qed.

(** With one. *)
Lemma parse6_colons ws tail D :
  Forall is_word ws -> leads tail D -> (2 * length ws + length D < 16)%nat ->
  parse6 junk (groups ws ++ x3a :: tail) (repeat x00 16) =
    (Done 0, bytes_of ws ++ repeat x00 (16 - (2 * length ws + length D)) ++ D).
Proof.
  intros Hws Hlead Hlen. rewrite parse6_run. set (k := (16 - (2 * length ws + length D))%nat).
  replace 16%nat with (2 * length ws + (length D + k))%nat at 1 by lia. rewrite at_group_words by (done || cbn [length]; lia).
  rewrite at_group_colon. cbn [app]. rewrite length_bytes_of.
  destruct (Hlead (Some (2 * length ws)%nat) (bytes_of ws) k) as (v & b & E1 & E2); [rewrite length_bytes_of; lia |].
  rewrite E1, E2. pose proof (close6_shift (bytes_of ws) D (k - 1)) as E. rewrite length_bytes_of in E.
  replace (S (k - 1)) with k in E by lia. apply E. lia.
Qed.
End Parse.
