(* ===== verification/InetSpec.v ===== *)
(** * What the address conversions promise

    Round trips, the exact language of IPv4 addresses, the canonical text of IPv6
    addresses, and parsing of any text. *)

From S2P Require Import Prelude Crypto UvErrno Digits Inet InetProps Inet6 Inet6Parse.

(** ** The text of IPv6 addresses *)

Lemma drop_bytes_of n ws : drop (2 * n) (bytes_of ws) = bytes_of (drop n ws).
Proof.
  revert ws. induction n as [| n IH]; intros ws; [done |]. destruct ws as [| w ws]; [by rewrite drop_nil |].
  replace (2 * S n)%nat with (S (S (2 * n))) by lia. cbn [drop]. rewrite <- IH. done.
Qed.

Lemma tail_leads junk src b l R :
  length src = 16%nat -> (2 <= l)%nat -> (b + l <= 8)%nat ->
  leads junk (tail_text src (words_of src) b l ++ x00 :: R) (bytes_of (drop (b + l) (words_of src))).
Proof.
  intros Hsrc Hl Hbl. destruct (words_of_facts 8 src Hsrc) as (Hws & Hw & Hb). set (ws := words_of src) in *.
  unfold tail_text. destruct (v4_tail ws b l) eqn:Ev; [| by apply leads_joined, Forall_drop].
  assert (b = 0 /\ l <= 6)%nat as [-> Hl6].
  { unfold v4_tail in Ev. apply andb_prop in Ev as [->%Nat.eqb_eq Ev]. split; [done |].
    apply orb_prop in Ev as [Ev%Nat.eqb_eq | [Ev%Nat.eqb_eq _]%andb_prop]; lia. }
  cbn [Nat.add]. destruct (v4_text_facts src Hsrc) as (b0 & b1 & b2 & b3 & Hd & ->).
  rewrite <- (take_drop (6 - l) (drop l ws)) at 2. rewrite bytes_of_app, drop_drop.
  replace (l + (6 - l))%nat with 6%nat by lia. rewrite <- (drop_bytes_of 6), Hb. change (2 * 6)%nat with 12%nat. rewrite Hd, <- app_assoc.
  apply (leads_groups junk (take (6 - l) (drop l ws))); [by apply Forall_take, Forall_drop | | apply leads_dotted].
  unfold dotted. destruct (utoa 10 (b2z b0)) as [| c t] eqn:E; [by destruct (utoa_not_nil 10 (b2z b0) ltac:(lia) ltac:(blia)) |].
  exists c. rewrite <- app_assoc. cbn [app]. eexists. split; [| reflexivity].
  pose proof (utoa_no_nul 10 (b2z b0) ltac:(lia) ltac:(blia)) as Hn. rewrite E in Hn. by inversion Hn.
Qed.

(** What characters it has. *)
Lemma colon_text_forall (P : byte -> Prop) ws :
  (forall d, 0 <= d < 16 -> P (digit_char d)) -> P x3a -> Forall is_word ws -> Forall P (colon_text ws).
Proof.
  intros Hd Hc. induction 1 as [| w ws Hw _ IH]; [constructor |]. unfold is_word in Hw. apply Forall_cons. split; [done |].
  apply Forall_app. split; [apply utoa_forall; (done || lia) | exact IH].
Qed.

Lemma joined_forall (P : byte -> Prop) ws :
  (forall d, 0 <= d < 16 -> P (digit_char d)) -> P x3a -> Forall is_word ws -> Forall P (joined ws).
Proof.
  intros Hd Hc Hws. destruct Hws as [| w ws Hw Hws]; [constructor |]. unfold is_word in Hw. apply Forall_app.
  split; [apply utoa_forall; (done || lia) | by apply colon_text_forall].
Qed.

Lemma text6_forall (P : byte -> Prop) src :
  length src = 16%nat -> (forall d, 0 <= d < 16 -> P (digit_char d)) -> P x3a -> P x2e -> Forall P (text6 src).
Proof.
  intros Hsrc Hd Hc Hp. destruct (words_of_facts 8 src Hsrc) as (_ & Hw & _). unfold text6. cbv zeta.
  destruct (_ =? _); [by apply joined_forall |]. apply Forall_app. split; [by apply joined_forall, Forall_take |].
  do 2 (apply Forall_cons; split; [done |]). unfold tail_text.
  destruct (v4_tail _ _ _); [| by apply joined_forall, Forall_drop].
  destruct (v4_text_facts src Hsrc) as (b0 & b1 & b2 & b3 & _ & ->). apply Forall_app. split.
  - generalize (Forall_take _ (6 - Z.to_nat (len (best_run (words_of src)))) _ (Forall_drop _ (Z.to_nat (len (best_run (words_of src)))) _ Hw)).
    generalize (take (6 - Z.to_nat (len (best_run (words_of src)))) (drop (Z.to_nat (len (best_run (words_of src)))) (words_of src))).
    induction 1 as [| w ws Hw' _ IH]; [constructor |]. unfold is_word in Hw'. cbn [flat_map].
    rewrite !Forall_app. split; [split; [apply utoa_forall; (done || lia) | by repeat constructor] | exact IH].
  - apply dotted_forall; [| done]. intros d Hd'. apply Hd. lia.
Qed.

Lemma text6_no_nul src : length src = 16%nat -> no_nul (text6 src).
Proof. intros Hsrc. apply text6_forall; try done. intros d Hd. by apply digit_nonzero. Qed.

(** ** To text *)

Lemma inet_ntop6_run junk src size dst :
  length src = 16%nat -> (size <= length dst)%nat ->
  inet_ntop6 junk src size dst =
    (if (size =? 0)%nat then (Done 0, dst)
     else if (length (text6 src) <? size)%nat then (Done 0, text6 src ++ x00 :: drop (S (length (text6 src))) dst)
     else (Done UV_ENOSPC, take (size - 1) (text6 src) ++ x00 :: drop size dst)).
Proof.
  intros Hsrc Hsize. unfold inet_ntop6. pose proof (words_loop_run src [] Hsrc) as Hw. rewrite app_nil_r in Hw. rewrite Hw.
  destruct (format6_run junk src Hsrc) as (R & E & HR). change (Z.to_nat UV__INET6_ADDRSTRLEN) with 46%nat. rewrite E.
  change (negb (0 =? 0)) with false. cbv iota. pose proof (text6_no_nul src Hsrc) as Hn.
  pose proof (strscpy_run (text6 src) R size dst Hn ltac:(unfold SSIZE_MAX; lia) Hsize) as Es. unfold strscpy_result in Es.
  destruct (Nat.eqb_spec size 0); [by erewrite prog_bind_done by exact Es |].
  destruct (Nat.ltb_spec (length (text6 src)) size); erewrite prog_bind_done by exact Es; [| done].
  destruct (Z.eqb_spec (Z.of_nat (length (text6 src))) UV_E2BIG) as [E2 |]; [unfold UV_E2BIG in E2; lia | done].
Qed.

(** ** From text *)

Lemma joined_colon ws : ws <> [] -> joined ws ++ [x3a] = groups ws.
Proof.
  destruct ws as [| w ws] using rev_ind; [done |]. intros _. rewrite joined_snoc, <- app_assoc. unfold groups.
  rewrite flat_map_app. cbn [flat_map]. by rewrite app_nil_r.
Qed.

(** A text that starts with a digit is parsed as it is. *)
Lemma inet_pton6_digit junk d t s D dst :
  s = digit_char d :: t -> 0 <= d < 16 -> parse6 junk s (repeat x00 16) = (Done 0, D) -> length D = 16%nat -> (16 <= length dst)%nat ->
  inet_pton6 junk s dst = (Done 0, D ++ drop 16 dst).
Proof.
  intros -> Hd E HD Hdst. unfold inet_pton6. assert (b2z (digit_char d) <> 58) as H58.
  { revert Hd. apply (digit_cases 16 (fun d => b2z (digit_char d) <> 58)). by vm_compute. }
  destruct (Z.eqb_spec (b2z (digit_char d)) 58); [done |]. cbv zeta iota. rewrite E. change (negb (0 =? 0)) with false. cbv iota.
  erewrite prog_bind_done by (apply memcpy_start; lia). by rewrite HD.
Qed.

Lemma inet_pton6_colons junk t D dst :
  parse6 junk (x3a :: t) (repeat x00 16) = (Done 0, D) -> length D = 16%nat -> (16 <= length dst)%nat ->
  inet_pton6 junk (x3a :: x3a :: t) dst = (Done 0, D ++ drop 16 dst).
Proof.
  intros E HD Hdst. unfold inet_pton6. change (b2z x3a =? 58) with true. cbv zeta iota. rewrite E.
  change (negb (0 =? 0)) with false. cbv iota. erewrite prog_bind_done by (apply memcpy_start; lia). by rewrite HD.
Qed.

Lemma inet_pton6_text junk src R dst :
  length src = 16%nat -> (16 <= length dst)%nat ->
  inet_pton6 junk (text6 src ++ x00 :: R) dst = (Done 0, src ++ drop 16 dst).
Proof.
  intros Hsrc Hdst. destruct (words_of_facts 8 src Hsrc) as (Hws & Hw & Hb). unfold text6. cbv zeta.
  destruct (best_run_facts (words_of src) Hws) as [[-> _] | (b & l & -> & Hl & Hbl & Hsplit & _)]; cbn [base len].
  - change (-1 =? -1) with true. cbv iota. pose proof (leads_joined junk (words_of src) R Hw) as Hlead. rewrite Hb in Hlead.
    destruct (words_of src) as [| w ws] eqn:E; [done |]. inversion Hw; subst. cbn [joined] in *. rewrite <- app_assoc in *.
    destruct (group_head w (colon_text ws ++ x00 :: R)) as (d & t & Hd & Et); [done |].
    eapply inet_pton6_digit; [exact Et | done | by apply parse6_full | done | done].
  - destruct (Z.eqb_spec (Z.of_nat b) (-1)); [lia |]. rewrite !Nat2Z.id.
    pose proof (tail_leads junk src b l R Hsrc Hl Hbl) as Hlead. set (ws := words_of src) in *.
    pose proof (parse6_colons junk (take b ws) _ _ (Forall_take _ b _ Hw) Hlead) as E.
    rewrite length_bytes_of, length_take, length_drop, Hws in E. specialize (E ltac:(lia)).
    replace (16 - (2 * Nat.min b 8 + 2 * (8 - (b + l))))%nat with (2 * l)%nat in E by lia.
    rewrite <- bytes_of_zeros, <- !bytes_of_app, <- Hsplit, Hb in E. rewrite <- !app_assoc. cbn [app].
    destruct (decide (take b ws = [])) as [E0 | Hne].
    + rewrite E0 in *. cbn [joined app]. by apply inet_pton6_colons.
    + destruct (take b ws) as [| w ws'] eqn:Et; [done |].
      assert (joined (w :: ws') ++ x3a :: x3a :: tail_text src ws b l ++ x00 :: R =
        groups (w :: ws') ++ x3a :: tail_text src ws b l ++ x00 :: R) as Eq.
      { rewrite <- joined_colon by done. by rewrite <- app_assoc. }
      rewrite Eq. pose proof (Forall_take _ b _ Hw) as Hw'. rewrite Et in Hw'. pose proof (Forall_inv Hw') as Hw0. cbn [joined] in Eq.
      rewrite <- app_assoc in Eq.
      destruct (group_head w (colon_text ws' ++ x3a :: x3a :: tail_text src ws b l ++ x00 :: R)) as (d & t & Hd & Eh); [done |].
      eapply inet_pton6_digit; [by rewrite <- Eq, Eh | done | done | done | done].
Qed.

(** The scope after a percent sign is not looked at. *)
Lemma strchr_first l R ch :
  no_nul l -> Forall (fun c => b2z c <> b2z ch) l -> strchr (l ++ ch :: R) (b2z ch) = Some (Some (length l)).
Proof.
  intros Hl Hc. induction Hl as [| c l Hn _ IH]; cbn [strchr app length]; [by rewrite Z.eqb_refl |].
  inversion Hc; subst. destruct (Z.eqb_spec (b2z c) (b2z ch)); [done |]. destruct (Z.eqb_spec (b2z c) 0); [done |]. by rewrite IH.
Qed.

Lemma uv_inet_pton6_text junk src R c dst :
  length src = 16%nat -> (16 <= length dst)%nat -> c = x00 \/ c = x25 ->
  uv_inet_pton junk AF_INET6 (text6 src ++ c :: R) dst = (Done 0, src ++ drop 16 dst).
Proof.
  intros Hsrc Hdst Hc. unfold uv_inet_pton. change (AF_INET6 =? AF_INET) with false. change (AF_INET6 =? AF_INET6) with true. cbv iota.
  pose proof (text6_no_nul src Hsrc) as Hn.
  assert (Forall (fun c => b2z c <> 37) (text6 src)) as Hp.
  { apply text6_forall; try done. intros d. apply (digit_cases 16 (fun d => b2z (digit_char d) <> 37)). by vm_compute. }
  destruct Hc as [-> | ->].
  - rewrite strchr_none by done. by apply inet_pton6_text.
  - change 37 with (b2z x25) in *. rewrite strchr_first by done. destruct (format6_run x00 src Hsrc) as (R' & _ & HR).
    change (UV__INET6_ADDRSTRLEN - 1) with 45. destruct (Z.ltb_spec 45 (Z.of_nat (length (text6 src)))); [lia |].
    rewrite take_app_length. by apply inet_pton6_text.
Qed.

(** ** Any text *)

Lemma set_at_any i c b : (i < length b)%nat -> exists b', set_at i c b = (Done tt, b') /\ length b' = length b.
Proof.
  intros Hi. unfold set_at. erewrite prog_bind_done by done. destruct (Nat.ltb_spec i (length b)); [| lia].
  exists (<[i := c]> b). split; [done | apply length_insert].
Qed.

Lemma put_word_any w tp b : (tp + 2 <= length b)%nat -> exists b', put_word w tp b = (Done (tp + 2)%nat, b') /\ length b' = length b.
Proof.
  intros Htp. unfold put_word, push. destruct (set_at_any tp (z2b ((w .>> 8) .& 255)) b) as (b1 & E1 & H1); [lia |].
  erewrite prog_bind_done by (erewrite prog_bind_done by exact E1; reflexivity).
  destruct (set_at_any (S tp) (z2b (w .& 255)) b1) as (b2 & E2 & H2); [lia |]. erewrite prog_bind_done by exact E2.
  exists b2. split; [| lia]. unfold mret, prog_ret. f_equal. f_equal. lia.
Qed.

Lemma shift_loop_any fuel i n cp b :
  (cp + n <= 16)%nat -> length b = 16%nat -> (1 <= i)%nat -> (i + fuel = S n)%nat ->
  exists b', shift_loop fuel i n cp b = (Done tt, b') /\ length b' = 16%nat.
Proof.
  intros Hcp Hb Hi Hn. revert i b Hb Hi Hn. induction fuel as [| fuel IH]; intros i b Hb Hi Hn; [by exists b |].
  cbn [shift_loop]. erewrite prog_bind_done by done. destruct (lookup_lt_is_Some_2 b (cp + (n - i))) as [c Hc]; [lia |].
  erewrite prog_bind_done by (unfold char_at; rewrite Hc; reflexivity).
  destruct (set_at_any (16 - i) c b) as (b1 & E1 & H1); [lia |]. erewrite prog_bind_done by exact E1.
  destruct (set_at_any (cp + (n - i)) x00 b1) as (b2 & E2 & H2); [lia |]. erewrite prog_bind_done by exact E2.
  apply IH; lia.
Qed.

(** Text ends with a NUL. *)
Definition c_string (s : list byte) : Prop := exists l R, s = l ++ x00 :: R /\ no_nul l.

Lemma c_string_cons c s : c_string (c :: s) -> b2z c <> 0 -> c_string s.
Proof.
  intros (l & R & E & Hl) Hc. destruct l as [| c' l]; injection E as -> ->; [done |]. exists l, R. split; [done |]. by inversion Hl.
Qed.

(** The variables of the parser are in their bounds. *)
Definition pton6_ok (v : pton6) : Prop :=
  (p6_tp v <= 16)%nat /\ (forall cp, p6_colonp v = Some cp -> (cp <= p6_tp v)%nat) /\ c_string (p6_curtok v).

Definition pton6_ends (r : outcome (pton6 + Z) * list byte) : Prop :=
  match r with
  | (Done (inl v), b) => pton6_ok v /\ length b = 16%nat
  | (Done (inr err), _) => err = UV_EINVAL
  | _ => False
  end.

Lemma pton6_loop_ends junk s v b :
  c_string s -> pton6_ok v -> length b = 16%nat -> pton6_ends (pton6_loop junk s v b).
Proof.
  revert v b. induction s as [| ch s IH]; intros v b Hs Hv Hb; [destruct Hs as ([] & ? & ? & ?); done |].
  cbn [pton6_loop]. destruct (Z.eqb_spec (b2z ch) 0); [done |]. pose proof (c_string_cons _ _ Hs n) as Hs'.
  destruct Hv as (Htp & Hcp & Hcur). destruct (xdigit ch) as [d |].
  { cbv zeta. destruct (4 <? _); [done |]. by apply IH. }
  destruct (b2z ch =? 58).
  - destruct (p6_seen v =? 0).
    + destruct (p6_colonp v) as [cp |]; [done |]. apply IH; [done | | done]. split; [done |]. split; [| done].
      cbn. intros cp [= ->]. lia.
    + assert (exists c s', s = c :: s') as (c & s' & ->).
      { destruct Hs' as ([| c l] & R & -> & _); cbn; eauto. }
      erewrite prog_bind_done by done. destruct (b2z c =? 0); [done |]. destruct (Nat.ltb_spec 16 (p6_tp v + 2)); [done |].
      destruct (put_word_any (p6_val v) (p6_tp v) b) as (b' & E & Hb'); [lia |]. erewrite prog_bind_done by exact E.
      apply IH; [done | | lia]. split; [cbn; lia |]. split; [| done]. cbn. intros cp Ecp. specialize (Hcp cp Ecp). lia.
  - destruct ((b2z ch =? 46) && (p6_tp v + 4 <=? 16)%nat) eqn:Ed; [| done]. apply andb_prop in Ed as [_ Ht%Nat.leb_le].
    destruct Hcur as (l & R & Ecur & Hl).
    destruct (inet_pton4_cases junk l R (drop (p6_tp v) b) Hl) as [(b0 & b1 & b2 & b3 & _ & E) | [_ E]]; [rewrite length_drop; lia | |].
    + erewrite prog_bind_done by (unfold from_tp; rewrite Ecur, E; reflexivity). change (0 =? 0) with true. cbv iota.
      split; [| rewrite !length_app, length_take, !length_drop; cbn [length]; lia].
      split; [cbn; lia |]. split; [| by exists l, R]. cbn. intros cp Ecp. specialize (Hcp cp Ecp). lia.
    + erewrite prog_bind_done by (unfold from_tp; rewrite Ecur, E; reflexivity). done.
Qed.

Lemma finish6_ends v b :
  pton6_ok v -> length b = 16%nat ->
  exists err b', finish6 v b = (Done err, b') /\ length b' = 16%nat /\ (err = 0 \/ err = UV_EINVAL).
Proof.
  intros (Htp & Hcp & _) Hb. unfold finish6. destruct (negb _ && _) eqn:E; [exists UV_EINVAL, b; auto |].
  assert (exists tp b', (if negb (p6_seen v =? 0) then put_word (p6_val v) (p6_tp v) else mret (p6_tp v)) b = (Done tp, b') /\
    length b' = 16%nat /\ (p6_tp v <= tp <= 16)%nat) as (tp & b' & E' & Hb' & Htp').
  { destruct (negb (p6_seen v =? 0)); [| by exists (p6_tp v), b]. cbn [andb] in E. apply Nat.ltb_ge in E.
    destruct (put_word_any (p6_val v) (p6_tp v) b) as (b' & E' & Hb'); [lia |]. exists (p6_tp v + 2)%nat, b'. split; [done |]. lia. }
  erewrite prog_bind_done by exact E'. unfold close6. destruct (p6_colonp v) as [cp |].
  - specialize (Hcp cp eq_refl). cbv zeta. destruct (tp =? 16)%nat; [exists UV_EINVAL, b'; auto |].
    destruct (shift_loop_any (tp - cp) 1 (tp - cp) cp b') as (b2 & E2 & H2); [lia | done | lia | lia |].
    erewrite prog_bind_done by exact E2. exists 0, b2. auto.
  - destruct (tp =? 16)%nat; [exists 0, b' | exists UV_EINVAL, b']; auto.
Qed.

Lemma inet_pton6_ends junk s dst :
  c_string s -> (16 <= length dst)%nat ->
  inet_pton6 junk s dst = (Done UV_EINVAL, dst) \/
  exists D, length D = 16%nat /\ inet_pton6 junk s dst = (Done 0, D ++ drop 16 dst).
Proof.
  intros Hs Hdst.
  assert (forall s, c_string s ->
    match parse6 junk s (repeat x00 16) with
    | (Done err, tmp) => (err = 0 /\ length tmp = 16%nat) \/ err = UV_EINVAL
    | _ => False
    end) as Hp.
  { intros s' Hs'. rewrite parse6_run. assert (pton6_ok (mk_pton6 0 None s' 0 0)) as Hv by (split; [cbn; lia | by split]).
    pose proof (pton6_loop_ends junk s' _ (repeat x00 16) Hs' Hv eq_refl) as He. unfold at_group. cbn [length app].
    destruct (pton6_loop _ _ _ _) as [[[v | err] | | |] b]; try done; [| by right]. destruct He as [Hv' Hb].
    destruct (finish6_ends v b Hv' Hb) as (err & b' & -> & Hb' & [-> | ->]); auto. }
  assert (forall s, c_string s ->
    match parse6 junk s (repeat x00 16) with
    | (Done err, tmp) => if negb (err =? 0) then (Done err, dst) else (_ ← memcpy 0 tmp; mret 0) dst
    | (Failed, _) => (Failed, dst) | (Stuck, _) => (Stuck, dst) | (NoFuel, _) => (NoFuel, dst)
    end = (Done UV_EINVAL, dst) \/
    exists D, length D = 16%nat /\ match parse6 junk s (repeat x00 16) with
    | (Done err, tmp) => if negb (err =? 0) then (Done err, dst) else (_ ← memcpy 0 tmp; mret 0) dst
    | (Failed, _) => (Failed, dst) | (Stuck, _) => (Stuck, dst) | (NoFuel, _) => (NoFuel, dst)
    end = (Done 0, D ++ drop 16 dst)) as Hq.
  { intros s' Hs'. specialize (Hp s' Hs'). destruct (parse6 _ _ _) as [[err | | |] tmp]; try done. destruct Hp as [[-> Ht] | ->]; [right | by left].
    exists tmp. split; [done |]. change (negb (0 =? 0)) with false. cbv iota.
    erewrite prog_bind_done by (apply memcpy_start; lia). by rewrite Ht. }
  unfold inet_pton6. destruct s as [| c s]; [destruct Hs as ([] & ? & ? & ?); done |].
  destruct (b2z c =? 58) eqn:Ec; [| by apply Hq]. assert (c_string s) as Hs'.
  { eapply c_string_cons; [done |]. apply Z.eqb_eq in Ec. lia. }
  destruct s as [| c' s]; [destruct Hs' as ([] & ? & ? & ?); done |]. destruct (b2z c' =? 58); [by apply Hq | by left].
Qed.

Lemma strchr_cases text R ch :
  no_nul text -> ch <> 0 ->
  strchr (text ++ x00 :: R) ch = Some None \/
  exists i, strchr (text ++ x00 :: R) ch = Some (Some i) /\ (i < length text)%nat.
Proof.
  intros Ht Hch. induction Ht as [| c l Hn _ IH]; cbn [strchr app length].
  - left. rewrite b2z_nul. destruct (Z.eqb_spec 0 ch); [lia | done].
  - destruct (Z.eqb_spec (b2z c) ch); [right; exists 0%nat; split; [done | lia] |].
    destruct (Z.eqb_spec (b2z c) 0); [done |]. destruct IH as [-> | (i & -> & Hi)]; [by left | right].
    exists (S i). split; [done | lia].
Qed.

(** ** Properties *)

(** C13: an address survives being printed and read.  [uv_inet_ntop] writes for any IPv4
    or IPv6 address a text of less than 46 bytes, which does not depend on the buffer,
    or returns [UV_ENOSPC] exactly when the text and its NUL do not fit; [uv_inet_pton]
    gives the same bytes back from the text, and for IPv6 also when a scope follows a
    percent sign. *)
Theorem inet_roundtrip (junk : byte) (af : Z) (src : list byte) :
  af = AF_INET /\ length src = 4%nat \/ af = AF_INET6 /\ length src = 16%nat ->
  exists text, no_nul text /\ (length text < 46)%nat /\
    (forall size dst, (1 <= size <= length dst)%nat ->
       if (length text <? size)%nat then
         uv_inet_ntop junk af src size dst = (Done 0, text ++ x00 :: drop (S (length text)) dst)
       else (uv_inet_ntop junk af src size dst).1 = Done UV_ENOSPC) /\
    (forall R dst, (length src <= length dst)%nat ->
       uv_inet_pton junk af (text ++ x00 :: R) dst = (Done 0, src ++ drop (length src) dst) /\
       (af = AF_INET6 -> uv_inet_pton junk af (text ++ x25 :: R) dst = (Done 0, src ++ drop (length src) dst))).
Proof.
  intros [[-> Hsrc] | [-> Hsrc]]; unfold uv_inet_ntop.
  - destruct src as [| b0 [| b1 [| b2 [| b3 []]]]]; try done. exists (dotted b0 b1 b2 b3).
    pose proof (dotted_length b0 b1 b2 b3). split; [apply dotted_no_nul |]. split; [lia |]. split.
    + intros size dst Hs. change (AF_INET =? AF_INET) with true. cbv iota. rewrite inet_ntop4_run by lia. cbv zeta.
      by destruct (_ <? size)%nat.
    + intros R dst Hd. split; [| done]. unfold uv_inet_pton. change (AF_INET =? AF_INET) with true. cbv iota. by apply inet_pton4_dotted.
  - exists (text6 src). destruct (format6_run junk src Hsrc) as (R' & _ & HR).
    split; [by apply text6_no_nul |]. split; [lia |]. split.
    + intros size dst Hs. change (AF_INET6 =? AF_INET) with false. change (AF_INET6 =? AF_INET6) with true. cbv iota.
      rewrite inet_ntop6_run by (done || lia). destruct (Nat.eqb_spec size 0); [lia |]. by destruct (_ <? size)%nat.
    + intros R dst Hd. rewrite Hsrc in *. split; [| intros _]; apply uv_inet_pton6_text; auto.
Qed.

Lemma inet_roundtrip_witness :
  exists text, no_nul text /\ (length text < 46)%nat /\
    (forall size dst, (1 <= size <= length dst)%nat ->
       if (length text <? size)%nat then
         uv_inet_ntop x00 AF_INET [xc0; xa8; x00; x01] size dst = (Done 0, text ++ x00 :: drop (S (length text)) dst)
       else (uv_inet_ntop x00 AF_INET [xc0; xa8; x00; x01] size dst).1 = Done UV_ENOSPC) /\
    (forall R dst, (4 <= length dst)%nat ->
       uv_inet_pton x00 AF_INET (text ++ x00 :: R) dst = (Done 0, [xc0; xa8; x00; x01] ++ drop 4 dst) /\
       (AF_INET = AF_INET6 -> uv_inet_pton x00 AF_INET (text ++ x25 :: R) dst = (Done 0, [xc0; xa8; x00; x01] ++ drop 4 dst))).
Proof. apply (inet_roundtrip x00 AF_INET [xc0; xa8; x00; x01]). left. by split. Defined.

(** C34: the text of an IPv6 address is the canonical one.  It has the words in base 16
    without leading zeros, in lower case; a double colon stands for the first of the
    longest runs of zeros, and only for a run of two words at least; the last two words
    are an IPv4 address after six words of zeros, or after five and [ffff].  With a
    [size] of zero nothing is written, but success is returned. *)
Theorem inet_ntop6_canonical (junk : byte) (src : list byte) (size : nat) (dst : list byte) :
  length src = 16%nat -> (size <= length dst)%nat ->
  uv_inet_ntop junk AF_INET6 src size dst =
    (if (size =? 0)%nat then (Done 0, dst)
     else if (length (text6 src) <? size)%nat then (Done 0, text6 src ++ x00 :: drop (S (length (text6 src))) dst)
     else (Done UV_ENOSPC, take (size - 1) (text6 src) ++ x00 :: drop size dst)) /\
  let ws := words_of src in
  (text6 src = joined ws /\ forall i l, zeros_at ws i l = true -> (l <= 1)%nat) \/
  (exists b l : nat, (2 <= l)%nat /\ zeros_at ws b l = true /\
     (forall i l', zeros_at ws i l' = true -> (l' < l \/ l' = l /\ b <= i)%nat) /\
     text6 src = joined (take b ws) ++ [x3a; x3a] ++ tail_text src ws b l).
Proof.
  intros Hsrc Hsize. split.
  { unfold uv_inet_ntop. change (AF_INET6 =? AF_INET) with false. change (AF_INET6 =? AF_INET6) with true. cbv iota. by apply inet_ntop6_run. }
  cbv zeta. destruct (words_of_facts 8 src Hsrc) as (Hws & _ & _). unfold text6. cbv zeta.
  destruct (best_run_facts (words_of src) Hws) as [[-> Hno] | (b & l & -> & Hl & Hbl & Hsplit & Hbest)]; cbn [base len]; [by left |].
  right. exists b, l. destruct (Z.eqb_spec (Z.of_nat b) (-1)); [lia |]. rewrite !Nat2Z.id. split; [done |]. split; [| done].
  unfold zeros_at. rewrite Hws. apply andb_true_intro. split; [apply Nat.leb_le; lia |]. rewrite Hsplit, drop_app_length'.
  - rewrite take_app_length' by (by rewrite repeat_length). clear. induction l as [| l IH]; [done |]. exact IH.
  - rewrite length_take. lia.
Qed.

(** [2001:db8::1] and its bytes. *)
Definition sample6 : list byte := [x20; x01; x0d; xb8; x00; x00; x00; x00; x00; x00; x00; x00; x00; x00; x00; x01].

Lemma inet_ntop6_canonical_witness :
  text6 sample6 = [x32; x30; x30; x31; x3a; x64; x62; x38; x3a; x3a; x31] /\
  uv_inet_ntop x00 AF_INET6 sample6 12 (repeat x00 12) =
    (if (12 =? 0)%nat then (Done 0, repeat x00 12)
     else if (length (text6 sample6) <? 12)%nat then (Done 0, text6 sample6 ++ x00 :: drop (S (length (text6 sample6))) (repeat x00 12))
     else (Done UV_ENOSPC, take (12 - 1) (text6 sample6) ++ x00 :: drop 12 (repeat x00 12))).
Proof. split; [by vm_compute |]. apply (inet_ntop6_canonical x00 sample6 12 (repeat x00 12)); [done | cbn; lia]. Defined.

(** C35: IPv4 addresses are read exactly.  Of all texts that end with a NUL,
    [uv_inet_pton] accepts the decimal forms of four octets without leading zeros, and
    writes the octets; it refuses the others with [UV_EINVAL] and writes nothing. *)
Theorem inet_pton4_exact (junk : byte) (text R dst : list byte) :
  no_nul text -> (4 <= length dst)%nat ->
  (exists b0 b1 b2 b3, text = dotted b0 b1 b2 b3 /\
     uv_inet_pton junk AF_INET (text ++ x00 :: R) dst = (Done 0, [b0; b1; b2; b3] ++ drop 4 dst)) \/
  ((forall b0 b1 b2 b3, text <> dotted b0 b1 b2 b3) /\
     uv_inet_pton junk AF_INET (text ++ x00 :: R) dst = (Done UV_EINVAL, dst)).
Proof. unfold uv_inet_pton. change (AF_INET =? AF_INET) with true. cbv iota. apply inet_pton4_cases. Qed.

Lemma inet_pton4_exact_witness :
  (exists b0 b1 b2 b3, [x30; x31] = dotted b0 b1 b2 b3 /\
     uv_inet_pton x00 AF_INET ([x30; x31] ++ [x00]) (repeat xff 4) = (Done 0, [b0; b1; b2; b3] ++ drop 4 (repeat xff 4))) \/
  ((forall b0 b1 b2 b3, [x30; x31] <> dotted b0 b1 b2 b3) /\
     uv_inet_pton x00 AF_INET ([x30; x31] ++ [x00]) (repeat xff 4) = (Done UV_EINVAL, repeat xff 4)).
Proof. apply (inet_pton4_exact x00 [x30; x31] [] (repeat xff 4)); [by repeat constructor | cbn; lia]. Defined.

(** Reading an address is safe.  On any text that ends with a NUL and for any family,
    [uv_inet_pton] returns, reads nothing after the NUL and writes either all the bytes
    of an address or, when it returns an error, nothing. *)
Theorem inet_pton_safe (junk : byte) (af : Z) (text R dst : list byte) :
  no_nul text -> (16 <= length dst)%nat ->
  exists rc, uv_inet_pton junk af (text ++ x00 :: R) dst = (Done rc, dst) /\ rc < 0 \/
  exists D, uv_inet_pton junk af (text ++ x00 :: R) dst = (Done 0, D ++ drop (length D) dst) /\
    (af = AF_INET /\ length D = 4%nat \/ af = AF_INET6 /\ length D = 16%nat).
Proof.
  intros Ht Hdst. unfold uv_inet_pton. destruct (Z.eqb_spec af AF_INET) as [-> |].
  { destruct (inet_pton4_cases junk text R dst Ht) as [(b0 & b1 & b2 & b3 & _ & E) | [_ E]]; [lia | |]; rewrite E.
    - exists 0. right. exists [b0; b1; b2; b3]. split; [done | by left].
    - exists UV_EINVAL. by left. }
  destruct (Z.eqb_spec af AF_INET6) as [-> |]; [| exists UV_EAFNOSUPPORT; by left].
  assert (forall s, c_string s -> exists rc, inet_pton6 junk s dst = (Done rc, dst) /\ rc < 0 \/
    exists D, inet_pton6 junk s dst = (Done 0, D ++ drop (length D) dst) /\
      (AF_INET6 = AF_INET /\ length D = 4%nat \/ AF_INET6 = AF_INET6 /\ length D = 16%nat)) as Hs.
  { intros s Hcs. destruct (inet_pton6_ends junk s dst Hcs Hdst) as [E | (D & HD & E)]; rewrite E.
    - exists UV_EINVAL. by left.
    - exists 0. right. exists D. rewrite HD. auto. }
  destruct (strchr_cases text R 37 Ht) as [-> | (i & -> & Hi)]; [done | apply Hs; by exists text, R |].
  destruct (_ <? Z.of_nat i); [exists UV_EINVAL; by left |]. apply Hs. exists (take i text), []. split; [| by apply Forall_take].
  by rewrite take_app_le by lia.
Qed.

Lemma inet_pton_safe_witness :
  exists rc, uv_inet_pton x00 AF_INET6 ([x3a; x3a; x25; x31] ++ [x00]) (repeat xff 16) = (Done rc, repeat xff 16) /\ rc < 0 \/
  exists D, uv_inet_pton x00 AF_INET6 ([x3a; x3a; x25; x31] ++ [x00]) (repeat xff 16) =
      (Done 0, D ++ drop (length D) (repeat xff 16)) /\
    (AF_INET6 = AF_INET /\ length D = 4%nat \/ AF_INET6 = AF_INET6 /\ length D = 16%nat).
Proof. apply (inet_pton_safe x00 AF_INET6 [x3a; x3a; x25; x31] [] (repeat xff 16)); [by repeat constructor | cbn; lia]. Defined.

(** [uv__strscpy] copies a string and its NUL when they fit, and returns the length;
    otherwise it keeps what fits, ends it with a NUL and returns [UV_E2BIG].  It never
    writes after [n] bytes, and nothing for [n = 0]. *)
Theorem strscpy_spec (l R : list byte) (n : nat) (dst : list byte) :
  no_nul l -> Z.of_nat (length l) <= SSIZE_MAX -> (n <= length dst)%nat ->
  uv__strscpy (l ++ x00 :: R) n dst = strscpy_result l n dst /\ length (uv__strscpy (l ++ x00 :: R) n dst).2 = length dst /\
  drop n (uv__strscpy (l ++ x00 :: R) n dst).2 = drop n dst.
Proof.
  intros Hl Hm Hn. rewrite strscpy_run by done. split; [done |]. unfold strscpy_result.
  destruct (Nat.eqb_spec n 0); [done |]. destruct (Nat.ltb_spec (length l) n); cbn [snd].
  - split; [rewrite length_app; cbn [length]; rewrite length_drop; lia |].
    change (x00 :: drop (S (length l)) dst) with ([x00] ++ drop (S (length l)) dst). rewrite app_assoc, drop_app_ge, drop_drop
      by (rewrite length_app; cbn; lia). f_equal. rewrite length_app. cbn [length]. lia.
  - assert (length (take (n - 1) l) = (n - 1)%nat) as Ht by (rewrite length_take; lia).
    split; [rewrite length_app, Ht; cbn [length]; rewrite length_drop; lia |].
    change (x00 :: drop n dst) with ([x00] ++ drop n dst). rewrite app_assoc, drop_app_length'; [done |]. rewrite length_app, Ht. cbn. lia.
Qed.

Lemma strscpy_spec_witness :
  uv__strscpy ([x61; x62; x63] ++ [x00]) 3 (repeat xff 4) = (Done UV_E2BIG, [x61; x62; x00; xff]) /\
  drop 3 (uv__strscpy ([x61; x62; x63] ++ [x00]) 3 (repeat xff 4)).2 = [xff].
Proof.
  split; [by vm_compute |]. apply (strscpy_spec [x61; x62; x63] [] 3 (repeat xff 4)); [by repeat constructor | by vm_compute | cbn; lia].
Defined.
