(* ===== verification/Heap.v ===== *)
(** * The intrusive binary heap of libuv

    [Pods/Libuv-gRPC/src/heap-inl.h]: a complete binary tree of nodes linked by
    [left], [right] and [parent] pointers, kept in order by swapping nodes in
    memory.  The memory is a finite map from addresses to nodes; following [NULL]
    or an address that holds no node is [Stuck].  The tree is proved to represent
    the level-order list of its addresses, and every operation to be the textbook
    operation on that list. *)

From stdpp Require Import gmap.
From S2P Require Import Prelude.

(** ** State *)

(** An address, and a pointer that may be [NULL]. *)
Abbreviation addr := positive.
Abbreviation ptr := (option positive).

Record heap_node := mk_node {
  n_left : ptr;
  n_right : ptr;
  n_parent : ptr;
}.

(** [struct heap], and the memory its nodes live in. *)
Record heap := mk_heap {
  h_min : ptr;
  h_nelts : Z;
  h_mem : gmap addr heap_node;
}.

Abbreviation M := (prog heap).

Definition set_min (p : ptr) (h : heap) : heap := mk_heap p (h_nelts h) (h_mem h).
Definition set_nelts (n : Z) (h : heap) : heap := mk_heap (h_min h) n (h_mem h).
Definition set_mem (m : gmap addr heap_node) (h : heap) : heap := mk_heap (h_min h) (h_nelts h) m.

Definition with_left (p : ptr) (n : heap_node) : heap_node := mk_node p (n_right n) (n_parent n).
Definition with_right (p : ptr) (n : heap_node) : heap_node := mk_node (n_left n) p (n_parent n).
Definition with_parent (p : ptr) (n : heap_node) : heap_node := mk_node (n_left n) (n_right n) p.

(** [*p], [*p = n], and the update of one member of [*p]. *)
Definition load (p : ptr) : M heap_node := fun h =>
  match p ≫= fun a => h_mem h !! a with
  | Some n => (Done n, h)
  | None => (Stuck, h)
  end.

Definition store (p : ptr) (n : heap_node) : M unit := fun h =>
  match p with
  | Some a => (Done tt, set_mem (<[a := n]> (h_mem h)) h)
  | None => (Stuck, h)
  end.

Definition update (p : ptr) (f : heap_node -> heap_node) : M unit :=
  n ← load p; store p (f n).

(** [if (p != NULL) p->parent = v]. *)
Definition update_parent_if (p v : ptr) : M unit :=
  match p with None => mret tt | Some _ => update p (with_parent v) end.

(** ** Operations *)

Definition heap_init : M unit := _ ← modifyS (set_min None); modifyS (set_nelts 0).

(** Named after the function; the member is [h_min]. *)
Definition heap_min : M ptr := h ← getS; mret (h_min h).

Definition heap_node_swap (parent child : ptr) : M unit :=
  t ← load parent;
  c ← load child;
  _ ← store parent c;
  _ ← store child t;
  _ ← update parent (with_parent child);
  c ← load child;
  sibling ← (if bool_decide (n_left c = child)
             then _ ← update child (with_left parent); c ← load child; mret (n_right c)
             else _ ← update child (with_right parent); c ← load child; mret (n_left c));
  _ ← update_parent_if sibling child;
  p ← load parent; _ ← update_parent_if (n_left p) parent;
  p ← load parent; _ ← update_parent_if (n_right p) parent;
  c ← load child;
  match n_parent c with
  | None => modifyS (set_min child)
  | Some _ =>
      g ← load (n_parent c);
      if bool_decide (n_left g = parent)
      then update (n_parent c) (with_left child)
      else update (n_parent c) (with_right child)
  end.

(** The loops that compute [path] and [k]: [unsigned int] is 32 bits wide, so 32
    rounds are enough for any [n]. *)
Fixpoint heap_path (fuel : nat) (path k n : Z) : option (Z * Z) :=
  if 2 <=? n then
    match fuel with
    | O => None
    | S fuel => heap_path fuel (u32 (path .<< 1) .| (n .& 1)) (k + 1) (n / 2)
    end
  else Some (path, k).

(** A [struct heap_node**]. *)
Inductive loc : Type := MinLoc | LeftOf (p : ptr) | RightOf (p : ptr).

Definition read_loc (l : loc) : M ptr :=
  match l with
  | MinLoc => h ← getS; mret (h_min h)
  | LeftOf p => n ← load p; mret (n_left n)
  | RightOf p => n ← load p; mret (n_right n)
  end.

Definition write_loc (l : loc) (v : ptr) : M unit :=
  match l with
  | MinLoc => modifyS (set_min v)
  | LeftOf p => update p (with_left v)
  | RightOf p => update p (with_right v)
  end.

(** The loops that follow [path], with the location they come from and the one they
    reach; taking the address of a member of [*child] needs it to be a node. *)
Fixpoint heap_traverse (k : nat) (path : Z) (parent child : loc) : M (loc * loc) :=
  match k with
  | O => mret (parent, child)
  | S k =>
      p ← read_loc child;
      _ ← load p;
      heap_traverse k (path .>> 1) child (if negb (path .& 1 =? 0) then RightOf p else LeftOf p)
  end.

Section Compare.
(** [less_than]: the client's function, of the nodes' addresses. *)
Variable less_than : addr -> addr -> bool.

Definition lt_ptr (a b : ptr) : bool :=
  match a, b with Some a, Some b => less_than a b | _, _ => false end.

(** [while (node->parent != NULL && less_than(node, node->parent))]. *)
Fixpoint sift_up (fuel : nat) (node : ptr) : M unit :=
  n ← load node;
  if bool_decide (n_parent n <> None) && lt_ptr node (n_parent n) then
    match fuel with
    | O => nofuel
    | S fuel => _ ← heap_node_swap (n_parent n) node; sift_up fuel node
    end
  else mret tt.

(** [for (;;)] of [heap_remove]. *)
Fixpoint sift_down (fuel : nat) (child : ptr) : M unit :=
  c ← load child;
  let smallest := child in
  let smallest := if bool_decide (n_left c <> None) && lt_ptr (n_left c) smallest
                  then n_left c else smallest in
  let smallest := if bool_decide (n_right c <> None) && lt_ptr (n_right c) smallest
                  then n_right c else smallest in
  if bool_decide (smallest = child) then mret tt else
  match fuel with
  | O => nofuel
  | S fuel => _ ← heap_node_swap child smallest; sift_down fuel child
  end.

Definition heap_insert (newnode : addr) : M unit :=
  _ ← store (Some newnode) (mk_node None None None);
  h ← getS;
  match heap_path 32 0 0 (u32 (1 + h_nelts h)) with
  | None => nofuel
  | Some (path, k) =>
      r ← heap_traverse (Z.to_nat k) path MinLoc MinLoc;
      let '(parent, child) := r in
      p ← read_loc parent;
      _ ← update (Some newnode) (with_parent p);
      _ ← write_loc child (Some newnode);
      _ ← modifyS (fun h => set_nelts (u32 (h_nelts h + 1)) h);
      sift_up (Z.to_nat (h_nelts h)) (Some newnode)
  end.

Definition heap_remove (node : ptr) : M unit :=
  h ← getS;
  if h_nelts h =? 0 then mret tt else
  match heap_path 32 0 0 (h_nelts h) with
  | None => nofuel
  | Some (path, k) =>
      r ← heap_traverse (Z.to_nat k) path MinLoc MinLoc;
      let '(_, max) := r in
      _ ← modifyS (fun h => set_nelts (u32 (h_nelts h - 1)) h);
      child ← read_loc max;
      _ ← write_loc max None;
      if bool_decide (child = node) then
        h ← getS;
        if bool_decide (child = h_min h) then modifyS (set_min None) else mret tt
      else
        n ← load node;
        _ ← update child (with_left (n_left n));
        n ← load node;
        _ ← update child (with_right (n_right n));
        n ← load node;
        _ ← update child (with_parent (n_parent n));
        c ← load child; _ ← update_parent_if (n_left c) child;
        c ← load child; _ ← update_parent_if (n_right c) child;
        n ← load node;
        _ ← (match n_parent n with
             | None => modifyS (set_min child)
             | Some _ =>
                 g ← load (n_parent n);
                 if bool_decide (n_left g = node)
                 then update (n_parent n) (with_left child)
                 else update (n_parent n) (with_right child)
             end);
        _ ← sift_down (Z.to_nat (h_nelts h)) child;
        sift_up (Z.to_nat (h_nelts h)) child
  end.

Definition heap_dequeue : M unit := m ← heap_min; heap_remove m.
End Compare.
