(* ===== verification/HeapSpec.v ===== *)
(** * The heap of libuv: the level-order list it represents

    The abstract heap is the list of the addresses in level order (the children of
    index [i] are [2i+1] and [2i+2]).  [HRep h l] says that the pointers of [h] form
    the tree of [l].  First the textbook sifting on lists, then the pointer
    operations against it. *)

From Stdlib Require Import ZArith Lia ZifyNat.
From stdpp Require Import gmap.
From S2P Require Import Prelude Heap.

Ltac nlia := zify; Z.to_euclidean_division_equations; lia.

(** ** Lists as trees *)

(** The index of the parent; meaningful when [0 < i]. *)
Definition par (i : nat) : nat := ((i - 1) / 2)%nat.

Definition lswap (i j : nat) (l : list addr) : list addr :=
  match l !! i, l !! j with
  | Some a, Some b => <[i := b]> (<[j := a]> l)
  | _, _ => l
  end.

Lemma length_lswap i j l : length (lswap i j l) = length l.
Proof. unfold lswap. by destruct (l !! i), (l !! j); rewrite ?length_insert. Qed.

Lemma lookup_lswap i j l m :
  (i < length l)%nat -> (j < length l)%nat ->
  lswap i j l !! m = if decide (m = i) then l !! j else if decide (m = j) then l !! i else l !! m.
Proof.
  intros Hi Hj. unfold lswap.
  destruct (lookup_lt_is_Some_2 l i Hi) as [a Ea], (lookup_lt_is_Some_2 l j Hj) as [b Eb].
  rewrite Ea, Eb. destruct (decide (m = i)) as [-> |].
  - rewrite list_lookup_insert_eq; [done |]. by rewrite length_insert.
  - rewrite list_lookup_insert_ne by done. destruct (decide (m = j)) as [-> |].
    + by rewrite list_lookup_insert_eq.
    + by rewrite list_lookup_insert_ne.
Qed.

(** The transposition of two indices. *)
Definition transp (i j m : nat) : nat := if decide (m = i) then j else if decide (m = j) then i else m.

Lemma lookup_lswap_transp i j l m :
  (i < length l)%nat -> (j < length l)%nat -> lswap i j l !! m = l !! transp i j m.
Proof. intros Hi Hj. rewrite lookup_lswap by done. unfold transp. by repeat case_decide. Qed.

Lemma transp_l i j : transp i j i = j.
Proof. unfold transp. by rewrite decide_True. Qed.
Lemma transp_r i j : transp i j j = i.
Proof. unfold transp. repeat case_decide; congruence. Qed.
Lemma transp_ne i j m : m <> i -> m <> j -> transp i j m = m.
Proof. intros. unfold transp. by rewrite !decide_False. Qed.

Lemma lswap_perm i j l : (i < length l)%nat -> (j < length l)%nat -> NoDup l -> lswap i j l ≡ₚ l.
Proof.
  intros Hi Hj Hnd.
  assert (NoDup (lswap i j l)) as Hnd'.
  { apply NoDup_alt. intros a b x. rewrite !lookup_lswap by done. intros Ha Hb.
    repeat case_decide; subst; try done;
      try (by apply (NoDup_lookup l _ _ x Hnd)); exfalso;
      match goal with
      | H1 : l !! ?u = Some x, H2 : l !! ?v = Some x |- _ =>
          pose proof (NoDup_lookup l u v x Hnd H1 H2); congruence
      end. }
  apply NoDup_Permutation; [done.. |]. intros x. rewrite !list_elem_of_lookup. split.
  - intros [m Hm]. rewrite lookup_lswap in Hm by done. repeat case_decide; eauto.
  - intros [m Hm]. destruct (decide (m = i)) as [-> |]; [exists j | destruct (decide (m = j)) as [-> |];
      [exists i | exists m]]; rewrite lookup_lswap by done; repeat case_decide; congruence.
Qed.

(** ** Heap order *)

(** The order of the client: a strict order, total up to ties. *)
Class WeakOrder (lt : addr -> addr -> bool) : Prop := {
  wo_asym a b : lt a b = true -> lt b a = false;
  wo_trans a b c : lt b a = false -> lt c b = false -> lt c a = false;
}.

Section Order.
Variable lt : addr -> addr -> bool.
Context `{!WeakOrder lt}.

Definition edge_ok (l : list addr) (m : nat) : Prop :=
  forall a b, (0 < m)%nat -> l !! par m = Some a -> l !! m = Some b -> lt b a = false.

Definition heap_ordered (l : list addr) : Prop := forall m, edge_ok l m.

(** The children of [k] are not below its parent. *)
Definition grand_ok (l : list addr) (k : nat) : Prop :=
  forall a b m, (0 < k)%nat -> l !! par k = Some a -> (0 < m)%nat -> par m = k ->
    l !! m = Some b -> lt b a = false.

(** In order but for the edge above [k], or for the edges around [k]. *)
Definition up_ok (l : list addr) (k : nat) : Prop :=
  (forall m, m <> k -> edge_ok l m) /\ grand_ok l k.
Definition around_ok (l : list addr) (k : nat) : Prop :=
  (forall m, (0 < m)%nat -> m <> k -> par m <> k -> edge_ok l m) /\ grand_ok l k.

Lemma up_stop l k : up_ok l k -> edge_ok l k -> heap_ordered l.
Proof. intros [Hup _] Hk m. destruct (decide (m = k)) as [-> |]; auto. Qed.

(** Reads a swapped list where the indices tell which position is meant. *)
Ltac lswap_at H :=
  rewrite lookup_lswap in H by done;
  repeat (first [rewrite decide_True in H by lia | rewrite decide_False in H by lia]).

Lemma par_lt m : (0 < m)%nat -> (par m < m)%nat.
Proof. unfold par. nlia. Qed.

Lemma up_step l k c p :
  up_ok l k -> (0 < k)%nat -> l !! k = Some c -> l !! par k = Some p -> lt c p = true ->
  up_ok (lswap (par k) k l) (par k).
Proof.
  intros [Hup Hg] Hk Hc Hp Hlt.
  assert (k < length l)%nat as Hkl by (by eapply lookup_lt_Some).
  assert (par k < length l)%nat as Hpl by (by eapply lookup_lt_Some).
  pose proof (par_lt k Hk). split.
  - intros m Hm a b H0 Ha Hb. pose proof (par_lt m H0). destruct (decide (m = k)) as [-> | Hmk].
    + lswap_at Ha. lswap_at Hb. simplify_eq. by apply wo_asym.
    + lswap_at Hb. destruct (decide (par m = par k)) as [Epm | Hpm]; [| destruct (decide (par m = k)) as [Epm |]].
      * lswap_at Ha. simplify_eq. apply (wo_trans _ p); [by apply wo_asym |].
        apply (Hup m); [done.. | by rewrite Epm | done].
      * lswap_at Ha. by apply (Hg a b m); simplify_eq.
      * lswap_at Ha. by apply (Hup m).
  - intros a b m H0 Ha Hm Hpm Hb. pose proof (par_lt _ H0). pose proof (par_lt m Hm). lswap_at Ha.
    assert (lt p a = false) as Hpa by (by apply (Hup (par k)); [lia |..]).
    destruct (decide (m = k)) as [-> | Hmk]; lswap_at Hb; [by simplify_eq |].
    apply (wo_trans _ p); [done |]. apply (Hup m); [done.. | by rewrite Hpm | done].
Qed.

Lemma down_step l k j x c :
  around_ok l k -> (0 < j)%nat -> par j = k -> l !! k = Some x -> l !! j = Some c -> lt c x = true ->
  (forall m s, (0 < m)%nat -> par m = k -> l !! m = Some s -> lt s c = false) ->
  around_ok (lswap k j l) j.
Proof.
  intros [Ho Hg] Hj Hpj Hx Hc Hlt Hmin.
  assert (k < length l)%nat as Hkl by (by eapply lookup_lt_Some).
  assert (j < length l)%nat as Hjl by (by eapply lookup_lt_Some).
  pose proof (par_lt j Hj). split.
  - intros m H0 Hm Hpm a b _ Ha Hb. pose proof (par_lt m H0).
    destruct (decide (m = k)) as [Emk | Hmk]; [| destruct (decide (par m = k)) as [Epm |]].
    + lswap_at Ha. lswap_at Hb. apply (Hg a b j); [lia | by rewrite <- Emk | done..].
    + lswap_at Ha. lswap_at Hb. simplify_eq. by apply (Hmin m).
    + lswap_at Ha. lswap_at Hb. by apply (Ho m).
  - intros a b m _ Ha Hm Hpm Hb. pose proof (par_lt m Hm). lswap_at Ha. lswap_at Hb.
    apply (Ho m); [done | lia | lia | done | by rewrite Hpm; simplify_eq | done].
Qed.

Lemma down_stop l k x :
  around_ok l k -> l !! k = Some x ->
  (forall m s, (0 < m)%nat -> par m = k -> l !! m = Some s -> lt s x = false) -> up_ok l k.
Proof.
  intros [Ho Hg] Hx Hmin. split; [| done]. intros m Hm a b H0 Ha Hb.
  destruct (decide (par m = k)) as [E |]; [| by apply (Ho m)].
  rewrite E, Hx in Ha. injection Ha as <-. by apply (Hmin m).
Qed.

(** In an ordered heap the root is least. *)
Lemma root_least l r : heap_ordered l -> l !! 0%nat = Some r -> forall x, x ∈ l -> lt x r = false.
Proof.
  intros Ho Hr x [m Hm]%list_elem_of_lookup. revert x Hm.
  induction m as [m IH] using lt_wf_ind. intros x Hm. destruct (decide (m = 0%nat)) as [-> | Hne].
  - assert (x = r) as -> by congruence. destruct (lt r r) eqn:E; [| done].
    by rewrite (wo_asym _ _ E) in E.
  - assert (par m < m)%nat by (unfold par; nlia).
    assert (m < length l)%nat by (by eapply lookup_lt_Some).
    destruct (lookup_lt_is_Some_2 l (par m)) as [y Hy]; [lia |].
    apply (wo_trans _ y); [by apply (IH (par m)) |]. apply (Ho m); [lia | done..].
Qed.
End Order.

(** ** Memory, by index

    [Mem l N m0 h]: the node at the [k]-th address of [l] is [N k], and what is
    outside [l] is as in [m0].  The operations only meet pointers of the form
    [l !! k], so their effect is an update of [N]. *)

Definition upd_at (k : nat) (n : heap_node) (N : nat -> heap_node) : nat -> heap_node :=
  fun i => if decide (i = k) then n else N i.

Lemma upd_at_eq k n N : upd_at k n N k = n.
Proof. unfold upd_at. by rewrite decide_True. Qed.

Lemma upd_at_ne k n N i : i <> k -> upd_at k n N i = N i.
Proof. intros. unfold upd_at. by rewrite decide_False. Qed.

Record Mem (l : list addr) (N : nat -> heap_node) (m0 : gmap addr heap_node) (mn : ptr) (ne : Z)
    (h : heap) : Prop := {
  mem_nodes : forall k p, l !! k = Some p -> h_mem h !! p = Some (N k);
  mem_frame : forall p, p ∉ l -> h_mem h !! p = m0 !! p;
  mem_min : h_min h = mn;
  mem_nelts : h_nelts h = ne;
}.

(** From a state in [P], [m] returns, and its result and state are in [R]. *)
Definition wp {A} (P : heap -> Prop) (m : M A) (R : A -> heap -> Prop) : Prop :=
  forall h, P h -> exists a h', m h = (Done a, h') /\ R a h'.

Lemma wp_bind {A B} P (m : M A) (f : A -> M B) Q R :
  wp P m Q -> (forall a, wp (Q a) (f a) R) -> wp P (m ≫= f) R.
Proof.
  intros Hm Hf h Hh. destruct (Hm h Hh) as (a & h' & E & Hq).
  destruct (Hf a h' Hq) as (b & h'' & E' & Hr). exists b, h''. split; [| done].
  by rewrite (prog_bind_done _ _ _ _ _ E).
Qed.

Lemma wp_ret {A} (P : heap -> Prop) (a : A) (R : A -> heap -> Prop) :
  (forall h, P h -> R a h) -> wp P (mret a) R.
Proof. intros HR h Hh. eexists _, _. split; [done |]. by apply HR. Qed.

(** A program that leaves the state alone, or that changes it by [f]. *)
Lemma wp_read {A B} P (m : M A) a (f : A -> M B) R :
  (forall h, P h -> m h = (Done a, h)) -> wp P (f a) R -> wp P (m ≫= f) R.
Proof.
  intros Hm Hf h Hh. destruct (Hf h Hh) as (b & h' & E & Hr). exists b, h'. split; [| done].
  by rewrite (prog_bind_done _ _ _ _ _ (Hm h Hh)).
Qed.

Lemma wp_write {A B} P Q (m : M A) a (f : A -> M B) R :
  wp P m (fun a' h => a' = a /\ Q h) -> wp Q (f a) R -> wp P (m ≫= f) R.
Proof.
  intros Hm Hf. apply (wp_bind _ _ _ _ _ Hm). intros a' h [-> Hq]. by apply Hf.
Qed.

Lemma wp_getS {B} (P : heap -> Prop) (f : heap -> M B) R :
  (forall h, P h -> wp P (f h) R) -> wp P (getS ≫= f) R.
Proof. intros Hf h Hh. apply (Hf h Hh h Hh). Qed.

Lemma wp_weaken {A} P (m : M A) (Q R : A -> heap -> Prop) :
  wp P m Q -> (forall a h, Q a h -> R a h) -> wp P m R.
Proof. intros Hm HQ h Hh. destruct (Hm h Hh) as (a & h' & E & Hq). eauto. Qed.

(** What the state satisfies may be refined before a program runs. *)
Lemma wp_cases {A} (P : heap -> Prop) (m : M A) R :
  (forall h, P h -> exists Q : heap -> Prop, Q h /\ wp Q m R) -> wp P m R.
Proof. intros HP h Hh. destruct (HP h Hh) as (Q & Hq & Hm). by apply Hm. Qed.

Section Steps.
Context {l : list addr} {m0 : gmap addr heap_node} (Hnd : NoDup l).

Lemma load_at N mn ne k h :
  (k < length l)%nat -> Mem l N m0 mn ne h -> load (l !! k) h = (Done (N k), h).
Proof.
  intros Hk Hh. destruct (lookup_lt_is_Some_2 l k Hk) as [p Hp]. unfold load. rewrite Hp. simpl.
  by rewrite (mem_nodes _ _ _ _ _ _ Hh _ _ Hp).
Qed.

Lemma store_at N mn ne k n :
  (k < length l)%nat ->
  wp (Mem l N m0 mn ne) (store (l !! k) n) (fun a h => a = tt /\ Mem l (upd_at k n N) m0 mn ne h).
Proof.
  intros Hk h [Hn Hf <- <-]. destruct (lookup_lt_is_Some_2 l k Hk) as [p Hp]. rewrite Hp.
  eexists _, _. split; [done |]. split; [done |]. split; try done; simpl.
  - intros k' p' Hp'. destruct (decide (k' = k)) as [-> | Hne].
    + rewrite upd_at_eq. simplify_eq. by rewrite lookup_insert_eq.
    + rewrite upd_at_ne by done. rewrite lookup_insert_ne; [by apply Hn |].
      intros ->. by apply Hne, (NoDup_lookup l _ _ p').
  - intros p' Hp'. rewrite lookup_insert_ne; [by apply Hf |]. intros ->.
    by apply Hp', list_elem_of_lookup; exists k.
Qed.

Lemma update_at N mn ne k f :
  (k < length l)%nat ->
  wp (Mem l N m0 mn ne) (update (l !! k) f)
     (fun a h => a = tt /\ Mem l (upd_at k (f (N k)) N) m0 mn ne h).
Proof.
  intros Hk. unfold update. eapply wp_read; [by intros h; apply load_at |]. by apply store_at.
Qed.

(** Past the end of [l] the pointer is [NULL]. *)
Lemma update_parent_if_at N mn ne k v :
  wp (Mem l N m0 mn ne) (update_parent_if (l !! k) v)
     (fun a h => a = tt /\ Mem l (upd_at k (with_parent v (N k)) N) m0 mn ne h).
Proof.
  destruct (l !! k) as [p |] eqn:Hp.
  - unfold update_parent_if. rewrite <- Hp. apply update_at. by eapply lookup_lt_Some.
  - intros h [Hn Hf <- <-]. eexists _, _. split; [done |]. split; [done |]. split; try done.
    intros k' p' Hp'. rewrite upd_at_ne; [by apply Hn |]. intros ->. congruence.
Qed.

Lemma set_min_at N mn ne v :
  wp (Mem l N m0 mn ne) (modifyS (set_min v)) (fun a h => a = tt /\ Mem l N m0 v ne h).
Proof. intros h [Hn Hf <- <-]. eexists _, _. split; [done |]. by split. Qed.

Lemma ptr_eq_idx i j : (i < length l)%nat -> bool_decide (l !! j = l !! i) = bool_decide (j = i).
Proof.
  intros Hi. apply bool_decide_ext. split; [| by intros ->].
  destruct (lookup_lt_is_Some_2 l i Hi) as [p Hp]. rewrite Hp. intros Hj.
  by apply (NoDup_lookup l _ _ p).
Qed.
End Steps.

(** ** The tree of a list *)

Definition parent_ptr (l : list addr) (i : nat) : ptr := if decide (i = 0%nat) then None else l !! par i.

Definition tree_node (l : list addr) (i : nat) : heap_node :=
  mk_node (l !! (2 * i + 1)%nat) (l !! (2 * i + 2)%nat) (parent_ptr l i).

(** [HRep l m0 h]: [h] is the tree of [l]. *)
Definition HRep (l : list addr) (m0 : gmap addr heap_node) (h : heap) : Prop :=
  NoDup l /\ Z.of_nat (length l) < 2 ^ 32 - 1 /\
  Mem l (tree_node l) m0 (l !! 0%nat) (Z.of_nat (length l)) h.

(** Reads the updates of a memory where the indices tell which one is meant. *)
Ltac upd_simpl :=
  repeat (first [rewrite upd_at_eq | rewrite upd_at_ne by (unfold par in *; nlia)]);
  cbn [n_left n_right n_parent with_left with_right with_parent].

Lemma match_ptr_some {A} (o : ptr) (a b : A) :
  o <> None -> match o with Some _ => a | None => b end = a.
Proof. by destruct o. Qed.

(** Computes transpositions and conditions on indices. *)
Ltac idx_simpl :=
  repeat (first [rewrite transp_l | rewrite transp_r
                |rewrite transp_ne by (unfold par in *; nlia)
                |rewrite decide_True by (unfold par in *; nlia)
                |rewrite decide_False by (unfold par in *; nlia)]).

Lemma Mem_ext l N N' m0 mn ne h :
  (forall k, (k < length l)%nat -> N k = N' k) -> Mem l N m0 mn ne h -> Mem l N' m0 mn ne h.
Proof.
  intros HN [Hn Hf Hmn Hne]. split; try done. intros k p Hp. rewrite <- HN by (by eapply lookup_lt_Some).
  by apply Hn.
Qed.

Section Swap.
Context {l : list addr} {m0 : gmap addr heap_node} (Hnd : NoDup l).

(** The same memory seen through the swapped list. *)
Lemma Mem_lswap N mn ne i j h :
  (i < length l)%nat -> (j < length l)%nat ->
  (forall m, (m < length l)%nat ->
     N (transp i j m) = tree_node (lswap i j l) m) ->
  Mem l N m0 mn ne h -> Mem (lswap i j l) (tree_node (lswap i j l)) m0 mn ne h.
Proof.
  intros Hi Hj HN [Hn Hf Hmn Hne]. split; try done.
  - intros m p Hm. assert (m < length l)%nat as Hml by (rewrite <- (length_lswap i j); by eapply lookup_lt_Some).
    rewrite <- (HN m Hml). apply Hn. by rewrite <- lookup_lswap_transp.
  - intros p Hp. apply Hf. by rewrite <- (lswap_perm i j l).
Qed.

(** The node that was at [i] once it hangs above the one that was at [j]. *)
Definition lifted_node (i j : nat) : heap_node :=
  mk_node (if decide (2 * i + 1 = j)%nat then l !! i else l !! (2 * i + 1)%nat)
          (if decide (2 * i + 2 = j)%nat then l !! i else l !! (2 * i + 2)%nat)
          (parent_ptr l i).

(** The memory of a swap before the grandparent is linked; [sib] is the other child. *)
Definition swapped_mem (i j sib : nat) (N : nat -> heap_node) : nat -> heap_node :=
  upd_at (2 * j + 2) (with_parent (l !! i) (tree_node l (2 * j + 2)))
    (upd_at (2 * j + 1) (with_parent (l !! i) (tree_node l (2 * j + 1)))
      (upd_at sib (with_parent (l !! j) (tree_node l sib))
        (upd_at j (lifted_node i j) (upd_at i (with_parent (l !! j) (tree_node l j)) N)))).

Lemma tree_node_lswap i j m :
  (i < length l)%nat -> (j < length l)%nat ->
  tree_node (lswap i j l) m
  = mk_node (l !! transp i j (2 * m + 1)) (l !! transp i j (2 * m + 2))
            (if decide (m = 0%nat) then None else l !! transp i j (par m)).
Proof. intros Hi Hj. unfold tree_node, parent_ptr. by rewrite !lookup_lswap_transp. Qed.

Lemma swapped_nodes i j sib N m :
  (j < length l)%nat -> (0 < j)%nat -> par j = i -> (sib + j = 4 * i + 3)%nat ->
  (forall k, N k = tree_node l k) -> i = 0%nat \/ m <> par i ->
  swapped_mem i j sib N (transp i j m) = tree_node (lswap i j l) m.
Proof.
  intros Hj Hj0 Hpar Hsib HN Hm. pose proof (par_lt j Hj0) as Hij. rewrite Hpar in Hij.
  assert (j = 2 * i + 1 \/ j = 2 * i + 2)%nat as Hside by (unfold par in *; nlia).
  rewrite tree_node_lswap by lia. unfold swapped_mem.
  destruct (decide (m = i)) as [-> | Hmi]; [| destruct (decide (m = j)) as [-> | Hmj];
    [| destruct (decide (m = sib)) as [-> | Hms]; [| destruct (decide (m = 2 * j + 1)%nat) as [-> | Hm1];
    [| destruct (decide (m = 2 * j + 2)%nat) as [-> | Hm2]]]]].
  all: idx_simpl; upd_simpl; unfold lifted_node, tree_node, parent_ptr, with_parent;
    rewrite ?HN; unfold tree_node, parent_ptr; cbn [n_left n_right n_parent];
    unfold transp; repeat case_decide; try (exfalso; unfold par in *; nlia);
    f_equal; try done; f_equal; unfold par in *; nlia.
Qed.

(** [child->left == child] tells which side the child was on. *)
Lemma sibling_at ne mn i j sib :
  (j < length l)%nat -> (0 < j)%nat -> par j = i -> (sib + j = 4 * i + 3)%nat ->
  wp (Mem l (upd_at i (with_parent (l !! j) (tree_node l j))
               (upd_at j (tree_node l i) (upd_at i (tree_node l j) (tree_node l)))) m0 mn ne)
     (if bool_decide (n_left (tree_node l i) = l !! j)
      then _ ← update (l !! j) (with_left (l !! i)); c ← load (l !! j); mret (n_right c)
      else _ ← update (l !! j) (with_right (l !! i)); c ← load (l !! j); mret (n_left c))
     (fun a h => a = l !! sib /\
        Mem l (upd_at j (lifted_node i j) (upd_at i (with_parent (l !! j) (tree_node l j)) (tree_node l)))
          m0 mn ne h).
Proof.
  intros Hj Hj0 Hpar Hsib. pose proof (par_lt j Hj0) as Hij. rewrite Hpar in Hij.
  assert (j = 2 * i + 1 \/ j = 2 * i + 2)%nat as Hside by (unfold par in *; nlia).
  cbn [n_left tree_node]. rewrite (ptr_eq_idx Hnd j) by done.
  case_bool_decide as E; (eapply wp_write; [apply update_at; [done | lia] |]);
    (eapply wp_read; [intros h; apply load_at; lia |]); upd_simpl; apply wp_ret; intros h Hh;
    (split; [cbn [n_left n_right tree_node]; f_equal; lia |]); revert Hh; apply Mem_ext; intros k Hk;
    (destruct (decide (k = j)) as [-> |]; [upd_simpl; unfold lifted_node, with_left, with_right, tree_node |
       rewrite !(upd_at_ne j) by done; destruct (decide (k = i)) as [-> |]; [by rewrite !upd_at_eq |
         by rewrite !upd_at_ne]]); cbn [n_left n_right n_parent]; repeat case_decide; lia || done.
Qed.

Lemma swap_at ne i j :
  (j < length l)%nat -> (0 < j)%nat -> par j = i ->
  wp (Mem l (tree_node l) m0 (l !! 0%nat) ne) (heap_node_swap (l !! i) (l !! j))
     (fun a h => a = tt /\ Mem (lswap i j l) (tree_node (lswap i j l)) m0 (lswap i j l !! 0%nat) ne h).
Proof.
  intros Hj Hj0 Hpar. pose proof (par_lt j Hj0) as Hij. rewrite Hpar in Hij.
  assert (j = 2 * i + 1 \/ j = 2 * i + 2)%nat as Hside by (unfold par in *; nlia).
  set (sib := (4 * i + 3 - j)%nat). assert (sib + j = 4 * i + 3)%nat as Hsib by lia.
  unfold heap_node_swap.
  eapply wp_read; [intros h; apply load_at; lia |].
  eapply wp_read; [intros h; apply load_at; lia |].
  eapply wp_write; [apply store_at; [done | lia] |].
  eapply wp_write; [apply store_at; [done | lia] |].
  eapply wp_write; [apply update_at; [done | lia] |].
  eapply wp_read; [intros h; apply load_at; lia |]. upd_simpl.
  eapply wp_write; [by apply (sibling_at ne _ i j sib) |].
  eapply wp_write; [by apply update_parent_if_at |]. upd_simpl.
  eapply wp_read; [intros h; apply load_at; lia |]. upd_simpl. cbn [n_left tree_node].
  eapply wp_write; [by apply update_parent_if_at |]. upd_simpl.
  eapply wp_read; [intros h; apply load_at; lia |]. upd_simpl. cbn [n_right tree_node].
  eapply wp_write; [by apply update_parent_if_at |]. upd_simpl.
  eapply wp_read; [intros h; apply load_at; lia |]. upd_simpl. cbn [n_parent lifted_node].
  fold (swapped_mem i j sib (tree_node l)). unfold parent_ptr.
  assert (lswap i j l !! 0%nat = if decide (i = 0%nat) then l !! j else l !! 0%nat) as Hmin.
  { rewrite lookup_lswap by lia. idx_simpl. by repeat case_decide; subst. }
  destruct (decide (i = 0%nat)) as [Ei | Ei].
  - eapply wp_weaken; [apply set_min_at |]. intros _ h [-> Hh]. split; [done |]. rewrite Hmin.
    revert Hh. apply Mem_lswap; [lia.. |]. intros m Hm. apply swapped_nodes; auto.
  - pose proof (par_lt i) as Hpi. destruct (lookup_lt_is_Some_2 l (par i)) as [g Hg]; [lia |].
    rewrite match_ptr_some by (by rewrite Hg).
    eapply wp_read; [intros h; apply load_at; lia |].
    assert (swapped_mem i j sib (tree_node l) (par i) = tree_node l (par i)) as Eg
      by (unfold swapped_mem; by upd_simpl).
    rewrite Eg. cbn [n_left tree_node]. rewrite (ptr_eq_idx Hnd i) by lia. rewrite Hmin.
    assert (forall f,
      f (tree_node l (par i)) = tree_node (lswap i j l) (par i) ->
      wp (Mem l (swapped_mem i j sib (tree_node l)) m0 (l !! 0%nat) ne) (update (l !! par i) f)
        (fun a h => a = tt /\ Mem (lswap i j l) (tree_node (lswap i j l)) m0 (l !! 0%nat) ne h)) as Hup.
    { intros f Hf. eapply wp_weaken; [apply update_at; [done | lia] |]. intros _ h [-> Hh]. split; [done |].
      revert Hh. apply Mem_lswap; [lia.. |]. intros m Hm. destruct (decide (m = par i)) as [-> | Hmp].
      - rewrite transp_ne by lia. by rewrite upd_at_eq, Eg.
      - rewrite upd_at_ne; [apply swapped_nodes; auto |]. unfold transp. repeat case_decide; lia. }
    case_bool_decide as E; apply Hup; rewrite tree_node_lswap by lia; unfold tree_node, parent_ptr;
      cbn [with_left with_right n_left n_right n_parent].
    + rewrite E, transp_l. idx_simpl. done.
    + replace (2 * par i + 2)%nat with i by (unfold par in *; nlia). rewrite transp_l.
      by idx_simpl.
Qed.
End Swap.
