(* ===== verification/HeapProps.v ===== *)
(** * The heap of libuv: correctness of its operations

    The sifting loops, the walk to the bottom row, and the theorems on insertion and
    removal. *)

From Stdlib Require Import ZArith Lia ZifyNat.
From stdpp Require Import gmap.
From S2P Require Import Prelude Heap HeapSpec.

(** ** Sifting *)

Section Sift.
Variable lt : addr -> addr -> bool.
Context `{!WeakOrder lt}.

Lemma wo_irrefl a : lt a a = false.
Proof. destruct (lt a a) eqn:E; [| done]. by rewrite (wo_asym _ _ E) in E. Qed.

(** The test for [NULL] that guards a comparison. *)
Lemma lt_ptr_guard a b : bool_decide (a <> None) && lt_ptr lt a b = lt_ptr lt a b.
Proof. by destruct a. Qed.

Lemma lt_ptr_guard_r a b : bool_decide (b <> None) && lt_ptr lt a b = lt_ptr lt a b.
Proof. by destruct a, b. Qed.

Lemma sift_up_at fuel l m0 ne k :
  NoDup l -> (k < length l)%nat -> (k <= fuel)%nat -> up_ok lt l k ->
  wp (Mem l (tree_node l) m0 (l !! 0%nat) ne) (sift_up lt fuel (l !! k))
     (fun _ h => exists l', l' ≡ₚ l /\ heap_ordered lt l' /\
                            Mem l' (tree_node l') m0 (l' !! 0%nat) ne h).
Proof.
  revert l k. induction fuel as [| fuel IH]; intros l k Hnd Hk Hf Hup;
    destruct (lookup_lt_is_Some_2 l k Hk) as [c Hc]; cbn [sift_up];
    (eapply wp_read; [intros h; by apply load_at |]); cbn [tree_node n_parent]; unfold parent_ptr.
  - assert (k = 0%nat) as -> by lia. cbn. apply wp_ret. intros h Hh. exists l. split_and!; try done.
    eapply up_stop; [done |]. intros a b ?. lia.
  - destruct (decide (k = 0%nat)) as [-> | Hk0].
    { cbn. apply wp_ret. intros h Hh. exists l. split_and!; try done.
      eapply up_stop; [done |]. intros a b ?. lia. }
    assert (par k < k)%nat by (apply par_lt; lia).
    destruct (lookup_lt_is_Some_2 l (par k)) as [p Hp]; [lia |].
    rewrite lt_ptr_guard_r. assert (lt_ptr lt (l !! k) (l !! par k) = lt c p) as -> by by rewrite Hc, Hp.
    destruct (lt c p) eqn:Hlt.
    + eapply wp_write; [apply swap_at; [done | lia..] |].
      assert (par k < length l)%nat as Hpl by lia.
      replace (l !! k) with (lswap (par k) k l !! par k)
        by (rewrite lookup_lswap by lia; by rewrite decide_True).
      eapply wp_weaken; [apply IH; [by rewrite lswap_perm | by rewrite length_lswap | lia |] |].
      * by eapply up_step; [done | done | lia |..].
      * intros _ h (l' & Hl' & Ho & Hm). exists l'. split_and!; try done. by rewrite Hl', lswap_perm.
    + apply wp_ret. intros h Hh. exists l. split_and!; try done.
      eapply up_stop; [done |]. intros a b _ Ha Hb. by simplify_eq.
Qed.

(** The child that [sift_down] swaps with, or [k] itself. *)
Definition smallest_ptr (l : list addr) (k : nat) : ptr :=
  let c1 := l !! (2 * k + 1)%nat in
  let c2 := l !! (2 * k + 2)%nat in
  let s := l !! k in
  let s := if bool_decide (c1 <> None) && lt_ptr lt c1 s then c1 else s in
  if bool_decide (c2 <> None) && lt_ptr lt c2 s then c2 else s.

Lemma smallest_at (l : list addr) k x :
  l !! k = Some x ->
  exists i y, smallest_ptr l k = l !! i /\ l !! i = Some y /\
    (i = k \/ (0 < i)%nat /\ par i = k /\ lt y x = true) /\
    forall m z, (0 < m)%nat -> par m = k -> l !! m = Some z -> lt z y = false.
Proof.
  intros Hx. unfold smallest_ptr. cbv zeta. rewrite !lt_ptr_guard, Hx.
  assert (forall m, (0 < m)%nat -> par m = k -> m = 2 * k + 1 \/ m = 2 * k + 2)%nat as Hch
    by (unfold par; intros; nlia).
  assert (par (2 * k + 1) = k /\ par (2 * k + 2) = k)%nat as [P1 P2] by (unfold par; split; nlia).
  assert (forall i y, l !! i = Some y ->
    (forall a, l !! (2 * k + 1)%nat = Some a -> lt a y = false) ->
    (forall b, l !! (2 * k + 2)%nat = Some b -> lt b y = false) ->
    (i = k \/ (0 < i)%nat /\ par i = k /\ lt y x = true) ->
    exists i' y', l !! i = l !! i' /\ l !! i' = Some y' /\
    (i' = k \/ (0 < i')%nat /\ par i' = k /\ lt y' x = true) /\
    forall m z, (0 < m)%nat -> par m = k -> l !! m = Some z -> lt z y' = false) as Hsel.
  { intros i y Hi Ha Hb Hor. exists i, y. split_and!; try done. intros m z H0 Hm Hz.
    destruct (Hch m H0 Hm) as [-> | ->]; auto. }
  destruct (l !! (2 * k + 1)%nat) as [a |] eqn:Ea, (l !! (2 * k + 2)%nat) as [b |] eqn:Eb;
    cbn [lt_ptr].
  - destruct (lt a x) eqn:Eax; cbn [lt_ptr]; [destruct (lt b a) eqn:Eba | destruct (lt b x) eqn:Ebx].
    + rewrite <- Eb. apply (Hsel _ b); [done | intros; simplify_eq; by apply wo_asym |
        intros; simplify_eq; apply wo_irrefl |]. right. split_and!; [lia | done |].
      destruct (lt b x) eqn:Ebx; [done |]. exfalso.
      pose proof (wo_trans x b a Ebx (wo_asym _ _ Eba)). congruence.
    + rewrite <- Ea. apply (Hsel _ a); [done | intros; simplify_eq; apply wo_irrefl |
        intros; by simplify_eq |]. right. split_and!; [lia | done..].
    + rewrite <- Eb. apply (Hsel _ b); [done | | intros; simplify_eq; apply wo_irrefl |].
      * intros a' ?; simplify_eq. apply (wo_trans _ x); [by apply wo_asym | done].
      * right. split_and!; [lia | done..].
    + rewrite <- Hx. apply (Hsel _ x); [done | intros; by simplify_eq.. | by left].
  - destruct (lt a x) eqn:Eax.
    + rewrite <- Ea. apply (Hsel _ a); [done | intros; simplify_eq; apply wo_irrefl |
        intros; congruence |]. right. split_and!; [lia | done..].
    + rewrite <- Hx. apply (Hsel _ x); [done | intros; by simplify_eq | intros; congruence | by left].
  - destruct (lt b x) eqn:Ebx.
    + rewrite <- Eb. apply (Hsel _ b); [done | intros; congruence | intros; simplify_eq; apply wo_irrefl |].
      right. split_and!; [lia | done..].
    + rewrite <- Hx. apply (Hsel _ x); [done | intros; congruence | intros; by simplify_eq | by left].
  - rewrite <- Hx. apply (Hsel _ x); [done | intros; congruence.. | by left].
Qed.

Lemma sift_down_at fuel l m0 ne k :
  NoDup l -> (k < length l)%nat -> (length l <= k + fuel + 1)%nat -> around_ok lt l k ->
  wp (Mem l (tree_node l) m0 (l !! 0%nat) ne) (sift_down lt fuel (l !! k))
     (fun _ h => exists l' k', l' ≡ₚ l /\ l' !! k' = l !! k /\ up_ok lt l' k' /\
                               Mem l' (tree_node l') m0 (l' !! 0%nat) ne h).
Proof.
  revert l k. induction fuel as [| fuel IH]; intros l k Hnd Hk Hf Har;
    destruct (lookup_lt_is_Some_2 l k Hk) as [x Hx];
    destruct (smallest_at l k x Hx) as (i & y & Hs & Hy & Hor & Hmin);
    assert (i < length l)%nat as Hi by (by eapply lookup_lt_Some);
    cbn [sift_down]; (eapply wp_read; [intros h; by apply load_at |]);
    cbn [tree_node n_left n_right]; fold (smallest_ptr l k); rewrite Hs, ptr_eq_idx by done.
  - assert (i = k) as -> by (destruct Hor as [? | (H0 & Hp & _)]; [done | pose proof (par_lt i H0); lia]).
    rewrite bool_decide_eq_true_2 by done. apply wp_ret. intros h Hh. exists l, k.
    split_and!; try done. by eapply down_stop; simplify_eq.
  - destruct Hor as [-> | (H0 & Hp & Hlt)].
    + rewrite bool_decide_eq_true_2 by done. apply wp_ret. intros h Hh. exists l, k.
      split_and!; try done. by eapply down_stop; simplify_eq.
    + pose proof (par_lt i H0). rewrite bool_decide_eq_false_2 by lia.
      eapply wp_write; [apply swap_at; [done | lia..] |].
      assert (l !! k = lswap k i l !! i) as E.
      { rewrite lookup_lswap by lia. by rewrite decide_False, decide_True by lia. }
      rewrite E. eapply wp_weaken; [apply IH; [by rewrite lswap_perm | by rewrite length_lswap |
        rewrite length_lswap; lia | by eapply down_step] |].
      intros _ h (l' & k' & Hl' & Hk' & Hup & Hm). exists l', k'. split_and!; try done.
      by rewrite Hl', lswap_perm.
Qed.
End Sift.

(** ** The walk to the bottom row *)

(** The turns below the root on the way to the node of index [p - 1], first turn
    first: the binary digits of [p] below the leading one. *)
Fixpoint route (p : positive) : list bool :=
  match p with
  | xH => []
  | xO p => route p ++ [false]
  | xI p => route p ++ [true]
  end.

Fixpoint bits (k : nat) (path : Z) : list bool :=
  match k with O => [] | S k => Z.odd path :: bits k (path / 2) end.

Definition turn (q : nat) (b : bool) : nat := (2 * q + (if b then 2 else 1))%nat.

Lemma route_index p : fold_left turn (route p) 0%nat = (Pos.to_nat p - 1)%nat.
Proof.
  induction p as [p IH | p IH |]; cbn [route]; rewrite ?fold_left_app, ?IH; cbn [fold_left]; unfold turn;
    rewrite ?Pos2Nat.inj_xI, ?Pos2Nat.inj_xO; lia.
Qed.

Lemma length_route p : 2 ^ Z.of_nat (length (route p)) <= Z.pos p.
Proof.
  induction p as [p IH | p IH |]; cbn [route]; rewrite ?length_app; cbn [length]; [.. | done];
    rewrite Nat2Z.inj_add, Z.pow_add_r by lia; lia.
Qed.

Lemma heap_path_spec p fuel path k :
  (length (route p) <= fuel)%nat -> 0 <= path < 2 ^ Z.of_nat k -> (k + length (route p) <= 32)%nat ->
  exists path',
    heap_path fuel path (Z.of_nat k) (Z.pos p) = Some (path', Z.of_nat (k + length (route p))) /\
    bits (k + length (route p)) path' = route p ++ bits k path.
Proof.
  revert fuel path k. induction p as [p IH | p IH |]; intros fuel path k Hf Hp Hk.
  3: { exists path. destruct fuel; cbn; rewrite Nat.add_0_r; done. }
  all: cbn [route] in *; rewrite length_app in *; cbn [length] in *.
  all: destruct fuel as [| fuel]; [lia |]; cbn [heap_path].
  all: destruct (Z.leb_spec 2 (Z.pos p~1)), (Z.leb_spec 2 (Z.pos p~0)); try lia.
  all: assert (2 ^ Z.of_nat k * 2 <= 2 ^ 32) by
    (change (2 ^ 32) with (2 ^ 31 * 2); apply Z.mul_le_mono_nonneg_r; [lia |]; apply Z.pow_le_mono_r; lia).
  all: rewrite Z.shiftl_mul_pow2, (wrap_small _ (path * 2 ^ 1)) by lia; rewrite <- Z.shiftl_mul_pow2 by lia.
  all: rewrite land_01, lor_shl by (try lia; apply Z.mod_pos_bound; lia).
  all: set (path1 := path * 2 ^ 1 + _).
  all: replace (Z.of_nat k + 1) with (Z.of_nat (S k)) by lia.
  all: assert (0 <= path1 < 2 ^ Z.of_nat (S k)) by (rewrite Nat2Z.inj_succ, Z.pow_succ_r by lia; subst path1; dlia).
  all: destruct (IH fuel path1 (S k)) as (path' & E & Hb); [lia.. |].
  all: exists path'; replace (k + (length (route p) + 1))%nat with (S k + length (route p))%nat by lia.
  all: replace (Z.pos p~1 / 2) with (Z.pos p) by dlia; replace (Z.pos p~0 / 2) with (Z.pos p) by dlia.
  all: split; [exact E |]; rewrite Hb, <- app_assoc; cbn [bits app].
  all: assert (path1 / 2 = path) as -> by (subst path1; dlia).
  all: do 2 f_equal; unfold path1; rewrite Z.odd_add, Z.odd_mul.
  all: rewrite Z.odd_pow by lia; rewrite andb_false_r.
  - replace (Z.pos p~1 mod 2) with 1 by dlia. done.
  - replace (Z.pos p~0 mod 2) with 0 by dlia. done.
Qed.

(** The location that holds the pointer of index [i]. *)
Definition loc_at (l : list addr) (i : nat) : loc :=
  match i with
  | O => MinLoc
  | S m => if Nat.even m then LeftOf (l !! par i) else RightOf (l !! par i)
  end.

Section Walk.
Context {l : list addr} {m0 : gmap addr heap_node} (N : nat -> heap_node) (mn : ptr) (ne : Z) (n : nat).
(** The first [n] indices are linked. *)
Context (Hnd : NoDup l) (Hn : (n <= length l)%nat)
  (Hmn : (0 < n)%nat -> mn = l !! 0%nat)
  (Hleft : forall i, (2 * i + 1 < n)%nat -> n_left (N i) = l !! (2 * i + 1)%nat)
  (Hright : forall i, (2 * i + 2 < n)%nat -> n_right (N i) = l !! (2 * i + 2)%nat).

Lemma read_loc_at i h :
  (i < n)%nat -> Mem l N m0 mn ne h -> read_loc (loc_at l i) h = (Done (l !! i), h).
Proof.
  intros Hi Hh. destruct i as [| m].
  - cbn. unfold mbind, prog_bind, getS. by rewrite (mem_min _ _ _ _ _ _ Hh), Hmn.
  - assert (par (S m) < length l)%nat as Hp by (pose proof (par_lt (S m)); lia). cbn [loc_at].
    destruct (Nat.even m) eqn:Ev; cbn [read_loc];
      rewrite (prog_bind_done _ _ _ _ _ (load_at N mn ne (par (S m)) h Hp Hh)).
    + apply Nat.even_spec in Ev as [x ->]. assert (par (S (2 * x)) = x) as -> by (unfold par; nlia).
      rewrite Hleft by lia. by replace (2 * x + 1)%nat with (S (2 * x)) by lia.
    + assert (Nat.odd m = true) as Od by (by rewrite <- Nat.negb_even, Ev).
      apply Nat.odd_spec in Od as [x ->]. assert (par (S (2 * x + 1)) = x) as -> by (unfold par; nlia).
      rewrite Hright by lia. by replace (2 * x + 2)%nat with (S (2 * x + 1)) by lia.
Qed.

Lemma par_turn q b : par (turn q b) = q.
Proof. unfold par, turn. destruct b; nlia. Qed.

Lemma loc_at_turn q (b : bool) :
  loc_at l (turn q b) = if b then RightOf (l !! q) else LeftOf (l !! q).
Proof.
  pose proof (par_turn q b) as Hp. unfold loc_at. destruct b.
  - assert (turn q true = S (2 * q + 1)) as -> by (unfold turn; lia).
    unfold turn in Hp. rewrite Nat.even_add, Nat.even_mul. cbn [Nat.even orb eqb].
    by replace (S (2 * q + 1)) with (2 * q + 2)%nat by lia; rewrite Hp.
  - assert (turn q false = S (2 * q)) as -> by (unfold turn; lia).
    unfold turn in Hp. rewrite Nat.even_mul. cbn [Nat.even orb].
    by replace (S (2 * q)) with (2 * q + 1)%nat by lia; rewrite Hp.
Qed.

Lemma turn_gt q b : (q < turn q b)%nat.
Proof. unfold turn. destruct b; lia. Qed.

Lemma fold_turn_le bs q : (q <= fold_left turn bs q)%nat.
Proof.
  revert q. induction bs as [| b bs IH]; intros q; cbn [fold_left]; [done |].
  etransitivity; [| apply IH]. pose proof (turn_gt q b). lia.
Qed.

Lemma heap_traverse_at k path q from h :
  let e := fold_left turn (bits k path) q in
  (e <= n)%nat -> Mem l N m0 mn ne h ->
  heap_traverse k path from (loc_at l q) h
  = (Done (if decide (k = 0%nat) then from else loc_at l (par e), loc_at l e), h).
Proof.
  revert path q from. induction k as [| k IH]; intros path q from e He Hh; [done |].
  subst e. cbn [bits fold_left heap_traverse] in *. set (b := Z.odd path) in *.
  assert (q < n)%nat as Hq 
    by (pose proof (fold_turn_le (bits k (path / 2)) (turn q b)); pose proof (turn_gt q b); lia).
  rewrite (prog_bind_done _ _ _ _ _ (read_loc_at q h Hq Hh)).
  rewrite (prog_bind_done _ _ _ _ _ (load_at N mn ne q h (Nat.lt_le_trans _ _ _ Hq Hn) Hh)).
  rewrite Z.shiftr_div_pow2 by lia. change (2 ^ 1) with 2.
  assert ((if negb (path .& 1 =? 0) then RightOf (l !! q) else LeftOf (l !! q)) = loc_at l (turn q b)) as ->.
  { rewrite loc_at_turn, land_01. unfold b. rewrite Zmod_odd. by destruct (Z.odd path). }
  rewrite IH by done. rewrite (decide_False (P := S k = 0%nat)) by lia. destruct (decide (k = 0%nat)) as [-> |]; [| done].
  cbn [bits fold_left]. by rewrite par_turn.
Qed.
End Walk.

(** The path of index [e], from the root. *)
Lemma heap_path_index e :
  Z.of_nat e < 2 ^ 32 - 1 ->
  exists path k,
    heap_path 32 0 0 (Z.of_nat (S e)) = Some (path, Z.of_nat k) /\
    fold_left turn (bits k path) 0%nat = e /\ (k = 0%nat <-> e = 0%nat).
Proof.
  intros He. destruct (Z.of_nat (S e)) as [| p |] eqn:Ep; [lia | | lia].
  assert (Pos.to_nat p = S e) as Hp by lia.
  assert (length (route p) < 32)%nat as Hr.
  { pose proof (length_route p). apply Nat2Z.inj_lt.
    apply (Z.pow_lt_mono_r_iff 2); [lia.. |]. change (2 ^ Z.of_nat 32) with (2 ^ 32). lia. }
  destruct (heap_path_spec p 32 0 0) as (path & E & Hb); [lia | done | lia |].
  rewrite Nat.add_0_l in E, Hb. exists path, (length (route p)). split; [exact E |].
  rewrite Hb, app_nil_r, route_index. split; [lia |]. split; intros H.
  - destruct p; cbn [route] in H; rewrite ?length_app in H; cbn in H; lia.
  - by assert (p = 1%positive) as -> by lia.
Qed.

(** ** Insertion *)

Lemma set_nelts_at l N m0 mn ne f :
  wp (Mem l N m0 mn ne) (modifyS (fun h => set_nelts (f (h_nelts h)) h))
     (fun a h => a = tt /\ Mem l N m0 mn (f ne) h).
Proof. intros h [Hn Hf <- <-]. eexists _, _. split; [done |]. by split. Qed.

Lemma write_loc_at l N m0 mn ne i v :
  NoDup l -> (0 < i)%nat -> (par i < length l)%nat ->
  wp (Mem l N m0 mn ne) (write_loc (loc_at l i) v)
     (fun a h => a = tt /\
        Mem l (upd_at (par i) (if Nat.even (i - 1) then with_left v (N (par i)) else with_right v (N (par i))) N)
          m0 mn ne h).
Proof.
  intros Hnd Hi Hp. destruct i as [| m]; [lia |]. cbn [loc_at].
  replace (S m - 1)%nat with m by lia. destruct (Nat.even m); cbn [write_loc]; by apply update_at.
Qed.

(** Storing a node at a new address. *)
Lemma store_new l m0 mn ne a :
  a ∉ l ->
  wp (Mem l (tree_node l) m0 mn ne) (store (Some a) (mk_node None None None))
     (fun u h => u = tt /\
        Mem (l ++ [a]) (upd_at (length l) (mk_node None None None) (tree_node l)) m0 mn ne h).
Proof.
  intros Ha h [Hn Hf <- <-]. eexists _, _. split; [done |]. split; [done |]. split; try done; simpl.
  - intros k p [Hk | [? Hk]]%lookup_app_Some.
    + rewrite upd_at_ne by (apply lookup_lt_Some in Hk; lia).
      rewrite lookup_insert_ne; [by apply Hn |]. intros ->. by apply Ha, list_elem_of_lookup; exists k.
    + apply list_lookup_singleton_Some in Hk as [Hk <-]. assert (k = length l) as -> by lia.
      by rewrite upd_at_eq, lookup_insert_eq.
  - intros p Hp. rewrite not_elem_of_app, list_elem_of_singleton in Hp. destruct Hp as [Hp Hpa].
    rewrite lookup_insert_ne by done. by apply Hf.
Qed.

Lemma lookup_snoc (l : list addr) a i :
  (l ++ [a]) !! i = if decide (i = length l) then Some a else l !! i.
Proof.
  destruct (decide (i = length l)) as [-> |]; [by apply list_lookup_middle |].
  destruct (decide (i < length l)%nat); [by rewrite lookup_app_l |].
  rewrite !lookup_ge_None_2; rewrite ?length_app; simpl; (done || lia).
Qed.

(** Which child of its parent a node is. *)
Lemma child_side i :
  (0 < i)%nat ->
  if Nat.even (i - 1) then i = (2 * par i + 1)%nat else i = (2 * par i + 2)%nat.
Proof.
  intros Hi. destruct (Nat.even (i - 1)) eqn:Ev.
  - apply Nat.even_spec in Ev as [x Hx]. unfold par. nlia.
  - assert (Nat.odd (i - 1) = true) as Od by (by rewrite <- Nat.negb_even, Ev).
    apply Nat.odd_spec in Od as [x Hx]. unfold par. nlia.
Qed.

(** The links of the longer list, once its last node hangs below its parent. *)
Lemma tree_node_snoc l a k :
  (k <= length l)%nat ->
  let n := length l in
  tree_node (l ++ [a]) k =
  if decide (k = n) then mk_node None None (parent_ptr (l ++ [a]) n)
  else if decide (0 < n /\ k = par n)%nat then
    (if Nat.even (n - 1) then with_left (Some a) (tree_node l k) else with_right (Some a) (tree_node l k))
  else tree_node l k.
Proof.
  intros Hk n. subst n. unfold tree_node.
  destruct (decide (k = length l)) as [-> | Hne].
  { rewrite !lookup_ge_None_2; [done | rewrite length_app; simpl; lia..]. }
  assert (parent_ptr (l ++ [a]) k = parent_ptr l k) as ->.
  { unfold parent_ptr. destruct (decide (k = 0%nat)); [done |]. rewrite lookup_snoc.
    pose proof (par_lt k). by rewrite decide_False by lia. }
  rewrite !lookup_snoc. pose proof (child_side (length l)) as Hside.
  destruct (decide (0 < length l /\ k = par (length l))%nat) as [[H0 ->] | Hp].
  - specialize (Hside H0). destruct (Nat.even (length l - 1)).
    + by rewrite decide_True, decide_False by lia.
    + by rewrite decide_False, decide_True by lia.
  - rewrite !decide_False; [done |..]; unfold par in *; nlia.
Qed.

Section Insert.
Variable lt : addr -> addr -> bool.
Context `{!WeakOrder lt}.

Lemma up_ok_snoc l a : heap_ordered lt l -> up_ok lt (l ++ [a]) (length l).
Proof.
  intros Ho. split.
  - intros m Hm x y H0 Hx Hy. rewrite lookup_snoc in Hx, Hy. rewrite decide_False in Hy by done.
    assert (m < length l)%nat by (by eapply lookup_lt_Some). pose proof (par_lt m H0).
    rewrite decide_False in Hx by lia. by apply (Ho m).
  - intros x y m _ _ H0 Hm Hy. rewrite lookup_snoc in Hy. pose proof (par_lt m H0).
    rewrite decide_False in Hy by lia. apply lookup_lt_Some in Hy. lia.
Qed.

Lemma heap_insert_at l m0 a :
  NoDup l -> Z.of_nat (length l) < 2 ^ 32 - 2 -> heap_ordered lt l -> a ∉ l ->
  wp (Mem l (tree_node l) m0 (l !! 0%nat) (Z.of_nat (length l))) (heap_insert lt a)
     (fun _ h => exists l', l' ≡ₚ a :: l /\ heap_ordered lt l' /\ HRep l' m0 h).
Proof.
  intros Hnd Hlen Ho Ha. set (n := length l) in *.
  assert (NoDup (l ++ [a])) as Hnd'.
  { apply NoDup_app. split_and!; [done | | apply NoDup_singleton]. intros x Hx ->%list_elem_of_singleton. done. }
  assert (length (l ++ [a]) = S n) as Hlen' by (rewrite length_app; simpl; lia).
  unfold heap_insert. eapply wp_write; [by apply store_new |].
  apply wp_getS. intros h0 Hh0. rewrite (mem_nelts _ _ _ _ _ _ Hh0). clear h0 Hh0.
  rewrite wrap_small by lia. replace (1 + Z.of_nat n) with (Z.of_nat (S n)) by lia.
  destruct (heap_path_index n) as (path & k & -> & Hbits & Hk0); [lia |]. rewrite !Nat2Z.id.
  set (N := upd_at (length l) (mk_node None None None) (tree_node l)).
  assert (forall i, (i < n)%nat -> (l ++ [a]) !! i = l !! i) as Hlk by (intros i Hi; by apply lookup_app_l).
  assert ((0 < n)%nat -> l !! 0%nat = (l ++ [a]) !! 0%nat) as Hmn by (intros; by rewrite Hlk).
  assert (forall i, (2 * i + 1 < n)%nat -> n_left (N i) = (l ++ [a]) !! (2 * i + 1)%nat) as Hleft.
  { intros i Hi. unfold N. rewrite upd_at_ne, Hlk by lia. done. }
  assert (forall i, (2 * i + 2 < n)%nat -> n_right (N i) = (l ++ [a]) !! (2 * i + 2)%nat) as Hright.
  { intros i Hi. unfold N. rewrite upd_at_ne, Hlk by lia. done. }
  eapply wp_read.
  { intros h Hh. refine (heap_traverse_at N _ _ n _ Hmn Hleft Hright k path 0%nat MinLoc h _ Hh); lia. }
  rewrite Hbits. cbv beta iota.
  eapply (wp_read _ _ (parent_ptr (l ++ [a]) n)).
  { intros h Hh. unfold parent_ptr. destruct (decide (n = 0%nat)) as [En | En].
    - rewrite decide_True by tauto. cbn. unfold mbind, prog_bind, getS. rewrite (mem_min _ _ _ _ _ _ Hh).
      by destruct l.
    - rewrite decide_False by tauto. pose proof (par_lt n).
      refine (read_loc_at N _ _ n _ Hmn Hleft Hright (par n) h _ Hh); lia. }
  assert (Some a = (l ++ [a]) !! n) as Han by (symmetry; by apply list_lookup_middle).
  rewrite Han. eapply wp_write; [apply update_at; [done | lia] |].
  (* the links are those of the longer list, then it is sifted *)
  assert (forall N' mn',
    (forall i, (i <= n)%nat -> N' i = tree_node (l ++ [a]) i) -> mn' = (l ++ [a]) !! 0%nat ->
    wp (Mem (l ++ [a]) N' m0 mn' (Z.of_nat n))
      (_ ← modifyS (fun h => set_nelts (u32 (h_nelts h + 1)) h); sift_up lt n ((l ++ [a]) !! n))
      (fun _ h => exists l', l' ≡ₚ a :: l /\ heap_ordered lt l' /\ HRep l' m0 h)) as Hsift.
  { intros N' mn' HN' ->. eapply wp_write; [apply (set_nelts_at _ _ _ _ _ (fun n => u32 (n + 1))) |].
    rewrite wrap_small by lia.
    intros h Hh. destruct (sift_up_at lt n (l ++ [a]) m0 (Z.of_nat n + 1) n) with (h := h)
      as ([] & h' & E & l' & Hl' & Ho' & Hm'); [done | lia | done | by apply up_ok_snoc | |].
    - revert Hh. apply Mem_ext. intros i Hi. apply HN'. lia.
    - eexists tt, h'. split; [exact E |]. exists l'. split; [by rewrite Hl'; symmetry; apply Permutation_cons_append |].
      split; [done |]. assert (length l' = S n) as El by (by rewrite Hl').
      split; [by rewrite Hl' |]. rewrite El. split; [lia |].
      by replace (Z.of_nat (S n)) with (Z.of_nat n + 1) by lia. }
  assert (forall i, (i <= n)%nat -> upd_at n (with_parent (parent_ptr (l ++ [a]) n) (N n)) N i
    = if decide (i = n) then mk_node None None (parent_ptr (l ++ [a]) n) else tree_node l i) as HN1.
  { intros i Hi. unfold N, upd_at, n. by repeat case_decide. }
  destruct (decide (n = 0%nat)) as [En | En].
  - assert (loc_at (l ++ [a]) n = MinLoc) as -> by by rewrite En.
    cbn [write_loc]. eapply wp_write; [apply set_min_at |].
    apply Hsift; [| by rewrite En]. intros i Hi. rewrite HN1, tree_node_snoc by done.
    fold n. rewrite !decide_True by lia. done.
  - pose proof (par_lt n). eapply wp_write; [apply write_loc_at; [done | lia..] |].
    apply Hsift; [| by apply Hmn; lia]. intros i Hi. rewrite tree_node_snoc by done. fold n.
    rewrite !(HN1 (par n)) by lia. rewrite (decide_False (P := par n = n)), <- Han by lia.
    destruct (decide (i = par n)) as [-> | Hip].
    + rewrite upd_at_eq, decide_False, decide_True by lia. done.
    + rewrite upd_at_ne, HN1 by done. by rewrite (decide_False (P := (0 < n)%nat /\ i = par n)) by tauto.
Qed.
End Insert.

(** ** Removal *)

Section Remove.
Context {l0 : list addr} {mx : addr} {m0 : gmap addr heap_node}.
Let l := l0 ++ [mx].
Let n := length l0.
Context (Hnd : NoDup l).

(** The last node, once unlinked, is outside the tree. *)
Lemma Mem_drop_last N mn ne h : Mem l N m0 mn ne h -> Mem l0 N (<[mx := N n]> m0) mn ne h.
Proof.
  intros [Hn Hf Hmn Hne]. split; try done.
  - intros k p Hk. apply Hn. by apply lookup_app_l_Some.
  - intros p Hp. destruct (decide (p = mx)) as [-> | Hpm].
    + rewrite lookup_insert_eq. apply Hn. by apply list_lookup_middle.
    + rewrite lookup_insert_ne by done. apply Hf. unfold l.
      rewrite not_elem_of_app, list_elem_of_singleton. done.
Qed.

(** The last node in the place of the node [x] of index [i]. *)
Lemma Mem_replace N mn ne h i x :
  l0 !! i = Some x -> Mem l N m0 mn ne h ->
  Mem (<[i := mx]> l0) (upd_at i (N n) N) (<[x := N i]> m0) mn ne h.
Proof.
  intros Hx [Hn Hf Hmn Hne]. assert (i < n)%nat as Hi by (by eapply lookup_lt_Some). split; try done.
  - intros k p Hk. destruct (decide (k = i)) as [-> | Hki].
    + rewrite list_lookup_insert_eq in Hk by done. injection Hk as <-. rewrite upd_at_eq.
      apply Hn. by apply list_lookup_middle.
    + rewrite list_lookup_insert_ne in Hk by done. rewrite upd_at_ne by done.
      apply Hn. by apply lookup_app_l_Some.
  - intros p Hp. destruct (decide (p = x)) as [-> | Hpx].
    + rewrite lookup_insert_eq. apply Hn. by apply lookup_app_l_Some.
    + rewrite lookup_insert_ne by done. apply Hf. unfold l.
      rewrite not_elem_of_app, list_elem_of_singleton. split.
      * intros [k Hk]%list_elem_of_lookup. apply Hp, list_elem_of_lookup. exists k.
        rewrite list_lookup_insert_ne; [done |]. intros ->. congruence.
      * intros ->. apply Hp, list_elem_of_lookup. exists i. by apply list_lookup_insert_eq.
Qed.

Lemma update_parent_if_prefix N mn ne k v :
  wp (Mem l N m0 mn ne) (update_parent_if (l0 !! k) v)
     (fun a h => a = tt /\
        Mem l (if decide (k < n)%nat then upd_at k (with_parent v (N k)) N else N) m0 mn ne h).
Proof.
  destruct (decide (k < n)%nat) as [Hk | Hk].
  - rewrite <- (lookup_app_l l0 [mx]) by done. by apply update_parent_if_at.
  - rewrite lookup_ge_None_2 by (unfold n in *; lia). intros h Hh. by eexists _, _.
Qed.

Lemma lookup_prefix k : (k < n)%nat -> l0 !! k = l !! k.
Proof. intros Hk. symmetry. by apply lookup_app_l. Qed.

(** The tree without its last node, before the links of the last node are changed. *)
Lemma unlink_last_at ne :
  wp (Mem l (tree_node l) m0 (l !! 0%nat) ne) (write_loc (loc_at l n) None)
     (fun a h => a = tt /\ exists N, N n = tree_node l n /\ (forall k, (k < n)%nat -> N k = tree_node l0 k) /\
        Mem l N m0 (l0 !! 0%nat) ne h).
Proof.
  assert (length l = S n) as Hlen by (unfold l; rewrite length_app; simpl; lia).
  destruct (decide (n = 0%nat)) as [En | En].
  - assert (loc_at l n = MinLoc) as -> by by rewrite En. cbn [write_loc].
    eapply wp_weaken; [apply set_min_at |]. intros [] h [_ Hh]. split; [done |]. exists (tree_node l).
    split_and!; [done | intros; lia |]. assert (l0 = []) as E0 by (by apply length_zero_iff_nil).
    by rewrite E0.
  - pose proof (par_lt n) as Hp. eapply wp_weaken; [apply write_loc_at; [done | lia..] |].
    intros [] h [_ Hh]. split; [done |]. eexists. split_and!; [| | rewrite lookup_prefix by lia; exact Hh].
    + rewrite upd_at_ne by lia. done.
    + intros k Hk. pose proof (tree_node_snoc l0 mx) as Ht. cbv zeta in Ht. fold l n in Ht.
      pose proof (child_side n) as Hside.
      destruct (decide (k = par n)) as [-> | Hkp].
      * rewrite upd_at_eq, !Ht by lia. rewrite decide_False, decide_True by lia.
        unfold tree_node. destruct (Nat.even (n - 1)); unfold with_left, with_right; cbn [n_left n_right n_parent];
          f_equal; symmetry; apply lookup_ge_None_2; fold n; lia.
      * rewrite upd_at_ne, Ht by lia. rewrite !decide_False by lia. done.
Qed.

(** The last node takes over the links of the node of index [i]. *)
Definition replaced (i : nat) (ne : Z) (h : heap) : Prop :=
  exists m0', (forall p, p ∉ l -> m0' !! p = m0 !! p) /\
    let l1 := <[i := mx]> l0 in Mem l1 (tree_node l1) m0' (l1 !! 0%nat) ne h.

Lemma replace_node_at N ne i x (K : M unit) R :
  l0 !! i = Some x -> (forall k, (k < n)%nat -> N k = tree_node l0 k) ->
  wp (replaced i ne) K R ->
  wp (Mem l N m0 (l0 !! 0%nat) ne)
     (n' ← load (Some x); _ ← update (Some mx) (with_left (n_left n'));
      n' ← load (Some x); _ ← update (Some mx) (with_right (n_right n'));
      n' ← load (Some x); _ ← update (Some mx) (with_parent (n_parent n'));
      c ← load (Some mx); _ ← update_parent_if (n_left c) (Some mx);
      c ← load (Some mx); _ ← update_parent_if (n_right c) (Some mx);
      n' ← load (Some x);
      _ ← (match n_parent n' with
           | None => modifyS (set_min (Some mx))
           | Some _ =>
               g ← load (n_parent n');
               if bool_decide (n_left g = Some x)
               then update (n_parent n') (with_left (Some mx))
               else update (n_parent n') (with_right (Some mx))
           end);
      K) R.
Proof.
  intros Hx HN HK. assert (i < n)%nat as Hi by (by eapply lookup_lt_Some).
  assert (length l = S n) as Hlen by (unfold l; rewrite length_app; simpl; lia).
  assert (Some x = l !! i) as Exi by (by rewrite <- lookup_prefix).
  assert (Some mx = l !! n) as Emx by (symmetry; by apply list_lookup_middle).
  rewrite !Exi, !Emx.
  eapply wp_read; [intros h; apply load_at; lia |]. rewrite (HN i) by done. cbn [n_left tree_node].
  eapply wp_write; [apply update_at; [done | lia] |].
  eapply wp_read; [intros h; apply load_at; lia |]. upd_simpl. rewrite (HN i) by done. cbn [n_right tree_node].
  eapply wp_write; [apply update_at; [done | lia] |].
  eapply wp_read; [intros h; apply load_at; lia |]. upd_simpl. rewrite (HN i) by done. cbn [n_parent tree_node].
  eapply wp_write; [apply update_at; [done | lia] |].
  eapply wp_read; [intros h; apply load_at; lia |]. upd_simpl.
  eapply wp_write; [apply update_parent_if_prefix |].
  set (N1 := upd_at n _ (upd_at n _ _)).
  assert (N1 n = tree_node l0 i) as En by (unfold N1; rewrite !upd_at_eq; by destruct (N n)).
  assert (forall k, (k < n)%nat -> N1 k = tree_node l0 k) as HN1
    by (intros k Hk; unfold N1; rewrite !upd_at_ne by lia; by apply HN).
  clearbody N1.
  set (N2 := if decide _ then upd_at (2 * i + 1) _ N1 else N1).
  assert (N2 n = tree_node l0 i) as En2 by (unfold N2; case_decide; upd_simpl; done).
  assert (forall k, (k < n)%nat -> N2 k = if decide (k = 2 * i + 1)%nat then with_parent (l !! n) (tree_node l0 k)
    else tree_node l0 k) as HN2.
  { intros k Hk. unfold N2. destruct (decide (k = 2 * i + 1)%nat) as [-> |]; repeat case_decide; try lia;
      upd_simpl; by rewrite HN1. }
  clearbody N2.
  eapply wp_read; [intros h; apply load_at; lia |]. rewrite En2. cbn [n_right tree_node].
  eapply wp_write; [apply update_parent_if_prefix |].
  set (N3 := if decide _ then upd_at (2 * i + 2) _ N2 else N2).
  assert (N3 n = tree_node l0 i) as En3 by (unfold N3; case_decide; upd_simpl; done).
  assert (forall k, (k < n)%nat -> N3 k = if decide (0 < k /\ par k = i)%nat
    then with_parent (l !! n) (tree_node l0 k) else tree_node l0 k) as HN3.
  { intros k Hk. unfold N3. destruct (decide (k = 2 * i + 2)%nat) as [-> |]; repeat case_decide;
      try (exfalso; unfold par in *; nlia); upd_simpl; rewrite HN2 by done; case_decide;
      try (exfalso; unfold par in *; nlia); done. }
  clearbody N3.
  eapply wp_read; [intros h; apply load_at; lia |]. rewrite HN3 by done.
  rewrite decide_False by (unfold par in *; nlia). cbn [n_parent tree_node].
  set (l1 := <[i := mx]> l0).
  assert (forall m, l1 !! m = if decide (m = i) then Some mx else l0 !! m) as Hl1.
  { intros m. unfold l1. case_decide as Em; [rewrite Em; by apply list_lookup_insert_eq |].
    by apply list_lookup_insert_ne. }
  assert (tree_node l1 i = tree_node l0 i) as Ei.
  { unfold tree_node, parent_ptr. rewrite !Hl1. pose proof (par_lt i). repeat case_decide; lia || done. }
  assert (forall f, (forall k, (0 < i)%nat -> k = par i -> f (tree_node l0 k) = tree_node l1 k) ->
    forall k, (k < n)%nat -> k <> i ->
    (if decide (0 < i /\ k = par i)%nat then f (N3 k) else N3 k) = tree_node l1 k) as Hnodes.
  { intros f Hf k Hk Hki. rewrite HN3 by done. destruct (decide (0 < i /\ k = par i)%nat) as [[H0 Ek] | Hkp].
    - rewrite decide_False by (unfold par in *; nlia). by apply Hf.
    - unfold tree_node, parent_ptr, with_parent. rewrite !Hl1, <- Emx.
      repeat case_decide; try (exfalso; unfold par in *; nlia); done. }
  assert (forall N4 h, (forall k, (k < n)%nat -> k <> i -> N4 k = tree_node l1 k) -> N4 n = tree_node l0 i ->
    Mem l N4 m0 (l1 !! 0%nat) ne h ->
    exists m0', (forall p, p ∉ l -> m0' !! p = m0 !! p) /\ Mem l1 (tree_node l1) m0' (l1 !! 0%nat) ne h) as Hfin.
  { intros N4 h HN4 E4 Hh. exists (<[x := N4 i]> m0). split.
    - intros p Hp. rewrite lookup_insert_ne; [done |]. intros ->. apply Hp, list_elem_of_lookup. by exists i.
    - apply (Mem_replace _ _ _ _ i x Hx) in Hh. fold l1 in Hh. revert Hh. apply Mem_ext. intros k Hk.
      unfold l1 in Hk. rewrite length_insert in Hk. destruct (decide (k = i)) as [-> | Hki].
      + by rewrite upd_at_eq, E4, Ei.
      + rewrite upd_at_ne by done. by apply HN4. }
  apply (wp_bind _ _ _ (fun _ => replaced i ne)); [| intros _; exact HK]. unfold replaced; cbv zeta; fold l1.
  unfold parent_ptr. destruct (decide (i = 0%nat)) as [Ei0 | Ei0].
  - eapply wp_weaken; [apply set_min_at |]. intros [] h [_ Hh]. apply (Hfin N3); [| done |].
    + intros k Hk Hki. rewrite <- (Hnodes (fun n => n)) by (done || lia). by destruct (decide (0 < i /\ k = par i)%nat).
    + rewrite Hl1, decide_True by done. by rewrite Emx.
  - pose proof (par_lt i) as Hpi. destruct (lookup_lt_is_Some_2 l0 (par i)) as [g Hg]; [fold n; lia |].
    rewrite match_ptr_some by (by rewrite Hg). rewrite (lookup_prefix (par i)) by lia.
    eapply wp_read; [intros h; apply load_at; lia |].
    rewrite HN3, decide_False by (unfold par in *; nlia). cbn [n_left tree_node].
    rewrite <- Exi, <- Hx.
    assert (NoDup l0) as Hnd0 by (by apply NoDup_app in Hnd as (? & _)).
    rewrite (ptr_eq_idx Hnd0 i) by done. rewrite Hl1, decide_False in Hfin by lia.
    assert (forall f, (forall k, (0 < i)%nat -> k = par i -> f (tree_node l0 k) = tree_node l1 k) ->
      wp (Mem l N3 m0 (l0 !! 0%nat) ne) (update (l !! par i) f)
      (fun _ h => exists m0', (forall p, p ∉ l -> m0' !! p = m0 !! p) /\
        Mem l1 (tree_node l1) m0' (l1 !! 0%nat) ne h)) as Hup.
    { intros f Hf. eapply wp_weaken; [apply update_at; [done | lia] |]. intros [] h [_ Hh].
      rewrite Hl1, decide_False by lia. apply (Hfin _ h) in Hh; [done | | by upd_simpl].
      intros k Hk Hki. rewrite <- (Hnodes f Hf k Hk Hki). unfold upd_at. repeat case_decide; subst; done || lia. }
    case_bool_decide as Eb; apply Hup; intros k _ ->; unfold tree_node, with_left, with_right, parent_ptr;
      cbn [n_left n_right n_parent]; rewrite !Hl1, <- Emx; repeat case_decide;
      try (exfalso; unfold par in *; nlia); done.
Qed.
End Remove.

Section RemoveOrder.
Variable lt : addr -> addr -> bool.
Context `{!WeakOrder lt}.

Lemma heap_ordered_prefix l0 mx : heap_ordered lt (l0 ++ [mx]) -> heap_ordered lt l0.
Proof.
  intros Ho m a b H0 Ha Hb. apply (Ho m a b H0); by apply lookup_app_l_Some.
Qed.

Lemma around_ok_replace l0 i x mx :
  heap_ordered lt l0 -> l0 !! i = Some x -> around_ok lt (<[i := mx]> l0) i.
Proof.
  intros Ho Hx. assert (i < length l0)%nat as Hi by (by eapply lookup_lt_Some). split.
  - intros m H0 Hm Hpm a b _ Ha Hb. rewrite list_lookup_insert_ne in Ha, Hb by done. by apply (Ho m).
  - intros a b m H0 Ha Hm Hpm Hb. pose proof (par_lt i H0). pose proof (par_lt m Hm).
    rewrite list_lookup_insert_ne in Ha by lia. rewrite list_lookup_insert_ne in Hb by lia.
    apply (wo_trans _ x); [by apply (Ho i) |]. apply (Ho m); [done | by rewrite Hpm | done].
Qed.

Lemma heap_remove_at l m0 i x :
  NoDup l -> Z.of_nat (length l) < 2 ^ 32 - 1 -> heap_ordered lt l -> l !! i = Some x ->
  wp (Mem l (tree_node l) m0 (l !! 0%nat) (Z.of_nat (length l))) (heap_remove lt (Some x))
     (fun _ h => exists l' m0', l ≡ₚ x :: l' /\ (forall p, p ∉ l -> m0' !! p = m0 !! p) /\
                                heap_ordered lt l' /\ HRep l' m0' h).
Proof.
  intros Hnd Hlen Ho Hx. destruct (decide (l = [])) as [-> | Hne]; [done |].
  destruct (exists_last Hne) as (l0 & mx & ->).
  set (l := l0 ++ [mx]) in *. set (n := length l0).
  assert (length l = S n) as El by (unfold l; rewrite length_app; simpl; lia).
  assert (NoDup l0) as Hnd0 by (by apply NoDup_app in Hnd as (? & _)).
  assert (mx ∉ l0) as Hmx.
  { apply NoDup_app in Hnd as (_ & Hd & _). intros Hin. apply (Hd mx Hin). by apply list_elem_of_singleton. }
  pose proof (heap_ordered_prefix _ _ Ho) as Ho0. rewrite El in *.
  unfold heap_remove. apply wp_getS. intros h0 Hh0. rewrite (mem_nelts _ _ _ _ _ _ Hh0). clear h0 Hh0.
  destruct (Z.eqb_spec (Z.of_nat (S n)) 0); [lia |].
  destruct (heap_path_index n) as (path & k & -> & Hbits & Hk0); [lia |]. rewrite !Nat2Z.id.
  eapply wp_read.
  { intros h Hh. refine (heap_traverse_at (tree_node l) _ _ (S n) _ _ _ _ k path 0%nat MinLoc h _ Hh);
      (lia || done). }
  rewrite Hbits. cbv beta iota.
  eapply wp_write; [apply (set_nelts_at _ _ _ _ _ (fun n => u32 (n - 1))) |].
  rewrite wrap_small by lia. replace (Z.of_nat (S n) - 1) with (Z.of_nat n) by lia.
  eapply wp_read.
  { intros h Hh. refine (read_loc_at (tree_node l) _ _ (S n) _ _ _ _ n h _ Hh); (lia || done). }
  eapply wp_bind; [by apply (unlink_last_at Hnd) |]. intros [].
  apply wp_cases. intros h1 (_ & N & Nn & HN & Hh1). eexists. split; [exact Hh1 |]. clear h1 Hh1.
  fold l n in Nn, HN |- *.
  assert (l !! n = Some mx) as Emx by by apply list_lookup_middle. rewrite Emx.
  destruct (decide (i = n)) as [-> | Hin].
  - assert (mx = x) as <- by congruence. rewrite bool_decide_eq_true_2 by done.
    assert (l ≡ₚ mx :: l0) as Hperm by (symmetry; apply Permutation_cons_append).
    assert (forall h, Mem l N m0 (l0 !! 0%nat) (Z.of_nat n) h -> exists l' m0', l ≡ₚ mx :: l' /\
      (forall p, p ∉ l -> m0' !! p = m0 !! p) /\ heap_ordered lt l' /\ HRep l' m0' h) as Hfin.
    { intros h Hh%Mem_drop_last. exists l0, (<[mx := N n]> m0). split_and!; try done.
      - intros p Hp. apply lookup_insert_ne. intros ->. apply Hp. rewrite Hperm. by left.
      - split; [done |]. fold n. split; [lia |]. revert Hh. by apply Mem_ext. }
    apply wp_getS. intros h Hh. rewrite (mem_min _ _ _ _ _ _ Hh), bool_decide_eq_false_2; [by apply wp_ret |].
    intros E. apply Hmx, list_elem_of_lookup. by exists 0%nat.
  - assert (i < n)%nat as Hi by (apply lookup_lt_Some in Hx; lia).
    assert (l0 !! i = Some x) as Hx0 by (by rewrite <- (lookup_app_l l0 [mx]) by done).
    rewrite bool_decide_eq_false_2 by (intros [= ->]; apply Hmx, list_elem_of_lookup; by exists i).
    apply (replace_node_at Hnd N _ i x); [done.. |].
    apply wp_cases. intros h1 (m1 & Hfr & Hh1). eexists. split; [exact Hh1 |]. clear h1 Hh1.
    set (l1 := <[i := mx]> l0). assert (length l1 = n) as El1 by apply length_insert.
    assert (l1 !! i = Some mx) as Hmi by (by apply list_lookup_insert_eq).
    assert (mx :: l0 ≡ₚ x :: l1) as Hperm.
    { unfold l1. rewrite (insert_take_drop _ _ _ Hi), <- (take_drop_middle _ _ _ Hx0) at 1. solve_Permutation. }
    assert (NoDup (x :: l1)) as Hnd1 by (rewrite <- Hperm; by constructor).
    apply NoDup_cons in Hnd1 as [Hx1 Hnd1]. rewrite <- Hmi.
    eapply wp_bind; [apply (sift_down_at lt (S n) l1 m1 _ i); [done | by rewrite El1 | rewrite El1; lia | by eapply around_ok_replace] |]. intros [].
    apply wp_cases. intros h2 (l2 & k2 & Hl2 & Hk2 & Hup & Hh2). eexists. split; [exact Hh2 |]. clear h2 Hh2.
    assert (length l2 = n) as El2 by (by rewrite Hl2).
    rewrite <- Hk2. assert (k2 < length l2)%nat by (eapply lookup_lt_Some; by rewrite Hk2).
    eapply wp_weaken; [apply (sift_up_at lt (S n) l2 m1 _ k2); [by rewrite Hl2 | done | lia | done] |].
    intros _ h (l3 & Hl3 & Ho3 & Hh3). exists l3, m1. assert (l3 ≡ₚ l1) as Hl31 by by rewrite Hl3.
    split_and!; [| done | done |].
    + rewrite Hl31, <- Hperm. symmetry. apply Permutation_cons_append.
    + assert (length l3 = n) as El3 by (by rewrite Hl31). split; [by rewrite Hl31 |].
      rewrite El3. split; [lia | done].
Qed.
End RemoveOrder.
