(* ===== verification/HeapRefine.v ===== *)
(** * The heap of libuv refines a set with a least element

    The contract of [heap-inl.h]: a heap stands for the set of the nodes that were
    inserted and not removed since; insertion adds one node, removal takes out the
    node given, and [heap_min] is a node with no smaller one in the set. *)

From Stdlib Require Import ZArith Lia.
From stdpp Require Import gmap sorting.
From S2P Require Import Prelude Heap HeapSpec HeapProps.

Section Refine.
Variable lt : addr -> addr -> bool.

(** [heap_of X h]: [h] is an ordered heap of the nodes of [X]. *)
Definition heap_of (X : gset addr) (h : heap) : Prop :=
  exists l m0, list_to_set l = X /\ heap_ordered lt l /\ HRep l m0 h.

(** The operations of the heap, and what each does to the set. *)
Inductive heap_op : Type :=
  | Insert (a : addr)
  | Remove (a : addr)
  | Dequeue.

Definition run_op (op : heap_op) : M unit :=
  match op with
  | Insert a => heap_insert lt a
  | Remove a => heap_remove lt (Some a)
  | Dequeue => heap_dequeue lt
  end.

(** What the client owes: it inserts nodes that are not in the heap, of which there
    are fewer than [UINT_MAX - 1], and removes nodes that are. *)
Definition op_allowed (op : heap_op) (X : gset addr) : Prop :=
  match op with
  | Insert a => (a ∉ X) /\ Z.of_nat (size X) < 2 ^ 32 - 2
  | Remove a => a ∈ X
  | Dequeue => True
  end.

Definition least (x : addr) (X : gset addr) : Prop := x ∈ X /\ forall y, y ∈ X -> lt y x = false.

Inductive op_step : heap_op -> gset addr -> gset addr -> Prop :=
  | step_insert a X : op_step (Insert a) X ({[a]} ∪ X)
  | step_remove a X : op_step (Remove a) X (X ∖ {[a]})
  | step_dequeue x X : least x X -> op_step Dequeue X (X ∖ {[x]})
  | step_dequeue_empty : op_step Dequeue ∅ ∅.

(** The nodes an operation may write. *)
Definition op_nodes (op : heap_op) : gset addr := match op with Insert a => {[a]} | _ => ∅ end.

Definition same_outside (D : gset addr) (h h' : heap) : Prop :=
  forall p, p ∉ D -> h_mem h' !! p = h_mem h !! p.

Lemma size_list (l : list addr) (X : gset addr) : NoDup l -> list_to_set l = X -> size X = length l.
Proof. intros Hnd <-. by apply size_list_to_set. Qed.

Lemma elem_of_list (l : list addr) (X : gset addr) a : list_to_set l = X -> (a ∈ X) <-> (a ∈ l).
Proof. intros <-. apply elem_of_list_to_set. Qed.

Lemma HRep_nelts l m0 h : HRep l m0 h -> h_nelts h = Z.of_nat (length l).
Proof. intros (_ & _ & Hm). by apply (mem_nelts _ _ _ _ _ _ Hm). Qed.

Lemma HRep_min l m0 h : HRep l m0 h -> h_min h = l !! 0%nat.
Proof. intros (_ & _ & Hm). by apply (mem_min _ _ _ _ _ _ Hm). Qed.

Lemma heap_of_init h : heap_of ∅ (heap_init h).2.
Proof.
  exists [], (h_mem h). split_and!; [done | intros m a b _ Ha; done |]. split; [constructor |]. split; [done |].
  by split.
Qed.

Lemma heap_of_nelts X h : heap_of X h -> h_nelts h = Z.of_nat (size X).
Proof.
  intros (l & m0 & HX & _ & Hr). rewrite (HRep_nelts _ _ _ Hr). by rewrite (size_list l X) by apply Hr || done.
Qed.

Context `{!WeakOrder lt}.

Lemma list_to_set_perm (l l' : list addr) : l ≡ₚ l' -> (list_to_set l : gset addr) = list_to_set l'.
Proof. intros Hp. apply set_eq. intros x. rewrite !elem_of_list_to_set. by rewrite Hp. Qed.

Lemma remove_step l m0 h X a :
  list_to_set l = X -> heap_ordered lt l -> HRep l m0 h -> a ∈ l ->
  exists h', heap_remove lt (Some a) h = (Done tt, h') /\ heap_of (X ∖ {[a]}) h' /\ same_outside X h h'.
Proof.
  intros HX Ho (Hnd & Hlen & Hm) Ha. apply list_elem_of_lookup in Ha as [i Hi].
  destruct (heap_remove_at lt l m0 i a Hnd Hlen Ho Hi h Hm) as ([] & h' & E & l' & m1 & Hp & Hfr & Ho' & Hr').
  exists h'. split; [done |]. assert (NoDup (a :: l')) as Hnd' by (by rewrite <- Hp).
  apply NoDup_cons in Hnd' as [Ha' Hnd']. split.
  - exists l', m1. split; [| done]. rewrite <- HX, (list_to_set_perm _ _ Hp). set_solver.
  - destruct Hr' as (_ & _ & Hm'). intros p Hpx. rewrite <- HX, elem_of_list_to_set in Hpx.
    assert (p ∉ l') as Hpl' by (intros ?; apply Hpx; rewrite Hp; by right).
    by rewrite (mem_frame _ _ _ _ _ _ Hm p Hpx), (mem_frame _ _ _ _ _ _ Hm' p Hpl'), Hfr.
Qed.

Lemma head_least l X : list_to_set l = X -> heap_ordered lt l ->
  match l !! 0%nat with Some r => least r X | None => X = ∅ end.
Proof.
  intros HX Ho. destruct (l !! 0%nat) as [r |] eqn:E.
  - split; [rewrite elem_of_list; [| done]; apply list_elem_of_lookup; by exists 0%nat |].
    intros y Hy. rewrite elem_of_list in Hy by done. by apply (root_least lt l r).
  - by destruct l.
Qed.

(** One operation: the pointers do what the set does, and write nothing but nodes. *)
Lemma run_op_step op X h :
  heap_of X h -> op_allowed op X ->
  exists h' X', run_op op h = (Done tt, h') /\ op_step op X X' /\ heap_of X' h' /\
                same_outside (op_nodes op ∪ X) h h'.
Proof.
  intros (l & m0 & HX & Ho & Hr) Hop. destruct op as [a | a |]; cbn [run_op op_nodes].
  - destruct Hop as [Ha Hsz]. pose proof Hr as (Hnd & Hlen & Hm).
    rewrite (size_list l X Hnd HX) in Hsz. rewrite elem_of_list in Ha by done.
    destruct (heap_insert_at lt l m0 a Hnd Hsz Ho Ha h Hm) as ([] & h' & E & l' & Hp & Ho' & Hr').
    exists h', ({[a]} ∪ X). split; [done |]. split; [constructor |]. split.
    + exists l', m0. split; [| done]. rewrite <- HX, (list_to_set_perm _ _ Hp). by set_solver.
    + destruct Hr' as (_ & _ & Hm'). intros p Hpx.
      assert (p <> a /\ p ∉ l) as [Hpa Hpl].
      { rewrite <- (elem_of_list l X) by exact HX. set_solver +Hpx. }
      assert (p ∉ l') as Hpl' by (by rewrite Hp, not_elem_of_cons).
      by rewrite (mem_frame _ _ _ _ _ _ Hm p Hpl), (mem_frame _ _ _ _ _ _ Hm' p Hpl').
  - cbn in Hop. rewrite elem_of_list in Hop by done.
    destruct (remove_step l m0 h X a HX Ho Hr Hop) as (h' & E & Hh' & Hs).
    exists h', (X ∖ {[a]}). rewrite union_empty_l_L. split_and!; [done | constructor | done..].
  - rewrite union_empty_l_L. unfold heap_dequeue, heap_min, mbind, prog_bind, getS, mret, prog_ret.
    rewrite (HRep_min _ _ _ Hr). pose proof (head_least l X HX Ho) as Hl.
    destruct (l !! 0%nat) as [r |] eqn:E.
    + destruct (remove_step l m0 h X r HX Ho Hr) as (h' & E' & Hh' & Hs).
      { apply list_elem_of_lookup. by exists 0%nat. }
      exists h', (X ∖ {[r]}). split_and!; [done | by constructor | done..].
    + subst X. assert (l = []) as -> by by destruct l. exists h, ∅.
      assert (h_nelts h = 0) as En by by rewrite (HRep_nelts _ _ _ Hr).
      split_and!; [| rewrite Hl; constructor | by exists [], m0 | done].
      unfold heap_remove, mbind, prog_bind, getS. by rewrite En.
Qed.

(** ** Programs *)

Fixpoint run_ops (ops : list heap_op) : M unit :=
  match ops with
  | [] => mret tt
  | op :: ops => _ ← run_op op; run_ops ops
  end.

Inductive op_steps : list heap_op -> gset addr -> gset addr -> Prop :=
  | steps_nil X : op_steps [] X X
  | steps_cons op ops X Y Z : op_step op X Y -> op_steps ops Y Z -> op_steps (op :: ops) X Z.

(** The client keeps its side whichever least node the heap takes out. *)
Fixpoint client_ok (ops : list heap_op) (X : gset addr) : Prop :=
  match ops with
  | [] => True
  | op :: ops => op_allowed op X /\ forall Y, op_step op X Y -> client_ok ops Y
  end.

Definition ops_nodes (ops : list heap_op) : gset addr := ⋃ (op_nodes <$> ops).

Lemma op_step_sub op X Y : op_step op X Y -> Y ⊆ op_nodes op ∪ X.
Proof. destruct 1; cbn [op_nodes]; set_solver. Qed.

Lemma run_ops_steps ops X h :
  heap_of X h -> client_ok ops X ->
  exists h' X', run_ops ops h = (Done tt, h') /\ op_steps ops X X' /\ heap_of X' h' /\
                same_outside (ops_nodes ops ∪ X) h h'.
Proof.
  revert X h. induction ops as [| op ops IH]; intros X h Hh Hok.
  - exists h, X. split_and!; [done | constructor | done | done].
  - destruct Hok as [Hop Hok]. destruct (run_op_step op X h Hh Hop) as (h1 & Y & E & Hs & Hh1 & Ho1).
    destruct (IH Y h1 Hh1 (Hok Y Hs)) as (h2 & Z & E2 & Hs2 & Hh2 & Ho2). exists h2, Z. split_and!.
    + cbn [run_ops]. by rewrite (prog_bind_done _ _ _ _ _ E).
    + by eapply steps_cons.
    + done.
    + apply op_step_sub in Hs. intros p Hp.
      assert ((p ∉ op_nodes op ∪ X) /\ (p ∉ ops_nodes ops)) as [Hp1 Hp2].
      { unfold ops_nodes in *. cbn [fmap list_fmap union_list] in Hp. set_solver +Hp. }
      rewrite Ho2, Ho1 by set_solver. done.
Qed.

(** Repeated removal of the least node. *)
Fixpoint drain (k : nat) : M (list addr) :=
  match k with
  | O => mret []
  | S k => m ← heap_min; _ ← heap_dequeue lt; l ← drain k;
           match m with Some x => mret (x :: l) | None => mret l end
  end.

Lemma heap_min_least X h :
  heap_of X h -> heap_min h = (Done (h_min h), h) /\
  match h_min h with Some r => least r X | None => X = ∅ end.
Proof.
  intros (l & m0 & HX & Ho & Hr). split; [done |]. rewrite (HRep_min _ _ _ Hr). by apply head_least.
Qed.

Lemma dequeue_step X h r :
  heap_of X h -> h_min h = Some r ->
  exists h', heap_dequeue lt h = (Done tt, h') /\ heap_of (X ∖ {[r]}) h'.
Proof.
  intros (l & m0 & HX & Ho & Hr) Er. rewrite (HRep_min _ _ _ Hr) in Er.
  destruct (remove_step l m0 h X r HX Ho Hr) as (h' & E & Hh' & _).
  { apply list_elem_of_lookup. by exists 0%nat. }
  exists h'. split; [| done]. unfold heap_dequeue, heap_min, mbind, prog_bind, getS, mret, prog_ret.
  by rewrite (HRep_min _ _ _ Hr), Er.
Qed.

Lemma drain_sorted k X h :
  heap_of X h -> size X = k ->
  exists l h', drain k h = (Done l, h') /\ NoDup l /\ list_to_set l = X /\
               StronglySorted (fun a b => lt b a = false) l /\ heap_of ∅ h'.
Proof.
  revert X h. induction k as [| k IH]; intros X h Hh Hk.
  - apply size_empty_inv in Hk. apply leibniz_equiv in Hk as ->. exists [], h.
    split_and!; [done | constructor | done | constructor | done].
  - destruct (heap_min_least X h Hh) as [Em Hl]. destruct (h_min h) as [r |] eqn:Er.
    2: { subst X. by rewrite size_empty in Hk. }
    destruct (dequeue_step X h r Hh Er) as (h1 & E1 & Hh1). destruct Hl as [Hr Hl].
    assert (size (X ∖ {[r]}) = k) as Hk1.
    { rewrite size_difference, size_singleton by set_solver. lia. }
    destruct (IH _ _ Hh1 Hk1) as (l & h2 & E2 & Hnd & HX & Hs & Hh2). exists (r :: l), h2. split_and!.
    + cbn [drain]. rewrite (prog_bind_done _ _ _ _ _ Em), (prog_bind_done _ _ _ _ _ E1),
        (prog_bind_done _ _ _ _ _ E2). done.
    + apply NoDup_cons. split; [| done]. rewrite <- (elem_of_list_to_set (C := gset addr)), HX. set_solver.
    + rewrite list_to_set_cons, HX. apply set_eq. intros y. destruct (decide (y = r)) as [-> |]; set_solver.
    + constructor; [done |]. apply Forall_forall. intros y Hy. apply Hl.
      apply (elem_of_list_to_set (C := gset addr)) in Hy. rewrite HX in Hy. set_solver.
    + done.
Qed.
End Refine.

(** ** The contract *)

#[export] Instance pos_ltb_order : WeakOrder Pos.ltb.
Proof. split; intros *; rewrite ?Pos.ltb_lt, ?Pos.ltb_ge; lia. Qed.

(** C11: heap-inl.h is a priority queue.  From [heap_init], with whatever nodes in
    memory, and for any sequence of insertions of new nodes, removals of nodes that
    are in the heap and dequeues, in which there are never more than [UINT_MAX - 2]
    nodes: the pointer code follows no [NULL] and no stray pointer, its loops end, and
    it leaves a complete ordered tree of exactly the nodes the abstract set holds,
    where a dequeue takes out a node with no smaller one; memory that is not a node
    of the heap is not written. *)
Theorem heap_programs_refine lt ops h0 (Ho : WeakOrder lt) (Hok : client_ok lt ops ∅) :
  exists h X, (_ ← heap_init; run_ops lt ops) h0 = (Done tt, h) /\
    op_steps lt ops ∅ X /\ heap_of lt X h /\ h_nelts h = Z.of_nat (size X) /\
    same_outside (ops_nodes ops) h0 h.
Proof.
  destruct (run_ops_steps lt ops ∅ (heap_init h0).2) as (h & X & E & Hs & Hh & Hf);
    [apply heap_of_init | done |].
  exists h, X. split_and!; [done | done | done | by apply (heap_of_nelts lt) |].
  by rewrite union_empty_r_L in Hf.
Qed.

Lemma heap_programs_refine_witness :
  client_ok Pos.ltb [Insert 3; Insert 1; Dequeue; Remove 3]%positive ∅ /\
  exists h X, (_ ← heap_init; run_ops Pos.ltb [Insert 3; Insert 1; Dequeue; Remove 3]%positive)
      (mk_heap None 7 ∅) = (Done tt, h) /\
    op_steps Pos.ltb [Insert 3; Insert 1; Dequeue; Remove 3]%positive ∅ X /\ heap_of Pos.ltb X h /\
    h_nelts h = Z.of_nat (size X) /\
    same_outside (ops_nodes [Insert 3; Insert 1; Dequeue; Remove 3]%positive) (mk_heap None 7 ∅) h.
Proof.
  assert (client_ok Pos.ltb [Insert 3; Insert 1; Dequeue; Remove 3]%positive ∅) as Hok.
  { split; [by vm_compute |]. intros Y HY. inversion HY; subst.
    split; [by vm_compute |]. intros Y1 HY1. inversion HY1; subst.
    split; [done |]. intros Y2 HY2. inversion HY2 as [| | x Z [Hin Hle] |]; subst.
    split; [| done]. assert (x = 1%positive) as ->; [| set_solver].
    specialize (Hle 1%positive ltac:(set_solver)). apply Pos.ltb_ge in Hle. lia. }
  split; [exact Hok |]. exact (heap_programs_refine Pos.ltb _ (mk_heap None 7 ∅) pos_ltb_order Hok).
Defined.

(** As many dequeues as the heap has nodes return them all, each once, in order
    (what [uv__run_timers] relies on), and leave an empty heap. *)
Theorem heap_dequeue_sorts lt X h (Ho : WeakOrder lt) (Hh : heap_of lt X h) :
  exists l h', drain lt (size X) h = (Done l, h') /\ NoDup l /\ list_to_set l = X /\
    StronglySorted (fun a b => lt b a = false) l /\ heap_of lt ∅ h' /\ h_min h' = None.
Proof.
  destruct (drain_sorted lt _ X h Hh eq_refl) as (l & h' & E & Hnd & HX & Hs & Hh').
  exists l, h'. split_and!; try done. destruct (heap_min_least lt ∅ h' Hh') as [_ Hl].
  destruct (h_min h'); [| done]. by destruct Hl as [?%not_elem_of_empty _].
Qed.

Definition two_nodes : heap := mk_heap (Some 1%positive) 2
  {[ 1%positive := mk_node (Some 3%positive) None None;
     3%positive := mk_node None None (Some 1%positive) ]}.

Lemma heap_of_two_nodes : heap_of Pos.ltb {[1%positive; 3%positive]} two_nodes.
Proof.
  exists [1; 3]%positive, ∅. split_and!; [set_solver | |].
  - intros m a b H0 Ha Hb. destruct m as [| [| m]]; [lia | | done]. cbn in Ha, Hb. by simplify_eq.
  - split; [apply (bool_decide_unpack _); by vm_compute |]. split; [done |]. split; try done.
    + intros [| [| k]] p Hp; [injection Hp as <-; by vm_compute.. | done].
    + intros p Hp. rewrite !not_elem_of_cons in Hp. unfold two_nodes. cbn [h_mem].
      destruct Hp as (H1 & H3 & _). by rewrite lookup_insert_ne, lookup_singleton_ne, lookup_empty by congruence.
Qed.

Lemma heap_dequeue_sorts_witness :
  exists l h', drain Pos.ltb 2 two_nodes = (Done l, h') /\ NoDup l /\
    list_to_set l = ({[1%positive; 3%positive]} : gset addr) /\
    StronglySorted (fun a b => Pos.ltb b a = false) l /\ heap_of Pos.ltb ∅ h' /\ h_min h' = None.
Proof. exact (heap_dequeue_sorts Pos.ltb _ _ pos_ltb_order heap_of_two_nodes). Defined.
