(* ===== verification/Queue.v ===== *)
(** * The intrusive queues of libuv

    [Pods/Libuv-gRPC/src/queue.h]: circular doubly-linked lists of nodes embedded in
    other objects, as macros over two pointers per node.  A node is any key (the
    client says which member of which object it is); reading a pointer that was never
    written is [Stuck], writing to the object of the caller always works.  [ring h l]
    says that the nodes [l] hang in this order on the head [h]; each macro is proved to
    be the list operation it stands for. *)

From stdpp Require Import gmap.
From S2P Require Import Prelude.

(** ** The macros *)

Section Macros.
Context {K : Type} `{Countable K}.

(** [void *QUEUE[2]], of every node. *)
Record qmem := mk_qmem { q_next : gmap K K; q_prev : gmap K K }.

Definition QUEUE_NEXT (q : K) : prog qmem K := fun m =>
  match q_next m !! q with Some n => (Done n, m) | None => (Stuck, m) end.
Definition QUEUE_PREV (q : K) : prog qmem K := fun m =>
  match q_prev m !! q with Some n => (Done n, m) | None => (Stuck, m) end.

(** [QUEUE_NEXT(q) = v] and the like. *)
Definition set_NEXT (q v : K) : prog qmem unit := modifyS (fun m => mk_qmem (<[q := v]> (q_next m)) (q_prev m)).
Definition set_PREV (q v : K) : prog qmem unit := modifyS (fun m => mk_qmem (q_next m) (<[q := v]> (q_prev m))).
Definition set_PREV_NEXT (q v : K) : prog qmem unit := p ← QUEUE_PREV q; set_NEXT p v.
Definition set_NEXT_PREV (q v : K) : prog qmem unit := n ← QUEUE_NEXT q; set_PREV n v.

Definition QUEUE_EMPTY (q : K) : prog qmem bool := n ← QUEUE_NEXT q; mret (bool_decide (q = n)).

Definition QUEUE_HEAD (q : K) : prog qmem K := QUEUE_NEXT q.

Definition QUEUE_INIT (q : K) : prog qmem unit := _ ← set_NEXT q q; set_PREV q q.

Definition QUEUE_ADD (h n : K) : prog qmem unit :=
  v ← QUEUE_NEXT n; _ ← set_PREV_NEXT h v;
  v ← QUEUE_PREV h; _ ← set_NEXT_PREV n v;
  v ← QUEUE_PREV n; _ ← set_PREV h v;
  set_PREV_NEXT h h.

Definition QUEUE_SPLIT (h q n : K) : prog qmem unit :=
  v ← QUEUE_PREV h; _ ← set_PREV n v;
  _ ← set_PREV_NEXT n n;
  _ ← set_NEXT n q;
  v ← QUEUE_PREV q; _ ← set_PREV h v;
  _ ← set_PREV_NEXT h h;
  set_PREV q n.

Definition QUEUE_MOVE (h n : K) : prog qmem unit :=
  e ← QUEUE_EMPTY h;
  if e : bool then QUEUE_INIT n else q ← QUEUE_HEAD h; QUEUE_SPLIT h q n.

Definition QUEUE_INSERT_HEAD (h q : K) : prog qmem unit :=
  v ← QUEUE_NEXT h; _ ← set_NEXT q v;
  _ ← set_PREV q h;
  _ ← set_NEXT_PREV q q;
  set_NEXT h q.

Definition QUEUE_INSERT_TAIL (h q : K) : prog qmem unit :=
  _ ← set_NEXT q h;
  v ← QUEUE_PREV h; _ ← set_PREV q v;
  _ ← set_PREV_NEXT q q;
  set_PREV h q.

Definition QUEUE_REMOVE (q : K) : prog qmem unit :=
  v ← QUEUE_NEXT q; _ ← set_PREV_NEXT q v;
  v ← QUEUE_PREV q; set_NEXT_PREV q v.

(** [QUEUE_FOREACH(q, h) body]. *)
Fixpoint foreach_from (fuel : nat) (q h : K) (body : K -> prog qmem unit) : prog qmem unit :=
  if bool_decide (q = h) then mret tt else
  match fuel with
  | O => nofuel
  | S fuel => _ ← body q; n ← QUEUE_NEXT q; foreach_from fuel n h body
  end.

Definition QUEUE_FOREACH (fuel : nat) (h : K) (body : K -> prog qmem unit) : prog qmem unit :=
  q ← QUEUE_NEXT h; foreach_from fuel q h body.
End Macros.
Arguments qmem K {_ _}.

(** ** Rings *)

Section Rings.
Context {K : Type} `{Countable K}.
Implicit Types (m : qmem K) (l : list K).

Definition edge m (x y : K) : Prop := q_next m !! x = Some y /\ q_prev m !! y = Some x.

(** From [x] through [l] to [z]. *)
Fixpoint chain m (x : K) l (z : K) : Prop :=
  match l with
  | [] => edge m x z
  | y :: l => edge m x y /\ chain m y l z
  end.

Definition ring (h : K) l m : Prop := NoDup (h :: l) /\ chain m h l h.

(** Nothing but the nodes of [D] is written. *)
Definition same_off (D : list K) m m' : Prop :=
  forall a, a ∉ D -> q_next m' !! a = q_next m !! a /\ q_prev m' !! a = q_prev m !! a.

Lemma chain_app m x l1 y l2 z : chain m x (l1 ++ y :: l2) z <-> chain m x l1 y /\ chain m y l2 z.
Proof.
  revert x. induction l1 as [| a l1 IH]; intros x; cbn [app chain]; [done |]. rewrite IH. tauto.
Qed.

Lemma chain_frame m m' x l z :
  (forall a, a ∈ x :: l -> q_next m' !! a = q_next m !! a) ->
  (forall a, a ∈ l ++ [z] -> q_prev m' !! a = q_prev m !! a) ->
  chain m x l z -> chain m' x l z.
Proof.
  revert x. induction l as [| y l IH]; intros x Hn Hp; cbn [chain]; unfold edge.
  - rewrite Hn, Hp by set_solver. done.
  - rewrite Hn, Hp by set_solver. intros [He Hc]. split; [done |]. apply IH; [.. | done]; set_solver.
Qed.

Lemma ring_frame D m m' h l :
  same_off D m m' -> (forall a, a ∈ h :: l -> a ∉ D) -> ring h l m -> ring h l m'.
Proof.
  intros Hs Hd [Hnd Hc]. split; [done |]. revert Hc. apply chain_frame; intros a Ha; apply Hs, Hd; set_solver.
Qed.

Lemma ring_init h m : exists m', QUEUE_INIT h m = (Done tt, m') /\ ring h [] m' /\ same_off [h] m m'.
Proof.
  eexists. split; [done |]. split.
  - split; [apply NoDup_singleton |]. split; cbn; by rewrite lookup_insert_eq.
  - intros a Ha. cbn. rewrite !lookup_insert_ne by set_solver. done.
Qed.

Lemma NoDup_mid (l1 l2 : list K) y : NoDup (l1 ++ y :: l2) <-> y ∉ l1 ++ l2 /\ NoDup (l1 ++ l2).
Proof. rewrite <- Permutation_middle. apply NoDup_cons. Qed.

Lemma NoDup_app_l (l1 l2 : list K) : NoDup (l1 ++ l2) -> NoDup l1.
Proof. by intros (? & _ & _)%NoDup_app. Qed.
Lemma NoDup_app_r (l1 l2 : list K) : NoDup (l1 ++ l2) -> NoDup l2.
Proof. by intros (_ & _ & ?)%NoDup_app. Qed.

(** Frame conditions, with what is not a member spelled out. *)
Lemma chain_set_next N P a v x l z :
  a ∉ x :: l -> chain (mk_qmem N P) x l z -> chain (mk_qmem (<[a := v]> N) P) x l z.
Proof. intros Ha. apply chain_frame; intros b Hb; [| done]. apply lookup_insert_ne. congruence. Qed.

Lemma chain_set_prev N P a v x l z :
  a ∉ l ++ [z] -> chain (mk_qmem N P) x l z -> chain (mk_qmem N (<[a := v]> P)) x l z.
Proof. intros Ha. apply chain_frame; intros b Hb; [done |]. apply lookup_insert_ne. congruence. Qed.

(** Spells out what a list without duplicates holds. *)
Ltac nodups :=
  repeat match goal with
  | Hc : _ /\ _ |- _ => destruct Hc as [? ?]
  | Hc : _ ∉ _ ++ _ |- _ => apply not_elem_of_app in Hc
  | Hc : _ ∉ _ :: _ |- _ => apply not_elem_of_cons in Hc
  | Hc : NoDup (_ :: _) |- _ => apply NoDup_cons in Hc
  | Hc : NoDup (_ ++ _ :: _) |- _ => apply NoDup_mid in Hc
  | Hc : NoDup (_ ++ []) |- _ => rewrite app_nil_r in Hc
  | Hc : NoDup (?a ++ ?b ++ [?z]) |- _ => rewrite (app_assoc a b [z]) in Hc
  | Hc : NoDup ((_ ++ [_]) ++ _) |- _ => rewrite <- app_assoc in Hc; cbn [app] in Hc
  end.

Ltac ne := first [assumption | congruence | apply not_elem_of_nil | apply NoDup_nil_2
                |eapply NoDup_app_l; eassumption | eapply NoDup_app_r; eassumption].

(** Splits a goal of that kind. *)
Ltac dups :=
  rewrite ?NoDup_cons, ?NoDup_mid;
  try match goal with |- context [NoDup (?a ++ ?b ++ [?z])] => rewrite (app_assoc a b [z]), (NoDup_mid (a ++ b)) end;
  rewrite ?app_nil_r; repeat first [rewrite not_elem_of_cons | rewrite not_elem_of_app]; split_and?; ne.

(** Spells out the links of a chain. *)
Ltac edges :=
  cbn [app] in *; do 2 (rewrite ?chain_app in *; cbn [chain] in *); unfold edge in *; cbn [q_next q_prev] in *.

(** Runs the macros, whose reads are known. *)
Ltac qlook :=
  cbn [q_next q_prev];
  repeat (first [rewrite lookup_insert_eq | rewrite lookup_insert_ne by ne
                |match goal with E : _ !! ?a = Some _ |- context [_ !! ?a] => rewrite E end]; cbn [q_next q_prev]).

Ltac qrun :=
  unfold QUEUE_INSERT_HEAD, QUEUE_INSERT_TAIL, QUEUE_REMOVE, QUEUE_SPLIT, QUEUE_ADD, QUEUE_INIT, set_PREV_NEXT,
    set_NEXT_PREV, set_NEXT, set_PREV, QUEUE_PREV, QUEUE_NEXT, mbind, prog_bind, modifyS, mret, prog_ret;
  qlook; reflexivity.

(** Rebuilds a ring after writes, from the chains that were not written. *)
Ltac qchain :=
  repeat first [assumption | apply chain_set_next; [dups |]
               |apply chain_set_prev; [dups |]].

Ltac qring :=
  split; [dups |];
  do 3 (rewrite ?chain_app; cbn [chain]; split_and?);
  match goal with
  | |- chain _ _ _ _ => qchain
  | |- edge _ _ _ => split; qlook; done
  end.

Ltac qoff := intros ? ?; nodups; split; qlook; reflexivity.

Lemma ring_insert_head h q l m :
  ring h l m -> q ∉ h :: l ->
  exists m', QUEUE_INSERT_HEAD h q m = (Done tt, m') /\ ring h (q :: l) m' /\ same_off (q :: h :: l) m m'.
Proof.
  intros [Hnd Hc] Hq. destruct m as [N P]. destruct l as [| y l]; edges; nodups;
    (eexists; split; [qrun |]; split; [qring | qoff]).
Qed.

Lemma ring_insert_tail h q l m :
  ring h l m -> q ∉ h :: l ->
  exists m', QUEUE_INSERT_TAIL h q m = (Done tt, m') /\ ring h (l ++ [q]) m' /\ same_off (q :: h :: l) m m'.
Proof.
  intros [Hnd Hc] Hq. destruct m as [N P]. destruct l as [| y l _] using rev_ind; edges; nodups;
    rewrite <- ?app_assoc; cbn [app]; (eexists; split; [qrun |]; split; [qring | qoff]).
Qed.

Lemma ring_remove h l1 q l2 m :
  ring h (l1 ++ q :: l2) m ->
  exists m', QUEUE_REMOVE q m = (Done tt, m') /\ ring h (l1 ++ l2) m' /\
             same_off (h :: l1 ++ l2) m m'.
Proof.
  intros [Hnd Hc]. destruct m as [N P].
  destruct l1 as [| y l1 _] using rev_ind; destruct l2 as [| z l2]; rewrite <- ?app_assoc in *; edges; nodups;
    cbn [app] in *; (eexists; split; [qrun |]; split; [qring | qoff]).
Qed.

(** [q] and what follows it move over to [n]. *)
Lemma ring_split h l1 q l2 n m :
  ring h (l1 ++ q :: l2) m -> n ∉ h :: l1 ++ q :: l2 ->
  exists m', QUEUE_SPLIT h q n m = (Done tt, m') /\ ring h l1 m' /\ ring n (q :: l2) m' /\
             same_off (n :: h :: l1 ++ q :: l2) m m'.
Proof.
  intros [Hnd Hc] Hn. destruct m as [N P].
  destruct l1 as [| y l1 _] using rev_ind; destruct l2 as [| z l2 _] using rev_ind;
    rewrite <- ?app_assoc in *; edges; nodups;
    (eexists; split; [qrun |]; split; [qring |]; split; [qring | qoff]).
Qed.

Lemma ring_add h l1 n l2 m :
  ring h l1 m -> ring n l2 m -> NoDup ((h :: l1) ++ n :: l2) ->
  exists m', QUEUE_ADD h n m = (Done tt, m') /\ ring h (l1 ++ l2) m' /\ same_off (n :: h :: l1 ++ l2) m m'.
Proof.
  intros [_ Hc1] [_ Hc2] Hnd. destruct m as [N P].
  destruct l1 as [| y l1 _] using rev_ind; destruct l2 as [| z l2 _] using rev_ind;
    try (destruct l2 as [| z' l2]);
    rewrite <- ?app_assoc in *; edges; nodups;
    (eexists; split; [qrun |]; split; [qring | qoff]).
Qed.

Lemma ring_empty h l m : ring h l m -> QUEUE_EMPTY h m = (Done (bool_decide (l = [])), m).
Proof.
  intros [Hnd Hc]. destruct m as [N P]. unfold QUEUE_EMPTY, mbind, prog_bind, QUEUE_NEXT. cbn [q_next].
  destruct l as [| y l]; edges; nodups.
  - match goal with E : N !! h = Some h |- _ => rewrite E end. by rewrite !bool_decide_eq_true_2.
  - match goal with E : N !! h = Some y |- _ => rewrite E end. by rewrite !bool_decide_eq_false_2.
Qed.

Lemma ring_head h q l m : ring h (q :: l) m -> QUEUE_HEAD h m = (Done q, m).
Proof.
  intros [Hnd Hc]. destruct m as [N P]. unfold QUEUE_HEAD, QUEUE_NEXT. cbn [q_next]. edges. nodups.
  by match goal with E : N !! h = Some q |- _ => rewrite E end.
Qed.

(** The elements of [h] move to [n], and [h] is left empty. *)
Lemma ring_move h l n m :
  ring h l m -> n ∉ h :: l ->
  exists m', QUEUE_MOVE h n m = (Done tt, m') /\ ring h [] m' /\ ring n l m' /\ same_off (n :: h :: l) m m'.
Proof.
  intros Hr Hn. unfold QUEUE_MOVE. rewrite (prog_bind_done _ _ _ _ _ (ring_empty _ _ _ Hr)).
  destruct l as [| q l]; cbn [bool_decide decide_rel].
  - rewrite bool_decide_eq_true_2 by done. destruct (ring_init n m) as (m' & E & Hr' & Hs). exists m'.
    split; [done |]. split; [| split; [done |]].
    + revert Hr. apply (ring_frame _ _ _ _ _ Hs). set_solver.
    + intros a Ha. apply Hs. set_solver.
  - rewrite bool_decide_eq_false_2 by done. rewrite (prog_bind_done _ _ _ _ _ (ring_head _ _ _ _ Hr)).
    by apply (ring_split h [] q l n m).
Qed.

(** Visits of a body that leaves the queue alone. *)
Lemma ring_foreach h l m (body : K -> prog (qmem K) unit) :
  ring h l m -> (forall q, q ∈ l -> body q m = (Done tt, m)) ->
  QUEUE_FOREACH (length l) h body m = (Done tt, m).
Proof.
  intros [Hnd Hc] Hb. unfold QUEUE_FOREACH.
  assert (forall l1 l2 x, l = l1 ++ l2 -> chain m x l2 h -> x ∉ l2 ->
    (q ← QUEUE_NEXT x; foreach_from (length l2) q h body) m = (Done tt, m)) as Hgo.
  { intros l1 l2. revert l1. induction l2 as [| y l2 IH]; intros l1 x Hl Hx Hxl; cbn [chain] in Hx.
    - destruct Hx as [En _]. unfold mbind, prog_bind, QUEUE_NEXT. rewrite En. cbn. by rewrite bool_decide_eq_true_2.
    - destruct Hx as [[En _] Hx]. unfold mbind, prog_bind at 1, QUEUE_NEXT at 1. rewrite En. cbn [length foreach_from].
      assert (y ∈ l) as Hy by (rewrite Hl; set_solver).
      rewrite bool_decide_eq_false_2 by (intros ->; apply NoDup_cons in Hnd as [Hh _]; by apply Hh).
      rewrite (prog_bind_done _ _ _ _ _ (Hb y Hy)). apply (IH (l1 ++ [y])); [by rewrite <- app_assoc | done |].
      rewrite Hl in Hnd. apply NoDup_cons in Hnd as [_ Hnd]. apply NoDup_app in Hnd as (_ & _ & Hnd).
      by apply NoDup_cons in Hnd as [? _]. }
  apply (Hgo [] l h); [done | done |]. by apply NoDup_cons in Hnd as [? _].
Qed.
End Rings.

(** ** Queues refine lists *)

(** Several queues live in the same memory; a head that is not a node of another queue
    stands for the list of its nodes. *)
Section Refine.
Context {K : Type} `{Countable K}.
Implicit Types (m : qmem K) (l : list K) (σ : gmap K (list K)).

Inductive queue_op : Type :=
  | Init (h : K)
  | InsertHead (h q : K)
  | InsertTail (h q : K)
  | Unlink (q : K)
  | Move (h n : K)
  | Split (h q n : K)
  | Append (h n : K).

Definition run_queue_op (op : queue_op) : prog (qmem K) unit :=
  match op with
  | Init h => QUEUE_INIT h
  | InsertHead h q => QUEUE_INSERT_HEAD h q
  | InsertTail h q => QUEUE_INSERT_TAIL h q
  | Unlink q => QUEUE_REMOVE q
  | Move h n => QUEUE_MOVE h n
  | Split h q n => QUEUE_SPLIT h q n
  | Append h n => QUEUE_ADD h n
  end.

Fixpoint run_queue_ops (ops : list queue_op) : prog (qmem K) unit :=
  match ops with
  | [] => mret tt
  | op :: ops => _ ← run_queue_op op; run_queue_ops ops
  end.

(** [x] is in none of the queues but that of [h]. *)
Definition free_but (h : K) σ (x : K) : Prop := forall h' l', σ !! h' = Some l' -> h' <> h -> x ∉ h' :: l'.

Definition free σ (x : K) : Prop := forall h' l', σ !! h' = Some l' -> x ∉ h' :: l'.

Inductive queue_step : queue_op -> gmap K (list K) -> gmap K (list K) -> Prop :=
  | step_init h σ : free σ h -> queue_step (Init h) σ (<[h := []]> σ)
  | step_insert_head h q l σ :
      σ !! h = Some l -> free σ q -> queue_step (InsertHead h q) σ (<[h := q :: l]> σ)
  | step_insert_tail h q l σ :
      σ !! h = Some l -> free σ q -> queue_step (InsertTail h q) σ (<[h := l ++ [q]]> σ)
  | step_unlink h l1 q l2 σ :
      σ !! h = Some (l1 ++ q :: l2) -> queue_step (Unlink q) σ (<[h := l1 ++ l2]> σ)
  | step_move h n l σ :
      σ !! h = Some l -> free σ n -> queue_step (Move h n) σ (<[n := l]> (<[h := []]> σ))
  | step_split h l1 q l2 n σ :
      σ !! h = Some (l1 ++ q :: l2) -> free σ n ->
      queue_step (Split h q n) σ (<[n := q :: l2]> (<[h := l1]> σ))
  | step_append h l1 n l2 σ :
      σ !! h = Some l1 -> σ !! n = Some l2 -> h <> n ->
      queue_step (Append h n) σ (<[h := l1 ++ l2]> (delete n σ)).

Inductive queue_steps : list queue_op -> gmap K (list K) -> gmap K (list K) -> Prop :=
  | queue_nil σ : queue_steps [] σ σ
  | queue_cons op ops σ σ1 σ2 :
      queue_step op σ σ1 -> queue_steps ops σ1 σ2 -> queue_steps (op :: ops) σ σ2.

(** The memory holds the queues of [σ], which share no node. *)
Record holds σ m : Prop := {
  holds_ring h l : σ !! h = Some l -> ring h l m;
  holds_apart h l : σ !! h = Some l -> forall x, x ∈ h :: l -> free_but h σ x;
}.

Lemma holds_frame D σ m m' h l :
  holds σ m -> same_off D m m' -> σ !! h = Some l -> (forall x, x ∈ h :: l -> x ∉ D) -> ring h l m'.
Proof. intros Hh Hs Hl Hd. by eapply ring_frame, holds_ring. Qed.

(** One queue changes. *)
Lemma holds_insert D σ m m' h l :
  holds σ m -> same_off D m m' -> ring h l m' -> (forall x, x ∈ h :: l -> free_but h σ x) ->
  (forall x, x ∈ D -> free_but h σ x) -> holds (<[h := l]> σ) m'.
Proof.
  intros Hh Hs Hr Hf Hd. split.
  - intros h' l'. rewrite lookup_insert. case_decide as E; [intros [= <-]; by rewrite <- E |].
    intros Hl. apply (holds_frame D σ m); [done.. |]. intros x Hx Hxd. by apply (Hd x Hxd h' l').
  - intros h' l' Hl x Hx h2 l2 Hl2 Hne Hx2. rewrite !lookup_insert in Hl, Hl2.
    destruct (decide (h = h')) as [<- |], (decide (h = h2)) as [<- |]; simplify_eq/=.
    + exact (Hf x Hx h2 l2 Hl2 Hne Hx2).
    + exact (Hf x Hx2 h' l' Hl (not_eq_sym Hne) Hx).
    + exact (holds_apart _ _ Hh h' l' Hl x Hx h2 l2 Hl2 Hne Hx2).
Qed.

Lemma holds_delete σ m h : holds σ m -> holds (delete h σ) m.
Proof.
  intros [Hr Ha]. split.
  - intros h' l' [_ Hl]%lookup_delete_Some. by apply Hr.
  - intros h' l' [_ Hl]%lookup_delete_Some x Hx h2 l2 [_ Hl2]%lookup_delete_Some. by eapply Ha.
Qed.

Lemma free_free_but h σ x : free σ x -> free_but h σ x.
Proof. intros Hf h' l' Hl _. by eapply Hf. Qed.

Lemma same_off_refl D m : same_off D m m.
Proof. done. Qed.

Lemma free_insert σ h l x : free_but h σ x -> x ∉ h :: l -> free (<[h := l]> σ) x.
Proof.
  intros Hf Hx h' l'. rewrite lookup_insert. case_decide as E; [intros [= <-]; by rewrite <- E |]. intros Hl. by eapply Hf.
Qed.

(** The nodes of one queue are divided between two. *)
Lemma holds_two σ m m' h l1 n l2 D :
  holds σ m -> same_off D m m' -> ring h l1 m' -> ring n l2 m' ->
  (forall x, x ∈ D -> free_but h σ x) -> (forall x, x ∈ h :: l1 -> x ∈ D) -> (forall x, x ∈ n :: l2 -> x ∈ D) ->
  (forall x, x ∈ n :: l2 -> x ∉ h :: l1) -> holds (<[n := l2]> (<[h := l1]> σ)) m'.
Proof.
  intros Hh Hs H1 H2 Hd Hd1 Hd2 Hdis. apply (holds_insert [] _ m'); [| done | done | | set_solver].
  - apply (holds_insert D σ m); auto.
  - intros x Hx. apply free_free_but, free_insert; auto.
Qed.

Lemma queue_step_refines op σ σ' m :
  holds σ m -> queue_step op σ σ' -> exists m', run_queue_op op m = (Done tt, m') /\ holds σ' m'.
Proof.
  intros Hh Hs. destruct Hs as [h σ Hf | h q l σ Hl Hf | h q l σ Hl Hf | h l1 q l2 σ Hl | h n l σ Hl Hf
    | h l1 q l2 n σ Hl Hf | h l1 n l2 σ Hl1 Hl2 Hne]; cbn [run_queue_op].
  - destruct (ring_init h m) as (m' & E & Hr & Hs). exists m'. split; [done |].
    apply (holds_insert [h] σ m); try done; intros x ->%list_elem_of_singleton; by apply free_free_but.
  - destruct (ring_insert_head h q l m (holds_ring _ _ Hh h l Hl) (Hf h l Hl)) as (m' & E & Hr & Hs). exists m'.
    split; [done |]. pose proof (holds_apart _ _ Hh h l Hl) as Ha.
    apply (holds_insert _ σ m _ _ _ Hh Hs Hr); intros x; rewrite !elem_of_cons; intros [-> | [-> | Hx]];
      first [by apply free_free_but | apply Ha; set_solver].
  - destruct (ring_insert_tail h q l m (holds_ring _ _ Hh h l Hl) (Hf h l Hl)) as (m' & E & Hr & Hs). exists m'.
    split; [done |]. pose proof (holds_apart _ _ Hh h l Hl) as Ha.
    apply (holds_insert _ σ m _ _ _ Hh Hs Hr); intros x; rewrite !elem_of_cons, ?elem_of_app, ?list_elem_of_singleton;
      destruct (decide (x = q)) as [-> |]; intros Hx; first [by apply free_free_but | apply Ha; set_solver].
  - destruct (ring_remove h l1 q l2 m (holds_ring _ _ Hh h _ Hl)) as (m' & E & Hr & Hs). exists m'. split; [done |].
    apply (holds_insert _ σ m _ _ _ Hh Hs Hr); intros x Hx; apply (holds_apart _ _ Hh h _ Hl); set_solver.
  - destruct (ring_move h l n m (holds_ring _ _ Hh h l Hl) (Hf h l Hl)) as (m' & E & Hr1 & Hr2 & Hs). exists m'.
    split; [done |]. pose proof (holds_apart _ _ Hh h l Hl) as Ha.
    assert (forall x, x ∈ n :: h :: l -> free_but h σ x) as Hd
      by (intros x [-> | Hx]%elem_of_cons; [by apply free_free_but | by apply Ha]).
    apply (holds_two σ m m' h [] n l _ Hh Hs Hr1 Hr2); try done; [set_solver.. |].
    intros x Hx ->%list_elem_of_singleton. pose proof (Hf h l Hl). destruct (holds_ring _ _ Hh h l Hl) as [[? _]%NoDup_cons _].
    set_solver.
  - destruct (ring_split h l1 q l2 n m (holds_ring _ _ Hh h _ Hl) (Hf h _ Hl)) as (m' & E & Hr1 & Hr2 & Hs). exists m'.
    split; [done |]. pose proof (holds_apart _ _ Hh h _ Hl) as Ha.
    assert (forall x, x ∈ n :: h :: l1 ++ q :: l2 -> free_but h σ x) as Hd
      by (intros x [-> | Hx]%elem_of_cons; [by apply free_free_but | by apply Ha]).
    apply (holds_two σ m m' h l1 n (q :: l2) _ Hh Hs Hr1 Hr2); try done; [set_solver.. |].
    destruct (holds_ring _ _ Hh h _ Hl) as [[Hhl (_ & Hdis & _)%NoDup_app]%NoDup_cons _]. pose proof (Hf h _ Hl) as Hn.
    intros x [-> | Hx]%elem_of_cons; [set_solver |]. intros [-> | Hx1]%elem_of_cons; [set_solver | by apply (Hdis x)].
  - pose proof (holds_apart _ _ Hh h _ Hl1) as Ha1. pose proof (holds_apart _ _ Hh n _ Hl2) as Ha2.
    assert (NoDup ((h :: l1) ++ n :: l2)) as Hnd.
    { apply NoDup_app. split; [apply (holds_ring _ _ Hh h _ Hl1) |]. split; [| apply (holds_ring _ _ Hh n _ Hl2)].
      intros x Hx1 Hx2. exact (Ha1 x Hx1 n l2 Hl2 (not_eq_sym Hne) Hx2). }
    destruct (ring_add h l1 n l2 m (holds_ring _ _ Hh h _ Hl1) (holds_ring _ _ Hh n _ Hl2) Hnd) as (m' & E & Hr & Hs).
    exists m'. split; [done |].
    assert (forall x, x ∈ (h :: l1) ++ n :: l2 -> free_but h (delete n σ) x) as Hd.
    { intros x [Hx | Hx]%elem_of_app h' l' [Hn Hl']%lookup_delete_Some Hne'; [by apply (Ha1 x Hx h' l') |].
      by apply (Ha2 x Hx h' l'). }
    apply (holds_insert _ _ m _ _ _ (holds_delete _ _ _ Hh) Hs Hr); intros x Hx; apply Hd; set_solver.
Qed.

Lemma queue_steps_refines ops σ σ' m :
  holds σ m -> queue_steps ops σ σ' -> exists m', run_queue_ops ops m = (Done tt, m') /\ holds σ' m'.
Proof.
  intros Hh Hs. revert m Hh. induction Hs as [σ | op ops σ σ1 σ2 Hs _ IH]; intros m Hh; [by exists m |].
  destruct (queue_step_refines op σ σ1 m Hh Hs) as (m1 & E1 & Hh1). destruct (IH m1 Hh1) as (m2 & E2 & Hh2).
  exists m2. split; [| done]. cbn [run_queue_ops]. by rewrite (prog_bind_done _ _ _ _ _ E1).
Qed.

Lemma holds_empty m : holds ∅ m.
Proof. by split. Qed.
End Refine.

(** C25: queue.h implements lists.  From any memory, whatever sequence of queue
    operations a client makes, as long as it inserts and initialises only nodes that
    are in no queue and removes nodes that are, every operation returns, and the
    queues hold what the same operations do to a map from heads to lists (push front,
    push back, remove, move, split, append); [QUEUE_EMPTY] and [QUEUE_HEAD] agree. *)
Theorem queues_refine_lists {K : Type} `{Countable K} (ops : list (queue_op (K := K))) σ (m : qmem K)
    (Hs : queue_steps ops ∅ σ) :
  exists m', run_queue_ops ops m = (Done tt, m') /\ holds σ m' /\
    forall h l, σ !! h = Some l ->
      QUEUE_EMPTY h m' = (Done (bool_decide (l = [])), m') /\
      match l with q :: _ => QUEUE_HEAD h m' = (Done q, m') | [] => True end.
Proof.
  destruct (queue_steps_refines ops ∅ σ m (holds_empty m) Hs) as (m' & E & Hh). exists m'. split_and!; [done.. |].
  intros h l Hl. pose proof (holds_ring _ _ Hh h l Hl) as Hr. split; [by apply ring_empty |].
  destruct l; [done | by eapply ring_head].
Qed.

Ltac is_free :=
  intros h l; rewrite ?lookup_insert; repeat case_decide; intros; simplify_eq; set_solver.

Lemma queues_refine_lists_witness :
  exists m', run_queue_ops [Init 1; InsertTail 1 2; InsertHead 1 3; Move 1 4; InsertTail 1 5; Append 4 1]%positive
      (mk_qmem ∅ ∅) = (Done tt, m') /\ holds {[4%positive := [3; 2; 5]%positive]} m' /\
    forall h l, ({[4%positive := [3; 2; 5]%positive]} : gmap positive (list positive)) !! h = Some l ->
      QUEUE_EMPTY h m' = (Done (bool_decide (l = [])), m') /\
      match l with q :: _ => QUEUE_HEAD h m' = (Done q, m') | [] => True end.
Proof.
  apply (queues_refine_lists _ {[4%positive := [3; 2; 5]%positive]}).
  eapply queue_cons; [apply step_init; intros h l Hl; by rewrite lookup_empty in Hl |].
  eapply queue_cons; [apply (step_insert_tail 1%positive 2%positive []); [reflexivity | is_free] |].
  eapply queue_cons; [apply (step_insert_head 1%positive 3%positive [2%positive]); [reflexivity | is_free] |].
  eapply queue_cons; [apply (step_move 1%positive 4%positive [3; 2]%positive); [reflexivity | is_free] |].
  eapply queue_cons; [apply (step_insert_tail 1%positive 5%positive []); [reflexivity | is_free] |].
  eapply queue_cons; [apply (step_append 4%positive [3; 2]%positive 1%positive [5]%positive); [reflexivity.. | done] |].
  match goal with |- queue_steps _ ?σ ?σ' => assert (σ = σ') as -> by reflexivity end. constructor.
Defined.
