(* ===== verification/Loop.v ===== *)
(** * The event loop of libuv: handles, timers, loop watchers and closing

    [Pods/Libuv-gRPC/src]: [timer.c], [unix/loop-watcher.c], the handle macros of
    [uv-common.h], the close protocol and [uv_run] of [unix/core.c], [uv_ref],
    [uv_unref], [uv_stop], [uv_now] and [uv_walk] of [uv-common.c].  The timers hang in
    the heap of [Heap.v], the other handles in the queues of [Queue.v].

    A handle is known by its address; [container_of] and [QUEUE_DATA] are then the
    identity on addresses.  Client code is a parameter: [callback] runs the function a
    pointer stands for, on the state of the loop and on the client's own state [W].
    The clock and the poll for I/O, which are system calls, are parameters too. *)

From stdpp Require Import gmap.
From S2P Require Import Prelude UvErrno Heap Queue.

(** ** State *)

(** [uv_handle_type]. *)
Inductive uv_handle_type : Type :=
  | UV_UNKNOWN_HANDLE
  | UV_ASYNC
  | UV_CHECK
  | UV_FS_EVENT
  | UV_FS_POLL
  | UV_HANDLE
  | UV_IDLE
  | UV_NAMED_PIPE
  | UV_POLL
  | UV_PREPARE
  | UV_PROCESS
  | UV_STREAM
  | UV_TCP
  | UV_TIMER
  | UV_TTY
  | UV_UDP
  | UV_SIGNAL
  | UV_FILE.

#[export] Instance uv_handle_type_eq_dec : EqDecision uv_handle_type.
Proof. solve_decision. Defined.

(** The three instances of [UV_LOOP_WATCHER_DEFINE]. *)
Inductive watcher : Type :=
  | Prepare
  | Check_
  | Idle.

#[export] Instance watcher_eq_dec : EqDecision watcher.
Proof. solve_decision. Defined.

Definition watcher_type (w : watcher) : uv_handle_type :=
  match w with Prepare => UV_PREPARE | Check_ => UV_CHECK | Idle => UV_IDLE end.

Definition UV_HANDLE_CLOSING : Z := 0x1.
Definition UV_HANDLE_CLOSED : Z := 0x2.
Definition UV_HANDLE_ACTIVE : Z := 0x4.
Definition UV_HANDLE_REF : Z := 0x8.
Definition UV_HANDLE_INTERNAL : Z := 0x10.


(** A function pointer of the client. *)
Abbreviation cb := positive.

(** A handle, of any type: the common members, and the private members of timers and
    of loop watchers ([h_cb] is [timer_cb], [prepare_cb], [check_cb] or [idle_cb]). *)
Record uv_handle_t := mk_handle {
  h_type : uv_handle_type;
  h_flags : Z;
  h_close_cb : option cb;
  h_next_closing : ptr;
  h_cb : option cb;
  h_timeout : Z;
  h_repeat : Z;
  h_start_id : Z;
}.

Definition with_type (v : uv_handle_type) (h : uv_handle_t) : uv_handle_t :=
  mk_handle v (h_flags h) (h_close_cb h) (h_next_closing h) (h_cb h) (h_timeout h) (h_repeat h) (h_start_id h).
Definition with_flags (v : Z) (h : uv_handle_t) : uv_handle_t :=
  mk_handle (h_type h) v (h_close_cb h) (h_next_closing h) (h_cb h) (h_timeout h) (h_repeat h) (h_start_id h).
Definition with_close_cb (v : option cb) (h : uv_handle_t) : uv_handle_t :=
  mk_handle (h_type h) (h_flags h) v (h_next_closing h) (h_cb h) (h_timeout h) (h_repeat h) (h_start_id h).
Definition with_next_closing (v : ptr) (h : uv_handle_t) : uv_handle_t :=
  mk_handle (h_type h) (h_flags h) (h_close_cb h) v (h_cb h) (h_timeout h) (h_repeat h) (h_start_id h).
Definition with_cb (v : option cb) (h : uv_handle_t) : uv_handle_t :=
  mk_handle (h_type h) (h_flags h) (h_close_cb h) (h_next_closing h) v (h_timeout h) (h_repeat h) (h_start_id h).
Definition with_timeout (v : Z) (h : uv_handle_t) : uv_handle_t :=
  mk_handle (h_type h) (h_flags h) (h_close_cb h) (h_next_closing h) (h_cb h) v (h_repeat h) (h_start_id h).
Definition with_repeat (v : Z) (h : uv_handle_t) : uv_handle_t :=
  mk_handle (h_type h) (h_flags h) (h_close_cb h) (h_next_closing h) (h_cb h) (h_timeout h) v (h_start_id h).
Definition with_start_id (v : Z) (h : uv_handle_t) : uv_handle_t :=
  mk_handle (h_type h) (h_flags h) (h_close_cb h) (h_next_closing h) (h_cb h) (h_timeout h) (h_repeat h) v.

(** The queue nodes: the heads that are members of the loop, those on the stack of
    a function, and the members [queue], [handle_queue] and [pending_queue] of the
    object at an address. *)
Inductive node : Type :=
  | Handles (w : watcher)
  | LocalHandles (w : watcher)
  | HandleQueue
  | LocalHandleQueue
  | PendingQueue
  | LocalPending
  | QueueOf (a : addr)
  | HandleQueueOf (a : addr)
  | PendingOf (a : addr).

#[export] Instance node_eq_dec : EqDecision node.
Proof. solve_decision. Defined.

Definition watcher_code (w : watcher) : positive := match w with Prepare => 1 | Check_ => 2 | Idle => 3 end.
Definition watcher_decode (p : positive) : watcher :=
  match p with 1%positive => Prepare | 2%positive => Check_ | _ => Idle end.

#[export] Instance node_countable : Countable node.
Proof.
  refine (inj_countable'
    (fun n => match n with
      | Handles w => (1, watcher_code w) | LocalHandles w => (2, watcher_code w)
      | HandleQueue => (3, 1) | LocalHandleQueue => (4, 1) | PendingQueue => (5, 1) | LocalPending => (6, 1)
      | QueueOf a => (7, a) | HandleQueueOf a => (8, a) | PendingOf a => (9, a)
      end)%positive
    (fun p => match p with
      | (1, w) => Handles (watcher_decode w) | (2, w) => LocalHandles (watcher_decode w)
      | (3, _) => HandleQueue | (4, _) => LocalHandleQueue | (5, _) => PendingQueue | (6, _) => LocalPending
      | (7, a) => QueueOf a | (8, a) => HandleQueueOf a | (_, a) => PendingOf a
      end%positive) _).
  by intros [[] | [] | | | | | | |].
Defined.

Section Loop.
(** The client's own state. *)
Context {W : Type}.

(** [uv_loop_t], with the memory of the handles, of the heap and of the queues;
    [l_ticks] counts the readings of the clock. *)
Record uv_loop_t := mk_loop {
  l_time : Z;
  l_timer_counter : Z;
  l_active_handles : Z;
  l_active_reqs : Z;
  l_stop_flag : Z;
  l_closing_handles : ptr;
  l_timer_heap : heap;
  l_queues : qmem node;
  l_handles : gmap addr uv_handle_t;
  l_ticks : nat;
  l_world : W;
}.

Definition set_time (v : Z) (s : uv_loop_t) : uv_loop_t :=
  mk_loop v (l_timer_counter s) (l_active_handles s) (l_active_reqs s) (l_stop_flag s) (l_closing_handles s)
    (l_timer_heap s) (l_queues s) (l_handles s) (l_ticks s) (l_world s).
Definition set_timer_counter (v : Z) (s : uv_loop_t) : uv_loop_t :=
  mk_loop (l_time s) v (l_active_handles s) (l_active_reqs s) (l_stop_flag s) (l_closing_handles s) (l_timer_heap s)
    (l_queues s) (l_handles s) (l_ticks s) (l_world s).
Definition set_active_handles (v : Z) (s : uv_loop_t) : uv_loop_t :=
  mk_loop (l_time s) (l_timer_counter s) v (l_active_reqs s) (l_stop_flag s) (l_closing_handles s) (l_timer_heap s)
    (l_queues s) (l_handles s) (l_ticks s) (l_world s).
Definition set_stop_flag (v : Z) (s : uv_loop_t) : uv_loop_t :=
  mk_loop (l_time s) (l_timer_counter s) (l_active_handles s) (l_active_reqs s) v (l_closing_handles s) (l_timer_heap s)
    (l_queues s) (l_handles s) (l_ticks s) (l_world s).
Definition set_closing_handles (v : ptr) (s : uv_loop_t) : uv_loop_t :=
  mk_loop (l_time s) (l_timer_counter s) (l_active_handles s) (l_active_reqs s) (l_stop_flag s) v (l_timer_heap s)
    (l_queues s) (l_handles s) (l_ticks s) (l_world s).
Definition set_timer_heap (v : heap) (s : uv_loop_t) : uv_loop_t :=
  mk_loop (l_time s) (l_timer_counter s) (l_active_handles s) (l_active_reqs s) (l_stop_flag s) (l_closing_handles s) v
    (l_queues s) (l_handles s) (l_ticks s) (l_world s).
Definition set_queues (v : qmem node) (s : uv_loop_t) : uv_loop_t :=
  mk_loop (l_time s) (l_timer_counter s) (l_active_handles s) (l_active_reqs s) (l_stop_flag s) (l_closing_handles s)
    (l_timer_heap s) v (l_handles s) (l_ticks s) (l_world s).
Definition set_handles (v : gmap addr uv_handle_t) (s : uv_loop_t) : uv_loop_t :=
  mk_loop (l_time s) (l_timer_counter s) (l_active_handles s) (l_active_reqs s) (l_stop_flag s) (l_closing_handles s)
    (l_timer_heap s) (l_queues s) v (l_ticks s) (l_world s).
Definition set_ticks (v : nat) (s : uv_loop_t) : uv_loop_t :=
  mk_loop (l_time s) (l_timer_counter s) (l_active_handles s) (l_active_reqs s) (l_stop_flag s) (l_closing_handles s)
    (l_timer_heap s) (l_queues s) (l_handles s) v (l_world s).
Definition set_world (v : W) (s : uv_loop_t) : uv_loop_t :=
  mk_loop (l_time s) (l_timer_counter s) (l_active_handles s) (l_active_reqs s) (l_stop_flag s) (l_closing_handles s)
    (l_timer_heap s) (l_queues s) (l_handles s) (l_ticks s) v.

Abbreviation LM := (prog uv_loop_t).

(** Programs of the heap and of the queues, on their part of the state. *)
Definition on_heap {A} (m : prog heap A) : LM A := fun s =>
  let '(r, h) := m (l_timer_heap s) in (r, set_timer_heap h s).
Definition on_queues {A} (m : prog (qmem node) A) : LM A := fun s =>
  let '(r, q) := m (l_queues s) in (r, set_queues q s).

(** An assertion that does not hold is [Stuck]. *)
Definition assert (b : bool) : LM unit := if b then mret tt else stuck.

(** [*h], and an assignment to its members. *)
Definition get_handle (a : addr) : LM uv_handle_t := fun s =>
  match l_handles s !! a with
  | Some h => (Done h, s)
  | None => (Stuck, s)
  end.
Definition put_handle (a : addr) (h : uv_handle_t) : LM unit :=
  modifyS (fun s => set_handles (<[a := h]> (l_handles s)) s).
Definition update_handle (a : addr) (f : uv_handle_t -> uv_handle_t) : LM unit :=
  h ← get_handle a; put_handle a (f h).

(** ** Handles (uv-common.h) *)

Definition has_flag (f : Z) (h : uv_handle_t) : bool := negb (h_flags h .& f =? 0).
Definition set_flag (f : Z) (h : uv_handle_t) : uv_handle_t := with_flags (h_flags h .| f) h.
Definition clear_flag (f : Z) (h : uv_handle_t) : uv_handle_t := with_flags (Z.ldiff (h_flags h) f) h.

Definition uv__is_active (h : uv_handle_t) : bool := has_flag UV_HANDLE_ACTIVE h.
Definition uv__is_closing (h : uv_handle_t) : bool := has_flag (UV_HANDLE_CLOSING .| UV_HANDLE_CLOSED) h.
Definition uv__has_ref (h : uv_handle_t) : bool := has_flag UV_HANDLE_REF h.

Definition uv__active_handle_add : LM unit := modifyS (fun s => set_active_handles (u32 (l_active_handles s + 1)) s).
Definition uv__active_handle_rm : LM unit := modifyS (fun s => set_active_handles (u32 (l_active_handles s - 1)) s).

Definition uv__has_active_handles (s : uv_loop_t) : bool := 0 <? l_active_handles s.
Definition uv__has_active_reqs (s : uv_loop_t) : bool := 0 <? l_active_reqs s.

Definition uv__handle_start (a : addr) : LM unit :=
  h ← get_handle a;
  if uv__is_active h then mret tt else
  _ ← update_handle a (set_flag UV_HANDLE_ACTIVE);
  h ← get_handle a;
  if uv__has_ref h then uv__active_handle_add else mret tt.

Definition uv__handle_stop (a : addr) : LM unit :=
  h ← get_handle a;
  if negb (uv__is_active h) then mret tt else
  _ ← update_handle a (clear_flag UV_HANDLE_ACTIVE);
  h ← get_handle a;
  if uv__has_ref h then uv__active_handle_rm else mret tt.

Definition uv__handle_ref (a : addr) : LM unit :=
  h ← get_handle a;
  if uv__has_ref h then mret tt else
  _ ← update_handle a (set_flag UV_HANDLE_REF);
  h ← get_handle a;
  if has_flag UV_HANDLE_CLOSING h then mret tt else
  if uv__is_active h then uv__active_handle_add else mret tt.

Definition uv__handle_unref (a : addr) : LM unit :=
  h ← get_handle a;
  if negb (uv__has_ref h) then mret tt else
  _ ← update_handle a (clear_flag UV_HANDLE_REF);
  h ← get_handle a;
  if has_flag UV_HANDLE_CLOSING h then mret tt else
  if uv__is_active h then uv__active_handle_rm else mret tt.

(** Whatever the memory of the handle held. *)
Definition raw_handle (o : option uv_handle_t) : uv_handle_t :=
  default (mk_handle UV_UNKNOWN_HANDLE 0 None None None 0 0 0) o.

Definition uv__handle_init (a : addr) (type : uv_handle_type) : LM unit :=
  s ← getS;
  _ ← put_handle a (with_flags UV_HANDLE_REF (with_type type (raw_handle (l_handles s !! a))));
  _ ← on_queues (QUEUE_INSERT_TAIL HandleQueue (HandleQueueOf a));
  update_handle a (with_next_closing None).

Definition uv_ref (a : addr) : LM unit := uv__handle_ref a.
Definition uv_unref (a : addr) : LM unit := uv__handle_unref a.
Definition uv_has_ref (a : addr) : LM bool := h ← get_handle a; mret (uv__has_ref h).
Definition uv_is_active (a : addr) : LM bool := h ← get_handle a; mret (uv__is_active h).
Definition uv_is_closing (a : addr) : LM bool := h ← get_handle a; mret (uv__is_closing h).
Definition uv_stop : LM unit := modifyS (set_stop_flag 1).
Definition uv_now : LM Z := s ← getS; mret (l_time s).

(** ** Timers (timer.c) *)

(** What [timer_less_than] compares; a node in the heap is always a handle. *)
Definition timer_key (hs : gmap addr uv_handle_t) (a : addr) : Z * Z :=
  match hs !! a with Some h => (h_timeout h, h_start_id h) | None => (0, 0) end.

Definition timer_less_than (hs : gmap addr uv_handle_t) (ha hb : addr) : bool :=
  let '(ta, ia) := timer_key hs ha in
  let '(tb, ib) := timer_key hs hb in
  if ta <? tb then true else
  if tb <? ta then false else
  ia <? ib.

Definition uv_timer_init (a : addr) : LM Z :=
  _ ← uv__handle_init a UV_TIMER;
  _ ← update_handle a (with_cb None);
  _ ← update_handle a (with_repeat 0);
  mret 0.

Definition uv_timer_stop (a : addr) : LM Z :=
  h ← get_handle a;
  if negb (uv__is_active h) then mret 0 else
  s ← getS;
  _ ← on_heap (heap_remove (timer_less_than (l_handles s)) (Some a));
  _ ← uv__handle_stop a;
  mret 0.

Definition uv_timer_start (a : addr) (cb : option cb) (timeout repeat : Z) : LM Z :=
  h ← get_handle a;
  if uv__is_closing h || bool_decide (cb = None) then mret UV_EINVAL else
  _ ← (if uv__is_active h then _ ← uv_timer_stop a; mret tt else mret tt);
  s ← getS;
  let clamped_timeout := u64 (l_time s + timeout) in
  let clamped_timeout := if clamped_timeout <? timeout then UINT64_MAX else clamped_timeout in
  _ ← update_handle a (with_cb cb);
  _ ← update_handle a (with_timeout clamped_timeout);
  _ ← update_handle a (with_repeat repeat);
  s ← getS;
  _ ← update_handle a (with_start_id (l_timer_counter s));
  _ ← modifyS (fun s => set_timer_counter (u64 (l_timer_counter s + 1)) s);
  s ← getS;
  _ ← on_heap (heap_insert (timer_less_than (l_handles s)) a);
  _ ← uv__handle_start a;
  mret 0.

Definition uv_timer_again (a : addr) : LM Z :=
  h ← get_handle a;
  if bool_decide (h_cb h = None) then mret UV_EINVAL else
  if negb (h_repeat h =? 0) then
    _ ← uv_timer_stop a;
    _ ← uv_timer_start a (h_cb h) (h_repeat h) (h_repeat h);
    mret 0
  else mret 0.

Definition uv_timer_set_repeat (a : addr) (repeat : Z) : LM unit := update_handle a (with_repeat repeat).
Definition uv_timer_get_repeat (a : addr) : LM Z := h ← get_handle a; mret (h_repeat h).

Definition uv__next_timeout : LM Z :=
  heap_node ← on_heap heap_min;
  match heap_node with
  | None => mret (-1)
  | Some a =>
      h ← get_handle a;
      s ← getS;
      if h_timeout h <=? l_time s then mret 0 else
      let diff := u64 (h_timeout h - l_time s) in
      let diff := if INT_MAX <? diff then INT_MAX else diff in
      mret (i32 diff)
  end.

Definition uv__timer_close (a : addr) : LM unit := _ ← uv_timer_stop a; mret tt.

(** ** Loop watchers (unix/loop-watcher.c) *)

Definition uv_watcher_init (w : watcher) (a : addr) : LM Z :=
  _ ← uv__handle_init a (watcher_type w);
  _ ← update_handle a (with_cb None);
  mret 0.

Definition uv_watcher_start (w : watcher) (a : addr) (cb : option cb) : LM Z :=
  h ← get_handle a;
  if uv__is_active h then mret 0 else
  if bool_decide (cb = None) then mret UV_EINVAL else
  _ ← on_queues (QUEUE_INSERT_HEAD (Handles w) (QueueOf a));
  _ ← update_handle a (with_cb cb);
  _ ← uv__handle_start a;
  mret 0.

Definition uv_watcher_stop (a : addr) : LM Z :=
  h ← get_handle a;
  if negb (uv__is_active h) then mret 0 else
  _ ← on_queues (QUEUE_REMOVE (QueueOf a));
  _ ← uv__handle_stop a;
  mret 0.

Definition uv__watcher_close (a : addr) : LM unit := _ ← uv_watcher_stop a; mret tt.

(** ** Closing (unix/core.c) *)

Section Close.
(** The [uv__*_close] functions of the other handles, and what [uv__finish_close] does
    for them: [false] when the handle goes back into the queue. *)
Variable uv__other_close : addr -> LM unit.
Variable uv__other_finish : addr -> LM bool.

Definition uv__make_close_pending (a : addr) : LM unit :=
  h ← get_handle a;
  _ ← assert (has_flag UV_HANDLE_CLOSING h);
  _ ← assert (negb (has_flag UV_HANDLE_CLOSED h));
  s ← getS;
  _ ← update_handle a (with_next_closing (l_closing_handles s));
  modifyS (set_closing_handles (Some a)).

Definition uv_close (a : addr) (close_cb : option cb) : LM unit :=
  h ← get_handle a;
  _ ← assert (negb (uv__is_closing h));
  _ ← update_handle a (set_flag UV_HANDLE_CLOSING);
  _ ← update_handle a (with_close_cb close_cb);
  match h_type h with
  | UV_PREPARE | UV_CHECK | UV_IDLE => _ ← uv__watcher_close a; uv__make_close_pending a
  | UV_TIMER => _ ← uv__timer_close a; uv__make_close_pending a
  | UV_FS_POLL => uv__other_close a
  | UV_NAMED_PIPE | UV_TTY | UV_TCP | UV_UDP | UV_ASYNC | UV_PROCESS | UV_FS_EVENT | UV_POLL | UV_SIGNAL =>
      _ ← uv__other_close a; uv__make_close_pending a
  | _ => assert false
  end.

(** Client code. *)
Variable callback : cb -> addr -> LM unit.

Definition run_cb (f : option cb) (a : addr) : LM unit :=
  match f with Some c => callback c a | None => stuck end.

Definition uv__finish_close (a : addr) : LM unit :=
  h ← get_handle a;
  _ ← assert (has_flag UV_HANDLE_CLOSING h);
  _ ← assert (negb (has_flag UV_HANDLE_CLOSED h));
  _ ← update_handle a (set_flag UV_HANDLE_CLOSED);
  finished ← (match h_type h with
    | UV_PREPARE | UV_CHECK | UV_IDLE | UV_ASYNC | UV_TIMER | UV_PROCESS | UV_FS_EVENT | UV_FS_POLL | UV_POLL =>
        mret true
    | UV_SIGNAL | UV_NAMED_PIPE | UV_TCP | UV_TTY | UV_UDP => uv__other_finish a
    | _ => _ ← assert false; mret true
    end);
  if negb finished then mret tt else
  _ ← uv__handle_unref a;
  _ ← on_queues (QUEUE_REMOVE (HandleQueueOf a));
  h ← get_handle a;
  match h_close_cb h with
  | Some _ => run_cb (h_close_cb h) a
  | None => mret tt
  end.

(** [while (p)]. *)
Fixpoint finish_all (fuel : nat) (p : ptr) : LM unit :=
  match p with
  | None => mret tt
  | Some a =>
      match fuel with
      | O => nofuel
      | S fuel => h ← get_handle a; let q := h_next_closing h in _ ← uv__finish_close a; finish_all fuel q
      end
  end.

Definition uv__run_closing_handles (fuel : nat) : LM unit :=
  s ← getS;
  let p := l_closing_handles s in
  _ ← modifyS (set_closing_handles None);
  finish_all fuel p.

(** ** The phases of an iteration *)

(** [for (;;)] of [uv__run_timers]. *)
Fixpoint uv__run_timers (fuel : nat) : LM unit :=
  heap_node ← on_heap heap_min;
  match heap_node with
  | None => mret tt
  | Some a =>
      h ← get_handle a;
      s ← getS;
      if l_time s <? h_timeout h then mret tt else
      match fuel with
      | O => nofuel
      | S fuel =>
          _ ← uv_timer_stop a;
          _ ← uv_timer_again a;
          h ← get_handle a;
          _ ← run_cb (h_cb h) a;
          uv__run_timers fuel
      end
  end.

(** The node a watcher is embedded in. *)
Definition handle_of (q : node) : addr :=
  match q with QueueOf a | HandleQueueOf a | PendingOf a => a | _ => 1%positive end.

Fixpoint run_watchers (fuel : nat) (w : watcher) : LM unit :=
  e ← on_queues (QUEUE_EMPTY (LocalHandles w));
  if e : bool then mret tt else
  match fuel with
  | O => nofuel
  | S fuel =>
      q ← on_queues (QUEUE_HEAD (LocalHandles w));
      let a := handle_of q in
      _ ← on_queues (QUEUE_REMOVE q);
      _ ← on_queues (QUEUE_INSERT_TAIL (Handles w) q);
      h ← get_handle a;
      _ ← run_cb (h_cb h) a;
      run_watchers fuel w
  end.

Definition uv__run_watchers (fuel : nat) (w : watcher) : LM unit :=
  _ ← on_queues (QUEUE_MOVE (Handles w) (LocalHandles w));
  run_watchers fuel w.

(** [w->cb(loop, w, POLLOUT)] of a pending I/O watcher. *)
Variable io_callback : addr -> LM unit.

Fixpoint run_pending (fuel : nat) : LM unit :=
  e ← on_queues (QUEUE_EMPTY LocalPending);
  if e : bool then mret tt else
  match fuel with
  | O => nofuel
  | S fuel =>
      q ← on_queues (QUEUE_HEAD LocalPending);
      _ ← on_queues (QUEUE_REMOVE q);
      _ ← on_queues (QUEUE_INIT q);
      _ ← io_callback (handle_of q);
      run_pending fuel
  end.

Definition uv__run_pending (fuel : nat) : LM bool :=
  e ← on_queues (QUEUE_EMPTY PendingQueue);
  if e : bool then mret false else
  _ ← on_queues (QUEUE_MOVE PendingQueue LocalPending);
  _ ← run_pending fuel;
  mret true.

(** [uv_walk], with the client's [walk_cb] applied to its argument. *)
Fixpoint walk_handles (fuel : nat) (walk_cb : addr -> LM unit) : LM unit :=
  e ← on_queues (QUEUE_EMPTY LocalHandleQueue);
  if e : bool then mret tt else
  match fuel with
  | O => nofuel
  | S fuel =>
      q ← on_queues (QUEUE_HEAD LocalHandleQueue);
      let a := handle_of q in
      _ ← on_queues (QUEUE_REMOVE q);
      _ ← on_queues (QUEUE_INSERT_TAIL HandleQueue q);
      h ← get_handle a;
      _ ← (if has_flag UV_HANDLE_INTERNAL h then mret tt else walk_cb a);
      walk_handles fuel walk_cb
  end.

Definition uv_walk (fuel : nat) (walk_cb : addr -> LM unit) : LM unit :=
  _ ← on_queues (QUEUE_MOVE HandleQueue LocalHandleQueue);
  walk_handles fuel walk_cb.

(** ** [uv_run] *)

(** The clock, in nanoseconds, at each reading; the poll for I/O. *)
Variable uv__hrtime : nat -> Z.
Variable uv__io_poll : Z -> LM unit.

Definition uv__update_time : LM unit :=
  modifyS (fun s => set_ticks (S (l_ticks s)) (set_time (u64 (uv__hrtime (l_ticks s) / 1000000)) s)).

Definition uv_update_time : LM unit := uv__update_time.

Definition uv__loop_alive : LM bool :=
  s ← getS;
  mret (uv__has_active_handles s || uv__has_active_reqs s || bool_decide (l_closing_handles s <> None)).

Definition uv_loop_alive : LM bool := uv__loop_alive.

Definition uv_backend_timeout : LM Z :=
  s ← getS;
  if negb (l_stop_flag s =? 0) then mret 0 else
  if negb (uv__has_active_handles s) && negb (uv__has_active_reqs s) then mret 0 else
  e ← on_queues (QUEUE_EMPTY (Handles Idle));
  if negb e then mret 0 else
  e ← on_queues (QUEUE_EMPTY PendingQueue);
  if negb e then mret 0 else
  if bool_decide (l_closing_handles s <> None) then mret 0 else
  uv__next_timeout.

Inductive uv_run_mode : Type := UV_RUN_DEFAULT | UV_RUN_ONCE | UV_RUN_NOWAIT.

Definition is_default (m : uv_run_mode) : bool := match m with UV_RUN_DEFAULT => true | _ => false end.
Definition is_once (m : uv_run_mode) : bool := match m with UV_RUN_ONCE => true | _ => false end.

(** The body of the loop of [uv_run]; it returns the new [r]. *)
Definition run_iteration (fuel : nat) (mode : uv_run_mode) : LM bool :=
  _ ← uv__update_time;
  _ ← uv__run_timers fuel;
  ran_pending ← uv__run_pending fuel;
  _ ← uv__run_watchers fuel Idle;
  _ ← uv__run_watchers fuel Prepare;
  timeout ← (if (is_once mode && negb ran_pending) || is_default mode then uv_backend_timeout else mret 0);
  _ ← uv__io_poll timeout;
  _ ← uv__run_watchers fuel Check_;
  _ ← uv__run_closing_handles fuel;
  _ ← (if is_once mode then _ ← uv__update_time; uv__run_timers fuel else mret tt);
  uv__loop_alive.

(** [while (r != 0 && loop->stop_flag == 0)]; [fuel] bounds every loop. *)
Fixpoint run_loop (n fuel : nat) (mode : uv_run_mode) (r : bool) : LM bool :=
  s ← getS;
  if r && (l_stop_flag s =? 0) then
    match n with
    | O => nofuel
    | S n => r ← run_iteration fuel mode; if is_default mode then run_loop n fuel mode r else mret r
    end
  else mret r.

Definition uv_run (fuel : nat) (mode : uv_run_mode) : LM bool :=
  r ← uv__loop_alive;
  _ ← (if negb r then uv__update_time else mret tt);
  r ← run_loop fuel fuel mode r;
  s ← getS;
  _ ← (if negb (l_stop_flag s =? 0) then modifyS (set_stop_flag 0) else mret tt);
  mret r.

(** The part of [uv_loop_init] (unix/loop.c) that concerns what is modelled. *)
Definition uv_loop_init : LM unit :=
  _ ← on_heap heap_init;
  _ ← on_queues (QUEUE_INIT (Handles Idle));
  _ ← on_queues (QUEUE_INIT (Handles Check_));
  _ ← on_queues (QUEUE_INIT (Handles Prepare));
  _ ← on_queues (QUEUE_INIT HandleQueue);
  _ ← modifyS (set_active_handles 0);
  _ ← modifyS (fun s => mk_loop (l_time s) (l_timer_counter s) (l_active_handles s) 0 (l_stop_flag s)
        (l_closing_handles s) (l_timer_heap s) (l_queues s) (l_handles s) (l_ticks s) (l_world s));
  _ ← on_queues (QUEUE_INIT PendingQueue);
  _ ← modifyS (set_closing_handles None);
  _ ← uv__update_time;
  _ ← modifyS (set_timer_counter 0);
  modifyS (set_stop_flag 0).
End Close.
End Loop.
Arguments uv_loop_t W : clear implicits.
