(* ===== verification/LoopInv.v ===== *)
(** * The event loop of libuv: its invariant

    [Inv] ties the flags of the handles to the structures of the loop: the heap
    holds the active timers, each queue the active watchers of its type, the handle
    queue the handles that are not closed, the closing list those that wait for it,
    and [active_handles] counts the active handles that are referenced. *)

From Stdlib Require Import ZArith Lia.
From stdpp Require Import gmap.
From S2P Require Import Prelude UvErrno Heap HeapSpec HeapRefine Queue Loop.

(** ** Flags *)

Lemma has_flag_set_eq f h : f <> 0 -> has_flag f (set_flag f h) = true.
Proof.
  intros Hf. unfold has_flag, set_flag, with_flags; cbn [h_flags].
  assert ((h_flags h .| f) .& f = f) as ->; [| by destruct (Z.eqb_spec f 0)].
  apply Z.bits_inj'. intros n _. rewrite Z.land_spec, Z.lor_spec.
  by destruct (Z.testbit f n), (Z.testbit (h_flags h) n).
Qed.

Lemma has_flag_set_ne f g h : f .& g = 0 -> has_flag f (set_flag g h) = has_flag f h.
Proof.
  intros Hfg. unfold has_flag, set_flag, with_flags; cbn [h_flags].
  by rewrite Z.land_lor_distr_l, (Z.land_comm g), Hfg, Z.lor_0_r.
Qed.

Lemma has_flag_clear_eq f h : has_flag f (clear_flag f h) = false.
Proof.
  unfold has_flag, clear_flag, with_flags; cbn [h_flags].
  by rewrite Z.land_ldiff.
Qed.

Lemma has_flag_clear_ne f g h : f .& g = 0 -> has_flag f (clear_flag g h) = has_flag f h.
Proof.
  intros Hfg. unfold has_flag, clear_flag, with_flags; cbn [h_flags]. do 2 f_equal.
  apply Z.bits_inj'. intros n Hn. rewrite !Z.land_spec, Z.ldiff_spec.
  apply (f_equal (fun z => Z.testbit z n)) in Hfg. rewrite Z.land_spec, Z.bits_0 in Hfg.
  destruct (Z.testbit f n), (Z.testbit g n), (Z.testbit (h_flags h) n); done.
Qed.

Lemma uv__is_closing_or h :
  uv__is_closing h = has_flag UV_HANDLE_CLOSING h || has_flag UV_HANDLE_CLOSED h.
Proof.
  unfold uv__is_closing, has_flag. rewrite Z.land_lor_distr_r, <- negb_andb. f_equal.
  apply eq_true_iff_eq. by rewrite andb_true_iff, !Z.eqb_eq, Z.lor_eq_0_iff.
Qed.

Lemma with_flags_same z h : z = h_flags h -> with_flags z h = h.
Proof. intros ->. by destruct h. Qed.

Lemma set_flag_same k h : has_flag (2 ^ Z.of_nat k) h = true -> set_flag (2 ^ Z.of_nat k) h = h.
Proof.
  unfold has_flag, set_flag. intros Hf. apply with_flags_same.
  assert (Z.testbit (h_flags h) (Z.of_nat k) = true) as Hb.
  { destruct (Z.testbit (h_flags h) (Z.of_nat k)) eqn:E; [done |].
    apply negb_true_iff, Z.eqb_neq in Hf. destruct Hf. apply Z.bits_inj'. intros n Hn.
    rewrite Z.land_spec, Z.pow2_bits_eqb, Z.bits_0 by lia.
    destruct (Z.eqb_spec (Z.of_nat k) n) as [<- |]; [by rewrite E | by rewrite andb_false_r]. }
  apply Z.bits_inj'. intros n Hn. rewrite Z.lor_spec, Z.pow2_bits_eqb by lia.
  destruct (Z.eqb_spec (Z.of_nat k) n) as [<- |]; [by rewrite Hb | by rewrite orb_false_r].
Qed.

Lemma set_REF_same h : has_flag UV_HANDLE_REF h = true -> set_flag UV_HANDLE_REF h = h.
Proof. apply (set_flag_same 3). Qed.

Lemma clear_flag_same f h : has_flag f h = false -> clear_flag f h = h.
Proof.
  unfold has_flag, clear_flag. intros Hf%negb_false_iff%Z.eqb_eq. apply with_flags_same.
  apply Z.bits_inj'. intros n Hn. apply (f_equal (fun z => Z.testbit z n)) in Hf.
  rewrite Z.land_spec, Z.bits_0 in Hf. rewrite Z.ldiff_spec.
  by destruct (Z.testbit (h_flags h) n), (Z.testbit f n).
Qed.

Ltac flags :=
  unfold uv__is_active, uv__has_ref in *;
  repeat (first [rewrite has_flag_set_eq in * by done | rewrite has_flag_clear_eq in *
                |rewrite has_flag_set_ne in * by done | rewrite has_flag_clear_ne in * by done]).

(** ** Counting handles *)

Definition counted (h : uv_handle_t) : bool := uv__is_active h && uv__has_ref h.

Definition count (hs : gmap addr uv_handle_t) : nat :=
  size (filter (fun p => counted p.2 = true) hs).

Definition counted_at (o : option uv_handle_t) : nat :=
  match o with Some h => if counted h then 1 else 0 | None => 0 end.

Lemma count_insert hs a h :
  (count (<[a := h]> hs) + counted_at (hs !! a) = count hs + counted_at (Some h))%nat.
Proof.
  unfold count. rewrite map_filter_insert. unfold counted_at at 2.
  destruct (decide (counted (a, h).2 = true)) as [E | E]; cbn [snd] in E.
  - rewrite E, map_size_insert, map_lookup_filter.
    destruct (hs !! a) as [h0 |] eqn:E0; cbn [mbind option_bind counted_at].
    + destruct (counted h0) eqn:E1.
      * rewrite option_guard_True by done. cbn. lia.
      * rewrite option_guard_False by (cbn; congruence). cbn. lia.
    + lia.
  - apply not_true_is_false in E. rewrite E, map_filter_delete, map_size_delete, map_lookup_filter.
    destruct (hs !! a) as [h0 |] eqn:E0; cbn [mbind option_bind counted_at]; [| unfold id; lia].
    destruct (counted h0) eqn:E1.
    + rewrite option_guard_True by done. cbn. 
      assert (0 < size (filter (fun p : addr * uv_handle_t => counted p.2 = true) hs))%nat; [| lia].
      destruct (size (filter _ hs)) eqn:Es; [| lia]. apply map_size_empty_inv in Es.
      assert (filter (fun p : addr * uv_handle_t => counted p.2 = true) hs !! a = Some h0) as Ef
        by (by apply map_lookup_filter_Some). by rewrite Es, lookup_empty in Ef.
    + rewrite option_guard_False by (cbn; congruence). cbn. lia.
Qed.

Lemma count_same hs a h h' : hs !! a = Some h -> counted h' = counted h -> count (<[a := h']> hs) = count hs.
Proof. intros Hh Hc. pose proof (count_insert hs a h') as He. rewrite Hh in He. cbn in He. rewrite Hc in He. lia. Qed.

Lemma count_dom hs : (count hs <= size hs)%nat.
Proof. apply map_size_filter. Qed.

(** ** The invariant *)

(** What the structures of the loop hold: the heap; the queues of the watchers, and
    the ones a running [uv__run_*] has moved to its stack; the handle queue, and the
    one of a running [uv_walk]; the pending queue likewise; the closing list, and the
    one a running [uv__run_closing_handles] goes through. *)
Record contents := mk_contents {
  g_timers : gset addr;
  g_main : watcher -> list addr;
  g_local : watcher -> option (list addr);
  g_hq : list addr;
  g_lhq : option (list addr);
  g_pending : list addr;
  g_lpending : option (list addr);
  g_closing : list addr;
  g_finishing : list addr;
}.

Definition to_timers (v : gset addr) (G : contents) : contents :=
  mk_contents v (g_main G) (g_local G) (g_hq G) (g_lhq G) (g_pending G) (g_lpending G) (g_closing G) (g_finishing G).
Definition to_main (v : watcher -> list addr) (G : contents) : contents :=
  mk_contents (g_timers G) v (g_local G) (g_hq G) (g_lhq G) (g_pending G) (g_lpending G) (g_closing G)
    (g_finishing G).
Definition to_local (v : watcher -> option (list addr)) (G : contents) : contents :=
  mk_contents (g_timers G) (g_main G) v (g_hq G) (g_lhq G) (g_pending G) (g_lpending G) (g_closing G) (g_finishing G).
Definition to_hq (v : list addr) (G : contents) : contents :=
  mk_contents (g_timers G) (g_main G) (g_local G) v (g_lhq G) (g_pending G) (g_lpending G) (g_closing G)
    (g_finishing G).
Definition to_lhq (v : option (list addr)) (G : contents) : contents :=
  mk_contents (g_timers G) (g_main G) (g_local G) (g_hq G) v (g_pending G) (g_lpending G) (g_closing G)
    (g_finishing G).
Definition to_pending (v : list addr) (G : contents) : contents :=
  mk_contents (g_timers G) (g_main G) (g_local G) (g_hq G) (g_lhq G) v (g_lpending G) (g_closing G) (g_finishing G).
Definition to_lpending (v : option (list addr)) (G : contents) : contents :=
  mk_contents (g_timers G) (g_main G) (g_local G) (g_hq G) (g_lhq G) (g_pending G) v (g_closing G) (g_finishing G).
Definition to_closing (v : list addr) (G : contents) : contents :=
  mk_contents (g_timers G) (g_main G) (g_local G) (g_hq G) (g_lhq G) (g_pending G) (g_lpending G) v (g_finishing G).
Definition to_finishing (v : list addr) (G : contents) : contents :=
  mk_contents (g_timers G) (g_main G) (g_local G) (g_hq G) (g_lhq G) (g_pending G) (g_lpending G) (g_closing G) v.

(** The list of one type of watchers. *)
Definition upd_w {A} (w : watcher) (v : A) (f : watcher -> A) : watcher -> A :=
  fun w' => if decide (w' = w) then v else f w'.

Lemma upd_w_eq {A} w (v : A) f : upd_w w v f w = v.
Proof. unfold upd_w. by rewrite decide_True. Qed.
Lemma upd_w_ne {A} w (v : A) f w' : w' <> w -> upd_w w v f w' = f w'.
Proof. intros. unfold upd_w. by rewrite decide_False. Qed.

Definition watched (G : contents) (w : watcher) : list addr := g_main G w ++ default [] (g_local G w).
Definition queued (G : contents) : list addr := g_hq G ++ default [] (g_lhq G).
Definition closings (G : contents) : list addr := g_closing G ++ g_finishing G.

Definition is_loop_type (t : uv_handle_type) : bool :=
  match t with UV_TIMER | UV_PREPARE | UV_CHECK | UV_IDLE => true | _ => false end.

(** The flags of one handle agree with each other. *)
Record handle_ok (h : uv_handle_t) : Prop := {
  ok_closed : has_flag UV_HANDLE_CLOSED h = true -> has_flag UV_HANDLE_CLOSING h = true;
  ok_closing : has_flag UV_HANDLE_CLOSING h = true -> uv__is_active h = false /\ is_loop_type (h_type h) = true;
  ok_active : uv__is_active h = true -> is_loop_type (h_type h) = true -> h_cb h <> None;
  ok_timer : h_type h = UV_TIMER -> 0 <= h_repeat h < 2 ^ 64 /\ (uv__is_active h = true -> 0 <= h_timeout h < 2 ^ 64);
}.

(** And with the structures. *)
Definition handle_in (G : contents) (a : addr) (o : option uv_handle_t) : Prop :=
  match o with
  | None => (a ∉ g_timers G) /\ (forall w, a ∉ watched G w) /\ (a ∉ queued G) /\ (a ∉ closings G)
  | Some h =>
      handle_ok h /\
      (a ∈ g_timers G <-> h_type h = UV_TIMER /\ uv__is_active h = true) /\
      (forall w, a ∈ watched G w <-> h_type h = watcher_type w /\ uv__is_active h = true) /\
      (a ∈ queued G <-> has_flag UV_HANDLE_CLOSED h = false) /\
      (a ∈ closings G <-> has_flag UV_HANDLE_CLOSING h = true /\ has_flag UV_HANDLE_CLOSED h = false)
  end.

Fixpoint closing_chain (hs : gmap addr uv_handle_t) (p : ptr) (l : list addr) : Prop :=
  match l with
  | [] => p = None
  | a :: l => p = Some a /\ exists h, hs !! a = Some h /\ closing_chain hs (h_next_closing h) l
  end.

Record queues_rep (G : contents) (q : qmem node) : Prop := {
  rep_main w : ring (Handles w) (QueueOf <$> g_main G w) q;
  rep_local w l : g_local G w = Some l -> ring (LocalHandles w) (QueueOf <$> l) q;
  rep_hq : ring HandleQueue (HandleQueueOf <$> g_hq G) q;
  rep_lhq l : g_lhq G = Some l -> ring LocalHandleQueue (HandleQueueOf <$> l) q;
  rep_pending : ring PendingQueue (PendingOf <$> g_pending G) q;
  rep_lpending l : g_lpending G = Some l -> ring LocalPending (PendingOf <$> l) q;
}.

(** No handle is twice in the same structure. *)
Record contents_ok (G : contents) : Prop := {
  nodup_watched w : NoDup (watched G w);
  nodup_queued : NoDup (queued G);
  nodup_closings : NoDup (closings G);
  nodup_pending : NoDup (g_pending G ++ default [] (g_lpending G));
}.

(** Nodes of different kinds, or of different handles, are different. *)
Ltac nodes :=
  repeat match goal with
  | Hn : _ ∈ _ :: _ |- _ => apply elem_of_cons in Hn as [Hn | Hn]
  | Hn : _ ∈ _ ++ _ |- _ => apply elem_of_app in Hn as [Hn | Hn]
  | Hn : _ ∈ _ <$> _ |- _ => apply list_elem_of_fmap in Hn as (? & ? & ?)
  | Hn : _ ∈ [] |- _ => by apply not_elem_of_nil in Hn
  end; simplify_eq; try done.

Ltac disj := intros ? Hn Hd; nodes.

Section Inv.
Context {W : Type}.
Implicit Types (s : uv_loop_t W) (G : contents).

(** The number of handles is what the 32-bit counters can hold. *)
Definition max_handles : Z := 2 ^ 32 - 2.

Record Inv (G : contents) s : Prop := {
  inv_ok : contents_ok G;
  inv_heap : heap_of (timer_less_than (l_handles s)) (g_timers G) (l_timer_heap s);
  inv_queues : queues_rep G (l_queues s);
  inv_closing : closing_chain (l_handles s) (l_closing_handles s) (g_closing G);
  inv_finishing : closing_chain (l_handles s) (head (g_finishing G)) (g_finishing G);
  inv_handles : forall a, handle_in G a (l_handles s !! a);
  inv_count : l_active_handles s = Z.of_nat (count (l_handles s));
  inv_size : Z.of_nat (size (l_handles s)) < max_handles;
  inv_time : 0 <= l_time s < 2 ^ 64;
}.

(** *** One handle changes *)

(** The structures hold the same handles but for [a]. *)
Definition same_but (a : addr) G G' : Prop := forall b, b <> a ->
  (b ∈ g_timers G' <-> b ∈ g_timers G) /\ (forall w, b ∈ watched G' w <-> b ∈ watched G w) /\
  (b ∈ queued G' <-> b ∈ queued G) /\ (b ∈ closings G' <-> b ∈ closings G).

Lemma handle_in_same a G G' b o : same_but a G G' -> b <> a -> handle_in G b o -> handle_in G' b o.
Proof.
  intros Hs Hb. destruct (Hs b Hb) as (Ht & Hw & Hq & Hc). unfold handle_in.
  destruct o as [h |]; rewrite Ht, Hq, Hc; setoid_rewrite Hw; done.
Qed.

Lemma same_but_refl a G : same_but a G G.
Proof. done. Qed.

(** The order of the timers looks at nothing else. *)
Lemma timer_less_than_ext hs hs' a b :
  timer_key hs' a = timer_key hs a -> timer_key hs' b = timer_key hs b ->
  timer_less_than hs' a b = timer_less_than hs a b.
Proof. unfold timer_less_than. by intros -> ->. Qed.

Lemma heap_of_ext lt lt' X h :
  (forall a b, a ∈ X -> b ∈ X -> lt' a b = lt a b) -> heap_of lt X h -> heap_of lt' X h.
Proof.
  intros Hlt (l & m0 & HX & Ho & Hr). exists l, m0. split; [done |]. split; [| done].
  intros m a b H0 Ha Hb. rewrite Hlt; [by apply (Ho m) | |]; subst X; apply elem_of_list_to_set, list_elem_of_lookup; eauto.
Qed.

(** The order is lexicographic. *)
Definition key_lt (x y : Z * Z) : Prop := x.1 < y.1 \/ x.1 = y.1 /\ x.2 < y.2.

Lemma timer_less_than_true hs a b : timer_less_than hs a b = true <-> key_lt (timer_key hs a) (timer_key hs b).
Proof.
  unfold timer_less_than, key_lt. destruct (timer_key hs a) as [ta ia], (timer_key hs b) as [tb ib]. cbn [fst snd].
  destruct (Z.ltb_spec ta tb); [split; lia |]. destruct (Z.ltb_spec tb ta); [split; lia |].
  rewrite Z.ltb_lt. lia.
Qed.

Lemma timer_less_than_false hs a b :
  timer_less_than hs a b = false <-> ~ key_lt (timer_key hs a) (timer_key hs b).
Proof. rewrite <- timer_less_than_true. by destruct (timer_less_than hs a b). Qed.

#[export] Instance timer_order hs : WeakOrder (timer_less_than hs).
Proof.
  split; intros *; rewrite ?timer_less_than_true, !timer_less_than_false; unfold key_lt; lia.
Qed.

(** *** Running the primitives *)

Lemma getS_bind {A} (f : uv_loop_t W -> prog (uv_loop_t W) A) s : (getS ≫= f) s = f s s.
Proof. done. Qed.

Lemma get_handle_run s a h : l_handles s !! a = Some h -> get_handle a s = (Done h, s).
Proof. unfold get_handle. by intros ->. Qed.

Lemma update_handle_run s a h f :
  l_handles s !! a = Some h -> update_handle a f s = (Done tt, set_handles (<[a := f h]> (l_handles s)) s).
Proof. intros Hh. unfold update_handle. by rewrite (prog_bind_done _ _ _ _ _ (get_handle_run _ _ _ Hh)). Qed.

Lemma on_heap_run {A} (m : prog heap A) s r h :
  m (l_timer_heap s) = (r, h) -> on_heap m s = (r, set_timer_heap h s).
Proof. unfold on_heap. by intros ->. Qed.

Lemma on_queues_run {A} (m : prog (qmem node) A) s r q :
  m (l_queues s) = (r, q) -> on_queues m s = (r, set_queues q s).
Proof. unfold on_queues. by intros ->. Qed.

(** The handles become [hs], and the counter follows. *)
Definition with_hs (hs : gmap addr uv_handle_t) s : uv_loop_t W :=
  set_active_handles (Z.of_nat (count hs)) (set_handles hs s).

Lemma with_hs_same hs s :
  l_active_handles s = Z.of_nat (count hs) -> with_hs hs s = set_handles hs s.
Proof. unfold with_hs. intros <-. by destruct s. Qed.

Definition counts s : Prop :=
  l_active_handles s = Z.of_nat (count (l_handles s)) /\ Z.of_nat (size (l_handles s)) < max_handles.

Lemma Inv_counts G s : Inv G s -> counts s.
Proof. intros Hi. split; apply Hi. Qed.

Lemma u32_count hs : Z.of_nat (size hs) < max_handles -> u32 (Z.of_nat (count hs)) = Z.of_nat (count hs).
Proof. intros Hs. pose proof (count_dom hs). apply wrap_small. unfold max_handles in Hs. lia. Qed.

Lemma size_insert_old (hs : gmap addr uv_handle_t) a h h' : hs !! a = Some h -> size (<[a := h']> hs) = size hs.
Proof. intros Hh. by rewrite map_size_insert, Hh. Qed.

(** The bookkeeping of a change of the flags of [a] from [h] to [h']. *)
Lemma count_step s a h h' (d : Z) :
  counts s -> l_handles s !! a = Some h ->
  d = Z.of_nat (counted_at (Some h')) - Z.of_nat (counted_at (Some h)) ->
  u32 (l_active_handles s + d) = Z.of_nat (count (<[a := h']> (l_handles s))).
Proof.
  intros [Hc Hs] Hh ->. pose proof (count_insert (l_handles s) a h') as He. rewrite Hh in He.
  rewrite <- u32_count by (by rewrite (size_insert_old _ _ _ _ Hh)). f_equal. lia.
Qed.

Ltac hrun Hh :=
  rewrite (prog_bind_done _ _ _ _ _ (get_handle_run _ _ _ Hh)).

Lemma handle_flag_run s a h h' (d : Z) (m : prog (uv_loop_t W) unit) :
  counts s -> l_handles s !! a = Some h ->
  d = Z.of_nat (counted_at (Some h')) - Z.of_nat (counted_at (Some h)) ->
  m = (if d =? 0 then mret tt else modifyS (fun s => set_active_handles (u32 (l_active_handles s + d)) s)) ->
  m (set_handles (<[a := h']> (l_handles s)) s) = (Done tt, with_hs (<[a := h']> (l_handles s)) s).
Proof.
  intros Hc Hh Hd ->. pose proof (count_step s a h h' d Hc Hh Hd) as He.
  destruct (Z.eqb_spec d 0) as [-> |].
  - rewrite with_hs_same; [done |]. destruct Hc as [Hc Hs]. rewrite <- He, Z.add_0_r, Hc. symmetry. by apply u32_count.
  - unfold modifyS, with_hs. rewrite <- He. done.
Qed.

Lemma handle_start_run s a h :
  counts s -> l_handles s !! a = Some h -> uv__is_active h = false ->
  uv__handle_start a s = (Done tt, with_hs (<[a := set_flag UV_HANDLE_ACTIVE h]> (l_handles s)) s).
Proof.
  intros Hc Hh Ha. unfold uv__handle_start. hrun Hh. rewrite Ha.
  rewrite (prog_bind_done _ _ _ _ _ (update_handle_run _ _ _ _ Hh)).
  rewrite (prog_bind_done _ _ _ _ _ (get_handle_run _ a (set_flag UV_HANDLE_ACTIVE h) (lookup_insert_eq _ _ _))).
  apply (handle_flag_run s a h _ (if uv__has_ref h then 1 else 0)); [done | done | |].
  - unfold counted_at, counted. rewrite Ha. flags. by destruct (has_flag UV_HANDLE_REF h).
  - flags. by destruct (has_flag UV_HANDLE_REF h).
Qed.

Lemma handle_stop_run s a h :
  counts s -> l_handles s !! a = Some h -> uv__is_active h = true ->
  uv__handle_stop a s = (Done tt, with_hs (<[a := clear_flag UV_HANDLE_ACTIVE h]> (l_handles s)) s).
Proof.
  intros Hc Hh Ha. unfold uv__handle_stop. hrun Hh. rewrite Ha. cbn [negb].
  rewrite (prog_bind_done _ _ _ _ _ (update_handle_run _ _ _ _ Hh)).
  rewrite (prog_bind_done _ _ _ _ _ (get_handle_run _ a (clear_flag UV_HANDLE_ACTIVE h) (lookup_insert_eq _ _ _))).
  apply (handle_flag_run s a h _ (if uv__has_ref h then -1 else 0)); [done | done | |].
  - unfold counted_at, counted. rewrite Ha. flags. by destruct (has_flag UV_HANDLE_REF h).
  - flags. by destruct (has_flag UV_HANDLE_REF h).
Qed.

Lemma handle_ref_run s a h :
  counts s -> l_handles s !! a = Some h -> handle_ok h ->
  uv__handle_ref a s = (Done tt, with_hs (<[a := set_flag UV_HANDLE_REF h]> (l_handles s)) s).
Proof.
  intros Hc Hh Hok. unfold uv__handle_ref. hrun Hh. destruct (uv__has_ref h) eqn:Er.
  - rewrite set_REF_same by done. rewrite insert_id by done. rewrite with_hs_same by apply Hc. by destruct s.
  - rewrite (prog_bind_done _ _ _ _ _ (update_handle_run _ _ _ _ Hh)).
    rewrite (prog_bind_done _ _ _ _ _ (get_handle_run _ a (set_flag UV_HANDLE_REF h) (lookup_insert_eq _ _ _))).
    apply (handle_flag_run s a h _ (if uv__is_active h then 1 else 0)); [done | done | |].
    + unfold counted_at, counted. rewrite Er. flags. by destruct (has_flag UV_HANDLE_ACTIVE h).
    + pose proof (ok_closing _ Hok) as Hcl. flags. destruct (has_flag UV_HANDLE_CLOSING h) eqn:Ec.
      * by destruct Hcl as [-> _].
      * by destruct (has_flag UV_HANDLE_ACTIVE h).
Qed.

Lemma handle_unref_run s a h :
  counts s -> l_handles s !! a = Some h -> handle_ok h ->
  uv__handle_unref a s = (Done tt, with_hs (<[a := clear_flag UV_HANDLE_REF h]> (l_handles s)) s).
Proof.
  intros Hc Hh Hok. unfold uv__handle_unref. hrun Hh. destruct (uv__has_ref h) eqn:Er; cbn [negb].
  - rewrite (prog_bind_done _ _ _ _ _ (update_handle_run _ _ _ _ Hh)).
    rewrite (prog_bind_done _ _ _ _ _ (get_handle_run _ a (clear_flag UV_HANDLE_REF h) (lookup_insert_eq _ _ _))).
    apply (handle_flag_run s a h _ (if uv__is_active h then -1 else 0)); [done | done | |].
    + unfold counted_at, counted. rewrite Er. flags. by destruct (has_flag UV_HANDLE_ACTIVE h).
    + pose proof (ok_closing _ Hok) as Hcl. flags. destruct (has_flag UV_HANDLE_CLOSING h) eqn:Ec.
      * by destruct Hcl as [-> _].
      * by destruct (has_flag UV_HANDLE_ACTIVE h).
  - rewrite clear_flag_same by done. rewrite insert_id by done. rewrite with_hs_same by apply Hc. by destruct s.
Qed.

(** *** The structures under a change of one handle *)

Lemma closing_chain_update hs a h' p l :
  (forall h, a ∈ l -> hs !! a = Some h -> h_next_closing h' = h_next_closing h) ->
  closing_chain hs p l -> closing_chain (<[a := h']> hs) p l.
Proof.
  revert p. induction l as [| b l IH]; intros p Ha; cbn [closing_chain]; [done |].
  intros (-> & h & Hh & Hc). split; [done |]. destruct (decide (b = a)) as [-> | Hb].
  - exists h'. rewrite lookup_insert_eq. split; [done |]. rewrite (Ha h) by (done || by left).
    apply IH; [| done]. intros h0 Hin. apply Ha. by right.
  - exists h. rewrite lookup_insert_ne by done. split; [done |]. apply IH; [| done]. intros h0 Hin. apply Ha. by right.
Qed.

Lemma timer_key_ne hs a h' b : b <> a -> timer_key (<[a := h']> hs) b = timer_key hs b.
Proof. intros Hb. unfold timer_key. by rewrite lookup_insert_ne. Qed.

Lemma timer_key_eq hs a h' : timer_key (<[a := h']> hs) a = (h_timeout h', h_start_id h').
Proof. unfold timer_key. by rewrite lookup_insert_eq. Qed.

Lemma heap_update hs a h' X h :
  (a ∈ X -> timer_key hs a = (h_timeout h', h_start_id h')) ->
  heap_of (timer_less_than hs) X h -> heap_of (timer_less_than (<[a := h']> hs)) X h.
Proof.
  intros Ha. apply heap_of_ext. intros x y Hx Hy.
  assert (forall z, z ∈ X -> timer_key (<[a := h']> hs) z = timer_key hs z) as Hk.
  { intros z Hz. destruct (decide (z = a)) as [-> |]; [| by apply timer_key_ne].
    rewrite timer_key_eq. symmetry. by apply Ha. }
  apply timer_less_than_ext; by apply Hk.
Qed.

(** The invariant after an operation on [a]. *)
Lemma Inv_step G G' s s' a h' :
  Inv G s -> l_handles s' = <[a := h']> (l_handles s) -> same_but a G G' -> contents_ok G' ->
  heap_of (timer_less_than (l_handles s')) (g_timers G') (l_timer_heap s') ->
  queues_rep G' (l_queues s') ->
  closing_chain (l_handles s') (l_closing_handles s') (g_closing G') ->
  closing_chain (l_handles s') (head (g_finishing G')) (g_finishing G') ->
  handle_in G' a (Some h') ->
  l_active_handles s' = Z.of_nat (count (l_handles s')) ->
  Z.of_nat (size (l_handles s')) < max_handles -> l_time s' = l_time s ->
  Inv G' s'.
Proof.
  intros Hi Ehs Hsame Hok Hheap Hq Hcl Hfin Ha Hcount Hsize Htime. split; try done.
  - intros b. rewrite Ehs. destruct (decide (b = a)) as [-> | Hb].
    + by rewrite lookup_insert_eq.
    + rewrite lookup_insert_ne by done. apply (handle_in_same a G); [done.. |]. apply Hi.
  - rewrite Htime. apply Hi.
Qed.
End Inv.
