(* ===== verification/LoopOps.v ===== *)
(** * The event loop of libuv: the operations keep the invariant

    Each operation, run from a state in [Inv] within its documented precondition,
    returns in a known state in [Inv]. *)

From Stdlib Require Import ZArith Lia.
From stdpp Require Import gmap.
From S2P Require Import Prelude UvErrno Heap HeapSpec HeapRefine Queue Loop LoopInv.

Ltac hrun Hh := rewrite (prog_bind_done _ _ _ _ _ (get_handle_run _ _ _ Hh)).

(** Reads of a state that was updated. *)
Ltac lsimpl := cbn [l_time l_timer_counter l_active_handles l_active_reqs l_stop_flag l_closing_handles l_timer_heap
  l_queues l_handles l_ticks l_world with_hs set_time set_timer_counter set_active_handles set_stop_flag
  set_closing_handles set_timer_heap set_queues set_handles set_ticks set_world].

Section Ops.
Context {W : Type}.
Implicit Types (s : uv_loop_t W) (G : contents).

Lemma update_inserted s hs a h f :
  update_handle a f (set_handles (<[a := h]> hs) s) = (Done tt, set_handles (<[a := f h]> hs) s).
Proof.
  erewrite update_handle_run by (cbn; apply lookup_insert_eq). cbn [l_handles set_handles]. by rewrite insert_insert_eq.
Qed.

(** A handle that has changed is still the handle at its address. *)
Lemma Inv_handle G s a h : Inv G s -> l_handles s !! a = Some h -> handle_in G a (Some h).
Proof. intros Hi Hh. pose proof (inv_handles _ _ Hi a) as Ha. by rewrite Hh in Ha. Qed.

Lemma Inv_handle_ok G s a h : Inv G s -> l_handles s !! a = Some h -> handle_ok h.
Proof. intros Hi Hh. by destruct (Inv_handle _ _ _ _ Hi Hh). Qed.

(** Changes of a handle that the structures do not see. *)
Lemma handle_in_flags G a h h' :
  handle_in G a (Some h) -> handle_ok h' -> h_type h' = h_type h -> uv__is_active h' = uv__is_active h ->
  has_flag UV_HANDLE_CLOSING h' = has_flag UV_HANDLE_CLOSING h ->
  has_flag UV_HANDLE_CLOSED h' = has_flag UV_HANDLE_CLOSED h ->
  handle_in G a (Some h').
Proof. unfold handle_in. intros (_ & Hrest) Hok -> -> -> ->. done. Qed.

Lemma handle_ok_flags h h' :
  handle_ok h -> h_type h' = h_type h -> uv__is_active h' = uv__is_active h ->
  has_flag UV_HANDLE_CLOSING h' = has_flag UV_HANDLE_CLOSING h ->
  has_flag UV_HANDLE_CLOSED h' = has_flag UV_HANDLE_CLOSED h ->
  (uv__is_active h = true -> is_loop_type (h_type h) = true -> h_cb h' <> None) ->
  (h_type h = UV_TIMER -> 0 <= h_repeat h' < 2 ^ 64 /\ (uv__is_active h = true -> 0 <= h_timeout h' < 2 ^ 64)) ->
  handle_ok h'.
Proof. intros [H1 H2 H3 H4] Et Ea Ec Ed Hcb Ht. split; rewrite ?Et, ?Ea, ?Ec, ?Ed; auto. Qed.

Lemma Inv_update G s a h h' :
  Inv G s -> l_handles s !! a = Some h -> handle_ok h' ->
  h_type h' = h_type h -> uv__is_active h' = uv__is_active h ->
  has_flag UV_HANDLE_CLOSING h' = has_flag UV_HANDLE_CLOSING h ->
  has_flag UV_HANDLE_CLOSED h' = has_flag UV_HANDLE_CLOSED h ->
  (a ∈ g_timers G -> h_timeout h' = h_timeout h /\ h_start_id h' = h_start_id h) ->
  (a ∈ closings G -> h_next_closing h' = h_next_closing h) ->
  Inv G (with_hs (<[a := h']> (l_handles s)) s).
Proof.
  intros Hi Hh Hok Et Ea Ec Ed Hkey Hnext. eapply (Inv_step G G s _ a h'); lsimpl; try done; try apply Hi.
  - apply heap_update; [| apply Hi]. intros Hin. unfold timer_key. rewrite Hh. by destruct (Hkey Hin) as [-> ->].
  - apply closing_chain_update; [| apply Hi]. intros h0 Hin Hh0. simplify_eq. apply Hnext. unfold closings. set_solver.
  - apply closing_chain_update; [| apply Hi]. intros h0 Hin Hh0. simplify_eq. apply Hnext. unfold closings. set_solver.
  - by apply (handle_in_flags G a h); [eapply Inv_handle |..].
  - rewrite (size_insert_old _ _ _ _ Hh). apply Hi.
Qed.

(** ** Timers *)

Lemma timer_not_watched h w : h_type h = UV_TIMER -> h_type h <> watcher_type w.
Proof. by destruct w; intros ->. Qed.

Lemma uv_timer_stop_inactive s a h :
  l_handles s !! a = Some h -> uv__is_active h = false -> uv_timer_stop a s = (Done 0, s).
Proof. intros Hh Ha. unfold uv_timer_stop. hrun Hh. by rewrite Ha. Qed.

Lemma uv_timer_stop_active G s a h :
  Inv G s -> l_handles s !! a = Some h -> h_type h = UV_TIMER -> uv__is_active h = true ->
  exists hp, let s' := with_hs (<[a := clear_flag UV_HANDLE_ACTIVE h]> (l_handles s)) (set_timer_heap hp s) in
    uv_timer_stop a s = (Done 0, s') /\ Inv (to_timers (g_timers G ∖ {[a]}) G) s'.
Proof.
  intros Hi Hh Ht Ha. destruct (Inv_handle _ _ _ _ Hi Hh) as (Hok & Hin & Hw & Hq & Hc).
  destruct (run_op_step (timer_less_than (l_handles s)) (Remove a) _ _ (inv_heap _ _ Hi)) as (hp & X & E & Hs & Hhp & _).
  { by apply Hin. }
  inversion Hs; subst. cbn [run_op] in E. exists hp. split.
  - unfold uv_timer_stop. hrun Hh. rewrite Ha. cbn [negb]. rewrite getS_bind.
    rewrite (prog_bind_done _ _ _ _ _ (on_heap_run _ s _ _ E)).
    rewrite (prog_bind_done _ _ _ _ _ (handle_stop_run (set_timer_heap hp s) a h (Inv_counts _ _ Hi) Hh Ha)). done.
  - apply (Inv_step G _ s _ a (clear_flag UV_HANDLE_ACTIVE h)); lsimpl; try done; try apply Hi.
    + intros b Hb. split_and!; try done. set_solver.
    + split; apply Hi.
    + cbn [g_timers to_timers]. apply heap_update; [set_solver | done].
    + destruct (inv_queues _ _ Hi). by split.
    + apply closing_chain_update; [| apply Hi]. intros h0 _ Hh0. by simplify_eq.
    + apply closing_chain_update; [| apply Hi]. intros h0 _ Hh0. by simplify_eq.
    + assert (handle_ok (clear_flag UV_HANDLE_ACTIVE h)) as Hok'.
      { destruct Hok as [H1 H2 H3 H4]. split; flags; [done | | done |].
        - intros Hcl. by destruct (H2 Hcl).
        - intros Ht'. by destruct (H4 Ht'). }
      split; [done |]. flags. split_and!; [set_solver | | done..].
      intros w. rewrite (Hw w). split; intros [Hw' ?]; [by destruct (timer_not_watched h w Ht) | done].
    + rewrite (size_insert_old _ _ _ _ Hh). apply Hi.
Qed.

(** Stopping, in both cases: the handle is inactive after. *)
Definition without_timer (a : addr) G : contents := to_timers (g_timers G ∖ {[a]}) G.

Lemma uv_timer_stop_spec G s a h :
  Inv G s -> l_handles s !! a = Some h -> h_type h = UV_TIMER ->
  exists hp, let s' := with_hs (<[a := clear_flag UV_HANDLE_ACTIVE h]> (l_handles s)) (set_timer_heap hp s) in
    uv_timer_stop a s = (Done 0, s') /\ Inv (without_timer a G) s'.
Proof.
  intros Hi Hh Ht. destruct (uv__is_active h) eqn:Ha; [by apply uv_timer_stop_active |].
  exists (l_timer_heap s). rewrite (uv_timer_stop_inactive s a h Hh Ha), clear_flag_same, insert_id by done.
  rewrite with_hs_same by apply Hi. destruct (Inv_handle _ _ _ _ Hi Hh) as (_ & Hin & _).
  assert (without_timer a G = G) as ->.
  { unfold without_timer. assert (g_timers G ∖ {[a]} = g_timers G) as ->; [| by destruct G].
    assert (a ∉ g_timers G) by (rewrite Hin; intros [_ ?]; congruence). set_solver. }
  split; [by destruct s |]. by destruct s.
Qed.

Definition clamp_timeout (time timeout : Z) : Z :=
  let c := u64 (time + timeout) in if c <? timeout then UINT64_MAX else c.

Lemma clamp_timeout_spec time timeout :
  0 <= time < 2 ^ 64 -> 0 <= timeout < 2 ^ 64 -> clamp_timeout time timeout = Z.min (time + timeout) UINT64_MAX.
Proof.
  intros Ht Hto. unfold clamp_timeout, wrap, UINT64_MAX.
  destruct (Z.lt_ge_cases (time + timeout) (2 ^ 64)).
  - rewrite Z.mod_small by lia. destruct (Z.ltb_spec (time + timeout) timeout); lia.
  - assert ((time + timeout) mod 2 ^ 64 = time + timeout - 2 ^ 64) as ->.
    { symmetry. apply Z.mod_unique_pos with 1; lia. }
    destruct (Z.ltb_spec (time + timeout - 2 ^ 64) timeout); lia.
Qed.

(** The record of a started timer. *)
Definition started (h : uv_handle_t) (c : option cb) (t r i : Z) : uv_handle_t :=
  set_flag UV_HANDLE_ACTIVE (with_start_id i (with_repeat r (with_timeout t (with_cb c h)))).

Definition with_timer (a : addr) G : contents := to_timers ({[a]} ∪ g_timers G) G.

(** Starting an inactive timer. *)
Lemma uv_timer_start_inactive G s a h c timeout repeat :
  Inv G s -> l_handles s !! a = Some h -> h_type h = UV_TIMER ->
  has_flag UV_HANDLE_CLOSING h = false -> uv__is_active h = false ->
  0 <= timeout < 2 ^ 64 -> 0 <= repeat < 2 ^ 64 ->
  let h' := started h (Some c) (clamp_timeout (l_time s) timeout) repeat (l_timer_counter s) in
  exists hp, let s' := with_hs (<[a := h']> (l_handles s))
      (set_timer_counter (u64 (l_timer_counter s + 1)) (set_timer_heap hp s)) in
    uv_timer_start a (Some c) timeout repeat s = (Done 0, s') /\ Inv (with_timer a G) s'.
Proof.
  intros Hi Hh Ht Hcl Ha Hto Hre h'. destruct (Inv_handle _ _ _ _ Hi Hh) as (Hok & Hin & Hw & Hq & Hc).
  assert (has_flag UV_HANDLE_CLOSED h = false) as Hcd.
  { destruct (has_flag UV_HANDLE_CLOSED h) eqn:E; [| done]. pose proof (ok_closed _ Hok E). congruence. }
  set (h1 := with_start_id (l_timer_counter s) (with_repeat repeat
    (with_timeout (clamp_timeout (l_time s) timeout) (with_cb (Some c) h)))).
  set (s1 := set_timer_counter (u64 (l_timer_counter s + 1)) (set_handles (<[a := h1]> (l_handles s)) s)).
  assert (a ∉ g_timers G) as Hna by (rewrite Hin; intros [_ ?]; congruence).
  assert (heap_of (timer_less_than (l_handles s1)) (g_timers G) (l_timer_heap s1)) as Hheap.
  { apply heap_update; [done | apply Hi]. }
  assert (size (g_timers G) <= size (l_handles s))%nat as Hsz.
  { rewrite <- size_dom. apply subseteq_size. intros b Hb. pose proof (inv_handles _ _ Hi b) as Hb'.
    apply elem_of_dom. destruct (l_handles s !! b); [done |]. by destruct Hb' as (? & _). }
  destruct (run_op_step (timer_less_than (l_handles s1)) (Insert a) _ _ Hheap) as (hp & X & E & Hs & Hhp & _).
  { split; [done |]. pose proof (inv_size _ _ Hi). unfold max_handles in *. lia. }
  inversion Hs; subst X. cbn [run_op] in E. exists hp. clear Hs. split.
  - unfold uv_timer_start. hrun Hh. rewrite uv__is_closing_or, Hcl, Hcd, Ha. cbn [orb bool_decide].
    rewrite bool_decide_eq_false_2 by done.
    rewrite (prog_bind_done _ _ s tt s) by done. rewrite getS_bind. cbv zeta. fold (clamp_timeout (l_time s) timeout).
    rewrite (prog_bind_done _ _ _ _ _ (update_handle_run _ _ _ _ Hh)).
    rewrite !(prog_bind_done _ _ _ _ _ (update_inserted _ _ _ _ _)), getS_bind.
    rewrite (prog_bind_done _ _ _ _ _ (update_inserted _ _ _ _ _)). cbn [l_timer_counter set_handles]. fold h1.
    rewrite (prog_bind_done _ _ _ tt s1) by done. rewrite getS_bind.
    rewrite (prog_bind_done _ _ _ _ _ (on_heap_run _ s1 _ _ E)).
    assert (counts (set_timer_heap hp s1)) as Hcnt.
    { split; cbn [set_timer_heap l_active_handles l_handles s1 set_timer_counter set_handles].
      - rewrite (count_same _ _ h) by done. apply Hi.
      - rewrite (size_insert_old _ _ _ _ Hh). apply Hi. }
    rewrite (prog_bind_done _ _ _ _ _ (handle_start_run (set_timer_heap hp s1) a h1 Hcnt
      (lookup_insert_eq _ _ _) Ha)).
    unfold with_hs. cbn [set_timer_heap l_handles s1 set_timer_counter set_handles]. by rewrite insert_insert_eq.
  - apply (Inv_step G _ s _ a h'); lsimpl; try done; try apply Hi.
    + intros b Hb. split_and!; try done. set_solver.
    + split; apply Hi.
    + cbn [g_timers to_timers with_timer]. revert Hhp. apply heap_of_ext. intros x y _ _.
      assert (forall z, timer_key (<[a := h']> (l_handles s)) z = timer_key (l_handles s1) z) as Hk.
      { intros z. destruct (decide (z = a)) as [-> |]; cbn [s1 l_handles set_timer_counter set_handles];
          by rewrite ?timer_key_eq, ?timer_key_ne. }
      by apply timer_less_than_ext.
    + destruct (inv_queues _ _ Hi). by split.
    + apply closing_chain_update; [| apply Hi]. intros h0 _ Hh0. by simplify_eq.
    + apply closing_chain_update; [| apply Hi]. intros h0 _ Hh0. by simplify_eq.
    + assert (has_flag UV_HANDLE_CLOSING h' = false /\ has_flag UV_HANDLE_CLOSED h' = false /\ uv__is_active h' = true)
        as (E1 & E2 & E3) by (unfold h', started; flags; done).
      split; [split; rewrite ?E1, ?E2, ?E3 |]; try done.
      { intros _. split; [done |]. intros _. cbn. rewrite clamp_timeout_spec by (done || apply Hi).
        pose proof (inv_time _ _ Hi). unfold UINT64_MAX. lia. }
      rewrite E1, E2, E3. split_and!; [set_solver | | by rewrite Hcd in Hq | by rewrite Hcl, Hcd in Hc].
      intros w. rewrite (Hw w). split; intros [Hw' _]; by destruct (timer_not_watched h w Ht).
    + rewrite (size_insert_old _ _ _ _ Hh). apply Hi.
Qed.

Lemma with_without_timer a G : with_timer a (without_timer a G) = with_timer a G.
Proof.
  unfold with_timer, without_timer, to_timers. cbn. f_equal. apply set_eq. intros x.
  destruct (decide (x = a)) as [-> |]; set_solver.
Qed.

(** [uv_timer_start] on any timer that is not closing. *)
Lemma uv_timer_start_spec G s a h c timeout repeat :
  Inv G s -> l_handles s !! a = Some h -> h_type h = UV_TIMER -> has_flag UV_HANDLE_CLOSING h = false ->
  0 <= timeout < 2 ^ 64 -> 0 <= repeat < 2 ^ 64 ->
  let h' := started (clear_flag UV_HANDLE_ACTIVE h) (Some c) (clamp_timeout (l_time s) timeout) repeat
              (l_timer_counter s) in
  exists hp, let s' := with_hs (<[a := h']> (l_handles s))
      (set_timer_counter (u64 (l_timer_counter s + 1)) (set_timer_heap hp s)) in
    uv_timer_start a (Some c) timeout repeat s = (Done 0, s') /\ Inv (with_timer a G) s'.
Proof.
  intros Hi Hh Ht Hcl Hto Hre h'. destruct (uv__is_active h) eqn:Ha.
  - destruct (uv_timer_stop_spec G s a h Hi Hh Ht) as (hp1 & E1 & Hi1).
    set (s1 := with_hs _ _) in E1, Hi1.
    destruct (uv_timer_start_inactive _ s1 a (clear_flag UV_HANDLE_ACTIVE h) c timeout repeat Hi1) as (hp & E & Hi');
      [apply lookup_insert_eq | done | by flags | by flags | done | done |].
    rewrite with_without_timer in Hi'. exists hp. revert E Hi'. cbv zeta. unfold s1. lsimpl. rewrite insert_insert_eq.
    fold h' s1. intros E Hi'. split; [| done].
    assert (has_flag UV_HANDLE_CLOSED h = false) as Hcd.
    { destruct (has_flag UV_HANDLE_CLOSED h) eqn:Ec; [| done].
      pose proof (ok_closed _ (Inv_handle_ok _ _ _ _ Hi Hh) Ec). congruence. }
    unfold uv_timer_start in E |- *. hrun Hh.
    rewrite (prog_bind_done _ _ _ _ _ (get_handle_run s1 a _ (lookup_insert_eq _ _ _))) in E.
    rewrite uv__is_closing_or in E |- *. rewrite Hcl, Hcd, Ha. flags. rewrite Hcl, Hcd in E. cbn [orb] in E |- *.
    rewrite bool_decide_eq_false_2 in E |- * by done.
    rewrite (prog_bind_done _ _ s tt s1) by (by rewrite (prog_bind_done _ _ _ _ _ E1)).
    rewrite (prog_bind_done _ _ s1 tt s1) in E by done. exact E.
  - destruct (uv_timer_start_inactive G s a h c timeout repeat Hi Hh Ht Hcl Ha Hto Hre) as (hp & E & Hi').
    unfold h'. rewrite clear_flag_same by done. by exists hp.
Qed.

Lemma uv_timer_start_einval s a h c timeout repeat :
  l_handles s !! a = Some h -> uv__is_closing h = true \/ c = None ->
  uv_timer_start a c timeout repeat s = (Done UV_EINVAL, s).
Proof.
  intros Hh Hor. unfold uv_timer_start. hrun Hh. destruct Hor as [-> | ->]; [done |].
  by rewrite bool_decide_eq_true_2, orb_true_r.
Qed.

Lemma uv_timer_again_einval s a h :
  l_handles s !! a = Some h -> h_cb h = None -> uv_timer_again a s = (Done UV_EINVAL, s).
Proof. intros Hh Hc. unfold uv_timer_again. hrun Hh. by rewrite Hc. Qed.

Lemma uv_timer_again_once s a h c :
  l_handles s !! a = Some h -> h_cb h = Some c -> h_repeat h = 0 -> uv_timer_again a s = (Done 0, s).
Proof. intros Hh Hc Hr. unfold uv_timer_again. hrun Hh. by rewrite Hc, Hr. Qed.

(** A repeating timer starts again; on one that is closing nothing happens. *)
Lemma uv_timer_again_closing G s a h c :
  Inv G s -> l_handles s !! a = Some h -> h_cb h = Some c -> has_flag UV_HANDLE_CLOSING h = true ->
  uv_timer_again a s = (Done 0, s).
Proof.
  intros Hi Hh Hc Hcl. unfold uv_timer_again. hrun Hh. rewrite Hc. cbn [negb].
  rewrite bool_decide_eq_false_2 by done. destruct (h_repeat h =? 0); [done |]. cbn [negb].
  destruct (ok_closing _ (Inv_handle_ok _ _ _ _ Hi Hh) Hcl) as [Ha _].
  rewrite (prog_bind_done _ _ _ _ _ (uv_timer_stop_inactive s a h Hh Ha)).
  assert (uv__is_closing h = true) as Hcg by (by rewrite uv__is_closing_or, Hcl).
  by rewrite (prog_bind_done _ _ _ _ _ (uv_timer_start_einval s a h _ _ _ Hh (or_introl Hcg))).
Qed.

Lemma uv_timer_again_repeat G s a h c :
  Inv G s -> l_handles s !! a = Some h -> h_type h = UV_TIMER -> has_flag UV_HANDLE_CLOSING h = false ->
  h_cb h = Some c -> h_repeat h <> 0 ->
  let h' := started (clear_flag UV_HANDLE_ACTIVE h) (Some c) (clamp_timeout (l_time s) (h_repeat h)) (h_repeat h)
              (l_timer_counter s) in
  exists hp, let s' := with_hs (<[a := h']> (l_handles s))
      (set_timer_counter (u64 (l_timer_counter s + 1)) (set_timer_heap hp s)) in
    uv_timer_again a s = (Done 0, s') /\ Inv (with_timer a G) s'.
Proof.
  intros Hi Hh Ht Hcl Hc Hr h'.
  destruct (uv_timer_stop_spec G s a h Hi Hh Ht) as (hp1 & E1 & Hi1). set (s1 := with_hs _ _) in E1, Hi1.
  destruct (ok_timer _ (Inv_handle_ok _ _ _ _ Hi Hh) Ht) as [Hrep _].
  destruct (uv_timer_start_inactive _ s1 a (clear_flag UV_HANDLE_ACTIVE h) c (h_repeat h) (h_repeat h) Hi1)
    as (hp & E & Hi'); [apply lookup_insert_eq | done | by flags | by flags | done | done |].
  rewrite with_without_timer in Hi'. exists hp. revert E Hi'. cbv zeta. unfold s1. lsimpl. rewrite insert_insert_eq.
  fold h' s1. intros E Hi'. split; [| done]. unfold uv_timer_again. hrun Hh. rewrite Hc.
  rewrite bool_decide_eq_false_2 by done. destruct (Z.eqb_spec (h_repeat h) 0); [done |]. cbn [negb].
  by rewrite (prog_bind_done _ _ _ _ _ E1), (prog_bind_done _ _ _ _ _ E).
Qed.

Lemma uv_timer_set_repeat_spec G s a h repeat :
  Inv G s -> l_handles s !! a = Some h -> h_type h = UV_TIMER -> 0 <= repeat < 2 ^ 64 ->
  let s' := with_hs (<[a := with_repeat repeat h]> (l_handles s)) s in
  uv_timer_set_repeat a repeat s = (Done tt, s') /\ Inv G s'.
Proof.
  intros Hi Hh Ht Hr s'. pose proof (Inv_handle_ok _ _ _ _ Hi Hh) as Hok. split.
  - unfold uv_timer_set_repeat. rewrite (update_handle_run _ _ _ _ Hh). unfold s'.
    rewrite with_hs_same; [done |]. rewrite (count_same _ _ h) by done. apply Hi.
  - apply (Inv_update G s a h); try done. apply (handle_ok_flags h); try done.
    + apply Hok.
    + intros _. split; [done |]. by destruct (ok_timer _ Hok Ht).
Qed.

(** ** References *)

Lemma uv_ref_spec G s a h :
  Inv G s -> l_handles s !! a = Some h ->
  let s' := with_hs (<[a := set_flag UV_HANDLE_REF h]> (l_handles s)) s in
  uv_ref a s = (Done tt, s') /\ Inv G s'.
Proof.
  intros Hi Hh s'. pose proof (Inv_handle_ok _ _ _ _ Hi Hh) as Hok. split.
  - apply handle_ref_run; [by eapply Inv_counts | done..].
  - apply (Inv_update G s a h); try done; flags; try done.
    apply (handle_ok_flags h); flags; try done; [apply Hok | intros Ht; by apply (ok_timer _ Hok)].
Qed.

Lemma uv_unref_spec G s a h :
  Inv G s -> l_handles s !! a = Some h ->
  let s' := with_hs (<[a := clear_flag UV_HANDLE_REF h]> (l_handles s)) s in
  uv_unref a s = (Done tt, s') /\ Inv G s'.
Proof.
  intros Hi Hh s'. pose proof (Inv_handle_ok _ _ _ _ Hi Hh) as Hok. split.
  - apply handle_unref_run; [by eapply Inv_counts | done..].
  - apply (Inv_update G s a h); try done; flags; try done.
    apply (handle_ok_flags h); flags; try done; [apply Hok | intros Ht; by apply (ok_timer _ Hok)].
Qed.

(** ** Queues *)

(** The two parts of a list without duplicates. *)
Lemma parts_disjoint (l1 : list addr) (o : option (list addr)) l2 x :
  NoDup (l1 ++ default [] o) -> o = Some l2 -> x ∈ l1 -> x ∈ l2 -> False.
Proof. intros (_ & Hd & _)%NoDup_app ->. apply Hd. Qed.

Lemma parts_local (l1 : list addr) (o : option (list addr)) l2 x :
  x ∉ l1 ++ default [] o -> o = Some l2 -> x ∉ l2.
Proof. intros Hx ->. set_solver. Qed.

Ltac grep := cbn [g_timers g_main g_local g_hq g_lhq g_pending g_lpending g_closing g_finishing
  to_timers to_main to_local to_hq to_lhq to_pending to_lpending to_closing to_finishing].

Lemma hq_insert G q a :
  queues_rep G q -> NoDup (queued G) -> a ∉ queued G ->
  exists q', QUEUE_INSERT_TAIL HandleQueue (HandleQueueOf a) q = (Done tt, q') /\
             queues_rep (to_hq (g_hq G ++ [a]) G) q'.
Proof.
  intros [Rm Rl Rh Rlh Rp Rlp] Hnd Ha. assert (a ∉ g_hq G) as Ham by (unfold queued in Ha; set_solver).
  destruct (ring_insert_tail HandleQueue (HandleQueueOf a) _ _ Rh) as (q' & E & Hr & Hs).
  { intros Hin. nodes. }
  exists q'. split; [done |].
  split; grep; [| | by rewrite fmap_app | | |]; intros; (eapply (ring_frame _ _ _ _ _ Hs); [disj | by auto]).
  - by eapply (parts_local _ _ _ _ Ha).
  - by eapply (parts_disjoint _ _ _ _ Hnd).
Qed.

(** No handle is in the queues of two types. *)
Definition one_type G : Prop := forall w w' x, x ∈ watched G w -> x ∈ watched G w' -> w = w'.

Lemma Inv_one_type G s : Inv G s -> one_type G.
Proof.
  intros Hi w w' x Hx Hx'. pose proof (inv_handles _ _ Hi x) as Hin.
  destruct (l_handles s !! x) as [h |]; [| by destruct Hin as (_ & Hw & _); destruct (Hw w)].
  destruct Hin as (_ & _ & Hw & _). apply Hw in Hx as [Hx _], Hx' as [Hx' _]. rewrite Hx in Hx'. by destruct w, w'.
Qed.

Lemma watched_main G w x : x ∈ g_main G w -> x ∈ watched G w.
Proof. unfold watched. set_solver. Qed.
Lemma watched_local G w l x : g_local G w = Some l -> x ∈ l -> x ∈ watched G w.
Proof. unfold watched. intros ->. set_solver. Qed.
#[local] Hint Resolve watched_main watched_local : core.

Lemma main_local_disjoint G w w' l x :
  (forall w, NoDup (watched G w)) -> one_type G -> x ∈ g_main G w -> g_local G w' = Some l -> x ∈ l -> False.
Proof.
  intros Hnd Hone Hx Hl Hxl. assert (w = w') as -> by eauto. by eapply (parts_disjoint _ _ _ _ (Hnd w')).
Qed.

Lemma main_insert G q w a :
  queues_rep G q -> (forall w, NoDup (watched G w)) -> one_type G -> (forall w', a ∉ watched G w') ->
  exists q', QUEUE_INSERT_HEAD (Handles w) (QueueOf a) q = (Done tt, q') /\
             queues_rep (to_main (upd_w w (a :: g_main G w) (g_main G)) G) q'.
Proof.
  intros [Rm Rl Rh Rlh Rp Rlp] Hnd Hone Ha.
  destruct (ring_insert_head (Handles w) (QueueOf a) _ _ (Rm w)) as (q' & E & Hr & Hs).
  { intros Hin. nodes. by apply (Ha w), watched_main. }
  exists q'. split; [done |].
  split; grep; [intros w'; unfold upd_w; destruct (decide (w' = w)) as [-> | Hw]; [done |] | ..]; intros;
    (eapply (ring_frame _ _ _ _ _ Hs); [disj | by auto]).
  - by eapply (Ha w'); eauto.
  - apply Hw. eauto.
  - by eapply Ha; eauto.
  - by eapply (main_local_disjoint G w).
Qed.

Lemma main_insert_tail G q w a :
  queues_rep G q -> (forall w, NoDup (watched G w)) -> one_type G -> (forall w', a ∉ watched G w') ->
  exists q', QUEUE_INSERT_TAIL (Handles w) (QueueOf a) q = (Done tt, q') /\
             queues_rep (to_main (upd_w w (g_main G w ++ [a]) (g_main G)) G) q'.
Proof.
  intros [Rm Rl Rh Rlh Rp Rlp] Hnd Hone Ha.
  destruct (ring_insert_tail (Handles w) (QueueOf a) _ _ (Rm w)) as (q' & E & Hr & Hs).
  { intros Hin. nodes. by apply (Ha w), watched_main. }
  exists q'. split; [done |].
  split; grep; [intros w'; unfold upd_w; destruct (decide (w' = w)) as [-> | Hw]; [by rewrite fmap_app |] | ..]; intros;
    (eapply (ring_frame _ _ _ _ _ Hs); [disj | by auto]).
  - by eapply (Ha w'); eauto.
  - apply Hw. eauto.
  - by eapply Ha; eauto.
  - by eapply (main_local_disjoint G w).
Qed.

(** [uv__run_*] takes the queue over. *)
Definition moved (w : watcher) G : contents :=
  to_main (upd_w w [] (g_main G)) (to_local (upd_w w (Some (g_main G w)) (g_local G)) G).

Lemma main_move G q w :
  queues_rep G q -> (forall w, NoDup (watched G w)) -> one_type G -> g_local G w = None ->
  exists q', QUEUE_MOVE (Handles w) (LocalHandles w) q = (Done tt, q') /\ queues_rep (moved w G) q'.
Proof.
  intros [Rm Rl Rh Rlh Rp Rlp] Hnd Hone Hno.
  destruct (ring_move (Handles w) _ (LocalHandles w) _ (Rm w)) as (q' & E & Hr & Hr' & Hs).
  { intros Hin. nodes. }
  exists q'. split; [done |].
  split; unfold moved; grep; unfold upd_w; intros; try case_decide; subst; try done; try (by simplify_eq);
    (eapply (ring_frame _ _ _ _ _ Hs); [disj | by auto]).
  - eauto.
  - by eapply (main_local_disjoint G w).
Qed.

Definition rm (a : addr) (l : list addr) : list addr := filter (fun b => b <> a) l.

Lemma rm_notin a l : a ∉ l -> rm a l = l.
Proof.
  unfold rm. induction l as [| b l IH]; [done |]. intros [Hb Ha]%not_elem_of_cons.
  by rewrite filter_cons_True, IH by auto.
Qed.

Lemma rm_mid a l1 l2 : NoDup (l1 ++ a :: l2) -> rm a (l1 ++ a :: l2) = l1 ++ l2.
Proof.
  intros Hnd. apply NoDup_mid in Hnd as [Ha _]. apply not_elem_of_app in Ha as [H1 H2].
  unfold rm. rewrite filter_app, filter_cons_False by auto. fold (rm a l1) (rm a l2). by rewrite !rm_notin.
Qed.

Lemma elem_of_rm a b l : b ∈ rm a l <-> b ∈ l /\ b <> a.
Proof. unfold rm. rewrite list_elem_of_filter. tauto. Qed.

Lemma rm_default a (o : option (list addr)) : default [] (rm a <$> o) = rm a (default [] o).
Proof. by destruct o. Qed.

Lemma NoDup_rm_parts a (l : list addr) (o : option (list addr)) :
  NoDup (l ++ default [] o) -> NoDup (rm a l ++ default [] (rm a <$> o)).
Proof. rewrite rm_default. unfold rm. rewrite <- filter_app. apply NoDup_filter. Qed.

(** Removal of a member of a ring, with the ring of the rest. *)
Lemma ring_rm (f : addr -> node) hd l q a :
  (forall x y, f x = f y -> x = y) -> ring hd (f <$> l) q -> a ∈ l -> NoDup l ->
  exists q', QUEUE_REMOVE (f a) q = (Done tt, q') /\ ring hd (f <$> rm a l) q' /\
             same_off (hd :: (f <$> rm a l)) q q'.
Proof.
  intros Hf Hr Ha Hnd. apply list_elem_of_split in Ha as (l1 & l2 & ->). rewrite rm_mid by done.
  rewrite fmap_app, fmap_cons in Hr. rewrite fmap_app. by apply ring_remove.
Qed.

Definition drop_watcher (w : watcher) (a : addr) G : contents :=
  to_main (upd_w w (rm a (g_main G w)) (g_main G)) (to_local (upd_w w (rm a <$> g_local G w) (g_local G)) G).

Lemma watched_drop w a G w' :
  watched (drop_watcher w a G) w' = if decide (w' = w) then rm a (g_main G w) ++ default [] (rm a <$> g_local G w)
                                    else watched G w'.
Proof. unfold watched, drop_watcher. grep. unfold upd_w. by destruct (decide (w' = w)). Qed.

Lemma watcher_remove G q w a :
  queues_rep G q -> (forall w, NoDup (watched G w)) -> one_type G -> a ∈ watched G w ->
  exists q', QUEUE_REMOVE (QueueOf a) q = (Done tt, q') /\ queues_rep (drop_watcher w a G) q'.
Proof.
  intros [Rm Rl Rh Rlh Rp Rlp] Hnd Hone Ha.
  assert (forall x y, QueueOf x = QueueOf y -> x = y) as Hinj by (by intros ? ? [= ->]).
  pose proof (Hnd w) as Hndw. unfold watched in Ha, Hndw. apply NoDup_app in Hndw as (Hndm & Hdis & Hndl).
  apply elem_of_app in Ha as [Ha | Ha].
  - destruct (ring_rm QueueOf _ _ _ a Hinj (Rm w) Ha Hndm) as (q' & E & Hr & Hs). exists q'. split; [done |].
    assert (forall w' l x, g_local G w' = Some l -> x ∈ l -> x ∈ rm a (g_main G w) -> False) as Hml.
    { intros w' l x Hl Hx [Hxm _]%elem_of_rm. by eapply (main_local_disjoint G w w'). }
    split; unfold drop_watcher; grep; unfold upd_w; intros; try case_decide; subst; [done | ..].
    2: destruct (g_local G w) as [l0 |] eqn:El; [| done]; simplify_option_eq;
       rewrite rm_notin by (by apply Hdis).
    all: eapply (ring_frame _ _ _ _ _ Hs); [disj | by eauto].
    + match goal with Hx : _ ∈ rm _ _ |- _ => apply elem_of_rm in Hx as [Hx _] end. eauto.
    + by eapply Hml.
    + by eapply Hml.
  - destruct (g_local G w) as [l0 |] eqn:El; [| by apply not_elem_of_nil in Ha]. unfold id in Ha, Hdis, Hndl.
    destruct (ring_rm QueueOf _ _ _ a Hinj (Rl w l0 El) Ha Hndl) as (q' & E & Hr & Hs). exists q'. split; [done |].
    assert (a ∉ g_main G w) as Ham by (intros Hin; by apply (Hdis a)).
    assert (forall w' x, x ∈ g_main G w' -> x ∈ rm a l0 -> False) as Hml.
    { intros w' x Hx [Hxl _]%elem_of_rm. by eapply (main_local_disjoint G w' w). }
    split; unfold drop_watcher; grep; unfold upd_w; intros; try case_decide; subst.
    3: by simplify_option_eq.
    1: rewrite rm_notin by done.
    all: eapply (ring_frame _ _ _ _ _ Hs); [disj | by eauto].
    + by eapply Hml.
    + by eapply Hml.
    + match goal with Hx : _ ∈ rm _ _ |- _ => apply elem_of_rm in Hx as [Hx _] end.
      match goal with Hn : _ <> _ |- _ => apply Hn end. eauto.
Qed.

Definition drop_queued (a : addr) G : contents := to_hq (rm a (g_hq G)) (to_lhq (rm a <$> g_lhq G) G).

Lemma queued_remove G q a :
  queues_rep G q -> NoDup (queued G) -> a ∈ queued G ->
  exists q', QUEUE_REMOVE (HandleQueueOf a) q = (Done tt, q') /\ queues_rep (drop_queued a G) q'.
Proof.
  intros [Rm Rl Rh Rlh Rp Rlp] Hnd Ha.
  assert (forall x y, HandleQueueOf x = HandleQueueOf y -> x = y) as Hinj by (by intros ? ? [= ->]).
  pose proof Hnd as Hnd'. unfold queued in Ha, Hnd'. apply NoDup_app in Hnd' as (Hndm & Hdis & Hndl).
  apply elem_of_app in Ha as [Ha | Ha].
  - destruct (ring_rm HandleQueueOf _ _ _ a Hinj Rh Ha Hndm) as (q' & E & Hr & Hs). exists q'. split; [done |].
    split; unfold drop_queued; grep; intros; [| | done | ..].
    3: destruct (g_lhq G) as [l0 |] eqn:El; [| done]; simplify_option_eq; rewrite rm_notin by (by apply Hdis).
    all: eapply (ring_frame _ _ _ _ _ Hs); [disj | by eauto].
    match goal with Hx : _ ∈ rm _ _ |- _ => apply elem_of_rm in Hx as [Hx _] end. by eapply Hdis.
  - destruct (g_lhq G) as [l0 |] eqn:El; [| by apply not_elem_of_nil in Ha]. unfold id in Ha, Hdis, Hndl.
    destruct (ring_rm HandleQueueOf _ _ _ a Hinj (Rlh l0 eq_refl) Ha Hndl) as (q' & E & Hr & Hs). exists q'.
    split; [done |]. assert (a ∉ g_hq G) as Ham by (intros Hin; by apply (Hdis a)).
    split; unfold drop_queued; grep; intros; rewrite ?El in *.
    4: by simplify_option_eq.
    3: rewrite rm_notin by done.
    all: eapply (ring_frame _ _ _ _ _ Hs); [disj | by eauto].
    match goal with Hx : _ ∈ rm _ _ |- _ => apply elem_of_rm in Hx as [Hx _] end. by eapply Hdis.
Qed.

(** ** Initialisation *)

(** A handle that was never initialised, or that is closed. *)
Definition unused s (a : addr) : Prop :=
  match l_handles s !! a with None => True | Some h => has_flag UV_HANDLE_CLOSED h = true end.

Lemma unused_out G s a : Inv G s -> unused s a ->
  (a ∉ g_timers G) /\ (forall w, a ∉ watched G w) /\ (a ∉ queued G) /\ (a ∉ closings G) /\
  counted_at (l_handles s !! a) = 0%nat.
Proof.
  intros Hi Hu. unfold unused in Hu. pose proof (inv_handles _ _ Hi a) as Ha.
  destruct (l_handles s !! a) as [h |]; [| by destruct Ha as (? & ? & ? & ?)].
  destruct Ha as (Hok & Ht & Hw & Hq & Hc). destruct (ok_closing _ Hok (ok_closed _ Hok Hu)) as [Hact _].
  unfold counted_at, counted. rewrite Ht, Hq, Hc, Hu, Hact. setoid_rewrite Hw. rewrite Hact. naive_solver.
Qed.

Definition initialised (t : uv_handle_type) (h : uv_handle_t) : uv_handle_t :=
  with_next_closing None (with_flags UV_HANDLE_REF (with_type t h)).

Definition with_handle (a : addr) G : contents := to_hq (g_hq G ++ [a]) G.

Lemma handle_init_run G s a t :
  Inv G s -> unused s a ->
  exists q', queues_rep (with_handle a G) q' /\
    uv__handle_init a t s
    = (Done tt, set_handles (<[a := initialised t (raw_handle (l_handles s !! a))]> (l_handles s)) (set_queues q' s)).
Proof.
  intros Hi Hu. destruct (unused_out G s a Hi Hu) as (_ & _ & Hnq & _).
  destruct (hq_insert G (l_queues s) a (inv_queues _ _ Hi) (nodup_queued _ (inv_ok _ _ Hi)) Hnq) as (q' & E & Hq').
  exists q'. split; [done |].
  unfold uv__handle_init. set (h0 := with_flags UV_HANDLE_REF (with_type t (raw_handle (l_handles s !! a)))).
  rewrite getS_bind. unfold put_handle. fold h0. set (s1 := set_handles (<[a := h0]> (l_handles s)) s).
  rewrite (prog_bind_done _ _ s tt s1) by done.
  rewrite (prog_bind_done _ _ _ _ _ (on_queues_run _ s1 _ _ E)).
  exact (update_inserted (set_queues q' s) (l_handles s) a h0 (with_next_closing None)).
Qed.

(** The invariant once the members of the type are set. *)
Lemma handle_init_Inv G s a q' h' :
  Inv G s -> unused s a -> Z.of_nat (size (l_handles s)) + 1 < max_handles ->
  queues_rep (with_handle a G) q' -> h_flags h' = UV_HANDLE_REF ->
  (h_type h' = UV_TIMER -> h_repeat h' = 0) ->
  set_handles (<[a := h']> (l_handles s)) (set_queues q' s) = with_hs (<[a := h']> (l_handles s)) (set_queues q' s) /\
  Inv (with_handle a G) (with_hs (<[a := h']> (l_handles s)) (set_queues q' s)).
Proof.
  intros Hi Hu Hsz Hq' Ef Ht. destruct (unused_out G s a Hi Hu) as (Hnt & Hnw & Hnq & Hnc & Hcnt).
  assert (uv__is_active h' = false /\ has_flag UV_HANDLE_CLOSING h' = false /\ has_flag UV_HANDLE_CLOSED h' = false)
    as (Ea & Ec & Ed) by (unfold uv__is_active, has_flag; by rewrite Ef).
  assert (count (<[a := h']> (l_handles s)) = count (l_handles s)) as Hcount.
  { pose proof (count_insert (l_handles s) a h') as Hc. rewrite Hcnt in Hc.
    unfold counted_at, counted in Hc. rewrite Ea in Hc. cbn [andb] in Hc. lia. }
  split; [rewrite with_hs_same; [done |]; rewrite Hcount; apply Hi |].
  assert (forall b, b ∈ queued (with_handle a G) <-> b = a \/ b ∈ queued G) as Hqd
      by (intros b; unfold queued, with_handle; grep; set_solver).
  apply (Inv_step G _ s _ a h'); lsimpl; try done; try apply Hi.
  - intros b Hb. split_and!; try done. rewrite Hqd. tauto.
  - pose proof (inv_ok _ _ Hi) as Hok. split; try apply Hok. unfold queued, with_handle. grep.
      rewrite <- app_assoc. cbn [app]. apply NoDup_mid. split; [done | apply Hok].
  - apply heap_update; [done | apply Hi].
  - apply closing_chain_update; [| apply Hi]. intros h0 Hin. destruct Hnc. unfold closings. set_solver.
  - apply closing_chain_update; [| apply Hi]. intros h0 Hin. destruct Hnc. unfold closings. set_solver.
  - split; [split; rewrite ?Ea, ?Ec, ?Ed; try done |].
      { intros Et. split; [by rewrite Ht | done]. }
      rewrite Ea, Ec, Ed, Hqd. split_and!; try tauto; try (split; [done | by intros [??]]).
      intros w. split; [intros Hin; by destruct (Hnw w) | by intros [??]].
  - rewrite map_size_insert. destruct (l_handles s !! a); unfold id; lia.
Qed.

Lemma uv_timer_init_spec G s a :
  Inv G s -> unused s a -> Z.of_nat (size (l_handles s)) + 1 < max_handles ->
  let h' := with_repeat 0 (with_cb None (initialised UV_TIMER (raw_handle (l_handles s !! a)))) in
  exists q', let s' := with_hs (<[a := h']> (l_handles s)) (set_queues q' s) in
    uv_timer_init a s = (Done 0, s') /\ Inv (with_handle a G) s'.
Proof.
  intros Hi Hu Hsz h'. destruct (handle_init_run G s a UV_TIMER Hi Hu) as (q' & Hq' & E).
  destruct (handle_init_Inv G s a q' h' Hi Hu Hsz Hq') as [Es Hi']; [done.. |].
  exists q'. split; [| done]. unfold uv_timer_init.
  rewrite (prog_bind_done _ _ _ _ _ E), !(prog_bind_done _ _ _ _ _ (update_inserted _ _ _ _ _)).
  fold h'. by rewrite Es.
Qed.

Lemma uv_watcher_init_spec G s w a :
  Inv G s -> unused s a -> Z.of_nat (size (l_handles s)) + 1 < max_handles ->
  let h' := with_cb None (initialised (watcher_type w) (raw_handle (l_handles s !! a))) in
  exists q', let s' := with_hs (<[a := h']> (l_handles s)) (set_queues q' s) in
    uv_watcher_init w a s = (Done 0, s') /\ Inv (with_handle a G) s'.
Proof.
  intros Hi Hu Hsz h'. destruct (handle_init_run G s a (watcher_type w) Hi Hu) as (q' & Hq' & E).
  destruct (handle_init_Inv G s a q' h' Hi Hu Hsz Hq') as [Es Hi']; [done | by destruct w |].
  exists q'. split; [| done]. unfold uv_watcher_init.
  rewrite (prog_bind_done _ _ _ _ _ E), !(prog_bind_done _ _ _ _ _ (update_inserted _ _ _ _ _)).
  fold h'. by rewrite Es.
Qed.

(** ** Loop watchers *)

Lemma watcher_loop_type h w : h_type h = watcher_type w -> is_loop_type (h_type h) = true /\ h_type h <> UV_TIMER.
Proof. by destruct w; intros ->. Qed.

Lemma watcher_type_inj w w' : watcher_type w = watcher_type w' -> w = w'.
Proof. by destruct w, w'. Qed.

Definition with_watcher (w : watcher) (a : addr) G : contents := to_main (upd_w w (a :: g_main G w) (g_main G)) G.

Lemma watched_with w a G w' b :
  b ∈ watched (with_watcher w a G) w' <-> (w' = w /\ b = a) \/ b ∈ watched G w'.
Proof.
  unfold watched, with_watcher. grep. unfold upd_w. destruct (decide (w' = w)) as [-> |]; set_solver.
Qed.

Lemma uv_watcher_start_einval s w a h :
  l_handles s !! a = Some h -> uv__is_active h = false -> uv_watcher_start w a None s = (Done UV_EINVAL, s).
Proof. intros Hh Ha. unfold uv_watcher_start. hrun Hh. rewrite Ha. by rewrite bool_decide_eq_true_2. Qed.

Lemma uv_watcher_start_active s w a h c :
  l_handles s !! a = Some h -> uv__is_active h = true -> uv_watcher_start w a c s = (Done 0, s).
Proof. intros Hh Ha. unfold uv_watcher_start. hrun Hh. by rewrite Ha. Qed.

Lemma uv_watcher_start_spec G s w a h c :
  Inv G s -> l_handles s !! a = Some h -> h_type h = watcher_type w ->
  has_flag UV_HANDLE_CLOSING h = false -> uv__is_active h = false ->
  let h' := set_flag UV_HANDLE_ACTIVE (with_cb (Some c) h) in
  exists q', let s' := with_hs (<[a := h']> (l_handles s)) (set_queues q' s) in
    uv_watcher_start w a (Some c) s = (Done 0, s') /\ Inv (with_watcher w a G) s'.
Proof.
  intros Hi Hh Ht Hcl Ha h'. destruct (Inv_handle _ _ _ _ Hi Hh) as (Hok & Hin & Hw & Hq & Hc).
  assert (forall w', a ∉ watched G w') as Hnw by (intros w'; rewrite Hw; intros [_ ?]; congruence).
  destruct (watcher_loop_type h w Ht) as [Hlt Hnt]. pose proof (inv_ok _ _ Hi) as Hgok.
  destruct (main_insert G (l_queues s) w a (inv_queues _ _ Hi) (nodup_watched _ Hgok) (Inv_one_type _ _ Hi) Hnw)
    as (q' & E & Hq'). exists q'. split.
  - unfold uv_watcher_start. hrun Hh. rewrite Ha, bool_decide_eq_false_2 by done.
    rewrite (prog_bind_done _ _ _ _ _ (on_queues_run _ s _ _ E)).
    rewrite (prog_bind_done _ _ _ _ _ (update_handle_run (set_queues q' s) a h (with_cb (Some c)) Hh)).
    set (s1 := set_handles _ _). assert (counts s1) as Hcnt.
    { split; cbn [s1 set_handles l_handles l_active_handles set_queues].
      - rewrite (count_same _ _ h) by done. apply Hi.
      - rewrite (size_insert_old _ _ _ _ Hh). apply Hi. }
    rewrite (prog_bind_done _ _ _ _ _ (handle_start_run s1 a (with_cb (Some c) h) Hcnt (lookup_insert_eq _ _ _) Ha)).
    unfold with_hs. cbn [s1 set_handles l_handles set_queues]. by rewrite insert_insert_eq.
  - assert (has_flag UV_HANDLE_CLOSING h' = false /\ has_flag UV_HANDLE_CLOSED h' = has_flag UV_HANDLE_CLOSED h /\
      uv__is_active h' = true) as (E1 & E2 & E3) by (unfold h'; flags; done).
    apply (Inv_step G _ s _ a h'); lsimpl; try done; try apply Hi.
    + intros b Hb. split_and!; try done. intros w'. rewrite watched_with. naive_solver.
    + split; try apply Hgok. intros w'. unfold watched, with_watcher. grep. unfold upd_w.
      destruct (decide (w' = w)) as [-> |]; [| apply Hgok]. apply NoDup_cons. split; [apply Hnw | apply Hgok].
    + apply heap_update; [| apply Hi]. intros Hin'. apply Hin in Hin' as [? _]. done.
    + apply closing_chain_update; [| apply Hi]. intros h0 _ Hh0. by simplify_eq.
    + apply closing_chain_update; [| apply Hi]. intros h0 _ Hh0. by simplify_eq.
    + split.
      { split; rewrite ?E1, ?E2, ?E3; [| done | done | intros Ht'; by destruct Hnt].
        intros Hcd. apply (ok_closed _ Hok) in Hcd. congruence. }
      rewrite E1, E2, E3. split_and!.
      * rewrite Hin. split; intros [? _]; by destruct Hnt.
      * intros w'. rewrite watched_with, Hw, Ha. split.
        -- intros [[-> _] | [_ ?]]; [done | congruence].
        -- intros [Hw' _]. left. split; [| done]. apply watcher_type_inj. by rewrite <- Ht, <- Hw'.
      * done.
      * by rewrite Hcl in Hc.
    + rewrite (size_insert_old _ _ _ _ Hh). apply Hi.
Qed.

Lemma uv_watcher_stop_inactive s a h :
  l_handles s !! a = Some h -> uv__is_active h = false -> uv_watcher_stop a s = (Done 0, s).
Proof. intros Hh Ha. unfold uv_watcher_stop. hrun Hh. by rewrite Ha. Qed.

Lemma elem_of_drop w a G w' b :
  b ∈ watched (drop_watcher w a G) w' <-> b ∈ watched G w' /\ (w' = w -> b <> a).
Proof.
  rewrite watched_drop. destruct (decide (w' = w)) as [-> |]; [| naive_solver].
  rewrite rm_default, elem_of_app, !elem_of_rm. unfold watched. rewrite elem_of_app. naive_solver.
Qed.

Lemma uv_watcher_stop_active G s w a h :
  Inv G s -> l_handles s !! a = Some h -> h_type h = watcher_type w -> uv__is_active h = true ->
  exists q', let s' := with_hs (<[a := clear_flag UV_HANDLE_ACTIVE h]> (l_handles s)) (set_queues q' s) in
    uv_watcher_stop a s = (Done 0, s') /\ Inv (drop_watcher w a G) s'.
Proof.
  intros Hi Hh Ht Ha. destruct (Inv_handle _ _ _ _ Hi Hh) as (Hok & Hin & Hw & Hq & Hc).
  destruct (watcher_loop_type h w Ht) as [Hlt Hnt]. pose proof (inv_ok _ _ Hi) as Hgok.
  assert (a ∈ watched G w) as Haw by (by apply Hw).
  destruct (watcher_remove G (l_queues s) w a (inv_queues _ _ Hi) (nodup_watched _ Hgok) (Inv_one_type _ _ Hi) Haw)
    as (q' & E & Hq'). exists q'. split.
  - unfold uv_watcher_stop. hrun Hh. rewrite Ha. cbn [negb].
    rewrite (prog_bind_done _ _ _ _ _ (on_queues_run _ s _ _ E)).
    by rewrite (prog_bind_done _ _ _ _ _ (handle_stop_run (set_queues q' s) a h (Inv_counts _ _ Hi) Hh Ha)).
  - apply (Inv_step G _ s _ a (clear_flag UV_HANDLE_ACTIVE h)); lsimpl; try done; try apply Hi.
    + intros b Hb. split_and!; try done. intros w'. rewrite elem_of_drop. naive_solver.
    + split; try apply Hgok. intros w'. rewrite watched_drop. destruct (decide (w' = w)) as [-> |]; [| apply Hgok].
      apply NoDup_rm_parts, Hgok.
    + apply heap_update; [| apply Hi]. intros Hin'. apply Hin in Hin' as [? _]. done.
    + apply closing_chain_update; [| apply Hi]. intros h0 _ Hh0. by simplify_eq.
    + apply closing_chain_update; [| apply Hi]. intros h0 _ Hh0. by simplify_eq.
    + assert (handle_ok (clear_flag UV_HANDLE_ACTIVE h)) as Hok'.
      { destruct Hok as [H1 H2 H3 H4]. split; flags; [done | | done |].
        - intros Hcl. by destruct (H2 Hcl).
        - intros Ht'. by destruct Hnt. }
      split; [done |]. flags. split_and!; [| | done..].
      * rewrite Hin. split; intros [? _]; by destruct Hnt.
      * intros w'. rewrite elem_of_drop, Hw. split; [| by intros [_ ?]]. intros [[Hw' _] Hne].
        destruct Hne; [| done]. apply watcher_type_inj. by rewrite <- Ht, <- Hw'.
    + rewrite (size_insert_old _ _ _ _ Hh). apply Hi.
Qed.

(** ** Closing *)

(** [a] leaves the heap and the queues of the watchers. *)
Definition drop_all (a : addr) G : contents :=
  to_timers (g_timers G ∖ {[a]}) (to_main (fun w => rm a (g_main G w)) (to_local (fun w => rm a <$> g_local G w) G)).

Lemma elem_of_drop_all a G w b : b ∈ watched (drop_all a G) w <-> b ∈ watched G w /\ b <> a.
Proof.
  unfold watched, drop_all. grep. rewrite rm_default, !elem_of_app, !elem_of_rm. tauto.
Qed.

Lemma queues_rep_ext G G' q :
  (forall w, g_main G' w = g_main G w) -> (forall w, g_local G' w = g_local G w) ->
  g_hq G' = g_hq G -> g_lhq G' = g_lhq G -> g_pending G' = g_pending G -> g_lpending G' = g_lpending G ->
  queues_rep G q -> queues_rep G' q.
Proof.
  intros Em El Eh Elh Ep Elp [Rm Rl Rh Rlh Rp Rlp].
  split; intros *; rewrite ?Em, ?El, ?Eh, ?Elh, ?Ep, ?Elp; auto.
Qed.

Lemma drop_all_notin G q a : (forall w, a ∉ watched G w) -> queues_rep G q -> queues_rep (drop_all a G) q.
Proof.
  intros Ha. apply queues_rep_ext; try done; intros w; unfold drop_all; grep.
  - apply rm_notin. intros Hin. by apply (Ha w), watched_main.
  - destruct (g_local G w) as [l |] eqn:El; [| done]. cbn. f_equal. apply rm_notin.
    intros Hin. by apply (Ha w), (watched_local _ _ l).
Qed.

Lemma drop_all_watcher G q w a :
  (forall w', a ∈ watched G w' -> w' = w) -> queues_rep (drop_watcher w a G) q -> queues_rep (drop_all a G) q.
Proof.
  intros Ha. apply queues_rep_ext; try done; intros w'; unfold drop_all, drop_watcher; grep; unfold upd_w;
    destruct (decide (w' = w)) as [-> | Hw]; try done.
  - apply rm_notin. intros Hin. by apply Hw, Ha, watched_main.
  - destruct (g_local G w') as [l |] eqn:El; [| done]. cbn. f_equal. apply rm_notin.
    intros Hin. by apply Hw, Ha, (watched_local _ _ l).
Qed.

Lemma count_insert_eq hs a h h' : counted h = counted h' -> count (<[a := h]> hs) = count (<[a := h']> hs).
Proof.
  intros Hc. pose proof (count_insert hs a h). pose proof (count_insert hs a h'). unfold counted_at in *. rewrite Hc in *. lia.
Qed.

Section CloseStop.
(** [a] already has the flag when [uv_close] stops it. *)
Context {G s} {a : addr} {h h1 : uv_handle_t} (Hi : Inv G s) (Hh : l_handles s !! a = Some h)
  (Ea : uv__is_active h1 = uv__is_active h) (Ec : counted h1 = counted h)
  (Eto : h_timeout h1 = h_timeout h) (Eid : h_start_id h1 = h_start_id h).
Let s1 := set_handles (<[a := h1]> (l_handles s)) s.

Lemma close_counts : counts s1.
Proof.
  split; cbn [s1 set_handles l_handles l_active_handles].
  - rewrite (count_same _ _ h) by done. apply Hi.
  - rewrite (size_insert_old _ _ _ _ Hh). apply Hi.
Qed.

Lemma close_get : l_handles s1 !! a = Some h1.
Proof. apply lookup_insert_eq. Qed.

Definition stop_result (hp : heap) (q : qmem node) : uv_loop_t W :=
  with_hs (<[a := clear_flag UV_HANDLE_ACTIVE h1]> (l_handles s)) (set_queues q (set_timer_heap hp s)).

Lemma close_inactive : uv__is_active h = false -> s1 = stop_result (l_timer_heap s) (l_queues s).
Proof.
  intros Hact. unfold stop_result. rewrite (clear_flag_same _ _ (eq_trans Ea Hact)).
  rewrite with_hs_same; [by destruct s | apply close_counts].
Qed.

Lemma close_timer_run : h_type h = UV_TIMER ->
  exists hp q, uv__timer_close a s1 = (Done tt, stop_result hp q) /\
    heap_of (timer_less_than (l_handles s)) (g_timers G ∖ {[a]}) hp /\ queues_rep (drop_all a G) q.
Proof.
  intros Ht. destruct (Inv_handle _ _ _ _ Hi Hh) as (Hok & Hin & Hw & _).
  assert (forall w, a ∉ watched G w) as Hnw by (intros w [? _]%Hw; by destruct (timer_not_watched h w Ht)).
  unfold uv__timer_close. destruct (bool_dec (uv__is_active h) true) as [Eact | Eact%not_true_is_false].
  - assert (heap_of (timer_less_than (l_handles s1)) (g_timers G) (l_timer_heap s1)) as Hheap.
    { apply heap_update; [| apply Hi]. intros _. unfold timer_key. by rewrite Hh, Eto, Eid. }
    destruct (run_op_step (timer_less_than (l_handles s1)) (Remove a) _ _ Hheap) as (hp & X & E & Hs & Hhp & _).
    { by apply Hin. }
    inversion Hs; subst. cbn [run_op] in E. exists hp, (l_queues s). split_and!.
    + unfold uv_timer_stop. rewrite prog_bind_assoc. hrun close_get. rewrite Ea, Eact. cbn [negb].
      rewrite prog_bind_assoc, getS_bind. rewrite prog_bind_assoc, (prog_bind_done _ _ _ _ _ (on_heap_run _ s1 _ _ E)).
      rewrite prog_bind_assoc.
      rewrite (prog_bind_done _ _ _ _ _ (handle_stop_run (set_timer_heap hp s1) a h1 close_counts close_get (eq_trans Ea Eact))).
      unfold stop_result, with_hs. cbn [s1 set_handles l_handles set_timer_heap]. by rewrite insert_insert_eq.
    + revert Hhp. apply heap_of_ext. intros x y _ _.
      assert (forall z, timer_key (l_handles s) z = timer_key (l_handles s1) z) as Hk; [| by apply timer_less_than_ext].
      intros z. cbn [s1 set_handles l_handles]. destruct (decide (z = a)) as [-> |]; [| by rewrite timer_key_ne].
      rewrite timer_key_eq, Eto, Eid. unfold timer_key. by rewrite Hh.
    + by apply drop_all_notin, Hi.
  - exists (l_timer_heap s), (l_queues s). split_and!.
    + rewrite <- close_inactive by done.
      by rewrite (prog_bind_done _ _ _ _ _ (uv_timer_stop_inactive s1 a h1 close_get (eq_trans Ea Eact))).
    + assert (a ∉ g_timers G) as Hna by (intros [_ ?]%Hin; congruence).
      assert (g_timers G ∖ {[a]} = g_timers G) as -> by set_solver. apply Hi.
    + by apply drop_all_notin, Hi.
Qed.

Lemma close_watcher_run w : h_type h = watcher_type w ->
  exists hp q, uv__watcher_close a s1 = (Done tt, stop_result hp q) /\
    heap_of (timer_less_than (l_handles s)) (g_timers G ∖ {[a]}) hp /\ queues_rep (drop_all a G) q.
Proof.
  intros Ht. destruct (Inv_handle _ _ _ _ Hi Hh) as (Hok & Hin & Hw & _).
  destruct (watcher_loop_type h w Ht) as [_ Hnt]. pose proof (inv_ok _ _ Hi) as Hgok.
  assert (heap_of (timer_less_than (l_handles s)) (g_timers G ∖ {[a]}) (l_timer_heap s)) as Hheap.
  { assert (a ∉ g_timers G) as Hna by (by intros [? _]%Hin).
    assert (g_timers G ∖ {[a]} = g_timers G) as -> by set_solver. apply Hi. }
  unfold uv__watcher_close. destruct (bool_dec (uv__is_active h) true) as [Eact | Eact%not_true_is_false].
  - assert (a ∈ watched G w) as Haw by (by apply Hw).
    destruct (watcher_remove G (l_queues s) w a (inv_queues _ _ Hi) (nodup_watched _ Hgok) (Inv_one_type _ _ Hi) Haw)
      as (q & E & Hq). exists (l_timer_heap s), q. split_and!; [| done |].
    + unfold uv_watcher_stop. rewrite prog_bind_assoc. hrun close_get. rewrite Ea, Eact. cbn [negb].
      rewrite prog_bind_assoc, (prog_bind_done _ _ _ _ _ (on_queues_run _ s1 _ _ E)). rewrite prog_bind_assoc.
      rewrite (prog_bind_done _ _ _ _ _ (handle_stop_run (set_queues q s1) a h1 close_counts close_get (eq_trans Ea Eact))).
      unfold stop_result, with_hs. cbn [s1 set_handles l_handles set_queues]. by rewrite insert_insert_eq.
    + apply (drop_all_watcher G q w a); [| done]. intros w' [Hw' _]%Hw. apply watcher_type_inj. by rewrite <- Ht, <- Hw'.
  - exists (l_timer_heap s), (l_queues s). split_and!; [| done |].
    + rewrite <- close_inactive by done.
      by rewrite (prog_bind_done _ _ _ _ _ (uv_watcher_stop_inactive s1 a h1 close_get (eq_trans Ea Eact))).
    + apply drop_all_notin; [| apply Hi]. intros w' [_ ?]%Hw. congruence.
Qed.
End CloseStop.

Definition closing_handle s (h : uv_handle_t) (c : option cb) : uv_handle_t :=
  with_next_closing (l_closing_handles s)
    (clear_flag UV_HANDLE_ACTIVE (with_close_cb c (set_flag UV_HANDLE_CLOSING h))).

Definition with_closing (a : addr) G : contents := to_closing (a :: g_closing G) (drop_all a G).

Lemma uv_close_run G s a h c other :
  Inv G s -> l_handles s !! a = Some h -> is_loop_type (h_type h) = true -> uv__is_closing h = false ->
  exists hp q,
    uv_close other a c s
    = (Done tt, set_closing_handles (Some a)
        (with_hs (<[a := closing_handle s h c]> (l_handles s)) (set_queues q (set_timer_heap hp s)))) /\
    heap_of (timer_less_than (l_handles s)) (g_timers G ∖ {[a]}) hp /\ queues_rep (drop_all a G) q.
Proof.
  intros Hi Hh Hlt Hcl. pose proof Hcl as Hcl'. rewrite uv__is_closing_or in Hcl'. apply orb_false_iff in Hcl' as [Hc1 Hc2].
  set (h1 := with_close_cb c (set_flag UV_HANDLE_CLOSING h)).
  assert (uv__is_active h1 = uv__is_active h) as Ea by (unfold h1; change (uv__is_active (set_flag UV_HANDLE_CLOSING h) = uv__is_active h); by flags).
  assert (counted h1 = counted h) as Ec.
  { unfold counted. rewrite Ea. f_equal. unfold h1.
    change (uv__has_ref (set_flag UV_HANDLE_CLOSING h) = uv__has_ref h). by flags. }
  assert (exists hp q,
    (match h_type h with UV_TIMER => uv__timer_close a | _ => uv__watcher_close a end)
      (set_handles (<[a := h1]> (l_handles s)) s) = (Done tt, @stop_result s a h1 hp q) /\
    heap_of (timer_less_than (l_handles s)) (g_timers G ∖ {[a]}) hp /\ queues_rep (drop_all a G) q)
    as (hp & q & E & Hhp & Hq).
  { destruct (h_type h) eqn:Et; try done.
    - by apply (close_watcher_run Hi Hh Ea Ec eq_refl eq_refl Check_).
    - by apply (close_watcher_run Hi Hh Ea Ec eq_refl eq_refl Idle).
    - by apply (close_watcher_run Hi Hh Ea Ec eq_refl eq_refl Prepare).
    - by apply (close_timer_run Hi Hh Ea Ec eq_refl eq_refl). }
  exists hp, q. split; [| done].
  assert (uv__make_close_pending a (@stop_result s a h1 hp q)
    = (Done tt, set_closing_handles (Some a)
        (with_hs (<[a := closing_handle s h c]> (l_handles s)) (set_queues q (set_timer_heap hp s))))) as Em.
  { unfold uv__make_close_pending.
    rewrite (prog_bind_done _ _ _ _ _ (get_handle_run (@stop_result s a h1 hp q) a _ (lookup_insert_eq _ _ _))).
    assert (has_flag UV_HANDLE_CLOSING (clear_flag UV_HANDLE_ACTIVE h1) = true) as ->.
    { flags. unfold h1. change (has_flag UV_HANDLE_CLOSING (set_flag UV_HANDLE_CLOSING h) = true). by flags. }
    assert (has_flag UV_HANDLE_CLOSED (clear_flag UV_HANDLE_ACTIVE h1) = false) as ->.
    { flags. unfold h1. change (has_flag UV_HANDLE_CLOSED (set_flag UV_HANDLE_CLOSING h) = false). by flags. }
    rewrite !(prog_bind_done _ _ (@stop_result s a h1 hp q) tt (@stop_result s a h1 hp q)) by done.
    rewrite getS_bind.
    rewrite (prog_bind_done _ _ _ _ _ (update_handle_run (@stop_result s a h1 hp q) a _ _ (lookup_insert_eq _ _ _))).
    unfold stop_result, modifyS. lsimpl. rewrite insert_insert_eq. unfold with_hs. lsimpl.
    by rewrite (count_insert_eq _ _ _ (closing_handle s h c)). }
  unfold uv_close. hrun Hh. rewrite Hcl. cbn [negb].
  rewrite (prog_bind_done _ _ s tt s) by done.
  rewrite (prog_bind_done _ _ _ _ _ (update_handle_run _ _ _ _ Hh)), (prog_bind_done _ _ _ _ _ (update_inserted _ _ _ _ _)).
  fold h1. destruct (h_type h); try done; rewrite (prog_bind_done _ _ _ _ _ E); exact Em.
Qed.

Lemma closing_handle_flags s h c :
  has_flag UV_HANDLE_CLOSING (closing_handle s h c) = true /\
  has_flag UV_HANDLE_CLOSED (closing_handle s h c) = has_flag UV_HANDLE_CLOSED h /\
  uv__is_active (closing_handle s h c) = false.
Proof.
  unfold closing_handle. set (h0 := with_close_cb c (set_flag UV_HANDLE_CLOSING h)).
  change (has_flag UV_HANDLE_CLOSING (clear_flag UV_HANDLE_ACTIVE h0) = true /\
    has_flag UV_HANDLE_CLOSED (clear_flag UV_HANDLE_ACTIVE h0) = has_flag UV_HANDLE_CLOSED h /\
    uv__is_active (clear_flag UV_HANDLE_ACTIVE h0) = false).
  flags. change (has_flag UV_HANDLE_CLOSING (set_flag UV_HANDLE_CLOSING h) = true /\
    has_flag UV_HANDLE_CLOSED (set_flag UV_HANDLE_CLOSING h) = has_flag UV_HANDLE_CLOSED h /\ false = false).
  by flags.
Qed.

Lemma uv_close_spec G s a h c other :
  Inv G s -> l_handles s !! a = Some h -> is_loop_type (h_type h) = true -> uv__is_closing h = false ->
  exists hp q, let s' := set_closing_handles (Some a)
        (with_hs (<[a := closing_handle s h c]> (l_handles s)) (set_queues q (set_timer_heap hp s))) in
    uv_close other a c s = (Done tt, s') /\ Inv (with_closing a G) s'.
Proof.
  intros Hi Hh Hlt Hcl. destruct (uv_close_run G s a h c other Hi Hh Hlt Hcl) as (hp & q & E & Hhp & Hq).
  exists hp, q. split; [done |]. rewrite uv__is_closing_or in Hcl. apply orb_false_iff in Hcl as [Hc1 Hc2].
  destruct (Inv_handle _ _ _ _ Hi Hh) as (Hok & Hin & Hw & Hqd & Hc). pose proof (inv_ok _ _ Hi) as Hgok.
  destruct (closing_handle_flags s h c) as (E1 & E2 & E3). set (h' := closing_handle s h c) in *.
  assert (a ∉ closings G) as Hnc by (rewrite Hc, Hc1; by intros [? _]).
  assert (forall b, b ∈ closings (with_closing a G) <-> b = a \/ b ∈ closings G) as Hcg.
  { intros b. unfold closings, with_closing, drop_all. grep. set_solver. }
  apply (Inv_step G _ s _ a h'); lsimpl; try done; try apply Hi.
  - intros b Hb. split_and!; [unfold with_closing, drop_all; grep; set_solver | | done | rewrite Hcg; tauto].
    intros w. change (b ∈ watched (drop_all a G) w <-> b ∈ watched G w). rewrite elem_of_drop_all. tauto.
  - split; [| apply Hgok | | apply Hgok].
    + intros w. unfold watched, with_closing, drop_all. grep. apply NoDup_rm_parts, Hgok.
    + change (NoDup (a :: closings G)). apply NoDup_cons. split; [done | apply Hgok].
  - unfold with_closing, drop_all. grep. apply heap_update; [set_solver | done].
  - by apply (queues_rep_ext (drop_all a G)).
  - split; [done |]. exists h'. rewrite lookup_insert_eq. split; [done |].
    apply closing_chain_update; [| apply Hi]. intros h0 Hin0. destruct Hnc. unfold closings. set_solver.
  - apply closing_chain_update; [| apply Hi]. intros h0 Hin0. destruct Hnc.
    unfold closings. apply elem_of_app. by right.
  - split; [split; rewrite ?E1, ?E2, ?E3; try done |].
    { intros Ht. split; [| done]. by apply (ok_timer _ Hok). }
    rewrite E1, E2, E3, Hcg. split_and!.
    + unfold with_closing, drop_all. grep. split; [set_solver | by intros [_ ?]].
    + intros w. change (a ∈ watched (drop_all a G) w <-> h_type h' = watcher_type w /\ false = true).
      rewrite elem_of_drop_all. split; [tauto | by intros [_ ?]].
    + done.
    + rewrite Hc2. tauto.
  - rewrite (size_insert_old _ _ _ _ Hh). apply Hi.
Qed.
End Ops.
