(* ===== verification/LoopRun.v ===== *)
(** * The event loop of libuv: client code, phases and runs

    Client calls, the phases of an iteration and [uv_run] keep the invariant of
    [LoopInv.v], whatever the callbacks do through the interface of the loop. *)

From Stdlib Require Import ZArith Lia.
From stdpp Require Import gmap.
From S2P Require Import Prelude UvErrno Heap HeapSpec HeapRefine Queue Loop LoopInv LoopOps.

(** ** What code that runs during a phase leaves of it *)

(** The part of a structure that a phase holds on its stack only shrinks. *)
Definition shrinks (o o' : option (list addr)) : Prop :=
  match o, o' with
  | None, None => True
  | Some l, Some l' => l' `sublist_of` l
  | _, _ => False
  end.

Record later (G G' : contents) : Prop := {
  later_local w : shrinks (g_local G w) (g_local G' w);
  later_lhq : g_lhq G' = g_lhq G;
  later_lpending : g_lpending G' = g_lpending G;
  later_finishing : g_finishing G' = g_finishing G;
}.

#[export] Instance shrinks_preorder : PreOrder shrinks.
Proof.
  split; [intros []; by simpl | intros [] [] []; simpl; try done; intros; by etrans].
Qed.

#[export] Instance later_preorder : PreOrder later.
Proof.
  split.
  - intros G. by split.
  - intros G1 G2 G3 [L1 Q1 P1 F1] [L2 Q2 P2 F2]. split; [intros w; by transitivity (g_local G2 w) | congruence..].
Qed.

Lemma shrinks_rm a o : shrinks o (rm a <$> o).
Proof. destruct o as [l |]; [| done]. apply sublist_filter. Qed.

Section Run.
Context {W : Type}.
Implicit Types (s : uv_loop_t W) (G : contents).

(** [m] returns, in a state that satisfies the invariant again. *)
Definition Keeps {A} (m : prog (uv_loop_t W) A) : Prop :=
  forall G s, Inv G s -> exists r s' G', m s = (Done r, s') /\ later G G' /\ Inv G' s'.

(** The same, but [m] may run out of fuel. *)
Definition Safely {A} (m : prog (uv_loop_t W) A) : Prop :=
  forall G s, Inv G s ->
    match m s with
    | (Done r, s') => exists G', later G G' /\ Inv G' s'
    | (NoFuel, _) => True
    | _ => False
    end.

Lemma Keeps_Safely {A} (m : prog (uv_loop_t W) A) : Keeps m -> Safely m.
Proof. intros Hm G s Hi. destruct (Hm G s Hi) as (r & s' & G' & -> & Hl & Hi'). eauto. Qed.

Lemma Keeps_ret {A} (a : A) : Keeps (mret a).
Proof. intros G s Hi. by exists a, s, G. Qed.

Lemma Keeps_bind {A B} (m : prog (uv_loop_t W) A) (f : A -> prog (uv_loop_t W) B) :
  Keeps m -> (forall a, Keeps (f a)) -> Keeps (m ≫= f).
Proof.
  intros Hm Hf G s Hi. destruct (Hm G s Hi) as (r & s1 & G1 & E & Hl & Hi1).
  destruct (Hf r G1 s1 Hi1) as (r' & s2 & G2 & E2 & Hl2 & Hi2). exists r', s2, G2.
  rewrite (prog_bind_done _ _ _ _ _ E). split; [done |]. split; [by etrans | done].
Qed.

Lemma Safely_bind {A B} (m : prog (uv_loop_t W) A) (f : A -> prog (uv_loop_t W) B) :
  Safely m -> (forall a, Safely (f a)) -> Safely (m ≫= f).
Proof.
  intros Hm Hf G s Hi. specialize (Hm G s Hi). unfold mbind, prog_bind.
  destruct (m s) as [[r | | |] s1]; try done. destruct Hm as (G1 & Hl & Hi1).
  specialize (Hf r G1 s1 Hi1). destruct (f r s1) as [[r2 | | |] s2]; try done.
  destruct Hf as (G2 & Hl2 & Hi2). exists G2. split; [by etrans | done].
Qed.

(** ** The interface of the loop *)

Inductive api_call : Type :=
  | TimerInit (a : addr)
  | TimerStart (a : addr) (c : option cb) (timeout repeat : Z)
  | TimerStop (a : addr)
  | TimerAgain (a : addr)
  | TimerSetRepeat (a : addr) (repeat : Z)
  | WatcherInit (w : watcher) (a : addr)
  | WatcherStart (w : watcher) (a : addr) (c : option cb)
  | WatcherStop (w : watcher) (a : addr)
  | Close (a : addr) (c : option cb)
  | Ref (a : addr)
  | Unref (a : addr)
  | Stop.

Definition run_api (other : addr -> prog (uv_loop_t W) unit) (c : api_call) : prog (uv_loop_t W) unit :=
  match c with
  | TimerInit a => _ ← uv_timer_init a; mret tt
  | TimerStart a c t r => _ ← uv_timer_start a c t r; mret tt
  | TimerStop a => _ ← uv_timer_stop a; mret tt
  | TimerAgain a => _ ← uv_timer_again a; mret tt
  | TimerSetRepeat a r => uv_timer_set_repeat a r
  | WatcherInit w a => _ ← uv_watcher_init w a; mret tt
  | WatcherStart w a c => _ ← uv_watcher_start w a c; mret tt
  | WatcherStop w a => _ ← uv_watcher_stop a; mret tt
  | Close a c => uv_close other a c
  | Ref a => uv_ref a
  | Unref a => uv_unref a
  | Stop => uv_stop
  end.

Definition is_u64 (z : Z) : bool := (0 <=? z) && (z <? 2 ^ 64).

Definition handle_is (s : uv_loop_t W) (a : addr) (P : uv_handle_t -> bool) : bool :=
  match l_handles s !! a with Some h => P h | None => false end.

Definition unused_b s (a : addr) : bool :=
  match l_handles s !! a with Some h => has_flag UV_HANDLE_CLOSED h | None => true end.

(** The documented preconditions: a handle is initialised once, before anything else,
    and again only when it is closed; it is used as what it is; a watcher is not
    started once it is closing; a handle is closed once. *)
Definition api_allowed (c : api_call) s : bool :=
  match c with
  | TimerInit a | WatcherInit _ a => unused_b s a && (Z.of_nat (size (l_handles s)) + 1 <? max_handles)
  | TimerStart a c t r => handle_is s a (fun h => bool_decide (h_type h = UV_TIMER)) && is_u64 t && is_u64 r
  | TimerStop a | TimerAgain a => handle_is s a (fun h => bool_decide (h_type h = UV_TIMER))
  | TimerSetRepeat a r => handle_is s a (fun h => bool_decide (h_type h = UV_TIMER)) && is_u64 r
  | WatcherStart w a c =>
      handle_is s a (fun h => bool_decide (h_type h = watcher_type w) && negb (has_flag UV_HANDLE_CLOSING h))
  | WatcherStop w a => handle_is s a (fun h => bool_decide (h_type h = watcher_type w))
  | Close a c => handle_is s a (fun h => is_loop_type (h_type h) && negb (uv__is_closing h))
  | Ref a | Unref a => handle_is s a (fun _ => true)
  | Stop => true
  end.

Lemma handle_is_spec s a P : handle_is s a P = true -> exists h, l_handles s !! a = Some h /\ P h = true.
Proof. unfold handle_is. destruct (l_handles s !! a) as [h |]; [eauto | done]. Qed.

Lemma is_u64_spec z : is_u64 z = true -> 0 <= z < 2 ^ 64.
Proof. unfold is_u64. rewrite andb_true_iff, Z.leb_le, Z.ltb_lt. done. Qed.

Lemma unused_b_spec s a : unused_b s a = true -> unused s a.
Proof. unfold unused_b, unused. by destruct (l_handles s !! a). Qed.

Lemma done_ret {A} (m : prog (uv_loop_t W) A) s r s' : m s = (Done r, s') -> (_ ← m; mret tt) s = (Done tt, s').
Proof. intros E. by rewrite (prog_bind_done _ _ _ _ _ E). Qed.

Lemma later_same G G' :
  (forall w, g_local G' w = g_local G w) -> g_lhq G' = g_lhq G -> g_lpending G' = g_lpending G ->
  g_finishing G' = g_finishing G -> later G G'.
Proof. intros El ???. split; try done. intros w. by rewrite El. Qed.

Lemma later_drop w a G : later G (drop_watcher w a G).
Proof.
  split; try done. intros w'. unfold drop_watcher. cbn. unfold upd_w. destruct (decide (w' = w)) as [-> |]; [| done].
  apply shrinks_rm.
Qed.

Lemma later_closing a G : later G (with_closing a G).
Proof. split; try done. intros w. apply shrinks_rm. Qed.

Lemma uv_timer_again_keeps G s a h :
  Inv G s -> l_handles s !! a = Some h -> h_type h = UV_TIMER ->
  exists r s' G', uv_timer_again a s = (Done r, s') /\ later G G' /\ Inv G' s'.
Proof.
  intros Hi Hh Ht. destruct (h_cb h) as [c |] eqn:Hc.
  2: { exists UV_EINVAL, s, G. split; [by eapply uv_timer_again_einval | done]. }
  destruct (decide (h_repeat h = 0)) as [Hr | Hr].
  { exists 0, s, G. split; [by eapply uv_timer_again_once | done]. }
  destruct (has_flag UV_HANDLE_CLOSING h) eqn:Hcl.
  { exists 0, s, G. split; [by eapply uv_timer_again_closing | done]. }
  destruct (uv_timer_again_repeat G s a h c Hi Hh Ht Hcl Hc Hr) as (hp & E & Hi'). eexists _, _, _.
  split; [exact E |]. split; [| exact Hi']. by apply later_same.
Qed.

(** Every allowed call returns, and keeps the invariant. *)
Lemma api_keeps other c G s :
  Inv G s -> api_allowed c s = true ->
  exists s' G', run_api other c s = (Done tt, s') /\ later G G' /\ Inv G' s'.
Proof.
  intros Hi Hc. destruct c as [a | a c t r | a | a | a r | w a | w a c | w a | a c | a | a |]; cbn [run_api api_allowed] in *.
  - apply andb_true_iff in Hc as [Hu%unused_b_spec Hs%Z.ltb_lt].
    destruct (uv_timer_init_spec G s a Hi Hu Hs) as (q' & E & Hi'). eexists _, _.
    split; [by apply (done_ret _ _ _ _ E) |]. split; [| exact Hi']. by apply later_same.
  - apply andb_true_iff in Hc as [[Hc Ht%is_u64_spec]%andb_true_iff Hr%is_u64_spec].
    apply handle_is_spec in Hc as (h & Hh & Hty%bool_decide_eq_true).
    destruct c as [c |].
    2: { exists s, G. split; [| done]. eapply done_ret, uv_timer_start_einval; [done | by right]. }
    destruct (uv__is_closing h) eqn:Hcl.
    { exists s, G. split; [| done]. eapply done_ret, uv_timer_start_einval; [done | by left]. }
    rewrite uv__is_closing_or in Hcl. apply orb_false_iff in Hcl as [Hcl _].
    destruct (uv_timer_start_spec G s a h c t r Hi Hh Hty Hcl Ht Hr) as (hp & E & Hi'). eexists _, _.
    split; [by apply (done_ret _ _ _ _ E) |]. split; [| exact Hi']. by apply later_same.
  - apply handle_is_spec in Hc as (h & Hh & Hty%bool_decide_eq_true).
    destruct (uv_timer_stop_spec G s a h Hi Hh Hty) as (hp & E & Hi'). eexists _, _.
    split; [by apply (done_ret _ _ _ _ E) |]. split; [| exact Hi']. by apply later_same.
  - apply handle_is_spec in Hc as (h & Hh & Hty%bool_decide_eq_true).
    destruct (uv_timer_again_keeps G s a h Hi Hh Hty) as (r & s' & G' & E & Hl & Hi'). exists s', G'.
    split; [by apply (done_ret _ _ _ _ E) | done].
  - apply andb_true_iff in Hc as [(h & Hh & Hty%bool_decide_eq_true)%handle_is_spec Hr%is_u64_spec].
    destruct (uv_timer_set_repeat_spec G s a h r Hi Hh Hty Hr) as [E Hi']. eexists _, _. by split.
  - apply andb_true_iff in Hc as [Hu%unused_b_spec Hs%Z.ltb_lt].
    destruct (uv_watcher_init_spec G s w a Hi Hu Hs) as (q' & E & Hi'). eexists _, _.
    split; [by apply (done_ret _ _ _ _ E) |]. split; [| exact Hi']. by apply later_same.
  - apply handle_is_spec in Hc as (h & Hh & [Hty%bool_decide_eq_true Hcl%negb_true_iff]%andb_true_iff).
    destruct (uv__is_active h) eqn:Ha.
    { exists s, G. split; [| done]. by eapply done_ret, uv_watcher_start_active. }
    destruct c as [c |].
    2: { exists s, G. split; [| done]. by eapply done_ret, uv_watcher_start_einval. }
    destruct (uv_watcher_start_spec G s w a h c Hi Hh Hty Hcl Ha) as (q' & E & Hi'). eexists _, _.
    split; [by apply (done_ret _ _ _ _ E) |]. split; [| exact Hi']. by apply later_same.
  - apply handle_is_spec in Hc as (h & Hh & Hty%bool_decide_eq_true). destruct (uv__is_active h) eqn:Ha.
    + destruct (uv_watcher_stop_active G s w a h Hi Hh Hty Ha) as (q' & E & Hi'). eexists _, _.
      split; [by apply (done_ret _ _ _ _ E) |]. split; [| exact Hi']. apply later_drop.
    + exists s, G. split; [| done]. by eapply done_ret, uv_watcher_stop_inactive.
  - apply handle_is_spec in Hc as (h & Hh & [Hty Hcl%negb_true_iff]%andb_true_iff).
    destruct (uv_close_spec G s a h c other Hi Hh Hty Hcl) as (hp & q & E & Hi'). eexists _, _.
    split; [exact E |]. split; [| exact Hi']. apply later_closing.
  - apply handle_is_spec in Hc as (h & Hh & _). destruct (uv_ref_spec G s a h Hi Hh) as [E Hi']. eexists _, _. by split.
  - apply handle_is_spec in Hc as (h & Hh & _). destruct (uv_unref_spec G s a h Hi Hh) as [E Hi']. eexists _, _. by split.
  - eexists _, G. split; [done |]. split; [done |]. by destruct Hi.
Qed.

(** ** Running the watchers *)

Lemma Inv_queues G G1 s q :
  Inv G s -> contents_ok G1 -> g_timers G1 = g_timers G -> (forall w b, b ∈ watched G1 w <-> b ∈ watched G w) ->
  (forall b, b ∈ queued G1 <-> b ∈ queued G) -> g_closing G1 = g_closing G -> g_finishing G1 = g_finishing G ->
  queues_rep G1 q -> Inv G1 (set_queues q s).
Proof.
  intros Hi Hok Ht Hw Hq Hc Hf Hr. split; try done; try apply Hi; cbn.
  - rewrite Ht. apply Hi.
  - rewrite Hc. apply Hi.
  - rewrite Hf. apply Hi.
  - intros a. pose proof (inv_handles _ _ Hi a) as Ha. unfold handle_in, closings in *. rewrite Ht, Hc, Hf.
    destruct (l_handles s !! a); setoid_rewrite Hw; by rewrite Hq.
Qed.

(** The first handle of the local queue goes back to the end of the queue of the loop. *)
Definition rotated (w : watcher) (a : addr) G : contents :=
  let G1 := drop_watcher w a G in to_main (upd_w w (g_main G1 w ++ [a]) (g_main G1)) G1.

Lemma watched_rotated w a G w' b :
  a ∈ watched G w -> b ∈ watched (rotated w a G) w' <-> b ∈ watched G w'.
Proof.
  intros Ha. assert (b ∈ watched (rotated w a G) w' <-> (w' = w /\ b = a) \/ b ∈ watched (drop_watcher w a G) w') as ->.
  { unfold rotated, watched. cbn. unfold upd_w. destruct (decide (w' = w)) as [-> |].
    - rewrite !decide_True by done. set_solver.
    - set_solver. }
  rewrite elem_of_drop. destruct (decide (w' = w)) as [-> |], (decide (b = a)) as [-> |]; naive_solver.
Qed.

Lemma rotate_step G s w a l :
  Inv G s -> g_local G w = Some (a :: l) ->
  exists q1 q2,
    on_queues (QUEUE_EMPTY (LocalHandles w)) s = (Done false, s) /\
    on_queues (QUEUE_HEAD (LocalHandles w)) s = (Done (QueueOf a), s) /\
    on_queues (QUEUE_REMOVE (QueueOf a)) s = (Done tt, set_queues q1 s) /\
    on_queues (QUEUE_INSERT_TAIL (Handles w) (QueueOf a)) (set_queues q1 s) = (Done tt, set_queues q2 s) /\
    Inv (rotated w a G) (set_queues q2 s) /\ g_local (rotated w a G) w = Some l.
Proof.
  intros Hi Hl. pose proof (inv_ok _ _ Hi) as Hgok. pose proof (inv_queues _ _ Hi) as Hq.
  assert (a ∈ watched G w) as Haw by (unfold watched; rewrite Hl; set_solver).
  pose proof (rep_local _ _ Hq w _ Hl) as Hr.
  destruct (watcher_remove G _ w a Hq (nodup_watched _ Hgok) (Inv_one_type _ _ Hi) Haw) as (q1 & E1 & Hq1).
  destruct (main_insert_tail (drop_watcher w a G) q1 w a Hq1) as (q2 & E2 & Hq2).
  { intros w'. rewrite watched_drop. destruct (decide (w' = w)) as [-> |]; [| apply Hgok].
    apply NoDup_rm_parts, Hgok. }
  { intros w1 w2 x [H1 _]%elem_of_drop [H2 _]%elem_of_drop. by apply (Inv_one_type _ _ Hi w1 w2 x). }
  { intros w' [Hw' Hne]%elem_of_drop. apply Hne; [| done]. by apply (Inv_one_type _ _ Hi w' w a). }
  exists q1, q2. split_and!.
  - assert (QUEUE_EMPTY (LocalHandles w) (l_queues s) = (Done false, l_queues s)) as E.
    { rewrite (ring_empty _ _ _ Hr). by rewrite bool_decide_eq_false_2. }
    rewrite (on_queues_run _ s _ _ E). by destruct s.
  - rewrite (on_queues_run _ s _ _ (ring_head _ _ _ _ Hr)). by destruct s.
  - by apply on_queues_run.
  - by rewrite (on_queues_run _ (set_queues q1 s) _ _ E2).
  - apply (Inv_queues G); try done.
    + split; try apply Hgok. intros w'. unfold rotated, watched. cbn. unfold upd_w.
      destruct (decide (w' = w)) as [-> |]; [| apply Hgok]. rewrite !decide_True by done.
      rewrite <- app_assoc. cbn [app]. apply NoDup_mid. split; [| apply NoDup_rm_parts, Hgok].
      rewrite rm_default, elem_of_app, !elem_of_rm. tauto.
    + intros w' b. by apply watched_rotated.
  - unfold rotated. cbn. rewrite upd_w_eq, Hl. cbn. f_equal. rewrite decide_False by auto.
    apply rm_notin. pose proof (nodup_watched _ Hgok w) as Hnd. unfold watched in Hnd. rewrite Hl in Hnd.
    apply NoDup_app in Hnd as (_ & _ & Hnd). by apply NoDup_cons in Hnd as [? _].
Qed.

Lemma Inv_watched G s w a :
  Inv G s -> a ∈ watched G w ->
  exists h, l_handles s !! a = Some h /\ h_type h = watcher_type w /\ uv__is_active h = true /\ h_cb h <> None.
Proof.
  intros Hi Ha. pose proof (inv_handles _ _ Hi a) as Hin. destruct (l_handles s !! a) as [h |].
  2: { by destruct Hin as (_ & Hw & _); destruct (Hw w). }
  destruct Hin as (Hok & _ & Hw & _). destruct (proj1 (Hw w) Ha) as [Hty Hact]. exists h. split_and!; try done.
  apply (ok_active _ Hok Hact). by destruct (watcher_loop_type h w Hty).
Qed.

Lemma later_rotated w a G : later G (rotated w a G).
Proof.
  split; try done. intros w'. unfold rotated. cbn. unfold upd_w. destruct (decide (w' = w)) as [-> |]; [| done].
  apply shrinks_rm.
Qed.

Lemma watched_size G s w : Inv G s -> (length (g_main G w) <= size (l_handles s))%nat.
Proof.
  intros Hi. pose proof (nodup_watched _ (inv_ok _ _ Hi) w) as Hnd. unfold watched in Hnd. apply NoDup_app in Hnd as [Hnd _].
  rewrite <- (size_list_to_set (C := gset addr)) by done. rewrite <- size_dom. apply subseteq_size.
  intros a Ha%elem_of_list_to_set. assert (a ∈ watched G w) as Haw by (by apply watched_main).
  destruct (Inv_watched G s w a Hi Haw) as (h & Hh & _). by apply elem_of_dom.
Qed.

Lemma closing_size G s : Inv G s -> (length (g_closing G) <= size (l_handles s))%nat.
Proof.
  intros Hi. pose proof (nodup_closings _ (inv_ok _ _ Hi)) as Hnd. unfold closings in Hnd. apply NoDup_app in Hnd as [Hnd _].
  rewrite <- (size_list_to_set (C := gset addr)) by done. rewrite <- size_dom. apply subseteq_size.
  intros a Ha%elem_of_list_to_set. apply elem_of_dom. pose proof (inv_handles _ _ Hi a) as Hin.
  destruct (l_handles s !! a); [done |]. destruct Hin as (_ & _ & _ & Hc). destruct Hc. unfold closings. set_solver.
Qed.

(** The timer at the root. *)
Lemma Inv_min G s :
  Inv G s -> on_heap heap_min s = (Done (h_min (l_timer_heap s)), s) /\
  match h_min (l_timer_heap s) with
  | Some a => least (timer_less_than (l_handles s)) a (g_timers G) /\
      exists h, l_handles s !! a = Some h /\ h_type h = UV_TIMER /\ uv__is_active h = true
  | None => g_timers G = ∅
  end.
Proof.
  intros Hi. destruct (heap_min_least _ _ _ (inv_heap _ _ Hi)) as [E Hl]. split.
  - rewrite (on_heap_run _ s _ _ E). by destruct s.
  - destruct (h_min (l_timer_heap s)) as [a |]; [| done]. split; [done |]. destruct Hl as [Ha _].
    pose proof (inv_handles _ _ Hi a) as Hin. destruct (l_handles s !! a) as [h |]; [| by destruct Hin].
    destruct Hin as (_ & Ht & _). exists h. split; [done |]. by apply Ht.
Qed.

(** What [uv__next_timeout] computes. *)
Definition next_timeout s : Z :=
  match h_min (l_timer_heap s) with
  | None => -1
  | Some a => Z.max 0 (Z.min INT_MAX ((timer_key (l_handles s) a).1 - l_time s))
  end.

Lemma next_timeout_run G s : Inv G s -> uv__next_timeout s = (Done (next_timeout s), s).
Proof.
  intros Hi. destruct (Inv_min G s Hi) as [Em Hm]. unfold uv__next_timeout, next_timeout.
  rewrite (prog_bind_done _ _ _ _ _ Em). destruct (h_min (l_timer_heap s)) as [a |]; [| done].
  destruct Hm as (_ & h & Hh & Ht & Ha). rewrite (prog_bind_done _ _ _ _ _ (get_handle_run _ _ _ Hh)), getS_bind.
  unfold timer_key. rewrite Hh. cbn [fst]. pose proof (inv_time _ _ Hi) as Htime.
  destruct (ok_timer _ (Inv_handle_ok _ _ _ _ Hi Hh) Ht) as [_ Hto]. specialize (Hto Ha).
  destruct (Z.leb_spec (h_timeout h) (l_time s)).
  - unfold INT_MAX, mret, prog_ret; do 2 f_equal; lia.
  - rewrite wrap_small by lia. cbv zeta. assert (0 <= INT_MAX < 2 ^ 31) by (unfold INT_MAX; lia).
    destruct (Z.ltb_spec INT_MAX (h_timeout h - l_time s)); rewrite swrap_small by lia; unfold mret, prog_ret; do 2 f_equal; lia.
Qed.

Section Callbacks.
(** Client code that uses the loop through its interface only. *)
Variable callback : cb -> addr -> prog (uv_loop_t W) unit.
Hypothesis callback_keeps : forall c a, Keeps (callback c a).

Lemma run_cb_keeps c a : c <> None -> Keeps (run_cb callback c a).
Proof. destruct c as [c |]; [| done]. intros _. apply callback_keeps. Qed.

(** However the callbacks start, stop and close watchers, the loop ends: each round
    takes a handle off the local queue, and nothing puts one there. *)
Lemma run_watchers_keeps fuel w G s l :
  Inv G s -> g_local G w = Some l -> (length l <= fuel)%nat ->
  exists s' G', run_watchers callback fuel w s = (Done tt, s') /\ later G G' /\ Inv G' s' /\ g_local G' w = Some [].
Proof.
  revert G s l. induction fuel as [| fuel IH]; intros G s l Hi Hl Hf;
    (destruct l as [| a l]; [| try (simpl in Hf; lia)]); cbn [run_watchers].
  1, 2: exists s, G; split; [| done]; pose proof (rep_local _ _ (inv_queues _ _ Hi) w [] Hl) as Hr;
    rewrite (prog_bind_done _ _ s true s); [done |]; rewrite (on_queues_run _ s _ _ (ring_empty _ _ _ Hr)); by destruct s.
  destruct (rotate_step G s w a l Hi Hl) as (q1 & q2 & E1 & E2 & E3 & E4 & Hi2 & Hl2).
  assert (a ∈ watched G w) as Haw by (unfold watched; rewrite Hl; set_solver).
  destruct (Inv_watched G s w a Hi Haw) as (h & Hh & _ & _ & Hcb).
  destruct (run_cb_keeps (h_cb h) a Hcb _ _ Hi2) as ([] & s3 & G3 & E5 & Hlat & Hi3).
  assert (exists l3, g_local G3 w = Some l3 /\ l3 `sublist_of` l) as (l3 & Hl3 & Hsub).
  { pose proof (later_local _ _ Hlat w) as Hs. rewrite Hl2 in Hs. cbn in Hs. destruct (g_local G3 w); [eauto | done]. }
  destruct (IH G3 s3 l3 Hi3 Hl3) as (s4 & G4 & E6 & Hlat4 & Hi4 & Hl4).
  { apply sublist_length in Hsub. simpl in Hf. lia. }
  exists s4, G4. split_and!; try done.
  - rewrite (prog_bind_done _ _ _ _ _ E1), (prog_bind_done _ _ _ _ _ E2). cbn [handle_of].
    rewrite (prog_bind_done _ _ _ _ _ E3), (prog_bind_done _ _ _ _ _ E4).
    rewrite (prog_bind_done _ _ _ _ _ (get_handle_run (set_queues q2 s) a h Hh)).
    by rewrite (prog_bind_done _ _ _ _ _ E5).
  - transitivity G3; [| done]. transitivity (rotated w a G); [| done]. apply later_rotated.
Qed.

(** The local queue of a phase that is over. *)
Lemma Inv_forget G s w : Inv G s -> g_local G w = Some [] -> Inv (to_local (upd_w w None (g_local G)) G) s.
Proof.
  intros Hi Hl. assert (forall w', watched (to_local (upd_w w None (g_local G)) G) w' = watched G w') as Hw.
  { intros w'. unfold watched. cbn. unfold upd_w. destruct (decide (w' = w)) as [-> |]; [| done]. by rewrite Hl. }
  assert (s = set_queues (l_queues s) s) as -> by by destruct s.
  apply (Inv_queues G); try done.
  - pose proof (inv_ok _ _ Hi) as Hok. split; try apply Hok. intros w'. rewrite Hw. apply Hok.
  - intros w' b. by rewrite Hw.
  - destruct (inv_queues _ _ Hi) as [Rm Rl Rh Rlh Rp Rlp]. split; cbn; auto.
    intros w' l'. unfold upd_w. destruct (decide (w' = w)); [done | apply Rl].
Qed.

Lemma Inv_moved G s w q1 :
  Inv G s -> g_local G w = None -> queues_rep (moved w G) q1 -> Inv (moved w G) (set_queues q1 s).
Proof.
  intros Hi Hno Hq1. pose proof (inv_ok _ _ Hi) as Hgok. assert (forall w', watched (moved w G) w' = watched G w') as Hw.
  { intros w'. unfold moved, watched. cbn. unfold upd_w. destruct (decide (w' = w)) as [-> |]; [| done].
    by rewrite Hno, app_nil_r. }
  apply (Inv_queues G); try done; [| intros w' b; by rewrite Hw].
  split; try apply Hgok. intros w'. rewrite Hw. apply Hgok.
Qed.

(** [uv__run_prepare], [uv__run_check] and [uv__run_idle]. *)
Lemma uv__run_watchers_keeps fuel w G s :
  Inv G s -> g_local G w = None -> max_handles <= Z.of_nat fuel ->
  exists s' G', uv__run_watchers callback fuel w s = (Done tt, s') /\ later G G' /\ Inv G' s'.
Proof.
  intros Hi Hno Hf. pose proof (inv_ok _ _ Hi) as Hgok.
  destruct (main_move G _ w (inv_queues _ _ Hi) (nodup_watched _ Hgok) (Inv_one_type _ _ Hi) Hno) as (q1 & E1 & Hq1).
  pose proof (Inv_moved G s w q1 Hi Hno Hq1) as Hi1.
  assert (g_local (moved w G) w = Some (g_main G w)) as Hl1 by apply upd_w_eq.
  destruct (run_watchers_keeps fuel w _ _ _ Hi1 Hl1) as (s2 & G2 & E2 & Hlat & Hi2 & Hl2).
  { apply Nat2Z.inj_le. etransitivity; [| exact Hf]. etransitivity; [| apply Z.lt_le_incl, (inv_size _ _ Hi)].
    apply inj_le. by apply (watched_size G s w). }
  exists s2, (to_local (upd_w w None (g_local G2)) G2). split_and!.
  - unfold uv__run_watchers. by rewrite (prog_bind_done _ _ _ _ _ (on_queues_run _ s _ _ E1)).
  - destruct Hlat as [Ll Lq Lp Lf]. split; try done. intros w'. cbn. specialize (Ll w'). revert Ll.
    unfold moved. cbn. unfold upd_w. destruct (decide (w' = w)) as [-> |]; [by rewrite Hno | done].
  - by apply Inv_forget.
Qed.

(** ** Finishing the closes *)

Lemma chain_head hs p l : closing_chain hs p l -> p = head l.
Proof. destruct l; cbn; [done | by intros [-> _]]. Qed.

Definition finished (a : addr) G : contents := to_finishing (tail (g_finishing G)) (drop_queued a G).

Lemma elem_of_drop_queued a G b : b ∈ queued (drop_queued a G) <-> b ∈ queued G /\ b <> a.
Proof. unfold queued, drop_queued. cbn. rewrite rm_default, !elem_of_app, !elem_of_rm. tauto. Qed.

Lemma finished_handle h :
  has_flag UV_HANDLE_CLOSING h = true ->
  let h' := clear_flag UV_HANDLE_REF (set_flag UV_HANDLE_CLOSED h) in
  has_flag UV_HANDLE_CLOSING h' = true /\ has_flag UV_HANDLE_CLOSED h' = true /\ uv__is_active h' = uv__is_active h.
Proof. intros Hc h'. unfold h'. by flags. Qed.

Section Finish.
Variable other_finish : addr -> prog (uv_loop_t W) bool.

Lemma finish_step G s a fl :
  Inv G s -> g_finishing G = a :: fl ->
  exists h q', let s' := set_queues q' (with_hs (<[a := clear_flag UV_HANDLE_REF (set_flag UV_HANDLE_CLOSED h)]> (l_handles s)) s) in
    l_handles s !! a = Some h /\ h_next_closing h = head fl /\ Inv (finished a G) s' /\
    uv__finish_close other_finish callback a s
    = (match h_close_cb h with Some _ => run_cb callback (h_close_cb h) a | None => mret tt end) s'.
Proof.
  intros Hi Hf. pose proof (inv_finishing _ _ Hi) as Hchain. rewrite Hf in Hchain.
  destruct Hchain as (_ & h & Hh & Hchain). pose proof (inv_ok _ _ Hi) as Hgok.
  destruct (Inv_handle _ _ _ _ Hi Hh) as (Hok & Hin & Hw & Hq & Hc).
  assert (a ∈ closings G) as Hac by (unfold closings; rewrite Hf; set_solver).
  destruct (proj1 Hc Hac) as [Hcl Hcd]. destruct (ok_closing _ Hok Hcl) as [Hact Hlt].
  destruct (queued_remove G (l_queues s) a (inv_queues _ _ Hi) (nodup_queued _ Hgok)) as (q' & E & Hq').
  { by apply Hq. }
  destruct (finished_handle h Hcl) as (E1 & E2 & E3). set (h1 := set_flag UV_HANDLE_CLOSED h) in *.
  set (h' := clear_flag UV_HANDLE_REF h1) in *. exists h, q'. split; [done |]. split; [by apply chain_head in Hchain |].
  assert (handle_ok h1) as Hok1.
  { destruct Hok as [H1 H2 H3 H4]. unfold h1. split; flags; auto. }
  split.
  - apply (Inv_step G _ s _ a h'); try done.
    + intros b Hb. split_and!; try done.
      * change (b ∈ queued (drop_queued a G) <-> b ∈ queued G). rewrite elem_of_drop_queued. tauto.
      * unfold closings, finished. cbn. rewrite Hf. cbn. set_solver.
    + split; [apply Hgok | | | apply Hgok].
      * unfold queued, finished, drop_queued. cbn. apply NoDup_rm_parts, Hgok.
      * pose proof (nodup_closings _ Hgok) as Hnd. unfold closings, finished in *. cbn. rewrite Hf in *. cbn.
        by apply NoDup_mid in Hnd as [_ ?].
    + cbn. apply heap_update; [| apply Hi]. intros _. unfold timer_key. by rewrite Hh.
    + by apply (queues_rep_ext (drop_queued a G)).
    + cbn. apply closing_chain_update; [| apply Hi]. intros h0 _ Hh0. by simplify_eq.
    + unfold finished. cbn. rewrite Hf. cbn. apply closing_chain_update; [intros h0 _ Hh0; by simplify_eq |].
      by rewrite <- (chain_head _ _ _ Hchain).
    + split; [split; rewrite ?E1, ?E2, ?E3; try done; apply Hok |].
      rewrite E1, E2, E3. split_and!; try done.
      * change (a ∈ queued (drop_queued a G) <-> true = false). rewrite elem_of_drop_queued. split; [by intros [_ ?] | done].
      * pose proof (nodup_closings _ Hgok) as Hnd. unfold closings, finished in *. cbn. rewrite Hf in *. cbn.
        apply NoDup_mid in Hnd as [Hnd _]. split; [done | by intros [_ ?]].
    + cbn. rewrite (size_insert_old _ _ _ _ Hh). apply Hi.
  - unfold uv__finish_close. rewrite (prog_bind_done _ _ _ _ _ (get_handle_run _ _ _ Hh)), Hcl, Hcd.
    rewrite !(prog_bind_done _ _ s tt s) by done.
    rewrite (prog_bind_done _ _ _ _ _ (update_handle_run _ _ _ _ Hh)). fold h1.
    set (s1 := set_handles (<[a := h1]> (l_handles s)) s).
    rewrite (prog_bind_done _ _ s1 true s1) by (by destruct (h_type h)). cbn [negb].
    assert (counts s1) as Hcnt.
    { split; cbn [s1 set_handles l_handles l_active_handles].
      - rewrite (count_same _ _ h); [apply Hi | done |]. unfold counted, h1. by flags.
      - rewrite (size_insert_old _ _ _ _ Hh). apply Hi. }
    rewrite (prog_bind_done _ _ _ _ _ (handle_unref_run s1 a h1 Hcnt (lookup_insert_eq _ _ _) Hok1)). fold h'.
    assert (with_hs (<[a := h']> (l_handles s1)) s1 = with_hs (<[a := h']> (l_handles s)) s) as ->
      by (unfold with_hs; cbn [s1 set_handles l_handles]; by rewrite insert_insert_eq).
    rewrite (prog_bind_done _ _ _ _ _ (on_queues_run _ (with_hs (<[a := h']> (l_handles s)) s) _ _ E)).
    by rewrite (prog_bind_done _ _ _ _ _ (get_handle_run (set_queues q' (with_hs (<[a := h']> (l_handles s)) s)) a h' (lookup_insert_eq _ _ _))).
Qed.

(** Each handle of the list is finished once, whatever the close callbacks do. *)
Lemma finish_all_keeps fuel G s l :
  Inv G s -> g_finishing G = l -> (length l <= fuel)%nat ->
  exists s' G', finish_all other_finish callback fuel (head l) s = (Done tt, s') /\ Inv G' s' /\
    (forall w, shrinks (g_local G w) (g_local G' w)) /\ shrinks (g_lhq G) (g_lhq G') /\
    g_lpending G' = g_lpending G /\ g_finishing G' = [].
Proof.
  revert G s l. induction fuel as [| fuel IH]; intros G s l Hi Hl Hf;
    (destruct l as [| a l]; [| try (simpl in Hf; lia)]); cbn [finish_all head].
  1, 2: by exists s, G; split_and!.
  destruct (finish_step G s a l Hi Hl) as (h & q' & Hh & Hn & Hi1 & E). set (s1 := set_queues _ _) in Hi1, E.
  rewrite (prog_bind_done _ _ _ _ _ (get_handle_run _ _ _ Hh)), Hn.
  assert (exists s2 G2, uv__finish_close other_finish callback a s = (Done tt, s2) /\ later (finished a G) G2 /\ Inv G2 s2)
    as (s2 & G2 & E2 & Hlat & Hi2).
  { rewrite E. destruct (h_close_cb h) as [c |] eqn:Ec.
    - destruct (callback_keeps c a _ _ Hi1) as ([] & s2 & G2 & ?). by exists s2, G2.
    - by exists s1, (finished a G). }
  destruct Hlat as [Ll Lq Lp Lf].
  assert (g_finishing G2 = l) as Hl2 by (rewrite Lf; unfold finished; cbn; by rewrite Hl).
  destruct (IH G2 s2 l Hi2 Hl2) as (s3 & G3 & E3 & Hi3 & Ll3 & Lq3 & Lp3 & Lf3); [simpl in Hf; lia |].
  exists s3, G3. split_and!; try done.
  - by rewrite (prog_bind_done _ _ _ _ _ E2).
  - intros w. transitivity (g_local G2 w); [| done]. apply (Ll w).
  - transitivity (g_lhq G2); [| done]. rewrite Lq. unfold finished. cbn. apply shrinks_rm.
  - rewrite Lp3, Lp. done.
Qed.

(** [uv__run_closing_handles] takes the whole list. *)
Definition take_closing G : contents := to_finishing (g_closing G) (to_closing [] G).

Lemma Inv_take_closing G s :
  Inv G s -> g_finishing G = [] -> Inv (take_closing G) (set_closing_handles None s).
Proof.
  intros Hi Hno. split; try done; try apply Hi.
  - pose proof (inv_ok _ _ Hi) as Hok. split; try apply Hok. pose proof (nodup_closings _ Hok) as Hnd.
    unfold closings in *. cbn. by apply NoDup_app in Hnd as [? _].
  - by apply (queues_rep_ext G), Hi.
  - cbn. rewrite <- (chain_head _ _ _ (inv_closing _ _ Hi)). apply Hi.
  - intros a. pose proof (inv_handles _ _ Hi a) as Ha. cbn. unfold handle_in, closings in *. cbn. by rewrite Hno, app_nil_r in Ha.
Qed.

Lemma uv__run_closing_keeps fuel G s :
  Inv G s -> g_finishing G = [] -> max_handles <= Z.of_nat fuel ->
  exists s' G', uv__run_closing_handles other_finish callback fuel s = (Done tt, s') /\ Inv G' s' /\
    (forall w, shrinks (g_local G w) (g_local G' w)) /\ shrinks (g_lhq G) (g_lhq G') /\
    g_lpending G' = g_lpending G /\ g_finishing G' = [].
Proof.
  intros Hi Hno Hf. set (G1 := take_closing G).
  pose proof (Inv_take_closing G s Hi Hno) as Hi1. fold G1 in Hi1.
  destruct (finish_all_keeps fuel G1 (set_closing_handles None s) (g_closing G) Hi1 eq_refl)
    as (s2 & G2 & E & Hi2 & Hrest).
  { apply Nat2Z.inj_le. etransitivity; [| exact Hf]. etransitivity; [| apply Z.lt_le_incl, (inv_size _ _ Hi)].
    apply inj_le. by apply (closing_size G s). }
  exists s2, G2. split; [| by split]. unfold uv__run_closing_handles. rewrite getS_bind.
  rewrite (prog_bind_done _ _ s tt (set_closing_handles None s)) by done.
  by rewrite (chain_head _ _ _ (inv_closing _ _ Hi)).
Qed.
End Finish.

(** ** Running the timers *)

(** The record of a timer that was fired: it is stopped, or started again. *)
Definition fired (time id : Z) (h : uv_handle_t) : uv_handle_t :=
  if decide (h_repeat h = 0) then clear_flag UV_HANDLE_ACTIVE h
  else started (clear_flag UV_HANDLE_ACTIVE h) (h_cb h) (clamp_timeout time (h_repeat h)) (h_repeat h) id.

Lemma h_cb_fired time id h : h_cb (fired time id h) = h_cb h.
Proof. unfold fired. by case_decide. Qed.

(** Firing but for the callback. *)
Lemma fire_step G s a h :
  Inv G s -> l_handles s !! a = Some h -> h_type h = UV_TIMER -> uv__is_active h = true ->
  exists hp n, let s' := with_hs (<[a := fired (l_time s) (l_timer_counter s) h]> (l_handles s))
      (set_timer_counter n (set_timer_heap hp s)) in
    (_ ← uv_timer_stop a; uv_timer_again a) s = (Done 0, s') /\
    Inv (if decide (h_repeat h = 0) then without_timer a G else with_timer a G) s'.
Proof.
  intros Hi Hh Ht Ha. pose proof (Inv_handle_ok _ _ _ _ Hi Hh) as Hok.
  destruct (uv_timer_stop_spec G s a h Hi Hh Ht) as (hp1 & E1 & Hi1). set (h1 := clear_flag UV_HANDLE_ACTIVE h) in *.
  set (s1 := with_hs (<[a := h1]> (l_handles s)) (set_timer_heap hp1 s)) in *.
  assert (l_handles s1 !! a = Some h1) as Hh1 by apply lookup_insert_eq.
  destruct (h_cb h) as [c |] eqn:Hc; [| exfalso; apply (ok_active _ Hok Ha); [by rewrite Ht | done]].
  unfold fired. rewrite Hc. fold h1. destruct (decide (h_repeat h = 0)) as [Hr | Hr].
  - exists hp1, (l_timer_counter s). rewrite (prog_bind_done _ _ _ _ _ E1).
    rewrite (uv_timer_again_once s1 a h1 c Hh1 Hc Hr). split; [by destruct s |]. by destruct s.
  - assert (has_flag UV_HANDLE_CLOSING h1 = false) as Hcl.
    { unfold h1. flags. destruct (has_flag UV_HANDLE_CLOSING h) eqn:E; [| done].
      destruct (ok_closing _ Hok E) as [Ha' _]. unfold uv__is_active in Ha'. congruence. }
    destruct (uv_timer_again_repeat _ s1 a h1 c Hi1 Hh1 Ht Hcl Hc Hr) as (hp & E2 & Hi2).
    exists hp, (u64 (l_timer_counter s + 1)). rewrite (prog_bind_done _ _ _ _ _ E1), E2.
    rewrite with_without_timer in Hi2. revert Hi2. cbv zeta. unfold s1. cbn [l_handles with_hs set_active_handles set_handles
      set_timer_heap l_time l_timer_counter]. rewrite insert_insert_eq.
    assert (clear_flag UV_HANDLE_ACTIVE h1 = h1) as -> by (apply clear_flag_same; unfold h1; by flags).
    intros Hi2. split; [done | exact Hi2].
Qed.

(** Whether the loop ends depends on the callbacks: one that starts a timer without
    delay again and again keeps it going. *)
Lemma uv__run_timers_safely fuel : Safely (uv__run_timers callback fuel).
Proof.
  induction fuel as [| fuel IH]; intros G s Hi; cbn [uv__run_timers];
    destruct (Inv_min G s Hi) as [Em Hm]; rewrite (prog_bind_done _ _ _ _ _ Em);
    (destruct (h_min (l_timer_heap s)) as [a |]; [| by exists G]);
    destruct Hm as (_ & h & Hh & Ht & Ha);
    rewrite (prog_bind_done _ _ _ _ _ (get_handle_run _ _ _ Hh)), getS_bind;
    (destruct (l_time s <? h_timeout h); [by exists G |]); [done |].
  destruct (fire_step G s a h Hi Hh Ht Ha) as (hp & n & E & Hi1). set (s1 := with_hs _ _) in E, Hi1.
  assert (h_cb (fired (l_time s) (l_timer_counter s) h) <> None) as Hcb.
  { rewrite h_cb_fired. apply (ok_active _ (Inv_handle_ok _ _ _ _ Hi Hh) Ha). by rewrite Ht. }
  destruct (run_cb_keeps _ a Hcb _ _ Hi1) as ([] & s2 & G2 & E2 & Hl2 & Hi2).
  rewrite <- prog_bind_assoc. rewrite (prog_bind_done _ _ _ _ _ E).
  rewrite (prog_bind_done _ _ _ _ _ (get_handle_run s1 a _ (lookup_insert_eq _ _ _))).
  rewrite (prog_bind_done _ _ _ _ _ E2). specialize (IH G2 s2 Hi2).
  destruct (uv__run_timers callback fuel s2) as [[[] | | |] s3]; try done. destruct IH as (G3 & Hl3 & Hi3).
  exists G3. split; [| done]. transitivity G2; [| done]. transitivity (if decide (h_repeat h = 0) then without_timer a G else with_timer a G); [| done].
  by apply later_same; case_decide.
Qed.

(** ** Pending I/O callbacks *)

Section Pending.
Variable io_callback : addr -> prog (uv_loop_t W) unit.
Hypothesis io_callback_keeps : forall a, Keeps (io_callback a).

Lemma pending_step G s a l :
  Inv G s -> g_lpending G = Some (a :: l) ->
  exists q1 q2,
    on_queues (QUEUE_EMPTY LocalPending) s = (Done false, s) /\
    on_queues (QUEUE_HEAD LocalPending) s = (Done (PendingOf a), s) /\
    on_queues (QUEUE_REMOVE (PendingOf a)) s = (Done tt, set_queues q1 s) /\
    on_queues (QUEUE_INIT (PendingOf a)) (set_queues q1 s) = (Done tt, set_queues q2 s) /\
    Inv (to_lpending (Some l) G) (set_queues q2 s).
Proof.
  intros Hi Hl. pose proof (inv_ok _ _ Hi) as Hgok. destruct (inv_queues _ _ Hi) as [Rm Rl Rh Rlh Rp Rlp].
  pose proof (nodup_pending _ Hgok) as Hnd. rewrite Hl in Hnd. cbn in Hnd.
  pose proof (Rlp _ Hl) as Hr. rewrite fmap_cons in Hr. destruct (ring_remove LocalPending [] _ _ _ Hr) as (q1 & E1 & Hr1 & Hs1).
  destruct (ring_init (PendingOf a) q1) as (q2 & E2 & _ & Hs2). exists q1, q2. split_and!.
  - assert (QUEUE_EMPTY LocalPending (l_queues s) = (Done false, l_queues s)) as E.
    { rewrite (ring_empty _ _ _ Hr). by rewrite bool_decide_eq_false_2. }
    rewrite (on_queues_run _ s _ _ E). by destruct s.
  - rewrite (on_queues_run _ s _ _ (ring_head _ _ _ _ Hr)). by destruct s.
  - by apply on_queues_run.
  - by rewrite (on_queues_run _ (set_queues q1 s) _ _ E2).
  - apply (Inv_queues G); try done.
    + split; try apply Hgok. cbn. by apply NoDup_mid in Hnd as [_ ?].
    + apply NoDup_app in Hnd as (_ & Hdis & Hndl). apply NoDup_cons in Hndl as [Hal _].
      split; cbn; intros; try (by simplify_eq); (eapply (ring_frame _ _ _ _ _ Hs2); [disj |
        first [by simplify_eq | eapply (ring_frame _ _ _ _ _ Hs1); [disj | by eauto] | idtac]]).
      * by eapply Hdis; [| by left].
      * by eapply Hdis; [| by right].
Qed.

Lemma Inv_pending_forget G s : Inv G s -> g_lpending G = Some [] -> Inv (to_lpending None G) s.
Proof.
  intros Hi Hl. assert (s = set_queues (l_queues s) s) as -> by by destruct s.
  apply (Inv_queues G); try done.
  - pose proof (inv_ok _ _ Hi) as Hok. split; try apply Hok. cbn. pose proof (nodup_pending _ Hok) as Hnd. by rewrite Hl in Hnd.
  - destruct (inv_queues _ _ Hi) as [Rm Rl Rh Rlh Rp Rlp]. by split.
Qed.

Lemma run_pending_safely fuel G s l :
  Inv G s -> g_lpending G = Some l ->
  match run_pending io_callback fuel s with
  | (Done tt, s') => exists G', later (to_lpending (Some []) G) G' /\ Inv G' s'
  | (NoFuel, _) => True
  | _ => False
  end.
Proof.
  revert G s l. induction fuel as [| fuel IH]; intros G s l Hi Hl; cbn [run_pending];
    (destruct l as [| a l];
      [rewrite (prog_bind_done _ _ s true s)
         by (rewrite (on_queues_run _ s _ _ (ring_empty _ _ _ (rep_lpending _ _ (inv_queues _ _ Hi) _ Hl))); by destruct s);
       exists G; split; [by apply later_same | done] |]);
    destruct (pending_step G s a l Hi Hl) as (q1 & q2 & E1 & E2 & E3 & E4 & Hi2);
    rewrite (prog_bind_done _ _ _ _ _ E1); [done |].
  rewrite (prog_bind_done _ _ _ _ _ E2), (prog_bind_done _ _ _ _ _ E3), (prog_bind_done _ _ _ _ _ E4). cbn [handle_of].
  destruct (io_callback_keeps a _ _ Hi2) as ([] & s3 & G3 & E5 & Hlat & Hi3). rewrite (prog_bind_done _ _ _ _ _ E5).
  assert (g_lpending G3 = Some l) as Hl3 by by rewrite (later_lpending _ _ Hlat).
  specialize (IH G3 s3 l Hi3 Hl3). destruct (run_pending io_callback fuel s3) as [[[] | | |] s4]; try done.
  destruct IH as (G4 & Hlat4 & Hi4). exists G4. split; [| done].
  destruct Hlat as [L Q P F], Hlat4 as [L4 Q4 P4 F4]. split; [| by rewrite Q4 | done | by rewrite F4].
  intros w. transitivity (g_local G3 w); [apply (L w) | apply (L4 w)].
Qed.

Lemma uv__run_pending_safely fuel G s :
  Inv G s -> g_lpending G = None ->
  match uv__run_pending io_callback fuel s with
  | (Done _, s') => exists G', later G G' /\ Inv G' s'
  | (NoFuel, _) => True
  | _ => False
  end.
Proof.
  intros Hi Hno. pose proof (inv_ok _ _ Hi) as Hgok. destruct (inv_queues _ _ Hi) as [Rm Rl Rh Rlh Rp Rlp].
  unfold uv__run_pending. rewrite (prog_bind_done _ _ s (bool_decide (PendingOf <$> g_pending G = [])) s)
    by (rewrite (on_queues_run _ s _ _ (ring_empty _ _ _ Rp)); by destruct s).
  case_bool_decide; [by exists G |].
  destruct (ring_move PendingQueue _ LocalPending _ Rp) as (q1 & E & Hr & Hr' & Hs); [intros Hin; nodes |].
  rewrite (prog_bind_done _ _ _ _ _ (on_queues_run _ s _ _ E)).
  set (G1 := to_lpending (Some (g_pending G)) (to_pending [] G)).
  assert (Inv G1 (set_queues q1 s)) as Hi1.
  { apply (Inv_queues G); try done.
    - split; try apply Hgok. pose proof (nodup_pending _ Hgok) as Hnd. by apply NoDup_app in Hnd as [? _].
    - split; cbn; intros; try (by simplify_eq); (eapply (ring_frame _ _ _ _ _ Hs); [disj | by eauto]). }
  pose proof (run_pending_safely fuel G1 _ _ Hi1 eq_refl) as Hrun. unfold mbind, prog_bind.
  destruct (run_pending io_callback fuel (set_queues q1 s)) as [[[] | | |] s2]; try done.
  destruct Hrun as (G2 & [L Q P F] & Hi2). exists (to_lpending None G2). split.
  - split; [apply L | apply Q | by rewrite Hno | apply F].
  - by apply Inv_pending_forget.
Qed.

(** ** [uv_run] *)

Section UvRun.
Variable other_finish : addr -> prog (uv_loop_t W) bool.
Variable uv__hrtime : nat -> Z.
Variable uv__io_poll : Z -> prog (uv_loop_t W) unit.
Hypothesis io_poll_keeps : forall t, Keeps (uv__io_poll t).

(** Between iterations nothing is held on a stack. *)
Record idle G : Prop := {
  idle_local w : g_local G w = None;
  idle_lhq : g_lhq G = None;
  idle_lpending : g_lpending G = None;
  idle_finishing : g_finishing G = [];
}.

Lemma idle_later G G' : later G G' -> idle G -> idle G'.
Proof.
  intros [L Q P F] [L0 Q0 P0 F0]. split; [| congruence..]. intros w. specialize (L w). rewrite L0 in L.
  by destruct (g_local G' w).
Qed.

Definition SafelyIdle {A} (m : prog (uv_loop_t W) A) : Prop :=
  forall G s, Inv G s -> idle G ->
    match m s with
    | (Done r, s') => exists G', idle G' /\ Inv G' s'
    | (NoFuel, _) => True
    | _ => False
    end.

Lemma Safely_idle {A} (m : prog (uv_loop_t W) A) : Safely m -> SafelyIdle m.
Proof.
  intros Hm G s Hi Hid. specialize (Hm G s Hi). destruct (m s) as [[r | | |] s']; try done.
  destruct Hm as (G' & Hl & Hi'). exists G'. split; [by eapply idle_later | done].
Qed.

Lemma SafelyIdle_bind {A B} (m : prog (uv_loop_t W) A) (f : A -> prog (uv_loop_t W) B) :
  SafelyIdle m -> (forall a, SafelyIdle (f a)) -> SafelyIdle (m ≫= f).
Proof.
  intros Hm Hf G s Hi Hid. specialize (Hm G s Hi Hid). unfold mbind, prog_bind.
  destruct (m s) as [[r | | |] s1]; try done. destruct Hm as (G1 & Hid1 & Hi1). by apply (Hf r G1 s1).
Qed.

Lemma SafelyIdle_ret {A} (a : A) : SafelyIdle (mret a).
Proof. apply Safely_idle, Keeps_Safely, Keeps_ret. Qed.

Lemma SafelyIdle_getS : SafelyIdle (getS : prog (uv_loop_t W) _).
Proof. intros G s Hi Hid. by exists G. Qed.

Lemma update_time_safely : SafelyIdle (uv__update_time uv__hrtime).
Proof.
  intros G s Hi Hid. exists G. split; [done |]. destruct Hi. split; try done. cbn.
  unfold wrap. apply Z.mod_pos_bound. lia.
Qed.

Lemma alive_safely : SafelyIdle (uv__loop_alive : prog (uv_loop_t W) bool).
Proof. intros G s Hi Hid. by exists G. Qed.

Lemma watchers_safely fuel w : max_handles <= Z.of_nat fuel -> SafelyIdle (uv__run_watchers callback fuel w).
Proof.
  intros Hf G s Hi Hid. destruct (uv__run_watchers_keeps fuel w G s Hi (idle_local _ Hid w) Hf) as (s' & G' & -> & Hl & Hi').
  exists G'. split; [by eapply idle_later | done].
Qed.

Lemma idle_shrinks G G' :
  idle G -> (forall w, shrinks (g_local G w) (g_local G' w)) /\ shrinks (g_lhq G) (g_lhq G') /\
  g_lpending G' = g_lpending G /\ g_finishing G' = [] -> idle G'.
Proof.
  intros [Hl Hq Hp Hf] (L & Q & P & F). split; [| | by rewrite P | done].
  - intros w. specialize (L w). rewrite Hl in L. by destruct (g_local G' w).
  - rewrite Hq in Q. by destruct (g_lhq G').
Qed.

Lemma closing_safely fuel : max_handles <= Z.of_nat fuel -> SafelyIdle (uv__run_closing_handles other_finish callback fuel).
Proof.
  intros Hf G s Hi Hid.
  destruct (uv__run_closing_keeps other_finish fuel G s Hi (idle_finishing _ Hid) Hf) as (s' & G' & -> & Hi' & L & Q & P & F).
  exists G'. split; [| done]. by apply (idle_shrinks G).
Qed.

Lemma backend_timeout_safely : SafelyIdle (uv_backend_timeout : prog (uv_loop_t W) Z).
Proof.
  intros G s Hi Hid. destruct (inv_queues _ _ Hi) as [Rm Rl Rh Rlh Rp Rlp].
  unfold uv_backend_timeout. rewrite getS_bind. destruct (negb (l_stop_flag s =? 0)); [by exists G |].
  destruct (_ && _); [by exists G |].
  rewrite (prog_bind_done _ _ s (bool_decide (QueueOf <$> g_main G Idle = [])) s)
    by (rewrite (on_queues_run _ s _ _ (ring_empty _ _ _ (Rm Idle))); by destruct s).
  destruct (negb _); [by exists G |].
  rewrite (prog_bind_done _ _ s (bool_decide (PendingOf <$> g_pending G = [])) s)
    by (rewrite (on_queues_run _ s _ _ (ring_empty _ _ _ Rp)); by destruct s).
  destruct (negb _); [by exists G |]. case_bool_decide; [by exists G |].
  rewrite (next_timeout_run G s Hi). by exists G.
Qed.

Lemma pending_safely fuel : SafelyIdle (uv__run_pending io_callback fuel).
Proof.
  intros G s Hi Hid. pose proof (uv__run_pending_safely fuel G s Hi (idle_lpending _ Hid)) as Hp.
  destruct (uv__run_pending io_callback fuel s) as [[r | | |] s']; try done. destruct Hp as (G' & Hl & Hi').
  exists G'. split; [by eapply idle_later | done].
Qed.

Lemma run_iteration_safely fuel mode :
  max_handles <= Z.of_nat fuel ->
  SafelyIdle (run_iteration other_finish callback io_callback uv__hrtime uv__io_poll fuel mode).
Proof.
  intros Hf. unfold run_iteration.
  apply SafelyIdle_bind; [apply update_time_safely | intros _].
  apply SafelyIdle_bind; [apply Safely_idle, uv__run_timers_safely | intros _].
  apply SafelyIdle_bind; [by apply pending_safely | intros ran].
  apply SafelyIdle_bind; [by apply watchers_safely | intros _].
  apply SafelyIdle_bind; [by apply watchers_safely | intros _].
  apply SafelyIdle_bind; [destruct (_ || _); [apply backend_timeout_safely | apply SafelyIdle_ret] | intros t].
  apply SafelyIdle_bind; [apply Safely_idle, Keeps_Safely, io_poll_keeps | intros _].
  apply SafelyIdle_bind; [by apply watchers_safely | intros _].
  apply SafelyIdle_bind; [by apply closing_safely | intros _].
  apply SafelyIdle_bind; [| intros _; apply alive_safely].
  destruct (is_once mode); [| apply SafelyIdle_ret].
  apply SafelyIdle_bind; [apply update_time_safely | intros _]. apply Safely_idle, uv__run_timers_safely.
Qed.

Lemma run_loop_safely n fuel mode r :
  max_handles <= Z.of_nat fuel ->
  SafelyIdle (run_loop other_finish callback io_callback uv__hrtime uv__io_poll n fuel mode r).
Proof.
  intros Hf. revert r. induction n as [| n IH]; intros r; cbn [run_loop];
    (apply SafelyIdle_bind; [apply SafelyIdle_getS | intros s0]);
    (destruct (r && (l_stop_flag s0 =? 0)); [| apply SafelyIdle_ret]); [by intros G s Hi Hid |].
  apply SafelyIdle_bind; [by apply run_iteration_safely | intros r'].
  destruct (is_default mode); [apply IH | apply SafelyIdle_ret].
Qed.

Lemma uv_run_safely fuel mode :
  max_handles <= Z.of_nat fuel ->
  SafelyIdle (uv_run other_finish callback io_callback uv__hrtime uv__io_poll fuel mode).
Proof.
  intros Hf. unfold uv_run. apply SafelyIdle_bind; [apply alive_safely | intros r].
  apply SafelyIdle_bind; [destruct (negb r); [apply update_time_safely | apply SafelyIdle_ret] | intros _].
  apply SafelyIdle_bind; [by apply run_loop_safely | intros r'].
  apply SafelyIdle_bind; [apply SafelyIdle_getS | intros s0].
  apply SafelyIdle_bind; [| intros _; apply SafelyIdle_ret].
  destruct (negb (l_stop_flag s0 =? 0)); [| apply SafelyIdle_ret].
  intros G s Hi Hid. exists G. split; [done |]. by destruct Hi.
Qed.
End UvRun.
End Pending.
End Callbacks.
End Run.
