(* ===== verification/LoopPhases.v ===== *)
(** * The event loop of libuv: what each phase does, callback by callback

    For callbacks that change the client's own state and leave the loop alone, a phase
    calls each handle it is about exactly once, in the order the loop promises, and
    ends. *)

From Stdlib Require Import ZArith Lia.
From stdpp Require Import gmap sorting.
From S2P Require Import Prelude UvErrno Heap HeapSpec HeapRefine Queue Loop LoopInv LoopOps LoopRun.

Section Phases.
Context {W : Type}.
Implicit Types (s : uv_loop_t W) (G : contents).

(** ** Due timers *)

(** The timers of which the time has come. *)
Definition due G s : gset addr := filter (fun a => (timer_key (l_handles s) a).1 <= l_time s) (g_timers G).

Lemma elem_of_due G s a : a ∈ due G s <-> a ∈ g_timers G /\ (timer_key (l_handles s) a).1 <= l_time s.
Proof. unfold due. rewrite elem_of_filter. tauto. Qed.

Lemma clamp_later time repeat :
  0 <= time < UINT64_MAX -> 0 <= repeat < 2 ^ 64 -> repeat <> 0 -> time < clamp_timeout time repeat.
Proof. intros Ht Hr Hn. rewrite clamp_timeout_spec by (unfold UINT64_MAX in *; lia). lia. Qed.

Lemma fired_key time id h :
  h_repeat h <> 0 -> h_timeout (fired time id h) = clamp_timeout time (h_repeat h).
Proof. intros Hr. unfold fired. by rewrite decide_False. Qed.

(** The root is due, or nothing is. *)
Lemma due_none G s :
  Inv G s -> match h_min (l_timer_heap s) with
             | Some a => l_time s < (timer_key (l_handles s) a).1
             | None => True
             end -> due G s = ∅.
Proof.
  intros Hi Hm. destruct (Inv_min G s Hi) as [_ Hl]. apply set_eq. intros a. rewrite elem_of_due.
  split; [| set_solver]. intros [Ha Ht]. destruct (h_min (l_timer_heap s)) as [r |]; [| set_solver].
  destruct Hl as [[_ Hl] _]. specialize (Hl a Ha). apply timer_less_than_false in Hl. unfold key_lt in Hl. lia.
Qed.

(** Firing takes one timer out of those that are due. *)
Lemma due_fired G s s' a h id :
  l_handles s !! a = Some h -> a ∈ due G s -> 0 <= h_repeat h < 2 ^ 64 -> 0 <= l_time s < UINT64_MAX ->
  l_handles s' = <[a := fired (l_time s) id h]> (l_handles s) -> l_time s' = l_time s ->
  due (if decide (h_repeat h = 0) then without_timer a G else with_timer a G) s' = due G s ∖ {[a]}.
Proof.
  intros Hh Ha Hr Ht Eh Et. apply set_eq. intros b. rewrite elem_of_difference, elem_of_singleton, !elem_of_due, Et, Eh.
  destruct (decide (b = a)) as [-> | Hb].
  - split; [| naive_solver]. intros [Hin Hk]. exfalso. case_decide as E; [cbn in Hin; set_solver |].
    rewrite timer_key_eq, fired_key in Hk by done. cbn [fst] in Hk. pose proof (clamp_later _ _ Ht Hr E). lia.
  - rewrite timer_key_ne by done. assert (b ∈ g_timers (if decide (h_repeat h = 0) then without_timer a G
      else with_timer a G) <-> b ∈ g_timers G) as -> by (case_decide; cbn; set_solver). naive_solver.
Qed.

(** ** Callbacks *)

(** The callbacks, and what each does to the state of the client. *)
Variable callback : cb -> addr -> prog (uv_loop_t W) unit.
Variable effect : cb -> addr -> W -> W.
Hypothesis callback_run : forall c a s, callback c a s = (Done tt, set_world (effect c a (l_world s)) s).

Lemma callback_keeps c a : Keeps (callback c a).
Proof. intros G s Hi. eexists _, _, G. split; [apply callback_run |]. split; [done |]. by destruct Hi. Qed.

(** The call of the callback of [a], found by [get]. *)
Definition invoke (get : uv_handle_t -> option cb) (hs : gmap addr uv_handle_t) (v : W) (a : addr) : W :=
  match hs !! a ≫= get with Some c => effect c a v | None => v end.

Lemma invoke_some get hs v a h c : hs !! a = Some h -> get h = Some c -> invoke get hs v a = effect c a v.
Proof. unfold invoke. intros -> E. cbn. by rewrite E. Qed.

Lemma foldl_invoke_ext get hs hs' v l :
  (forall a, a ∈ l -> hs' !! a ≫= get = hs !! a ≫= get) ->
  foldl (invoke get hs') v l = foldl (invoke get hs) v l.
Proof.
  revert v. induction l as [| a l IH]; intros v Ha; cbn; [done |]. rewrite IH by set_solver. f_equal.
  unfold invoke. by rewrite Ha by set_solver.
Qed.

Lemma Inv_world G s v : Inv G s -> Inv G (set_world v s).
Proof. intros Hi. by destruct Hi. Qed.

(** ** Watchers *)

(** Contents that hold the same lists. *)
Lemma Inv_same_lists G G' s :
  (forall w, g_main G' w = g_main G w) -> (forall w, g_local G' w = g_local G w) -> g_timers G' = g_timers G ->
  g_hq G' = g_hq G -> g_lhq G' = g_lhq G -> g_pending G' = g_pending G -> g_lpending G' = g_lpending G ->
  g_closing G' = g_closing G -> g_finishing G' = g_finishing G -> Inv G s -> Inv G' s.
Proof.
  intros Em El Et Eh Elh Ep Elp Ec Ef Hi. assert (forall w, watched G' w = watched G w) as Hw
    by (intros w; unfold watched; by rewrite Em, El).
  assert (queued G' = queued G) as Hq by (unfold queued; by rewrite Eh, Elh).
  assert (s = set_queues (l_queues s) s) as -> by by destruct s.
  apply (Inv_queues G); try done.
  - pose proof (inv_ok _ _ Hi) as Hok. split; [intros w; rewrite Hw | rewrite Hq | unfold closings; rewrite Ec, Ef
      | rewrite Ep, Elp]; apply Hok.
  - intros w b. by rewrite Hw.
  - by rewrite Hq.
  - by apply (queues_rep_ext G), Hi.
Qed.

Lemma rotated_main w a G l :
  NoDup (watched G w) -> g_local G w = Some (a :: l) ->
  g_main (rotated w a G) w = g_main G w ++ [a] /\ (forall w', w' <> w -> g_main (rotated w a G) w' = g_main G w') /\
  (forall w', w' <> w -> g_local (rotated w a G) w' = g_local G w').
Proof.
  unfold watched. intros Hnd Hl. rewrite Hl in Hnd. cbn in Hnd. apply NoDup_mid in Hnd as [Hnd _].
  unfold rotated, drop_watcher. cbn. split_and!.
  - rewrite !upd_w_eq, rm_notin; [done | set_solver].
  - intros w' Hw. by rewrite !upd_w_ne.
  - intros w' Hw. by rewrite !upd_w_ne.
Qed.

Lemma run_watchers_quiet fuel w G s l :
  Inv G s -> g_local G w = Some l -> (length l <= fuel)%nat ->
  exists q' G', let s' := set_world (foldl (invoke h_cb (l_handles s)) (l_world s) l) (set_queues q' s) in
    run_watchers callback fuel w s = (Done tt, s') /\ Inv G' s' /\
    g_main G' w = g_main G w ++ l /\ g_local G' w = Some [] /\
    (forall w', w' <> w -> g_main G' w' = g_main G w' /\ g_local G' w' = g_local G w') /\
    G' = to_main (g_main G') (to_local (g_local G') G).
Proof.
  revert G s l. induction fuel as [| fuel IH]; intros G s l Hi Hl Hf;
    (destruct l as [| a l]; [| try (simpl in Hf; lia)]); cbn [run_watchers].
  1, 2: exists (l_queues s), G; split_and!; [| by destruct s | by rewrite app_nil_r | done | done | by destruct G];
    pose proof (rep_local _ _ (inv_queues _ _ Hi) w [] Hl) as Hr;
    rewrite (prog_bind_done _ _ s true s); [by destruct s |];
    rewrite (on_queues_run _ s _ _ (ring_empty _ _ _ Hr)); by destruct s.
  destruct (rotate_step G s w a l Hi Hl) as (q1 & q2 & E1 & E2 & E3 & E4 & Hi2 & Hl2).
  destruct (rotated_main w a G l (nodup_watched _ (inv_ok _ _ Hi) w) Hl) as (Hm & Hm' & Hl').
  assert (a ∈ watched G w) as Haw by (unfold watched; rewrite Hl; set_solver).
  destruct (Inv_watched G s w a Hi Haw) as (h & Hh & _ & _ & Hcb). destruct (h_cb h) as [c |] eqn:Ec; [| done].
  set (s3 := set_world (effect c a (l_world s)) (set_queues q2 s)).
  destruct (IH (rotated w a G) s3 l) as (q' & G' & E5 & Hi5 & Em & El & Eo & EG);
    [by apply Inv_world | done | simpl in Hf; lia |].
  exists q', G'. split_and!; [| | by rewrite Em, Hm, <- app_assoc | done | |].
  - rewrite (prog_bind_done _ _ _ _ _ E1), (prog_bind_done _ _ _ _ _ E2). cbn [handle_of].
    rewrite (prog_bind_done _ _ _ _ _ E3), (prog_bind_done _ _ _ _ _ E4).
    rewrite (prog_bind_done _ _ _ _ _ (get_handle_run (set_queues q2 s) a h Hh)). rewrite Ec. cbn [run_cb].
    rewrite (prog_bind_done _ _ _ _ _ (callback_run c a (set_queues q2 s))).
    change (set_world (effect c a _) _) with s3. rewrite E5.
    cbn [foldl]. by rewrite (invoke_some h_cb (l_handles s) _ a h c Hh Ec).
  - revert Hi5. cbn [foldl]. by rewrite (invoke_some h_cb (l_handles s) _ a h c Hh Ec).
  - intros w' Hw. destruct (Eo w' Hw) as [-> ->]. by rewrite Hm', Hl'.
  - by rewrite EG.
Qed.

(** [uv__run_prepare], [uv__run_check], [uv__run_idle]: each active watcher is called
    once, in the order of the queue, and the queue is as it was. *)
Lemma uv__run_watchers_quiet fuel w G s :
  Inv G s -> g_local G w = None -> (size (l_handles s) <= fuel)%nat ->
  exists q', let s' := set_world (foldl (invoke h_cb (l_handles s)) (l_world s) (g_main G w)) (set_queues q' s) in
    uv__run_watchers callback fuel w s = (Done tt, s') /\ Inv G s'.
Proof.
  intros Hi Hno Hf.
  destruct (main_move G _ w (inv_queues _ _ Hi) (nodup_watched _ (inv_ok _ _ Hi)) (Inv_one_type _ _ Hi) Hno)
    as (q1 & E1 & Hq1).
  pose proof (Inv_moved G s w q1 Hi Hno Hq1) as Hi1.
  destruct (run_watchers_quiet fuel w _ _ (g_main G w) Hi1 (upd_w_eq _ _ _)) as (q' & G' & E2 & Hi2 & Em & El & Eo & EG).
  { etransitivity; [| exact Hf]. by apply (watched_size G s w). }
  exists q'. split; [unfold uv__run_watchers; by rewrite (prog_bind_done _ _ _ _ _ (on_queues_run _ s _ _ E1)) |].
  apply (Inv_same_lists (to_local (upd_w w None (g_local G')) G')); [.. | by apply Inv_forget]; try (by rewrite EG).
  - intros w'. cbn. destruct (decide (w' = w)) as [-> | Hw]; [rewrite Em |].
    + unfold moved. cbn. by rewrite upd_w_eq.
    + destruct (Eo w' Hw) as [-> _]. unfold moved. cbn. by rewrite upd_w_ne.
  - intros w'. cbn. unfold upd_w at 1. destruct (decide (w' = w)) as [-> | Hw]; [done |].
    destruct (Eo w' Hw) as [_ ->]. unfold moved. cbn. by rewrite upd_w_ne.
Qed.

(** ** Timers *)

Lemma StronglySorted_in {A} (R R' : A -> A -> Prop) l :
  (forall x y, x ∈ l -> y ∈ l -> R x y -> R' x y) -> StronglySorted R l -> StronglySorted R' l.
Proof.
  intros HR Hs. induction Hs as [| x l Hs IH Hx]; constructor.
  - apply IH. set_solver.
  - rewrite Forall_forall in Hx |- *. intros y Hy. apply HR; [by left | by right | by apply Hx].
Qed.

(** What [uv__run_timers] leaves: the timers of [l] were called in this order, and
    each is stopped, or started again when it repeats. *)
Record ran_timers (l : list addr) s s' : Prop := {
  ran_world : l_world s' = foldl (invoke h_cb (l_handles s)) (l_world s) l;
  ran_others a : a ∉ l -> l_handles s' !! a = l_handles s !! a;
  ran_fired a : a ∈ l -> exists h id, l_handles s !! a = Some h /\ l_handles s' !! a = Some (fired (l_time s) id h);
  ran_time : l_time s' = l_time s;
  ran_queues : l_queues s' = l_queues s;
}.

Lemma uv__run_timers_quiet fuel G s :
  Inv G s -> l_time s < UINT64_MAX -> (size (due G s) <= fuel)%nat ->
  exists s' G' l, uv__run_timers callback fuel s = (Done tt, s') /\ Inv G' s' /\ due G' s' = ∅ /\
    NoDup l /\ list_to_set l = due G s /\
    StronglySorted (fun a b => timer_less_than (l_handles s) b a = false) l /\ ran_timers l s s' /\ later G G'.
Proof.
  revert G s. induction fuel as [| fuel IH]; intros G s Hi Htm Hf; cbn [uv__run_timers];
    destruct (Inv_min G s Hi) as [Em Hm]; rewrite (prog_bind_done _ _ _ _ _ Em);
    (destruct (h_min (l_timer_heap s)) as [a |] eqn:Er;
      [| exists s, G, []; rewrite (due_none G s Hi) by (by rewrite Er); split_and!; try done;
         first [by constructor | by split; try done; set_solver]]);
    destruct Hm as ([Hag Hleast] & h & Hh & Ht & Ha);
    rewrite (prog_bind_done _ _ _ _ _ (get_handle_run _ _ _ Hh)), getS_bind;
    assert (timer_key (l_handles s) a = (h_timeout h, h_start_id h)) as Hk by (unfold timer_key; by rewrite Hh);
    (destruct (Z.ltb_spec (l_time s) (h_timeout h));
      [exists s, G, []; rewrite (due_none G s Hi) by (by rewrite Er, Hk); split_and!; try done;
         first [by constructor | by split; try done; set_solver] |]);
    assert (a ∈ due G s) as Had by (rewrite elem_of_due, Hk; done).
  { assert (size (due G s) = 0)%nat as E0 by lia. apply size_empty_inv in E0. set_solver. }
  destruct (fire_step G s a h Hi Hh Ht Ha) as (hp & n & E & Hi1). set (h' := fired _ _ _) in *. set (s1 := with_hs _ _) in E, Hi1.
  destruct (h_cb h) as [c |] eqn:Ec;
    [| by destruct (ok_active _ (Inv_handle_ok _ _ _ _ Hi Hh) Ha); [by rewrite Ht |]].
  set (G1 := if decide (h_repeat h = 0) then without_timer a G else with_timer a G) in Hi1.
  set (s2 := set_world (effect c a (l_world s1)) s1).
  assert (due G1 s2 = due G s ∖ {[a]}) as Hdue.
  { apply (due_fired G s s2 a h (l_timer_counter s)); try done; [| split; [apply Hi | done]].
    by apply (ok_timer _ (Inv_handle_ok _ _ _ _ Hi Hh)). }
  assert (size (due G1 s2) < size (due G s))%nat as Hsz.
  { rewrite Hdue. apply subset_size. set_solver. }
  destruct (IH G1 s2 (Inv_world _ _ _ Hi1) Htm ltac:(lia)) as (s3 & G3 & l & E3 & Hi3 & Hd3 & Hnd & Hl & Hs & Hr & Hlat).
  assert (forall b, b ∈ l -> b <> a /\ b ∈ g_timers G) as Hb.
  { intros b Hb. assert (b ∈ due G s ∖ {[a]}) as Hb' by (rewrite <- Hdue, <- Hl; by apply elem_of_list_to_set).
    rewrite elem_of_difference, elem_of_due in Hb'. set_solver. }
  exists s3, G3, (a :: l). split_and!; try done.
  - rewrite <- prog_bind_assoc, (prog_bind_done _ _ _ _ _ E).
    rewrite (prog_bind_done _ _ _ _ _ (get_handle_run s1 a _ (lookup_insert_eq _ _ _))).
    unfold h'. rewrite h_cb_fired, Ec. cbn [run_cb]. by rewrite (prog_bind_done _ _ _ _ _ (callback_run c a s1)).
  - apply NoDup_cons. split; [| done]. intros Hin. by destruct (Hb a Hin).
  - rewrite list_to_set_cons, Hl, Hdue. apply set_eq. intros b. destruct (decide (b = a)) as [-> |]; set_solver.
  - constructor; [| apply Forall_forall; intros b Hin; apply Hleast; by apply Hb].
    revert Hs. apply StronglySorted_in. intros b b' H1 H2. rewrite (timer_less_than_ext (l_handles s)); [done | |];
      apply timer_key_ne; by apply Hb.
  - destruct Hr as [R1 R2 R3 R4 R5]. split; [| | | done | done].
    + rewrite R1. cbn [foldl]. rewrite (invoke_some h_cb _ _ a h c Hh Ec). apply foldl_invoke_ext.
      intros b Hin. cbn. rewrite lookup_insert_ne; [done |]. intros <-. by destruct (Hb a Hin).
    + intros b Hin%not_elem_of_cons. rewrite R2 by apply Hin. cbn. apply lookup_insert_ne. naive_solver.
    + intros b [-> | Hin]%elem_of_cons.
      * exists h, (l_timer_counter s). split; [done |]. rewrite R2 by (intros Hin; by destruct (Hb a Hin)). apply lookup_insert_eq.
      * destruct (R3 b Hin) as (hb & id & H1 & H2). exists hb, id. split; [| done].
        cbn in H1. rewrite lookup_insert_ne in H1; [done |]. intros <-. by destruct (Hb a Hin).
  - transitivity G1; [| done]. unfold G1. by apply later_same; case_decide.
Qed.

(** ** Closing *)

Section Closing.
Variable uv__other_finish : addr -> prog (uv_loop_t W) bool.

(** A handle of which the close is finished. *)
Definition closed (h : uv_handle_t) : uv_handle_t := clear_flag UV_HANDLE_REF (set_flag UV_HANDLE_CLOSED h).

(** The handles of [l] were finished in this order. *)
Record ran_closes (l : list addr) s s' : Prop := {
  closes_world : l_world s' = foldl (invoke h_close_cb (l_handles s)) (l_world s) l;
  closes_others a : a ∉ l -> l_handles s' !! a = l_handles s !! a;
  closes_closed a : a ∈ l -> exists h, l_handles s !! a = Some h /\ l_handles s' !! a = Some (closed h);
  closes_active : l_active_handles s' = l_active_handles s;
  closes_pending : l_closing_handles s' = l_closing_handles s;
  closes_time : l_time s' = l_time s;
}.

Lemma counted_closing h : handle_ok h -> has_flag UV_HANDLE_CLOSING h = true -> counted (closed h) = counted h.
Proof.
  intros Hok Hc. destruct (ok_closing _ Hok Hc) as [Ha _]. unfold counted, closed.
  destruct (finished_handle h Hc) as (_ & _ & ->). by rewrite Ha.
Qed.

Lemma finish_close_quiet G s a l :
  Inv G s -> g_finishing G = a :: l ->
  exists h s', l_handles s !! a = Some h /\ h_next_closing h = head l /\ Inv (finished a G) s' /\
    uv__finish_close uv__other_finish callback a s = (Done tt, s') /\
    l_world s' = invoke h_close_cb (l_handles s) (l_world s) a /\ l_handles s' = <[a := closed h]> (l_handles s) /\
    l_active_handles s' = l_active_handles s /\ l_closing_handles s' = l_closing_handles s /\ l_time s' = l_time s.
Proof.
  intros Hi Hl. destruct (finish_step callback callback_keeps uv__other_finish G s a l Hi Hl) as (h & q' & Hh & Hn & Hi1 & E).
  fold (closed h) in Hi1, E. set (s1 := set_queues _ _) in Hi1, E.
  assert (l_active_handles s1 = l_active_handles s) as Ea.
  { cbn. rewrite (count_same _ _ h); [symmetry; apply Hi | done |]. apply counted_closing; [exact (Inv_handle_ok _ _ _ _ Hi Hh) |].
    pose proof (inv_handles _ _ Hi a) as Hin. rewrite Hh in Hin. apply Hin. unfold closings. rewrite Hl. set_solver. }
  destruct (h_close_cb h) as [c |] eqn:Ec.
  - exists h, (set_world (effect c a (l_world s1)) s1). split_and!; try done; [by apply Inv_world | rewrite E; apply callback_run |].
    by rewrite (invoke_some h_close_cb _ _ a h c).
  - exists h, s1. split_and!; try done. unfold invoke. rewrite Hh. cbn. by rewrite Ec.
Qed.

Lemma finish_all_quiet fuel G s l :
  Inv G s -> g_finishing G = l -> (length l <= fuel)%nat ->
  exists s' G', finish_all uv__other_finish callback fuel (head l) s = (Done tt, s') /\ Inv G' s' /\
    g_finishing G' = [] /\ g_closing G' = g_closing G /\ g_local G' = g_local G /\
    shrinks (g_lhq G) (g_lhq G') /\ g_lpending G' = g_lpending G /\ ran_closes l s s'.
Proof.
  revert G s l. induction fuel as [| fuel IH]; intros G s l Hi Hl Hf;
    (destruct l as [| a l]; [| try (simpl in Hf; lia)]); cbn [finish_all head].
  1, 2: exists s, G; split_and!; try done; by split; try done; set_solver.
  destruct (finish_close_quiet G s a l Hi Hl) as (h & s1 & Hh & Hn & Hi1 & E & Ew & Eh & Ea & Ec & Et).
  rewrite (prog_bind_done _ _ _ _ _ (get_handle_run _ _ _ Hh)), Hn, (prog_bind_done _ _ _ _ _ E).
  destruct (IH (finished a G) s1 l) as (s2 & G2 & E2 & Hi2 & Hf2 & Hc2 & Hl2 & Hq2 & Hp2 & R); [done | cbn; by rewrite Hl | simpl in Hf; lia |].
  assert (a ∉ l) as Hal.
  { pose proof (nodup_closings _ (inv_ok _ _ Hi)) as Hnd. unfold closings in Hnd. rewrite Hl in Hnd.
    apply NoDup_mid in Hnd as [Hnd _]. set_solver. }
  exists s2, G2. split_and!; try done.
  { transitivity (g_lhq (finished a G)); [apply shrinks_rm | done]. }
  destruct R as [R1 R2 R3 R4 R5 R6].
  split; [| | | congruence..].
  - rewrite R1. cbn [foldl]. rewrite <- Ew. apply foldl_invoke_ext. intros b Hb. rewrite Eh, lookup_insert_ne; [done |].
    by intros <-.
  - intros b [Hb Hb']%not_elem_of_cons. rewrite R2, Eh by done. by apply lookup_insert_ne.
  - intros b [-> | Hb]%elem_of_cons.
    + exists h. split; [done |]. rewrite R2, Eh by done. apply lookup_insert_eq.
    + destruct (R3 b Hb) as (hb & H1 & H2). exists hb. split; [| done]. rewrite Eh, lookup_insert_ne in H1; [done |].
      by intros <-.
Qed.

(** Every handle that waits is closed once, the last one to be closed first. *)
Lemma uv__run_closing_quiet fuel G s :
  Inv G s -> g_finishing G = [] -> (size (l_handles s) <= fuel)%nat ->
  exists s' G', uv__run_closing_handles uv__other_finish callback fuel s = (Done tt, s') /\ Inv G' s' /\
    g_finishing G' = [] /\ g_closing G' = [] /\ g_local G' = g_local G /\ shrinks (g_lhq G) (g_lhq G') /\
    g_lpending G' = g_lpending G /\ ran_closes (g_closing G) (set_closing_handles None s) s'.
Proof.
  intros Hi Hno Hf.
  destruct (finish_all_quiet fuel _ _ (g_closing G) (Inv_take_closing G s Hi Hno) eq_refl)
    as (s2 & G2 & E & Hrest); [etransitivity; [by apply (closing_size G s) | done] |].
  exists s2, G2. split; [| exact Hrest]. unfold uv__run_closing_handles. rewrite getS_bind.
  rewrite (prog_bind_done _ _ s tt (set_closing_handles None s)) by done.
  by rewrite (chain_head _ _ _ (inv_closing _ _ Hi)).
Qed.
End Closing.
End Phases.
