(* ===== verification/LoopSpec.v ===== *)
(** * The event loop of libuv: what it promises

    The theorems on the loop as a whole: for programs made of any client code that
    calls the interface of the loop, and for each phase of an iteration. *)

From Stdlib Require Import ZArith Lia.
From stdpp Require Import gmap sorting.
From S2P Require Import Prelude UvErrno Heap HeapSpec HeapRefine Queue Loop LoopInv LoopOps LoopRun LoopPhases.

Section Spec.
Context {W : Type}.
Implicit Types (s : uv_loop_t W) (G : contents).

(** ** Consistent states *)

(** What the flags of the handles say, and what the structures of the loop hold. *)
Record consistent s : Prop := {
  con_timers : exists X, heap_of (timer_less_than (l_handles s)) X (l_timer_heap s) /\
    forall a, a ∈ X <-> exists h, l_handles s !! a = Some h /\ h_type h = UV_TIMER /\ uv__is_active h = true;
  con_watchers w : exists l, ring (Handles w) (QueueOf <$> l) (l_queues s) /\ NoDup l /\
    forall a, a ∈ l <-> exists h, l_handles s !! a = Some h /\ h_type h = watcher_type w /\ uv__is_active h = true;
  con_handles : exists l, ring HandleQueue (HandleQueueOf <$> l) (l_queues s) /\ NoDup l /\
    forall a, a ∈ l <-> exists h, l_handles s !! a = Some h /\ has_flag UV_HANDLE_CLOSED h = false;
  con_closing : exists l, closing_chain (l_handles s) (l_closing_handles s) l /\ NoDup l /\
    forall a, a ∈ l <-> exists h, l_handles s !! a = Some h /\
      has_flag UV_HANDLE_CLOSING h = true /\ has_flag UV_HANDLE_CLOSED h = false;
  con_count : l_active_handles s
    = Z.of_nat (size (filter (fun p : addr * uv_handle_t => uv__is_active p.2 && uv__has_ref p.2 = true) (l_handles s)));
}.

Lemma handle_in_iff G s (P : uv_handle_t -> Prop) (In : addr -> Prop) :
  (forall a, match l_handles s !! a with Some h => In a <-> P h | None => ~ In a end) ->
  forall a, In a <-> exists h, l_handles s !! a = Some h /\ P h.
Proof.
  intros Hin a. specialize (Hin a). destruct (l_handles s !! a) as [h |].
  - rewrite Hin. split; [by exists h | by intros (? & [= ->] & ?)].
  - split; [done | by intros (? & ? & ?)].
Qed.

(** The loop is between two calls or iterations, and its invariant holds. *)
Definition sound s : Prop := exists G, Inv G s /\ idle G.

Lemma Inv_consistent G s : Inv G s -> idle G -> consistent s.
Proof.
  intros Hi [Hl Hq Hp Hf]. pose proof (inv_ok _ _ Hi) as Hok. pose proof (inv_handles _ _ Hi) as Hin. split.
  - exists (g_timers G). split; [apply Hi |]. apply (handle_in_iff G). intros a. specialize (Hin a).
    destruct (l_handles s !! a); [apply Hin | by destruct Hin].
  - intros w. exists (g_main G w). assert (watched G w = g_main G w) as Ew by (unfold watched; by rewrite Hl, app_nil_r).
    split; [apply Hi | rewrite <- Ew; split; [apply Hok |]]. apply (handle_in_iff G). intros a. specialize (Hin a).
    destruct (l_handles s !! a); [apply Hin | by destruct Hin as (_ & Hw & _); apply Hw].
  - exists (g_hq G). assert (queued G = g_hq G) as Eq by (unfold queued; by rewrite Hq, app_nil_r).
    split; [apply Hi | rewrite <- Eq; split; [apply Hok |]]. apply (handle_in_iff G). intros a. specialize (Hin a).
    destruct (l_handles s !! a); [apply Hin | apply Hin].
  - exists (g_closing G). assert (closings G = g_closing G) as Ec by (unfold closings; by rewrite Hf, app_nil_r).
    split; [apply Hi | rewrite <- Ec; split; [apply Hok |]]. apply (handle_in_iff G). intros a. specialize (Hin a).
    destruct (l_handles s !! a); [apply Hin | apply Hin].
  - apply Hi.
Qed.

(** Something keeps the loop alive. *)
Definition alive s : Prop :=
  (exists a h, l_handles s !! a = Some h /\ uv__is_active h = true /\ uv__has_ref h = true) \/
  0 < l_active_reqs s \/ (exists a h, l_handles s !! a = Some h /\
     has_flag UV_HANDLE_CLOSING h = true /\ has_flag UV_HANDLE_CLOSED h = false).

Lemma alive_spec s : consistent s -> exists b, uv__loop_alive s = (Done b, s) /\ (b = true <-> alive s).
Proof.
  intros [_ _ _ (l & Hch & _ & Hl) Hc]. eexists. split; [done |].
  rewrite !orb_true_iff. unfold uv__has_active_handles, uv__has_active_reqs, alive. rewrite !Z.ltb_lt, bool_decide_eq_true.
  assert (0 < l_active_handles s
    <-> exists a h, l_handles s !! a = Some h /\ uv__is_active h = true /\ uv__has_ref h = true) as ->.
  { rewrite Hc. set (m := filter _ _). split.
    - intros Hs. destruct (map_choose m) as (a & h & Ha); [intros Em; rewrite Em, map_size_empty in Hs; lia |].
      apply map_lookup_filter_Some in Ha as [Ha Hb]. exists a, h. by apply andb_true_iff in Hb.
    - intros (a & h & Ha & H1 & H2). assert (m !! a = Some h) as Hm
        by (apply map_lookup_filter_Some; cbn; by rewrite H1, H2).
      assert (size m <> 0%nat); [| lia]. intros Em%map_size_empty_inv. by rewrite Em in Hm. }
  assert (l_closing_handles s <> None <-> exists a h, l_handles s !! a = Some h /\
    has_flag UV_HANDLE_CLOSING h = true /\ has_flag UV_HANDLE_CLOSED h = false) as ->; [| tauto].
  destruct l as [| a l]; cbn in Hch.
  - rewrite Hch. split; [done |]. intros (a & h & Ha). destruct (not_elem_of_nil a). apply Hl. eauto.
  - destruct Hch as (-> & _). split; [intros _ | done]. destruct (proj1 (Hl a)) as (h & ?); [by left | eauto].
Qed.

(** ** Programs *)

(** Client code: it looks at the loop and at its own state, changes its own state, and
    calls the interface of the loop. *)
Inductive client : Type :=
  | Return
  | Look (k : uv_loop_t W -> client)
  | SetWorld (w : W) (k : client)
  | Call (c : api_call) (k : client).

Section Other.
Variable uv__other_close : addr -> prog (uv_loop_t W) unit.

(** A call whose documented precondition does not hold is not made. *)
Fixpoint run_client (p : client) : prog (uv_loop_t W) unit :=
  match p with
  | Return => mret tt
  | Look k => s ← getS; run_client (k s)
  | SetWorld w k => _ ← modifyS (set_world w); run_client k
  | Call c k =>
      s ← getS;
      _ ← (if api_allowed c s then run_api uv__other_close c else mret tt);
      run_client k
  end.

Lemma run_client_keeps p : Keeps (run_client p).
Proof.
  induction p as [| k IH | w p IH | c p IH]; cbn [run_client].
  - apply Keeps_ret.
  - intros G s Hi. by apply (IH s G s).
  - apply Keeps_bind; [| done]. intros G s Hi. eexists _, _, G. split; [done |]. split; [done |]. by destruct Hi.
  - intros G s Hi. rewrite getS_bind. revert Hi. destruct (api_allowed c s) eqn:Ec; intros Hi.
    + destruct (api_keeps uv__other_close c G s Hi Ec) as (s1 & G1 & E & Hl & Hi1).
      rewrite (prog_bind_done _ _ _ _ _ E). destruct (IH G1 s1 Hi1) as (r & s2 & G2 & E2 & Hl2 & Hi2).
      exists r, s2, G2. split; [done |]. split; [by transitivity G1 | done].
    + by apply IH.
Qed.

(** ** Reachable states *)

Definition empty : contents := mk_contents ∅ (fun _ => []) (fun _ => None) [] None [] None [] [].

(** The state [uv_loop_init] leaves. *)
Definition self_linked (m : gmap node node) : gmap node node :=
  <[PendingQueue := PendingQueue]> (<[HandleQueue := HandleQueue]> (<[Handles Prepare := Handles Prepare]>
    (<[Handles Check_ := Handles Check_]> (<[Handles Idle := Handles Idle]> m)))).

Definition initial (hrtime : nat -> Z) s0 : uv_loop_t W :=
  mk_loop (u64 (hrtime (l_ticks s0) / 1000000)) 0 0 0 0 None (heap_init (l_timer_heap s0)).2
    (mk_qmem (self_linked (q_next (l_queues s0))) (self_linked (q_prev (l_queues s0))))
    (l_handles s0) (S (l_ticks s0)) (l_world s0).

Lemma uv_loop_init_run hrtime s0 : uv_loop_init hrtime s0 = (Done tt, initial hrtime s0).
Proof. reflexivity. Qed.

Lemma self_linked_ring m m' h :
  h ∈ [PendingQueue; HandleQueue; Handles Prepare; Handles Check_; Handles Idle] ->
  ring h [] (mk_qmem (self_linked m) (self_linked m')).
Proof.
  intros Hh. split; [apply NoDup_singleton |].
  assert (forall m, self_linked m !! h = Some h) as Hl; [| by split; cbn].
  clear m m'. intros m. unfold self_linked. rewrite !elem_of_cons in Hh.
  destruct_or?; try (by apply not_elem_of_nil in Hh); subst h;
    repeat (rewrite lookup_insert_ne by done); by rewrite lookup_insert_eq.
Qed.

Lemma initial_Inv hrtime s0 : l_handles s0 = ∅ -> Inv empty (initial hrtime s0).
Proof.
  intros Hno. unfold initial. rewrite Hno. split.
  - by split; cbn; try constructor.
  - apply heap_of_init.
  - split; try done; cbn [g_main g_hq g_pending empty fmap list_fmap l_queues]; [intros w | |]; apply self_linked_ring;
      [destruct w | |]; set_solver.
  - done.
  - done.
  - intros a. cbn [l_handles]. rewrite lookup_empty. unfold handle_in, watched, queued, closings. cbn.
    split_and!; [set_solver | intros w; set_solver..].
  - done.
  - done.
  - apply Z.mod_pos_bound. lia.
Qed.

Section System.
Variable uv__other_finish : addr -> prog (uv_loop_t W) bool.
(** The code behind each function pointer, and behind each I/O watcher. *)
Variable code : cb -> addr -> client.
Variable io_code : addr -> client.
Variable uv__hrtime : nat -> Z.
Variable uv__io_poll : Z -> prog (uv_loop_t W) unit.
Variable fuel : nat.

Abbreviation callback := (fun c a => run_client (code c a)).
Abbreviation io_callback := (fun a => run_client (io_code a)).
Abbreviation run_the_loop := (uv_run uv__other_finish callback io_callback uv__hrtime uv__io_poll fuel).

(** The states of a program that initialises the loop, calls its interface and runs it. *)
Inductive reach : uv_loop_t W -> Prop :=
  | reach_init s0 s : l_handles s0 = ∅ -> uv_loop_init uv__hrtime s0 = (Done tt, s) -> reach s
  | reach_client p s s' : reach s -> run_client p s = (Done tt, s') -> reach s'
  | reach_run mode s r s' : reach s -> run_the_loop mode s = (Done r, s') -> reach s'.

(** Polling calls the I/O callbacks of the client, and leaves the loop consistent. *)
Hypothesis io_poll_keeps : forall t, Keeps (uv__io_poll t).
Hypothesis enough_fuel : max_handles <= Z.of_nat fuel.

Lemma the_loop_safely mode : SafelyIdle (run_the_loop mode).
Proof. apply uv_run_safely; auto using run_client_keeps. Qed.

Lemma reach_sound s : reach s -> sound s.
Proof.
  induction 1 as [s0 s Hno E | p s s' _ (G & Hi & Hid) E | mode s r s' _ (G & Hi & Hid) E].
  - rewrite uv_loop_init_run in E. injection E as <-. exists empty. split; [by apply initial_Inv | done].
  - destruct (run_client_keeps p G s Hi) as (r & s1 & G1 & E1 & Hl & Hi1). rewrite E in E1. injection E1 as _ <-.
    exists G1.
    split; [done | by eapply idle_later].
  - pose proof (the_loop_safely mode G s Hi Hid) as Hs. rewrite E in Hs. destruct Hs as (G' & ? & ?). by exists G'.
Qed.

(** C22: the event loop keeps its state consistent.  A program initialises the loop,
    calls its interface as documented and runs it; its callbacks do the same, at any
    point of any phase.  In every state between two such steps the heap holds exactly
    the active timers, each watcher queue the active watchers of its type, the handle
    queue the handles that are not closed, the closing list those that are closing,
    each once; [active_handles] is the number of handles that are active and
    referenced, and [uv__loop_alive] says whether there is one, or a request, or a
    close to finish. *)
Theorem loop_invariant s (Hr : reach s) :
  consistent s /\ exists b, uv__loop_alive s = (Done b, s) /\ (b = true <-> alive s).
Proof.
  destruct (reach_sound s Hr) as (G & Hi & Hid). pose proof (Inv_consistent G s Hi Hid) as Hc.
  split; [done | by apply alive_spec].
Qed.

(** C23: no assertion of the event loop fails, and no dangling pointer is followed.
    From every state of a program, any client code that calls the interface returns in
    a consistent state; so do the watcher phases and the closing phase, whatever their
    callbacks start, stop and close; [uv_run] either returns or goes on forever. *)
Theorem loop_safe s (Hr : reach s) :
  (forall p, exists s', run_client p s = (Done tt, s') /\ consistent s') /\
  (forall w, exists s', uv__run_watchers callback fuel w s = (Done tt, s') /\ consistent s') /\
  (exists s', uv__run_closing_handles uv__other_finish callback fuel s = (Done tt, s') /\ consistent s') /\
  (forall mode, match run_the_loop mode s with
                | (Done _, s') => consistent s'
                | (NoFuel, _) => True
                | _ => False
                end).
Proof.
  destruct (reach_sound s Hr) as (G & Hi & Hid). assert (forall c a, Keeps (callback c a)) as Hcb
    by (intros c a; apply run_client_keeps). split_and!.
  - intros p. destruct (run_client_keeps p G s Hi) as ([] & s' & G' & E & Hl & Hi'). exists s'. split; [done |].
    apply (Inv_consistent G'); [done | by eapply idle_later].
  - intros w. pose proof (idle_local _ Hid w) as Hno.
    destruct (uv__run_watchers_keeps _ Hcb fuel w G s Hi Hno enough_fuel) as (s' & G' & E & Hl & Hi'). exists s'.
    split; [done |]. apply (Inv_consistent G'); [done | by eapply idle_later].
  - destruct (uv__run_closing_keeps _ Hcb uv__other_finish fuel G s Hi (idle_finishing _ Hid) enough_fuel)
      as (s' & G' & E & Hi' & Hl). exists s'. split; [done |]. apply (Inv_consistent G'); [done |].
    by apply (idle_shrinks G).
  - intros mode. pose proof (the_loop_safely mode G s Hi Hid) as Hs. destruct (run_the_loop mode s) as [[] s']; try done.
    destruct Hs as (G' & Hid' & Hi'). by apply (Inv_consistent G').
Qed.
End System.
End Other.
End Spec.
Arguments client W : clear implicits.

(** ** The phases *)

Section PhaseTheorems.
Context {W : Type}.
Implicit Types (s : uv_loop_t W).

Definition is_timer s (a : addr) (h : uv_handle_t) : Prop :=
  l_handles s !! a = Some h /\ h_type h = UV_TIMER /\ uv__is_active h = true.

Lemma timers_are G s a : Inv G s -> a ∈ g_timers G <-> exists h, is_timer s a h.
Proof.
  intros Hi. pose proof (inv_handles _ _ Hi a) as Hin. unfold is_timer. destruct (l_handles s !! a) as [h |].
  - destruct Hin as (_ & -> & _). split; [by exists h | by intros (? & [= ->] & ?)].
  - split; [by destruct Hin | by intros (? & ? & _)].
Qed.

(** A timer of which the time has come. *)
Definition is_due s (a : addr) : Prop := exists h, is_timer s a h /\ h_timeout h <= l_time s.

Lemma due_is_due G s a : Inv G s -> a ∈ due G s <-> is_due s a.
Proof.
  intros Hi. rewrite elem_of_due, (timers_are G s a Hi). unfold is_due, is_timer, timer_key. split.
  - intros [(h & Hh & Hr) Hk]. exists h. by rewrite Hh in Hk.
  - intros (h & (Hh & Hr) & Hk). rewrite Hh. split; [by exists h | done].
Qed.

Lemma due_size G s : Inv G s -> (size (due G s) <= size (l_handles s))%nat.
Proof.
  intros Hi. rewrite <- size_dom. apply subseteq_size.
  intros a (h & (Hh & _) & _)%(due_is_due G s _ Hi). by apply elem_of_dom.
Qed.

Section Callbacks.
Variable uv__other_close : addr -> prog (uv_loop_t W) unit.
(** The client code that each callback runs. *)
Variable code : cb -> addr -> @client W.

Abbreviation callback := (fun c a => run_client uv__other_close (code c a)).

(** A run of [uv__run_timers] that calls the timers of [l]: each of them is, when its turn
    comes, the least of the active timers and due; it is stopped, or started again when it
    repeats, and then its callback runs; in the end no timer is due. *)
Inductive firings : uv_loop_t W -> list addr -> uv_loop_t W -> Prop :=
  | firings_end s : (forall a, ~ is_due s a) -> firings s [] s
  | firings_fire s a h c s1 s2 l s3 :
      is_timer s a h -> h_timeout h <= l_time s -> h_cb h = Some c ->
      (forall b hb, is_timer s b hb -> timer_less_than (l_handles s) b a = false) ->
      (_ ← uv_timer_stop a; uv_timer_again a) s = (Done 0, s1) ->
      l_handles s1 = <[a := fired (l_time s) (l_timer_counter s) h]> (l_handles s) ->
      callback c a s1 = (Done tt, s2) -> firings s2 l s3 -> firings s (a :: l) s3.

(** Callbacks that do not change the time of the loop and make no timer due. *)
Definition calm : Prop := forall c a s s', sound s -> l_time s < UINT64_MAX ->
  callback c a s = (Done tt, s') -> l_time s' = l_time s /\ forall b, is_due s' b -> is_due s b.

(** Callbacks that change the state of the client only. *)
Definition quiet (effect : cb -> addr -> W -> W) : Prop := forall c a s,
  callback c a s = (Done tt, set_world (effect c a (l_world s)) s).

(** The state in which the callback of the least timer runs, if one is due. *)
Lemma timers_round G s fuel :
  Inv G s -> idle G ->
  ((forall a, ~ is_due s a) /\ uv__run_timers callback fuel s = (Done tt, s)) \/
  exists a h c s1 G1 s2 G2, is_timer s a h /\ h_timeout h <= l_time s /\ h_cb h = Some c /\
    (forall b hb, is_timer s b hb -> timer_less_than (l_handles s) b a = false) /\
    (_ ← uv_timer_stop a; uv_timer_again a) s = (Done 0, s1) /\
    l_handles s1 = <[a := fired (l_time s) (l_timer_counter s) h]> (l_handles s) /\ l_time s1 = l_time s /\
    Inv G1 s1 /\ idle G1 /\ (l_time s < UINT64_MAX -> due G1 s1 = due G s ∖ {[a]}) /\
    callback c a s1 = (Done tt, s2) /\ Inv G2 s2 /\ idle G2 /\
    uv__run_timers callback fuel s
    = match fuel with O => (NoFuel, s) | S fuel => uv__run_timers callback fuel s2 end.
Proof.
  intros Hi Hid. destruct (Inv_min G s Hi) as [Em Hm].
  assert (uv__run_timers callback fuel s = match h_min (l_timer_heap s) with
    | None => (Done tt, s)
    | Some a => (h ← get_handle a; s ← getS;
        if l_time s <? h_timeout h then mret tt else
        match fuel with
        | O => nofuel
        | S fuel => _ ← uv_timer_stop a; _ ← uv_timer_again a; h ← get_handle a; _ ← run_cb callback (h_cb h) a;
                    uv__run_timers callback fuel
        end) s
    end) as Hrun.
  { destruct fuel; cbn [uv__run_timers]; rewrite (prog_bind_done _ _ _ _ _ Em); by destruct (h_min _). }
  assert (match h_min (l_timer_heap s) with
          | Some a => l_time s < (timer_key (l_handles s) a).1 | None => True end ->
          forall a, ~ is_due s a) as Hnone.
  { intros Hk a Ha%(due_is_due G s a Hi). rewrite (due_none G s Hi Hk) in Ha. set_solver. }
  destruct (h_min (l_timer_heap s)) as [a |]; [| left; split; [by apply Hnone | done]].
  destruct Hm as ([Hag Hleast] & h & Hh & Ht & Ha).
  assert (timer_key (l_handles s) a = (h_timeout h, h_start_id h)) as Hk by (unfold timer_key; by rewrite Hh).
  rewrite (prog_bind_done _ _ _ _ _ (get_handle_run _ _ _ Hh)), getS_bind in Hrun.
  destruct (Z.ltb_spec (l_time s) (h_timeout h)) as [Hlt | Hle].
  { left. split; [apply Hnone; by rewrite Hk | done]. }
  right. destruct (fire_step G s a h Hi Hh Ht Ha) as (hp & n & E & Hi1).
  set (G1 := if decide (h_repeat h = 0) then without_timer a G else with_timer a G) in Hi1.
  set (s1 := with_hs _ _) in E, Hi1.
  destruct (h_cb h) as [c |] eqn:Ec;
    [| by destruct (ok_active _ (Inv_handle_ok _ _ _ _ Hi Hh) Ha); [by rewrite Ht |]].
  destruct (run_client_keeps uv__other_close (code c a) G1 s1 Hi1) as ([] & s2 & G2 & E2 & Hlat & Hi2).
  assert (idle G1) as Hid1.
  { eapply idle_later; [| exact Hid]. unfold G1. by apply later_same; case_decide. }
  exists a, h, c, s1, G1, s2, G2. split_and!; try done.
  - intros b hb Hb. apply Hleast. apply (timers_are G s b Hi). by exists hb.
  - intros Htm. apply (due_fired G s s1 a h (l_timer_counter s)); try done; [| | split; [apply Hi | done]].
    + apply elem_of_due. by rewrite Hk.
    + by apply (ok_timer _ (Inv_handle_ok _ _ _ _ Hi Hh)).
  - by eapply idle_later.
  - rewrite Hrun. destruct fuel as [| fuel]; [done |].
    rewrite <- prog_bind_assoc, (prog_bind_done _ _ _ _ _ E).
    rewrite (prog_bind_done _ _ _ _ _ (get_handle_run s1 a _ (lookup_insert_eq _ _ _))), h_cb_fired, Ec.
    cbn [run_cb]. by rewrite (prog_bind_done _ _ _ _ _ E2).
Qed.

Lemma run_timers_firings fuel G s :
  Inv G s -> idle G ->
  match uv__run_timers callback fuel s with
  | (Done _, s') => sound s' /\ exists l, firings s l s'
  | (NoFuel, _) => True
  | _ => False
  end.
Proof.
  revert G s. induction fuel as [| fuel IH]; intros G s Hi Hid;
    (edestruct (timers_round G s) as [[Hno ->] | (a & h & c & s1 & G1 & s2 & G2 & Ht & Hle & Hc & Hmin & E & Eh & _
      & _ & _ & _ & E2 & Hi2 & Hid2 & ->)]; [done.. | |]); try done.
  1, 2: split; [by exists G | exists []; by constructor].
  specialize (IH G2 s2 Hi2 Hid2). destruct (uv__run_timers callback fuel s2) as [[] s']; try done.
  destruct IH as [Hs' [l Hl]]. split; [done |]. exists (a :: l). by econstructor.
Qed.

(** Each timer fires once at most, and the run ends. *)
Lemma run_timers_calm fuel G s :
  calm -> Inv G s -> idle G -> l_time s < UINT64_MAX -> (size (due G s) <= fuel)%nat ->
  exists l s', uv__run_timers callback fuel s = (Done tt, s') /\ sound s' /\ firings s l s' /\
    NoDup l /\ forall a, a ∈ l -> is_due s a.
Proof.
  intros Hcalm. revert G s. induction fuel as [| fuel IH]; intros G s Hi Hid Htm Hf;
    (edestruct (timers_round G s) as [[Hno ->] | (a & h & c & s1 & G1 & s2 & G2 & Ht & Hle & Hc & Hmin & E & Eh & Et
      & Hi1 & Hid1 & Hdue & E2 & Hi2 & Hid2 & ->)]; [done.. | |]).
  1, 3: exists [], s; split_and!; [done | by exists G | by constructor | constructor | set_solver].
  all: assert (a ∈ due G s) as Had by (apply (due_is_due G s a Hi); by exists h).
  { assert (size (due G s) = 0)%nat as E0 by lia. apply size_empty_inv in E0. set_solver. }
  specialize (Hdue Htm).
  destruct (Hcalm c a s1 s2) as [Et2 Hd2]; [by exists G1 | by rewrite Et | done |].
  assert (due G2 s2 ⊆ due G s ∖ {[a]}) as Hsub.
  { rewrite <- Hdue. intros b Hb%(due_is_due G2 s2 b Hi2). by apply (due_is_due G1 s1 b Hi1), Hd2. }
  assert (size (due G2 s2) < size (due G s))%nat as Hsz.
  { eapply Nat.le_lt_trans; [by apply subseteq_size | apply subset_size; set_solver]. }
  destruct (IH G2 s2) as (l & s3 & E3 & Hs3 & Hl & Hnd & Hin); [done | done | lia | lia |].
  assert (forall b, b ∈ l -> b <> a /\ is_due s b) as Hb.
  { intros b Hb%Hin%(due_is_due G2 s2 b Hi2)%Hsub. rewrite elem_of_difference, (due_is_due G s b Hi) in Hb. set_solver. }
  exists (a :: l), s3. split_and!; [done | done | by econstructor | |].
  - apply NoDup_cons. split; [| done]. intros Hal. by destruct (Hb a Hal).
  - intros b [-> | Hbl]%elem_of_cons; [by exists h | by apply Hb].
Qed.

(** C24: [uv__run_timers], with callbacks that may call the interface of the loop as they
    please, fires timers one by one, each time the earliest of those that are active (of
    the first started when the timeouts are equal), which is due; it is stopped, or
    started again at [time + repeat] when it repeats, before its callback runs; and when
    it returns, no timer is due.  It may go on forever, as a callback may start a timer
    without delay; with callbacks that make no timer due it returns, after firing each
    timer once at most.  With callbacks that change the state of the client only, it
    fires exactly the timers that were due, in the order of their timeouts and starts,
    and leaves all other handles as they were.  ([UINT64_MAX] is 585 million years.) *)
Theorem timers_fire_in_order fuel s (Hs : sound s) :
  match uv__run_timers callback fuel s with
  | (Done _, s') => sound s' /\ exists l, firings s l s'
  | (NoFuel, _) => True
  | _ => False
  end /\
  (l_time s < UINT64_MAX -> (size (l_handles s) <= fuel)%nat ->
   (calm -> exists l s', uv__run_timers callback fuel s = (Done tt, s') /\ sound s' /\ firings s l s' /\
      NoDup l /\ forall a, a ∈ l -> is_due s a) /\
   (forall effect, quiet effect ->
      exists l s', uv__run_timers callback fuel s = (Done tt, s') /\ sound s' /\
        NoDup l /\ (forall a, a ∈ l <-> is_due s a) /\
        StronglySorted (fun a b => timer_less_than (l_handles s) b a = false) l /\
        ran_timers effect l s s' /\ forall a, ~ is_due s' a)).
Proof.
  destruct Hs as (G & Hi & Hid). split; [by eapply run_timers_firings |]. intros Htm Hf.
  pose proof (due_size G s Hi) as Hsz. split; [intros Hcalm; eapply run_timers_calm; try done; lia |].
  intros effect Hq. destruct (uv__run_timers_quiet callback effect Hq fuel G s Hi Htm)
    as (s' & G' & l & E & Hi' & Hd & Hnd & Hl & Hss & Hr & Hlat); [lia |].
  exists l, s'. split_and!; try done.
  - exists G'. split; [done | by eapply idle_later].
  - intros a. by rewrite <- (due_is_due G s a Hi), <- Hl, elem_of_list_to_set.
  - intros a Ha%(due_is_due G' s' a Hi'). rewrite Hd in Ha. set_solver.
Qed.
End Callbacks.

(** [uv__run_prepare], [uv__run_check] and [uv__run_idle] call each active watcher
    once, in the order of the queue, which is left as it was, when the callbacks change
    the state of the client only. *)
Theorem watchers_run_in_order callback effect fuel w s
    (Hq : forall c a s, callback c a s = (Done tt, set_world (effect c a (l_world s)) s))
    (Hs : sound s) (Hf : (size (l_handles s) <= fuel)%nat) :
  exists l q', let s' := set_world (foldl (invoke effect h_cb (l_handles s)) (l_world s) l) (set_queues q' s) in
    uv__run_watchers callback fuel w s = (Done tt, s') /\ sound s' /\
    ring (Handles w) (QueueOf <$> l) (l_queues s) /\ ring (Handles w) (QueueOf <$> l) q' /\ NoDup l /\
    forall a, a ∈ l <-> exists h, l_handles s !! a = Some h /\ h_type h = watcher_type w /\ uv__is_active h = true.
Proof.
  destruct Hs as (G & Hi & Hid).
  destruct (uv__run_watchers_quiet callback effect Hq fuel w G s Hi (idle_local _ Hid w) Hf) as (q' & E & Hi').
  assert (watched G w = g_main G w) as Ew by (unfold watched; by rewrite (idle_local _ Hid), app_nil_r).
  exists (g_main G w), q'. split_and!; [done | by exists G | apply Hi | apply Hi' | rewrite <- Ew; apply Hi |].
  intros a. rewrite <- Ew. pose proof (inv_handles _ _ Hi a) as Hin. destruct (l_handles s !! a) as [h |].
  - destruct Hin as (_ & _ & -> & _). split; [by exists h | by intros (? & [= ->] & ?)].
  - split; [intros Ha; by destruct (proj1 (proj2 Hin) w) | by intros (? & ? & _)].
Qed.

(** C27: [uv__run_closing_handles] finishes every close that waits, once, the latest
    first: the handle becomes closed and unreferenced, leaves the handle queue, and its
    close callback, if it has one, runs; the count of active handles does not change.
    (The callbacks change the state of the client only.) *)
Theorem closes_finish_once callback effect other_finish fuel s
    (Hq : forall c a s, callback c a s = (Done tt, set_world (effect c a (l_world s)) s))
    (Hs : sound s) (Hf : (size (l_handles s) <= fuel)%nat) :
  exists l s', closing_chain (l_handles s) (l_closing_handles s) l /\ NoDup l /\
    (forall a, a ∈ l <-> exists h, l_handles s !! a = Some h /\
       has_flag UV_HANDLE_CLOSING h = true /\ has_flag UV_HANDLE_CLOSED h = false) /\
    uv__run_closing_handles other_finish callback fuel s = (Done tt, s') /\ sound s' /\
    ran_closes effect l (set_closing_handles None s) s'.
Proof.
  destruct Hs as (G & Hi & Hid).
  destruct (uv__run_closing_quiet callback effect Hq other_finish fuel G s Hi (idle_finishing _ Hid) Hf)
    as (s' & G' & E & Hi' & Hfin & _ & Hl & Hqu & Hp & Hr).
  assert (closings G = g_closing G) as Ec by (unfold closings; by rewrite (idle_finishing _ Hid), app_nil_r).
  exists (g_closing G), s'. split_and!; [apply Hi | rewrite <- Ec; apply Hi | | done | | done].
  - rewrite <- Ec. apply (handle_in_iff G). intros a. pose proof (inv_handles _ _ Hi a) as Hin.
    destruct (l_handles s !! a); apply Hin.
  - exists G'. split; [done |]. apply (idle_shrinks G); [done |]. split_and!; try done. intros w. by rewrite Hl.
Qed.

(** C29: [uv__next_timeout] is the time to the earliest active timer, cut to what an
    [int] holds, 0 when it is already past, and -1 when there is none. *)
Theorem next_timeout_bounds s (Hs : sound s) :
  exists t, uv__next_timeout s = (Done t, s) /\
    ((t = -1 /\ forall a h, ~ is_timer s a h) \/
     (0 <= t <= INT_MAX /\
      (exists a h, is_timer s a h /\ t = Z.max 0 (Z.min INT_MAX (h_timeout h - l_time s))) /\
      forall a h, is_timer s a h -> t <= Z.max 0 (h_timeout h - l_time s))).
Proof.
  destruct Hs as (G & Hi & Hid). exists (next_timeout s). split; [by apply (next_timeout_run G) |].
  unfold next_timeout. destruct (Inv_min G s Hi) as [_ Hm]. destruct (h_min (l_timer_heap s)) as [r |].
  - right. destruct Hm as ([Hr Hmin] & h & Hh & Ht & Ha).
    assert (timer_key (l_handles s) r = (h_timeout h, h_start_id h)) as Hk by (unfold timer_key; by rewrite Hh).
    rewrite Hk. cbn [fst]. split; [unfold INT_MAX; lia |]. split; [by exists r, h |]. intros b hb Hb.
    assert (b ∈ g_timers G) as Hin by (apply (timers_are G s b Hi); eauto).
    pose proof (Hmin b Hin) as Hle. apply timer_less_than_false in Hle. destruct Hb as (Hhb & _).
    assert (timer_key (l_handles s) b = (h_timeout hb, h_start_id hb)) as Hkb by (unfold timer_key; by rewrite Hhb).
    rewrite Hk, Hkb in Hle. unfold key_lt in Hle. cbn in Hle. lia.
  - left. split; [done |]. intros a h Ha. assert (a ∈ g_timers G) as Hin by (apply (timers_are G s a Hi); eauto).
    rewrite Hm in Hin. set_solver.
Qed.

(** C28: [uv_timer_start] rejects a closing handle and a missing callback and changes
    nothing; otherwise the timer, stopped first if it ran, becomes active, due at
    [min (time + timeout) UINT64_MAX] (no wrap-around), with the given callback and
    repeat and the next start id; no other handle changes. *)
Theorem timer_start_spec s a h c timeout repeat (Hs : sound s) (Hh : l_handles s !! a = Some h)
    (Hty : h_type h = UV_TIMER) (Hto : 0 <= timeout < 2 ^ 64) (Hre : 0 <= repeat < 2 ^ 64) :
  exists r s', uv_timer_start a c timeout repeat s = (Done r, s') /\ sound s' /\
    if uv__is_closing h || bool_decide (c = None) then r = UV_EINVAL /\ s' = s
    else r = 0 /\ l_timer_counter s' = u64 (l_timer_counter s + 1) /\ l_time s' = l_time s /\
      (forall b, b <> a -> l_handles s' !! b = l_handles s !! b) /\
      exists h', is_timer s' a h' /\ h_timeout h' = Z.min (l_time s + timeout) UINT64_MAX /\ h_repeat h' = repeat /\
        h_cb h' = c /\ h_start_id h' = l_timer_counter s /\ uv__has_ref h' = uv__has_ref h.
Proof.
  destruct Hs as (G & Hi & Hid). destruct (uv__is_closing h) eqn:Hcl.
  { exists UV_EINVAL, s. split; [eapply uv_timer_start_einval; [done | by left] |]. split; [by exists G | done]. }
  destruct c as [c |].
  2: { exists UV_EINVAL, s. split; [eapply uv_timer_start_einval; [done | by right] |]. split; [by exists G | done]. }
  pose proof Hcl as Hcl'. rewrite uv__is_closing_or in Hcl'. apply orb_false_iff in Hcl' as [Hc _].
  destruct (uv_timer_start_spec G s a h c timeout repeat Hi Hh Hty Hc Hto Hre) as (hp & E & Hi').
  eexists 0, _. split; [exact E |]. split.
  { exists (with_timer a G). split; [exact Hi' |]. eapply idle_later; [by apply (later_same G) | done]. }
  rewrite bool_decide_eq_false_2 by done. cbn [orb]. split; [done |]. split; [done |]. split; [done |]. split.
  { intros b Hb. cbn. by apply lookup_insert_ne. }
  eexists. split; [split; [apply lookup_insert_eq |] |].
  - split; [done |]. unfold started. by flags.
  - unfold started. split; [| split; [done |]; split; [done |]; split; [done |]].
    + apply clamp_timeout_spec; [apply Hi | done].
    + flags. change (has_flag UV_HANDLE_REF (clear_flag UV_HANDLE_ACTIVE h) = has_flag UV_HANDLE_REF h). by flags.
Qed.
End PhaseTheorems.

(** ** A program *)

Module Demo.
Definition clock (n : nat) : Z := 5000000 + Z.of_nat n.
Definition no_close (a : addr) : prog (uv_loop_t (list addr)) unit := mret tt.
Definition no_finish (a : addr) : prog (uv_loop_t (list addr)) bool := mret true.

Definition blank : uv_loop_t (list addr) := mk_loop 0 0 0 0 0 None (mk_heap None 0 ∅) (mk_qmem ∅ ∅) ∅ 0 [].

(** Three timers, of which two are due, two idle watchers, and a handle to close. *)
Definition setup : client (list addr) :=
  Call (TimerInit 1) (Call (TimerInit 2) (Call (TimerInit 3)
  (Call (TimerStart 3 (Some 1) 0 7) (Call (TimerStart 2 (Some 1) 9 0) (Call (TimerStart 1 (Some 1) 0 0)
  (Call (WatcherInit Idle 4) (Call (WatcherInit Idle 5)
  (Call (WatcherStart Idle 4 (Some 2)) (Call (WatcherStart Idle 5 (Some 2))
  (Call (TimerInit 6) (Call (Close 6 (Some 3)) Return)))))))))))%positive.

Definition started_loop : uv_loop_t (list addr) := (run_client no_close setup (initial clock blank)).2.

(** Timers close themselves, idle watchers start a timer anew. *)
Definition code (c : cb) (a : addr) : client (list addr) :=
  match c with
  | 1 => Call (Close a (Some 3)) Return
  | 2 => Call (TimerStart 2 (Some 1) 0 0) (Call (WatcherStop Idle a) Return)
  | _ => Return
  end%positive.

Definition poll (timeout : Z) : prog (uv_loop_t (list addr)) unit :=
  run_client no_close (Call (WatcherStop Idle 4) Return)%positive.

Definition effect (c : cb) (a : addr) (v : list addr) : list addr := v ++ [a].

(** Callbacks that note the handle they are called for, as client code and as a function. *)
Definition quiet_code (c : cb) (a : addr) : client (list addr) :=
  Look (fun s => SetWorld (effect c a (l_world s)) Return).
Definition noting (c : cb) (a : addr) : prog (uv_loop_t (list addr)) unit := run_client no_close (quiet_code c a).

Lemma noting_run c a s : noting c a s = (Done tt, set_world (effect c a (l_world s)) s).
Proof. done. Qed.

Lemma quiet_code_quiet : quiet no_close quiet_code effect.
Proof. done. Qed.

Definition plenty : nat := Z.to_nat max_handles.

Lemma plenty_enough : max_handles <= Z.of_nat plenty.
Proof. unfold plenty. rewrite Z2Nat.id by (unfold max_handles; lia). reflexivity. Qed.

Lemma poll_keeps t : Keeps (poll t).
Proof. apply run_client_keeps. Qed.

Lemma started_run : run_client no_close setup (initial clock blank) = (Done tt, started_loop).
Proof. vm_compute. reflexivity. Qed.

Lemma started_reach :
  reach no_close no_finish code (fun _ => Return) clock poll plenty started_loop.
Proof.
  eapply reach_client, started_run. by eapply reach_init, uv_loop_init_run.
Qed.

Lemma started_sound : sound started_loop.
Proof. apply (reach_sound _ _ _ _ _ _ _ poll_keeps plenty_enough _ started_reach). Qed.
End Demo.
Import Demo.

Lemma loop_invariant_witness :
  consistent started_loop /\
  exists b, uv__loop_alive started_loop = (Done b, started_loop) /\ (b = true <-> alive started_loop).
Proof. exact (loop_invariant _ _ _ _ _ _ _ poll_keeps plenty_enough _ started_reach). Defined.

Lemma loop_safe_witness :
  (forall p, exists s', run_client no_close p started_loop = (Done tt, s') /\ consistent s') /\
  (forall w, exists s', uv__run_watchers (fun c a => run_client no_close (code c a)) plenty w started_loop
     = (Done tt, s') /\ consistent s') /\
  (exists s', uv__run_closing_handles no_finish (fun c a => run_client no_close (code c a)) plenty started_loop
     = (Done tt, s') /\ consistent s') /\
  (forall mode, match uv_run no_finish (fun c a => run_client no_close (code c a))
                  (fun _ => run_client no_close Return) clock poll plenty mode started_loop with
                | (Done _, s') => consistent s'
                | (NoFuel, _) => True
                | _ => False
                end).
Proof. exact (loop_safe _ _ _ (fun _ => Return) _ _ _ poll_keeps plenty_enough _ started_reach). Defined.

(** The callbacks of [code] close the two timers that are due and fire; those of
    [quiet_code] let them stand. *)
Lemma timers_fire_in_order_witness :
  match uv__run_timers (fun c a => run_client no_close (code c a)) 9 started_loop with
  | (Done _, s') => sound s' /\ exists l, firings no_close code started_loop l s'
  | (NoFuel, _) => True
  | _ => False
  end /\
  exists l s', uv__run_timers noting 9 started_loop = (Done tt, s') /\ sound s' /\
    NoDup l /\ (forall a, a ∈ l <-> is_due started_loop a) /\
    StronglySorted (fun a b => timer_less_than (l_handles started_loop) b a = false) l /\
    ran_timers effect l started_loop s' /\ forall a, ~ is_due s' a.
Proof.
  pose proof (timers_fire_in_order no_close code 9 started_loop started_sound) as [H1 _].
  pose proof (timers_fire_in_order no_close quiet_code 9 started_loop started_sound) as [_ H2].
  split; [exact H1 |].
  destruct H2 as [_ H2]; [vm_compute; reflexivity | vm_compute; lia |].
  exact (H2 effect quiet_code_quiet).
Defined.

(** The two due timers, in the order of their starts; the first is closed by its callback. *)
Example demo_timers : l_world (uv__run_timers noting 9 started_loop).2 = [3; 1]%positive.
Proof. vm_compute. reflexivity. Qed.

Example demo_timers_close :
  let s' := (uv__run_timers (fun c a => run_client no_close (code c a)) 9 started_loop).2 in
  uv__is_closing <$> l_handles s' !! 3%positive = Some true.
Proof. vm_compute. reflexivity. Qed.

Lemma watchers_run_in_order_witness :
  exists l q', let s' := set_world (foldl (invoke effect h_cb (l_handles started_loop)) (l_world started_loop) l)
      (set_queues q' started_loop) in
    uv__run_watchers noting 9 Idle started_loop = (Done tt, s') /\ sound s' /\
    ring (Handles Idle) (QueueOf <$> l) (l_queues started_loop) /\ ring (Handles Idle) (QueueOf <$> l) q' /\ NoDup l /\
    forall a, a ∈ l <-> exists h, l_handles started_loop !! a = Some h /\ h_type h = watcher_type Idle /\
      uv__is_active h = true.
Proof. apply (watchers_run_in_order noting effect 9 Idle started_loop noting_run started_sound). vm_compute. lia. Defined.

(** [uv_idle_start] puts a watcher at the head. *)
Example demo_watchers : l_world (uv__run_watchers noting 9 Idle started_loop).2 = [5; 4]%positive.
Proof. vm_compute. reflexivity. Qed.

Lemma closes_finish_once_witness :
  exists l s', closing_chain (l_handles started_loop) (l_closing_handles started_loop) l /\ NoDup l /\
    (forall a, a ∈ l <-> exists h, l_handles started_loop !! a = Some h /\
       has_flag UV_HANDLE_CLOSING h = true /\ has_flag UV_HANDLE_CLOSED h = false) /\
    uv__run_closing_handles no_finish noting 9 started_loop = (Done tt, s') /\ sound s' /\
    ran_closes effect l (set_closing_handles None started_loop) s'.
Proof. apply (closes_finish_once noting effect no_finish 9 started_loop noting_run started_sound). vm_compute. lia. Defined.

Lemma next_timeout_bounds_witness :
  exists t, uv__next_timeout started_loop = (Done t, started_loop) /\
    ((t = -1 /\ forall a h, ~ is_timer started_loop a h) \/
     (0 <= t <= INT_MAX /\
      (exists a h, is_timer started_loop a h /\ t = Z.max 0 (Z.min INT_MAX (h_timeout h - l_time started_loop))) /\
      forall a h, is_timer started_loop a h -> t <= Z.max 0 (h_timeout h - l_time started_loop))).
Proof. exact (next_timeout_bounds started_loop started_sound). Defined.

Lemma timer_start_spec_witness :
  exists h r s', l_handles started_loop !! 2%positive = Some h /\
    uv_timer_start 2 (Some 1%positive) (2 ^ 64 - 1) 3 started_loop = (Done r, s') /\ sound s' /\ r = 0 /\
    exists h', is_timer s' 2 h' /\ h_timeout h' = UINT64_MAX.
Proof.
  destruct (l_handles started_loop !! 2%positive) as [h |] eqn:Hh; [| by vm_compute in Hh].
  assert (h_type h = UV_TIMER /\ uv__is_closing h = false) as [Hty Hcl]
    by (vm_compute in Hh; injection Hh as <-; split; reflexivity).
  destruct (timer_start_spec started_loop 2 h (Some 1%positive) (2 ^ 64 - 1) 3 started_sound Hh Hty) as (r & s' & E & Hs & H);
    [lia.. |]. exists h, r, s'. rewrite Hcl in H. destruct H as (-> & _ & Ht & _ & h' & Hh' & Hto & _).
  split; [reflexivity |]. split; [exact E |]. split; [exact Hs |]. split; [reflexivity |].
  exists h'. split; [exact Hh' |]. rewrite Hto. vm_compute. reflexivity.
Defined.
